(* ===== verification/_CoqProject ===== *)
-Q . S2P
Prelude.v
Scheduler.v
Pipeline.v
Fault.v
Buffer.v
Meta.v
Connpool.v
Volume.v
Request.v
Dispatch.v
Recovery.v
Wire.v
Mux.v
Monitor.v
Placement.v
OsdServer.v
OsdConn.v
Interop.v
ObjectLock.v
ObjectStore.v
OsdStm.v
Codec.v
RollingBlob.v
DiskLog.v
KvStore.v
KvDurable.v
RaftLog.v
Raft.v
RaftFrame.v
RaftElection.v
RaftCommit.v
