(* ===== verification/Prelude.v ===== *)
(** * fastblock: a verification library for its kernel driver, its raw protocol and
      the object side of its OSDs

    fastblock is a distributed block store.  A Linux driver (kfastblock/) shows an
    image as a block device.  It asks a monitor (monitor/) where the image and the
    placement groups are, cuts every block request into operations on objects, and
    sends each of them to the OSD (src/osd/) that leads the object's placement
    group.  The three parties speak a raw TCP protocol; an OSD keeps objects in a
    blobstore (src/localstore/).

    ** Files and parts

    - Prelude: pointers as [option], machine integers as [Z] with their wrap-around,
      error numbers, record updates, the kernel's clock, byte strings, and the
      tactics and lemmas that every file uses.
    - Scheduler (kfastblock/src/scheduler.c): the window of objects in flight.
    - Pipeline (pipeline.c): the table of exchanges with OSDs, over a free list and
      a list in flight that hold indexes of entries.
    - Fault (fault.c): fault injection and its text form.
    - Buffer (buffer.c): the cache of object buffers.
    - Meta (meta.c): the view of the cluster, found by bisection, and the cache of
      leaders.
    - Connpool (connpool.c): connection slots, health, backoff and reservation.
    - Volume (volume.c): statistics, health, the event log, requests in flight and
      the queue gate.
    - Request and Dispatch (request.c): Request splits a block request into extents
      and collects its placement groups; Dispatch has the states of the objects,
      the batches that are sent, retries and completion.
    - Recovery (recovery.c): what is done after each kind of failure.
    - Wire (transport.c, raw_proto.h): the bytes of the protocol on the driver's
      side: sending, receiving, framing, request bodies and response decoders.
    - Mux (transport.c): OSD sockets shared by several workers.
    - Monitor (monitor/rawproto, monitor/rawserver): the monitor's side.
    - Placement (monitor/osd/topology.go, calculator.go): the tree of OSDs, failure
      domains and the groups of a new pool.
    - OsdServer and OsdConn (src/osd/raw_tcp_server.cc): the OSD's side; OsdServer
      has the requests in flight, OsdConn the bytes of one connection.
    - Interop: driver, monitor and OSD together.
    - ObjectLock (src/osd/osd_stm.h): the locks of objects.
    - ObjectStore (src/localstore/object_store.cc): objects as SPDK blobs.
    - OsdStm (src/osd/osd_stm.cc, src/raft/state_machine.cc): applying the log of a
      placement group to the object store.
    - Codec (src/localstore/types.h, spdk_buffer.h, log_entry.h, kv_store.h and
      src/raft/configuration_manager.cc): what is written to disk as bytes.
    - RollingBlob (src/localstore/rolling_blob.h): a ring on a blob, with a super
      block that says where it begins.
    - DiskLog (src/localstore/disk_log.h): the log of a placement group on such a
      ring.
    - KvStore (src/localstore/kv_store.h, kv_store.cc, kv_checkpoint.h,
      kv_checkpoint.cc and the encoder of spdk_buffer.h): the key-value store, its
      checkpoints in blobs and its batches of operations on a ring.
    - KvDurable: the store as a map that survives restarts.
    - RaftLog (src/raft/raft_cache.h, raft_log.h, raft_log.cc): the cache of entries,
      the queue of a leader and the log on disk below them.
    - Raft (src/raft/raft_server.cc, raft.h, raft_node.h, configuration_manager.cc,
      append_entry_buffer.cc, and the raft parts of raft_service.h and pg_group.cc): a
      member of a placement group, in a monad of state and failing assertions; what it
      sends, writes and completes is a list of actions.
    - RaftFrame: what the handlers that have no part in an election leave alone.
    - RaftElection: votes and leaders of a group of servers.
    - RaftCommit: commits, flushing and changes of members.

    A component has its C or C++ structures as records, one definition for each
    function under its own name, and one for each loop or critical section that a
    proof speaks of.  A pointer that the code compares with NULL is an [option], an
    out-parameter is a result, a guard is a branch.  Where threads take turns, a
    step relation has one step for each critical section.

    ** What is assumed

    Code that is not in the repository is a parameter.  [Clock] is the conversion of
    milliseconds to jiffies, [Stream] a TCP connection ([StreamLaws] says that bytes
    arrive in order), [Blobs] the blobstore of SPDK ([BlobLaws] says what reading,
    writing and creating blobs does, [CkptLaws] what the checkpoints need besides),
    [BlobIo] an open blob ([BlobIoLaws]), [ConfigCodec] the protobuf form of a
    configuration.  Time, random numbers and connections are the argument [env] of the
    raft handlers; the order of a loop over a Go map and random numbers are arguments of
    the monitor's functions.  Memory allocation is a function or a flag
    that says whether it succeeds.  The monitor's database is an argument of its
    handlers.  Each class has an instance that the witnesses run.

    ** What is shown

    - Data path: a block request is cut into extents that cover each of its bytes
      exactly once, at the right object and offset (Request); the operation on an
      extent that the driver encodes is the operation the OSD performs, and the data
      it reads comes back into the right part of the buffer (Interop).
    - Protocol: responses and requests are framed however TCP cuts them (Wire,
      OsdConn); no response makes a decoder leave its buffers (Wire); the monitor's
      cluster map arrives as a well-formed view with the same content (Interop); an
      OSD sends the responses of distinct requests whole and once (OsdConn); on a
      shared socket each waiter gets the response with its own number (Mux).
    - State: counters, lists and windows keep their invariants under every sequence
      of calls (Scheduler, Pipeline, Buffer, Connpool, Volume, Dispatch); searches by
      bisection equal linear searches, and the leader cache is a finite map (Meta);
      the pipeline is a table keyed by sequence number (Pipeline).
    - Failures: each failure has exactly the effect its classification names
      (Recovery); a failed endpoint is left alone until its backoff has passed
      (Connpool).
    - OSD: operations on an object exclude each other by type and get its lock in
      the order in which they came (ObjectLock); the object store is a map from names
      to bytes, whatever its blobstore does within its promises (ObjectStore);
      replicas that have applied the same log agree, and reads return what the log
      has written (OsdStm).
    - Disk: a ring is a stream that is cut at both ends (RollingBlob), the log on it
      a list of entries (DiskLog); after a restart the log is found again, with the
      entries that the super block does not know (DiskLog); what is encoded is
      decoded (Codec).  The key-value store is a map that a restart finds as the last
      poll has left it, with or without a checkpoint (KvDurable).
    - Raft: in any run of a group of servers, with messages lost, delayed and
      repeated and restarts from what was written, a term has one leader for the same
      members (RaftElection); an index that is committed for a successful response is
      in the logs of a majority (RaftCommit); flushing ends (RaftCommit); the cache of
      entries is a window of the log (RaftLog).  The runs of RaftElection leave out the
      time when members are being added, and restarts that lose operations of the
      key-value store, for which the property is false ([lost_vote_two_leaders]).
    - Monitor: a new pool has all its groups, each on OSDs of distinct hosts, with the
      first places spread evenly (Placement).
    - Some theorems show what the code does wrong: [request_parts_send_from_null],
      [image_info_never_fetched], [closing_strands_waiters],
      [full_connection_blocks_itself], [complete_from_queued_leaves_count],
      [object_names_collide_across_images], [snapshot_forgets_oldest_use],
      [waking_a_quick_waiter_never_ends], [waiters_are_woken_one_by_one],
      [write_after_delete_is_lost], [write_past_end_is_cut],
      [failed_append_stalls_front], [failed_first_part_has_no_completion],
      [load_reads_more_than_one_turn], [load_stops_at_large_entry],
      [length_check_wraps], [full_ring_never_loads], [failed_checkpoint_empties_log],
      [short_ring_stops_store], [lost_vote_two_leaders], [new_leader_commits_all],
      [failure_counts_as_vote], [failed_change_blocks] and [cut_follower_stops].

    ** Fuel

    Loops that are not structural have fuel.  Bisection has the number of entries,
    splitting the number of free extent slots, the loops that send and receive the
    number of bytes, the receiving work of a shared socket the number of waiters, the
    polls of an OSD connection the number of events of its socket; theorems of those
    files show that this is enough.  Loading a log takes at most one read for each
    entry and one more, and the loop over what was read a turn for each page.
    Replaying the key-value store takes a turn for each page of the ring that is used
    and one more.  A leader flushes its queue in one turn for each entry and two more.
    Drawing a host at random takes as many turns as it takes each host to come up.
    [ObjectLock.wake] has the number of waiters, and
    no fuel is enough when a waiter releases the lock at once.

    ** Not modelled

    The block layer, workqueues, timers and sysfs files of the driver (calls into the
    kernel, and text formatting); its control device, self-check and command line
    tools; recovery of a member by snapshots of objects (calls of SPDK and RPC in turn,
    an action without effect here); the OSD process and its RDMA messaging, which are driven by SPDK and
    RDMA hardware events; the creation of blobs and the search for them at start-up; the user-space client
    and bdev; the monitor's elections, pools and images, which work on
    etcd; scripts and deployment. *)

From stdpp Require Export base tactics numbers list sets strings pretty.
From Stdlib Require Export ZArith Lia Ascii.

#[global] Open Scope Z_scope.

(** * Pointers

    A C pointer that the code compares with [NULL] is a [ptr]: [NULL] or the
    pointee.  The guard [if (!p) return d;] is the [NULL] branch of a match,
    and a [void] operation on a pointee is [f <$> p]. *)

Abbreviation ptr := option.
Abbreviation NULL := None.

Declare Scope kfb_scope.
Delimit Scope kfb_scope with kfb.

(** * Machine integers

    Values are kept in [Z]; a conversion or an arithmetic result is wrapped
    where the C type has the width for it. *)

Definition u8 (x : Z) : Z := x mod 2 ^ 8.
Definition u16 (x : Z) : Z := x mod 2 ^ 16.
Definition u32 (x : Z) : Z := x mod 2 ^ 32.
Definition u64 (x : Z) : Z := x mod 2 ^ 64.

(** The two's complement reading of the low [w] bits. *)
Definition swrap (w : Z) (x : Z) : Z :=
  let y := x mod 2 ^ w in
  if y <? 2 ^ (w - 1) then y else y - 2 ^ w.

Definition s32 (x : Z) : Z := swrap 32 x.
Definition s64 (x : Z) : Z := swrap 64 x.

Definition U16_MAX : Z := 65535.
Definition U32_MAX : Z := 4294967295.

(** [if (x)] on an integer. *)
Definition truthy (x : Z) : bool := negb (x =? 0).

(** The GNU [x ? x : d]. *)
Definition or_else (x d : Z) : Z := if x =? 0 then d else x.

(** [if (x) x--;] *)
Definition dec_if_nonzero (x : Z) : Z := if x =? 0 then 0 else x - 1.

(** [atomic64_inc], [atomic64_add] and [atomic_inc], [atomic_dec]: the
    kernel's atomics wrap in two's complement. *)
Definition atomic64_add (n x : Z) : Z := s64 (x + n).
Definition atomic64_inc (x : Z) : Z := atomic64_add 1 x.
Definition atomic_add (n x : Z) : Z := s32 (x + n).

Definition is_u16 (x : Z) : Prop := 0 <= x < 2 ^ 16.
Definition is_u32 (x : Z) : Prop := 0 <= x < 2 ^ 32.
Definition is_u64 (x : Z) : Prop := 0 <= x < 2 ^ 64.

(** [x & flag] as a condition. *)
Definition has_flag (x flag : Z) : bool := truthy (Z.land x flag).

(** * Time

    [jiffies] is an [unsigned long] of 64 bits.  Each operation of the model
    that reads it takes the reading as the argument [now]. *)

(** [time_before(a, b)] is [(long)(a - b) < 0], [time_after(a, b)] is
    [time_before(b, a)]. *)
Definition time_before (a b : Z) : bool := s64 (a - b) <? 0.
Definition time_after (a b : Z) : bool := time_before b a.
Definition time_after_eq (a b : Z) : bool := 0 <=? s64 (a - b).

(** The conversions between jiffies and milliseconds depend on the tick rate
    [HZ] the kernel was configured with: they are an interface of the model. *)
Class Clock := {
  msecs_to_jiffies : Z -> Z;
  jiffies_to_msecs : Z -> Z;
}.

(** What the development relies on: a conversion yields an [unsigned long]
    within the half range that [time_before] orders, it is monotone, it never
    rounds a positive delay down to nothing, and nothing takes no time. *)
Class ClockLaws (C : Clock) : Prop := {
  msecs_to_jiffies_range (m : Z) : 0 <= m < 2 ^ 32 -> 0 <= msecs_to_jiffies m < 2 ^ 62;
  msecs_to_jiffies_mono (m n : Z) :
    0 <= m <= n -> n < 2 ^ 32 -> msecs_to_jiffies m <= msecs_to_jiffies n;
  msecs_to_jiffies_pos (m : Z) : 0 < m < 2 ^ 32 -> 0 < msecs_to_jiffies m;
}.

(** A kernel built with [HZ=1000]. *)
Definition clock_hz1000 : Clock :=
  {| msecs_to_jiffies := fun m => m; jiffies_to_msecs := fun j => u32 j |}.

Lemma clock_hz1000_laws : ClockLaws clock_hz1000.
Proof. split; simpl; intros; lia. Qed.

(** * Error numbers *)

Definition EPERM : Z := 1.
Definition ENOENT : Z := 2.
Definition EIO : Z := 5.
Definition ENXIO : Z := 6.
Definition E2BIG : Z := 7.
Definition EAGAIN : Z := 11.
Definition ENOMEM : Z := 12.
Definition EBUSY : Z := 16.
Definition EEXIST : Z := 17.
Definition ENODEV : Z := 19.
Definition EINVAL : Z := 22.
Definition EPIPE : Z := 32.
Definition ENOLINK : Z := 67.
Definition EPROTO : Z := 71.
Definition EOPNOTSUPP : Z := 95.
Definition ENETUNREACH : Z := 101.
Definition ECONNRESET : Z := 104.
Definition ENOTCONN : Z := 107.
Definition ETIMEDOUT : Z := 110.
Definition ECONNREFUSED : Z := 111.
Definition EHOSTDOWN : Z := 112.
Definition EHOSTUNREACH : Z := 113.
Definition EALREADY : Z := 114.
Definition EINPROGRESS : Z := 115.
Definition ESTALE : Z := 116.
Definition EUCLEAN : Z := 117.
Definition ECANCELED : Z := 125.

(** * Record update

    [r <| f := v |>] is [r] with field [f] set to [v], and [r <| f ::= g |>]
    applies [g] to the field.  A record declares its fields once, in an
    instance of [Eta]; the setters are derived by abstracting the projection
    out of the expanded record. *)

Class Eta (R : Type) := eta : R -> R.
Class SetField {R T : Type} (proj : R -> T) := set_field : T -> R -> R.
Arguments set_field {R T} proj {_} v r /.
Definition upd_field {R T : Type} (proj : R -> T) `{SetField R T proj}
    (f : T -> T) (r : R) : R :=
  set_field proj (f (proj r)) r.
Arguments upd_field {R T} proj {_} f r /.

Ltac derive_set_field :=
  match goal with
  | |- @SetField ?R ?T ?proj =>
      let H := constr:(_ : Eta R) in
      let v := fresh "v" in
      let r := fresh "r" in
      intros v r;
      let e := eval hnf in (@eta R H r) in
      match eval pattern (proj r) in e with
      | ?F _ => let t := eval cbv beta in (F v) in exact t
      end
  end.

#[export] Hint Extern 1 (SetField _) => derive_set_field : typeclass_instances.

Notation "r <| proj := v |>" := (set_field proj v r)
  (at level 12, left associativity, proj at level 9, v at level 200,
   format "r  <| proj  :=  v |>").
Notation "r <| proj ::= f |>" := (upd_field proj f r)
  (at level 12, left associativity, proj at level 9, f at level 200,
   format "r  <| proj  ::=  f |>").

(** * Fixed-size strings

    A [char a[n]] holding a C string is a [string] shorter than [n].
    [strscpy] and [scnprintf] keep the first [n - 1] characters. *)

Definition strscpy (s : string) (size : nat) : string :=
  if decide (String.length s < size)%nat then s else String.substring 0 (size - 1) s.

(** [a[0] == '\0'] *)
Definition str_empty (s : string) : bool := bool_decide (s = EmptyString).

(** [!strcmp(a, b)] *)
Definition streq (a b : string) : bool := bool_decide (a = b).

(** The bytes of a string, and the C string held by an array of bytes: what
    precedes the first NUL. *)
Definition bytes_of_string (s : string) : list Z :=
  (fun c => Z.of_nat (nat_of_ascii c)) <$> String.list_ascii_of_string s.

Fixpoint string_of_bytes (bs : list Z) : string :=
  match bs with
  | [] => EmptyString
  | b :: bs => if b =? 0 then EmptyString
               else String (ascii_of_nat (Z.to_nat b)) (string_of_bytes bs)
  end.

(** A string that C can hold: no NUL among its characters. *)
Definition no_nul (s : string) : Prop := Forall (fun b => b <> 0) (bytes_of_string s).

(** * Tactics *)

Create HintDb kfb discriminated.
Create Rewrite HintDb kfb_simp.

(** Splits every boolean test of the goal and of the hypotheses into the
    proposition it decides, and every [if] into its branches. *)
Ltac zcases :=
  repeat match goal with
  | |- context [if ?b then _ else _] =>
      match b with context [if _ then _ else _] => fail 1 | _ => destruct b eqn:? end
  | H : context [if ?b then _ else _] |- _ =>
      match b with context [if _ then _ else _] => fail 1 | _ => destruct b eqn:? end
  end.

Ltac unbool :=
  unfold truthy, or_else, has_flag in *;
  rewrite ?andb_true_iff, ?andb_false_iff, ?orb_true_iff, ?orb_false_iff,
    ?negb_true_iff, ?negb_false_iff, ?Z.eqb_eq, ?Z.eqb_neq, ?Z.ltb_lt,
    ?Z.ltb_ge, ?Z.leb_le, ?Z.leb_gt in *.

(** Arithmetic after all case splits. *)
Ltac zsolve := intros; unbool; zcases; unbool; try lia.

(** [lia] with divisions and remainders by constants, on [Z] and [nat]. *)
Ltac div_lia := zify; Z.to_euclidean_division_equations; lia.

(** Case split on the first pointer or option match of the goal. *)
Ltac case_ptr :=
  match goal with |- context [match ?p with Some _ => _ | None => _ end] =>
    destruct p eqn:? end.

(** * Lemmas on machine integers *)

Lemma u32_small (x : Z) : 0 <= x < 2 ^ 32 -> u32 x = x.
Proof. apply Z.mod_small. Qed.

Lemma u64_small (x : Z) : 0 <= x < 2 ^ 64 -> u64 x = x.
Proof. apply Z.mod_small. Qed.

Lemma u16_small (x : Z) : 0 <= x < 2 ^ 16 -> u16 x = x.
Proof. apply Z.mod_small. Qed.

Lemma u32_range (x : Z) : 0 <= u32 x < 2 ^ 32.
Proof. apply Z.mod_pos_bound; lia. Qed.

Lemma u64_range (x : Z) : 0 <= u64 x < 2 ^ 64.
Proof. apply Z.mod_pos_bound; lia. Qed.

Lemma s32_small (x : Z) : - 2 ^ 31 <= x < 2 ^ 31 -> s32 x = x.
Proof.
  intros H. unfold s32, swrap. change (2 ^ (32 - 1)) with (2 ^ 31).
  destruct (decide (0 <= x)).
  - rewrite Z.mod_small by lia. zsolve.
  - replace (x mod 2 ^ 32) with (x + 2 ^ 32)
      by (rewrite <- (Z_mod_plus_full x 1 (2 ^ 32)), Z.mod_small; lia).
    zsolve.
Qed.

Lemma s64_small (x : Z) : - 2 ^ 63 <= x < 2 ^ 63 -> s64 x = x.
Proof.
  intros H. unfold s64, swrap. change (2 ^ (64 - 1)) with (2 ^ 63).
  destruct (decide (0 <= x)).
  - rewrite Z.mod_small by lia. zsolve.
  - replace (x mod 2 ^ 64) with (x + 2 ^ 64)
      by (rewrite <- (Z_mod_plus_full x 1 (2 ^ 64)), Z.mod_small; lia).
    zsolve.
Qed.

Lemma s64_wrap (x : Z) : s64 (u64 x) = s64 x.
Proof. unfold s64, swrap, u64. by rewrite Z.mod_mod by lia. Qed.

(** Wrapped deadlines order like the unbounded ones within the half range. *)
Lemma s64_u64_sub (a b : Z) : s64 (a - u64 b) = s64 (a - b).
Proof.
  unfold s64, swrap, u64.
  by rewrite Zminus_mod_idemp_r.
Qed.

Lemma time_before_deadline (now d : Z) :
  0 <= d < 2 ^ 63 -> time_before now (u64 (now + d)) = (0 <? d).
Proof.
  intros H. unfold time_before. rewrite s64_u64_sub.
  replace (now - (now + d)) with (- d) by lia.
  rewrite s64_small by lia. zsolve.
Qed.

Lemma s64_u64_sub_l (a b : Z) : s64 (u64 a - b) = s64 (a - b).
Proof. unfold s64, swrap, u64. by rewrite Zminus_mod_idemp_l. Qed.

(** A deadline [d] jiffies after [now], looked at [k] jiffies after [now]. *)
Lemma time_before_elapsed (now k d : Z) :
  0 <= k < 2 ^ 62 -> 0 <= d < 2 ^ 62 ->
  time_before (u64 (now + k)) (u64 (now + d)) = (k <? d).
Proof.
  intros. unfold time_before. rewrite s64_u64_sub, s64_u64_sub_l.
  replace (now + k - (now + d)) with (k - d) by lia.
  rewrite s64_small by lia. zsolve.
Qed.

Lemma dec_if_nonzero_pos (x : Z) : 0 < x -> dec_if_nonzero x = x - 1.
Proof. unfold dec_if_nonzero. zsolve. Qed.

Lemma strscpy_fits (s : string) (n : nat) :
  (String.length s < n)%nat -> strscpy s n = s.
Proof. intros H. unfold strscpy. by rewrite decide_True. Qed.

Lemma length_bytes_of_string (s : string) :
  List.length (bytes_of_string s) = String.length s.
Proof.
  unfold bytes_of_string. rewrite length_fmap. by induction s as [|c s IH]; simpl; [|rewrite IH].
Qed.

Lemma bytes_of_string_range (s : string) : Forall (fun b => 0 <= b < 256) (bytes_of_string s).
Proof.
  unfold bytes_of_string. apply Forall_fmap, Forall_true. intros c. simpl.
  pose proof (nat_ascii_bounded c). lia.
Qed.

Lemma string_of_bytes_of_string (s : string) :
  no_nul s -> string_of_bytes (bytes_of_string s) = s.
Proof.
  unfold no_nul, bytes_of_string. induction s as [|c s IH]; [done|]. simpl.
  intros [Hc Hs]%Forall_cons. rewrite (proj2 (Z.eqb_neq _ _) Hc), Nat2Z.id, ascii_nat_embedding.
  f_equal. by apply IH.
Qed.

#[export] Hint Resolve u32_range u64_range : kfb.
#[export] Hint Rewrite u32_small u64_small u16_small using lia : kfb_simp.

(** * Counting

    The request and connection code keeps counters of how many array elements
    are in a given state; [count_if] is the specification of such counters. *)

Section count.
Context {A : Type}.
Implicit Types (p : A -> bool) (l : list A).

Definition count_if (p : A -> bool) (l : list A) : Z :=
  Z.of_nat (length (List.filter p l)).

Lemma count_if_nil p : count_if p [] = 0.
Proof. done. Qed.

Lemma count_if_cons p x l : count_if p (x :: l) = Z.b2z (p x) + count_if p l.
Proof. unfold count_if. simpl. destruct (p x); simpl; lia. Qed.

Lemma count_if_app p l1 l2 : count_if p (l1 ++ l2) = count_if p l1 + count_if p l2.
Proof.
  unfold count_if. rewrite List.filter_app, List.length_app. lia.
Qed.

Lemma count_if_nonneg p l : 0 <= count_if p l.
Proof. unfold count_if. lia. Qed.

Lemma count_if_le_length p l : count_if p l <= Z.of_nat (length l).
Proof.
  induction l as [|x l IH]; [done|]. rewrite count_if_cons. simpl.
  destruct (p x); simpl; lia.
Qed.

Lemma count_if_insert p l i x y :
  l !! i = Some x ->
  count_if p (<[i := y]> l) = count_if p l - Z.b2z (p x) + Z.b2z (p y).
Proof.
  revert i. induction l as [|z l IH]; intros [|i] H; simplify_eq/=.
  - rewrite !count_if_cons. lia.
  - rewrite !count_if_cons, (IH _ H). lia.
Qed.

Lemma count_if_pos p l i x : l !! i = Some x -> p x = true -> 0 < count_if p l.
Proof.
  revert i. induction l as [|z l IH]; intros [|i] H Hp; simplify_eq/=;
    rewrite count_if_cons.
  - rewrite Hp. pose proof (count_if_nonneg p l). simpl. lia.
  - specialize (IH _ H Hp). destruct (p z); simpl; lia.
Qed.

Lemma count_if_ext p q l : (forall x, p x = q x) -> count_if p l = count_if q l.
Proof.
  intros H. induction l as [|x l IH]; [done|].
  by rewrite !count_if_cons, H, IH.
Qed.

Lemma count_if_false p l : Forall (fun x => p x = false) l -> count_if p l = 0.
Proof.
  induction 1 as [|x l Hx _ IH]; [done|]. rewrite count_if_cons, Hx. simpl. lia.
Qed.

Lemma count_if_zero p l : count_if p l = 0 -> Forall (fun x => p x = false) l.
Proof.
  induction l as [|x l IH]; [constructor|]. rewrite count_if_cons.
  pose proof (count_if_nonneg p l). intros H'.
  destruct (p x) eqn:Hx; simpl in H'; [lia|]. constructor; [done|]. apply IH. lia.
Qed.

Lemma count_if_all p l :
  Forall (fun x => p x = true) l -> count_if p l = Z.of_nat (length l).
Proof.
  induction 1 as [|x l Hx _ IH]; [done|]. rewrite count_if_cons, Hx, IH. simpl. lia.
Qed.

(** Disjoint predicates count disjoint elements. *)
Lemma count_if_orb p q l :
  (forall x, p x = true -> q x = true -> False) ->
  count_if (fun x => p x || q x) l = count_if p l + count_if q l.
Proof.
  intros H. induction l as [|x l IH]; [done|]. rewrite !count_if_cons, IH.
  specialize (H x). destruct (p x), (q x); simpl; try lia.
Qed.

End count.

Arguments count_if {A} p l : simpl never.

Lemma count_if_fmap {A B} (p : B -> bool) (f : A -> B) (l : list A) :
  count_if p (f <$> l) = count_if (fun x => p (f x)) l.
Proof.
  induction l as [|x l IH]; [done|]. by rewrite fmap_cons, !count_if_cons, IH.
Qed.

(** * Arrays

    [a[i]] with a C index; the index is an [unsigned], so it is converted. *)

Notation "l .[ i ]" := (l !! Z.to_nat i)
  (at level 2, left associativity, format "l .[ i ]") : kfb_scope.
#[global] Open Scope kfb_scope.
