(* ===== verification/Scheduler.v ===== *)
(** * The dispatch-window controller (kfastblock/src/scheduler.c)

    One controller per volume decides how many objects of a request may be on
    the wire at once.  It halves its window on a retry or a dispatch failure,
    grows it by one after a window's worth of successes, and under the
    [pressure] policy shrinks the sampled window further while too many I/Os
    are in flight or a cooldown is running.

    The state is the C struct, one field per member except the spinlock; every
    operation runs under that lock and is one atomic transition here. *)

From S2P Require Import Prelude.

Module Scheduler.

(** [enum kfastblock_scheduler_policy]; the controller stores it in a [u8]
    that sysfs may fill, so values outside the enum are representable. *)
Definition KFASTBLOCK_SCHED_POLICY_STATIC : Z := 0.
Definition KFASTBLOCK_SCHED_POLICY_ADAPTIVE : Z := 1.
Definition KFASTBLOCK_SCHED_POLICY_PRESSURE : Z := 2.

Record kfastblock_scheduler_sample := {
  sample_inflight_ios : Z;
  sample_request_objects : Z;
  sample_base_window : Z;
  sample_controller_window : Z;
  sample_pressure_window : Z;
  sample_effective_window : Z;
  sample_cooldown_active : bool;
  sample_policy : Z;
}.

Record kfastblock_scheduler_controller := {
  base_window : Z;
  current_window : Z;
  min_window : Z;
  max_window : Z;
  pressure_inflight_limit : Z;
  cooldown_ms : Z;
  consecutive_successes : Z;
  shrink_events : Z;
  grow_events : Z;
  retry_events : Z;
  dispatch_failures : Z;
  sample_events : Z;
  pressure_limited_samples : Z;
  cooldown_limited_samples : Z;
  cooldown_events : Z;
  last_sample_inflight_ios : Z;
  last_sample_request_objects : Z;
  last_sample_controller_window : Z;
  last_sample_pressure_window : Z;
  last_sample_effective_window : Z;
  cooldown_until_jiffies : Z;
  policy : Z;
  dynamic_enabled : bool;
}.

#[export] Instance eta_controller : Eta kfastblock_scheduler_controller := fun c =>
  {| base_window := base_window c;
     current_window := current_window c;
     min_window := min_window c;
     max_window := max_window c;
     pressure_inflight_limit := pressure_inflight_limit c;
     cooldown_ms := cooldown_ms c;
     consecutive_successes := consecutive_successes c;
     shrink_events := shrink_events c;
     grow_events := grow_events c;
     retry_events := retry_events c;
     dispatch_failures := dispatch_failures c;
     sample_events := sample_events c;
     pressure_limited_samples := pressure_limited_samples c;
     cooldown_limited_samples := cooldown_limited_samples c;
     cooldown_events := cooldown_events c;
     last_sample_inflight_ios := last_sample_inflight_ios c;
     last_sample_request_objects := last_sample_request_objects c;
     last_sample_controller_window := last_sample_controller_window c;
     last_sample_pressure_window := last_sample_pressure_window c;
     last_sample_effective_window := last_sample_effective_window c;
     cooldown_until_jiffies := cooldown_until_jiffies c;
     policy := policy c;
     dynamic_enabled := dynamic_enabled c |}.

(** ** Operations *)

Definition kfastblock_scheduler_clamp_window (window min_window max_window : Z) : Z :=
  let min_window := if min_window =? 0 then 1 else min_window in
  let max_window := if max_window =? 0 then min_window else max_window in
  let max_window := if max_window <? min_window then min_window else max_window in
  if window <? min_window then min_window
  else if max_window <? window then max_window
  else window.

Definition kfastblock_scheduler_policy_name (policy : Z) : string :=
  if policy =? KFASTBLOCK_SCHED_POLICY_STATIC then "static"
  else if policy =? KFASTBLOCK_SCHED_POLICY_ADAPTIVE then "adaptive"
  else if policy =? KFASTBLOCK_SCHED_POLICY_PRESSURE then "pressure"
  else "unknown".

Definition kfastblock_scheduler_clamp_policy (policy : Z) : Z :=
  if (policy =? KFASTBLOCK_SCHED_POLICY_STATIC)
     || (policy =? KFASTBLOCK_SCHED_POLICY_ADAPTIVE)
     || (policy =? KFASTBLOCK_SCHED_POLICY_PRESSURE)
  then policy
  else KFASTBLOCK_SCHED_POLICY_ADAPTIVE.

Section with_clock.
Context `{Clock}.

Definition kfastblock_scheduler_is_cooldown_active_locked
    (now : Z) (controller : ptr kfastblock_scheduler_controller) : bool :=
  match controller with
  | NULL => false
  | Some c => truthy (cooldown_ms c) && time_before now (cooldown_until_jiffies c)
  end.

Definition kfastblock_scheduler_activate_cooldown_locked
    (now : Z) (controller : ptr kfastblock_scheduler_controller)
    : ptr kfastblock_scheduler_controller :=
  match controller with
  | NULL => NULL
  | Some c =>
      if (cooldown_ms c =? 0)
         || negb (policy c =? KFASTBLOCK_SCHED_POLICY_PRESSURE)
         || negb (dynamic_enabled c)
      then Some c
      else Some (c <| cooldown_until_jiffies := u64 (now + msecs_to_jiffies (cooldown_ms c)) |>
                   <| cooldown_events ::= fun n => u32 (n + 1) |>)
  end.

(** The two flags are out parameters: they are only ever set to [true], and
    only where the caller passed a non-NULL pointer. *)
Definition kfastblock_scheduler_limit_for_pressure_locked
    (controller : ptr kfastblock_scheduler_controller)
    (window inflight_ios : Z) (cooldown_active : bool)
    (pressure_limited cooldown_limited : ptr bool) : Z * ptr bool * ptr bool :=
  match controller with
  | NULL => (1, pressure_limited, cooldown_limited)
  | Some c =>
      let limited := kfastblock_scheduler_clamp_window
                       (or_else window 1) (min_window c) (max_window c) in
      let '(limited, pressure_limited) :=
        if truthy (pressure_inflight_limit c)
           && (pressure_inflight_limit c <? inflight_ios)
        then
          let over := inflight_ios - pressure_inflight_limit c in
          let reduced :=
            if limited <=? over then min_window c
            else Z.max (limited - over) (min_window c) in
          if reduced <? limited
          then (reduced, (fun _ => true) <$> pressure_limited)
          else (limited, pressure_limited)
        else (limited, pressure_limited) in
      let '(limited, cooldown_limited) :=
        if cooldown_active && (min_window c <? limited)
        then
          let cooled := Z.max (limited / 2) (min_window c) in
          if cooled <? limited
          then (cooled, (fun _ => true) <$> cooldown_limited)
          else (limited, cooldown_limited)
        else (limited, cooldown_limited) in
      (kfastblock_scheduler_clamp_window limited (min_window c) (max_window c),
       pressure_limited, cooldown_limited)
  end.

Definition kfastblock_scheduler_init
    (controller : ptr kfastblock_scheduler_controller) (base min max : Z)
    : ptr kfastblock_scheduler_controller :=
  (fun _ =>
    let min := or_else min 1 in
    let max := or_else max min in
    let base := kfastblock_scheduler_clamp_window (or_else base min) min max in
    {| base_window := base;
       current_window := base;
       min_window := min;
       max_window := max;
       pressure_inflight_limit := Z.max (u32 (base * 2)) min;
       cooldown_ms := 250;
       consecutive_successes := 0;
       shrink_events := 0;
       grow_events := 0;
       retry_events := 0;
       dispatch_failures := 0;
       sample_events := 0;
       pressure_limited_samples := 0;
       cooldown_limited_samples := 0;
       cooldown_events := 0;
       last_sample_inflight_ios := 0;
       last_sample_request_objects := 0;
       last_sample_controller_window := base;
       last_sample_pressure_window := base;
       last_sample_effective_window := base;
       cooldown_until_jiffies := 0;
       policy := KFASTBLOCK_SCHED_POLICY_ADAPTIVE;
       dynamic_enabled := true |}) <$> controller.

Definition kfastblock_scheduler_set_base_window
    (controller : ptr kfastblock_scheduler_controller) (window : Z)
    : ptr kfastblock_scheduler_controller :=
  (fun c =>
    let base := kfastblock_scheduler_clamp_window
                  (or_else window (min_window c)) (min_window c) (max_window c) in
    c <| base_window := base |>
      <| current_window ::= fun w => kfastblock_scheduler_clamp_window w (min_window c) base |>
      <| consecutive_successes := 0 |>) <$> controller.

Definition kfastblock_scheduler_set_policy
    (controller : ptr kfastblock_scheduler_controller) (p : Z)
    : ptr kfastblock_scheduler_controller :=
  (fun c =>
    let c := c <| policy := u8 (kfastblock_scheduler_clamp_policy p) |> in
    if policy c =? KFASTBLOCK_SCHED_POLICY_STATIC
    then c <| current_window := base_window c |>
           <| consecutive_successes := 0 |>
           <| cooldown_until_jiffies := 0 |>
    else c) <$> controller.

Definition kfastblock_scheduler_set_pressure_inflight_limit
    (controller : ptr kfastblock_scheduler_controller) (inflight_limit : Z)
    : ptr kfastblock_scheduler_controller :=
  (fun c => c <| pressure_inflight_limit := inflight_limit |>) <$> controller.

Definition kfastblock_scheduler_set_cooldown_ms
    (controller : ptr kfastblock_scheduler_controller) (ms : Z)
    : ptr kfastblock_scheduler_controller :=
  (fun c =>
    let c := c <| cooldown_ms := ms |> in
    if ms =? 0 then c <| cooldown_until_jiffies := 0 |> else c) <$> controller.

Definition kfastblock_scheduler_set_dynamic_enabled
    (controller : ptr kfastblock_scheduler_controller) (enabled : bool)
    : ptr kfastblock_scheduler_controller :=
  (fun c =>
    let c := c <| dynamic_enabled := enabled |> in
    if negb enabled
    then c <| current_window := base_window c |>
           <| consecutive_successes := 0 |>
           <| cooldown_until_jiffies := 0 |>
    else c) <$> controller.

(** The result is the window, the updated controller and the filled sample
    (left alone when the caller passed no sample). *)
Definition kfastblock_scheduler_sample_window
    (now : Z) (controller : ptr kfastblock_scheduler_controller)
    (inflight_ios request_objects : Z) (sample : ptr kfastblock_scheduler_sample)
    : Z * ptr kfastblock_scheduler_controller * ptr kfastblock_scheduler_sample :=
  match controller with
  | NULL => (1, NULL, sample)
  | Some c =>
      let window := if dynamic_enabled c then current_window c else base_window c in
      let pol := if dynamic_enabled c
                 then kfastblock_scheduler_clamp_policy (policy c)
                 else KFASTBLOCK_SCHED_POLICY_STATIC in
      let '(pressure_window, cooldown_active, pressure_limited, cooldown_limited) :=
        if pol =? KFASTBLOCK_SCHED_POLICY_PRESSURE
        then
          let cooldown_active := kfastblock_scheduler_is_cooldown_active_locked now (Some c) in
          let '(pressure_window, pressure_limited, cooldown_limited) :=
            kfastblock_scheduler_limit_for_pressure_locked
              (Some c) window inflight_ios cooldown_active (Some false) (Some false) in
          (pressure_window, cooldown_active,
           default false pressure_limited, default false cooldown_limited)
        else (window, false, false, false) in
      let effective_window := or_else pressure_window 1 in
      let effective_window :=
        if truthy request_objects then Z.min effective_window request_objects
        else effective_window in
      let effective_window := kfastblock_scheduler_clamp_window
                                effective_window (min_window c) (max_window c) in
      let c := c <| sample_events ::= fun n => u32 (n + 1) |> in
      let c := if pressure_limited : bool
               then c <| pressure_limited_samples ::= fun n => u32 (n + 1) |> else c in
      let c := if cooldown_limited : bool
               then c <| cooldown_limited_samples ::= fun n => u32 (n + 1) |> else c in
      let c := c <| last_sample_inflight_ios := inflight_ios |>
                 <| last_sample_request_objects := request_objects |>
                 <| last_sample_controller_window := window |>
                 <| last_sample_pressure_window := pressure_window |>
                 <| last_sample_effective_window := effective_window |> in
      let sample := (fun _ =>
        {| sample_inflight_ios := inflight_ios;
           sample_request_objects := request_objects;
           sample_base_window := base_window c;
           sample_controller_window := window;
           sample_pressure_window := pressure_window;
           sample_effective_window := effective_window;
           sample_cooldown_active := cooldown_active;
           sample_policy := u8 pol |}) <$> sample in
      (or_else effective_window 1, Some c, sample)
  end.

Definition kfastblock_scheduler_note_success
    (controller : ptr kfastblock_scheduler_controller)
    : ptr kfastblock_scheduler_controller :=
  (fun c =>
    if negb (dynamic_enabled c)
       || (policy c =? KFASTBLOCK_SCHED_POLICY_STATIC)
       || (base_window c <=? current_window c)
    then c <| consecutive_successes := 0 |>
    else
      let c := c <| consecutive_successes ::= fun n => u32 (n + 1) |> in
      let grow_threshold := Z.max (current_window c) 1 in
      if grow_threshold <=? consecutive_successes c
      then c <| current_window := Z.min (u32 (current_window c + 1)) (base_window c) |>
             <| grow_events ::= fun n => u32 (n + 1) |>
             <| consecutive_successes := 0 |>
      else c) <$> controller.

(** The tail that [note_retry] and [note_dispatch_failure] share. *)
Definition kfastblock_scheduler_shrink_locked
    (c : kfastblock_scheduler_controller) : kfastblock_scheduler_controller :=
  if negb (dynamic_enabled c)
     || (policy c =? KFASTBLOCK_SCHED_POLICY_STATIC)
     || (current_window c <=? min_window c)
  then c
  else
    let next_window := Z.max (current_window c / 2) (min_window c) in
    if next_window <? current_window c
    then c <| current_window := next_window |>
           <| shrink_events ::= fun n => u32 (n + 1) |>
    else c.

Definition kfastblock_scheduler_note_retry
    (now : Z) (controller : ptr kfastblock_scheduler_controller)
    : ptr kfastblock_scheduler_controller :=
  match controller with
  | NULL => NULL
  | Some c =>
      let c := c <| retry_events ::= fun n => u32 (n + 1) |>
                 <| consecutive_successes := 0 |> in
      kfastblock_scheduler_shrink_locked
        <$> kfastblock_scheduler_activate_cooldown_locked now (Some c)
  end.

Definition kfastblock_scheduler_note_dispatch_failure
    (now : Z) (controller : ptr kfastblock_scheduler_controller)
    : ptr kfastblock_scheduler_controller :=
  match controller with
  | NULL => NULL
  | Some c =>
      let c := c <| dispatch_failures ::= fun n => u32 (n + 1) |>
                 <| consecutive_successes := 0 |> in
      kfastblock_scheduler_shrink_locked
        <$> kfastblock_scheduler_activate_cooldown_locked now (Some c)
  end.

(** ** Accessors *)

Definition kfastblock_scheduler_current_window
    (controller : ptr kfastblock_scheduler_controller) : Z :=
  match controller with NULL => 1 | Some c => or_else (current_window c) 1 end.

Definition kfastblock_scheduler_base_window
    (controller : ptr kfastblock_scheduler_controller) : Z :=
  match controller with NULL => 1 | Some c => or_else (base_window c) 1 end.

Definition kfastblock_scheduler_min_window
    (controller : ptr kfastblock_scheduler_controller) : Z :=
  match controller with NULL => 1 | Some c => or_else (min_window c) 1 end.

Definition kfastblock_scheduler_max_window
    (controller : ptr kfastblock_scheduler_controller) : Z :=
  match controller with NULL => 1 | Some c => or_else (max_window c) 1 end.

Definition kfastblock_scheduler_dynamic_enabled
    (controller : ptr kfastblock_scheduler_controller) : bool :=
  match controller with NULL => false | Some c => dynamic_enabled c end.

Definition kfastblock_scheduler_policy
    (controller : ptr kfastblock_scheduler_controller) : Z :=
  match controller with
  | NULL => KFASTBLOCK_SCHED_POLICY_ADAPTIVE
  | Some c => kfastblock_scheduler_clamp_policy (policy c)
  end.

Definition kfastblock_scheduler_pressure_inflight_limit
    (controller : ptr kfastblock_scheduler_controller) : Z :=
  from_option pressure_inflight_limit 0 controller.

Definition kfastblock_scheduler_cooldown_ms
    (controller : ptr kfastblock_scheduler_controller) : Z :=
  from_option cooldown_ms 0 controller.

Definition kfastblock_scheduler_cooldown_active
    (now : Z) (controller : ptr kfastblock_scheduler_controller) : bool :=
  match controller with
  | NULL => false
  | Some c => kfastblock_scheduler_is_cooldown_active_locked now (Some c)
  end.

Definition kfastblock_scheduler_cooldown_remaining_ms
    (now : Z) (controller : ptr kfastblock_scheduler_controller) : Z :=
  match controller with
  | NULL => 0
  | Some c =>
      if kfastblock_scheduler_is_cooldown_active_locked now (Some c)
      then u32 (jiffies_to_msecs (u64 (cooldown_until_jiffies c - now)))
      else 0
  end.

Definition kfastblock_scheduler_grow_events
    (controller : ptr kfastblock_scheduler_controller) : Z :=
  from_option grow_events 0 controller.

Definition kfastblock_scheduler_shrink_events
    (controller : ptr kfastblock_scheduler_controller) : Z :=
  from_option shrink_events 0 controller.

Definition kfastblock_scheduler_retry_events
    (controller : ptr kfastblock_scheduler_controller) : Z :=
  from_option retry_events 0 controller.

Definition kfastblock_scheduler_dispatch_failures
    (controller : ptr kfastblock_scheduler_controller) : Z :=
  from_option dispatch_failures 0 controller.

Definition kfastblock_scheduler_sample_events
    (controller : ptr kfastblock_scheduler_controller) : Z :=
  from_option sample_events 0 controller.

Definition kfastblock_scheduler_pressure_limited_samples
    (controller : ptr kfastblock_scheduler_controller) : Z :=
  from_option pressure_limited_samples 0 controller.

Definition kfastblock_scheduler_cooldown_limited_samples
    (controller : ptr kfastblock_scheduler_controller) : Z :=
  from_option cooldown_limited_samples 0 controller.

Definition kfastblock_scheduler_cooldown_events
    (controller : ptr kfastblock_scheduler_controller) : Z :=
  from_option cooldown_events 0 controller.

Definition kfastblock_scheduler_last_sample_inflight_ios
    (controller : ptr kfastblock_scheduler_controller) : Z :=
  from_option last_sample_inflight_ios 0 controller.

Definition kfastblock_scheduler_last_sample_request_objects
    (controller : ptr kfastblock_scheduler_controller) : Z :=
  from_option last_sample_request_objects 0 controller.

Definition kfastblock_scheduler_last_sample_controller_window
    (controller : ptr kfastblock_scheduler_controller) : Z :=
  from_option last_sample_controller_window 0 controller.

Definition kfastblock_scheduler_last_sample_pressure_window
    (controller : ptr kfastblock_scheduler_controller) : Z :=
  from_option last_sample_pressure_window 0 controller.

Definition kfastblock_scheduler_last_sample_effective_window
    (controller : ptr kfastblock_scheduler_controller) : Z :=
  from_option last_sample_effective_window 0 controller.

(** ** Call sequences

    What can happen to a controller after its initialisation: the sysfs
    setters, the sampling done by every new request, and the notifications of
    the transport. *)

Inductive sched_call :=
| SetBaseWindow (w : Z)
| SetPolicy (p : Z)
| SetPressureInflightLimit (n : Z)
| SetCooldownMs (ms : Z)
| SetDynamicEnabled (b : bool)
| SampleWindow (now inflight_ios request_objects : Z)
| NoteSuccess
| NoteRetry (now : Z)
| NoteDispatchFailure (now : Z).

Definition sched_exec (c : ptr kfastblock_scheduler_controller) (call : sched_call)
    : ptr kfastblock_scheduler_controller :=
  match call with
  | SetBaseWindow w => kfastblock_scheduler_set_base_window c w
  | SetPolicy p => kfastblock_scheduler_set_policy c p
  | SetPressureInflightLimit n => kfastblock_scheduler_set_pressure_inflight_limit c n
  | SetCooldownMs ms => kfastblock_scheduler_set_cooldown_ms c ms
  | SetDynamicEnabled b => kfastblock_scheduler_set_dynamic_enabled c b
  | SampleWindow now ios objs =>
      snd (fst (kfastblock_scheduler_sample_window now c ios objs NULL))
  | NoteSuccess => kfastblock_scheduler_note_success c
  | NoteRetry now => kfastblock_scheduler_note_retry now c
  | NoteDispatchFailure now => kfastblock_scheduler_note_dispatch_failure now c
  end.

(** The window stays between the minimum and the base, the base below the
    maximum, and the policy inside the enum. *)
Definition window_bounds (c : kfastblock_scheduler_controller) : Prop :=
  0 < min_window c /\ min_window c <= current_window c /\
  current_window c <= base_window c /\ base_window c <= max_window c /\
  max_window c < 2 ^ 32 /\ 0 <= policy c <= KFASTBLOCK_SCHED_POLICY_PRESSURE.

(** ** Lemmas *)

Lemma clamp_window_spec w lo hi :
  0 < lo <= hi ->
  kfastblock_scheduler_clamp_window w lo hi = Z.max lo (Z.min w hi).
Proof. unfold kfastblock_scheduler_clamp_window. zsolve. Qed.

Lemma clamp_window_bounds w lo hi :
  0 < lo <= hi -> lo <= kfastblock_scheduler_clamp_window w lo hi <= hi.
Proof. intros. rewrite clamp_window_spec by done. lia. Qed.

Lemma clamp_policy_range p :
  0 <= kfastblock_scheduler_clamp_policy p <= KFASTBLOCK_SCHED_POLICY_PRESSURE.
Proof.
  unfold kfastblock_scheduler_clamp_policy, KFASTBLOCK_SCHED_POLICY_STATIC,
    KFASTBLOCK_SCHED_POLICY_ADAPTIVE, KFASTBLOCK_SCHED_POLICY_PRESSURE. zsolve.
Qed.

Lemma clamp_policy_id p :
  0 <= p <= KFASTBLOCK_SCHED_POLICY_PRESSURE ->
  kfastblock_scheduler_clamp_policy p = p.
Proof.
  unfold kfastblock_scheduler_clamp_policy, KFASTBLOCK_SCHED_POLICY_STATIC,
    KFASTBLOCK_SCHED_POLICY_ADAPTIVE, KFASTBLOCK_SCHED_POLICY_PRESSURE. zsolve.
Qed.

Lemma init_bounds c0 b lo hi c :
  or_else lo 1 <= or_else hi (or_else lo 1) -> 0 <= lo -> is_u32 hi -> lo < 2 ^ 32 ->
  kfastblock_scheduler_init (Some c0) b lo hi = Some c -> window_bounds c.
Proof.
  intros Hle Hlo Hhi Hlo32 E. simplify_eq/=. unfold window_bounds, is_u32 in *; simpl.
  rewrite clamp_window_spec by (unfold or_else in *; zsolve).
  unfold or_else, KFASTBLOCK_SCHED_POLICY_ADAPTIVE, KFASTBLOCK_SCHED_POLICY_PRESSURE in *.
  repeat split; zsolve.
Qed.

(** Sampling writes only counters and the [last_sample_*] fields. *)
Lemma sample_window_frame now c ios objs smp :
  exists r c' smp',
    kfastblock_scheduler_sample_window now (Some c) ios objs smp = (r, Some c', smp') /\
    base_window c' = base_window c /\ current_window c' = current_window c /\
    min_window c' = min_window c /\ max_window c' = max_window c /\
    policy c' = policy c /\ dynamic_enabled c' = dynamic_enabled c /\
    cooldown_until_jiffies c' = cooldown_until_jiffies c /\
    r = or_else (last_sample_effective_window c') 1 /\
    exists w, last_sample_effective_window c'
              = kfastblock_scheduler_clamp_window w (min_window c) (max_window c).
Proof.
  cbn [kfastblock_scheduler_sample_window].
  destruct (if _ =? _ then _ else _) as [[[pw ca] pl] cl].
  destruct pl, cl; do 3 eexists; repeat split; by eexists.
Qed.

Lemma activate_cooldown_frame now c :
  exists c', kfastblock_scheduler_activate_cooldown_locked now (Some c) = Some c' /\
    base_window c' = base_window c /\ current_window c' = current_window c /\
    min_window c' = min_window c /\ max_window c' = max_window c /\
    policy c' = policy c /\ dynamic_enabled c' = dynamic_enabled c /\
    cooldown_ms c' = cooldown_ms c.
Proof. simpl. case_match; eexists; repeat split. Qed.

Lemma shrink_bounds c :
  window_bounds c -> window_bounds (kfastblock_scheduler_shrink_locked c).
Proof.
  unfold window_bounds, kfastblock_scheduler_shrink_locked.
  intros. zcases; simpl; unbool; repeat split; try lia.
Qed.

Lemma sched_exec_bounds c call c' :
  window_bounds c -> sched_exec (Some c) call = Some c' -> window_bounds c'.
Proof.
  intros Hwf E. destruct call; cbn [sched_exec] in E.
  - simplify_eq/=. unfold window_bounds in *; simpl. destruct Hwf as (?&?&?&?&?&?).
    pose proof (clamp_window_bounds (or_else w (min_window c)) (min_window c) (max_window c)
      ltac:(lia)) as Hb.
    pose proof (clamp_window_bounds (current_window c) (min_window c)
      (kfastblock_scheduler_clamp_window (or_else w (min_window c)) (min_window c) (max_window c))
      ltac:(lia)).
    repeat split; lia.
  - simplify_eq/=. pose proof (clamp_policy_range p).
    assert (u8 (kfastblock_scheduler_clamp_policy p) = kfastblock_scheduler_clamp_policy p)
      as -> by (apply Z.mod_small; unfold KFASTBLOCK_SCHED_POLICY_PRESSURE in *; lia).
    unfold window_bounds in *. zcases; simpl; repeat split; lia.
  - by simplify_eq/=.
  - simplify_eq/=. by zcases.
  - simplify_eq/=. unfold window_bounds in *. zcases; simpl; repeat split; lia.
  - destruct (sample_window_frame now c inflight_ios request_objects NULL)
      as (?&c''&?&E'&?&?&?&?&?&?&?&?&?). rewrite E' in E. simplify_eq/=.
    unfold window_bounds in *. congruence.
  - simplify_eq/=. unfold window_bounds in *. zcases; simpl; unbool; try (repeat split; lia).
    rewrite u32_small by lia. repeat split; lia.
  - simpl in E. simplify_eq/=. case_match; simplify_eq/=; by apply shrink_bounds.
  - simpl in E. simplify_eq/=. case_match; simplify_eq/=; by apply shrink_bounds.
Qed.

(** ** The reference definition of the sampled window

    [pressure_spec] is what the pressure policy promises: one slot less for
    every I/O in flight beyond the limit, half of the rest during a cooldown,
    and never below the minimum. *)

Definition pressure_spec (c : kfastblock_scheduler_controller) (w ios : Z) (cooldown : bool) : Z :=
  let limit := pressure_inflight_limit c in
  let w := if truthy limit then Z.max (min_window c) (w - Z.max 0 (ios - limit)) else w in
  if cooldown then Z.max (min_window c) (w / 2) else w.

Definition sample_spec (now : Z) (c : kfastblock_scheduler_controller) (ios objs : Z) : Z :=
  let w := if dynamic_enabled c then current_window c else base_window c in
  let w := if dynamic_enabled c && (policy c =? KFASTBLOCK_SCHED_POLICY_PRESSURE)
           then pressure_spec c w ios (kfastblock_scheduler_is_cooldown_active_locked now (Some c))
           else w in
  if truthy objs then Z.max (min_window c) (Z.min w objs) else w.

Lemma limit_for_pressure_spec c w ios cd pl cl :
  window_bounds c -> min_window c <= w <= max_window c ->
  fst (fst (kfastblock_scheduler_limit_for_pressure_locked (Some c) w ios cd pl cl))
  = pressure_spec c w ios cd.
Proof.
  unfold window_bounds. intros (?&?&?&?&?&_) Hw.
  cbn [kfastblock_scheduler_limit_for_pressure_locked].
  assert (or_else w 1 = w) as -> by (unfold or_else; zsolve).
  rewrite (clamp_window_spec w) by lia.
  replace (Z.max (min_window c) (Z.min w (max_window c))) with w by lia.
  unfold pressure_spec.
  set (w1 := if truthy _ then _ else w).
  assert (Hw1 : min_window c <= w1 <= max_window c) by (subst w1; zsolve).
  match goal with |- context [let '(_, _) := ?e in _] =>
    assert (Hs : fst e = w1) by (subst w1; unbool; zcases; simpl; unbool; lia);
    destruct e as [l pl'] end.
  simpl in Hs. subst l. clearbody w1.
  assert (w1 / 2 <= w1) by (apply Z.div_le_upper_bound; lia).
  zcases; cbn [fst]; rewrite clamp_window_spec by lia; unbool; try lia.
Qed.

Lemma pressure_spec_bounds c w ios cd :
  min_window c <= w -> 0 < min_window c ->
  min_window c <= pressure_spec c w ios cd <= w.
Proof.
  intros. unfold pressure_spec.
  set (w1 := if truthy _ then _ else w).
  assert (Hw1 : min_window c <= w1 <= w) by (subst w1; zsolve).
  clearbody w1. assert (w1 / 2 <= w1) by (apply Z.div_le_upper_bound; lia). zsolve.
Qed.

Lemma sample_window_is_spec now c ios objs smp :
  window_bounds c ->
  fst (fst (kfastblock_scheduler_sample_window now (Some c) ios objs smp))
  = sample_spec now c ios objs.
Proof.
  intros Hwf. pose proof Hwf as (?&?&?&?&?&?). unfold sample_spec.
  cbn [kfastblock_scheduler_sample_window].
  rewrite clamp_policy_id by done.
  set (w := if dynamic_enabled c then current_window c else base_window c).
  assert (Hw : min_window c <= w <= max_window c) by (subst w; zsolve).
  set (cd := kfastblock_scheduler_is_cooldown_active_locked now (Some c)).
  pose proof (limit_for_pressure_spec c w ios cd (Some false) (Some false) Hwf Hw) as Hlim.
  pose proof (pressure_spec_bounds c w ios cd ltac:(lia) ltac:(lia)).
  destruct (kfastblock_scheduler_limit_for_pressure_locked _ _ _ _ _ _) as [[pw pl] cl].
  simpl in Hlim. subst pw. clearbody w cd.
  destruct (dynamic_enabled c); cbn [andb];
    [destruct (policy c =? KFASTBLOCK_SCHED_POLICY_PRESSURE)|];
    cbn [fst Z.eqb KFASTBLOCK_SCHED_POLICY_STATIC KFASTBLOCK_SCHED_POLICY_PRESSURE];
    rewrite clamp_window_spec by lia; unfold or_else; zsolve.
Qed.

(** C34: whatever the initial window, and whatever mixture of sysfs writes,
    request samples and transport notifications follows, the controller keeps
    0 < min <= current <= base <= max and a valid policy: the condition the
    self check calls "scheduler.window_bounds" and "scheduler.policy". *)
Theorem reachable_window_bounds c0 base lo hi calls :
  or_else lo 1 <= or_else hi (or_else lo 1) -> is_u32 lo -> is_u32 hi ->
  exists c,
    foldl sched_exec (kfastblock_scheduler_init (Some c0) base lo hi) calls = Some c /\
    window_bounds c.
Proof.
  intros Hle Hlo Hhi.
  destruct (kfastblock_scheduler_init (Some c0) base lo hi) as [c|] eqn:E; [|done].
  apply init_bounds in E; [|unfold is_u32 in *; done || lia ..]. clear Hle Hlo Hhi c0.
  revert c E. induction calls as [|call calls IH]; intros c Hwf; [by exists c|].
  simpl. destruct (sched_exec (Some c) call) as [c'|] eqn:E.
  - eapply IH, sched_exec_bounds; done.
  - exfalso. destruct call; simpl in E; try done.
    + destruct (sample_window_frame now c inflight_ios request_objects NULL) as (?&?&?&E'&_).
      simpl in E'. by rewrite E' in E.
    + by case_match.
    + by case_match.
Qed.

(** C35: the window a request gets is the reference window [sample_spec]: the
    controller's window (the base window when dynamic sizing is off), reduced
    under the pressure policy by one slot per I/O over the in-flight limit and
    halved during a cooldown, cut to the number of objects of the request, and
    never below the minimum. *)
Theorem sample_window_refines_spec now c ios objs smp :
  window_bounds c ->
  exists c' smp',
    kfastblock_scheduler_sample_window now (Some c) ios objs smp
      = (sample_spec now c ios objs, Some c', smp') /\
    window_bounds c' /\
    last_sample_effective_window c' = sample_spec now c ios objs.
Proof.
  intros Hwf.
  pose proof (sample_window_is_spec now c ios objs smp Hwf) as Hs.
  destruct (sample_window_frame now c ios objs smp)
    as (r&c'&smp'&E&?&?&?&?&?&?&?&Hr&w&Hw).
  rewrite E in Hs |- *. simpl in Hs. exists c', smp'.
  assert (window_bounds c') by (unfold window_bounds in *; congruence).
  split; [by rewrite Hs | split; [done|]]. rewrite <- Hs, Hr, Hw.
  unfold window_bounds in Hwf.
  pose proof (clamp_window_bounds w (min_window c) (max_window c)). unfold or_else. zsolve.
Qed.

(** more I/O in flight never yields a larger window, whatever the policy
    and the cooldown state. *)
Theorem sample_window_antitone now c ios1 ios2 objs :
  window_bounds c -> 0 <= ios1 <= ios2 ->
  fst (fst (kfastblock_scheduler_sample_window now (Some c) ios2 objs NULL))
  <= fst (fst (kfastblock_scheduler_sample_window now (Some c) ios1 objs NULL)).
Proof.
  intros Hwf Hios. rewrite !sample_window_is_spec by done.
  unfold sample_spec, pressure_spec.
  set (cd := kfastblock_scheduler_is_cooldown_active_locked now (Some c)).
  set (w := if dynamic_enabled c then current_window c else base_window c).
  set (w1 := if truthy (pressure_inflight_limit c) then _ else w).
  set (w2 := if truthy (pressure_inflight_limit c) then _ else w).
  assert (w1 <= w2) by (subst w1 w2; zsolve).
  assert (w1 / 2 <= w2 / 2) by (apply Z.div_le_mono; lia).
  clearbody cd w1 w2. zsolve.
Qed.

(** [n] reports of the same event. *)
Definition repeat_call (n : nat) (call : sched_call) (c : ptr kfastblock_scheduler_controller) :=
  foldl sched_exec c (replicate n call).

Lemma note_retry_step now c :
  window_bounds c -> dynamic_enabled c = true ->
  policy c <> KFASTBLOCK_SCHED_POLICY_STATIC ->
  exists c',
    kfastblock_scheduler_note_retry now (Some c) = Some c' /\
    current_window c' = Z.max (min_window c) (current_window c / 2) /\
    min_window c' = min_window c /\ dynamic_enabled c' = true /\ policy c' = policy c.
Proof.
  intros Hwf Hdyn Hpol. unfold window_bounds in Hwf.
  assert (current_window c / 2 <= current_window c) by (apply Z.div_le_upper_bound; lia).
  simpl. case_match; simpl; eexists; (split; [done|]);
    unfold kfastblock_scheduler_shrink_locked; simpl; rewrite Hdyn;
    zcases; simpl; unbool; repeat split; try done; lia.
Qed.

(** retries back off exponentially: [n] retries in a row on a dynamic,
    non-static controller leave the window at current / 2^n, cut at the
    minimum. *)
Theorem retries_halve_window now c n :
  window_bounds c -> dynamic_enabled c = true ->
  policy c <> KFASTBLOCK_SCHED_POLICY_STATIC ->
  exists c',
    repeat_call n (NoteRetry now) (Some c) = Some c' /\
    current_window c' = Z.max (min_window c) (current_window c / 2 ^ Z.of_nat n).
Proof.
  unfold repeat_call. revert c.
  induction n as [|n IH]; intros c Hwf Hdyn Hpol.
  { exists c. split; [done|]. simpl. rewrite Z.div_1_r. unfold window_bounds in Hwf. lia. }
  destruct (note_retry_step now c Hwf Hdyn Hpol) as (c1&E&Hcur&Hmin&Hdyn1&Hpol1).
  pose proof (sched_exec_bounds c (NoteRetry now) c1 Hwf E) as Hwf1.
  destruct (IH c1) as (c'&E'&Hc'); [done|done|by rewrite Hpol1|].
  exists c'. split; [cbn [replicate foldl sched_exec]; by rewrite E|].
  rewrite Hc', Hcur, Hmin. unfold window_bounds in *.
  rewrite Nat2Z.inj_succ, Z.pow_succ_r by lia.
  rewrite <- Z.div_div by lia.
  pose proof (Z.pow_pos_nonneg 2 (Z.of_nat n)).
  destruct (Z.max_spec (min_window c) (current_window c / 2)) as [[? ->]|[? ->]]; [done|].
  assert (min_window c / 2 ^ Z.of_nat n <= min_window c)
    by (apply Z.div_le_upper_bound; nia).
  assert (current_window c / 2 / 2 ^ Z.of_nat n <= min_window c / 2 ^ Z.of_nat n)
    by (apply Z.div_le_mono; lia).
  lia.
Qed.

(** The number of successes still needed to reach the base window, an upper
    bound. *)
Definition recovery_measure (c : kfastblock_scheduler_controller) : Z :=
  (base_window c - current_window c) * base_window c
  + Z.max 0 (current_window c - 1 - consecutive_successes c).

Lemma recovery_measure_nonneg c : window_bounds c -> 0 <= recovery_measure c.
Proof.
  unfold window_bounds, recovery_measure. intros Hw.
  apply Z.add_nonneg_nonneg; [apply Z.mul_nonneg_nonneg|]; lia.
Qed.

Lemma note_success_step c :
  window_bounds c -> dynamic_enabled c = true ->
  policy c <> KFASTBLOCK_SCHED_POLICY_STATIC ->
  0 <= consecutive_successes c < 2 ^ 32 - 1 ->
  current_window c < base_window c ->
  exists c',
    kfastblock_scheduler_note_success (Some c) = Some c' /\
    base_window c' = base_window c /\ dynamic_enabled c' = true /\ policy c' = policy c /\
    current_window c <= current_window c' <= current_window c + 1 /\
    0 <= consecutive_successes c' < 2 ^ 32 - 1 /\
    recovery_measure c' < recovery_measure c.
Proof.
  intros Hwf Hdyn Hpol Hs Hlt. unfold window_bounds in Hwf.
  simpl. rewrite Hdyn. simpl. eexists. split; [done|].
  unfold recovery_measure. rewrite (u32_small (consecutive_successes c + 1)) by lia.
  zcases; simpl; unbool; rewrite ?(u32_small (current_window c + 1)) by lia;
    repeat split; try done; try lia; nia.
Qed.

(** liveness of the adaptive window: however far retries have shrunk it, a
    dynamic, non-static controller that only sees successes is back at its base
    window after at most base^2 of them. *)
Theorem successes_recover_window c :
  window_bounds c -> dynamic_enabled c = true ->
  policy c <> KFASTBLOCK_SCHED_POLICY_STATIC ->
  0 <= consecutive_successes c < 2 ^ 32 - 1 ->
  exists n c',
    Z.of_nat n <= base_window c * base_window c /\
    repeat_call n NoteSuccess (Some c) = Some c' /\
    current_window c' = base_window c.
Proof.
  intros Hwf Hdyn Hpol Hs.
  enough (exists n c', Z.of_nat n <= recovery_measure c /\
            repeat_call n NoteSuccess (Some c) = Some c' /\
            current_window c' = base_window c) as (n&c'&Hn&?&?).
  { exists n, c'. split; [|done]. unfold recovery_measure, window_bounds in *. nia. }
  remember (Z.to_nat (recovery_measure c)) as m eqn:Hm.
  revert c Hwf Hdyn Hpol Hs Hm.
  induction m as [m IH] using lt_wf_ind; intros c Hwf Hdyn Hpol Hs Hm.
  pose proof (recovery_measure_nonneg c Hwf).
  destruct (decide (current_window c = base_window c)) as [Heq|Hne].
  { by exists 0%nat, c. }
  destruct (note_success_step c) as (c1&E&Hb&Hd1&Hp1&Hcur&Hs1&Hdec);
    [done..| unfold window_bounds in *; lia |].
  pose proof (sched_exec_bounds c NoteSuccess c1 Hwf E) as Hwf1.
  pose proof (recovery_measure_nonneg c1 Hwf1).
  destruct (IH (Z.to_nat (recovery_measure c1)) ltac:(lia) c1)
    as (n&c'&Hn&E'&Hc'); [done|done|by rewrite Hp1|done|done|].
  exists (S n), c'. repeat split; [lia| |congruence].
  unfold repeat_call in *. cbn [replicate foldl sched_exec]. by rewrite E.
Qed.

(** a retry under the pressure policy starts a cooldown that is active at
    [k] jiffies later exactly while [k] is below the configured delay. *)
Theorem retry_starts_cooldown `{!ClockLaws _} now k c c' :
  policy c = KFASTBLOCK_SCHED_POLICY_PRESSURE -> dynamic_enabled c = true ->
  0 < cooldown_ms c < 2 ^ 32 -> 0 <= k < 2 ^ 62 ->
  kfastblock_scheduler_note_retry now (Some c) = Some c' ->
  kfastblock_scheduler_cooldown_active (u64 (now + k)) (Some c')
  = (k <? msecs_to_jiffies (cooldown_ms c)).
Proof.
  intros Hp Hd Hms Hk E. simpl in E. rewrite Hp, Hd in E.
  assert ((cooldown_ms c =? 0) = false) as Hz by zsolve.
  rewrite Hz in E. simpl in E. simplify_eq/=.
  pose proof (msecs_to_jiffies_range (cooldown_ms c) ltac:(lia)).
  unfold kfastblock_scheduler_shrink_locked. simpl.
  rewrite <- (time_before_elapsed now k) by lia.
  zcases; simpl; unfold truthy; by rewrite Hz.
Qed.

End with_clock.

(** ** Concrete runs *)

(** A controller as [kzalloc] leaves it. *)
Definition zero_controller : kfastblock_scheduler_controller :=
  {| base_window := 0; current_window := 0; min_window := 0; max_window := 0;
     pressure_inflight_limit := 0; cooldown_ms := 0; consecutive_successes := 0;
     shrink_events := 0; grow_events := 0; retry_events := 0; dispatch_failures := 0;
     sample_events := 0; pressure_limited_samples := 0; cooldown_limited_samples := 0;
     cooldown_events := 0; last_sample_inflight_ios := 0; last_sample_request_objects := 0;
     last_sample_controller_window := 0; last_sample_pressure_window := 0;
     last_sample_effective_window := 0; cooldown_until_jiffies := 0; policy := 0;
     dynamic_enabled := false |}.

(** The same after an initialisation with windows 8, 1, 64 and a switch to the
    pressure policy. *)
Definition pressure_controller : kfastblock_scheduler_controller :=
  default zero_controller
    (kfastblock_scheduler_set_policy
       (kfastblock_scheduler_init (Some zero_controller) 8 1 64)
       KFASTBLOCK_SCHED_POLICY_PRESSURE).

Lemma pressure_controller_bounds : window_bounds pressure_controller.
Proof. unfold window_bounds. vm_compute. repeat split; congruence. Qed.

Lemma reachable_window_bounds_witness :
  exists c,
    foldl (@sched_exec clock_hz1000)
      (kfastblock_scheduler_init (Some zero_controller) 8 1 64)
      [NoteRetry 100; SampleWindow 110 20 5; SetPolicy 7; NoteSuccess] = Some c /\
    window_bounds c.
Proof.
  apply (@reachable_window_bounds clock_hz1000 zero_controller 8 1 64);
    vm_compute; repeat split; congruence.
Defined.

Lemma sample_window_refines_spec_witness :
  exists c' smp',
    kfastblock_scheduler_sample_window 100 (Some pressure_controller) 19 5 NULL
      = (5, Some c', smp') /\
    window_bounds c' /\ last_sample_effective_window c' = 5.
Proof.
  apply (sample_window_refines_spec 100 pressure_controller 19 5 NULL).
  exact pressure_controller_bounds.
Defined.

Lemma sample_window_antitone_witness :
  fst (fst (kfastblock_scheduler_sample_window 100 (Some pressure_controller) 22 0 NULL))
  <= fst (fst (kfastblock_scheduler_sample_window 100 (Some pressure_controller) 18 0 NULL)).
Proof.
  apply (sample_window_antitone 100 pressure_controller 18 22 0);
    [exact pressure_controller_bounds | lia].
Defined.

Lemma retries_halve_window_witness :
  exists c',
    @repeat_call clock_hz1000 2 (NoteRetry 100) (Some pressure_controller) = Some c' /\
    current_window c' = 2.
Proof.
  apply (@retries_halve_window clock_hz1000 100 pressure_controller 2);
    [exact pressure_controller_bounds | reflexivity | vm_compute; congruence].
Defined.

Lemma successes_recover_window_witness :
  exists n c',
    Z.of_nat n <= 64 /\
    @repeat_call clock_hz1000 n NoteSuccess (Some pressure_controller) = Some c' /\
    current_window c' = 8.
Proof.
  apply (@successes_recover_window clock_hz1000 pressure_controller);
    [exact pressure_controller_bounds | reflexivity | vm_compute; congruence
    | vm_compute; split; congruence].
Defined.

Lemma retry_starts_cooldown_witness :
  exists c',
    @kfastblock_scheduler_note_retry clock_hz1000 100 (Some pressure_controller) = Some c' /\
    kfastblock_scheduler_cooldown_active (u64 (100 + 249)) (Some c') = true.
Proof.
  destruct (@kfastblock_scheduler_note_retry clock_hz1000 100 (Some pressure_controller))
    as [c'|] eqn:E; [|discriminate E].
  exists c'. split; [reflexivity|].
  exact (@retry_starts_cooldown clock_hz1000 clock_hz1000_laws 100 249 pressure_controller c'
    eq_refl eq_refl ltac:(vm_compute; split; congruence) ltac:(lia) E).
Defined.

End Scheduler.
