(* ===== verification/Pipeline.v ===== *)
(** * The exchange table of a request (kfastblock/src/pipeline.c)

    Every request owns a fixed array of entries, one per object that may be on
    the wire.  An entry is on the free list or on the in-flight list; starting
    an exchange moves the first free entry to the tail of the in-flight list,
    and the response, matched by its sequence number, moves it back.

    The intrusive [list_head] links of the C code are lists of indices into
    the entry array.  A pointer to an entry is its index. *)

From S2P Require Import Prelude.

Module Pipeline.

Record kfastblock_pipeline_entry := {
  seq : Z;
  object_index : Z;
  last_error : Z;
  response_body_len : Z;
  transport_flags : Z;
  response_status : Z;
  service : Z;
  opcode : Z;
  queued_jiffies : Z;
  completed_jiffies : Z;
  active : bool;
}.

#[export] Instance eta_entry : Eta kfastblock_pipeline_entry := fun e =>
  {| seq := seq e;
     object_index := object_index e;
     last_error := last_error e;
     response_body_len := response_body_len e;
     transport_flags := transport_flags e;
     response_status := response_status e;
     service := service e;
     opcode := opcode e;
     queued_jiffies := queued_jiffies e;
     completed_jiffies := completed_jiffies e;
     active := active e |}.

Record kfastblock_pipeline_snapshot_t := {
  snap_capacity : Z;
  snap_inflight : Z;
  snap_peak_inflight : Z;
  snap_free_entries : Z;
  oldest_inflight_seq : Z;
  newest_inflight_seq : Z;
  oldest_queued_jiffies : Z;
  newest_queued_jiffies : Z;
}.

#[export] Instance eta_snapshot : Eta kfastblock_pipeline_snapshot_t := fun s =>
  {| snap_capacity := snap_capacity s;
     snap_inflight := snap_inflight s;
     snap_peak_inflight := snap_peak_inflight s;
     snap_free_entries := snap_free_entries s;
     oldest_inflight_seq := oldest_inflight_seq s;
     newest_inflight_seq := newest_inflight_seq s;
     oldest_queued_jiffies := oldest_queued_jiffies s;
     newest_queued_jiffies := newest_queued_jiffies s |}.

(** [struct kfastblock_pipeline_snapshot snapshot = {};] *)
Definition empty_snapshot : kfastblock_pipeline_snapshot_t :=
  {| snap_capacity := 0; snap_inflight := 0; snap_peak_inflight := 0;
     snap_free_entries := 0; oldest_inflight_seq := 0; newest_inflight_seq := 0;
     oldest_queued_jiffies := 0; newest_queued_jiffies := 0 |}.

Record kfastblock_pipeline_state := {
  free_list : list nat;
  inflight_list : list nat;
  entries : ptr (list kfastblock_pipeline_entry);
  capacity : Z;
  inflight : Z;
  peak_inflight : Z;
}.

#[export] Instance eta_state : Eta kfastblock_pipeline_state := fun s =>
  {| free_list := free_list s;
     inflight_list := inflight_list s;
     entries := entries s;
     capacity := capacity s;
     inflight := inflight s;
     peak_inflight := peak_inflight s |}.

(** What [entry] points to. *)
Definition entry_at (s : kfastblock_pipeline_state) (i : nat) : ptr kfastblock_pipeline_entry :=
  es ← entries s; es !! i.

(** A sequence of assignments through [entry]. *)
Definition update_entry (i : nat) (f : kfastblock_pipeline_entry -> kfastblock_pipeline_entry)
    (s : kfastblock_pipeline_state) : kfastblock_pipeline_state :=
  s <| entries ::= fmap (alter f i) |>.

(** [list_del_init(&entry->link)] on the list that holds [entry]. *)
Definition list_del (i : nat) (l : list nat) : list nat := filter (fun j => j <> i) l.

(** ** Operations *)

Definition kfastblock_pipeline_reset_entry (e : kfastblock_pipeline_entry)
    : kfastblock_pipeline_entry :=
  {| seq := 0; object_index := 0; last_error := 0; response_body_len := 0;
     transport_flags := 0; response_status := 0; service := 0; opcode := 0;
     queued_jiffies := 0; completed_jiffies := 0; active := false |}.

(** An element of the array [kvcalloc] returns. *)
Definition zero_entry : kfastblock_pipeline_entry :=
  {| seq := 0; object_index := 0; last_error := 0; response_body_len := 0;
     transport_flags := 0; response_status := 0; service := 0; opcode := 0;
     queued_jiffies := 0; completed_jiffies := 0; active := false |}.

(** The loop of [init] and [reset]: entry after entry is cleared and put at
    the tail of the free list. *)
Fixpoint reset_loop (n i : nat) (s : kfastblock_pipeline_state) : kfastblock_pipeline_state :=
  match n with
  | O => s
  | S n =>
      let s := update_entry i kfastblock_pipeline_reset_entry s in
      reset_loop n (S i) (s <| free_list ::= fun l => l ++ [i] |>)
  end.

(** [alloc_ok] says whether [kvcalloc] finds memory. *)
Definition kfastblock_pipeline_init (alloc_ok : bool)
    (state : ptr kfastblock_pipeline_state) (cap : Z) : Z * ptr kfastblock_pipeline_state :=
  match state with
  | NULL => (- EINVAL, NULL)
  | Some _ =>
      let s := {| free_list := []; inflight_list := []; entries := NULL;
                  capacity := 0; inflight := 0; peak_inflight := 0 |} in
      if cap =? 0 then (0, Some s)
      else if negb alloc_ok then (- ENOMEM, Some s)
      else
        let s := s <| entries := Some (replicate (Z.to_nat cap) zero_entry) |>
                   <| capacity := cap |> in
        (0, Some (reset_loop (Z.to_nat cap) 0 s))
  end.

Definition kfastblock_pipeline_reset (state : ptr kfastblock_pipeline_state)
    : ptr kfastblock_pipeline_state :=
  (fun s =>
    let s := s <| free_list := [] |> <| inflight_list := [] |>
               <| inflight := 0 |> <| peak_inflight := 0 |> in
    reset_loop (Z.to_nat (capacity s)) 0 s) <$> state.

Definition kfastblock_pipeline_cleanup (state : ptr kfastblock_pipeline_state)
    : ptr kfastblock_pipeline_state :=
  (fun s =>
    s <| entries := NULL |> <| capacity := 0 |> <| inflight := 0 |>
      <| peak_inflight := 0 |> <| free_list := [] |> <| inflight_list := [] |>) <$> state.

(** [list_for_each_entry] over the in-flight list, stopping at the first
    active entry with the sequence number. *)
Fixpoint find_seq (s : kfastblock_pipeline_state) (q : Z) (l : list nat) : ptr nat :=
  match l with
  | [] => NULL
  | i :: l =>
      match entry_at s i with
      | Some e => if active e && (seq e =? q) then Some i else find_seq s q l
      | None => find_seq s q l
      end
  end.

Definition kfastblock_pipeline_find_locked (state : ptr kfastblock_pipeline_state) (q : Z)
    : ptr nat :=
  match state with
  | NULL => NULL
  | Some s => if q =? 0 then NULL else find_seq s q (inflight_list s)
  end.

(** The snapshot is an out parameter: the copy of the entry when it is found,
    and what the caller had there otherwise. *)
Definition kfastblock_pipeline_lookup (state : ptr kfastblock_pipeline_state) (q : Z)
    (snapshot : ptr kfastblock_pipeline_entry) : bool * ptr kfastblock_pipeline_entry :=
  match state, snapshot with
  | Some s, Some _ =>
      if q =? 0 then (false, snapshot)
      else match kfastblock_pipeline_find_locked (Some s) q with
           | Some i => (true, entry_at s i)
           | NULL => (false, snapshot)
           end
  | _, _ => (false, snapshot)
  end.

Definition kfastblock_pipeline_has_seq (state : ptr kfastblock_pipeline_state) (q : Z) : bool :=
  fst (kfastblock_pipeline_lookup state q (Some zero_entry)).

Definition kfastblock_pipeline_free_entries (state : ptr kfastblock_pipeline_state) : Z :=
  match state with NULL => 0 | Some s => u32 (Z.of_nat (length (free_list s))) end.

Definition kfastblock_pipeline_inflight_entries (state : ptr kfastblock_pipeline_state) : Z :=
  from_option inflight 0 state.

Definition kfastblock_pipeline_has_inflight_entries (state : ptr kfastblock_pipeline_state) : bool :=
  negb (kfastblock_pipeline_inflight_entries state =? 0).

Definition kfastblock_pipeline_empty (state : ptr kfastblock_pipeline_state) : bool :=
  kfastblock_pipeline_inflight_entries state =? 0.

Definition kfastblock_pipeline_full (state : ptr kfastblock_pipeline_state) : bool :=
  match state with
  | NULL => false
  | Some s => negb (capacity s =? 0) && (capacity s <=? inflight s)
  end.

Definition kfastblock_pipeline_has_free_entries (state : ptr kfastblock_pipeline_state) : bool :=
  0 <? kfastblock_pipeline_free_entries state.

Definition kfastblock_pipeline_peak_reached (state : ptr kfastblock_pipeline_state) : bool :=
  match state with
  | NULL => false
  | Some s => negb (peak_inflight s =? 0) && (peak_inflight s <=? inflight s)
  end.

Definition kfastblock_pipeline_spare_capacity (state : ptr kfastblock_pipeline_state) : Z :=
  match state with
  | NULL => 0
  | Some s => if inflight s <? capacity s then capacity s - inflight s else 0
  end.

(** The body of the loop over the in-flight list. *)
Definition snapshot_entry (snap : kfastblock_pipeline_snapshot_t) (e : kfastblock_pipeline_entry)
    : kfastblock_pipeline_snapshot_t :=
  let snap :=
    if (oldest_inflight_seq snap =? 0) || (queued_jiffies e <? oldest_queued_jiffies snap)
    then snap <| oldest_inflight_seq := seq e |> <| oldest_queued_jiffies := queued_jiffies e |>
    else snap in
  if newest_queued_jiffies snap <=? queued_jiffies e
  then snap <| newest_inflight_seq := seq e |> <| newest_queued_jiffies := queued_jiffies e |>
  else snap.

(** The entries the in-flight list links, in order. *)
Definition inflight_entries (s : kfastblock_pipeline_state) : list kfastblock_pipeline_entry :=
  omap (entry_at s) (inflight_list s).

Definition kfastblock_pipeline_snapshot (state : ptr kfastblock_pipeline_state)
    (snapshot : ptr kfastblock_pipeline_snapshot_t) : ptr kfastblock_pipeline_snapshot_t :=
  match state, snapshot with
  | Some s, Some snap =>
      let snap := snap <| snap_capacity := capacity s |>
                       <| snap_inflight := inflight s |>
                       <| snap_peak_inflight := peak_inflight s |>
                       <| snap_free_entries := u32 (Z.of_nat (length (free_list s))) |> in
      Some (foldl snapshot_entry snap (inflight_entries s))
  | _, _ => snapshot
  end.

Definition kfastblock_pipeline_oldest_inflight_seq (state : ptr kfastblock_pipeline_state) : Z :=
  from_option oldest_inflight_seq 0 (kfastblock_pipeline_snapshot state (Some empty_snapshot)).

Definition kfastblock_pipeline_newest_inflight_seq (state : ptr kfastblock_pipeline_state) : Z :=
  from_option newest_inflight_seq 0 (kfastblock_pipeline_snapshot state (Some empty_snapshot)).

Definition kfastblock_pipeline_oldest_queued_jiffies (state : ptr kfastblock_pipeline_state) : Z :=
  from_option oldest_queued_jiffies 0 (kfastblock_pipeline_snapshot state (Some empty_snapshot)).

Definition kfastblock_pipeline_newest_queued_jiffies (state : ptr kfastblock_pipeline_state) : Z :=
  from_option newest_queued_jiffies 0 (kfastblock_pipeline_snapshot state (Some empty_snapshot)).

Definition kfastblock_pipeline_utilization_pct (state : ptr kfastblock_pipeline_state) : Z :=
  match kfastblock_pipeline_snapshot state (Some empty_snapshot) with
  | NULL => 0
  | Some snap =>
      if snap_capacity snap =? 0 then 0
      else Z.min 100 (u32 (snap_inflight snap * 100) / snap_capacity snap)
  end.

Definition kfastblock_pipeline_begin_exchange (now : Z)
    (state : ptr kfastblock_pipeline_state) (q index svc op : Z)
    : ptr nat * ptr kfastblock_pipeline_state :=
  match state with
  | NULL => (NULL, NULL)
  | Some s =>
      if q =? 0 then (NULL, Some s)
      else match free_list s with
      | [] => (NULL, Some s)
      | i :: _ =>
          let s := s <| free_list ::= list_del i |> in
          let s := update_entry i (fun e =>
                     e <| seq := q |> <| object_index := index |> <| last_error := 0 |>
                       <| response_body_len := 0 |> <| transport_flags := 0 |>
                       <| response_status := 0 |> <| service := svc |> <| opcode := op |>
                       <| queued_jiffies := now |> <| completed_jiffies := 0 |>
                       <| active := true |>) s in
          let s := s <| inflight_list ::= fun l => l ++ [i] |>
                     <| inflight ::= fun n => u32 (n + 1) |> in
          let s := if peak_inflight s <? inflight s
                   then s <| peak_inflight := inflight s |> else s in
          (Some i, Some s)
      end
  end.

Definition kfastblock_pipeline_enqueue (now : Z)
    (state : ptr kfastblock_pipeline_state) (q index : Z)
    : ptr nat * ptr kfastblock_pipeline_state :=
  kfastblock_pipeline_begin_exchange now state q index 0 0.

Definition kfastblock_pipeline_finish_exchange (now : Z)
    (state : ptr kfastblock_pipeline_state) (q ret status body_len flags : Z)
    : ptr nat * ptr kfastblock_pipeline_state :=
  match state with
  | NULL => (NULL, NULL)
  | Some s =>
      if q =? 0 then (NULL, Some s)
      else match kfastblock_pipeline_find_locked (Some s) q with
      | NULL => (NULL, Some s)
      | Some i =>
          let s := s <| inflight_list ::= list_del i |> in
          let s := update_entry i (fun e =>
                     e <| last_error := ret |> <| response_status := status |>
                       <| response_body_len := body_len |> <| transport_flags := flags |>
                       <| completed_jiffies := now |> <| active := false |>) s in
          let s := s <| inflight ::= dec_if_nonzero |>
                     <| free_list ::= fun l => l ++ [i] |> in
          (Some i, Some s)
      end
  end.

Definition kfastblock_pipeline_complete (now : Z)
    (state : ptr kfastblock_pipeline_state) (q ret : Z)
    : ptr nat * ptr kfastblock_pipeline_state :=
  kfastblock_pipeline_finish_exchange now state q ret ret 0 0.

(** ** Invariant *)

(** The two lists partition the array, the counters count them, and an entry
    is active exactly when it is in flight. *)
Record pipeline_wf (s : kfastblock_pipeline_state) : Prop := {
  wf_perm : free_list s ++ inflight_list s ≡ₚ List.seq 0 (Z.to_nat (capacity s));
  wf_entries : length (default [] (entries s)) = Z.to_nat (capacity s);
  wf_capacity : is_u32 (capacity s);
  wf_inflight : inflight s = Z.of_nat (length (inflight_list s));
  wf_peak : inflight s <= peak_inflight s <= capacity s;
  wf_active i e : i ∈ inflight_list s -> entry_at s i = Some e -> active e = true /\ seq e <> 0;
  wf_idle i e : i ∈ free_list s -> entry_at s i = Some e -> active e = false;
}.

(** What can happen to a pipeline between [init] and [cleanup]. *)
Inductive pipeline_call :=
| Begin (now q index svc op : Z)
| Finish (now q ret status body_len flags : Z)
| Reset.

Definition pipeline_exec (s : ptr kfastblock_pipeline_state) (call : pipeline_call)
    : ptr kfastblock_pipeline_state :=
  match call with
  | Begin now q index svc op =>
      snd (kfastblock_pipeline_begin_exchange now s q index svc op)
  | Finish now q ret status body_len flags =>
      snd (kfastblock_pipeline_finish_exchange now s q ret status body_len flags)
  | Reset => kfastblock_pipeline_reset s
  end.

(** ** Lemmas *)

Lemma entry_at_update f i s j :
  entry_at (update_entry i f s) j = (if decide (i = j) then f <$> entry_at s j else entry_at s j).
Proof.
  unfold entry_at, update_entry. simpl. destruct (entries s) as [es|]; simpl; [|by case_decide].
  case_decide; subst; [apply list_lookup_alter_eq | by apply list_lookup_alter_ne].
Qed.

Lemma update_entry_length f i s :
  length (default [] (entries (update_entry i f s))) = length (default [] (entries s)).
Proof. simpl. destruct (entries s); simpl; [by rewrite length_alter | done]. Qed.

Lemma reset_loop_frame n i s :
  let s' := reset_loop n i s in
  free_list s' = free_list s ++ List.seq i n /\ inflight_list s' = inflight_list s /\
  capacity s' = capacity s /\ inflight s' = inflight s /\ peak_inflight s' = peak_inflight s /\
  length (default [] (entries s')) = length (default [] (entries s)).
Proof.
  revert i s. induction n as [|n IH]; intros i s; cbn zeta; cbn [reset_loop].
  { by rewrite app_nil_r. }
  match goal with |- context [reset_loop n (S i) ?s1] =>
    destruct (IH (S i) s1) as (->&->&->&->&->&->) end.
  simpl. rewrite <- app_assoc. repeat split. apply update_entry_length.
Qed.

Lemma reset_loop_entry n i s j :
  entry_at (reset_loop n i s) j =
  (if decide (i <= j < i + n)%nat then kfastblock_pipeline_reset_entry <$> entry_at s j
   else entry_at s j).
Proof.
  revert i s. induction n as [|n IH]; intros i s; simpl.
  { rewrite decide_False by lia. done. }
  rewrite IH. match goal with |- context [entry_at ?s1 j] =>
    change (entry_at s1 j) with (entry_at (update_entry i kfastblock_pipeline_reset_entry s) j)
  end.
  rewrite entry_at_update.
  repeat case_decide; try done; try lia.
Qed.

Lemma list_del_notin i l : i ∉ l -> list_del i l = l.
Proof.
  unfold list_del. induction l as [|j l IH]; intros Hi; [done|].
  apply not_elem_of_cons in Hi as [? ?].
  rewrite filter_cons_True by congruence. by rewrite IH.
Qed.

Lemma list_del_middle i l1 l2 : NoDup (l1 ++ i :: l2) -> list_del i (l1 ++ i :: l2) = l1 ++ l2.
Proof.
  intros Hnd. apply NoDup_app in Hnd as (Hnd1&Hd&Hnd2).
  apply NoDup_cons in Hnd2 as [Hi Hnd2].
  assert (i ∉ l1) by (intros ?; eapply Hd; set_solver).
  unfold list_del. rewrite filter_app, filter_cons_False by naive_solver.
  f_equal; by apply list_del_notin.
Qed.

Section wf_facts.
Context (s : kfastblock_pipeline_state) (Hwf : pipeline_wf s).

Lemma wf_nodup : NoDup (free_list s ++ inflight_list s).
Proof. rewrite (wf_perm s Hwf). apply NoDup_ListNoDup, List.seq_NoDup. Qed.

Lemma wf_disjoint i : i ∈ free_list s -> i ∈ inflight_list s -> False.
Proof. pose proof wf_nodup as (_&Hd&_)%NoDup_app. intros ? ?. by apply (Hd i). Qed.

Lemma wf_lookup i :
  i ∈ free_list s \/ i ∈ inflight_list s -> exists e, entry_at s i = Some e.
Proof.
  rewrite <- elem_of_app, (wf_perm s Hwf), elem_of_seq. intros Hi.
  pose proof (wf_entries s Hwf) as Hlen. unfold entry_at.
  destruct (entries s) as [es|]; simpl in *; [|lia].
  apply lookup_lt_is_Some_2. lia.
Qed.

Lemma wf_count :
  Z.of_nat (length (free_list s)) + inflight s = capacity s.
Proof.
  pose proof (Permutation_length (wf_perm s Hwf)) as Hlen.
  rewrite length_app, length_seq in Hlen. rewrite (wf_inflight s Hwf).
  pose proof (wf_capacity s Hwf) as Hc. unfold is_u32 in Hc. lia.
Qed.

End wf_facts.

(** The test of [find_locked]. *)
Definition matches (s : kfastblock_pipeline_state) (q : Z) (i : nat) : bool :=
  match entry_at s i with Some e => active e && (seq e =? q) | None => false end.

Lemma find_seq_spec s q l :
  match find_seq s q l with
  | Some i => exists l1 l2, l = l1 ++ i :: l2 /\ matches s q i = true /\
                            Forall (fun j => matches s q j = false) l1
  | NULL => Forall (fun j => matches s q j = false) l
  end.
Proof.
  induction l as [|i l IH]; simpl; [constructor|].
  assert (find_seq s q (i :: l) = if matches s q i then Some i else find_seq s q l) as Hstep
    by (unfold matches; simpl; by destruct (entry_at s i)).
  simpl in Hstep. rewrite Hstep.
  destruct (matches s q i) eqn:Hm; [by exists [], l|].
  destruct (find_seq s q l) as [k|]; [|by constructor].
  destruct IH as (l1&l2&->&?&?). exists (i :: l1), l2. split_and!; [done..|]. by constructor.
Qed.

(** A matching entry of a well-formed pipeline. *)
Lemma matches_inv s q i :
  matches s q i = true -> exists e, entry_at s i = Some e /\ active e = true /\ seq e = q.
Proof. unfold matches. destruct (entry_at s i) as [e|]; [|done]. intros. unbool. naive_solver. Qed.

Lemma entry_at_alter f i s s' j :
  entries s' = alter f i <$> entries s ->
  entry_at s' j = (if decide (i = j) then f <$> entry_at s j else entry_at s j).
Proof.
  intros E. rewrite <- entry_at_update. unfold entry_at, update_entry. by rewrite E.
Qed.

(** [s'] is [s] with only entry [i] changed, and it holds [e']. *)
Definition entry_replaced (s s' : kfastblock_pipeline_state) (i : nat)
    (e' : kfastblock_pipeline_entry) : Prop :=
  entry_at s' i = Some e' /\ (forall j, j <> i -> entry_at s' j = entry_at s j) /\
  length (default [] (entries s')) = length (default [] (entries s)) /\
  capacity s' = capacity s.

Lemma alter_replaced f i s s' e :
  entries s' = alter f i <$> entries s -> capacity s' = capacity s ->
  entry_at s i = Some e -> entry_replaced s s' i (f e).
Proof.
  intros E Hc He. unfold entry_replaced. split_and!; [| | |done].
  - rewrite (entry_at_alter f i s s'), decide_True by done. by rewrite He.
  - intros j Hj. rewrite (entry_at_alter f i s s'), decide_False by done. done.
  - rewrite E. exact (update_entry_length f i s).
Qed.

Lemma begin_spec now s q index svc op i fl :
  pipeline_wf s -> q <> 0 -> free_list s = i :: fl ->
  exists s' e',
    kfastblock_pipeline_begin_exchange now (Some s) q index svc op = (Some i, Some s') /\
    entry_replaced s s' i e' /\
    free_list s' = fl /\ inflight_list s' = inflight_list s ++ [i] /\
    inflight s' = inflight s + 1 /\
    peak_inflight s' = Z.max (peak_inflight s) (inflight s + 1) /\
    active e' = true /\ seq e' = q /\ object_index e' = index /\
    service e' = svc /\ opcode e' = op /\ queued_jiffies e' = now.
Proof.
  intros Hwf Hq Hfl.
  destruct (wf_lookup s Hwf i) as [e He]; [rewrite Hfl; set_solver|].
  assert (Hdel : list_del i (i :: fl) = fl).
  { apply (list_del_middle i []). pose proof (wf_nodup s Hwf) as Hnd.
    rewrite Hfl in Hnd. by apply NoDup_app in Hnd as [? _]. }
  assert (Hu : u32 (inflight s + 1) = inflight s + 1).
  { pose proof (wf_count s Hwf) as Hc. rewrite Hfl in Hc. simpl in Hc.
    pose proof (wf_capacity s Hwf). pose proof (wf_inflight s Hwf).
    unfold is_u32 in *. apply u32_small. lia. }
  cbn [kfastblock_pipeline_begin_exchange]. rewrite Hfl.
  rewrite (proj2 (Z.eqb_neq q 0) Hq).
  eexists _, _. split; [reflexivity|]. split.
  { eapply (alter_replaced _ i s); [by zcases|by zcases|done]. }
  repeat split; zcases; simpl in *; rewrite ?Hfl, ?Hdel, ?Hu in *; unbool; try done; lia.
Qed.

Lemma finish_spec now s q ret st bl fl :
  pipeline_wf s -> q <> 0 ->
  match find_seq s q (inflight_list s) with
  | NULL => kfastblock_pipeline_finish_exchange now (Some s) q ret st bl fl = (NULL, Some s)
  | Some i =>
      exists s' e e' l1 l2,
        kfastblock_pipeline_finish_exchange now (Some s) q ret st bl fl = (Some i, Some s') /\
        entry_replaced s s' i e' /\
        inflight_list s = l1 ++ i :: l2 /\ Forall (fun j => matches s q j = false) l1 /\
        inflight_list s' = l1 ++ l2 /\ free_list s' = free_list s ++ [i] /\
        inflight s' = inflight s - 1 /\ peak_inflight s' = peak_inflight s /\
        entry_at s i = Some e /\ seq e = q /\
        active e' = false /\ seq e' = q /\ object_index e' = object_index e /\
        last_error e' = ret /\ response_status e' = st /\
        response_body_len e' = bl /\ transport_flags e' = fl
  end.
Proof.
  intros Hwf Hq. pose proof (find_seq_spec s q (inflight_list s)) as Hf.
  cbn [kfastblock_pipeline_finish_exchange kfastblock_pipeline_find_locked].
  rewrite (proj2 (Z.eqb_neq q 0) Hq).
  destruct (find_seq s q (inflight_list s)) as [i|]; [|done].
  destruct Hf as (l1&l2&Hl&Hm&Hpre).
  destruct (matches_inv s q i Hm) as (e&He&Hact&Hseq).
  assert (Hdel : list_del i (inflight_list s) = l1 ++ l2).
  { rewrite Hl. apply list_del_middle. pose proof (wf_nodup s Hwf) as Hnd.
    rewrite Hl in Hnd. by apply NoDup_app in Hnd as (_&_&?). }
  assert (Hd : dec_if_nonzero (inflight s) = inflight s - 1).
  { apply dec_if_nonzero_pos. rewrite (wf_inflight s Hwf), Hl, length_app. simpl. lia. }
  eexists _, e, _, l1, l2. split; [reflexivity|]. split.
  { eapply (alter_replaced _ i s); [done|done|done]. }
  simpl. rewrite Hdel, Hd. repeat split; done.
Qed.

Lemma begin_noop now s q index svc op :
  q = 0 \/ free_list s = [] ->
  kfastblock_pipeline_begin_exchange now (Some s) q index svc op = (NULL, Some s).
Proof. intros [-> | E]; simpl; [done|]. rewrite E. by destruct (q =? 0). Qed.

Lemma begin_wf now s q index svc op :
  pipeline_wf s ->
  exists r s', kfastblock_pipeline_begin_exchange now (Some s) q index svc op = (r, Some s') /\
               pipeline_wf s'.
Proof.
  intros Hwf.
  destruct (decide (q = 0)) as [->|Hq]; [by eexists _, _; split; [apply begin_noop; left|]|].
  destruct (free_list s) as [|i fl] eqn:Hfl;
    [by eexists _, _; split; [apply begin_noop; right|]|].
  destruct (begin_spec now s q index svc op i fl Hwf Hq Hfl)
    as (s'&e'&->&(He&Hoth&Hlen&Hcap)&Hf&Hi&Hn&Hp&Ha&Hs&_).
  eexists _, _; split; [done|]. pose proof (wf_disjoint s Hwf) as Hdisj.
  pose proof (wf_count s Hwf) as Hcnt. pose proof (wf_nodup s Hwf) as Hnd.
  rewrite Hfl in Hdisj, Hcnt, Hnd. simpl in Hcnt.
  apply NoDup_app in Hnd as ((Hifl&_)%NoDup_cons&_&_).
  destruct Hwf as [Wp We Wc Wi Wk Wa Wd]. rewrite Hfl in Wp, Wd.
  split; rewrite ?Hf, ?Hi, ?Hn, ?Hp, ?Hlen, ?Hcap; try done; try lia.
  - rewrite <- Wp. simpl. by rewrite (Permutation_app_comm (inflight_list s) [i]), Permutation_middle.
  - rewrite length_app, Wi. simpl. lia.
  - intros j e [Hj|Hj]%elem_of_app E.
    + rewrite Hoth in E by (intros ->; apply (Hdisj i); set_solver). by eapply Wa.
    + apply list_elem_of_singleton in Hj as ->. rewrite He in E. simplify_eq. by rewrite Ha.
  - intros j e Hj E. rewrite Hoth in E by (intros ->; done). eapply Wd; [|done]. set_solver.
Qed.

Lemma finish_wf now s q ret st bl fl :
  pipeline_wf s ->
  exists r s', kfastblock_pipeline_finish_exchange now (Some s) q ret st bl fl = (r, Some s') /\
               pipeline_wf s'.
Proof.
  intros Hwf. destruct (decide (q = 0)) as [->|Hq]; [by eexists _, _|].
  pose proof (finish_spec now s q ret st bl fl Hwf Hq) as Hspec.
  destruct (find_seq _ _ _) as [i|]; [|by eexists _, _].
  destruct Hspec as (s'&e&e'&l1&l2&->&(He&Hoth&Hlen&Hcap)&Hl&_&Hi&Hf&Hn&Hp&_&_&Ha&_).
  eexists _, _; split; [done|]. pose proof (wf_disjoint s Hwf) as Hdisj.
  pose proof (wf_nodup s Hwf) as (_&_&Hnd)%NoDup_app.
  rewrite Hl in Hdisj, Hnd.
  assert (Hil : i ∉ l1 ++ l2).
  { rewrite <- Permutation_middle in Hnd. by apply NoDup_cons in Hnd as [? _]. }
  destruct Hwf as [Wp We Wc Wi Wk Wa Wd]. rewrite Hl in Wp, Wi, Wa.
  split; rewrite ?Hf, ?Hi, ?Hn, ?Hp, ?Hlen, ?Hcap; try done; try lia.
  - rewrite <- Wp, <- app_assoc. simpl. f_equiv. by rewrite Permutation_middle.
  - rewrite Wi, !length_app. simpl. lia.
  - intros j e0 Hj E. rewrite Hoth in E by (intros ->; done). eapply Wa; [|done]. set_solver.
  - intros j e0 [Hj|Hj]%elem_of_app E.
    + rewrite Hoth in E by (intros ->; apply (Hdisj i); set_solver). by eapply Wd.
    + apply list_elem_of_singleton in Hj as ->. rewrite He in E. by simplify_eq.
Qed.

Lemma reset_loop_wf s :
  length (default [] (entries s)) = Z.to_nat (capacity s) -> is_u32 (capacity s) ->
  free_list s = [] -> inflight_list s = [] -> inflight s = 0 -> peak_inflight s = 0 ->
  pipeline_wf (reset_loop (Z.to_nat (capacity s)) 0 s).
Proof.
  intros Hl Hc Hf Hi Hn Hp.
  destruct (reset_loop_frame (Z.to_nat (capacity s)) 0 s) as (Ff&Fi&Fc&Fn&Fp&Fl).
  unfold is_u32 in *.
  split; rewrite ?Ff, ?Fi, ?Fc, ?Fn, ?Fp, ?Fl, ?Hf, ?Hi; try done; try lia.
  - by rewrite app_nil_r.
  - intros j e Hj. set_solver.
  - intros j e Hj. rewrite reset_loop_entry. simpl in Hj. apply elem_of_seq in Hj.
    rewrite decide_True by lia. by intros (?&_&->)%fmap_Some.
Qed.

Lemma reset_wf s :
  pipeline_wf s -> exists s', kfastblock_pipeline_reset (Some s) = Some s' /\ pipeline_wf s'.
Proof. intros Hwf. eexists. split; [done|]. apply reset_loop_wf; by destruct Hwf. Qed.

Lemma init_wf alloc_ok s0 cap s :
  is_u32 cap -> kfastblock_pipeline_init alloc_ok (Some s0) cap = (0, Some s) ->
  pipeline_wf s /\ capacity s = cap.
Proof.
  intros Hc E. simpl in E. destruct (cap =? 0) eqn:Hz.
  - simplify_eq. unbool. subst. split; [|done].
    split; simpl; try done; intros; set_solver.
  - destruct alloc_ok; simplify_eq/=. split; [|apply reset_loop_frame].
    match goal with |- pipeline_wf (reset_loop _ _ ?s1) => apply (reset_loop_wf s1) end;
      simpl; try done.
    by rewrite length_replicate.
Qed.

Lemma pipeline_exec_wf s call :
  pipeline_wf s -> exists s', pipeline_exec (Some s) call = Some s' /\ pipeline_wf s'.
Proof.
  intros Hwf. destruct call; cbn [pipeline_exec].
  - destruct (begin_wf now s q index svc op Hwf) as (?&s'&->&?). by exists s'.
  - destruct (finish_wf now s q ret status body_len flags Hwf) as (?&s'&->&?). by exists s'.
  - by apply reset_wf.
Qed.

(** ** The abstract exchange table

    What the request code relies on: a bounded sequence of exchanges in the
    order they were started, found and removed by sequence number. *)

Record exchange := Exchange {
  x_seq : Z;
  x_object_index : Z;
  x_service : Z;
  x_opcode : Z;
}.

Definition table_begin (cap : Z) (x : exchange) (t : list exchange) : bool * list exchange :=
  if negb (x_seq x =? 0) && (Z.of_nat (length t) <? cap) then (true, t ++ [x]) else (false, t).

Fixpoint table_finish (q : Z) (t : list exchange) : option exchange * list exchange :=
  match t with
  | [] => (None, [])
  | x :: t =>
      if x_seq x =? q then (Some x, t)
      else let '(r, t) := table_finish q t in (r, x :: t)
  end.

Definition abs_entry (e : kfastblock_pipeline_entry) : exchange :=
  Exchange (seq e) (object_index e) (service e) (opcode e).

Definition abs_table (s : kfastblock_pipeline_state) : list exchange :=
  abs_entry <$> inflight_entries s.

Lemma table_finish_none q t :
  Forall (fun x => x_seq x <> q) t -> table_finish q t = (None, t).
Proof.
  induction 1 as [|x t Hx _ IH]; [done|]. simpl.
  by rewrite (proj2 (Z.eqb_neq _ _) Hx), IH.
Qed.

Lemma table_finish_middle q t1 x t2 :
  Forall (fun x => x_seq x <> q) t1 -> x_seq x = q ->
  table_finish q (t1 ++ x :: t2) = (Some x, t1 ++ t2).
Proof.
  intros H1 Hx. induction H1 as [|y t1 Hy _ IH]; simpl.
  - by rewrite (proj2 (Z.eqb_eq _ _) Hx).
  - by rewrite (proj2 (Z.eqb_neq _ _) Hy), IH.
Qed.

Lemma omap_replaced s s' i e' (l : list nat) :
  entry_replaced s s' i e' -> i ∉ l -> omap (entry_at s') l = omap (entry_at s) l.
Proof.
  intros (_&Hoth&_) Hi. induction l as [|j l IH]; [done|].
  apply not_elem_of_cons in Hi as [? ?]. cbn [omap list_omap].
  rewrite Hoth by congruence. by rewrite IH.
Qed.

Lemma length_inflight_entries s :
  pipeline_wf s -> length (inflight_entries s) = length (inflight_list s).
Proof.
  intros Hwf. unfold inflight_entries.
  assert (forall l, (forall j, j ∈ l -> j ∈ inflight_list s) ->
            length (omap (entry_at s) l) = length l) as Hall.
  { induction l as [|j l IH]; intros Hl; [done|]. cbn [omap list_omap].
    destruct (wf_lookup s Hwf j) as [e ->]; [right; apply Hl; set_solver|].
    simpl. f_equal. apply IH. intros k Hk. apply Hl. set_solver. }
  by apply Hall.
Qed.

(** An in-flight list without a matching entry has no exchange [q]. *)
Lemma abs_no_match s q (l : list nat) :
  pipeline_wf s -> (forall j, j ∈ l -> j ∈ inflight_list s) ->
  Forall (fun j => matches s q j = false) l ->
  Forall (fun x => x_seq x <> q) (abs_entry <$> omap (entry_at s) l).
Proof.
  intros Hwf Hl Hm. induction Hm as [|j l Hj _ IH]; [constructor|].
  cbn [omap list_omap]. destruct (entry_at s j) as [e|] eqn:He;
    [|apply IH; intros k Hk; apply Hl; set_solver].
  simpl. constructor; [|apply IH; intros k Hk; apply Hl; set_solver].
  unfold matches in Hj. rewrite He in Hj. simpl.
  destruct (wf_active s Hwf j e) as [Ha _]; [apply Hl; set_solver|done|].
  rewrite Ha in Hj. simpl in Hj. unbool. done.
Qed.

Lemma finish_table s q :
  pipeline_wf s ->
  match find_seq s q (inflight_list s) with
  | NULL => table_finish q (abs_table s) = (None, abs_table s)
  | Some i => forall l1 l2 e,
      inflight_list s = l1 ++ i :: l2 -> entry_at s i = Some e -> seq e = q ->
      Forall (fun j => matches s q j = false) l1 ->
      table_finish q (abs_table s)
      = (Some (abs_entry e), abs_entry <$> omap (entry_at s) (l1 ++ l2))
  end.
Proof.
  intros Hwf. pose proof (find_seq_spec s q (inflight_list s)) as Hf.
  destruct (find_seq s q (inflight_list s)) as [i|].
  - intros l1 l2 e Hl He Hs Hpre. unfold abs_table, inflight_entries.
    rewrite Hl, !omap_app. cbn [omap list_omap]. rewrite He. rewrite !fmap_app. simpl.
    apply table_finish_middle; [|done].
    apply abs_no_match; [done| |done]. intros j Hj. rewrite Hl. set_solver.
  - apply table_finish_none. by apply abs_no_match.
Qed.

(** C30: from initialisation on, whatever exchanges are started, finished and
    reset in whatever order, the free and the in-flight list partition the
    entry array, [inflight] counts the in-flight list and [peak_inflight]
    bounds it by the capacity. *)
Theorem reachable_pipeline_wf alloc_ok s0 cap s calls :
  is_u32 cap -> kfastblock_pipeline_init alloc_ok (Some s0) cap = (0, Some s) ->
  exists s', foldl pipeline_exec (Some s) calls = Some s' /\ pipeline_wf s'.
Proof.
  intros Hc [Hwf _]%init_wf; [|done]. clear s0 cap Hc alloc_ok.
  revert s Hwf. induction calls as [|call calls IH]; intros s Hwf; [by exists s|].
  simpl. destruct (pipeline_exec_wf s call Hwf) as (s'&->&Hwf'). by apply IH.
Qed.

Lemma begin_refines now s q index svc op :
  pipeline_wf s -> exists r s',
    kfastblock_pipeline_begin_exchange now (Some s) q index svc op = (r, Some s') /\
    table_begin (capacity s) (Exchange q index svc op) (abs_table s)
    = (bool_decide (is_Some r), abs_table s').
Proof.
  intros Hwf. pose proof (wf_count s Hwf) as Hcnt.
  assert (Hlen : Z.of_nat (length (abs_table s)) = inflight s)
    by (unfold abs_table; rewrite length_fmap, (length_inflight_entries s Hwf);
        by rewrite (wf_inflight s Hwf)).
  unfold table_begin. rewrite Hlen. simpl x_seq.
  destruct (decide (q = 0)) as [->|Hq]; [by eexists _, _; split; [apply begin_noop; left|]|].
  rewrite (proj2 (Z.eqb_neq q 0) Hq). simpl negb. simpl andb.
  destruct (free_list s) as [|i fl] eqn:Hfl; simpl in Hcnt.
  { eexists _, _; split; [apply begin_noop; by right|]. zsolve. done. }
  destruct (begin_spec now s q index svc op i fl Hwf Hq Hfl)
    as (s'&e'&E&Hrep&_&Hi&_&_&_&Hs&Ho&Hv&Hp&_).
  exists (Some i), s'. split; [done|]. rewrite (proj2 (Z.ltb_lt _ _)) by lia.
  f_equal. unfold abs_table, inflight_entries. rewrite Hi, omap_app, fmap_app.
  rewrite (omap_replaced s s' i e' (inflight_list s)); [|done|].
  - f_equal. destruct Hrep as [He' _]. cbn [omap list_omap]. rewrite He'. simpl.
    unfold abs_entry. by rewrite Hs, Ho, Hv, Hp.
  - intros ?. eapply (wf_disjoint s Hwf i); [rewrite Hfl; set_solver|done].
Qed.

Lemma finish_refines now s q ret status body_len flags :
  pipeline_wf s -> q <> 0 -> exists r s',
    kfastblock_pipeline_finish_exchange now (Some s) q ret status body_len flags = (r, Some s') /\
    table_finish q (abs_table s) = (abs_entry <$> (r ≫= entry_at s), abs_table s').
Proof.
  intros Hwf Hq.
  pose proof (finish_spec now s q ret status body_len flags Hwf Hq) as Hspec.
  pose proof (finish_table s q Hwf) as Htab.
  destruct (find_seq s q (inflight_list s)) as [i|]; [|by eexists _, _].
  destruct Hspec as (s'&e&e'&l1&l2&E&Hrep&Hl&Hpre&Hi&_&_&_&He&Hs&_).
  exists (Some i), s'. split; [done|]. rewrite (Htab l1 l2 e Hl He Hs Hpre). simpl.
  rewrite He. simpl. f_equal. unfold abs_table, inflight_entries. rewrite Hi. symmetry. f_equal.
  eapply omap_replaced; [done|]. pose proof (wf_nodup s Hwf) as (_&_&Hnd)%NoDup_app.
  rewrite Hl, <- Permutation_middle in Hnd. by apply NoDup_cons in Hnd as [? _].
Qed.

Lemma lookup_refines s q e0 :
  pipeline_wf s -> q <> 0 ->
  fst (table_finish q (abs_table s))
  = (let '(found, e) := kfastblock_pipeline_lookup (Some s) q (Some e0) in
     if found : bool then abs_entry <$> e else None).
Proof.
  intros Hwf Hq. pose proof (finish_table s q Hwf) as Htab.
  pose proof (find_seq_spec s q (inflight_list s)) as Hf.
  cbn [kfastblock_pipeline_lookup kfastblock_pipeline_find_locked].
  rewrite (proj2 (Z.eqb_neq q 0) Hq).
  destruct (find_seq s q (inflight_list s)) as [i|]; [|by rewrite Htab].
  destruct Hf as (l1&l2&Hl&Hm&Hpre). destruct (matches_inv s q i Hm) as (e&He&_&Hs).
  by rewrite (Htab l1 l2 e Hl He Hs Hpre), He.
Qed.

(** C31: the pipeline implements the bounded exchange table: starting an
    exchange succeeds exactly when the table accepts it and appends it, and
    finishing one returns and removes the oldest exchange with that sequence
    number, which is also the one a lookup finds. *)
Theorem pipeline_refines_table now s q :
  pipeline_wf s ->
  (forall index svc op, exists r s',
     kfastblock_pipeline_begin_exchange now (Some s) q index svc op = (r, Some s') /\
     table_begin (capacity s) (Exchange q index svc op) (abs_table s)
     = (bool_decide (is_Some r), abs_table s')) /\
  (forall ret status body_len flags, q <> 0 -> exists r s',
     kfastblock_pipeline_finish_exchange now (Some s) q ret status body_len flags = (r, Some s') /\
     table_finish q (abs_table s) = (abs_entry <$> (r ≫= entry_at s), abs_table s')) /\
  (forall e0, q <> 0 ->
     fst (table_finish q (abs_table s))
     = (let '(found, e) := kfastblock_pipeline_lookup (Some s) q (Some e0) in
        if found : bool then abs_entry <$> e else None)).
Proof.
  intros Hwf. split_and!; intros.
  - by apply begin_refines.
  - by apply finish_refines.
  - by apply lookup_refines.
Qed.

Lemma has_seq_false s q :
  pipeline_wf s -> q <> 0 -> kfastblock_pipeline_has_seq (Some s) q = false ->
  Forall (fun j => matches s q j = false) (inflight_list s).
Proof.
  intros _ Hq H. pose proof (find_seq_spec s q (inflight_list s)) as Hf.
  unfold kfastblock_pipeline_has_seq in H.
  cbn [kfastblock_pipeline_lookup kfastblock_pipeline_find_locked] in H.
  rewrite (proj2 (Z.eqb_neq q 0) Hq) in H.
  by destruct (find_seq s q (inflight_list s)).
Qed.

Lemma find_seq_last s q l i :
  Forall (fun j => matches s q j = false) l -> matches s q i = true ->
  find_seq s q (l ++ [i]) = Some i.
Proof.
  intros Hl Hi. pose proof (find_seq_spec s q (l ++ [i])) as Hf.
  destruct (find_seq s q (l ++ [i])) as [k|].
  - destruct Hf as (l1&l2&Hl'&Hk&_). f_equal.
    assert (Hin : k ∈ l ++ [i]) by (rewrite Hl'; set_solver).
    apply elem_of_app in Hin as [Hin|Hin]; [|set_solver].
    rewrite Forall_forall in Hl. rewrite Hl in Hk by done. done.
  - apply Forall_app in Hf as [_ Hf]. rewrite Forall_singleton in Hf. congruence.
Qed.

(** an exchange whose sequence number is not yet in flight is found again
    by its response: finishing returns the very entry that was handed out, with
    its object index and the reported outcome, and leaves the table and the
    number of free entries as they were before. *)
Theorem begin_finish_roundtrip now now' s q index svc op i s1 ret status body_len flags :
  pipeline_wf s -> kfastblock_pipeline_has_seq (Some s) q = false ->
  kfastblock_pipeline_begin_exchange now (Some s) q index svc op = (Some i, Some s1) ->
  exists s2 e,
    kfastblock_pipeline_finish_exchange now' (Some s1) q ret status body_len flags
      = (Some i, Some s2) /\
    entry_at s2 i = Some e /\ object_index e = index /\ last_error e = ret /\
    response_status e = status /\ response_body_len e = body_len /\ transport_flags e = flags /\
    abs_table s2 = abs_table s /\
    kfastblock_pipeline_free_entries (Some s2) = kfastblock_pipeline_free_entries (Some s).
Proof.
  intros Hwf Hfresh E.
  destruct (decide (q = 0)) as [->|Hq]; [by rewrite begin_noop in E by (by left)|].
  destruct (free_list s) as [|i' fl] eqn:Hfl; [by rewrite begin_noop in E by (by right)|].
  destruct (begin_spec now s q index svc op i' fl Hwf Hq Hfl)
    as (s1'&e1&E'&(He1&Hoth1&_&Hcap1)&_&Hi1&Hn1&_&Ha1&Hs1&Ho1&_).
  rewrite E in E'. injection E' as <- <-.
  destruct (begin_wf now s q index svc op Hwf) as (?&?&E'&Hwf1).
  rewrite E in E'. injection E' as <- <-.
  destruct (begin_refines now s q index svc op Hwf) as (?&?&E'&Ht1).
  rewrite E in E'. injection E' as <- <-.
  apply (has_seq_false s q Hwf Hq) in Hfresh.
  assert (Hfind : find_seq s1 q (inflight_list s1) = Some i).
  { rewrite Hi1. apply find_seq_last.
    - rewrite Forall_forall in Hfresh |- *. intros j Hj. unfold matches.
      rewrite Hoth1; [by apply Hfresh|]. intros ->.
      apply (wf_disjoint s Hwf i); [rewrite Hfl; set_solver|done].
    - unfold matches. rewrite He1, Ha1. by apply Z.eqb_eq. }
  pose proof (finish_spec now' s1 q ret status body_len flags Hwf1 Hq) as Hfin.
  rewrite Hfind in Hfin.
  destruct Hfin as (s2&e&e2&_&_&E2&(He2&_&_&Hcap2)&_&_&_&_&Hn2&_&He&_&_&_&Ho2&H3&H4&H5&H6).
  destruct (finish_wf now' s1 q ret status body_len flags Hwf1) as (?&?&E'&Hwf2).
  rewrite E2 in E'. injection E' as <- <-.
  destruct (finish_refines now' s1 q ret status body_len flags Hwf1 Hq) as (?&?&E'&Ht2).
  rewrite E2 in E'. injection E' as <- <-.
  exists s2, e2. split_and!; try done; [congruence|..].
  - assert (abs_table s1 = abs_table s ++ [Exchange q index svc op]) as Ht
      by (unfold table_begin in Ht1; by case_match; simplify_eq/=).
    rewrite Ht, table_finish_middle in Ht2; [|by apply abs_no_match|done].
    injection Ht2 as _ <-. by rewrite app_nil_r.
  - simpl. pose proof (wf_count s Hwf). pose proof (wf_count s2 Hwf2). f_equal. lia.
Qed.

(** What the snapshot's loop has computed after the entries [l]. *)
Definition snapshot_covers (snap : kfastblock_pipeline_snapshot_t)
    (l : list kfastblock_pipeline_entry) : Prop :=
  (exists e, e ∈ l /\ oldest_inflight_seq snap = seq e /\
     oldest_queued_jiffies snap = queued_jiffies e /\
     Forall (fun e' => queued_jiffies e <= queued_jiffies e') l) /\
  (exists e, e ∈ l /\ newest_inflight_seq snap = seq e /\
     newest_queued_jiffies snap = queued_jiffies e /\
     Forall (fun e' => queued_jiffies e' <= queued_jiffies e) l).

Lemma snapshot_entry_frame snap l :
  let snap' := foldl snapshot_entry snap l in
  snap_capacity snap' = snap_capacity snap /\ snap_inflight snap' = snap_inflight snap /\
  snap_peak_inflight snap' = snap_peak_inflight snap /\
  snap_free_entries snap' = snap_free_entries snap.
Proof.
  revert snap. induction l as [|e l IH]; intros snap; cbn zeta; [done|]. cbn [foldl].
  destruct (IH (snapshot_entry snap e)) as (->&->&->&->).
  unfold snapshot_entry. repeat split; by zcases.
Qed.

Lemma snapshot_loop snap l :
  oldest_inflight_seq snap = 0 -> newest_queued_jiffies snap = 0 ->
  Forall (fun e => seq e <> 0 /\ 0 <= queued_jiffies e) l -> l <> [] ->
  snapshot_covers (foldl snapshot_entry snap l) l.
Proof.
  intros Ho Hn Hl. induction l as [|e l IH] using rev_ind; [done|]. intros _.
  apply Forall_app in Hl as [Hl [[Hs Hq] _]%Forall_cons].
  rewrite foldl_snoc. destruct (decide (l = [])) as [->|Hne].
  { simpl. unfold snapshot_entry. rewrite Ho. simpl. rewrite Hn.
    rewrite (proj2 (Z.leb_le _ _) Hq).
    split; exists e; simpl; repeat split; try set_solver; by apply Forall_singleton. }
  destruct (IH Hl Hne) as [(eo&Hin&Hseo&Hqo&Hmin) (en&Hin'&Hsen&Hqn&Hmax)].
  assert (seq eo <> 0) by (rewrite Forall_forall in Hl; by apply Hl).
  set (sn := foldl snapshot_entry snap l) in *. unfold snapshot_entry.
  split.
  - destruct (decide (queued_jiffies e < queued_jiffies eo)) as [Hlt|Hge].
    + exists e. rewrite orb_comm, (proj2 (Z.ltb_lt _ _)) by lia. simpl orb.
      repeat split; [set_solver|by zcases|by zcases|].
      apply Forall_app. split; [|by apply Forall_singleton].
      eapply Forall_impl; [exact Hmin|]. simpl. intros. lia.
    + exists eo. rewrite (proj2 (Z.eqb_neq _ _)), (proj2 (Z.ltb_ge _ _)) by lia. simpl orb.
      repeat split; [set_solver|by zcases|by zcases|].
      apply Forall_app. split; [done|]. apply Forall_singleton. lia.
  - destruct (decide (queued_jiffies en <= queued_jiffies e)) as [Hle|Hgt].
    + exists e. repeat split; [set_solver|zcases; unbool; simpl in *; done || lia..|].
      apply Forall_app. split; [|by apply Forall_singleton].
      eapply Forall_impl; [exact Hmax|]. simpl. intros. lia.
    + exists en. repeat split; [set_solver|zcases; unbool; simpl in *; done || lia..|].
      apply Forall_app. split; [done|]. apply Forall_singleton. lia.
Qed.

(** a snapshot accounts for every entry (free plus in flight is the
    capacity), and names an in-flight exchange with the earliest and one with
    the latest start time; with nothing in flight both are 0. *)
Theorem snapshot_accounts s :
  pipeline_wf s -> Forall (fun e => 0 <= queued_jiffies e) (inflight_entries s) ->
  exists snap,
    kfastblock_pipeline_snapshot (Some s) (Some empty_snapshot) = Some snap /\
    snap_free_entries snap + snap_inflight snap = snap_capacity snap /\
    snap_inflight snap <= snap_peak_inflight snap /\
    (inflight s = 0 -> oldest_inflight_seq snap = 0 /\ newest_inflight_seq snap = 0) /\
    (inflight s <> 0 -> snapshot_covers snap (inflight_entries s)).
Proof.
  intros Hwf Hq. cbn [kfastblock_pipeline_snapshot]. eexists. split; [reflexivity|].
  pose proof (wf_count s Hwf) as Hcnt. pose proof (wf_peak s Hwf).
  pose proof (wf_capacity s Hwf) as Hc. unfold is_u32 in Hc.
  pose proof (wf_inflight s Hwf) as Hi. pose proof (length_inflight_entries s Hwf) as Hle.
  match goal with |- context [foldl snapshot_entry ?s0 _] =>
    destruct (snapshot_entry_frame s0 (inflight_entries s)) as (->&->&->&->) end.
  split_and!; [simpl; rewrite u32_small; lia | simpl; lia | ..].
  - intros Hz. destruct (inflight_entries s); [done|]. simpl in Hle. lia.
  - intros Hz. apply snapshot_loop; [done|done| |destruct (inflight_entries s); simpl in *; [lia|done]].
    apply Forall_and. split; [|done].
    apply Forall_forall. intros e He. unfold inflight_entries in He.
    apply list_elem_of_omap in He as (j&Hj&He). by eapply (wf_active s Hwf).
Qed.

(** ** Concrete runs *)

(** A pipeline with two entries. *)
Definition pipeline2 : kfastblock_pipeline_state :=
  let s0 := {| free_list := []; inflight_list := []; entries := NULL; capacity := 0;
               inflight := 0; peak_inflight := 0 |} in
  default s0 (snd (kfastblock_pipeline_init true (Some s0) 2)).

Lemma pipeline2_wf : pipeline_wf pipeline2.
Proof.
  apply (init_wf true pipeline2 2 pipeline2); [unfold is_u32; lia | reflexivity].
Qed.

Lemma reachable_pipeline_wf_witness :
  exists s', foldl pipeline_exec (Some pipeline2)
    [Begin 10 7 0 1 2; Begin 11 8 1 1 2; Begin 12 9 2 1 2; Finish 15 7 0 0 0 0; Reset] = Some s'
    /\ pipeline_wf s'.
Proof.
  apply (reachable_pipeline_wf true pipeline2 2 pipeline2); [unfold is_u32; lia | reflexivity].
Defined.

Lemma pipeline_refines_table_witness :
  exists r s',
    kfastblock_pipeline_begin_exchange 10 (Some pipeline2) 7 0 1 2 = (r, Some s') /\
    table_begin 2 (Exchange 7 0 1 2) [] = (bool_decide (is_Some r), abs_table s').
Proof. apply (pipeline_refines_table 10 pipeline2 7 pipeline2_wf). Defined.

Lemma begin_finish_roundtrip_witness :
  exists s1 s2 e,
    kfastblock_pipeline_begin_exchange 10 (Some pipeline2) 7 3 1 2 = (Some 0%nat, Some s1) /\
    kfastblock_pipeline_finish_exchange 20 (Some s1) 7 0 0 512 0 = (Some 0%nat, Some s2) /\
    entry_at s2 0 = Some e /\ object_index e = 3.
Proof.
  destruct (kfastblock_pipeline_begin_exchange 10 (Some pipeline2) 7 3 1 2) as [[i|] [s1|]] eqn:E;
    try discriminate E.
  assert (i = 0%nat) as -> by (vm_compute in E; congruence).
  destruct (begin_finish_roundtrip 10 20 pipeline2 7 3 1 2 0%nat s1 0 0 512 0
    pipeline2_wf eq_refl E) as (s2&e&?&?&?&_).
  by exists s1, s2, e.
Defined.

Lemma snapshot_accounts_witness :
  exists snap,
    kfastblock_pipeline_snapshot (Some pipeline2) (Some empty_snapshot) = Some snap /\
    snap_free_entries snap + snap_inflight snap = snap_capacity snap.
Proof.
  destruct (snapshot_accounts pipeline2 pipeline2_wf ltac:(constructor)) as (snap&E&?&_).
  by exists snap.
Defined.

End Pipeline.
