(* ===== verification/Fault.v ===== *)
(** * Fault injection (kfastblock/src/fault.c)

    A volume can be told, through sysfs, to fail at chosen sites with a chosen
    error a limited number of times.  The module parses and prints the site
    mask and hands out the failures.  The state is the C struct without its
    spinlock. *)

From Stdlib Require Import Ascii.
From S2P Require Import Prelude.

Module Fault.

Definition KFASTBLOCK_FAULT_NONE : Z := 0.
Definition KFASTBLOCK_FAULT_MONITOR_CONNECT : Z := Z.shiftl 1 0.
Definition KFASTBLOCK_FAULT_OSD_CONNECT : Z := Z.shiftl 1 1.
Definition KFASTBLOCK_FAULT_LEADER_QUERY : Z := Z.shiftl 1 2.
Definition KFASTBLOCK_FAULT_MONITOR_FETCH_IMAGE : Z := Z.shiftl 1 3.
Definition KFASTBLOCK_FAULT_MONITOR_FETCH_CLUSTER : Z := Z.shiftl 1 4.
Definition KFASTBLOCK_FAULT_OBJECT_IO : Z := Z.shiftl 1 5.

Record kfastblock_fault_injection_state := {
  mask : Z;
  errno_value : Z;
  budget : Z;
  arm_count : Z;
  reset_count : Z;
  hit_count : Z;
  skip_count : Z;
  last_arm_jiffies : Z;
  last_reset_jiffies : Z;
  last_trigger_jiffies : Z;
  last_site : Z;
  last_errno : Z;
  enabled : bool;
}.

#[export] Instance eta_fault : Eta kfastblock_fault_injection_state := fun s =>
  {| mask := mask s;
     errno_value := errno_value s;
     budget := budget s;
     arm_count := arm_count s;
     reset_count := reset_count s;
     hit_count := hit_count s;
     skip_count := skip_count s;
     last_arm_jiffies := last_arm_jiffies s;
     last_reset_jiffies := last_reset_jiffies s;
     last_trigger_jiffies := last_trigger_jiffies s;
     last_site := last_site s;
     last_errno := last_errno s;
     enabled := enabled s |}.

(** ** The site table *)

Definition kfastblock_fault_sites : list (Z * string) :=
  [ (KFASTBLOCK_FAULT_MONITOR_CONNECT, "monitor_connect"%string);
    (KFASTBLOCK_FAULT_OSD_CONNECT, "osd_connect"%string);
    (KFASTBLOCK_FAULT_LEADER_QUERY, "leader_query"%string);
    (KFASTBLOCK_FAULT_MONITOR_FETCH_IMAGE, "monitor_fetch_image"%string);
    (KFASTBLOCK_FAULT_MONITOR_FETCH_CLUSTER, "monitor_fetch_cluster"%string);
    (KFASTBLOCK_FAULT_OBJECT_IO, "object_io"%string) ].

Definition kfastblock_fault_token_matches (token name : ptr string) : bool :=
  match token, name with Some t, Some n => streq t n | _, _ => false end.

(** The mask of the first site with the name. *)
Fixpoint site_mask_loop (token : string) (sites : list (Z * string)) : Z :=
  match sites with
  | [] => U32_MAX
  | (m, name) :: sites =>
      if kfastblock_fault_token_matches (Some token) (Some name) then m
      else site_mask_loop token sites
  end.

Definition kfastblock_fault_mask_for_token (token : ptr string) : Z :=
  match token with
  | NULL => 0
  | Some t =>
      if str_empty t then 0
      else if streq t "none" then 0
      else if streq t "all" then
        Z.lor (Z.lor (Z.lor (Z.lor (Z.lor KFASTBLOCK_FAULT_MONITOR_CONNECT
          KFASTBLOCK_FAULT_OSD_CONNECT) KFASTBLOCK_FAULT_LEADER_QUERY)
          KFASTBLOCK_FAULT_MONITOR_FETCH_IMAGE) KFASTBLOCK_FAULT_MONITOR_FETCH_CLUSTER)
          KFASTBLOCK_FAULT_OBJECT_IO
      else site_mask_loop t kfastblock_fault_sites
  end.

(** ** Parsing *)

(** The separators of [strsep(&cursor, ",| \t\n")]. *)
Definition is_separator (a : Ascii.ascii) : bool :=
  bool_decide (a ∈ [","; "|"; " "; "009"; "010"]%char).

(** The tokens the [strsep] loop yields, empty ones included: the text between
    separators, the last one up to the end of the string. *)
Fixpoint strsep_tokens (s : string) : list string :=
  match s with
  | EmptyString => [EmptyString]
  | String a s =>
      if is_separator a then EmptyString :: strsep_tokens s
      else match strsep_tokens s with
           | [] => [String a EmptyString]
           | t :: ts => String a t :: ts
           end
  end.

Section parse.

(** [kstrtou32(token, 0, &numeric)]: the number, or nothing on an error. *)
Context (kstrtou32 : string -> option Z).

Fixpoint parse_tokens (tokens : list string) (m : Z) : Z + Z :=
  match tokens with
  | [] => inr m
  | token :: tokens =>
      if str_empty token then parse_tokens tokens m
      else
        let token_mask := kfastblock_fault_mask_for_token (Some token) in
        if token_mask =? U32_MAX then
          match kstrtou32 token with
          | None => inl (- EINVAL)
          | Some numeric => parse_tokens tokens (Z.lor m numeric)
          end
        else if streq token "none" then parse_tokens tokens 0
        else if streq token "all" then parse_tokens tokens token_mask
        else parse_tokens tokens (Z.lor m token_mask)
  end.

(** The return code, and what [*mask_out] holds afterwards.  [strscpy] reports
    a string that does not fit [tmp] with [-E2BIG]. *)
Definition kfastblock_fault_parse_mask (buf : ptr string) (mask_out : ptr Z) : Z * ptr Z :=
  match buf, mask_out with
  | Some b, Some _ =>
      if decide (128 <= String.length b)%nat then (- E2BIG, mask_out)
      else match parse_tokens (strsep_tokens b) 0 with
           | inl err => (err, mask_out)
           | inr m => (0, Some m)
           end
  | _, _ => (- EINVAL, mask_out)
  end.

End parse.

(** ** Printing *)

Definition hex_digit (d : Z) : string :=
  match String.get (Z.to_nat d) "0123456789abcdef" with
  | Some a => String a EmptyString
  | None => EmptyString
  end.

(** [%x] of a [u32]: at most eight digits. *)
Fixpoint hex_digits (fuel : nat) (x : Z) : string :=
  match fuel with
  | O => EmptyString
  | S fuel =>
      if x <? 16 then hex_digit x
      else String.append (hex_digits fuel (x / 16)) (hex_digit (x mod 16))
  end.

Definition hex (x : Z) : string := hex_digits 8 x.

(** [scnprintf(buf + used, size, ...)] with [used] the length of [buf]: the
    text is cut to [size - 1] characters, and a size of 0 writes nothing. *)
Definition scnprintf_at (buf : string) (size : nat) (text : string) : string :=
  if decide (size = 0)%nat then buf
  else String.append buf (String.substring 0 (size - 1) text).

Definition comma (buf : string) : string :=
  if decide (0 < String.length buf)%nat then ","%string else EmptyString.

(** The loop over the table: the text so far and the bits still to print. *)
Fixpoint format_sites (sites : list (Z * string)) (m : Z) (buf_len : nat) (buf : string)
    : string * Z :=
  match sites with
  | [] => (buf, m)
  | (bit, name) :: sites =>
      if Z.land m bit =? 0 then format_sites sites m buf_len buf
      else
        let buf := scnprintf_at buf (buf_len - String.length buf)
                     (String.append (comma buf) name) in
        format_sites sites (Z.land m (u32 (Z.lnot bit))) buf_len buf
  end.

Definition kfastblock_fault_format_mask (m : Z) (buf : ptr string) (buf_len : nat) : ptr string :=
  match buf with
  | NULL => NULL
  | Some b =>
      if decide (buf_len = 0)%nat then Some b
      else if m =? 0 then Some (scnprintf_at EmptyString buf_len "none")
      else
        let '(text, m) := format_sites kfastblock_fault_sites m buf_len EmptyString in
        if truthy m && bool_decide (String.length text < buf_len)%nat
        then Some (scnprintf_at text (buf_len - String.length text)
                     (String.append (comma text) (String.append "0x" (hex m))))
        else Some text
  end.

Fixpoint site_name_loop (site : Z) (sites : list (Z * string)) : string :=
  match sites with
  | [] => "unknown"
  | (m, name) :: sites => if m =? site then name else site_name_loop site sites
  end.

Definition kfastblock_fault_site_name (site : Z) : string :=
  site_name_loop site kfastblock_fault_sites.

(** ** Arming and triggering *)

Definition kfastblock_fault_injection_init (state : ptr kfastblock_fault_injection_state)
    : ptr kfastblock_fault_injection_state :=
  (fun _ =>
    {| mask := 0; errno_value := - EIO; budget := 0; arm_count := 0; reset_count := 0;
       hit_count := 0; skip_count := 0; last_arm_jiffies := 0; last_reset_jiffies := 0;
       last_trigger_jiffies := 0; last_site := 0; last_errno := 0; enabled := false |})
  <$> state.

Definition kfastblock_fault_note_arm_locked (now : Z)
    (state : ptr kfastblock_fault_injection_state) (on : bool)
    : ptr kfastblock_fault_injection_state :=
  (fun s =>
    if negb on then s
    else s <| arm_count ::= fun n => u32 (n + 1) |> <| last_arm_jiffies := now |>) <$> state.

Definition kfastblock_fault_injection_set_mask
    (state : ptr kfastblock_fault_injection_state) (m : Z)
    : ptr kfastblock_fault_injection_state :=
  (fun s => s <| mask := m |>) <$> state.

Definition kfastblock_fault_injection_set_errno
    (state : ptr kfastblock_fault_injection_state) (e : Z)
    : ptr kfastblock_fault_injection_state :=
  (fun s => s <| errno_value := or_else e (- EIO) |>) <$> state.

Definition kfastblock_fault_injection_set_budget
    (state : ptr kfastblock_fault_injection_state) (b : Z)
    : ptr kfastblock_fault_injection_state :=
  (fun s => s <| budget := b |>) <$> state.

Definition kfastblock_fault_injection_set_enabled (now : Z)
    (state : ptr kfastblock_fault_injection_state) (on : bool)
    : ptr kfastblock_fault_injection_state :=
  match state with
  | NULL => NULL
  | Some s => kfastblock_fault_note_arm_locked now (Some (s <| enabled := on |>)) on
  end.

Definition kfastblock_fault_injection_reset (now : Z)
    (state : ptr kfastblock_fault_injection_state) : ptr kfastblock_fault_injection_state :=
  (fun s =>
    s <| enabled := false |> <| mask := 0 |> <| budget := 0 |> <| last_site := 0 |>
      <| last_errno := 0 |> <| last_reset_jiffies := now |>
      <| reset_count ::= fun n => u32 (n + 1) |>) <$> state.

(** The verdict, the state afterwards and what [*err_out] holds. *)
Definition kfastblock_fault_injection_should_fail (now : Z)
    (state : ptr kfastblock_fault_injection_state) (site : Z) (err_out : ptr Z)
    : bool * ptr kfastblock_fault_injection_state * ptr Z :=
  let err_out := (fun _ => 0) <$> err_out in
  match state with
  | NULL => (false, NULL, err_out)
  | Some s =>
      if site =? 0 then (false, Some s, err_out)
      else if negb (enabled s) || negb (has_flag (mask s) site) then (false, Some s, err_out)
      else if budget s =? 0 then
        (false, Some (s <| skip_count ::= fun n => u32 (n + 1) |>), err_out)
      else
        let s := s <| budget ::= fun b => b - 1 |>
                   <| hit_count ::= fun n => u32 (n + 1) |>
                   <| last_site := site |>
                   <| last_errno := or_else (errno_value s) (- EIO) |>
                   <| last_trigger_jiffies := now |> in
        (true, Some s, (fun _ => last_errno s) <$> err_out)
  end.

(** ** The getters, one per instance of [KFASTBLOCK_FAULT_GETTER] *)

Definition kfastblock_fault_injection_mask (s : ptr kfastblock_fault_injection_state) : Z :=
  from_option mask 0 s.
Definition kfastblock_fault_injection_errno (s : ptr kfastblock_fault_injection_state) : Z :=
  from_option errno_value 0 s.
Definition kfastblock_fault_injection_budget (s : ptr kfastblock_fault_injection_state) : Z :=
  from_option budget 0 s.
Definition kfastblock_fault_injection_enabled (s : ptr kfastblock_fault_injection_state) : bool :=
  from_option enabled false s.
Definition kfastblock_fault_injection_arm_count (s : ptr kfastblock_fault_injection_state) : Z :=
  from_option arm_count 0 s.
Definition kfastblock_fault_injection_reset_count (s : ptr kfastblock_fault_injection_state) : Z :=
  from_option reset_count 0 s.
Definition kfastblock_fault_injection_hit_count (s : ptr kfastblock_fault_injection_state) : Z :=
  from_option hit_count 0 s.
Definition kfastblock_fault_injection_skip_count (s : ptr kfastblock_fault_injection_state) : Z :=
  from_option skip_count 0 s.
Definition kfastblock_fault_injection_last_arm_jiffies
    (s : ptr kfastblock_fault_injection_state) : Z := from_option last_arm_jiffies 0 s.
Definition kfastblock_fault_injection_last_reset_jiffies
    (s : ptr kfastblock_fault_injection_state) : Z := from_option last_reset_jiffies 0 s.
Definition kfastblock_fault_injection_last_trigger_jiffies
    (s : ptr kfastblock_fault_injection_state) : Z := from_option last_trigger_jiffies 0 s.
Definition kfastblock_fault_injection_last_site (s : ptr kfastblock_fault_injection_state) : Z :=
  from_option last_site 0 s.
Definition kfastblock_fault_injection_last_errno (s : ptr kfastblock_fault_injection_state) : Z :=
  from_option last_errno 0 s.

(** ** A sequence of calls at the sites [sites], at the times given with them *)

Fixpoint hits (state : ptr kfastblock_fault_injection_state) (sites : list (Z * Z)) : list bool :=
  match sites with
  | [] => []
  | (now, site) :: sites =>
      let '(fail, state, _) := kfastblock_fault_injection_should_fail now state site NULL in
      fail :: hits state sites
  end.

Lemma should_fail_cases now s site err :
  exists fail s' err',
    kfastblock_fault_injection_should_fail now (Some s) site (Some err) = (fail, Some s', Some err') /\
    enabled s' = enabled s /\ mask s' = mask s /\ errno_value s' = errno_value s /\
    (fail = true -> site <> 0 /\ enabled s = true /\ has_flag (mask s) site = true /\
       budget s <> 0 /\ budget s' = budget s - 1 /\ err' = or_else (errno_value s) (- EIO)) /\
    (fail = false -> budget s' = budget s /\ err' = 0 /\
       (site = 0 \/ enabled s = false \/ has_flag (mask s) site = false \/ budget s = 0)).
Proof.
  cbn [kfastblock_fault_injection_should_fail fmap option_fmap option_map].
  destruct (site =? 0) eqn:Hs; rewrite ?Z.eqb_eq, ?Z.eqb_neq in Hs;
    [by eexists _, _, _; repeat split; auto|].
  destruct (enabled s) eqn:He; [|by eexists _, _, _; repeat split; auto].
  destruct (has_flag (mask s) site) eqn:Hm; [|by eexists _, _, _; repeat split; auto].
  destruct (budget s =? 0) eqn:Hb; rewrite ?Z.eqb_eq, ?Z.eqb_neq in Hb;
    [by eexists _, _, _; repeat split; auto|].
  by eexists _, _, _; repeat split.
Qed.

(** an armed budget is handed out exactly: of any sequence of checks at
    enabled sites, the first [budget] fail and all later ones pass. *)
Theorem budget_handed_out_exactly s sites :
  enabled s = true -> 0 <= budget s ->
  Forall (fun '(_, site) => has_flag (mask s) site = true) sites ->
  hits (Some s) sites
  = replicate (Nat.min (length sites) (Z.to_nat (budget s))) true
    ++ replicate (length sites - Z.to_nat (budget s)) false.
Proof.
  revert s. induction sites as [|[now site] sites IH]; intros s He Hb Hm; [done|].
  apply Forall_cons in Hm as [Hsite Hm].
  assert ((site =? 0) = false) as Hz
    by (apply Z.eqb_neq; intros ->; unfold has_flag in Hsite; by rewrite Z.land_0_r in Hsite).
  cbn [hits kfastblock_fault_injection_should_fail]. rewrite Hz, He, Hsite. simpl negb. simpl orb.
  destruct (budget s =? 0) eqn:Hb0; unbool.
  - rewrite IH by done. simpl budget. rewrite Hb0. simpl.
    by rewrite !Nat.min_0_r, !Nat.sub_0_r.
  - rewrite IH; [| done | simpl; lia | done]. simpl budget.
    replace (Z.to_nat (budget s)) with (S (Z.to_nat (budget s - 1))) by lia. done.
Qed.

(** a check fails only while injection is enabled, at a site of the mask
    and with budget left; it then reports a non-zero error and takes exactly
    one unit of the budget.  A check that passes costs nothing and reports 0. *)
Theorem should_fail_sound now s site err :
  exists fail s' err',
    kfastblock_fault_injection_should_fail now (Some s) site (Some err) = (fail, Some s', Some err') /\
    fail = enabled s && has_flag (mask s) site && truthy (budget s) /\
    budget s' = budget s - Z.b2z fail /\
    err' = (if fail : bool then or_else (errno_value s) (- EIO) else 0) /\
    (fail = true <-> err' <> 0).
Proof.
  destruct (should_fail_cases now s site err) as (fail&s'&err'&E&_&_&_&Ht&Hf).
  exists fail, s', err'. split; [done|].
  destruct fail.
  - destruct Ht as (_&->&->&Hb&->&->); [done|].
    unfold truthy. rewrite (proj2 (Z.eqb_neq _ _) Hb). simpl.
    repeat split; try done. intros _. unfold or_else, EIO. zsolve.
  - destruct Hf as (->&->&Hc); [done|]. repeat split; try done; [|simpl; lia].
    destruct Hc as [-> | [-> | [-> | ->]]]; rewrite ?andb_false_r; try done.
    unfold has_flag. by rewrite Z.land_0_r, andb_false_r.
Qed.

(** the text that sysfs shows for a mask of known sites parses back to that
    mask. *)
Theorem format_parse_roundtrip kstrtou32 m old out :
  0 <= m < 64 ->
  kfastblock_fault_parse_mask kstrtou32
    (kfastblock_fault_format_mask m (Some old) 128) (Some out) = (0, Some m).
Proof.
  intros Hm.
  assert (Hall : forallb (fun m => bool_decide (kfastblock_fault_parse_mask kstrtou32
    (kfastblock_fault_format_mask m (Some old) 128) (Some out) = (0, Some m))) (seqZ 0 64) = true)
    by (vm_compute; reflexivity).
  rewrite forallb_forall in Hall. specialize (Hall m).
  rewrite bool_decide_eq_true, <- list_elem_of_In in Hall. apply Hall, elem_of_seqZ. lia.
Qed.

(** ** Concrete runs *)

Definition armed_state : kfastblock_fault_injection_state :=
  {| mask := 33; errno_value := - EIO; budget := 2; arm_count := 1; reset_count := 0;
     hit_count := 0; skip_count := 0; last_arm_jiffies := 0; last_reset_jiffies := 0;
     last_trigger_jiffies := 0; last_site := 0; last_errno := 0; enabled := true |}.

Lemma budget_handed_out_exactly_witness :
  hits (Some armed_state)
    [(5, KFASTBLOCK_FAULT_OBJECT_IO); (6, KFASTBLOCK_FAULT_MONITOR_CONNECT);
     (7, KFASTBLOCK_FAULT_OBJECT_IO)] = [true; true; false].
Proof.
  apply (budget_handed_out_exactly armed_state
    [(5, KFASTBLOCK_FAULT_OBJECT_IO); (6, KFASTBLOCK_FAULT_MONITOR_CONNECT);
     (7, KFASTBLOCK_FAULT_OBJECT_IO)]); [reflexivity | simpl; lia | repeat constructor].
Defined.

Lemma format_parse_roundtrip_witness :
  kfastblock_fault_parse_mask (fun _ => None)
    (kfastblock_fault_format_mask 33 (Some EmptyString) 128) (Some 0) = (0, Some 33).
Proof. apply (format_parse_roundtrip (fun _ => None) 33 EmptyString 0). lia. Defined.

End Fault.
