(* ===== verification/Buffer.v ===== *)
(** * The object buffer pool (kfastblock/src/buffer.c)

    Response bodies live in buffers of one chunk size, recycled through a
    bounded free list.  A buffer is a header followed by its bytes; the model
    keeps the address, the header and the bytes of every buffer, so that what a
    recycled buffer still contains can be talked about. *)

From S2P Require Import Prelude.

Module Buffer.

(** A buffer: [struct kfastblock_object_buffer_entry] and the bytes behind it.
    The [void *] that callers hold is [entry + 1], so it stands for the same
    buffer. *)
Record kfastblock_object_buffer_entry := {
  addr : Z;
  capacity : Z;
  pooled : bool;
  data : list Z;
}.

#[export] Instance eta_buffer_entry : Eta kfastblock_object_buffer_entry := fun e =>
  {| addr := addr e; capacity := capacity e; pooled := pooled e; data := data e |}.

Record kfastblock_object_buffer_pool := {
  free_list : list kfastblock_object_buffer_entry;
  cached : Z;
  max_cached : Z;
  chunk_bytes : Z;
  cache_hits : Z;
  cache_misses : Z;
  cache_returns : Z;
  cache_evictions : Z;
  direct_allocs : Z;
}.

#[export] Instance eta_pool : Eta kfastblock_object_buffer_pool := fun p =>
  {| free_list := free_list p; cached := cached p; max_cached := max_cached p;
     chunk_bytes := chunk_bytes p; cache_hits := cache_hits p;
     cache_misses := cache_misses p; cache_returns := cache_returns p;
     cache_evictions := cache_evictions p; direct_allocs := direct_allocs p |}.

(** [sizeof(struct kfastblock_object_buffer_entry)]: two list pointers, a
    [size_t] and a padded [bool]. *)
Definition sizeof_entry : Z := 32.

(** [memset(entry + 1, 0, size)] *)
Definition memset0 (bytes : list Z) (size : Z) : list Z :=
  replicate (Z.to_nat size) 0 ++ drop (Z.to_nat size) bytes.

Section with_allocator.

(** [kvmalloc]: the address and the (arbitrary) contents of the block, or
    nothing.  [kvzalloc] is the same with cleared contents. *)
Context (kvmalloc : Z -> ptr (Z * list Z)).

Definition kvzalloc (size : Z) : ptr (Z * list Z) :=
  (fun '(a, _) => (a, replicate (Z.to_nat size) 0)) <$> kvmalloc size.

Definition kfastblock_buffer_pool_direct_alloc (size : Z) (zero : bool) : ptr (Z * list Z) :=
  if size =? 0 then NULL
  else if zero then kvzalloc size
  else kvmalloc size.

(** [kvfree]: the freed addresses, in order, are an output of the operations. *)
Definition kfastblock_buffer_pool_direct_free (e : kfastblock_object_buffer_entry) : list Z :=
  [addr e].

Definition kfastblock_buffer_pool_to_entry (buf : ptr kfastblock_object_buffer_entry)
    : ptr kfastblock_object_buffer_entry := buf.

Definition kfastblock_buffer_pool_init (pool : ptr kfastblock_object_buffer_pool)
    (chunk max : Z) : ptr kfastblock_object_buffer_pool :=
  (fun _ =>
    {| free_list := []; cached := 0; max_cached := or_else max 1; chunk_bytes := chunk;
       cache_hits := 0; cache_misses := 0; cache_returns := 0; cache_evictions := 0;
       direct_allocs := 0 |}) <$> pool.

(** [while (pool->cached > pool->max_cached && !list_empty(...))] *)
Fixpoint evict_loop (l : list kfastblock_object_buffer_entry) (p : kfastblock_object_buffer_pool)
    : kfastblock_object_buffer_pool * list Z :=
  match l with
  | [] => (p <| free_list := [] |>, [])
  | e :: l =>
      if max_cached p <? cached p then
        let p := p <| cached ::= fun n => u32 (n - 1) |>
                   <| cache_evictions ::= atomic64_inc |> in
        let '(p, freed) := evict_loop l p in
        (p, kfastblock_buffer_pool_direct_free e ++ freed)
      else (p <| free_list := e :: l |>, [])
  end.

Definition kfastblock_buffer_pool_set_limit (pool : ptr kfastblock_object_buffer_pool) (max : Z)
    : ptr kfastblock_object_buffer_pool * list Z :=
  match pool with
  | NULL => (NULL, [])
  | Some p =>
      let p := p <| max_cached := or_else max 1 |> in
      let '(p, freed) := evict_loop (free_list p) p in
      (Some p, freed)
  end.

(** [while (!list_empty(&pool->free_list))] *)
Fixpoint cleanup_loop (l : list kfastblock_object_buffer_entry) (p : kfastblock_object_buffer_pool)
    : kfastblock_object_buffer_pool * list Z :=
  match l with
  | [] => (p <| free_list := [] |>, [])
  | e :: l =>
      let '(p, freed) := cleanup_loop l (p <| cached ::= fun n => u32 (n - 1) |>) in
      (p, kfastblock_buffer_pool_direct_free e ++ freed)
  end.

Definition kfastblock_buffer_pool_cleanup (pool : ptr kfastblock_object_buffer_pool)
    : ptr kfastblock_object_buffer_pool * list Z :=
  match pool with
  | NULL => (NULL, [])
  | Some p => let '(p, freed) := cleanup_loop (free_list p) p in (Some p, freed)
  end.

(** The tail of [alloc]: a block for the header and [alloc_size] bytes. *)
Definition alloc_entry (alloc_size : Z) (zero is_pooled : bool)
    : ptr kfastblock_object_buffer_entry :=
  '(a, bytes) ← kfastblock_buffer_pool_direct_alloc (u64 (sizeof_entry + alloc_size)) zero;
  Some {| addr := a; capacity := alloc_size; pooled := is_pooled;
          data := drop (Z.to_nat sizeof_entry) bytes |}.

Definition kfastblock_buffer_pool_alloc (pool : ptr kfastblock_object_buffer_pool)
    (size : Z) (zero : bool)
    : ptr kfastblock_object_buffer_entry * ptr kfastblock_object_buffer_pool :=
  if size =? 0 then (NULL, pool)
  else match pool with
  | NULL => (alloc_entry size zero false, NULL)
  | Some p =>
      if truthy (chunk_bytes p) && (size <=? chunk_bytes p) then
        match free_list p with
        | e :: l =>
            let e := if zero then e <| data ::= fun bytes => memset0 bytes size |> else e in
            (Some e, Some (p <| free_list := l |> <| cached ::= fun n => u32 (n - 1) |>
                             <| cache_hits ::= atomic64_inc |>))
        | [] =>
            (alloc_entry (chunk_bytes p) zero true,
             Some (p <| cache_misses ::= atomic64_inc |>))
        end
      else
        (alloc_entry size zero false, Some (p <| direct_allocs ::= atomic64_inc |>))
  end.

Definition kfastblock_buffer_pool_free (pool : ptr kfastblock_object_buffer_pool)
    (buf : ptr kfastblock_object_buffer_entry) : ptr kfastblock_object_buffer_pool * list Z :=
  match kfastblock_buffer_pool_to_entry buf with
  | NULL => (pool, [])
  | Some e =>
      match pool with
      | NULL => (NULL, kfastblock_buffer_pool_direct_free e)
      | Some p =>
          if negb (pooled e) || negb (capacity e =? chunk_bytes p)
          then (Some p, kfastblock_buffer_pool_direct_free e)
          else if max_cached p <=? cached p
          then (Some (p <| cache_evictions ::= atomic64_inc |>),
                kfastblock_buffer_pool_direct_free e)
          else (Some (p <| free_list ::= cons e |> <| cached ::= fun n => u32 (n + 1) |>
                        <| cache_returns ::= atomic64_inc |>), [])
      end
  end.

(** ** Accessors; the [atomic64_t] counters are read as [u64] *)

Definition kfastblock_buffer_pool_cached (pool : ptr kfastblock_object_buffer_pool) : Z :=
  from_option cached 0 pool.
Definition kfastblock_buffer_pool_limit (pool : ptr kfastblock_object_buffer_pool) : Z :=
  from_option max_cached 0 pool.
Definition kfastblock_buffer_pool_chunk_bytes (pool : ptr kfastblock_object_buffer_pool) : Z :=
  from_option chunk_bytes 0 pool.
Definition kfastblock_buffer_pool_hits (pool : ptr kfastblock_object_buffer_pool) : Z :=
  from_option (fun p => u64 (cache_hits p)) 0 pool.
Definition kfastblock_buffer_pool_misses (pool : ptr kfastblock_object_buffer_pool) : Z :=
  from_option (fun p => u64 (cache_misses p)) 0 pool.
Definition kfastblock_buffer_pool_returns (pool : ptr kfastblock_object_buffer_pool) : Z :=
  from_option (fun p => u64 (cache_returns p)) 0 pool.
Definition kfastblock_buffer_pool_evictions (pool : ptr kfastblock_object_buffer_pool) : Z :=
  from_option (fun p => u64 (cache_evictions p)) 0 pool.
Definition kfastblock_buffer_pool_direct_allocs (pool : ptr kfastblock_object_buffer_pool) : Z :=
  from_option (fun p => u64 (direct_allocs p)) 0 pool.

(** ** Invariant *)

(** A buffer as [alloc] hands it out: it has the bytes its header promises. *)
Definition entry_ok (e : kfastblock_object_buffer_entry) : Prop :=
  capacity e <= Z.of_nat (length (data e)).

Record pool_wf (p : kfastblock_object_buffer_pool) : Prop := {
  wf_cached : cached p = Z.of_nat (length (free_list p));
  wf_limit : cached p <= max_cached p < 2 ^ 32;
  wf_limit_pos : 0 < max_cached p;
  wf_chunks : Forall (fun e => capacity e = chunk_bytes p /\ entry_ok e) (free_list p);
}.

(** The calls on a pool, with the buffers its clients return. *)
Inductive pool_call :=
| Alloc (size : Z) (zero : bool)
| Free (buf : ptr kfastblock_object_buffer_entry)
| SetLimit (max : Z)
| Cleanup.

Definition pool_exec (p : ptr kfastblock_object_buffer_pool) (call : pool_call)
    : ptr kfastblock_object_buffer_pool :=
  match call with
  | Alloc size zero => snd (kfastblock_buffer_pool_alloc p size zero)
  | Free buf => fst (kfastblock_buffer_pool_free p buf)
  | SetLimit max => fst (kfastblock_buffer_pool_set_limit p max)
  | Cleanup => fst (kfastblock_buffer_pool_cleanup p)
  end.

(** What the callers must respect: limits are [u32], and a returned buffer has
    the bytes its header promises. *)
Definition call_ok (call : pool_call) : Prop :=
  match call with
  | Free (Some e) => entry_ok e
  | SetLimit max => is_u32 max
  | _ => True
  end.

(** ** Lemmas *)

Lemma evict_loop_spec l p :
  cached p = Z.of_nat (length l) -> 0 < max_cached p < 2 ^ 32 -> cached p < 2 ^ 32 ->
  Forall (fun e => capacity e = chunk_bytes p /\ entry_ok e) l ->
  exists p' freed,
    evict_loop l p = (p', freed) /\ pool_wf p' /\ max_cached p' = max_cached p /\
    freed ++ (addr <$> free_list p') = addr <$> l.
Proof.
  revert p. induction l as [|e l IH]; intros p Hc Hm Hu Hl; simpl in *.
  - eexists _, _. split; [done|]. split; [|done]. split; simpl; (done || lia).
  - apply Forall_cons in Hl as [He Hl]. destruct (max_cached p <? cached p) eqn:Hlt; unbool.
    + match goal with |- context [evict_loop l ?p1] => destruct (IH p1) as (p'&freed&->&?&?&Hf) end;
        simpl; try done; rewrite ?u32_small; try lia.
      eexists _, _. split; [done|]. split; [done|]. split; [done|]. simpl. by rewrite Hf.
    + eexists _, _. split; [done|]. split; [|done].
      split; simpl; try done; try lia. by constructor.
Qed.

Lemma cleanup_loop_spec l p :
  cached p = Z.of_nat (length l) -> 0 < max_cached p < 2 ^ 32 -> cached p < 2 ^ 32 ->
  exists p', cleanup_loop l p = (p', addr <$> l) /\ pool_wf p' /\ free_list p' = [].
Proof.
  revert p. induction l as [|e l IH]; intros p Hc Hm Hu; simpl in *.
  - eexists. split; [done|]. split; [|done]. split; simpl; (done || lia).
  - match goal with |- context [cleanup_loop l ?p1] => destruct (IH p1) as (p'&->&?&?) end;
      simpl; try done; rewrite ?u32_small; try lia.
    eexists. by split.
Qed.

Lemma alloc_pool_wf p size zero :
  pool_wf p -> exists e p', kfastblock_buffer_pool_alloc (Some p) size zero = (e, Some p') /\ pool_wf p'.
Proof.
  intros Hwf. unfold kfastblock_buffer_pool_alloc. destruct (size =? 0); [by eexists _, _|].
  destruct (_ && _); [|eexists _, _; split; [done|]; by destruct Hwf; split].
  destruct Hwf as [Hc Hm Hp Hl]. destruct (free_list p) as [|e l] eqn:Hfl.
  - eexists _, _; split; [done|]. split; simpl; rewrite ?Hfl; done.
  - eexists _, _; split; [done|]. apply Forall_cons in Hl as [_ Hl]. simpl in Hc.
    split; simpl; rewrite ?u32_small; (done || lia).
Qed.

Lemma free_pool_wf p buf :
  pool_wf p -> call_ok (Free buf) ->
  exists p' freed, kfastblock_buffer_pool_free (Some p) buf = (Some p', freed) /\ pool_wf p'.
Proof.
  intros Hwf Hok. destruct buf as [e|]; [|by eexists _, _].
  unfold kfastblock_buffer_pool_free, kfastblock_buffer_pool_to_entry. simpl in *.
  destruct (negb (pooled e) || negb (capacity e =? chunk_bytes p)) eqn:Hpc; [eexists _, _; split; [reflexivity|done]|].
  apply orb_false_iff in Hpc as [_ Hcap]. apply negb_false_iff, Z.eqb_eq in Hcap.
  destruct Hwf as [Hc Hm Hp Hl].
  destruct (max_cached p <=? cached p) eqn:Hfull; unbool.
  - eexists _, _; split; [done|]. split; (done || simpl; lia).
  - eexists _, _; split; [done|]. split; simpl; rewrite ?u32_small; try (done || lia).
    by constructor.
Qed.

Lemma pool_exec_wf p call :
  pool_wf p -> call_ok call -> exists p', pool_exec (Some p) call = Some p' /\ pool_wf p'.
Proof.
  intros Hwf Hok. destruct call as [size zero|buf|max|]; cbn [pool_exec].
  - destruct (alloc_pool_wf p size zero Hwf) as (?&p'&->&?). by exists p'.
  - destruct (free_pool_wf p buf Hwf Hok) as (p'&?&->&?). by exists p'.
  - simpl in *. destruct Hwf as [Hc Hm Hp Hl].
    match goal with |- context [evict_loop ?l ?p1] =>
      destruct (evict_loop_spec l p1) as (p'&freed&->&?&_) end;
      simpl; try done; [unfold is_u32, or_else in *; zsolve | lia | by exists p'].
  - simpl. destruct Hwf as [Hc Hm Hp Hl].
    destruct (cleanup_loop_spec (free_list p) p) as (p'&->&?&_); [done|lia|lia|by exists p'].
Qed.

(** C38: whatever its clients do, the pool's [cached] counter is the length of
    its free list, the free list never exceeds the limit, and every cached
    buffer has the bytes of a whole chunk. *)
Theorem reachable_pool_wf p0 chunk max calls :
  is_u32 max -> Forall call_ok calls ->
  exists p, foldl pool_exec (kfastblock_buffer_pool_init (Some p0) chunk max) calls = Some p /\
            pool_wf p.
Proof.
  intros Hmax. simpl.
  assert (pool_wf {| free_list := []; cached := 0; max_cached := or_else max 1;
    chunk_bytes := chunk; cache_hits := 0; cache_misses := 0; cache_returns := 0;
    cache_evictions := 0; direct_allocs := 0 |}) as Hwf
    by (unfold is_u32, or_else in *; split; simpl; [done|zsolve|zsolve|done]).
  revert Hwf. match goal with |- pool_wf ?p -> _ => generalize p end.
  intros p Hwf Hok. revert p Hwf.
  induction Hok as [|call calls Hc _ IH]; intros p Hwf; [by exists p|].
  simpl. destruct (pool_exec_wf p call Hwf Hc) as (p'&->&Hwf'). by apply IH.
Qed.

(** a buffer handed out is large enough for the request, and when a zeroed
    buffer was asked for its first [size] bytes are zero, also when the buffer
    is recycled and still holds the data of an earlier response. *)
Theorem alloc_sized_and_zeroed p size zero e p' :
  (forall n a bytes, kvmalloc n = Some (a, bytes) -> length bytes = Z.to_nat n) ->
  pool_wf p -> 0 <= size < 2 ^ 32 -> 0 <= chunk_bytes p < 2 ^ 32 ->
  kfastblock_buffer_pool_alloc (Some p) size zero = (Some e, p') ->
  size <= capacity e /\ entry_ok e /\
  (zero = true -> take (Z.to_nat size) (data e) = replicate (Z.to_nat size) 0).
Proof.
  intros Hkv Hwf Hs Hcb E.
  assert (Halloc : forall n pl, size <= n < 2 ^ 32 -> size <> 0 ->
    alloc_entry n zero pl = Some e ->
    size <= capacity e /\ entry_ok e /\
    (zero = true -> take (Z.to_nat size) (data e) = replicate (Z.to_nat size) 0)).
  { intros n pl Hn Hnz Ha. unfold alloc_entry, kfastblock_buffer_pool_direct_alloc, sizeof_entry in Ha.
    rewrite u64_small in Ha by lia. rewrite (proj2 (Z.eqb_neq (32 + n) 0)) in Ha by lia.
    unfold kvzalloc in Ha.
    destruct (kvmalloc (32 + n)) as [[a bytes]|] eqn:Hm; [|by destruct zero].
    apply Hkv in Hm. unfold entry_ok.
    destruct zero; simplify_eq/=; rewrite length_drop, ?length_replicate;
      (split_and!; [lia|lia|]); [|done]. intros _.
    rewrite drop_replicate, take_replicate. f_equal. lia. }
  unfold kfastblock_buffer_pool_alloc in E. destruct (size =? 0) eqn:Hz; [done|]. unbool.
  destruct (negb (chunk_bytes p =? 0) && (size <=? chunk_bytes p)) eqn:Hc.
  - destruct (free_list p) as [|e0 l] eqn:Hfl; unbool.
    + injection E as E _. eapply Halloc; [|done|exact E]. lia.
    + pose proof (wf_chunks p Hwf) as Hch. rewrite Hfl in Hch.
      apply Forall_cons in Hch as [[Hcap Hok] _]. unfold entry_ok in *.
      injection E as E _. subst e. destruct zero; simpl; unfold memset0;
        rewrite ?length_app, ?length_replicate, ?length_drop; (split_and!; [lia|lia|]); [|done].
      intros _. rewrite take_app_length'; [done|]. by rewrite length_replicate.
  - injection E as E _. eapply Halloc; [|done|exact E]. lia.
Qed.

(** a returned buffer goes to exactly one place: it is on the free list or
    it was handed back to the allocator, and the buffers already cached stay. *)
Theorem free_conserves p e :
  exists p' freed,
    kfastblock_buffer_pool_free (Some p) (Some e) = (Some p', freed) /\
    freed ++ (addr <$> free_list p') = addr e :: (addr <$> free_list p) /\
    (freed = [] <-> pooled e = true /\ capacity e = chunk_bytes p /\ cached p < max_cached p).
Proof.
  unfold kfastblock_buffer_pool_free, kfastblock_buffer_pool_to_entry.
  destruct (pooled e) eqn:Hp; simpl; [|by eexists _, _; naive_solver].
  destruct (capacity e =? chunk_bytes p) eqn:Hc; unbool; [|by eexists _, _; naive_solver].
  destruct (max_cached p <=? cached p) eqn:Hm; unbool;
    eexists _, _; (split; [done|]); (split; [done|]); split; try done; intros; lia.
Qed.

(** lowering the limit evicts from the head of the free list just enough
    buffers: the freed ones followed by the kept ones are the list as it was,
    and no more than [max_cached] stay. *)
Theorem set_limit_evicts p max :
  pool_wf p -> is_u32 max ->
  exists p' freed,
    kfastblock_buffer_pool_set_limit (Some p) max = (Some p', freed) /\ pool_wf p' /\
    max_cached p' = or_else max 1 /\
    freed ++ (addr <$> free_list p') = addr <$> free_list p.
Proof.
  intros [Hc Hm Hp Hl] Hmax. simpl.
  match goal with |- context [evict_loop ?l ?p1] =>
    destruct (evict_loop_spec l p1) as (p'&freed&->&?&?&?) end;
    simpl; try done; [unfold is_u32, or_else in *; zsolve | lia | by exists p', freed].
Qed.

End with_allocator.

(** ** Concrete runs *)

(** An allocator that always succeeds and hands out blocks full of ones. *)
Definition kvmalloc_ones (n : Z) : ptr (Z * list Z) := Some (4096, replicate (Z.to_nat n) 1).

(** A pool with one recycled chunk that still holds old data. *)
Definition used_pool : kfastblock_object_buffer_pool :=
  {| free_list := [{| addr := 64; capacity := 4; pooled := true; data := [7; 7; 7; 7] |}];
     cached := 1; max_cached := 2; chunk_bytes := 4; cache_hits := 0; cache_misses := 1;
     cache_returns := 1; cache_evictions := 0; direct_allocs := 0 |}.

Lemma used_pool_wf : pool_wf used_pool.
Proof. split; simpl; [done | lia | lia |]. repeat constructor. unfold entry_ok. simpl. lia. Qed.

Lemma reachable_pool_wf_witness :
  exists p, foldl (pool_exec kvmalloc_ones) (kfastblock_buffer_pool_init (Some used_pool) 4 1)
    [Alloc 3 true; Free (Some {| addr := 64; capacity := 4; pooled := true; data := [1; 2; 3; 4] |});
     SetLimit 0; Cleanup] = Some p /\ pool_wf p.
Proof.
  apply (reachable_pool_wf kvmalloc_ones used_pool 4 1); [unfold is_u32; lia|].
  repeat (apply Forall_cons; split); try done; unfold call_ok, entry_ok, is_u32; simpl; lia.
Defined.

Lemma alloc_sized_and_zeroed_witness :
  exists e p', kfastblock_buffer_pool_alloc kvmalloc_ones (Some used_pool) 3 true = (Some e, p') /\
    take 3 (data e) = [0; 0; 0].
Proof.
  destruct (kfastblock_buffer_pool_alloc kvmalloc_ones (Some used_pool) 3 true)
    as [[e|] p'] eqn:E; [|discriminate E].
  exists e, p'. split; [reflexivity|].
  destruct (alloc_sized_and_zeroed kvmalloc_ones used_pool 3 true e p') as (_&_&Hz);
    [|exact used_pool_wf | lia | simpl; lia | exact E | by apply Hz].
  intros n a bytes [= <- <-]. by rewrite length_replicate.
Defined.

Lemma set_limit_evicts_witness :
  exists p' freed, kfastblock_buffer_pool_set_limit (Some used_pool) 1 = (Some p', freed) /\
    pool_wf p' /\ max_cached p' = 1 /\ freed ++ (addr <$> free_list p') = [64].
Proof. apply (set_limit_evicts used_pool 1); [exact used_pool_wf | unfold is_u32; lia]. Defined.

End Buffer.
