(* ===== verification/Meta.v ===== *)
(** * Cluster metadata (kfastblock/src/meta.c, include/kfastblock/meta.h)

    The client's view of the cluster: the image, the OSDs and the placement
    group routes, each route with a cached leader.  Both tables are sorted
    arrays searched by bisection.

    An array is a nullable list beside its count, as in the C structs; a pointer
    to an element is its index.  A read outside an array is undefined behaviour
    in C: the bisection returns [None] for it, and the theorems show that it
    does not happen on a well-formed view. *)

From stdpp Require Import gmap.
From S2P Require Import Prelude.

Module Meta.

(** ** Constants of include/kfastblock/common.h *)

Definition KFASTBLOCK_DEFAULT_BLOCK_SIZE : Z := 4096.
Definition KFASTBLOCK_DEFAULT_OBJECT_SIZE : Z := 4 * 1024 * 1024.
Definition KFASTBLOCK_MAX_NAME_LEN : nat := 128.
Definition KFASTBLOCK_MAX_ADDR_LEN : nat := 256.

(** ** Data *)

Inductive kfastblock_meta_sync_state :=
| KFASTBLOCK_META_SYNC_NEW
| KFASTBLOCK_META_SYNC_STALE
| KFASTBLOCK_META_SYNC_READY.

#[export] Instance sync_state_eq_dec : EqDecision kfastblock_meta_sync_state.
Proof. solve_decision. Defined.

Definition KFASTBLOCK_OSD_FLAG_IN : Z := Z.shiftl 1 0.
Definition KFASTBLOCK_OSD_FLAG_UP : Z := Z.shiftl 1 1.

Record kfastblock_monitor_endpoint := {
  host : string;
  mon_port : Z;
}.

(** The volume's attach parameters (include/kfastblock/control.h). *)
Record kfastblock_attach_spec := {
  monitor_addr : ptr string;
  spec_pool_name : ptr string;
  spec_image_name : ptr string;
  spec_read_only : bool;
  debug_size_bytes : Z;
  debug_object_size : Z;
  debug_pool_id : Z;
  debug_pg_count : Z;
  nr_monitors : Z;
  monitors : list kfastblock_monitor_endpoint;
}.

Record kfastblock_image_info := {
  pool_name : string;
  image_name : string;
  size_bytes : Z;
  block_size : Z;
  object_size : Z;
  pool_id : Z;
  pg_count : Z;
  read_only : bool;
}.

#[export] Instance eta_image : Eta kfastblock_image_info := fun i =>
  {| pool_name := pool_name i; image_name := image_name i; size_bytes := size_bytes i;
     block_size := block_size i; object_size := object_size i; pool_id := pool_id i;
     pg_count := pg_count i; read_only := read_only i |}.

Record kfastblock_osd_shard := {
  shard_id : Z;
  shard_port : Z;
  core_id : Z;
}.

Record kfastblock_osd_endpoint := {
  osd_id : Z;
  osd_flags : Z;
  shard_count : Z;
  osd_address : string;
  shards : ptr (list kfastblock_osd_shard);
}.

Record kfastblock_leader_info := {
  leader_osd_id : Z;
  leader_port : Z;
  leader_address : string;
}.

#[export] Instance leader_eq_dec : EqDecision kfastblock_leader_info.
Proof. solve_decision. Defined.

(** [memset(&leader, 0, sizeof(leader))] *)
Definition zero_leader : kfastblock_leader_info :=
  {| leader_osd_id := 0; leader_port := 0; leader_address := EmptyString |}.

Record kfastblock_pg_route := {
  route_pool_id : Z;
  route_pg_id : Z;
  version : Z;
  route_state : Z;
  primary_shard : Z;
  replica_count : Z;
  osd_ids : list Z;
  leader_valid : bool;
  leader : kfastblock_leader_info;
}.

#[export] Instance eta_route : Eta kfastblock_pg_route := fun r =>
  {| route_pool_id := route_pool_id r; route_pg_id := route_pg_id r; version := version r;
     route_state := route_state r; primary_shard := primary_shard r;
     replica_count := replica_count r; osd_ids := osd_ids r;
     leader_valid := leader_valid r; leader := leader r |}.

Record kfastblock_cluster_view := {
  image : kfastblock_image_info;
  image_epoch : Z;
  osdmap_epoch : Z;
  pgmap_epoch : Z;
  leader_epoch : Z;
  osd_count : Z;
  route_count : Z;
  last_refresh_jiffies : Z;
  last_image_refresh_jiffies : Z;
  sync_state : kfastblock_meta_sync_state;
  osds : ptr (list kfastblock_osd_endpoint);
  routes : ptr (list kfastblock_pg_route);
}.

#[export] Instance eta_view : Eta kfastblock_cluster_view := fun v =>
  {| image := image v; image_epoch := image_epoch v; osdmap_epoch := osdmap_epoch v;
     pgmap_epoch := pgmap_epoch v; leader_epoch := leader_epoch v; osd_count := osd_count v;
     route_count := route_count v; last_refresh_jiffies := last_refresh_jiffies v;
     last_image_refresh_jiffies := last_image_refresh_jiffies v; sync_state := sync_state v;
     osds := osds v; routes := routes v |}.

Definition zero_image : kfastblock_image_info :=
  {| pool_name := EmptyString; image_name := EmptyString; size_bytes := 0; block_size := 0;
     object_size := 0; pool_id := 0; pg_count := 0; read_only := false |}.

(** [memset(view, 0, sizeof( *view))] *)
Definition zero_view : kfastblock_cluster_view :=
  {| image := zero_image; image_epoch := 0; osdmap_epoch := 0; pgmap_epoch := 0;
     leader_epoch := 0; osd_count := 0; route_count := 0; last_refresh_jiffies := 0;
     last_image_refresh_jiffies := 0; sync_state := KFASTBLOCK_META_SYNC_NEW;
     osds := NULL; routes := NULL |}.

(** What a route or OSD pointer points to. *)
Definition osd_at (v : kfastblock_cluster_view) (i : nat) : ptr kfastblock_osd_endpoint :=
  os ← osds v; os !! i.

Definition route_at (v : kfastblock_cluster_view) (i : nat) : ptr kfastblock_pg_route :=
  rs ← routes v; rs !! i.

Definition update_route (i : nat) (f : kfastblock_pg_route -> kfastblock_pg_route)
    (v : kfastblock_cluster_view) : kfastblock_cluster_view :=
  v <| routes ::= fmap (alter f i) |>.

(** ** Searching *)

Fixpoint has_osd_loop (ids : list Z) (id : Z) : bool :=
  match ids with
  | [] => false
  | x :: ids => if x =? id then true else has_osd_loop ids id
  end.

Definition kfastblock_pg_route_has_osd (route : ptr kfastblock_pg_route) (id : Z) : bool :=
  match route with
  | NULL => false
  | Some r => has_osd_loop (take (Z.to_nat (replica_count r)) (osd_ids r)) id
  end.

(** The bisection loop of [find_osd] and [find_pg_route]: [before i] compares
    element [i] with the key, and is [None] when [i] is outside the array.  The
    interval is below 2^32 and halves, so 33 rounds are always enough. *)
Fixpoint bisect (fuel : nat) (before : Z -> option bool) (low high : Z) : option Z :=
  match fuel with
  | O => None
  | S fuel =>
      if low <? high then
        let mid := low + Z.shiftr (high - low) 1 in
        match before mid with
        | None => None
        | Some true => bisect fuel before (mid + 1) high
        | Some false => bisect fuel before low mid
        end
      else Some low
  end.

Definition bisect_fuel : nat := 33.

Definition kfastblock_meta_find_osd (view : ptr kfastblock_cluster_view) (id : Z) : ptr nat :=
  match view with
  | NULL => NULL
  | Some v =>
      match osds v with
      | NULL => NULL
      | Some os =>
          if osd_count v =? 0 then NULL
          else
            low ← bisect bisect_fuel (fun mid => (fun o => osd_id o <? id) <$> os.[mid])
                    0 (osd_count v);
            if low <? osd_count v then
              o ← os.[low];
              if osd_id o =? id then Some (Z.to_nat low) else NULL
            else NULL
      end
  end.

(** The linear search for a shard; the pointer is the shard's index. *)
Fixpoint find_shard_loop (l : list kfastblock_osd_shard) (id : Z) (i : nat) : ptr nat :=
  match l with
  | [] => NULL
  | s :: l => if shard_id s =? id then Some i else find_shard_loop l id (S i)
  end.

Definition kfastblock_meta_find_osd_shard (osd : ptr kfastblock_osd_endpoint) (id : Z) : ptr nat :=
  match osd with
  | NULL => NULL
  | Some o =>
      match shards o with
      | NULL => NULL
      | Some ss =>
          if shard_count o =? 0 then NULL
          else find_shard_loop (take (Z.to_nat (shard_count o)) ss) id 0
      end
  end.

Definition kfastblock_meta_find_pg_route (view : ptr kfastblock_cluster_view) (pool pg : Z)
    : ptr nat :=
  match view with
  | NULL => NULL
  | Some v =>
      match routes v with
      | NULL => NULL
      | Some rs =>
          if route_count v =? 0 then NULL
          else
            low ← bisect bisect_fuel
                    (fun mid => (fun r => (route_pool_id r <? pool)
                       || ((route_pool_id r =? pool) && (route_pg_id r <? pg))) <$> rs.[mid])
                    0 (route_count v);
            if low <? route_count v then
              r ← rs.[low];
              if (route_pool_id r =? pool) && (route_pg_id r =? pg)
              then Some (Z.to_nat low) else NULL
            else NULL
      end
  end.

(** The three out parameters are returned: [Some NULL] is "cleared", [NULL] is
    "the caller passed no pointer". *)
Definition kfastblock_meta_resolve_pg_target (view : ptr kfastblock_cluster_view)
    (pool pg id : Z) (route osd shard : ptr (ptr nat))
    : Z * (ptr (ptr nat) * ptr (ptr nat) * ptr (ptr nat)) :=
  let clear := fmap (fun _ => NULL) in
  let fail err := (err, (clear route, clear osd, clear shard)) in
  match view with
  | NULL => fail (- EINVAL)
  | Some v =>
      match kfastblock_meta_find_pg_route (Some v) pool pg with
      | NULL => fail (- ENOENT)
      | Some r =>
          if negb (kfastblock_pg_route_has_osd (route_at v r) id) then fail (- ENOENT)
          else match kfastblock_meta_find_osd (Some v) id with
          | NULL => fail (- ENOENT)
          | Some o =>
              match kfastblock_meta_find_osd_shard (osd_at v o)
                      (from_option primary_shard 0 (route_at v r)) with
              | NULL => fail (- ENOENT)
              | Some s => (0, ((fun _ => Some r) <$> route, (fun _ => Some o) <$> osd,
                               (fun _ => Some s) <$> shard))
              end
          end
      end
  end.

(** ** The leader cache *)

Definition kfastblock_meta_get_pg_leader (view : ptr kfastblock_cluster_view) (pool pg : Z)
    (out : ptr kfastblock_leader_info) : Z * ptr kfastblock_leader_info :=
  match view, out with
  | Some v, Some _ =>
      let route := i ← kfastblock_meta_find_pg_route (Some v) pool pg; route_at v i in
      match route with
      | NULL => (- ENOENT, Some zero_leader)
      | Some r => if negb (leader_valid r) then (- ENOENT, Some zero_leader)
                  else (0, Some (leader r))
      end
  | _, _ => (- EINVAL, out)
  end.

Definition kfastblock_meta_set_pg_leader (view : ptr kfastblock_cluster_view) (pool pg : Z)
    (new : ptr kfastblock_leader_info) : Z * ptr kfastblock_cluster_view :=
  match view, new with
  | Some v, Some l =>
      match kfastblock_meta_find_pg_route (Some v) pool pg with
      | NULL => (- ENOENT, Some v)
      | Some i => (0, Some (update_route i (fun r => r <| leader := l |>
                                                       <| leader_valid := true |>) v))
      end
  | _, _ => (- EINVAL, view)
  end.

(** [route->leader_valid = false; memset(&route->leader, ...)] *)
Definition clear_leader (r : kfastblock_pg_route) : kfastblock_pg_route :=
  r <| leader_valid := false |> <| leader := zero_leader |>.

Definition kfastblock_meta_invalidate_pg_leader (view : ptr kfastblock_cluster_view) (pool pg : Z)
    : ptr kfastblock_cluster_view :=
  match view with
  | NULL => NULL
  | Some v =>
      match kfastblock_meta_find_pg_route (Some v) pool pg with
      | NULL => Some v
      | Some i => Some (update_route i clear_leader v)
      end
  end.

(** The loop over the first [n] routes: the routes and whether one was valid. *)
Fixpoint invalidate_loop (n : nat) (rs : list kfastblock_pg_route)
    : list kfastblock_pg_route * bool :=
  match n, rs with
  | S n, r :: rs =>
      let '(rs, invalidated) := invalidate_loop n rs in
      if leader_valid r then (clear_leader r :: rs, true) else (r :: rs, invalidated)
  | _, _ => (rs, false)
  end.

Definition kfastblock_meta_invalidate_all_pg_leaders (view : ptr kfastblock_cluster_view)
    : ptr kfastblock_cluster_view :=
  match view with
  | NULL => NULL
  | Some v =>
      match routes v with
      | NULL => Some v
      | Some rs =>
          let '(rs, invalidated) := invalidate_loop (Z.to_nat (route_count v)) rs in
          let v := v <| routes := Some rs |> in
          if invalidated || (leader_epoch v =? 0)
          then Some (v <| leader_epoch ::= fun n => u64 (n + 1) |>)
          else Some v
      end
  end.

(** ** Replacing the map *)

(** The merge of the two sorted arrays.  Every round advances one of the two
    indices, so their sum bounds the rounds. *)
Fixpoint copy_loop (fuel : nat) (dst : list kfastblock_pg_route) (dst_count : Z)
    (src : list kfastblock_pg_route) (src_count dst_idx src_idx : Z)
    : list kfastblock_pg_route :=
  match fuel with
  | O => dst
  | S fuel =>
      if (dst_idx <? dst_count) && (src_idx <? src_count) then
        match src.[src_idx], dst.[dst_idx] with
        | Some s, Some d =>
            if (route_pool_id s =? route_pool_id d) && (route_pg_id s =? route_pg_id d) then
              let d := d <| leader_valid := leader_valid s |> in
              let d := if leader_valid s then d <| leader := leader s |> else d in
              copy_loop fuel (<[Z.to_nat dst_idx := d]> dst) dst_count src src_count
                (dst_idx + 1) (src_idx + 1)
            else if (route_pool_id s <? route_pool_id d)
                    || ((route_pool_id s =? route_pool_id d)
                        && (route_pg_id s <? route_pg_id d))
            then copy_loop fuel dst dst_count src src_count dst_idx (src_idx + 1)
            else copy_loop fuel dst dst_count src src_count (dst_idx + 1) src_idx
        | _, _ => dst
        end
      else dst
  end.

Definition kfastblock_meta_copy_leader_cache (dst : ptr (list kfastblock_pg_route)) (dst_count : Z)
    (src : ptr (list kfastblock_pg_route)) (src_count : Z) : ptr (list kfastblock_pg_route) :=
  (fun d => copy_loop (Z.to_nat (dst_count + src_count)) d dst_count
              (default [] src) src_count 0 0) <$> dst.

(** Releasing the old arrays has no effect on the new view. *)
Definition kfastblock_meta_cleanup_view (view : ptr kfastblock_cluster_view)
    : ptr kfastblock_cluster_view :=
  (fun _ => zero_view) <$> view.

Definition kfastblock_meta_replace_cluster_map (view : ptr kfastblock_cluster_view)
    (new_osdmap_epoch new_pgmap_epoch pool_pg_count new_osd_count : Z)
    (new_osds : ptr (list kfastblock_osd_endpoint)) (new_route_count : Z)
    (new_routes : ptr (list kfastblock_pg_route)) : Z * ptr kfastblock_cluster_view :=
  match view with
  | NULL => (- EINVAL, NULL)
  | Some v =>
      let old_route_count := route_count v in
      let old_routes := routes v in
      let maps_changed := negb (osdmap_epoch v =? new_osdmap_epoch)
                          || negb (pgmap_epoch v =? new_pgmap_epoch) in
      let v := v <| osdmap_epoch := new_osdmap_epoch |>
                 <| pgmap_epoch := new_pgmap_epoch |>
                 <| osd_count := new_osd_count |>
                 <| osds := new_osds |>
                 <| route_count := new_route_count |>
                 <| routes := new_routes |>
                 <| image ::= fun i => i <| pg_count := pool_pg_count |> |> in
      let v := if negb maps_changed
               then v <| routes ::= fun rs => kfastblock_meta_copy_leader_cache
                            rs (route_count v) old_routes old_route_count |>
               else v in
      let v := if maps_changed || (leader_epoch v =? 0)
               then v <| leader_epoch ::= fun n => u64 (n + 1) |> else v in
      (0, Some v)
  end.

(** ** Readiness *)

Definition kfastblock_meta_ready (view : ptr kfastblock_cluster_view) : bool :=
  match view with
  | NULL => false
  | Some v => truthy (size_bytes (image v)) && truthy (object_size (image v))
              && truthy (block_size (image v)) && truthy (pg_count (image v))
  end.

Definition kfastblock_meta_io_ready (view : ptr kfastblock_cluster_view) : bool :=
  kfastblock_meta_ready view &&
  match view with
  | NULL => false
  | Some v => bool_decide (sync_state v = KFASTBLOCK_META_SYNC_READY)
  end.

(** ** Bootstrap and refresh *)

Definition kfastblock_meta_init : Z := 0.

Definition kfastblock_meta_prepare_bootstrap_view (now : Z) (view : ptr kfastblock_cluster_view)
    (spec : ptr kfastblock_attach_spec) : Z * ptr kfastblock_cluster_view :=
  match view, spec with
  | Some _, Some sp =>
      let img :=
        {| pool_name := strscpy (default EmptyString (spec_pool_name sp)) KFASTBLOCK_MAX_NAME_LEN;
           image_name := strscpy (default EmptyString (spec_image_name sp)) KFASTBLOCK_MAX_NAME_LEN;
           size_bytes := debug_size_bytes sp;
           block_size := KFASTBLOCK_DEFAULT_BLOCK_SIZE;
           object_size := or_else (debug_object_size sp) KFASTBLOCK_DEFAULT_OBJECT_SIZE;
           pool_id := debug_pool_id sp;
           pg_count := or_else (debug_pg_count sp) 1;
           read_only := spec_read_only sp |} in
      (0, (fun v => v <| image := img |>
                      <| last_refresh_jiffies := now |>
                      <| last_image_refresh_jiffies := now |>
                      <| sync_state := KFASTBLOCK_META_SYNC_NEW |>)
            <$> kfastblock_meta_cleanup_view view)
  | _, _ => (- EINVAL, view)
  end.

(** The transport entry points these functions call talk to the monitors: what
    they return and how they change the view is an argument, [fetch]. *)
Definition fetch_fn : Type :=
  kfastblock_cluster_view -> kfastblock_attach_spec -> Z * kfastblock_cluster_view.

(** [now0] is read while preparing the view, [now] after the fetch. *)
Definition kfastblock_meta_bootstrap (fetch_cluster_view : fetch_fn) (now0 now : Z)
    (view : ptr kfastblock_cluster_view) (spec : ptr kfastblock_attach_spec)
    : Z * ptr kfastblock_cluster_view :=
  match view, spec with
  | Some _, Some sp =>
      match kfastblock_meta_prepare_bootstrap_view now0 view spec with
      | (ret, NULL) => (ret, NULL)
      | (ret, Some v) =>
          if truthy ret then (ret, Some v)
          else
            let '(ret, v) := fetch_cluster_view v sp in
            if ret =? 0 then
              (0, Some (v <| sync_state := KFASTBLOCK_META_SYNC_READY |>
                          <| last_refresh_jiffies := now |>
                          <| last_image_refresh_jiffies := now |>))
            else if (ret =? - EOPNOTSUPP) && truthy (size_bytes (image v)) then
              (0, Some (v <| sync_state := KFASTBLOCK_META_SYNC_STALE |>))
            else (ret, Some v)
      end
  | _, _ => (- EINVAL, view)
  end.

Definition kfastblock_meta_refresh (fetch_cluster_view : fetch_fn) (now : Z)
    (view : ptr kfastblock_cluster_view) (spec : ptr kfastblock_attach_spec)
    : Z * ptr kfastblock_cluster_view :=
  match view, spec with
  | Some v, Some sp =>
      let '(ret, v) := fetch_cluster_view v sp in
      (ret, Some (if ret =? 0
                  then v <| sync_state := KFASTBLOCK_META_SYNC_READY |>
                         <| last_refresh_jiffies := now |>
                         <| last_image_refresh_jiffies := now |>
                  else v))
  | _, _ => (- EINVAL, view)
  end.

Definition kfastblock_meta_refresh_cluster_map (fetch_cluster_map : fetch_fn) (now : Z)
    (view : ptr kfastblock_cluster_view) (spec : ptr kfastblock_attach_spec)
    : Z * ptr kfastblock_cluster_view :=
  match view, spec with
  | Some v, Some sp =>
      let '(ret, v) := fetch_cluster_map v sp in
      (ret, Some (if ret =? 0
                  then v <| sync_state := KFASTBLOCK_META_SYNC_READY |>
                         <| last_refresh_jiffies := now |>
                  else v))
  | _, _ => (- EINVAL, view)
  end.

Definition kfastblock_meta_refresh_image (fetch_image : fetch_fn) (now : Z)
    (view : ptr kfastblock_cluster_view) (spec : ptr kfastblock_attach_spec)
    : Z * ptr kfastblock_cluster_view :=
  match view, spec with
  | Some v, Some sp =>
      let '(ret, v) := fetch_image v sp in
      (ret, Some (if ret =? 0 then v <| last_image_refresh_jiffies := now |> else v))
  | _, _ => (- EINVAL, view)
  end.

(** ** Well-formed views *)

(** The order of the route array: by pool, then by placement group. *)
Definition route_key (r : kfastblock_pg_route) : Z * Z := (route_pool_id r, route_pg_id r).

Definition key_lt (a b : Z * Z) : Prop := fst a < fst b \/ (fst a = fst b /\ snd a < snd b).

(** [a] is strictly sorted by [f] under [R]. *)
Definition sorted_by {A K} (R : K -> K -> Prop) (f : A -> K) (l : list A) : Prop :=
  forall i j x y, l !! i = Some x -> l !! j = Some y -> (i < j)%nat -> R (f x) (f y).

Record view_wf (v : kfastblock_cluster_view) : Prop := {
  wf_osd_count : osd_count v = Z.of_nat (length (default [] (osds v)));
  wf_route_count : route_count v = Z.of_nat (length (default [] (routes v)));
  wf_osd_count_u32 : osd_count v < 2 ^ 32;
  wf_route_count_u32 : route_count v < 2 ^ 32;
  wf_osds_sorted : sorted_by Z.lt osd_id (default [] (osds v));
  wf_routes_sorted : sorted_by key_lt route_key (default [] (routes v));
}.

(** ** The bisection *)

Lemma shiftr_half n : Z.shiftr n 1 = n / 2.
Proof. by rewrite Z.shiftr_div_pow2 by lia. Qed.

Section bisect.
Context (before : Z -> option bool) (n : Z).
Hypothesis in_range : forall i, 0 <= i < n -> exists b, before i = Some b.
Hypothesis downward : forall i j,
  0 <= i <= j -> j < n -> before j = Some true -> before i = Some true.

Lemma bisect_spec fuel low high :
  0 <= low <= high -> high <= n -> high - low < 2 ^ Z.of_nat fuel ->
  (forall i, 0 <= i < low -> before i = Some true) ->
  (forall i, high <= i < n -> before i = Some false) ->
  exists k, bisect (S fuel) before low high = Some k /\ 0 <= k <= n /\
    (forall i, 0 <= i < k -> before i = Some true) /\
    (forall i, k <= i < n -> before i = Some false).
Proof.
  revert low high. induction fuel as [|fuel IH]; intros low high Hl Hh Hf Hlo Hhi.
  { change (Z.of_nat 0) with 0 in Hf. assert (low = high) as -> by lia.
    exists high. simpl. rewrite Z.ltb_irrefl. split; [done|]. split; [lia|]. done. }
  remember (S fuel) as m eqn:Hm. cbn [bisect].
  destruct (low <? high) eqn:Hlt; unbool.
  2: { assert (low = high) as -> by lia. exists high. split; [done|]. split; [lia|]. done. }
  rewrite shiftr_half. set (mid := low + (high - low) / 2).
  assert (Hmid : low <= mid < high)
    by (subst mid; pose proof (Z.div_pos (high - low) 2); 
        pose proof (Z.div_lt (high - low) 2); lia).
  assert (Hpow : 2 ^ Z.of_nat m = 2 * 2 ^ Z.of_nat fuel)
    by (rewrite Hm, Nat2Z.inj_succ, Z.pow_succ_r by lia; done).
  assert (Hhalf : 2 * ((high - low) / 2) <= high - low < 2 * ((high - low) / 2) + 2)
    by (pose proof (Z.div_mod (high - low) 2); pose proof (Z.mod_pos_bound (high - low) 2); lia).
  destruct (in_range mid) as [[] Hb]; [lia| |]; rewrite Hb; subst m.
  - apply IH; [lia|lia|lia| |done]. intros i Hi. eapply (downward i mid); (done || lia).
  - apply IH; [lia|lia|lia|done|]. intros i Hi. destruct (in_range i) as [[] Hbi]; [lia| |done].
    exfalso. assert (before mid = Some true) by (eapply (downward mid i); (done || lia)).
    congruence.
Qed.

Lemma bisect_total :
  0 <= n < 2 ^ 32 ->
  exists k, bisect bisect_fuel before 0 n = Some k /\ 0 <= k <= n /\
    (forall i, 0 <= i < k -> before i = Some true) /\
    (forall i, k <= i < n -> before i = Some false).
Proof. intros Hn. apply (bisect_spec 32 0 n); simpl; intros; lia. Qed.

End bisect.

Arguments bisect : simpl never.

(** Searching a sorted array for a key: the bisection stays inside the array,
    and the only index that can hold the key is its result. *)
Section sorted_search.
Context {A K : Type} (f : A -> K) (R : K -> K -> Prop) (ltb : K -> K -> bool).
Hypothesis ltb_spec : forall a b, ltb a b = true <-> R a b.
Hypothesis R_trans : forall a b c, R a b -> R b c -> R a c.
Hypothesis R_irrefl : forall a, ~ R a a.

Lemma bisect_sorted (l : list A) (key : K) :
  sorted_by R f l -> Z.of_nat (length l) < 2 ^ 32 ->
  exists k,
    bisect bisect_fuel (fun mid => (fun x => ltb (f x) key) <$> l.[mid]) 0 (Z.of_nat (length l))
      = Some k /\ 0 <= k <= Z.of_nat (length l) /\
    (forall i x, l !! i = Some x -> f x = key -> k = Z.of_nat i).
Proof.
  intros Hs Hlen.
  set (before := fun mid : Z => (fun x => ltb (f x) key) <$> l.[mid]).
  assert (Hget : forall i x, l !! i = Some x -> before (Z.of_nat i) = Some (ltb (f x) key)).
  { intros i x Hx. unfold before. rewrite Nat2Z.id, Hx. done. }
  destruct (bisect_total before (Z.of_nat (length l))) as (k&Hk&Hkn&Hlo&Hhi); [| |lia|].
  - intros i Hi. destruct (lookup_lt_is_Some_2 l (Z.to_nat i)) as [x Hx]; [lia|].
    exists (ltb (f x) key). rewrite <- (Hget (Z.to_nat i) x Hx). f_equal. lia.
  - intros i j Hij Hj Hb.
    destruct (lookup_lt_is_Some_2 l (Z.to_nat i)) as [x Hx]; [lia|].
    destruct (lookup_lt_is_Some_2 l (Z.to_nat j)) as [y Hy]; [lia|].
    replace i with (Z.of_nat (Z.to_nat i)) by lia. replace j with (Z.of_nat (Z.to_nat j)) in Hb by lia.
    rewrite (Hget _ x Hx). rewrite (Hget _ y Hy) in Hb. injection Hb as Hb. f_equal.
    destruct (decide (i = j)) as [->|Hne]; [congruence|].
    apply ltb_spec. apply ltb_spec in Hb. eapply R_trans; [|exact Hb].
    eapply (Hs (Z.to_nat i) (Z.to_nat j)); [done|done|lia].
  - exists k. split; [done|]. split; [done|]. intros i x Hx Hkey.
    assert (Hi : (i < length l)%nat) by (apply lookup_lt_Some in Hx; done).
    assert (Hnb : before (Z.of_nat i) <> Some true).
    { rewrite (Hget i x Hx), Hkey. intros [= Hb%ltb_spec]. by apply (R_irrefl key). }
    destruct (decide (Z.of_nat i < k)) as [Hlt|Hge]; [exfalso; apply Hnb, Hlo; lia|].
    destruct (decide (k = Z.of_nat i)) as [|Hne]; [done|]. exfalso.
    destruct (lookup_lt_is_Some_2 l (Z.to_nat k)) as [y Hy]; [lia|].
    assert (Hby : before k = Some false) by (apply Hhi; lia).
    replace k with (Z.of_nat (Z.to_nat k)) in Hby by lia.
    rewrite (Hget _ y Hy) in Hby. injection Hby as Hby.
    assert (HR : R (f y) key).
    { rewrite <- Hkey. eapply (Hs (Z.to_nat k) i); [done|done|lia]. }
    apply ltb_spec in HR. congruence.
Qed.

End sorted_search.

Lemma key_lt_trans a b c : key_lt a b -> key_lt b c -> key_lt a c.
Proof. unfold key_lt. lia. Qed.

Lemma key_lt_irrefl a : ~ key_lt a a.
Proof. unfold key_lt. lia. Qed.

Definition key_ltb (a b : Z * Z) : bool :=
  (fst a <? fst b) || ((fst a =? fst b) && (snd a <? snd b)).

Lemma key_ltb_spec a b : key_ltb a b = true <-> key_lt a b.
Proof.
  unfold key_ltb, key_lt. rewrite orb_true_iff, andb_true_iff, !Z.ltb_lt, Z.eqb_eq. done.
Qed.

Lemma find_osd_spec v id i :
  view_wf v ->
  kfastblock_meta_find_osd (Some v) id = Some i <->
  exists o, osd_at v i = Some o /\ osd_id o = id.
Proof.
  intros Hwf. pose proof (wf_osd_count v Hwf) as Hc. pose proof (wf_osds_sorted v Hwf) as Hs.
  pose proof (wf_osd_count_u32 v Hwf) as Hu. unfold osd_at, kfastblock_meta_find_osd.
  destruct (osds v) as [os|]; simpl in *; [|naive_solver].
  destruct (bisect_sorted osd_id Z.lt Z.ltb Z.ltb_lt Z.lt_trans Z.lt_irrefl os id Hs)
    as (k&Hk&Hkn&Huniq); [lia|]. rewrite <- Hc in Hk. rewrite Hk. simpl.
  destruct (osd_count v =? 0) eqn:Hz; unbool.
  { split; [done|]. intros (o&Ho&_). apply lookup_lt_Some in Ho. lia. }
  split.
  - destruct (k <? osd_count v) eqn:Hlt; [|done].
    destruct (os.[k]) as [o|] eqn:Ho; [|done]. simpl.
    destruct (osd_id o =? id) eqn:Hid; [|done]. unbool. intros [= <-]. by exists o.
  - intros (o&Ho&Hid). pose proof (Huniq i o Ho Hid) as ->.
    pose proof (lookup_lt_Some _ _ _ Ho).
    rewrite (proj2 (Z.ltb_lt _ _)) by lia. rewrite Nat2Z.id, Ho. simpl.
    by rewrite (proj2 (Z.eqb_eq _ _) Hid).
Qed.

Lemma find_pg_route_spec v pool pg i :
  view_wf v ->
  kfastblock_meta_find_pg_route (Some v) pool pg = Some i <->
  exists r, route_at v i = Some r /\ route_key r = (pool, pg).
Proof.
  intros Hwf. pose proof (wf_route_count v Hwf) as Hc. pose proof (wf_routes_sorted v Hwf) as Hs.
  pose proof (wf_route_count_u32 v Hwf) as Hu. unfold route_at, kfastblock_meta_find_pg_route.
  destruct (routes v) as [rs|]; simpl in *; [|naive_solver].
  destruct (bisect_sorted route_key key_lt key_ltb key_ltb_spec key_lt_trans key_lt_irrefl
    rs (pool, pg) Hs) as (k&Hk&Hkn&Huniq); [lia|].
  rewrite <- Hc in Hk. unfold key_ltb in Hk. simpl in Hk. rewrite Hk. simpl.
  destruct (route_count v =? 0) eqn:Hz; unbool.
  { split; [done|]. intros (o&Ho&_). apply lookup_lt_Some in Ho. lia. }
  split.
  - destruct (k <? route_count v) eqn:Hlt; [|done].
    destruct (rs.[k]) as [r|] eqn:Ho; [|done]. simpl.
    destruct ((route_pool_id r =? pool) && (route_pg_id r =? pg)) eqn:Hid; [|done].
    unbool. intros [= <-]. exists r. unfold route_key. destruct Hid; by subst.
  - intros (r&Ho&Hid). pose proof (Huniq i r Ho Hid) as ->.
    pose proof (lookup_lt_Some _ _ _ Ho).
    rewrite (proj2 (Z.ltb_lt _ _)) by lia. rewrite Nat2Z.id, Ho. simpl.
    unfold route_key in Hid. simplify_eq. by rewrite !Z.eqb_refl.
Qed.

Arguments kfastblock_meta_find_osd : simpl never.
Arguments kfastblock_meta_find_pg_route : simpl never.

(** ** The leader cache as a finite map *)

Definition valid_leader (r : kfastblock_pg_route) : option kfastblock_leader_info :=
  if leader_valid r then Some (leader r) else None.

(** What the cache promises: a partial function from placement groups to
    leaders. *)
Definition leader_map (v : kfastblock_cluster_view) : gmap (Z * Z) kfastblock_leader_info :=
  list_to_map (omap (fun r => pair (route_key r) <$> valid_leader r) (default [] (routes v))).

Lemma sorted_key_inj rs i j r1 r2 :
  sorted_by key_lt route_key rs -> rs !! i = Some r1 -> rs !! j = Some r2 ->
  route_key r1 = route_key r2 -> i = j.
Proof.
  intros Hs H1 H2 Hk. destruct (Nat.lt_trichotomy i j) as [Hlt|[->|Hlt]]; [|done|].
  - pose proof (Hs i j r1 r2 H1 H2 Hlt) as HR. rewrite Hk in HR. by apply key_lt_irrefl in HR.
  - pose proof (Hs j i r2 r1 H2 H1 Hlt) as HR. rewrite Hk in HR. by apply key_lt_irrefl in HR.
Qed.

Lemma sorted_by_tail {A K} (R : K -> K -> Prop) (f : A -> K) x l :
  sorted_by R f (x :: l) -> sorted_by R f l.
Proof. intros Hs i j y z Hy Hz Hij. by apply (Hs (S i) (S j) y z Hy Hz); lia. Qed.

Lemma list_leader_map_lookup rs r i :
  sorted_by key_lt route_key rs -> rs !! i = Some r ->
  (list_to_map (omap (fun r => pair (route_key r) <$> valid_leader r) rs)
    : gmap (Z * Z) kfastblock_leader_info) !! route_key r = valid_leader r.
Proof.
  revert i. induction rs as [|r0 rs IH]; intros i Hs Hi; [done|].
  pose proof (sorted_by_tail _ _ _ _ Hs) as Hs'. destruct i as [|i]; simplify_eq/=.
  - destruct (valid_leader r) eqn:Hv; simpl; [by rewrite lookup_insert_eq|].
    apply not_elem_of_list_to_map. intros Hin.
    apply list_elem_of_fmap in Hin as ([k l]&Hkey&Hin). simpl in Hkey. subst k.
    apply list_elem_of_omap in Hin as (r'&[j Hj]%list_elem_of_lookup&Hr').
    apply fmap_Some in Hr' as (?&_&Hkey%(f_equal fst)). simpl in Hkey.
    by pose proof (sorted_key_inj _ 0 (S j) r r' Hs eq_refl Hj Hkey).
  - destruct (valid_leader r0); simpl; [|by eapply IH].
    rewrite lookup_insert_ne; [by eapply IH|]. intros Hkey.
    by pose proof (sorted_key_inj _ 0 (S i) r0 r Hs eq_refl Hi Hkey).
Qed.

Lemma leader_map_lookup v pool pg :
  view_wf v ->
  leader_map v !! (pool, pg)
  = (i ← kfastblock_meta_find_pg_route (Some v) pool pg; r ← route_at v i; valid_leader r).
Proof.
  intros Hwf. destruct (kfastblock_meta_find_pg_route (Some v) pool pg) as [i|] eqn:Hf; simpl.
  - apply (find_pg_route_spec v pool pg i Hwf) in Hf as (r&Hr&Hk). rewrite Hr. simpl.
    rewrite <- Hk. unfold leader_map, route_at in *.
    pose proof (wf_routes_sorted v Hwf). destruct (routes v); [|done].
    by eapply list_leader_map_lookup.
  - apply not_elem_of_list_to_map. intros Hin.
    apply list_elem_of_fmap in Hin as ([k l]&Hkey&Hin). simpl in Hkey. subst k.
    apply list_elem_of_omap in Hin as (r&[j Hj]%list_elem_of_lookup&Hr).
    apply fmap_Some in Hr as (?&_&Hkey%(f_equal fst)). simpl in Hkey.
    assert (kfastblock_meta_find_pg_route (Some v) pool pg = Some j) as Hf'; [|congruence].
    apply (find_pg_route_spec v pool pg j Hwf). exists r. split; [|done].
    unfold route_at. by destruct (routes v).
Qed.

Lemma route_at_update i f v j :
  route_at (update_route i f v) j = (if decide (i = j) then f <$> route_at v j else route_at v j).
Proof.
  unfold route_at, update_route. simpl. destruct (routes v) as [rs|]; simpl; [|by case_decide].
  case_decide; subst; [apply list_lookup_alter_eq | by apply list_lookup_alter_ne].
Qed.

Section update.
Context (f : kfastblock_pg_route -> kfastblock_pg_route).
Hypothesis f_key : forall r, route_key (f r) = route_key r.

Lemma update_route_wf i v : view_wf v -> view_wf (update_route i f v).
Proof.
  intros [H1 H2 H3 H4 H5 H6]. split; try done; simpl.
  - rewrite H2. destruct (routes v); simpl; [by rewrite length_alter|done].
  - destruct (routes v) as [rs|]; simpl in *; [|done].
    intros j k x y Hj Hk Hjk. rewrite list_lookup_alter in Hj, Hk.
    assert (forall j x, (if decide (i = j) then f <$> rs !! i else rs !! j) = Some x ->
              exists r, rs !! j = Some r /\ route_key x = route_key r) as Hkey.
    { intros j' x' E. case_decide; [subst|by eauto].
      apply fmap_Some in E as (r&?&->). exists r. by rewrite f_key. }
    destruct (Hkey j x Hj) as (r1&?&->), (Hkey k y Hk) as (r2&?&->). by eapply (H6 j k).
Qed.

Lemma update_route_find i v pool pg :
  view_wf v ->
  kfastblock_meta_find_pg_route (Some (update_route i f v)) pool pg
  = kfastblock_meta_find_pg_route (Some v) pool pg.
Proof.
  intros Hwf. apply option_eq. intros j.
  rewrite !find_pg_route_spec by (done || by apply update_route_wf).
  rewrite route_at_update. case_decide; [|done]. split.
  - intros (r&(r0&?&->)%fmap_Some&Hk). exists r0. by rewrite <- f_key.
  - intros (r&->&Hk). exists (f r). by rewrite f_key.
Qed.

Lemma update_route_leader_map i v pool pg r :
  view_wf v -> kfastblock_meta_find_pg_route (Some v) pool pg = Some i ->
  route_at v i = Some r ->
  leader_map (update_route i f v) = partial_alter (fun _ => valid_leader (f r)) (pool, pg) (leader_map v).
Proof.
  intros Hwf Hi Hr. apply map_eq. intros [pool' pg'].
  rewrite leader_map_lookup by (by apply update_route_wf).
  rewrite update_route_find by done.
  destruct (decide ((pool', pg') = (pool, pg))) as [[= -> ->]|Hne].
  - by rewrite lookup_partial_alter_eq, Hi; simpl; rewrite route_at_update, decide_True, Hr.
  - rewrite lookup_partial_alter_ne by done. rewrite leader_map_lookup by done.
    destruct (kfastblock_meta_find_pg_route (Some v) pool' pg') as [j|] eqn:Hj; [|done]. simpl.
    rewrite route_at_update, decide_False; [done|]. intros ->. apply Hne.
    apply (find_pg_route_spec v _ _ _ Hwf) in Hj as (?&E1&<-).
    apply (find_pg_route_spec v _ _ _ Hwf) in Hi as (?&E2&<-). congruence.
Qed.

End update.

(** ** The leader cache across a refresh *)

(** A route of the new map takes over what the old map knew about its placement
    group: the reference definition of the merge. *)
Definition copy_from (s d : kfastblock_pg_route) : kfastblock_pg_route :=
  let d := d <| leader_valid := leader_valid s |> in
  if leader_valid s then d <| leader := leader s |> else d.

Definition copied (src : list kfastblock_pg_route) (d : kfastblock_pg_route) : kfastblock_pg_route :=
  match list_find (fun s => route_key s = route_key d) src with
  | Some (_, s) => copy_from s d
  | None => d
  end.

Lemma copy_from_key s d : route_key (copy_from s d) = route_key d.
Proof. unfold copy_from. by destruct (leader_valid s). Qed.

Lemma copied_found src j s d :
  sorted_by key_lt route_key src -> src !! j = Some s -> route_key s = route_key d ->
  copied src d = copy_from s d.
Proof.
  intros Hs Hj Hk. unfold copied.
  destruct (list_find _ src) as [[j' s']|] eqn:Hf.
  - apply list_find_Some in Hf as (Hj'&Hk'&_).
    assert (j' = j) as -> by (eapply sorted_key_inj; [done|done|done|congruence]). congruence.
  - apply list_find_None in Hf. rewrite Forall_lookup in Hf. by apply Hf in Hj.
Qed.

Lemma copied_none src d :
  (forall j s, src !! j = Some s -> route_key s <> route_key d) -> copied src d = d.
Proof.
  intros Hno. unfold copied. destruct (list_find _ src) as [[j s]|] eqn:Hf; [|done].
  apply list_find_Some in Hf as (Hj&Hk&_). by apply Hno in Hj.
Qed.

Lemma sorted_insert dst i d d' :
  sorted_by key_lt route_key dst -> dst !! i = Some d -> route_key d' = route_key d ->
  sorted_by key_lt route_key (<[i := d']> dst).
Proof.
  intros Hs Hi Hk.
  assert (forall j x, <[i := d']> dst !! j = Some x ->
            exists y, dst !! j = Some y /\ route_key x = route_key y) as Hkey.
  { intros j x Hx. destruct (decide (i = j)) as [->|Hne].
    - rewrite list_lookup_insert_eq in Hx by (by eapply lookup_lt_Some).
      injection Hx as <-. by exists d.
    - rewrite list_lookup_insert_ne in Hx by done. eauto. }
  intros j k x y Hj Hk' Hjk.
  destruct (Hkey j x Hj) as (?&?&->), (Hkey k y Hk') as (?&?&->). by eapply (Hs j k).
Qed.

Lemma key_trichotomy a b : ~ key_lt a b -> a <> b -> key_lt b a.
Proof.
  destruct a as [a1 a2], b as [b1 b2]. unfold key_lt. simpl. intros H1 H2.
  assert (a1 <> b1 \/ a2 <> b2) by (destruct (decide (a1 = b1)); [right; congruence|by left]). lia.
Qed.

(** Every source route before [si] sorts before every target route from [di] on. *)
Definition merge_inv (dst src : list kfastblock_pg_route) (di si : nat) : Prop :=
  forall i j d s, (di <= i)%nat -> (j < si)%nat -> dst !! i = Some d -> src !! j = Some s ->
    key_lt (route_key s) (route_key d).

(** The targets from [di] on still have to be merged. *)
Definition merged_from (dst src : list kfastblock_pg_route) (di i : nat) : option kfastblock_pg_route :=
  if decide (i < di)%nat then dst !! i else copied src <$> dst !! i.

Lemma merge_done dst src di si i :
  merge_inv dst src di si -> (length dst <= di \/ length src <= si)%nat ->
  dst !! i = merged_from dst src di i.
Proof.
  intros Hinv Hend. unfold merged_from. case_decide; [done|].
  destruct (dst !! i) as [d|] eqn:Hi; [|done]. simpl.
  f_equal; symmetry; apply copied_none; intros j s Hj Hk.
  pose proof (lookup_lt_Some _ _ _ Hi). pose proof (lookup_lt_Some _ _ _ Hj).
  specialize (Hinv i j d s ltac:(lia) ltac:(lia) Hi Hj). rewrite Hk in Hinv.
  by apply key_lt_irrefl in Hinv.
Qed.

Section merge_step.
Context (dst src : list kfastblock_pg_route) (di si : nat) (d s : kfastblock_pg_route).
Hypothesis dst_sorted : sorted_by key_lt route_key dst.
Hypothesis src_sorted : sorted_by key_lt route_key src.
Hypothesis inv : merge_inv dst src di si.
Hypothesis dst_di : dst !! di = Some d.
Hypothesis src_si : src !! si = Some s.

Lemma merge_match :
  route_key s = route_key d ->
  let dst' := <[di := copy_from s d]> dst in
  merge_inv dst' src (S di) (S si) /\
  forall i, merged_from dst' src (S di) i = merged_from dst src di i.
Proof.
  intros Hk dst'. subst dst'. split.
  - intros i j d' s' Hi Hj Hd' Hs'. rewrite list_lookup_insert_ne in Hd' by lia.
    destruct (decide (j = si)) as [->|]; [|eapply (inv i j); done || lia].
    assert (s' = s) as -> by congruence. rewrite Hk. eapply (dst_sorted di i); done || lia.
  - intros i. unfold merged_from. destruct (decide (i = di)) as [->|Hne].
    + rewrite decide_True, decide_False by lia.
      rewrite list_lookup_insert_eq by (by eapply lookup_lt_Some). rewrite dst_di. simpl.
      f_equal. symmetry. by eapply copied_found.
    + rewrite list_lookup_insert_ne by done. repeat case_decide; (done || lia).
Qed.

Lemma merge_skip_src :
  key_lt (route_key s) (route_key d) -> merge_inv dst src di (S si).
Proof.
  intros Hlt i j d' s' Hi Hj Hd' Hs'.
  destruct (decide (j = si)) as [->|]; [|eapply (inv i j); done || lia].
  assert (s' = s) as -> by congruence.
  destruct (decide (i = di)) as [->|]; [congruence|].
  eapply key_lt_trans; [exact Hlt|]. eapply (dst_sorted di i); done || lia.
Qed.

Lemma merge_skip_dst :
  key_lt (route_key d) (route_key s) ->
  merge_inv dst src (S di) si /\
  forall i, merged_from dst src (S di) i = merged_from dst src di i.
Proof.
  intros Hlt. split; [intros i j d' s' Hi; apply inv; lia|].
  intros i. unfold merged_from. destruct (decide (i = di)) as [->|Hne].
  - rewrite decide_True, decide_False by lia. rewrite dst_di. simpl. f_equal. symmetry.
    apply copied_none. intros j s' Hj Hk. destruct (decide (j < si)%nat).
    + pose proof (inv di j d s' ltac:(lia) ltac:(lia) dst_di Hj) as HR.
      rewrite Hk in HR. by apply key_lt_irrefl in HR.
    + destruct (decide (j = si)) as [->|].
      * assert (s' = s) as -> by congruence. rewrite Hk in Hlt. by apply key_lt_irrefl in Hlt.
      * pose proof (src_sorted si j s s' src_si Hj ltac:(lia)) as HR. rewrite Hk in HR.
        by apply (key_lt_irrefl (route_key d)), (key_lt_trans _ (route_key s)).
  - repeat case_decide; (done || lia).
Qed.

End merge_step.

Lemma copy_loop_spec fuel dst src (di si : nat) :
  sorted_by key_lt route_key dst -> sorted_by key_lt route_key src ->
  (length dst - di + (length src - si) <= fuel)%nat -> merge_inv dst src di si ->
  forall i, copy_loop fuel dst (Z.of_nat (length dst)) src (Z.of_nat (length src))
              (Z.of_nat di) (Z.of_nat si) !! i
            = merged_from dst src di i.
Proof.
  revert dst di si. induction fuel as [|fuel IH]; intros dst di si Hd Hs Hf Hinv i.
  { simpl. eapply merge_done; [done|lia]. }
  cbn [copy_loop]. destruct (_ && _) eqn:Hc; [|eapply merge_done; [done|unbool; lia]]. unbool.
  rewrite !Nat2Z.id.
  destruct (lookup_lt_is_Some_2 src si) as [s Hsi]; [lia|].
  destruct (lookup_lt_is_Some_2 dst di) as [d Hdi]; [lia|]. rewrite Hsi, Hdi.
  replace (Z.of_nat di + 1) with (Z.of_nat (S di)) by lia.
  replace (Z.of_nat si + 1) with (Z.of_nat (S si)) by lia.
  destruct ((route_pool_id s =? route_pool_id d) && (route_pg_id s =? route_pg_id d)) eqn:Heq.
  - assert (Hk : route_key s = route_key d) by (unfold route_key; unbool; f_equal; lia).
    destruct (merge_match dst src di si d s Hd Hs Hinv Hdi Hsi Hk) as [Hinv' <-].
    rewrite <- (IH (<[di := copy_from s d]> dst) (S di) (S si));
      [|by eapply sorted_insert, copy_from_key|done| |done].
    + by rewrite length_insert.
    + rewrite length_insert. lia.
  - assert (Hk : route_key s <> route_key d)
      by (unfold route_key; intros [=]; unbool; lia).
    destruct (_ || _) eqn:Hlt.
    + apply IH; [done|done|lia|]. eapply merge_skip_src; [done|done|done|done|].
      by apply key_ltb_spec.
    + destruct (merge_skip_dst dst src di si d s Hs Hinv Hdi Hsi) as [Hinv' <-].
      * apply key_trichotomy; [|done]. rewrite <- key_ltb_spec. unfold key_ltb. simpl.
        by rewrite Hlt.
      * apply IH; [done|done|lia|done].
Qed.

Lemma invalidate_loop_spec rs :
  invalidate_loop (length rs) rs
  = ((fun r => if leader_valid r then clear_leader r else r) <$> rs, existsb leader_valid rs).
Proof.
  induction rs as [|r rs IH]; [done|]. cbn [length invalidate_loop]. rewrite IH. simpl.
  by destruct (leader_valid r).
Qed.

Lemma fmap_sorted (f : kfastblock_pg_route -> kfastblock_pg_route) rs :
  (forall r, route_key (f r) = route_key r) ->
  sorted_by key_lt route_key rs -> sorted_by key_lt route_key (f <$> rs).
Proof.
  intros Hf Hs j k x y Hj Hk Hjk.
  apply list_lookup_fmap_Some in Hj as (r1&->&?), Hk as (r2&->&?).
  rewrite !Hf. by eapply (Hs j k).
Qed.

(** The effect of [invalidate_all] on the view. *)
Lemma invalidate_all_spec v :
  view_wf v ->
  exists v', kfastblock_meta_invalidate_all_pg_leaders (Some v) = Some v' /\ view_wf v' /\
    leader_map v' = ∅ /\
    (leader_map v = ∅ -> leader_epoch v <> 0 -> leader_epoch v' = leader_epoch v) /\
    (leader_map v <> ∅ -> leader_epoch v' = u64 (leader_epoch v + 1)).
Proof.
  intros Hwf. unfold kfastblock_meta_invalidate_all_pg_leaders, leader_map.
  pose proof Hwf as [H1 H2 H3 H4 H5 H6].
  destruct (routes v) as [rs|] eqn:Hrs; simpl in *.
  2: { exists v. split_and!; try done. by rewrite Hrs. }
  assert (Z.to_nat (route_count v) = length rs) as -> by lia.
  rewrite invalidate_loop_spec.
  set (f := fun r => if leader_valid r then clear_leader r else r).
  assert (Hf : forall r, valid_leader (f r) = None)
    by (intros r; unfold f, valid_leader; by destruct (leader_valid r) eqn:Hv; simpl; rewrite ?Hv).
  assert (Hempty : existsb leader_valid rs = true <->
    omap (fun r => pair (route_key r) <$> valid_leader r) rs <> []).
  { clear. induction rs as [|r rs IH]; [done|]. simpl. unfold valid_leader at 1.
    by destruct (leader_valid r). }
  assert (Hmap : omap (fun r => pair (route_key r) <$> valid_leader r) (f <$> rs) = []).
  { clear -Hf. induction rs as [|r rs IH]; [done|]. simpl. rewrite Hf. done. }
  assert (forall e, view_wf (v <| routes := Some (f <$> rs) |> <| leader_epoch := e |>)) as Hwf'.
  { intros e. split; simpl; rewrite ?length_fmap; try done.
    apply fmap_sorted; [|done]. intros r. unfold f. by destruct (leader_valid r). }
  assert (forall l : list ((Z * Z) * kfastblock_leader_info),
    (list_to_map l : gmap (Z * Z) kfastblock_leader_info) = ∅ <-> l = []) as Hnil.
  { intros [|[k x] l]; [done|]. split; [|done]. simpl. intros E.
    by apply insert_non_empty in E. }
  specialize (Hnil (omap (fun r => pair (route_key r) <$> valid_leader r) rs)).
  destruct (existsb leader_valid rs) eqn:Hex; simpl.
  - eexists. split; [done|]. split; [apply Hwf'|]. simpl. rewrite Hmap. split; [done|].
    split; [|done]. intros E%Hnil. exfalso. by apply Hempty.
  - assert (omap (fun r => pair (route_key r) <$> valid_leader r) rs = []) as Hnone.
    { apply dec_stable. intros Hne. by apply Hempty in Hne. }
    destruct (leader_epoch v =? 0) eqn:Hz; unbool; eexists; (split; [done|]);
      (split; [apply (Hwf' (leader_epoch v)) || apply Hwf'|]); simpl; rewrite Hmap; naive_solver.
Qed.

Lemma list_find_unique {A} (P : A -> Prop) `{!forall x, Decision (P x)} (l : list A) (r : option nat) :
  (forall i, r = Some i <-> exists x, l !! i = Some x /\ P x) ->
  r = fst <$> list_find P l.
Proof.
  intros Hr. destruct (list_find P l) as [[i x]|] eqn:Hf; simpl.
  - apply list_find_Some in Hf as (Hi&HP&_). apply Hr. by exists x.
  - destruct r as [i|]; [|done]. destruct (proj1 (Hr i) eq_refl) as (x&Hx&HP).
    apply list_find_None in Hf. rewrite Forall_lookup in Hf. by apply Hf in Hx.
Qed.

(** C32: on a well-formed view the two bisections are linear searches: they
    return the element with the key exactly when the array has one, without
    reading outside the array and within their fuel. *)
Theorem bisection_is_linear_search v :
  view_wf v ->
  (forall id, kfastblock_meta_find_osd (Some v) id
     = fst <$> list_find (fun o => osd_id o = id) (default [] (osds v))) /\
  (forall pool pg, kfastblock_meta_find_pg_route (Some v) pool pg
     = fst <$> list_find (fun r => route_key r = (pool, pg)) (default [] (routes v))).
Proof.
  intros Hwf. split; intros.
  - apply list_find_unique. intros i. rewrite find_osd_spec by done.
    unfold osd_at. by destruct (osds v).
  - apply list_find_unique. intros i. rewrite find_pg_route_spec by done.
    unfold route_at. by destruct (routes v).
Qed.

Lemma set_pg_leader_spec v pool pg l :
  view_wf v -> kfastblock_meta_find_pg_route (Some v) pool pg <> NULL ->
  exists v', kfastblock_meta_set_pg_leader (Some v) pool pg (Some l) = (0, Some v') /\
    view_wf v' /\ leader_map v' = <[(pool, pg) := l]> (leader_map v).
Proof.
  intros Hwf Hne. simpl.
  destruct (kfastblock_meta_find_pg_route (Some v) pool pg) as [i|] eqn:Hf; [|done].
  pose proof (proj1 (find_pg_route_spec v _ _ _ Hwf) Hf) as (r&Hr&_).
  eexists. split; [done|]. split; [by apply update_route_wf|].
  by erewrite update_route_leader_map.
Qed.

Lemma invalidate_pg_leader_spec v pool pg :
  view_wf v ->
  exists v', kfastblock_meta_invalidate_pg_leader (Some v) pool pg = Some v' /\
    view_wf v' /\ leader_map v' = delete (pool, pg) (leader_map v).
Proof.
  intros Hwf. simpl. destruct (kfastblock_meta_find_pg_route (Some v) pool pg) as [i|] eqn:Hf.
  - pose proof (proj1 (find_pg_route_spec v _ _ _ Hwf) Hf) as (r&Hr&_).
    eexists. split; [done|]. split; [by apply update_route_wf|].
    by erewrite update_route_leader_map.
  - exists v. split_and!; [done..|]. symmetry. apply delete_id.
    by rewrite leader_map_lookup, Hf.
Qed.

(** C33: the leader cache refines a finite map from placement groups to leaders:
    reading is lookup, setting a routed group is insertion, invalidating is
    deletion, invalidating everything empties the map (with a new leader epoch
    exactly when something was cached or the epoch is still 0), and all of them
    keep the view well-formed. *)
Theorem leader_cache_refines_map v pool pg :
  view_wf v ->
  (forall out, kfastblock_meta_get_pg_leader (Some v) pool pg (Some out)
     = match leader_map v !! (pool, pg) with
       | Some l => (0, Some l) | None => (- ENOENT, Some zero_leader) end) /\
  (forall l, kfastblock_meta_find_pg_route (Some v) pool pg <> NULL ->
     exists v', kfastblock_meta_set_pg_leader (Some v) pool pg (Some l) = (0, Some v') /\
       view_wf v' /\ leader_map v' = <[(pool, pg) := l]> (leader_map v)) /\
  (exists v', kfastblock_meta_invalidate_pg_leader (Some v) pool pg = Some v' /\
     view_wf v' /\ leader_map v' = delete (pool, pg) (leader_map v)) /\
  (exists v', kfastblock_meta_invalidate_all_pg_leaders (Some v) = Some v' /\ view_wf v' /\
     leader_map v' = ∅ /\ (leader_map v <> ∅ -> leader_epoch v' = u64 (leader_epoch v + 1))).
Proof.
  intros Hwf. split_and!.
  - intros out. rewrite leader_map_lookup by done. simpl.
    destruct (kfastblock_meta_find_pg_route (Some v) pool pg) as [i|]; [|done]. simpl.
    destruct (route_at v i) as [r|]; [|done]. simpl. unfold valid_leader. by destruct (leader_valid r).
  - intros l Hne. by apply set_pg_leader_spec.
  - by apply invalidate_pg_leader_spec.
  - destruct (invalidate_all_spec v Hwf) as (v'&?&?&?&_&?). by exists v'.
Qed.

Lemma copied_clear src d : clear_leader (copied src d) = clear_leader d.
Proof.
  unfold copied. destruct (list_find _ _) as [[? s]|]; [|done].
  unfold copy_from. by destruct (leader_valid s).
Qed.

(** Replacing the map installs the new arrays, whose routes differ from the given
    ones at most in the leaders taken over, and keeps the view well formed. *)
Lemma replace_cluster_map_wf v e1 e2 pgs n_osds os n_routes rs :
  view_wf v ->
  view_wf (v <| osds := Some os |> <| osd_count := n_osds |>
             <| routes := Some rs |> <| route_count := n_routes |>) ->
  exists v' rs',
    kfastblock_meta_replace_cluster_map (Some v) e1 e2 pgs n_osds (Some os) n_routes (Some rs)
      = (0, Some v') /\ view_wf v' /\
    osdmap_epoch v' = e1 /\ pgmap_epoch v' = e2 /\ pg_count (image v') = pgs /\
    osds v' = Some os /\ routes v' = Some rs' /\ (clear_leader <$> rs') = (clear_leader <$> rs).
Proof.
  intros Hwf [N1 N2 N3 N4 N5 N6]. simpl in *.
  assert (Hcopy : copy_loop (Z.to_nat (n_routes + route_count v)) rs n_routes
            (default [] (routes v)) (route_count v) 0 0
          = copied (default [] (routes v)) <$> rs).
  { apply list_eq. intros i. rewrite list_lookup_fmap.
    rewrite N2, (wf_route_count v Hwf). apply (copy_loop_spec _ _ _ 0 0);
      [done|apply (wf_routes_sorted v Hwf)|lia|]. intros ? ? ? ? ? ?. lia. }
  unfold kfastblock_meta_replace_cluster_map. simpl.
  destruct (negb (osdmap_epoch v =? e1) || negb (pgmap_epoch v =? e2)); simpl.
  - eexists _, rs. split; [done|]. split; [by split|]. done.
  - unfold kfastblock_meta_copy_leader_cache. simpl. rewrite Hcopy.
    assert (Hs : sorted_by key_lt route_key (copied (default [] (routes v)) <$> rs)).
    { apply fmap_sorted; [|done]. intros r. unfold copied.
      destruct (list_find _ _) as [[? ?]|]; [apply copy_from_key|done]. }
    eexists _, (copied (default [] (routes v)) <$> rs). split; [reflexivity|].
    assert (Hc : (clear_leader <$> (copied (default [] (routes v)) <$> rs)) = (clear_leader <$> rs)).
    { rewrite <- list_fmap_compose. apply list_fmap_ext. intros ? ? _. apply copied_clear. }
    case_match; (split; [split; simpl; rewrite ?length_fmap; done|]); done.
Qed.

(** refreshing with unchanged epochs keeps the leader cache: every route of
    the new map takes over the leader the old map knew, in either direction, and
    the leader epoch stays.  With a changed epoch nothing is taken over and the
    leader epoch advances. *)
Theorem refresh_keeps_leaders v e1 e2 pgs n_osds os n_routes rs :
  view_wf v ->
  view_wf (v <| osds := Some os |> <| osd_count := n_osds |>
             <| routes := Some rs |> <| route_count := n_routes |>) ->
  leader_epoch v <> 0 ->
  exists v',
    kfastblock_meta_replace_cluster_map (Some v) e1 e2 pgs n_osds (Some os) n_routes (Some rs)
      = (0, Some v') /\ view_wf v' /\
    (osdmap_epoch v = e1 /\ pgmap_epoch v = e2 ->
       leader_epoch v' = leader_epoch v /\
       routes v' = Some (copied (default [] (routes v)) <$> rs)) /\
    (osdmap_epoch v <> e1 \/ pgmap_epoch v <> e2 ->
       leader_epoch v' = u64 (leader_epoch v + 1) /\ routes v' = Some rs).
Proof.
  intros Hwf [N1 N2 N3 N4 N5 N6] Hle. simpl in *.
  unfold kfastblock_meta_replace_cluster_map. simpl.
  destruct (decide (osdmap_epoch v = e1 /\ pgmap_epoch v = e2)) as [[<- <-]|Hch].
  - rewrite !Z.eqb_refl. simpl.
    rewrite (proj2 (Z.eqb_neq _ _) Hle). eexists. split; [done|].
    assert (copy_loop (Z.to_nat (n_routes + route_count v)) rs n_routes
              (default [] (routes v)) (route_count v) 0 0
            = copied (default [] (routes v)) <$> rs) as ->.
    { apply list_eq. intros i. rewrite list_lookup_fmap.
      rewrite N2, (wf_route_count v Hwf). apply (copy_loop_spec _ _ _ 0 0);
        [done|apply (wf_routes_sorted v Hwf)|lia|]. intros ? ? ? ? ? ?. lia. }
    split; [|naive_solver]. split; simpl; rewrite ?length_fmap; try done.
    apply fmap_sorted; [|done]. intros r. unfold copied.
    destruct (list_find _ _) as [[? ?]|]; [apply copy_from_key|done].
  - assert (negb (osdmap_epoch v =? e1) || negb (pgmap_epoch v =? e2) = true) as ->
      by (rewrite orb_true_iff, !negb_true_iff, !Z.eqb_neq; lia).
    simpl. eexists. split; [done|]. split; [by split|]. naive_solver.
Qed.

Lemma has_osd_loop_spec ids id : has_osd_loop ids id = true <-> id ∈ ids.
Proof.
  induction ids as [|x ids IH]; simpl; [by rewrite elem_of_nil|].
  rewrite elem_of_cons. destruct (x =? id) eqn:Hx; unbool; rewrite ?IH; naive_solver.
Qed.

Lemma find_shard_loop_spec l id i j :
  find_shard_loop l id i = Some j ->
  exists s, (i <= j)%nat /\ l !! (j - i)%nat = Some s /\ shard_id s = id.
Proof.
  revert i. induction l as [|s l IH]; intros i; simpl; [done|].
  destruct (shard_id s =? id) eqn:Hs; unbool.
  - intros [= <-]. exists s. by rewrite Nat.sub_diag.
  - intros (s'&Hij&Hl&Hid)%IH. exists s'. split; [lia|].
    replace (j - i)%nat with (S (j - S i)) by lia. done.
Qed.

(** a resolved target is a real one: the route belongs to the placement
    group and lists the OSD among its replicas, the OSD is the one asked for,
    and the shard is the route's primary shard on it. *)
Theorem resolve_pg_target_sound v pool pg id r o s :
  view_wf v ->
  kfastblock_meta_resolve_pg_target (Some v) pool pg id (Some NULL) (Some NULL) (Some NULL)
    = (0, (Some (Some r), Some (Some o), Some (Some s))) ->
  exists route osd ss shard,
    route_at v r = Some route /\ route_key route = (pool, pg) /\ id ∈ osd_ids route /\
    osd_at v o = Some osd /\ osd_id osd = id /\
    shards osd = Some ss /\ ss !! s = Some shard /\ shard_id shard = primary_shard route.
Proof.
  intros Hwf. unfold kfastblock_meta_resolve_pg_target. simpl.
  destruct (kfastblock_meta_find_pg_route (Some v) pool pg) as [r'|] eqn:Hr; [|done].
  apply (find_pg_route_spec v _ _ _ Hwf) in Hr as (route&Hroute&Hkey). rewrite Hroute. simpl.
  destruct (has_osd_loop _ id) eqn:Hos; [|done]. simpl.
  destruct (kfastblock_meta_find_osd (Some v) id) as [o'|] eqn:Ho; [|done].
  apply (find_osd_spec v _ _ Hwf) in Ho as (osd&Hosd&Hid). rewrite Hosd. simpl.
  destruct (shards osd) as [ss|] eqn:Hss; [|done]. destruct (shard_count osd =? 0); [done|].
  destruct (find_shard_loop _ _ 0) as [s'|] eqn:Hsh; [|done]. intros [= <- <- <-].
  apply find_shard_loop_spec in Hsh as (shard&_&Hl&Hsid). rewrite Nat.sub_0_r in Hl.
  apply lookup_take_Some in Hl as [Hl _].
  exists route, osd, ss, shard. split_and!; try done.
  apply has_osd_loop_spec, elem_of_take in Hos as (k&Hk&_). by eapply list_elem_of_lookup_2.
Qed.

(** ** Concrete runs *)

(** Two OSDs and two placement groups of pool 1; the leader of group 0 is
    cached. *)
Definition small_route (pg : Z) (valid : bool) : kfastblock_pg_route :=
  {| route_pool_id := 1; route_pg_id := pg; version := 1; route_state := 0; primary_shard := 0;
     replica_count := 2; osd_ids := [10; 11]; leader_valid := valid;
     leader := if valid then {| leader_osd_id := 10; leader_port := 9000;
                                leader_address := "10.0.0.1" |} else zero_leader |}.

Definition small_osd (id : Z) : kfastblock_osd_endpoint :=
  {| osd_id := id; osd_flags := 3; shard_count := 1; osd_address := "10.0.0.1";
     shards := Some [{| shard_id := 0; shard_port := 9000; core_id := 1 |}] |}.

Definition small_view : kfastblock_cluster_view :=
  zero_view <| osds := Some [small_osd 10; small_osd 11] |> <| osd_count := 2 |>
            <| routes := Some [small_route 0 true; small_route 1 false] |> <| route_count := 2 |>
            <| leader_epoch := 5 |> <| osdmap_epoch := 7 |> <| pgmap_epoch := 8 |>.

Lemma sorted_pair {A K} (R : K -> K -> Prop) (f : A -> K) (x y : A) :
  R (f x) (f y) -> sorted_by R f [x; y].
Proof.
  intros HR i j a b Hi Hj Hij.
  destruct i as [|[|i]], j as [|[|j]]; simplify_eq/=; (done || lia).
Qed.

Lemma small_view_wf : view_wf small_view.
Proof.
  split; try (vm_compute; reflexivity); simpl;
    apply sorted_pair; simpl; [lia|]. unfold key_lt. simpl. lia.
Qed.

Lemma bisection_is_linear_search_witness :
  kfastblock_meta_find_osd (Some small_view) 11 = Some 1%nat /\
  kfastblock_meta_find_pg_route (Some small_view) 1 1 = Some 1%nat.
Proof.
  destruct (bisection_is_linear_search small_view small_view_wf) as [Ho Hr].
  rewrite Ho, Hr. vm_compute. done.
Defined.

Lemma leader_cache_refines_map_witness :
  exists v', kfastblock_meta_invalidate_pg_leader (Some small_view) 1 0 = Some v' /\
    view_wf v' /\ leader_map v' = delete (1, 0) (leader_map small_view).
Proof. apply (leader_cache_refines_map small_view 1 0 small_view_wf). Defined.

Lemma refresh_keeps_leaders_witness :
  exists v',
    kfastblock_meta_replace_cluster_map (Some small_view) 7 8 2
      2 (Some [small_osd 10; small_osd 11]) 2 (Some [small_route 0 false; small_route 2 false])
      = (0, Some v') /\
    routes v' = Some [small_route 0 true; small_route 2 false].
Proof.
  destruct (refresh_keeps_leaders small_view 7 8 2 2 [small_osd 10; small_osd 11] 2
    [small_route 0 false; small_route 2 false] small_view_wf) as (v'&E&_&Hsame&_).
  - split; try (vm_compute; reflexivity); simpl;
      apply sorted_pair; simpl; [lia|]. unfold key_lt. simpl. lia.
  - vm_compute. congruence.
  - exists v'. split; [exact E|]. destruct Hsame as [_ Hr]; [split; reflexivity|].
    rewrite Hr. vm_compute. reflexivity.
Defined.

Lemma resolve_pg_target_sound_witness :
  exists route, route_at small_view 1 = Some route /\ route_key route = (1, 1).
Proof.
  destruct (resolve_pg_target_sound small_view 1 1 11 1%nat 1%nat 0%nat small_view_wf)
    as (route&_&_&_&?&?&_); [vm_compute; reflexivity|]. by exists route.
Defined.

End Meta.
