(* ===== verification/Connpool.v ===== *)
(** * Connection pools (kfastblock/src/connpool.c, include/kfastblock/connpool.h)

    Each volume keeps a fixed array of OSD connection slots and one of monitor
    connection slots.  A slot remembers its endpoint, its socket, its failure
    streak with the backoff that follows from it, and a health score.  The pool
    hands out connected slots, reserves idle ones for a new connection and
    reports statistics.

    A [struct socket *] is an opaque number.  Of a slot's locks the model keeps
    the slot mutex, as the flag [lock]: [mutex_trylock] fails when it is held,
    [mutex_lock] waits until it is free, and the functions that return a slot
    return it locked.  A waiter of a multiplexed socket is a number, its index in
    the waiters of Mux.  [sock_release] is the disappearance of the socket from its
    slot. *)

From S2P Require Import Prelude Meta.

Module Connpool.

Definition KFASTBLOCK_CONN_STATE_EMPTY : Z := 0.
Definition KFASTBLOCK_CONN_STATE_CONNECTING : Z := 1.
Definition KFASTBLOCK_CONN_STATE_READY : Z := 2.
Definition KFASTBLOCK_CONN_STATE_BACKOFF : Z := 3.

Record kfastblock_conn_pool_snapshot := {
  total_slots : Z;
  empty_slots : Z;
  connecting_slots : Z;
  ready_slots : Z;
  backoff_slots : Z;
  active_sockets : Z;
  min_health_score : Z;
  max_health_score : Z;
  avg_health_score : Z;
  snap_connect_attempts : Z;
  snap_reuse_hits : Z;
  snap_success_count : Z;
  snap_failure_count : Z;
  oldest_last_use_jiffies : Z;
  newest_last_use_jiffies : Z;
}.

#[export] Instance eta_pool_snapshot : Eta kfastblock_conn_pool_snapshot := fun s =>
  {| total_slots := total_slots s; empty_slots := empty_slots s;
     connecting_slots := connecting_slots s; ready_slots := ready_slots s;
     backoff_slots := backoff_slots s; active_sockets := active_sockets s;
     min_health_score := min_health_score s; max_health_score := max_health_score s;
     avg_health_score := avg_health_score s;
     snap_connect_attempts := snap_connect_attempts s; snap_reuse_hits := snap_reuse_hits s;
     snap_success_count := snap_success_count s; snap_failure_count := snap_failure_count s;
     oldest_last_use_jiffies := oldest_last_use_jiffies s;
     newest_last_use_jiffies := newest_last_use_jiffies s |}.

Record kfastblock_cached_socket := {
  osd_id : Z;
  port : Z;
  address : string;
  sock : ptr Z;
  lock : bool;
  mux_waiters : list Z;
  connecting : bool;
  mux_initialized : bool;
  mux_dead : bool;
  next_seq : Z;
  mux_inflight : Z;
  fail_streak : Z;
  last_error : Z;
  last_failure_jiffies : Z;
  backoff_until_jiffies : Z;
  last_connect_jiffies : Z;
  last_use_jiffies : Z;
  connect_attempts : Z;
  reuse_hits : Z;
  success_count : Z;
  failure_count : Z;
  health_score : Z;
  state : Z;
}.

#[export] Instance eta_cached_socket : Eta kfastblock_cached_socket := fun c =>
  {| osd_id := osd_id c; port := port c; address := address c; sock := sock c; lock := lock c;
     mux_waiters := mux_waiters c; connecting := connecting c;
     mux_initialized := mux_initialized c; mux_dead := mux_dead c; next_seq := next_seq c;
     mux_inflight := mux_inflight c; fail_streak := fail_streak c; last_error := last_error c;
     last_failure_jiffies := last_failure_jiffies c;
     backoff_until_jiffies := backoff_until_jiffies c;
     last_connect_jiffies := last_connect_jiffies c; last_use_jiffies := last_use_jiffies c;
     connect_attempts := connect_attempts c; reuse_hits := reuse_hits c;
     success_count := success_count c; failure_count := failure_count c;
     health_score := health_score c; state := state c |}.

Record kfastblock_cached_monitor_socket := {
  mon_port : Z;
  mon_address : string;
  mon_sock : ptr Z;
  mon_lock : bool;
  mon_next_seq : Z;
  mon_fail_streak : Z;
  mon_last_error : Z;
  mon_last_failure_jiffies : Z;
  mon_backoff_until_jiffies : Z;
  mon_last_connect_jiffies : Z;
  mon_last_use_jiffies : Z;
  mon_connect_attempts : Z;
  mon_reuse_hits : Z;
  mon_success_count : Z;
  mon_failure_count : Z;
  mon_health_score : Z;
  mon_state : Z;
}.

#[export] Instance eta_cached_monitor_socket : Eta kfastblock_cached_monitor_socket := fun c =>
  {| mon_port := mon_port c; mon_address := mon_address c; mon_sock := mon_sock c;
     mon_lock := mon_lock c; mon_next_seq := mon_next_seq c;
     mon_fail_streak := mon_fail_streak c; mon_last_error := mon_last_error c;
     mon_last_failure_jiffies := mon_last_failure_jiffies c;
     mon_backoff_until_jiffies := mon_backoff_until_jiffies c;
     mon_last_connect_jiffies := mon_last_connect_jiffies c;
     mon_last_use_jiffies := mon_last_use_jiffies c;
     mon_connect_attempts := mon_connect_attempts c; mon_reuse_hits := mon_reuse_hits c;
     mon_success_count := mon_success_count c; mon_failure_count := mon_failure_count c;
     mon_health_score := mon_health_score c; mon_state := mon_state c |}.

(** ** Pure helpers *)

Definition kfastblock_conn_state_after_reset (has_sock connecting : bool) : Z :=
  if connecting then KFASTBLOCK_CONN_STATE_CONNECTING
  else if has_sock then KFASTBLOCK_CONN_STATE_READY
  else KFASTBLOCK_CONN_STATE_EMPTY.

Definition kfastblock_conn_health_increase (health delta : Z) : Z :=
  if 100 <=? health then 100 else Z.min (u32 (health + delta)) 100.

Definition kfastblock_conn_health_decrease (health : Z) : Z :=
  if health =? 0 then 0 else if health <=? 10 then 0 else health - 10.

Definition kfastblock_conn_pool_snapshot_init (snapshot : ptr kfastblock_conn_pool_snapshot)
    (total : Z) : ptr kfastblock_conn_pool_snapshot :=
  (fun _ =>
    {| total_slots := total; empty_slots := 0; connecting_slots := 0; ready_slots := 0;
       backoff_slots := 0; active_sockets := 0; min_health_score := U32_MAX;
       max_health_score := 0; avg_health_score := 0; snap_connect_attempts := 0;
       snap_reuse_hits := 0; snap_success_count := 0; snap_failure_count := 0;
       oldest_last_use_jiffies := 0; newest_last_use_jiffies := 0 |}) <$> snapshot.

Definition kfastblock_conn_state_name (st : Z) : string :=
  if st =? KFASTBLOCK_CONN_STATE_EMPTY then "empty"
  else if st =? KFASTBLOCK_CONN_STATE_CONNECTING then "connecting"
  else if st =? KFASTBLOCK_CONN_STATE_READY then "ready"
  else if st =? KFASTBLOCK_CONN_STATE_BACKOFF then "backoff"
  else "unknown".

(** [cached->sock != NULL] *)
Definition has_sock (s : ptr Z) : bool := bool_decide (is_Some s).

(** The part of an array that a loop up to [n] visits. *)
Definition map_first {A} (n : Z) (f : A -> A) (l : list A) : list A :=
  (f <$> take (Z.to_nat n) l) ++ drop (Z.to_nat n) l.

Section with_clock.
Context `{Clock}.

Definition kfastblock_conn_backoff_interval (streak : Z) : Z :=
  let shifts := if 1 <? streak then Z.min (streak - 1) 5 else 0 in
  let delay_ms := Z.shiftl 100 shifts in
  let delay_ms := if 3000 <? delay_ms then 3000 else delay_ms in
  msecs_to_jiffies delay_ms.

(** ** OSD slots *)

Definition kfastblock_osd_conn_slot_init (cached : ptr kfastblock_cached_socket)
    : ptr kfastblock_cached_socket :=
  (fun _ =>
    {| osd_id := 0; port := 0; address := EmptyString; sock := NULL; lock := false;
       mux_waiters := []; connecting := false; mux_initialized := false; mux_dead := false;
       next_seq := 0; mux_inflight := 0; fail_streak := 0; last_error := 0;
       last_failure_jiffies := 0; backoff_until_jiffies := 0; last_connect_jiffies := 0;
       last_use_jiffies := 0; connect_attempts := 0; reuse_hits := 0; success_count := 0;
       failure_count := 0; health_score := 50;
       state := KFASTBLOCK_CONN_STATE_EMPTY |}) <$> cached.

Definition kfastblock_osd_conn_slot_clear_identity_locked (cached : ptr kfastblock_cached_socket)
    : ptr kfastblock_cached_socket :=
  (fun c => c <| address := EmptyString |> <| osd_id := 0 |> <| port := 0 |>) <$> cached.

Definition kfastblock_osd_conn_slot_close_locked (now : Z) (cached : ptr kfastblock_cached_socket)
    : ptr kfastblock_cached_socket :=
  (fun c =>
    let c := c <| sock := NULL |> <| connecting := false |> <| mux_dead := false |>
               <| next_seq := 0 |> <| mux_inflight := 0 |> <| mux_waiters := [] |> in
    if truthy (backoff_until_jiffies c) && time_before now (backoff_until_jiffies c)
    then c <| state := KFASTBLOCK_CONN_STATE_BACKOFF |>
    else c <| state := KFASTBLOCK_CONN_STATE_EMPTY |>) <$> cached.

(** [mutex_lock(&cached->lock); f(cached); mutex_unlock(&cached->lock);] *)
Definition with_lock (f : ptr kfastblock_cached_socket -> ptr kfastblock_cached_socket)
    (c : kfastblock_cached_socket) : ptr kfastblock_cached_socket :=
  (fun c => c <| lock := false |>) <$> f (Some (c <| lock := true |>)).

Definition kfastblock_osd_conn_slot_close (now : Z) (cached : ptr kfastblock_cached_socket)
    : ptr kfastblock_cached_socket :=
  c ← cached; with_lock (kfastblock_osd_conn_slot_close_locked now) c.

Definition kfastblock_osd_conn_slot_reset_backoff_locked (cached : ptr kfastblock_cached_socket)
    : ptr kfastblock_cached_socket :=
  (fun c =>
    c <| fail_streak := 0 |> <| last_error := 0 |> <| last_failure_jiffies := 0 |>
      <| backoff_until_jiffies := 0 |>
      <| state := kfastblock_conn_state_after_reset (has_sock (sock c)) (connecting c) |>)
  <$> cached.

Definition kfastblock_osd_conn_slot_reset_backoff (cached : ptr kfastblock_cached_socket)
    : ptr kfastblock_cached_socket :=
  c ← cached; with_lock kfastblock_osd_conn_slot_reset_backoff_locked c.

Definition kfastblock_osd_conn_slot_matches_locked (cached : ptr kfastblock_cached_socket)
    (leader : ptr Meta.kfastblock_leader_info) : bool :=
  match cached, leader with
  | Some c, Some l =>
      if negb (has_sock (sock c)) || connecting c then false
      else (osd_id c =? Meta.leader_osd_id l) && (port c =? Meta.leader_port l)
           && streq (address c) (Meta.leader_address l)
  | _, _ => false
  end.

Definition kfastblock_osd_conn_slot_begin_connect_locked (now : Z)
    (cached : ptr kfastblock_cached_socket) : ptr kfastblock_cached_socket :=
  (fun c =>
    c <| connecting := true |> <| connect_attempts ::= fun n => u32 (n + 1) |>
      <| last_use_jiffies := now |> <| state := KFASTBLOCK_CONN_STATE_CONNECTING |>) <$> cached.

(** [cached->next_seq++] after mapping 0 to 1. *)
Definition kfastblock_osd_conn_slot_next_seq_locked (now : Z)
    (cached : ptr kfastblock_cached_socket) : Z * ptr kfastblock_cached_socket :=
  match cached with
  | NULL => (1, NULL)
  | Some c =>
      let c := if next_seq c =? 0 then c <| next_seq := 1 |> else c in
      (next_seq c, Some (c <| last_use_jiffies := now |>
                           <| next_seq ::= fun n => u64 (n + 1) |>))
  end.

(** The result and what [*remaining_jiffies] holds afterwards. *)
Definition kfastblock_osd_conn_slot_backoff_active_locked (now : Z)
    (cached : ptr kfastblock_cached_socket) (leader : ptr Meta.kfastblock_leader_info)
    (remaining : ptr Z) : Z * ptr Z :=
  match cached, leader with
  | Some c, Some l =>
      if has_sock (sock c) || (backoff_until_jiffies c =? 0) then (0, remaining)
      else if negb (osd_id c =? Meta.leader_osd_id l) || negb (port c =? Meta.leader_port l)
      then (0, remaining)
      else if negb (streq (address c) (Meta.leader_address l)) then (0, remaining)
      else if time_before now (backoff_until_jiffies c)
      then (- EAGAIN, (fun _ => u64 (backoff_until_jiffies c - now)) <$> remaining)
      else (0, remaining)
  | _, _ => (0, remaining)
  end.

Definition kfastblock_osd_conn_slot_mark_failure_locked (now : Z)
    (cached : ptr kfastblock_cached_socket) (leader : ptr Meta.kfastblock_leader_info) (ret : Z)
    : Z * ptr kfastblock_cached_socket :=
  match cached, leader with
  | Some c, Some l =>
      let c := c <| osd_id := Meta.leader_osd_id l |> <| port := Meta.leader_port l |>
                 <| address := strscpy (Meta.leader_address l) Meta.KFASTBLOCK_MAX_ADDR_LEN |>
                 <| fail_streak ::= fun n => Z.min (u32 (n + 1)) 8 |>
                 <| last_error := ret |> <| last_failure_jiffies := now |> in
      let backoff_jiffies := kfastblock_conn_backoff_interval (fail_streak c) in
      (backoff_jiffies,
       Some (c <| backoff_until_jiffies := u64 (now + backoff_jiffies) |>
               <| failure_count ::= fun n => u32 (n + 1) |>
               <| health_score ::= kfastblock_conn_health_decrease |>
               <| connecting := false |> <| state := KFASTBLOCK_CONN_STATE_BACKOFF |>))
  | _, _ => (0, cached)
  end.

Definition kfastblock_osd_conn_slot_mark_success_locked (now : Z)
    (cached : ptr kfastblock_cached_socket) (leader : ptr Meta.kfastblock_leader_info)
    : ptr kfastblock_cached_socket :=
  match cached, leader with
  | Some c, Some l =>
      let c := c <| osd_id := Meta.leader_osd_id l |> <| port := Meta.leader_port l |>
                 <| address := strscpy (Meta.leader_address l) Meta.KFASTBLOCK_MAX_ADDR_LEN |> in
      (fun c =>
        c <| success_count ::= fun n => u32 (n + 1) |>
          <| health_score ::= fun h => kfastblock_conn_health_increase h 8 |>
          <| last_connect_jiffies := now |> <| last_use_jiffies := now |>
          <| connecting := false |> <| state := KFASTBLOCK_CONN_STATE_READY |>)
      <$> kfastblock_osd_conn_slot_reset_backoff_locked (Some c)
  | _, _ => cached
  end.

Definition kfastblock_osd_conn_slot_note_reuse_locked (now : Z)
    (cached : ptr kfastblock_cached_socket) : ptr kfastblock_cached_socket :=
  (fun c =>
    c <| reuse_hits ::= fun n => u32 (n + 1) |> <| last_use_jiffies := now |>
      <| health_score ::= fun h => kfastblock_conn_health_increase h 1 |>
      <| state := KFASTBLOCK_CONN_STATE_READY |>) <$> cached.

(** ** Monitor slots *)

Definition kfastblock_monitor_conn_slot_init (cached : ptr kfastblock_cached_monitor_socket)
    : ptr kfastblock_cached_monitor_socket :=
  (fun _ =>
    {| mon_port := 0; mon_address := EmptyString; mon_sock := NULL; mon_lock := false;
       mon_next_seq := 0; mon_fail_streak := 0; mon_last_error := 0;
       mon_last_failure_jiffies := 0; mon_backoff_until_jiffies := 0;
       mon_last_connect_jiffies := 0; mon_last_use_jiffies := 0; mon_connect_attempts := 0;
       mon_reuse_hits := 0; mon_success_count := 0; mon_failure_count := 0;
       mon_health_score := 50; mon_state := KFASTBLOCK_CONN_STATE_EMPTY |}) <$> cached.

Definition kfastblock_monitor_conn_slot_clear_identity_locked
    (cached : ptr kfastblock_cached_monitor_socket) : ptr kfastblock_cached_monitor_socket :=
  (fun c => c <| mon_address := EmptyString |> <| mon_port := 0 |>) <$> cached.

Definition kfastblock_monitor_conn_slot_close_locked (now : Z)
    (cached : ptr kfastblock_cached_monitor_socket) : ptr kfastblock_cached_monitor_socket :=
  (fun c =>
    let c := c <| mon_sock := NULL |> <| mon_next_seq := 0 |> in
    if truthy (mon_backoff_until_jiffies c) && time_before now (mon_backoff_until_jiffies c)
    then c <| mon_state := KFASTBLOCK_CONN_STATE_BACKOFF |>
    else c <| mon_state := KFASTBLOCK_CONN_STATE_EMPTY |>) <$> cached.

Definition with_mon_lock
    (f : ptr kfastblock_cached_monitor_socket -> ptr kfastblock_cached_monitor_socket)
    (c : kfastblock_cached_monitor_socket) : ptr kfastblock_cached_monitor_socket :=
  (fun c => c <| mon_lock := false |>) <$> f (Some (c <| mon_lock := true |>)).

Definition kfastblock_monitor_conn_slot_close (now : Z)
    (cached : ptr kfastblock_cached_monitor_socket) : ptr kfastblock_cached_monitor_socket :=
  c ← cached; with_mon_lock (kfastblock_monitor_conn_slot_close_locked now) c.

Definition kfastblock_monitor_conn_slot_reset_backoff_locked
    (cached : ptr kfastblock_cached_monitor_socket) : ptr kfastblock_cached_monitor_socket :=
  (fun c =>
    c <| mon_fail_streak := 0 |> <| mon_last_error := 0 |> <| mon_last_failure_jiffies := 0 |>
      <| mon_backoff_until_jiffies := 0 |>
      <| mon_state := kfastblock_conn_state_after_reset (has_sock (mon_sock c)) false |>)
  <$> cached.

Definition kfastblock_monitor_conn_slot_reset_backoff
    (cached : ptr kfastblock_cached_monitor_socket) : ptr kfastblock_cached_monitor_socket :=
  c ← cached; with_mon_lock kfastblock_monitor_conn_slot_reset_backoff_locked c.

Definition kfastblock_monitor_conn_slot_matches_locked
    (cached : ptr kfastblock_cached_monitor_socket)
    (endpoint : ptr Meta.kfastblock_monitor_endpoint) : bool :=
  match cached, endpoint with
  | Some c, Some e =>
      if negb (has_sock (mon_sock c)) then false
      else (mon_port c =? Meta.mon_port e) && streq (mon_address c) (Meta.host e)
  | _, _ => false
  end.

Definition kfastblock_monitor_conn_slot_begin_connect_locked (now : Z)
    (cached : ptr kfastblock_cached_monitor_socket) : ptr kfastblock_cached_monitor_socket :=
  (fun c =>
    c <| mon_connect_attempts ::= fun n => u32 (n + 1) |> <| mon_last_use_jiffies := now |>
      <| mon_state := KFASTBLOCK_CONN_STATE_CONNECTING |>) <$> cached.

Definition kfastblock_monitor_conn_slot_next_seq_locked (now : Z)
    (cached : ptr kfastblock_cached_monitor_socket)
    : Z * ptr kfastblock_cached_monitor_socket :=
  match cached with
  | NULL => (1, NULL)
  | Some c =>
      let c := if mon_next_seq c =? 0 then c <| mon_next_seq := 1 |> else c in
      (mon_next_seq c, Some (c <| mon_last_use_jiffies := now |>
                               <| mon_next_seq ::= fun n => u64 (n + 1) |>))
  end.

Definition kfastblock_monitor_conn_slot_backoff_active_locked (now : Z)
    (cached : ptr kfastblock_cached_monitor_socket)
    (endpoint : ptr Meta.kfastblock_monitor_endpoint) (remaining : ptr Z) : Z * ptr Z :=
  match cached, endpoint with
  | Some c, Some e =>
      if has_sock (mon_sock c) || (mon_backoff_until_jiffies c =? 0) then (0, remaining)
      else if negb (mon_port c =? Meta.mon_port e) then (0, remaining)
      else if negb (streq (mon_address c) (Meta.host e)) then (0, remaining)
      else if time_before now (mon_backoff_until_jiffies c)
      then (- EAGAIN, (fun _ => u64 (mon_backoff_until_jiffies c - now)) <$> remaining)
      else (0, remaining)
  | _, _ => (0, remaining)
  end.

Definition kfastblock_monitor_conn_slot_mark_failure_locked (now : Z)
    (cached : ptr kfastblock_cached_monitor_socket)
    (endpoint : ptr Meta.kfastblock_monitor_endpoint) (ret : Z)
    : Z * ptr kfastblock_cached_monitor_socket :=
  match cached, endpoint with
  | Some c, Some e =>
      let c := c <| mon_port := Meta.mon_port e |>
                 <| mon_address := strscpy (Meta.host e) Meta.KFASTBLOCK_MAX_ADDR_LEN |>
                 <| mon_fail_streak ::= fun n => Z.min (u32 (n + 1)) 8 |>
                 <| mon_last_error := ret |> <| mon_last_failure_jiffies := now |> in
      let backoff_jiffies := kfastblock_conn_backoff_interval (mon_fail_streak c) in
      (backoff_jiffies,
       Some (c <| mon_backoff_until_jiffies := u64 (now + backoff_jiffies) |>
               <| mon_failure_count ::= fun n => u32 (n + 1) |>
               <| mon_health_score ::= kfastblock_conn_health_decrease |>
               <| mon_state := KFASTBLOCK_CONN_STATE_BACKOFF |>))
  | _, _ => (0, cached)
  end.

Definition kfastblock_monitor_conn_slot_mark_success_locked (now : Z)
    (cached : ptr kfastblock_cached_monitor_socket)
    (endpoint : ptr Meta.kfastblock_monitor_endpoint) : ptr kfastblock_cached_monitor_socket :=
  match cached, endpoint with
  | Some c, Some e =>
      let c := c <| mon_port := Meta.mon_port e |>
                 <| mon_address := strscpy (Meta.host e) Meta.KFASTBLOCK_MAX_ADDR_LEN |> in
      (fun c =>
        c <| mon_success_count ::= fun n => u32 (n + 1) |>
          <| mon_health_score ::= fun h => kfastblock_conn_health_increase h 8 |>
          <| mon_last_connect_jiffies := now |> <| mon_last_use_jiffies := now |>
          <| mon_state := KFASTBLOCK_CONN_STATE_READY |>)
      <$> kfastblock_monitor_conn_slot_reset_backoff_locked (Some c)
  | _, _ => cached
  end.

Definition kfastblock_monitor_conn_slot_note_reuse_locked (now : Z)
    (cached : ptr kfastblock_cached_monitor_socket) : ptr kfastblock_cached_monitor_socket :=
  (fun c =>
    c <| mon_reuse_hits ::= fun n => u32 (n + 1) |> <| mon_last_use_jiffies := now |>
      <| mon_health_score ::= fun h => kfastblock_conn_health_increase h 1 |>
      <| mon_state := KFASTBLOCK_CONN_STATE_READY |>) <$> cached.

(** ** Pool statistics *)

(** The steps of [account_locked]: the switch on the state, the socket, the sums,
    the health scores and the times of last use. *)
Definition account_state (st : Z) (s : kfastblock_conn_pool_snapshot) :=
  if st =? KFASTBLOCK_CONN_STATE_EMPTY then s <| empty_slots ::= fun n => u32 (n + 1) |>
  else if st =? KFASTBLOCK_CONN_STATE_CONNECTING
  then s <| connecting_slots ::= fun n => u32 (n + 1) |>
  else if st =? KFASTBLOCK_CONN_STATE_READY then s <| ready_slots ::= fun n => u32 (n + 1) |>
  else if st =? KFASTBLOCK_CONN_STATE_BACKOFF then s <| backoff_slots ::= fun n => u32 (n + 1) |>
  else s.

Definition account_sock (sk : ptr Z) (s : kfastblock_conn_pool_snapshot) :=
  if has_sock sk then s <| active_sockets ::= fun n => u32 (n + 1) |> else s.

Definition account_sums (attempts reuse successes failures : Z)
    (s : kfastblock_conn_pool_snapshot) :=
  s <| snap_connect_attempts ::= fun n => u64 (n + attempts) |>
    <| snap_reuse_hits ::= fun n => u64 (n + reuse) |>
    <| snap_success_count ::= fun n => u64 (n + successes) |>
    <| snap_failure_count ::= fun n => u64 (n + failures) |>.

Definition account_health (health : Z) (s : kfastblock_conn_pool_snapshot) :=
  let s := if health <? min_health_score s then s <| min_health_score := health |> else s in
  let s := if max_health_score s <? health then s <| max_health_score := health |> else s in
  s <| avg_health_score ::= fun n => u32 (n + health) |>.

Definition account_use (last_use : Z) (s : kfastblock_conn_pool_snapshot) :=
  let s := if (oldest_last_use_jiffies s =? 0)
              || time_before last_use (oldest_last_use_jiffies s)
           then s <| oldest_last_use_jiffies := last_use |> else s in
  if time_after last_use (newest_last_use_jiffies s)
  then s <| newest_last_use_jiffies := last_use |> else s.

Definition kfastblock_conn_pool_account_locked (snapshot : ptr kfastblock_conn_pool_snapshot)
    (st : Z) (sk : ptr Z) (health attempts reuse successes failures last_use : Z)
    : ptr kfastblock_conn_pool_snapshot :=
  (fun s =>
    account_use last_use (account_health health
      (account_sums attempts reuse successes failures (account_sock sk (account_state st s)))))
  <$> snapshot.

Definition kfastblock_conn_pool_finalize_average (snapshot : ptr kfastblock_conn_pool_snapshot)
    : ptr kfastblock_conn_pool_snapshot :=
  (fun s =>
    let s := if min_health_score s =? U32_MAX then s <| min_health_score := 0 |> else s in
    if truthy (total_slots s)
    then s <| avg_health_score ::= fun n => n / total_slots s |> else s) <$> snapshot.

Definition account_slot (snapshot : ptr kfastblock_conn_pool_snapshot)
    (c : kfastblock_cached_socket) : ptr kfastblock_conn_pool_snapshot :=
  kfastblock_conn_pool_account_locked snapshot (state c) (sock c) (health_score c)
    (connect_attempts c) (reuse_hits c) (success_count c) (failure_count c) (last_use_jiffies c).

Definition kfastblock_osd_conn_pool_snapshot (slots : ptr (list kfastblock_cached_socket))
    (nr_slots : Z) (snapshot : ptr kfastblock_conn_pool_snapshot)
    : ptr kfastblock_conn_pool_snapshot :=
  let snapshot := kfastblock_conn_pool_snapshot_init snapshot nr_slots in
  match slots, snapshot with
  | Some l, Some _ =>
      kfastblock_conn_pool_finalize_average
        (foldl account_slot snapshot (take (Z.to_nat nr_slots) l))
  | _, _ => snapshot
  end.

Definition account_mon_slot (snapshot : ptr kfastblock_conn_pool_snapshot)
    (c : kfastblock_cached_monitor_socket) : ptr kfastblock_conn_pool_snapshot :=
  kfastblock_conn_pool_account_locked snapshot (mon_state c) (mon_sock c) (mon_health_score c)
    (mon_connect_attempts c) (mon_reuse_hits c) (mon_success_count c) (mon_failure_count c)
    (mon_last_use_jiffies c).

Definition kfastblock_monitor_conn_pool_snapshot
    (slots : ptr (list kfastblock_cached_monitor_socket)) (nr_slots : Z)
    (snapshot : ptr kfastblock_conn_pool_snapshot) : ptr kfastblock_conn_pool_snapshot :=
  let snapshot := kfastblock_conn_pool_snapshot_init snapshot nr_slots in
  match slots, snapshot with
  | Some l, Some _ =>
      kfastblock_conn_pool_finalize_average
        (foldl account_mon_slot snapshot (take (Z.to_nat nr_slots) l))
  | _, _ => snapshot
  end.

(** ** Pools *)

(** [op(&slots[i])] for a slot operation. *)
Definition on_slot {A} (op : ptr A -> ptr A) (c : A) : A := default c (op (Some c)).

Definition kfastblock_osd_conn_pool_init (slots : ptr (list kfastblock_cached_socket)) (n : Z)
    : ptr (list kfastblock_cached_socket) :=
  map_first n (on_slot kfastblock_osd_conn_slot_init) <$> slots.

Definition kfastblock_monitor_conn_pool_init
    (slots : ptr (list kfastblock_cached_monitor_socket)) (n : Z)
    : ptr (list kfastblock_cached_monitor_socket) :=
  map_first n (on_slot kfastblock_monitor_conn_slot_init) <$> slots.

Definition kfastblock_osd_conn_pool_close (now : Z) (slots : ptr (list kfastblock_cached_socket))
    (n : Z) : ptr (list kfastblock_cached_socket) :=
  map_first n (on_slot (mbind (with_lock (fun c =>
    (fun c => c <| state := KFASTBLOCK_CONN_STATE_EMPTY |>)
    <$> kfastblock_osd_conn_slot_reset_backoff_locked
          (kfastblock_osd_conn_slot_clear_identity_locked
             (kfastblock_osd_conn_slot_close_locked now c)))))) <$> slots.

Definition kfastblock_monitor_conn_pool_close (now : Z)
    (slots : ptr (list kfastblock_cached_monitor_socket)) (n : Z)
    : ptr (list kfastblock_cached_monitor_socket) :=
  map_first n (on_slot (mbind (with_mon_lock (fun c =>
    (fun c => c <| mon_state := KFASTBLOCK_CONN_STATE_EMPTY |>)
    <$> kfastblock_monitor_conn_slot_reset_backoff_locked
          (kfastblock_monitor_conn_slot_clear_identity_locked
             (kfastblock_monitor_conn_slot_close_locked now c)))))) <$> slots.

Definition kfastblock_osd_conn_pool_reset_backoff (slots : ptr (list kfastblock_cached_socket))
    (n : Z) : ptr (list kfastblock_cached_socket) :=
  map_first n (on_slot kfastblock_osd_conn_slot_reset_backoff) <$> slots.

Definition kfastblock_monitor_conn_pool_reset_backoff
    (slots : ptr (list kfastblock_cached_monitor_socket)) (n : Z)
    : ptr (list kfastblock_cached_monitor_socket) :=
  map_first n (on_slot kfastblock_monitor_conn_slot_reset_backoff) <$> slots.

(** The loop of [acquire_match_common] over the first [n] slots: the index and
    socket of the slot it stops at, and the slots. *)
Fixpoint acquire_loop (now : Z) (leader : ptr Meta.kfastblock_leader_info) (nonblocking : bool)
    (n : nat) (slots : list kfastblock_cached_socket)
    : ptr (nat * ptr Z) * list kfastblock_cached_socket :=
  match n, slots with
  | S n, c :: slots =>
      let continue c :=
        let '(r, slots) := acquire_loop now leader nonblocking n slots in
        (prod_map S id <$> r, c :: slots) in
      if nonblocking && lock c then continue c
      else
        let c := c <| lock := true |> in
        if negb (kfastblock_osd_conn_slot_matches_locked (Some c) leader)
        then continue (c <| lock := false |>)
        else
          let c := on_slot (kfastblock_osd_conn_slot_note_reuse_locked now) c in
          (Some (0%nat, sock c), c :: slots)
  | _, _ => (NULL, slots)
  end.

(** The slot (its index), the slots and what [*sock_out] holds. *)
Definition kfastblock_osd_conn_pool_acquire_match_common (now : Z)
    (slots : ptr (list kfastblock_cached_socket)) (n : Z)
    (leader : ptr Meta.kfastblock_leader_info) (sock_out : ptr (ptr Z)) (nonblocking : bool)
    : ptr nat * ptr (list kfastblock_cached_socket) * ptr (ptr Z) :=
  let sock_out := (fun _ => NULL) <$> sock_out in
  match slots, leader with
  | Some l, Some _ =>
      match acquire_loop now leader nonblocking (Z.to_nat n) l with
      | (Some (i, sk), l) => (Some i, Some l, (fun _ => sk) <$> sock_out)
      | (NULL, l) => (NULL, Some l, sock_out)
      end
  | _, _ => (NULL, slots, sock_out)
  end.

Definition kfastblock_osd_conn_pool_acquire_match (now : Z)
    (slots : ptr (list kfastblock_cached_socket)) (n : Z)
    (leader : ptr Meta.kfastblock_leader_info) (sock_out : ptr (ptr Z)) :=
  kfastblock_osd_conn_pool_acquire_match_common now slots n leader sock_out false.

Definition kfastblock_osd_conn_pool_try_acquire_match (now : Z)
    (slots : ptr (list kfastblock_cached_socket)) (n : Z)
    (leader : ptr Meta.kfastblock_leader_info) (sock_out : ptr (ptr Z)) :=
  kfastblock_osd_conn_pool_acquire_match_common now slots n leader sock_out true.

Fixpoint mon_acquire_loop (now : Z) (endpoint : ptr Meta.kfastblock_monitor_endpoint)
    (n : nat) (slots : list kfastblock_cached_monitor_socket)
    : ptr (nat * ptr Z) * list kfastblock_cached_monitor_socket :=
  match n, slots with
  | S n, c :: slots =>
      let c := c <| mon_lock := true |> in
      if negb (kfastblock_monitor_conn_slot_matches_locked (Some c) endpoint)
      then
        let '(r, slots) := mon_acquire_loop now endpoint n slots in
        (prod_map S id <$> r, c <| mon_lock := false |> :: slots)
      else
        let c := on_slot (kfastblock_monitor_conn_slot_note_reuse_locked now) c in
        (Some (0%nat, mon_sock c), c :: slots)
  | _, _ => (NULL, slots)
  end.

Definition kfastblock_monitor_conn_pool_acquire_match (now : Z)
    (slots : ptr (list kfastblock_cached_monitor_socket)) (n : Z)
    (endpoint : ptr Meta.kfastblock_monitor_endpoint) (sock_out : ptr (ptr Z))
    : ptr nat * ptr (list kfastblock_cached_monitor_socket) * ptr (ptr Z) :=
  let sock_out := (fun _ => NULL) <$> sock_out in
  match slots, endpoint with
  | Some l, Some _ =>
      match mon_acquire_loop now endpoint (Z.to_nat n) l with
      | (Some (i, sk), l) => (Some i, Some l, (fun _ => sk) <$> sock_out)
      | (NULL, l) => (NULL, Some l, sock_out)
      end
  | _, _ => (NULL, slots, sock_out)
  end.

(** The first non-zero result over the slots. *)
Fixpoint check_backoff_loop {A} (check : A -> ptr Z -> Z * ptr Z) (slots : list A)
    (remaining : ptr Z) : Z * ptr Z :=
  match slots with
  | [] => (0, remaining)
  | c :: slots =>
      let '(ret, remaining) := check c remaining in
      if truthy ret then (ret, remaining) else check_backoff_loop check slots remaining
  end.

Definition kfastblock_osd_conn_pool_check_backoff (now : Z)
    (slots : ptr (list kfastblock_cached_socket)) (n : Z)
    (leader : ptr Meta.kfastblock_leader_info) (remaining : ptr Z) : Z * ptr Z :=
  let remaining := (fun _ => 0) <$> remaining in
  match slots, leader with
  | Some l, Some _ =>
      check_backoff_loop
        (fun c => kfastblock_osd_conn_slot_backoff_active_locked now (Some c) leader)
        (take (Z.to_nat n) l) remaining
  | _, _ => (- EINVAL, remaining)
  end.

Definition kfastblock_monitor_conn_pool_check_backoff (now : Z)
    (slots : ptr (list kfastblock_cached_monitor_socket)) (n : Z)
    (endpoint : ptr Meta.kfastblock_monitor_endpoint) (remaining : ptr Z) : Z * ptr Z :=
  let remaining := (fun _ => 0) <$> remaining in
  match slots, endpoint with
  | Some l, Some _ =>
      check_backoff_loop
        (fun c => kfastblock_monitor_conn_slot_backoff_active_locked now (Some c) endpoint)
        (take (Z.to_nat n) l) remaining
  | _, _ => (- EINVAL, remaining)
  end.

(** The test of [endpoint_active_count]. *)
Definition endpoint_active (l : Meta.kfastblock_leader_info) (c : kfastblock_cached_socket) : bool :=
  (osd_id c =? Meta.leader_osd_id l) && (port c =? Meta.leader_port l)
  && streq (address c) (Meta.leader_address l) && (has_sock (sock c) || connecting c).

Definition kfastblock_osd_conn_pool_endpoint_active_count
    (slots : ptr (list kfastblock_cached_socket)) (n : Z)
    (leader : ptr Meta.kfastblock_leader_info) : Z :=
  match slots, leader with
  | Some l, Some ld =>
      foldl (fun count c => if endpoint_active ld c then u32 (count + 1) else count) 0
        (take (Z.to_nat n) l)
  | _, _ => 0
  end.

(** ** Reserving a slot *)

Definition kfastblock_osd_conn_slot_reserve_rank_locked (cached : ptr kfastblock_cached_socket) : Z :=
  match cached with
  | NULL => U32_MAX
  | Some c =>
      if has_sock (sock c) || connecting c then U32_MAX
      else if (state c =? KFASTBLOCK_CONN_STATE_EMPTY) && (osd_id c =? 0)
              && str_empty (address c) && (port c =? 0) then 0
      else if state c =? KFASTBLOCK_CONN_STATE_EMPTY then 1
      else if state c =? KFASTBLOCK_CONN_STATE_BACKOFF then 2
      else 3
  end.

Definition kfastblock_osd_conn_slot_better_candidate_locked
    (candidate best : ptr kfastblock_cached_socket) (candidate_rank best_rank : Z) : bool :=
  match candidate with
  | NULL => false
  | Some c =>
      match best with
      | NULL => true
      | Some b =>
          if negb (candidate_rank =? best_rank) then candidate_rank <? best_rank
          else if negb (health_score c =? health_score b) then health_score c <? health_score b
          else if negb (last_use_jiffies c =? last_use_jiffies b)
          then time_before (last_use_jiffies c) (last_use_jiffies b)
          else failure_count b <? failure_count c
      end
  end.

(** [mutex_lock] and [mutex_unlock] of slot [i] of the array. *)
Definition set_lock (i : nat) (held : bool) (slots : list kfastblock_cached_socket)
    : list kfastblock_cached_socket :=
  alter (fun c => c <| lock := held |>) i slots.

(** The loop from index [i] on: the best slot so far stays locked. *)
Fixpoint reserve_loop (n i : nat) (best : ptr nat) (best_rank : Z)
    (slots : list kfastblock_cached_socket) : ptr nat * list kfastblock_cached_socket :=
  match n with
  | O => (best, slots)
  | S n =>
      match slots !! i with
      | None => (best, slots)
      | Some c =>
          if lock c then reserve_loop n (S i) best best_rank slots
          else
            let slots := set_lock i true slots in
            let rank := kfastblock_osd_conn_slot_reserve_rank_locked (Some c) in
            if rank =? U32_MAX
            then reserve_loop n (S i) best best_rank (set_lock i false slots)
            else if kfastblock_osd_conn_slot_better_candidate_locked (Some c)
                      (b ← best; slots !! b) rank best_rank
            then
              let slots := match best with Some b => set_lock b false slots | NULL => slots end in
              reserve_loop n (S i) (Some i) rank slots
            else reserve_loop n (S i) best best_rank (set_lock i false slots)
      end
  end.

Definition kfastblock_osd_conn_pool_reserve (now : Z)
    (slots : ptr (list kfastblock_cached_socket)) (n : Z)
    : ptr nat * ptr (list kfastblock_cached_socket) :=
  match slots with
  | NULL => (NULL, NULL)
  | Some l =>
      match reserve_loop (Z.to_nat n) 0 NULL U32_MAX l with
      | (NULL, l) => (NULL, Some l)
      | (Some b, l) =>
          (Some b, Some (alter (on_slot (kfastblock_osd_conn_slot_begin_connect_locked now)) b l))
      end
  end.

(** ** Slot invariant *)

(** The fields of an OSD slot fit together: bounded scores, a valid state that
    is [CONNECTING] exactly while a connection is being set up, and no backoff
    deadline without a failure. *)
Record slot_wf (c : kfastblock_cached_socket) : Prop := {
  wf_health : 0 <= health_score c <= 100;
  wf_streak : 0 <= fail_streak c <= 8;
  wf_state : 0 <= state c <= KFASTBLOCK_CONN_STATE_BACKOFF;
  wf_connecting : connecting c = true <-> state c = KFASTBLOCK_CONN_STATE_CONNECTING;
  wf_backoff : fail_streak c = 0 -> backoff_until_jiffies c = 0;
  wf_backoff_state : state c = KFASTBLOCK_CONN_STATE_BACKOFF -> fail_streak c <> 0;
}.

(** What happens to a slot while its lock is held; [SetSocket] is the
    assignment of a connected socket by the transport, [Reuse] the body of the
    acquire loop. *)
Inductive slot_call :=
| Close (now : Z)
| ResetBackoff
| BeginConnect (now : Z)
| SetSocket (sk : Z)
| NextSeq (now : Z)
| MarkFailure (now : Z) (leader : Meta.kfastblock_leader_info) (ret : Z)
| MarkSuccess (now : Z) (leader : Meta.kfastblock_leader_info)
| Reuse (now : Z) (leader : Meta.kfastblock_leader_info).

Definition slot_exec (c : ptr kfastblock_cached_socket) (call : slot_call)
    : ptr kfastblock_cached_socket :=
  match call with
  | Close now => kfastblock_osd_conn_slot_close_locked now c
  | ResetBackoff => kfastblock_osd_conn_slot_reset_backoff_locked c
  | BeginConnect now => kfastblock_osd_conn_slot_begin_connect_locked now c
  | SetSocket sk => (fun c => c <| sock := Some sk |>) <$> c
  | NextSeq now => snd (kfastblock_osd_conn_slot_next_seq_locked now c)
  | MarkFailure now l ret => snd (kfastblock_osd_conn_slot_mark_failure_locked now c (Some l) ret)
  | MarkSuccess now l => kfastblock_osd_conn_slot_mark_success_locked now c (Some l)
  | Reuse now l =>
      if kfastblock_osd_conn_slot_matches_locked c (Some l)
      then kfastblock_osd_conn_slot_note_reuse_locked now c else c
  end.

Lemma health_increase_range h d :
  0 <= h <= 100 -> 0 <= d <= 100 -> 0 <= kfastblock_conn_health_increase h d <= 100.
Proof. intros. unfold kfastblock_conn_health_increase. rewrite u32_small by lia. zsolve. Qed.

Lemma health_decrease_range h :
  0 <= h <= 100 -> 0 <= kfastblock_conn_health_decrease h <= 100.
Proof. unfold kfastblock_conn_health_decrease. zsolve. Qed.

#[local] Hint Resolve health_increase_range health_decrease_range : kfb.

Lemma slot_exec_wf c call :
  slot_wf c -> exists c', slot_exec (Some c) call = Some c' /\ slot_wf c'.
Proof.
  intros [H1 H2 H3 H4 H5 H6].
  unfold KFASTBLOCK_CONN_STATE_BACKOFF, KFASTBLOCK_CONN_STATE_CONNECTING in *.
  destruct call; cbn [slot_exec].
  - simpl. destruct (_ && _) eqn:Hb; eexists; (split; [done|]); split; simpl; try done.
    + intros _ Hz. apply H5 in Hz. unbool. lia.
  - eexists; split; [done|]. split; simpl; unfold kfastblock_conn_state_after_reset; try done;
      destruct (connecting c), (has_sock (sock c)); done.
  - eexists; split; [done|]. split; simpl; done.
  - eexists; split; [done|]. by split.
  - simpl. destruct (next_seq c =? 0); eexists; (split; [done|]); by split.
  - eexists; split; [done|]. split; simpl; rewrite ?u32_small by lia; try done; auto with kfb; lia.
  - eexists; split; [done|]. split; simpl; try done; auto with kfb lia.
  - simpl. destruct (_ || connecting c) eqn:Hc; [by eexists; split|].
    apply orb_false_iff in Hc as [_ Hc].
    destruct (_ && _); [|by eexists; split].
    eexists; split; [done|]. split; simpl; try done; auto with kfb lia. by rewrite Hc.
Qed.


(** ** Backoff *)

(** The delay in milliseconds: 100 doubled with every failure after the first,
    at most 3000. *)
Definition backoff_ms (streak : Z) : Z := Z.min 3000 (100 * 2 ^ Z.min 5 (Z.max 0 (streak - 1))).

Lemma backoff_interval_ms streak :
  0 <= streak -> kfastblock_conn_backoff_interval streak = msecs_to_jiffies (backoff_ms streak).
Proof.
  intros Hs. unfold kfastblock_conn_backoff_interval, backoff_ms. cbv zeta. f_equal.
  assert ((if 1 <? streak then Z.min (streak - 1) 5 else 0) = Z.min 5 (Z.max 0 (streak - 1)))
    as -> by zsolve.
  rewrite Z.shiftl_mul_pow2 by lia. zsolve.
Qed.

Lemma backoff_ms_range streak : 100 <= backoff_ms streak <= 3000.
Proof.
  unfold backoff_ms. pose proof (Z.pow_le_mono_r 2 0 (Z.min 5 (Z.max 0 (streak - 1)))). lia.
Qed.

Lemma backoff_ms_mono s1 s2 : s1 <= s2 -> backoff_ms s1 <= backoff_ms s2.
Proof.
  intros. unfold backoff_ms.
  pose proof (Z.pow_le_mono_r 2 (Z.min 5 (Z.max 0 (s1 - 1))) (Z.min 5 (Z.max 0 (s2 - 1)))). lia.
Qed.

(** the reconnect backoff grows with the failure streak, starts at the
    jiffies of 100 ms and never exceeds those of 3 s. *)
Theorem backoff_interval_bounded `{!ClockLaws _} s1 s2 :
  0 <= s1 <= s2 ->
  msecs_to_jiffies 100 <= kfastblock_conn_backoff_interval s1
  <= kfastblock_conn_backoff_interval s2 /\
  kfastblock_conn_backoff_interval s2 <= msecs_to_jiffies 3000.
Proof.
  intros Hs. rewrite !backoff_interval_ms by lia.
  pose proof (backoff_ms_range s1). pose proof (backoff_ms_range s2).
  pose proof (backoff_ms_mono s1 s2). repeat split; apply msecs_to_jiffies_mono; lia.
Qed.

(** after a failed connection the endpoint is refused with [-EAGAIN] for
    exactly the backoff interval of its streak, with the rest of the interval
    reported, and is admitted again afterwards. *)
Theorem failure_backs_off `{!ClockLaws _} now k c l ret c' interval rem :
  0 <= fail_streak c <= 8 -> sock c = NULL ->
  (String.length (Meta.leader_address l) < Meta.KFASTBLOCK_MAX_ADDR_LEN)%nat ->
  kfastblock_osd_conn_slot_mark_failure_locked now (Some c) (Some l) ret = (interval, Some c') ->
  u64 (now + interval) <> 0 -> 0 <= k < 2 ^ 62 ->
  kfastblock_osd_conn_slot_backoff_active_locked (u64 (now + k)) (Some c') (Some l) (Some rem)
  = if k <? interval then (- EAGAIN, Some (interval - k)) else (0, Some rem).
Proof.
  intros Hf Hsock Haddr E Hnz Hk.
  unfold kfastblock_osd_conn_slot_mark_failure_locked in E. simpl in E.
  injection E as Hint Hc'. rewrite u32_small in Hint by lia.
  rewrite backoff_interval_ms in Hint by lia.
  pose proof (backoff_ms_range (Z.min (fail_streak c + 1) 8)) as Hr.
  pose proof (msecs_to_jiffies_range (backoff_ms (Z.min (fail_streak c + 1) 8)) ltac:(lia)) as Hj.
  rewrite Hint in Hj. subst c'. cbn. rewrite u32_small by lia.
  rewrite backoff_interval_ms, Hint by lia. rewrite Hsock, !Z.eqb_refl. simpl.
  rewrite (proj2 (Z.eqb_neq _ _) Hnz). unfold streq.
  rewrite strscpy_fits by done. rewrite bool_decide_eq_true_2 by done. simpl.
  rewrite time_before_elapsed by lia. destruct (k <? interval) eqn:Hki; [|done]. unbool.
  do 2 f_equal. unfold u64. rewrite <- Zminus_mod.
  replace (now + interval - (now + k)) with (interval - k) by lia. apply Z.mod_small. lia.
Qed.

(** sequence numbers on a socket are never 0 and increase by one until the
    64-bit counter wraps. *)
Theorem next_seq_increases now now' c q1 c1 q2 c2 :
  0 <= next_seq c < 2 ^ 64 - 2 ->
  kfastblock_osd_conn_slot_next_seq_locked now (Some c) = (q1, Some c1) ->
  kfastblock_osd_conn_slot_next_seq_locked now' (Some c1) = (q2, Some c2) ->
  q1 <> 0 /\ q2 = q1 + 1.
Proof.
  intros Hn E1 E2. simpl in E1. injection E1 as Hq1 Hc1.
  assert (Hs : next_seq c1 = q1 + 1 /\ q1 <> 0).
  { subst. destruct (next_seq c =? 0) eqn:Hz; simpl; unbool; [done|].
    rewrite u64_small by lia. done. }
  destruct Hs as [Hs Hz]. simpl in E2. rewrite Hs in E2.
  assert ((q1 + 1 =? 0) = false) as Hz1
    by (apply Z.eqb_neq; subst q1; destruct (next_seq c =? 0) eqn:?; simpl; unbool; lia).
  rewrite Hz1 in E2. injection E2 as <- _. by rewrite Hs.
Qed.

(** ** Reservation *)

(** A slot the reservation may take: nobody holds its lock, and it is idle. *)
Definition reservable (c : kfastblock_cached_socket) : Prop :=
  lock c = false /\ sock c = NULL /\ connecting c = false.

Definition rank (c : kfastblock_cached_socket) : Z :=
  kfastblock_osd_conn_slot_reserve_rank_locked (Some c).

(** [a] is at least as good a choice as [b]. *)
Definition preferred (a b : kfastblock_cached_socket) : Prop :=
  rank a < rank b \/ (rank a = rank b /\ health_score a <= health_score b).

Lemma rank_range c : sock c = NULL -> connecting c = false -> 0 <= rank c <= 3.
Proof. intros Hs Hc. unfold rank. simpl. rewrite Hs, Hc. simpl. zsolve. Qed.

Lemma rank_reservable c : lock c = false -> rank c <> U32_MAX <-> reservable c.
Proof.
  intros Hl. unfold reservable. split.
  - unfold rank. simpl. destruct (sock c), (connecting c); simpl; done.
  - intros (_&Hs&Hc). pose proof (rank_range c Hs Hc). unfold U32_MAX. lia.
Qed.

Lemma set_lock_lookup i b slots j :
  set_lock i b slots !! j
  = if decide (i = j) then (fun c => c <| lock := b |>) <$> slots !! i else slots !! j.
Proof. unfold set_lock. by rewrite list_lookup_alter. Qed.

(** Taking and releasing a free lock changes nothing. *)
Lemma set_lock_release i slots c :
  slots !! i = Some c -> lock c = false -> set_lock i false (set_lock i true slots) = slots.
Proof.
  intros Hi Hl. apply list_eq. intros j. rewrite !set_lock_lookup.
  repeat case_decide; try done. subst. rewrite Hi. simpl. f_equal. destruct c. simpl in *. by subst.
Qed.

Lemma set_lock_move i b slots c :
  b <> i -> slots !! b = Some c -> lock c = false ->
  set_lock b false (set_lock i true (set_lock b true slots)) = set_lock i true slots.
Proof.
  intros Hne Hb Hl. unfold set_lock at 1 2. rewrite list_alter_alter_ne by done.
  change (set_lock i true (set_lock b false (set_lock b true slots)) = set_lock i true slots).
  by erewrite set_lock_release.
Qed.

(** The pool while the loop holds the lock of its best candidate. *)
Definition holding (slots : list kfastblock_cached_socket) (best : ptr nat) :=
  match best with Some b => set_lock b true slots | NULL => slots end.

(** What the loop knows after the first [i] slots. *)
Definition best_of (slots : list kfastblock_cached_socket) (i : nat) (best : ptr nat)
    (best_rank : Z) : Prop :=
  match best with
  | NULL => forall j c, (j < i)%nat -> slots !! j = Some c -> ~ reservable c
  | Some b => exists c, (b < i)%nat /\ slots !! b = Some c /\ reservable c /\ rank c = best_rank /\
      forall j c', (j < i)%nat -> slots !! j = Some c' -> reservable c' -> preferred c c'
  end.

Lemma best_of_skip slots i best best_rank c :
  best_of slots i best best_rank -> slots !! i = Some c -> ~ reservable c ->
  best_of slots (S i) best best_rank.
Proof.
  intros Hb Hi Hnr. destruct best as [b|]; simpl in *.
  - destruct Hb as (cb&?&?&?&?&Hall). exists cb. split_and!; [lia|done..|].
    intros j c' Hj Hc' Hr. destruct (decide (j = i)) as [->|]; [congruence|].
    eapply Hall; [|done|done]. lia.
  - intros j c' Hj Hc'. destruct (decide (j = i)) as [->|]; [congruence|].
    eapply Hb; [|done]. lia.
Qed.

Lemma better_candidate_preferred c b b' rb :
  rank b = rb -> b' = b <| lock := true |> ->
  if kfastblock_osd_conn_slot_better_candidate_locked (Some c) (Some b') (rank c) rb
  then preferred c b else preferred b c.
Proof.
  intros <- ->. cbn -[rank]. unfold preferred.
  destruct (rank c =? rank b) eqn:Hr; cbn [negb]; unbool; [|destruct (rank c <? rank b) eqn:?; unbool; lia].
  destruct (health_score c =? health_score b) eqn:Hh; cbn [negb]; unbool;
    [|destruct (health_score c <? health_score b) eqn:?; unbool; lia].
  destruct (if negb _ then _ else _); lia.
Qed.

Lemma preferred_trans a b c : preferred a b -> preferred b c -> preferred a c.
Proof. unfold preferred. lia. Qed.

Lemma preferred_refl a : preferred a a.
Proof. unfold preferred. lia. Qed.

Lemma best_of_replace slots i best best_rank c :
  best_of slots i best best_rank -> slots !! i = Some c -> reservable c ->
  (match best with Some b => forall cb, slots !! b = Some cb -> preferred c cb | NULL => True end) ->
  best_of slots (S i) (Some i) (rank c).
Proof.
  intros Hb Hi Hr Hp. exists c. split_and!; [lia|done..|].
  intros j c' Hj Hc' Hr'. destruct (decide (j = i)) as [->|].
  { assert (c' = c) as -> by congruence. apply preferred_refl. }
  destruct best as [b|]; simpl in Hb; [|exfalso; eapply Hb; [|done|done]; lia].
  destruct Hb as (cb&?&Hcb&?&?&Hall). eapply preferred_trans; [by apply Hp|].
  eapply Hall; [|done|done]. lia.
Qed.

Lemma best_of_keep slots i b best_rank c cb :
  best_of slots i (Some b) best_rank -> slots !! i = Some c -> slots !! b = Some cb ->
  preferred cb c -> best_of slots (S i) (Some b) best_rank.
Proof.
  intros (cb'&?&Hcb'&?&?&Hall) Hi Hcb Hp. assert (cb' = cb) as -> by congruence.
  exists cb. split_and!; [lia|done..|]. intros j c' Hj Hc' Hr.
  destruct (decide (j = i)) as [->|]; [congruence|]. eapply Hall; [|done|done]. lia.
Qed.

Lemma reserve_loop_spec slots n i best best_rank :
  best_of slots i best best_rank ->
  exists best' best_rank',
    reserve_loop n i best best_rank (holding slots best) = (best', holding slots best') /\
    best_of slots (i + n) best' best_rank'.
Proof.
  revert i best best_rank. induction n as [|n IH]; intros i best best_rank Hb.
  { rewrite Nat.add_0_r. by exists best, best_rank. }
  replace (i + S n)%nat with (S i + n)%nat by lia. cbn [reserve_loop].
  assert (Hne : best <> Some i) by (intros ->; destruct Hb as (?&?&_); lia).
  assert (Hsame : holding slots best !! i = slots !! i)
    by (destruct best as [b|]; [|done]; simpl; rewrite set_lock_lookup, decide_False; congruence).
  rewrite Hsame. destruct (slots !! i) as [c|] eqn:Hi.
  2: { exists best, best_rank. split; [done|]. apply lookup_ge_None in Hi.
       destruct best as [b|]; simpl in *.
       - destruct Hb as (cb&?&?&?&?&Hall). exists cb. split_and!; [lia|done..|].
         intros j c' _ Hc'. pose proof (lookup_lt_Some _ _ _ Hc'). apply (Hall j); [lia|done].
       - intros j c' _ Hc'. pose proof (lookup_lt_Some _ _ _ Hc'). apply (Hb j); [lia|done]. }
  destruct (lock c) eqn:Hl.
  { apply IH. eapply best_of_skip; [done|done|]. intros [? _]. congruence. }
  assert (Hrel : set_lock i false (set_lock i true (holding slots best)) = holding slots best)
    by (by eapply set_lock_release; [rewrite Hsame|]).
  change (kfastblock_osd_conn_slot_reserve_rank_locked (Some c)) with (rank c).
  destruct (rank c =? U32_MAX) eqn:Hrk.
  { rewrite Hrel. apply IH. eapply best_of_skip; [done|done|].
    rewrite <- rank_reservable by done. apply Z.eqb_eq in Hrk. congruence. }
  apply Z.eqb_neq in Hrk. rewrite (rank_reservable c Hl) in Hrk.
  destruct best as [b|]; cbn [mbind option_bind].
  2: { apply (IH (S i) (Some i) (rank c)). by eapply best_of_replace. }
  pose proof Hb as (cb&Hbi&Hcb&_&Hrb&_).
  assert (Hget : set_lock i true (holding slots (Some b)) !! b = Some (cb <| lock := true |>)).
  { rewrite set_lock_lookup, decide_False by congruence. simpl.
    rewrite set_lock_lookup, decide_True by done. by rewrite Hcb. }
  rewrite Hget.
  pose proof (better_candidate_preferred c cb _ best_rank Hrb eq_refl) as Hpref.
  destruct (kfastblock_osd_conn_slot_better_candidate_locked _ _ _ _).
  - assert (set_lock b false (set_lock i true (holding slots (Some b))) = holding slots (Some i)) as ->.
    { pose proof Hb as (cb'&_&E&[Hlb _]&_). eapply set_lock_move; [congruence|exact E|done]. }
    apply IH. eapply best_of_replace; [done|done|done|]. simpl. intros cb' E. congruence.
  - rewrite Hrel. apply IH. by eapply best_of_keep.
Qed.

(** reserving a slot never takes one that is connected, being connected or
    locked by somebody else; among the rest it takes one of the best rank and,
    within the rank, of the lowest health score.  The slot comes back locked and
    in state [CONNECTING], all other slots are untouched, and the reservation
    fails only when no slot is free. *)
Theorem reserve_takes_best_idle_slot now slots :
  exists r slots',
    kfastblock_osd_conn_pool_reserve now (Some slots) (Z.of_nat (length slots)) = (r, Some slots') /\
    match r with
    | NULL => slots' = slots /\ Forall (fun c => ~ reservable c) slots
    | Some b => exists c,
        slots !! b = Some c /\ reservable c /\
        Forall (fun c' => reservable c' -> preferred c c') slots /\
        slots' = <[b := on_slot (kfastblock_osd_conn_slot_begin_connect_locked now)
                          (c <| lock := true |>)]> slots
    end.
Proof.
  unfold kfastblock_osd_conn_pool_reserve. rewrite Nat2Z.id.
  destruct (reserve_loop_spec slots (length slots) 0 NULL U32_MAX) as (best&rk&E&Hb);
    [intros j c Hj; lia|].
  simpl in E, Hb. rewrite E. destruct best as [b|]; eexists _, _; (split; [done|]); simpl in Hb.
  - destruct Hb as (c&_&Hc&Hr&_&Hall). exists c. split_and!; [done..| |].
    + apply Forall_lookup. intros j c' Hc'. eapply Hall; [|done]. by eapply lookup_lt_Some.
    + apply list_eq. intros j. unfold holding, set_lock.
      rewrite list_alter_alter_eq, list_lookup_alter. case_decide; subst.
      * rewrite list_lookup_insert_eq by (by eapply lookup_lt_Some). by rewrite Hc.
      * by rewrite list_lookup_insert_ne.
  - split; [done|]. apply Forall_lookup. intros j c Hc. eapply Hb; [|done]. by eapply lookup_lt_Some.
Qed.

(** ** Acquisition *)

Lemma acquire_loop_spec now l n slots :
  (length slots <= n)%nat ->
  match acquire_loop now (Some l) true n slots with
  | (NULL, slots') => slots' = slots /\
      Forall (fun c => lock c = true \/
        kfastblock_osd_conn_slot_matches_locked (Some c) (Some l) = false) slots
  | (Some (i, sk), slots') => exists c,
      slots !! i = Some c /\ lock c = false /\ sock c = sk /\ sk <> NULL /\
      kfastblock_osd_conn_slot_matches_locked (Some c) (Some l) = true /\
      slots' = <[i := on_slot (kfastblock_osd_conn_slot_note_reuse_locked now)
                        (c <| lock := true |>)]> slots
  end.
Proof.
  revert n. induction slots as [|c slots IH]; intros [|n] Hn; simpl in Hn; try lia; [done..|].
  cbn [acquire_loop]. specialize (IH n ltac:(lia)).
  destruct (lock c) eqn:Hl; cbn [andb].
  - destruct (acquire_loop now (Some l) true n slots) as [[[i sk]|] slots']; simpl.
    + destruct IH as (c'&?&?&?&?&?&->). by exists c'.
    + destruct IH as [-> ?]. split; [done|]. constructor; [by left|done].
  - assert (Hm : kfastblock_osd_conn_slot_matches_locked (Some (c <| lock := true |>)) (Some l)
      = kfastblock_osd_conn_slot_matches_locked (Some c) (Some l)) by done.
    rewrite Hm. destruct (kfastblock_osd_conn_slot_matches_locked (Some c) (Some l)) eqn:Hmc.
    + exists c. split_and!; try done. intros E. cbn in E, Hmc. rewrite E in Hmc. discriminate Hmc.
    + assert (c <| lock := true |> <| lock := false |> = c) as Hc
        by (destruct c; simpl in *; by subst).
      destruct (acquire_loop now (Some l) true n slots) as [[[i sk]|] slots']; rewrite Hc; simpl.
      * destruct IH as (c'&?&?&?&?&?&->). by exists c'.
      * destruct IH as [-> ?]. split; [done|]. constructor; [by right|done].
Qed.

(** acquiring without blocking returns a connected slot of exactly the
    requested endpoint, locked by nobody before and by the caller now, with its
    socket; when it returns nothing, every slot of that endpoint was locked by
    somebody else, and nothing has changed. *)
Theorem try_acquire_matches now l slots out :
  match kfastblock_osd_conn_pool_try_acquire_match now (Some slots) (Z.of_nat (length slots))
          (Some l) (Some out) with
  | (Some i, Some slots', sk) => exists c s,
      slots !! i = Some c /\ lock c = false /\ connecting c = false /\
      osd_id c = Meta.leader_osd_id l /\ port c = Meta.leader_port l /\
      address c = Meta.leader_address l /\ sock c = Some s /\ sk = Some (Some s) /\
      slots' = <[i := on_slot (kfastblock_osd_conn_slot_note_reuse_locked now)
                        (c <| lock := true |>)]> slots
  | (NULL, slots', sk) => slots' = Some slots /\ sk = Some NULL /\
      Forall (fun c => lock c = true \/
        kfastblock_osd_conn_slot_matches_locked (Some c) (Some l) = false) slots
  | _ => False
  end.
Proof.
  unfold kfastblock_osd_conn_pool_try_acquire_match, kfastblock_osd_conn_pool_acquire_match_common.
  rewrite Nat2Z.id. pose proof (acquire_loop_spec now l (length slots) slots ltac:(lia)) as Hs.
  destruct (acquire_loop now (Some l) true (length slots) slots) as [[[i sk]|] slots'].
  - destruct Hs as (c&Hc&Hl&<-&Hne&Hm&->). destruct (sock c) as [s|] eqn:Hsk; [|done].
    exists c, s. simpl in Hm. rewrite Hsk in Hm. simpl in Hm.
    destruct (connecting c) eqn:?; [done|]. unfold streq in Hm.
    rewrite !andb_true_iff, !Z.eqb_eq, bool_decide_eq_true in Hm. naive_solver.
  - by destruct Hs as [-> ?].
Qed.

(** ** Snapshot *)

Definition in_state (st : Z) (c : kfastblock_cached_socket) : bool := state c =? st.

Definition sum_health (l : list kfastblock_cached_socket) : Z :=
  foldr (fun c n => health_score c + n) 0 l.

(** What the accounting loop has computed after the slots [l]. *)
Record accounted (s : kfastblock_conn_pool_snapshot) (l : list kfastblock_cached_socket) : Prop := {
  acc_empty : empty_slots s = count_if (in_state KFASTBLOCK_CONN_STATE_EMPTY) l;
  acc_connecting : connecting_slots s = count_if (in_state KFASTBLOCK_CONN_STATE_CONNECTING) l;
  acc_ready : ready_slots s = count_if (in_state KFASTBLOCK_CONN_STATE_READY) l;
  acc_backoff : backoff_slots s = count_if (in_state KFASTBLOCK_CONN_STATE_BACKOFF) l;
  acc_sockets : active_sockets s = count_if (fun c => has_sock (sock c)) l;
  acc_sum : avg_health_score s = sum_health l;
  acc_min : min_health_score s <= U32_MAX /\
            Forall (fun c => min_health_score s <= health_score c) l;
  acc_max : 0 <= max_health_score s <= 100 /\
            Forall (fun c => health_score c <= max_health_score s) l;
}.

Lemma sum_health_app l1 l2 : sum_health (l1 ++ l2) = sum_health l1 + sum_health l2.
Proof. induction l1 as [|c l IH]; simpl; lia. Qed.

Lemma sum_health_range l lo hi :
  Forall (fun c => lo <= health_score c) l -> Forall (fun c => health_score c <= hi) l ->
  lo * Z.of_nat (length l) <= sum_health l <= hi * Z.of_nat (length l).
Proof.
  induction l as [|c l IH]; intros Hlo Hhi; simpl; [lia|].
  apply Forall_cons in Hlo as [? ?], Hhi as [? ?]. specialize (IH ltac:(done) ltac:(done)). lia.
Qed.

(** The counters are not touched by the later steps. *)
Lemma account_slot_counts s c :
  exists s', account_slot (Some s) c = Some s' /\
    let s1 := account_state (state c) s in
    total_slots s' = total_slots s1 /\ empty_slots s' = empty_slots s1 /\
    connecting_slots s' = connecting_slots s1 /\ ready_slots s' = ready_slots s1 /\
    backoff_slots s' = backoff_slots s1 /\
    active_sockets s' = active_sockets (account_sock (sock c) s1).
Proof.
  eexists. split; [reflexivity|]. cbv zeta.
  unfold account_use. repeat case_match; cbn;
    unfold account_health; repeat case_match; cbn;
    unfold account_sock; repeat case_match; done.
Qed.

Lemma account_slot_health s c :
  exists s', account_slot (Some s) c = Some s' /\
    min_health_score s' = Z.min (min_health_score s) (health_score c) /\
    max_health_score s' = Z.max (max_health_score s) (health_score c) /\
    avg_health_score s' = u32 (avg_health_score s + health_score c).
Proof.
  eexists. split; [reflexivity|].
  set (s1 := account_sums _ _ _ _ _).
  assert (min_health_score s1 = min_health_score s /\ max_health_score s1 = max_health_score s /\
    avg_health_score s1 = avg_health_score s) as (E1&E2&E3).
  { subst s1. cbn. unfold account_sock. destruct (has_sock _); cbn;
      unfold account_state; repeat case_match; done. }
  clearbody s1. rewrite <- E1, <- E2, <- E3. clear E1 E2 E3.
  unfold account_use. repeat case_match; cbn;
    unfold account_health; repeat case_match; unbool; cbn in *; repeat split; lia.
Qed.

Lemma account_slot_step s l c :
  accounted s l -> slot_wf c -> Forall slot_wf l ->
  Z.of_nat (length l) < 2 ^ 24 ->
  exists s', account_slot (Some s) c = Some s' /\ accounted s' (l ++ [c]) /\
    total_slots s' = total_slots s.
Proof.
  intros Ha Hc Hl Hlen.
  assert (Hsum : 0 <= sum_health l <= 100 * Z.of_nat (length l)).
  { destruct (sum_health_range l 0 100); [| |lia];
      (eapply Forall_impl; [exact Hl|]); intros c' Hwf; apply (wf_health c' Hwf). }
  pose proof (wf_health c Hc) as Hh.
  assert (Hcount : forall p, u32 (count_if p l + 1) = count_if p l + 1).
  { intros p0. pose proof (count_if_nonneg p0 l). pose proof (count_if_le_length p0 l).
    apply u32_small. lia. }
  destruct Ha as [A1 A2 A3 A4 A5 A6 [A7 A7'] [A8 A8']].
  destruct (account_slot_counts s c) as (s'&E&B0&B1&B2&B3&B4&B5).
  destruct (account_slot_health s c) as (s''&E'&B6&B7&B8).
  rewrite E in E'. injection E' as <-. exists s'. split; [done|].
  split; [|rewrite B0; unfold account_state; by repeat case_match].
  split; rewrite ?count_if_app, ?count_if_cons, ?count_if_nil, ?sum_health_app.
  1-5: rewrite ?B1, ?B2, ?B3, ?B4, ?B5; unfold account_sock, account_state, in_state,
      KFASTBLOCK_CONN_STATE_EMPTY, KFASTBLOCK_CONN_STATE_CONNECTING,
      KFASTBLOCK_CONN_STATE_READY, KFASTBLOCK_CONN_STATE_BACKOFF, Z.b2z in *;
    repeat case_match; unbool; cbn; rewrite ?A1, ?A2, ?A3, ?A4, ?A5, ?Hcount; cbn; lia.
  - rewrite B8, A6. cbn. rewrite u32_small; lia.
  - rewrite B6. split; [lia|]. apply Forall_app. split; [|constructor; [lia|constructor]].
    eapply Forall_impl; [exact A7'|]. cbn. lia.
  - rewrite B7. split; [lia|]. apply Forall_app. split; [|constructor; [lia|constructor]].
    eapply Forall_impl; [exact A8'|]. cbn. lia.
Qed.

Lemma account_slots s l1 l2 :
  accounted s l1 -> Forall slot_wf l1 -> Forall slot_wf l2 ->
  Z.of_nat (length (l1 ++ l2)) <= 2 ^ 24 ->
  exists s', foldl account_slot (Some s) l2 = Some s' /\ accounted s' (l1 ++ l2) /\
    total_slots s' = total_slots s.
Proof.
  revert s l1. induction l2 as [|c l2 IH]; intros s l1 Ha H1 H2 Hlen.
  { exists s. by rewrite app_nil_r. }
  apply Forall_cons in H2 as [Hc H2]. rewrite length_app in Hlen. simpl in Hlen. cbn [foldl].
  destruct (account_slot_step s l1 c Ha Hc H1) as (s'&->&Ha'&Ht); [lia|].
  destruct (IH s' (l1 ++ [c]) Ha') as (s2&E&Ha2&Ht2).
  - apply Forall_app. split; [done|]. by constructor.
  - done.
  - rewrite !length_app. simpl. lia.
  - exists s2. rewrite <- app_assoc in Ha2. split_and!; [done|done|congruence].
Qed.

(** a pool snapshot accounts for every slot: the four state counters add up
    to the number of slots, the socket counter counts the connected ones, and
    the average health lies between the reported minimum and maximum, which
    bound the score of every slot. *)
Theorem pool_snapshot_accounts slots s0 :
  Forall slot_wf slots -> 0 < Z.of_nat (length slots) <= 2 ^ 24 ->
  exists s,
    kfastblock_osd_conn_pool_snapshot (Some slots) (Z.of_nat (length slots)) (Some s0) = Some s /\
    empty_slots s + connecting_slots s + ready_slots s + backoff_slots s
      = Z.of_nat (length slots) /\
    active_sockets s = count_if (fun c => has_sock (sock c)) slots /\
    Forall (fun c => min_health_score s <= health_score c <= max_health_score s) slots /\
    min_health_score s <= avg_health_score s <= max_health_score s.
Proof.
  intros Hwf Hlen. unfold kfastblock_osd_conn_pool_snapshot. cbn [fmap option_fmap option_map
    kfastblock_conn_pool_snapshot_init].
  rewrite Nat2Z.id, firstn_all.
  match goal with |- context [foldl account_slot (Some ?s1) _] =>
    destruct (account_slots s1 [] slots) as (s&->&Ha&Ht) end; [| done | done | simpl; lia |].
  { split; try done; simpl; split; (done || lia || constructor). }
  simpl in Ha, Ht. destruct Ha as [A1 A2 A3 A4 A5 A6 [A7 A7'] [A8 A8']].
  destruct slots as [|c0 slots]; [simpl in Hlen; lia|]. set (l := c0 :: slots) in *.
  assert (Hmin : min_health_score s <= 100).
  { apply Forall_cons in A7' as [? _], Hwf as [Hwf _]. pose proof (wf_health c0 Hwf). lia. }
  eexists. split; [reflexivity|].
  assert ((min_health_score s =? U32_MAX) = false) as -> by (apply Z.eqb_neq; unfold U32_MAX; lia).
  unfold truthy. rewrite Ht. rewrite (proj2 (Z.eqb_neq _ _)) by lia.
  clearbody l. cbn -[Z.of_nat length Z.add].
  split; [|split; [exact A5|split]].
  - rewrite A1, A2, A3, A4. clear -Hwf. induction l as [|c l IH]; [done|].
    apply Forall_cons in Hwf as [Hc Hwf]. specialize (IH Hwf).
    rewrite !count_if_cons. pose proof (wf_state c Hc) as Hst.
    unfold in_state, KFASTBLOCK_CONN_STATE_EMPTY, KFASTBLOCK_CONN_STATE_CONNECTING,
      KFASTBLOCK_CONN_STATE_READY, KFASTBLOCK_CONN_STATE_BACKOFF, Z.b2z in *.
    cbn [length]. repeat case_match; unbool; lia.
  - apply Forall_and. done.
  - rewrite A6. destruct (sum_health_range l _ _ A7' A8') as [Hlo Hhi].
    split; [apply Z.div_le_lower_bound; lia | apply Z.div_le_upper_bound; lia].
Qed.

End with_clock.

(** ** Concrete runs *)

Definition fresh_slot : kfastblock_cached_socket :=
  {| osd_id := 0; port := 0; address := EmptyString; sock := NULL; lock := false;
     mux_waiters := []; connecting := false; mux_initialized := false; mux_dead := false;
     next_seq := 0; mux_inflight := 0; fail_streak := 0; last_error := 0;
     last_failure_jiffies := 0; backoff_until_jiffies := 0; last_connect_jiffies := 0;
     last_use_jiffies := 0; connect_attempts := 0; reuse_hits := 0; success_count := 0;
     failure_count := 0; health_score := 50; state := KFASTBLOCK_CONN_STATE_EMPTY |}.

Definition blank_snapshot : kfastblock_conn_pool_snapshot :=
  {| total_slots := 0; empty_slots := 0; connecting_slots := 0; ready_slots := 0;
     backoff_slots := 0; active_sockets := 0; min_health_score := 0; max_health_score := 0;
     avg_health_score := 0; snap_connect_attempts := 0; snap_reuse_hits := 0;
     snap_success_count := 0; snap_failure_count := 0; oldest_last_use_jiffies := 0;
     newest_last_use_jiffies := 0 |}.

Definition some_leader : Meta.kfastblock_leader_info :=
  {| Meta.leader_osd_id := 10; Meta.leader_port := 9000; Meta.leader_address := "10.0.0.1" |}.

(** The oldest time of use is not the oldest one once a slot that was never used
    follows a used one: 0 is taken for "none yet" and the next slot overwrites
    it. *)
Theorem snapshot_forgets_oldest_use :
  exists s,
    kfastblock_osd_conn_pool_snapshot
      (Some [fresh_slot <| last_use_jiffies := 100 |>; fresh_slot;
             fresh_slot <| last_use_jiffies := 200 |>]) 3 (Some blank_snapshot) = Some s /\
    oldest_last_use_jiffies s = 200.
Proof. eexists. split; [reflexivity|]. vm_compute. reflexivity. Qed.

Lemma backoff_interval_bounded_witness :
  @kfastblock_conn_backoff_interval clock_hz1000 7 <= 3000.
Proof.
  apply (@backoff_interval_bounded clock_hz1000 clock_hz1000_laws 1 7). lia.
Defined.

Lemma failure_backs_off_witness :
  exists c',
    @kfastblock_osd_conn_slot_mark_failure_locked clock_hz1000 1000 (Some fresh_slot)
      (Some some_leader) (- ECONNREFUSED) = (100, Some c') /\
    kfastblock_osd_conn_slot_backoff_active_locked (u64 (1000 + 60)) (Some c')
      (Some some_leader) (Some 0) = (- EAGAIN, Some 40).
Proof.
  destruct (@kfastblock_osd_conn_slot_mark_failure_locked clock_hz1000 1000 (Some fresh_slot)
      (Some some_leader) (- ECONNREFUSED)) as [n [c'|]] eqn:E; [|discriminate E].
  assert (n = 100) as -> by (vm_compute in E; congruence).
  exists c'. split; [reflexivity|].
  apply (@failure_backs_off clock_hz1000 clock_hz1000_laws 1000 60 fresh_slot some_leader
    (- ECONNREFUSED) c' 100 0); [simpl; lia | reflexivity | by apply Nat.ltb_lt | exact E | | lia].
  vm_compute. congruence.
Defined.

Lemma next_seq_increases_witness :
  exists c1 c2,
    kfastblock_osd_conn_slot_next_seq_locked 5 (Some fresh_slot) = (1, Some c1) /\
    kfastblock_osd_conn_slot_next_seq_locked 6 (Some c1) = (2, Some c2) /\ 2 = 1 + 1.
Proof.
  eexists _, _. split; [reflexivity|]. split; [reflexivity|].
  eapply (next_seq_increases 5 6 fresh_slot 1 _ 2); [simpl; lia | reflexivity | reflexivity].
Defined.

Lemma pool_snapshot_accounts_witness :
  exists s,
    kfastblock_osd_conn_pool_snapshot (Some [fresh_slot; fresh_slot]) 2 (Some blank_snapshot)
      = Some s /\
    empty_slots s + connecting_slots s + ready_slots s + backoff_slots s = 2.
Proof.
  destruct (pool_snapshot_accounts [fresh_slot; fresh_slot] blank_snapshot) as (s&E&?&_).
  - repeat constructor; simpl; done.
  - simpl. lia.
  - by exists s.
Defined.

End Connpool.
