(* ===== verification/Volume.v ===== *)
(** * The volume: state, accounting and events (kfastblock/src/volume.c, first part)

    One [kfastblock_volume] per attached image.  This file has the struct and
    the part of volume.c that every other component calls: counters, the health
    state, the ring of recent events, the pipeline statistics, the count of
    requests in flight and the gate of the request queue.  The metadata refresh,
    the sysfs operations and the life cycle are in the file VolumeOps.

    The struct is kept without its locks, its device model objects and the
    diagnostics baseline.  Calls into the block layer and the workqueues have no
    state in the model: they are recorded in [kernel_calls], newest first. *)

From S2P Require Import Prelude Meta Pipeline Fault Buffer Scheduler Connpool.

Import (hints) Meta Pipeline Fault Buffer Scheduler Connpool.

Module Volume.

Definition KFASTBLOCK_MAX_SOCKET_CACHE : Z := 16.
Definition KFASTBLOCK_MAX_MONITORS : Z := 8.
Definition KFASTBLOCK_MAX_VOLUME_EVENTS : Z := 128.

(** [enum kfastblock_volume_event_type] *)
Definition KFASTBLOCK_VOLUME_EVENT_ATTACH_READY : Z := 1.
Definition KFASTBLOCK_VOLUME_EVENT_QUEUE_PAUSE : Z := 2.
Definition KFASTBLOCK_VOLUME_EVENT_QUEUE_RESUME : Z := 3.
Definition KFASTBLOCK_VOLUME_EVENT_METADATA_STALE : Z := 4.
Definition KFASTBLOCK_VOLUME_EVENT_CLUSTER_REFRESH_FAIL : Z := 5.
Definition KFASTBLOCK_VOLUME_EVENT_IMAGE_REFRESH_FAIL : Z := 6.
Definition KFASTBLOCK_VOLUME_EVENT_LEADER_QUERY_FAIL : Z := 7.
Definition KFASTBLOCK_VOLUME_EVENT_OBJECT_DONE : Z := 8.
Definition KFASTBLOCK_VOLUME_EVENT_OBJECT_RETRY : Z := 9.
Definition KFASTBLOCK_VOLUME_EVENT_OBJECT_ERROR : Z := 10.
Definition KFASTBLOCK_VOLUME_EVENT_REFRESH_KICK : Z := 11.
Definition KFASTBLOCK_VOLUME_EVENT_LEADER_INVALIDATE : Z := 12.
Definition KFASTBLOCK_VOLUME_EVENT_OSD_SOCKET_DROP : Z := 13.
Definition KFASTBLOCK_VOLUME_EVENT_MONITOR_SOCKET_DROP : Z := 14.
Definition KFASTBLOCK_VOLUME_EVENT_HEALTH_CHANGE : Z := 15.
Definition KFASTBLOCK_VOLUME_EVENT_SOCKET_BACKOFF : Z := 16.
Definition KFASTBLOCK_VOLUME_EVENT_MANUAL_REFRESH : Z := 17.
Definition KFASTBLOCK_VOLUME_EVENT_MANUAL_RESET_BACKOFF : Z := 18.
Definition KFASTBLOCK_VOLUME_EVENT_MANUAL_DROP_TRANSPORT : Z := 19.
Definition KFASTBLOCK_VOLUME_EVENT_MANUAL_RESET_LEADERS : Z := 20.
Definition KFASTBLOCK_VOLUME_EVENT_MANUAL_QUEUE_PAUSE : Z := 21.
Definition KFASTBLOCK_VOLUME_EVENT_MANUAL_QUEUE_RESUME : Z := 22.
Definition KFASTBLOCK_VOLUME_EVENT_SOCKET_BACKOFF_WAIT : Z := 23.
Definition KFASTBLOCK_VOLUME_EVENT_MANUAL_FAULT_INJECTION_ARM : Z := 24.
Definition KFASTBLOCK_VOLUME_EVENT_MANUAL_FAULT_INJECTION_RESET : Z := 25.
Definition KFASTBLOCK_VOLUME_EVENT_FAULT_INJECTION_TRIGGER : Z := 26.

(** [enum kfastblock_volume_health_state] *)
Definition KFASTBLOCK_VOLUME_HEALTH_UNKNOWN : Z := 0.
Definition KFASTBLOCK_VOLUME_HEALTH_READY : Z := 1.
Definition KFASTBLOCK_VOLUME_HEALTH_DEGRADED : Z := 2.
Definition KFASTBLOCK_VOLUME_HEALTH_STALE : Z := 3.

(** [enum kfastblock_volume_failure_source] *)
Definition KFASTBLOCK_VOLUME_SOURCE_NONE : Z := 0.
Definition KFASTBLOCK_VOLUME_SOURCE_ATTACH : Z := 1.
Definition KFASTBLOCK_VOLUME_SOURCE_QUEUE_GATE : Z := 2.
Definition KFASTBLOCK_VOLUME_SOURCE_CLUSTER_REFRESH : Z := 3.
Definition KFASTBLOCK_VOLUME_SOURCE_IMAGE_REFRESH : Z := 4.
Definition KFASTBLOCK_VOLUME_SOURCE_LEADER_QUERY : Z := 5.
Definition KFASTBLOCK_VOLUME_SOURCE_OBJECT_IO : Z := 6.
Definition KFASTBLOCK_VOLUME_SOURCE_MONITOR_SOCKET : Z := 7.
Definition KFASTBLOCK_VOLUME_SOURCE_OSD_SOCKET : Z := 8.

(** The block layer's [enum req_op]. *)
Definition REQ_OP_READ : Z := 0.
Definition REQ_OP_WRITE : Z := 1.
Definition REQ_OP_FLUSH : Z := 2.
Definition REQ_OP_DISCARD : Z := 3.
Definition REQ_OP_WRITE_ZEROES : Z := 9.
Definition REQ_OP_LAST : Z := 36.

Definition BLK_STS_OK : Z := 0.
Definition BLK_STS_RESOURCE : Z := 9.
Definition BLK_STS_IOERR : Z := 10.

(** Calls into the kernel that the volume makes. *)
Inductive kernel_call :=
| blk_mq_quiesce_queue
| blk_mq_unquiesce_queue
| set_capacity_and_notify (sectors : Z)
| set_disk_ro (ro : bool)
| blk_queue_logical_block_size (size : Z)
| blk_queue_max_hw_sectors (sectors : Z)
| blk_queue_max_segment_size (size : Z)
| blk_queue_max_segments (n : Z)
| blk_queue_write_cache (wc fua : bool)
| blk_queue_io_opt (size : Z)
| blk_queue_chunk_sectors (sectors : Z)
| blk_queue_max_discard_sectors (sectors : Z)
| blk_queue_max_write_zeroes_sectors (sectors : Z)
| blk_queue_max_discard_segments (n : Z)
| limits_discard_granularity (size : Z)
| limits_discard_alignment (n : Z)
| mod_delayed_work (delay : Z)
| cancel_delayed_work_sync
| wake_up_all
| blk_mq_end_request (status : Z)
| del_gendisk
| put_disk
| device_unregister.

(** [struct gendisk] as the driver looks at it: whether it has a queue. *)
Record gendisk := { has_queue : bool }.

(** ** Data *)

Record kfastblock_volume_stats := {
  st_io_submitted : Z;
  st_io_completed : Z;
  st_io_failed : Z;
  st_read_requests : Z;
  st_write_requests : Z;
  st_discard_requests : Z;
  st_flush_requests : Z;
  st_write_zeroes_requests : Z;
  st_read_bytes : Z;
  st_write_bytes : Z;
  st_discard_bytes : Z;
  st_queue_pause_events : Z;
  st_queue_resume_events : Z;
  st_metadata_stale_events : Z;
  st_cluster_refresh_ok : Z;
  st_cluster_refresh_fail : Z;
  st_image_refresh_ok : Z;
  st_image_refresh_fail : Z;
  st_leader_query_ok : Z;
  st_leader_query_fail : Z;
  st_object_io_completed : Z;
  st_object_io_retries : Z;
  st_object_io_errors : Z;
  st_refresh_kicks : Z;
  st_leader_invalidations : Z;
  st_osd_socket_drops : Z;
  st_monitor_socket_drops : Z;
  st_osd_backoff_hits : Z;
  st_monitor_backoff_hits : Z;
  st_osd_backoff_waits : Z;
  st_monitor_backoff_waits : Z;
  st_manual_refreshes : Z;
  st_manual_reset_backoffs : Z;
  st_manual_transport_drops : Z;
  st_manual_leader_resets : Z;
  st_manual_queue_pauses : Z;
  st_manual_queue_resumes : Z;
}.

#[export] Instance eta_volume_stats : Eta kfastblock_volume_stats := fun x =>
  {| st_io_submitted := st_io_submitted x; st_io_completed := st_io_completed x; 
     st_io_failed := st_io_failed x; st_read_requests := st_read_requests x; 
     st_write_requests := st_write_requests x; st_discard_requests := st_discard_requests x; 
     st_flush_requests := st_flush_requests x; 
     st_write_zeroes_requests := st_write_zeroes_requests x; 
     st_read_bytes := st_read_bytes x; st_write_bytes := st_write_bytes x; 
     st_discard_bytes := st_discard_bytes x; 
     st_queue_pause_events := st_queue_pause_events x; 
     st_queue_resume_events := st_queue_resume_events x; 
     st_metadata_stale_events := st_metadata_stale_events x; 
     st_cluster_refresh_ok := st_cluster_refresh_ok x; 
     st_cluster_refresh_fail := st_cluster_refresh_fail x; 
     st_image_refresh_ok := st_image_refresh_ok x; 
     st_image_refresh_fail := st_image_refresh_fail x; 
     st_leader_query_ok := st_leader_query_ok x; 
     st_leader_query_fail := st_leader_query_fail x; 
     st_object_io_completed := st_object_io_completed x; 
     st_object_io_retries := st_object_io_retries x; 
     st_object_io_errors := st_object_io_errors x; st_refresh_kicks := st_refresh_kicks x; 
     st_leader_invalidations := st_leader_invalidations x; 
     st_osd_socket_drops := st_osd_socket_drops x; 
     st_monitor_socket_drops := st_monitor_socket_drops x; 
     st_osd_backoff_hits := st_osd_backoff_hits x; 
     st_monitor_backoff_hits := st_monitor_backoff_hits x; 
     st_osd_backoff_waits := st_osd_backoff_waits x; 
     st_monitor_backoff_waits := st_monitor_backoff_waits x; 
     st_manual_refreshes := st_manual_refreshes x; 
     st_manual_reset_backoffs := st_manual_reset_backoffs x; 
     st_manual_transport_drops := st_manual_transport_drops x; 
     st_manual_leader_resets := st_manual_leader_resets x; 
     st_manual_queue_pauses := st_manual_queue_pauses x; 
     st_manual_queue_resumes := st_manual_queue_resumes x |}.

Definition zero_stats : kfastblock_volume_stats :=
  {| st_io_submitted := 0; st_io_completed := 0; st_io_failed := 0; st_read_requests := 0;
     st_write_requests := 0; st_discard_requests := 0; st_flush_requests := 0;
     st_write_zeroes_requests := 0; st_read_bytes := 0; st_write_bytes := 0;
     st_discard_bytes := 0; st_queue_pause_events := 0; st_queue_resume_events := 0;
     st_metadata_stale_events := 0; st_cluster_refresh_ok := 0;
     st_cluster_refresh_fail := 0; st_image_refresh_ok := 0; st_image_refresh_fail := 0;
     st_leader_query_ok := 0; st_leader_query_fail := 0; st_object_io_completed := 0;
     st_object_io_retries := 0; st_object_io_errors := 0; st_refresh_kicks := 0;
     st_leader_invalidations := 0; st_osd_socket_drops := 0; st_monitor_socket_drops := 0;
     st_osd_backoff_hits := 0; st_monitor_backoff_hits := 0; st_osd_backoff_waits := 0;
     st_monitor_backoff_waits := 0; st_manual_refreshes := 0; st_manual_reset_backoffs := 0;
     st_manual_transport_drops := 0; st_manual_leader_resets := 0;
     st_manual_queue_pauses := 0; st_manual_queue_resumes := 0 |}.

Record kfastblock_volume_pipeline_stats := {
  ps_request_prepares : Z;
  ps_request_cleanups : Z;
  ps_dispatch_batches : Z;
  ps_queued_objects : Z;
  ps_retry_objects : Z;
  ps_completed_objects : Z;
  ps_failed_objects : Z;
  ps_cancelled_objects : Z;
  ps_seq_records : Z;
  ps_last_response_status : Z;
  ps_last_response_body_len : Z;
  ps_last_transport_flags : Z;
}.

#[export] Instance eta_pipeline_stats : Eta kfastblock_volume_pipeline_stats := fun x =>
  {| ps_request_prepares := ps_request_prepares x; 
     ps_request_cleanups := ps_request_cleanups x; 
     ps_dispatch_batches := ps_dispatch_batches x; ps_queued_objects := ps_queued_objects x; 
     ps_retry_objects := ps_retry_objects x; ps_completed_objects := ps_completed_objects x; 
     ps_failed_objects := ps_failed_objects x; 
     ps_cancelled_objects := ps_cancelled_objects x; ps_seq_records := ps_seq_records x; 
     ps_last_response_status := ps_last_response_status x; 
     ps_last_response_body_len := ps_last_response_body_len x; 
     ps_last_transport_flags := ps_last_transport_flags x |}.

Definition zero_pipeline_stats : kfastblock_volume_pipeline_stats :=
  {| ps_request_prepares := 0; ps_request_cleanups := 0; ps_dispatch_batches := 0;
     ps_queued_objects := 0; ps_retry_objects := 0; ps_completed_objects := 0;
     ps_failed_objects := 0; ps_cancelled_objects := 0; ps_seq_records := 0;
     ps_last_response_status := 0; ps_last_response_body_len := 0;
     ps_last_transport_flags := 0 |}.

Record kfastblock_volume_health := {
  h_state : Z;
  h_last_failure_source : Z;
  h_last_errno : Z;
  h_state_since_jiffies : Z;
  h_last_failure_jiffies : Z;
  h_last_success_jiffies : Z;
}.

#[export] Instance eta_health : Eta kfastblock_volume_health := fun x =>
  {| h_state := h_state x; h_last_failure_source := h_last_failure_source x; 
     h_last_errno := h_last_errno x; h_state_since_jiffies := h_state_since_jiffies x; 
     h_last_failure_jiffies := h_last_failure_jiffies x; 
     h_last_success_jiffies := h_last_success_jiffies x |}.

Record kfastblock_volume_event := {
  ev_jiffies : Z;
  ev_ret : Z;
  ev_type : Z;
  ev_pg_id : Z;
  ev_osd_id : Z;
  ev_arg0 : Z;
  ev_arg1 : Z;
  ev_op : Z;
}.

#[export] Instance eta_event : Eta kfastblock_volume_event := fun x =>
  {| ev_jiffies := ev_jiffies x; ev_ret := ev_ret x; ev_type := ev_type x; 
     ev_pg_id := ev_pg_id x; ev_osd_id := ev_osd_id x; ev_arg0 := ev_arg0 x; 
     ev_arg1 := ev_arg1 x; ev_op := ev_op x |}.

Definition zero_event : kfastblock_volume_event :=
  {| ev_jiffies := 0; ev_ret := 0; ev_type := 0; ev_pg_id := 0; ev_osd_id := 0;
     ev_arg0 := 0; ev_arg1 := 0; ev_op := 0 |}.

Record kfastblock_volume_event_log := {
  next_index : Z;
  count : Z;
  entries : list kfastblock_volume_event;
}.

#[export] Instance eta_event_log : Eta kfastblock_volume_event_log := fun l =>
  {| next_index := next_index l; count := count l; entries := entries l |}.

(** include/kfastblock/selfcheck.h *)
Record kfastblock_selfcheck_state := {
  sc_last_run_jiffies : Z;
  sc_run_count : Z;
  sc_failure_runs : Z;
  sc_warning_runs : Z;
  sc_last_errno : Z;
  sc_last_failed_checks : Z;
  sc_last_warning_checks : Z;
  sc_last_flags : Z;
}.

#[export] Instance eta_selfcheck : Eta kfastblock_selfcheck_state := fun x =>
  {| sc_last_run_jiffies := sc_last_run_jiffies x; sc_run_count := sc_run_count x; 
     sc_failure_runs := sc_failure_runs x; sc_warning_runs := sc_warning_runs x; 
     sc_last_errno := sc_last_errno x; sc_last_failed_checks := sc_last_failed_checks x; 
     sc_last_warning_checks := sc_last_warning_checks x; sc_last_flags := sc_last_flags x |}.

Record kfastblock_volume := {
  dev_id : Z;
  disk : ptr gendisk;
  open_count : Z;
  ready : Z;
  inflight_ios : Z;
  spec : Meta.kfastblock_attach_spec;
  view : Meta.kfastblock_cluster_view;
  stats : kfastblock_volume_stats;
  pipeline_stats : kfastblock_volume_pipeline_stats;
  health : kfastblock_volume_health;
  event_log : kfastblock_volume_event_log;
  selfcheck : kfastblock_selfcheck_state;
  fault_injection : Fault.kfastblock_fault_injection_state;
  pipeline_snapshot : Pipeline.kfastblock_pipeline_snapshot_t;
  object_buffer_pool : Buffer.kfastblock_object_buffer_pool;
  scheduler : Scheduler.kfastblock_scheduler_controller;
  flush_in_progress : bool;
  queue_paused : bool;
  manual_queue_pause : bool;
  dispatch_window : Z;
  refresh_interval_ms : Z;
  image_refresh_interval_ms : Z;
  socket_cache : list Connpool.kfastblock_cached_socket;
  monitor_cache : list Connpool.kfastblock_cached_monitor_socket;
  kernel_calls : list kernel_call;
}.

#[export] Instance eta_volume : Eta kfastblock_volume := fun x =>
  {| dev_id := dev_id x; disk := disk x; open_count := open_count x; ready := ready x; 
     inflight_ios := inflight_ios x; spec := spec x; view := view x; stats := stats x; 
     pipeline_stats := pipeline_stats x; health := health x; event_log := event_log x; 
     selfcheck := selfcheck x; fault_injection := fault_injection x; 
     pipeline_snapshot := pipeline_snapshot x; object_buffer_pool := object_buffer_pool x; 
     scheduler := scheduler x; flush_in_progress := flush_in_progress x; 
     queue_paused := queue_paused x; manual_queue_pause := manual_queue_pause x; 
     dispatch_window := dispatch_window x; refresh_interval_ms := refresh_interval_ms x; 
     image_refresh_interval_ms := image_refresh_interval_ms x; 
     socket_cache := socket_cache x; monitor_cache := monitor_cache x; 
     kernel_calls := kernel_calls x |}.

(** A volume as [kzalloc] returns it. *)
Definition zero_volume : kfastblock_volume :=
  {| dev_id := 0; disk := NULL; open_count := 0; ready := 0; inflight_ios := 0;
     spec := {| Meta.monitor_addr := NULL; Meta.spec_pool_name := NULL;
                Meta.spec_image_name := NULL; Meta.spec_read_only := false;
                Meta.debug_size_bytes := 0; Meta.debug_object_size := 0;
                Meta.debug_pool_id := 0; Meta.debug_pg_count := 0; Meta.nr_monitors := 0;
                Meta.monitors := [] |};
     view := Meta.zero_view; stats := zero_stats; pipeline_stats := zero_pipeline_stats;
     health := {| h_state := 0; h_last_failure_source := 0; h_last_errno := 0;
                  h_state_since_jiffies := 0; h_last_failure_jiffies := 0;
                  h_last_success_jiffies := 0 |};
     event_log := {| next_index := 0; count := 0;
                     entries := replicate (Z.to_nat KFASTBLOCK_MAX_VOLUME_EVENTS) zero_event |};
     selfcheck := {| sc_last_run_jiffies := 0; sc_run_count := 0; sc_failure_runs := 0;
                     sc_warning_runs := 0; sc_last_errno := 0; sc_last_failed_checks := 0;
                     sc_last_warning_checks := 0; sc_last_flags := 0 |};
     fault_injection :=
       {| Fault.mask := 0; Fault.errno_value := 0; Fault.budget := 0; Fault.arm_count := 0;
          Fault.reset_count := 0; Fault.hit_count := 0; Fault.skip_count := 0;
          Fault.last_arm_jiffies := 0; Fault.last_reset_jiffies := 0;
          Fault.last_trigger_jiffies := 0; Fault.last_site := 0; Fault.last_errno := 0;
          Fault.enabled := false |};
     pipeline_snapshot := Pipeline.empty_snapshot;
     object_buffer_pool :=
       {| Buffer.free_list := []; Buffer.cached := 0; Buffer.max_cached := 0;
          Buffer.chunk_bytes := 0; Buffer.cache_hits := 0; Buffer.cache_misses := 0;
          Buffer.cache_returns := 0; Buffer.cache_evictions := 0; Buffer.direct_allocs := 0 |};
     scheduler := Scheduler.zero_controller;
     flush_in_progress := false; queue_paused := false; manual_queue_pause := false;
     dispatch_window := 0; refresh_interval_ms := 0; image_refresh_interval_ms := 0;
     socket_cache := replicate (Z.to_nat KFASTBLOCK_MAX_SOCKET_CACHE)
       {| Connpool.osd_id := 0; Connpool.port := 0; Connpool.address := EmptyString;
          Connpool.sock := NULL; Connpool.lock := false; Connpool.mux_waiters := [];
          Connpool.connecting := false; Connpool.mux_initialized := false;
          Connpool.mux_dead := false; Connpool.next_seq := 0; Connpool.mux_inflight := 0;
          Connpool.fail_streak := 0; Connpool.last_error := 0;
          Connpool.last_failure_jiffies := 0; Connpool.backoff_until_jiffies := 0;
          Connpool.last_connect_jiffies := 0; Connpool.last_use_jiffies := 0;
          Connpool.connect_attempts := 0; Connpool.reuse_hits := 0;
          Connpool.success_count := 0; Connpool.failure_count := 0;
          Connpool.health_score := 0; Connpool.state := 0 |};
     monitor_cache := replicate (Z.to_nat KFASTBLOCK_MAX_MONITORS)
       {| Connpool.mon_port := 0; Connpool.mon_address := EmptyString;
          Connpool.mon_sock := NULL; Connpool.mon_lock := false; Connpool.mon_next_seq := 0;
          Connpool.mon_fail_streak := 0; Connpool.mon_last_error := 0;
          Connpool.mon_last_failure_jiffies := 0; Connpool.mon_backoff_until_jiffies := 0;
          Connpool.mon_last_connect_jiffies := 0; Connpool.mon_last_use_jiffies := 0;
          Connpool.mon_connect_attempts := 0; Connpool.mon_reuse_hits := 0;
          Connpool.mon_success_count := 0; Connpool.mon_failure_count := 0;
          Connpool.mon_health_score := 0; Connpool.mon_state := 0 |};
     kernel_calls := [] |}.

(** ** Names *)

Definition kfastblock_volume_event_type_name (type : Z) : string :=
  if type =? KFASTBLOCK_VOLUME_EVENT_ATTACH_READY then "attach_ready"
  else if type =? KFASTBLOCK_VOLUME_EVENT_QUEUE_PAUSE then "queue_pause"
  else if type =? KFASTBLOCK_VOLUME_EVENT_QUEUE_RESUME then "queue_resume"
  else if type =? KFASTBLOCK_VOLUME_EVENT_METADATA_STALE then "metadata_stale"
  else if type =? KFASTBLOCK_VOLUME_EVENT_CLUSTER_REFRESH_FAIL then "cluster_refresh_fail"
  else if type =? KFASTBLOCK_VOLUME_EVENT_IMAGE_REFRESH_FAIL then "image_refresh_fail"
  else if type =? KFASTBLOCK_VOLUME_EVENT_LEADER_QUERY_FAIL then "leader_query_fail"
  else if type =? KFASTBLOCK_VOLUME_EVENT_OBJECT_DONE then "object_done"
  else if type =? KFASTBLOCK_VOLUME_EVENT_OBJECT_RETRY then "object_retry"
  else if type =? KFASTBLOCK_VOLUME_EVENT_OBJECT_ERROR then "object_error"
  else if type =? KFASTBLOCK_VOLUME_EVENT_REFRESH_KICK then "refresh_kick"
  else if type =? KFASTBLOCK_VOLUME_EVENT_LEADER_INVALIDATE then "leader_invalidate"
  else if type =? KFASTBLOCK_VOLUME_EVENT_OSD_SOCKET_DROP then "osd_socket_drop"
  else if type =? KFASTBLOCK_VOLUME_EVENT_MONITOR_SOCKET_DROP then "monitor_socket_drop"
  else if type =? KFASTBLOCK_VOLUME_EVENT_HEALTH_CHANGE then "health_change"
  else if type =? KFASTBLOCK_VOLUME_EVENT_SOCKET_BACKOFF then "socket_backoff"
  else if type =? KFASTBLOCK_VOLUME_EVENT_MANUAL_REFRESH then "manual_refresh"
  else if type =? KFASTBLOCK_VOLUME_EVENT_MANUAL_RESET_BACKOFF then "manual_reset_backoff"
  else if type =? KFASTBLOCK_VOLUME_EVENT_MANUAL_DROP_TRANSPORT then "manual_drop_transport"
  else if type =? KFASTBLOCK_VOLUME_EVENT_MANUAL_RESET_LEADERS then "manual_reset_leaders"
  else if type =? KFASTBLOCK_VOLUME_EVENT_MANUAL_QUEUE_PAUSE then "manual_queue_pause"
  else if type =? KFASTBLOCK_VOLUME_EVENT_MANUAL_QUEUE_RESUME then "manual_queue_resume"
  else if type =? KFASTBLOCK_VOLUME_EVENT_SOCKET_BACKOFF_WAIT then "socket_backoff_wait"
  else if type =? KFASTBLOCK_VOLUME_EVENT_MANUAL_FAULT_INJECTION_ARM then "manual_fault_injection_arm"
  else if type =? KFASTBLOCK_VOLUME_EVENT_MANUAL_FAULT_INJECTION_RESET then "manual_fault_injection_reset"
  else if type =? KFASTBLOCK_VOLUME_EVENT_FAULT_INJECTION_TRIGGER then "fault_injection_trigger"
  else "unknown".

Definition kfastblock_volume_req_op_name (op : Z) : string :=
  if op =? REQ_OP_READ then "read"
  else if op =? REQ_OP_WRITE then "write"
  else if op =? REQ_OP_FLUSH then "flush"
  else if op =? REQ_OP_DISCARD then "discard"
  else if op =? REQ_OP_WRITE_ZEROES then "write_zeroes"
  else "other".

Definition kfastblock_volume_health_state_name (st : Z) : string :=
  if st =? KFASTBLOCK_VOLUME_HEALTH_READY then "ready"
  else if st =? KFASTBLOCK_VOLUME_HEALTH_DEGRADED then "degraded"
  else if st =? KFASTBLOCK_VOLUME_HEALTH_STALE then "stale"
  else "unknown".

Definition kfastblock_volume_failure_source_name (source : Z) : string :=
  if source =? KFASTBLOCK_VOLUME_SOURCE_ATTACH then "attach"
  else if source =? KFASTBLOCK_VOLUME_SOURCE_QUEUE_GATE then "queue_gate"
  else if source =? KFASTBLOCK_VOLUME_SOURCE_CLUSTER_REFRESH then "cluster_refresh"
  else if source =? KFASTBLOCK_VOLUME_SOURCE_IMAGE_REFRESH then "image_refresh"
  else if source =? KFASTBLOCK_VOLUME_SOURCE_LEADER_QUERY then "leader_query"
  else if source =? KFASTBLOCK_VOLUME_SOURCE_OBJECT_IO then "object_io"
  else if source =? KFASTBLOCK_VOLUME_SOURCE_MONITOR_SOCKET then "monitor_socket"
  else if source =? KFASTBLOCK_VOLUME_SOURCE_OSD_SOCKET then "osd_socket"
  else "none".

(** [(u32)vol->view.sync_state] *)
Definition sync_state_number (s : Meta.kfastblock_meta_sync_state) : Z :=
  match s with
  | Meta.KFASTBLOCK_META_SYNC_NEW => 0
  | Meta.KFASTBLOCK_META_SYNC_STALE => 1
  | Meta.KFASTBLOCK_META_SYNC_READY => 2
  end.

(** ** Events and health *)

(** The part of [record_event] under the lock of the log. *)
Definition event_log_add (event : kfastblock_volume_event) (l : kfastblock_volume_event_log)
    : kfastblock_volume_event_log :=
  let l := l <| entries ::= <[Z.to_nat (next_index l) := event]> |>
             <| next_index ::= fun n => u32 (n + 1) mod KFASTBLOCK_MAX_VOLUME_EVENTS |> in
  if count l <? KFASTBLOCK_MAX_VOLUME_EVENTS then l <| count ::= fun n => n + 1 |> else l.

Definition kfastblock_volume_record_event (now : Z) (vol : ptr kfastblock_volume)
    (type ret op pg_id osd_id arg0 arg1 : Z) : ptr kfastblock_volume :=
  (fun v =>
    v <| event_log ::= event_log_add
           {| ev_jiffies := now; ev_ret := ret; ev_type := type; ev_pg_id := pg_id;
              ev_osd_id := osd_id; ev_arg0 := arg0; ev_arg1 := arg1; ev_op := u8 op |} |>)
  <$> vol.

Definition kfastblock_volume_events_count (vol : ptr kfastblock_volume) : Z :=
  from_option (fun v => count (event_log v)) 0 vol.

Definition kfastblock_volume_update_health (now : Z) (vol : ptr kfastblock_volume)
    (new_state source ret : Z) : ptr kfastblock_volume :=
  match vol with
  | NULL => NULL
  | Some v =>
      let old_state := h_state (health v) in
      let v := if truthy ret
               then v <| health ::= fun h => h <| h_last_errno := ret |>
                                               <| h_last_failure_source := source |>
                                               <| h_last_failure_jiffies := now |> |>
               else v in
      if new_state =? old_state then Some v
      else
        let v := v <| health ::= fun h => h <| h_state := new_state |>
                                            <| h_state_since_jiffies := now |> |> in
        kfastblock_volume_record_event now (Some v) KFASTBLOCK_VOLUME_EVENT_HEALTH_CHANGE
          ret REQ_OP_FLUSH 0 0 old_state new_state
  end.

Definition kfastblock_volume_mark_success (now : Z) (vol : ptr kfastblock_volume) (source : Z)
    : ptr kfastblock_volume :=
  match vol with
  | NULL => NULL
  | Some v =>
      let v := v <| health ::= fun h => h <| h_last_success_jiffies := now |> |> in
      if ready v =? 0 then Some v
      else if negb (Meta.kfastblock_meta_io_ready (Some (view v))) || queue_paused v then
        kfastblock_volume_update_health now (Some v) KFASTBLOCK_VOLUME_HEALTH_STALE
          (or_else source KFASTBLOCK_VOLUME_SOURCE_QUEUE_GATE) (- ESTALE)
      else
        kfastblock_volume_update_health now (Some v) KFASTBLOCK_VOLUME_HEALTH_READY source 0
  end.

Definition kfastblock_volume_stats_init (now : Z) (vol : ptr kfastblock_volume)
    : ptr kfastblock_volume :=
  (fun v =>
    v <| stats := zero_stats |>
      <| pipeline_stats := zero_pipeline_stats |>
      <| pipeline_snapshot := Pipeline.empty_snapshot |>
      <| event_log := {| next_index := 0; count := 0;
                         entries := replicate (Z.to_nat KFASTBLOCK_MAX_VOLUME_EVENTS) zero_event |} |>
      <| health := {| h_state := KFASTBLOCK_VOLUME_HEALTH_UNKNOWN;
                      h_last_failure_source := KFASTBLOCK_VOLUME_SOURCE_NONE;
                      h_last_errno := 0; h_state_since_jiffies := now;
                      h_last_failure_jiffies := 0; h_last_success_jiffies := 0 |} |>) <$> vol.

(** [atomic64_inc(&vol->stats.f)] and [atomic64_inc(&vol->pipeline_stats.f)] *)
Abbreviation stats_inc f := (fun v => v <| stats ::= fun s => s <| f ::= atomic64_inc |> |>).
Abbreviation pipeline_inc f := (fun v => v <| pipeline_stats ::= fun s => s <| f ::= atomic64_inc |> |>).

(** ** Pipeline statistics *)

Definition kfastblock_volume_account_pipeline_prepare (vol : ptr kfastblock_volume) :=
  pipeline_inc ps_request_prepares <$> vol.

Definition kfastblock_volume_account_pipeline_cleanup (vol : ptr kfastblock_volume) :=
  pipeline_inc ps_request_cleanups <$> vol.

Definition kfastblock_volume_account_pipeline_dispatch_batch (vol : ptr kfastblock_volume)
    (nr_objects : Z) : ptr kfastblock_volume :=
  (fun v =>
    if nr_objects =? 0 then v
    else v <| pipeline_stats ::= fun s => s <| ps_dispatch_batches ::= atomic64_inc |>
                                            <| ps_queued_objects ::= atomic64_add nr_objects |> |>)
  <$> vol.

Definition kfastblock_volume_account_pipeline_retry (vol : ptr kfastblock_volume) :=
  pipeline_inc ps_retry_objects <$> vol.

Definition kfastblock_volume_account_pipeline_complete (vol : ptr kfastblock_volume)
    (failed : bool) : ptr kfastblock_volume :=
  (fun v =>
    let v := v <| pipeline_stats ::= fun s => s <| ps_completed_objects ::= atomic64_inc |> |> in
    if failed
    then v <| pipeline_stats ::= fun s => s <| ps_failed_objects ::= atomic64_inc |> |>
    else v) <$> vol.

Definition kfastblock_volume_account_pipeline_cancel (vol : ptr kfastblock_volume)
    (nr_objects : Z) : ptr kfastblock_volume :=
  (fun v =>
    if nr_objects =? 0 then v
    else v <| pipeline_stats ::= fun s => s <| ps_cancelled_objects ::= atomic64_add nr_objects |> |>)
  <$> vol.

Definition kfastblock_volume_account_pipeline_seq (vol : ptr kfastblock_volume) :=
  pipeline_inc ps_seq_records <$> vol.

Definition kfastblock_volume_account_pipeline_response (vol : ptr kfastblock_volume)
    (status body_len flags : Z) : ptr kfastblock_volume :=
  (fun v =>
    v <| pipeline_stats ::= fun s => s <| ps_last_response_status := status |>
                                       <| ps_last_response_body_len := s32 body_len |>
                                       <| ps_last_transport_flags := s32 flags |> |>) <$> vol.

Definition kfastblock_volume_pipeline_last_response_status (vol : ptr kfastblock_volume) : Z :=
  from_option (fun v => ps_last_response_status (pipeline_stats v)) 0 vol.
Definition kfastblock_volume_pipeline_last_response_body_len (vol : ptr kfastblock_volume) : Z :=
  from_option (fun v => u32 (ps_last_response_body_len (pipeline_stats v))) 0 vol.
Definition kfastblock_volume_pipeline_last_transport_flags (vol : ptr kfastblock_volume) : Z :=
  from_option (fun v => u32 (ps_last_transport_flags (pipeline_stats v))) 0 vol.

Definition kfastblock_volume_get_pipeline_snapshot (vol : ptr kfastblock_volume)
    (snapshot : ptr Pipeline.kfastblock_pipeline_snapshot_t)
    : ptr Pipeline.kfastblock_pipeline_snapshot_t :=
  match vol, snapshot with
  | Some v, Some _ => Some (pipeline_snapshot v)
  | _, _ => snapshot
  end.

(** A getter that reads one field of the stored snapshot. *)
Definition pipeline_snapshot_field (f : Pipeline.kfastblock_pipeline_snapshot_t -> Z)
    (vol : ptr kfastblock_volume) : Z :=
  match vol with
  | NULL => 0
  | Some _ => from_option f 0
      (kfastblock_volume_get_pipeline_snapshot vol (Some Pipeline.empty_snapshot))
  end.

Definition kfastblock_volume_pipeline_capacity :=
  pipeline_snapshot_field Pipeline.snap_capacity.
Definition kfastblock_volume_pipeline_inflight_entries :=
  pipeline_snapshot_field Pipeline.snap_inflight.
Definition kfastblock_volume_pipeline_peak_inflight :=
  pipeline_snapshot_field Pipeline.snap_peak_inflight.
Definition kfastblock_volume_pipeline_free_entries :=
  pipeline_snapshot_field Pipeline.snap_free_entries.
Definition kfastblock_volume_pipeline_utilization_pct :=
  pipeline_snapshot_field (fun s =>
    if Pipeline.snap_capacity s =? 0 then 0
    else Z.min 100 (u32 (Pipeline.snap_inflight s * 100) / Pipeline.snap_capacity s)).
Definition kfastblock_volume_pipeline_oldest_inflight_seq :=
  pipeline_snapshot_field Pipeline.oldest_inflight_seq.
Definition kfastblock_volume_pipeline_newest_inflight_seq :=
  pipeline_snapshot_field Pipeline.newest_inflight_seq.
Definition kfastblock_volume_pipeline_oldest_queued_jiffies :=
  pipeline_snapshot_field Pipeline.oldest_queued_jiffies.
Definition kfastblock_volume_pipeline_newest_queued_jiffies :=
  pipeline_snapshot_field Pipeline.newest_queued_jiffies.

Definition kfastblock_volume_update_pipeline_snapshot (vol : ptr kfastblock_volume)
    (state : ptr Pipeline.kfastblock_pipeline_state) : ptr kfastblock_volume :=
  match vol, state with
  | Some v, Some _ =>
      Some (v <| pipeline_snapshot :=
        default Pipeline.empty_snapshot
          (Pipeline.kfastblock_pipeline_snapshot state (Some Pipeline.empty_snapshot)) |>)
  | _, _ => vol
  end.

Definition kfastblock_volume_reset_pipeline_snapshot (vol : ptr kfastblock_volume) :=
  (fun v => v <| pipeline_snapshot := Pipeline.empty_snapshot |>) <$> vol.

(** ** I/O statistics *)

Definition kfastblock_volume_account_io_submit (vol : ptr kfastblock_volume) (op bytes : Z)
    : ptr kfastblock_volume :=
  (fun v =>
    v <| stats ::= fun s =>
      let s := s <| st_io_submitted ::= atomic64_inc |> in
      if op =? REQ_OP_READ then
        s <| st_read_requests ::= atomic64_inc |> <| st_read_bytes ::= atomic64_add bytes |>
      else if op =? REQ_OP_WRITE then
        s <| st_write_requests ::= atomic64_inc |> <| st_write_bytes ::= atomic64_add bytes |>
      else if op =? REQ_OP_DISCARD then
        s <| st_discard_requests ::= atomic64_inc |> <| st_discard_bytes ::= atomic64_add bytes |>
      else if op =? REQ_OP_WRITE_ZEROES then
        s <| st_write_zeroes_requests ::= atomic64_inc |>
          <| st_discard_bytes ::= atomic64_add bytes |>
      else if op =? REQ_OP_FLUSH then s <| st_flush_requests ::= atomic64_inc |>
      else s |>) <$> vol.

Definition kfastblock_volume_account_io_complete (vol : ptr kfastblock_volume) (ret : Z)
    : ptr kfastblock_volume :=
  (if truthy ret then stats_inc st_io_failed else stats_inc st_io_completed) <$> vol.

Definition kfastblock_volume_account_object_success (now : Z) (vol : ptr kfastblock_volume)
    (op pg_id osd_id length : Z) : ptr kfastblock_volume :=
  kfastblock_volume_record_event now (stats_inc st_object_io_completed <$> vol)
    KFASTBLOCK_VOLUME_EVENT_OBJECT_DONE 0 op pg_id osd_id length 0.

Definition kfastblock_volume_account_object_retry (now : Z) (vol : ptr kfastblock_volume)
    (op pg_id osd_id length ret : Z) : ptr kfastblock_volume :=
  let vol := stats_inc st_object_io_retries <$> vol in
  let vol := kfastblock_volume_record_event now vol
               KFASTBLOCK_VOLUME_EVENT_OBJECT_RETRY ret op pg_id osd_id length 0 in
  kfastblock_volume_update_health now vol KFASTBLOCK_VOLUME_HEALTH_DEGRADED
    KFASTBLOCK_VOLUME_SOURCE_OBJECT_IO ret.

Definition kfastblock_volume_account_object_error (now : Z) (vol : ptr kfastblock_volume)
    (op pg_id osd_id length ret : Z) : ptr kfastblock_volume :=
  let vol := stats_inc st_object_io_errors <$> vol in
  let vol := kfastblock_volume_record_event now vol
               KFASTBLOCK_VOLUME_EVENT_OBJECT_ERROR ret op pg_id osd_id length 0 in
  kfastblock_volume_update_health now vol KFASTBLOCK_VOLUME_HEALTH_DEGRADED
    KFASTBLOCK_VOLUME_SOURCE_OBJECT_IO ret.

Definition kfastblock_volume_account_leader_query (now : Z) (vol : ptr kfastblock_volume)
    (pg_id osd_id ret : Z) : ptr kfastblock_volume :=
  match vol with
  | NULL => NULL
  | Some v =>
      if truthy ret then
        let vol := Some (stats_inc st_leader_query_fail v) in
        let vol := kfastblock_volume_record_event now vol
                     KFASTBLOCK_VOLUME_EVENT_LEADER_QUERY_FAIL ret REQ_OP_FLUSH pg_id osd_id
                     (u32 (Meta.leader_epoch (view v))) 0 in
        kfastblock_volume_update_health now vol KFASTBLOCK_VOLUME_HEALTH_DEGRADED
          KFASTBLOCK_VOLUME_SOURCE_LEADER_QUERY ret
      else
        kfastblock_volume_mark_success now (Some (stats_inc st_leader_query_ok v))
          KFASTBLOCK_VOLUME_SOURCE_LEADER_QUERY
  end.

Definition kfastblock_volume_account_cluster_refresh (now : Z) (vol : ptr kfastblock_volume)
    (ret : Z) : ptr kfastblock_volume :=
  match vol with
  | NULL => NULL
  | Some v =>
      if truthy ret then
        let vol := Some (stats_inc st_cluster_refresh_fail v) in
        let vol := kfastblock_volume_record_event now vol
                     KFASTBLOCK_VOLUME_EVENT_CLUSTER_REFRESH_FAIL ret REQ_OP_FLUSH 0 0
                     (u32 (Meta.osdmap_epoch (view v))) (u32 (Meta.pgmap_epoch (view v))) in
        kfastblock_volume_update_health now vol KFASTBLOCK_VOLUME_HEALTH_DEGRADED
          KFASTBLOCK_VOLUME_SOURCE_CLUSTER_REFRESH ret
      else
        kfastblock_volume_mark_success now (Some (stats_inc st_cluster_refresh_ok v))
          KFASTBLOCK_VOLUME_SOURCE_CLUSTER_REFRESH
  end.

Definition kfastblock_volume_account_image_refresh (now : Z) (vol : ptr kfastblock_volume)
    (ret : Z) : ptr kfastblock_volume :=
  match vol with
  | NULL => NULL
  | Some v =>
      if truthy ret then
        let vol := Some (stats_inc st_image_refresh_fail v) in
        let vol := kfastblock_volume_record_event now vol
                     KFASTBLOCK_VOLUME_EVENT_IMAGE_REFRESH_FAIL ret REQ_OP_FLUSH 0 0
                     (u32 (Meta.image_epoch (view v))) (Meta.object_size (Meta.image (view v))) in
        kfastblock_volume_update_health now vol KFASTBLOCK_VOLUME_HEALTH_DEGRADED
          KFASTBLOCK_VOLUME_SOURCE_IMAGE_REFRESH ret
      else
        kfastblock_volume_mark_success now (Some (stats_inc st_image_refresh_ok v))
          KFASTBLOCK_VOLUME_SOURCE_IMAGE_REFRESH
  end.

Definition kfastblock_volume_account_metadata_stale (now : Z) (vol : ptr kfastblock_volume)
    : ptr kfastblock_volume :=
  match vol with
  | NULL => NULL
  | Some v =>
      let vol := Some (stats_inc st_metadata_stale_events v) in
      let vol := kfastblock_volume_record_event now vol
                   KFASTBLOCK_VOLUME_EVENT_METADATA_STALE (- ESTALE) REQ_OP_FLUSH 0 0
                   (sync_state_number (Meta.sync_state (view v)))
                   (u32 (Meta.pgmap_epoch (view v))) in
      kfastblock_volume_update_health now vol KFASTBLOCK_VOLUME_HEALTH_STALE
        KFASTBLOCK_VOLUME_SOURCE_CLUSTER_REFRESH (- ESTALE)
  end.

Definition kfastblock_volume_account_refresh_kick (now : Z) (vol : ptr kfastblock_volume)
    (pg_id ret : Z) : ptr kfastblock_volume :=
  match vol with
  | NULL => NULL
  | Some v =>
      let vol := Some (stats_inc st_refresh_kicks v) in
      let vol := kfastblock_volume_record_event now vol
                   KFASTBLOCK_VOLUME_EVENT_REFRESH_KICK ret REQ_OP_FLUSH pg_id 0
                   (sync_state_number (Meta.sync_state (view v)))
                   (u32 (Meta.pgmap_epoch (view v))) in
      kfastblock_volume_update_health now vol KFASTBLOCK_VOLUME_HEALTH_DEGRADED
        KFASTBLOCK_VOLUME_SOURCE_QUEUE_GATE ret
  end.

Definition kfastblock_volume_account_leader_invalidate (now : Z) (vol : ptr kfastblock_volume)
    (pg_id ret : Z) : ptr kfastblock_volume :=
  match vol with
  | NULL => NULL
  | Some v =>
      let vol := Some (stats_inc st_leader_invalidations v) in
      let vol := kfastblock_volume_record_event now vol
                   KFASTBLOCK_VOLUME_EVENT_LEADER_INVALIDATE ret REQ_OP_FLUSH pg_id 0
                   (u32 (Meta.leader_epoch (view v))) (u32 (Meta.osdmap_epoch (view v))) in
      kfastblock_volume_update_health now vol KFASTBLOCK_VOLUME_HEALTH_DEGRADED
        KFASTBLOCK_VOLUME_SOURCE_LEADER_QUERY ret
  end.

Definition kfastblock_volume_account_socket_drop (now : Z) (vol : ptr kfastblock_volume)
    (monitor_socket : bool) (osd_id port ret : Z) : ptr kfastblock_volume :=
  if monitor_socket then
    let vol := stats_inc st_monitor_socket_drops <$> vol in
    let vol := kfastblock_volume_record_event now vol
                 KFASTBLOCK_VOLUME_EVENT_MONITOR_SOCKET_DROP ret REQ_OP_FLUSH 0 0 port 0 in
    kfastblock_volume_update_health now vol KFASTBLOCK_VOLUME_HEALTH_DEGRADED
      KFASTBLOCK_VOLUME_SOURCE_MONITOR_SOCKET ret
  else
    let vol := stats_inc st_osd_socket_drops <$> vol in
    let vol := kfastblock_volume_record_event now vol
                 KFASTBLOCK_VOLUME_EVENT_OSD_SOCKET_DROP ret REQ_OP_FLUSH 0 osd_id port 0 in
    kfastblock_volume_update_health now vol KFASTBLOCK_VOLUME_HEALTH_DEGRADED
      KFASTBLOCK_VOLUME_SOURCE_OSD_SOCKET ret.

Definition kfastblock_volume_account_socket_backoff `{Clock} (now : Z)
    (vol : ptr kfastblock_volume) (monitor_socket : bool)
    (osd_id port fail_streak backoff_jiffies ret : Z) : ptr kfastblock_volume :=
  let vol := (if monitor_socket then stats_inc st_monitor_backoff_hits
              else stats_inc st_osd_backoff_hits) <$> vol in
  let vol := kfastblock_volume_record_event now vol
               KFASTBLOCK_VOLUME_EVENT_SOCKET_BACKOFF ret REQ_OP_FLUSH fail_streak osd_id
               port (jiffies_to_msecs backoff_jiffies) in
  kfastblock_volume_update_health now vol KFASTBLOCK_VOLUME_HEALTH_DEGRADED
    (if monitor_socket then KFASTBLOCK_VOLUME_SOURCE_MONITOR_SOCKET
     else KFASTBLOCK_VOLUME_SOURCE_OSD_SOCKET) ret.

Definition kfastblock_volume_account_socket_backoff_wait `{Clock} (now : Z)
    (vol : ptr kfastblock_volume) (monitor_socket : bool)
    (osd_id port remaining_jiffies ret : Z) : ptr kfastblock_volume :=
  let vol := (if monitor_socket then stats_inc st_monitor_backoff_waits
              else stats_inc st_osd_backoff_waits) <$> vol in
  let vol := kfastblock_volume_record_event now vol
               KFASTBLOCK_VOLUME_EVENT_SOCKET_BACKOFF_WAIT ret REQ_OP_FLUSH 0 osd_id
               port (jiffies_to_msecs remaining_jiffies) in
  kfastblock_volume_update_health now vol KFASTBLOCK_VOLUME_HEALTH_DEGRADED
    (if monitor_socket then KFASTBLOCK_VOLUME_SOURCE_MONITOR_SOCKET
     else KFASTBLOCK_VOLUME_SOURCE_OSD_SOCKET) ret.

Definition kfastblock_volume_account_fault_injection (now : Z) (vol : ptr kfastblock_volume)
    (site ret : Z) : ptr kfastblock_volume :=
  let failure_source :=
    if (site =? Fault.KFASTBLOCK_FAULT_MONITOR_CONNECT)
       || (site =? Fault.KFASTBLOCK_FAULT_MONITOR_FETCH_IMAGE)
       || (site =? Fault.KFASTBLOCK_FAULT_MONITOR_FETCH_CLUSTER)
    then KFASTBLOCK_VOLUME_SOURCE_MONITOR_SOCKET
    else if (site =? Fault.KFASTBLOCK_FAULT_OSD_CONNECT)
            || (site =? Fault.KFASTBLOCK_FAULT_OBJECT_IO)
    then KFASTBLOCK_VOLUME_SOURCE_OSD_SOCKET
    else if site =? Fault.KFASTBLOCK_FAULT_LEADER_QUERY
    then KFASTBLOCK_VOLUME_SOURCE_LEADER_QUERY
    else KFASTBLOCK_VOLUME_SOURCE_QUEUE_GATE in
  let vol := kfastblock_volume_record_event now vol
               KFASTBLOCK_VOLUME_EVENT_FAULT_INJECTION_TRIGGER ret REQ_OP_FLUSH 0 0 site 0 in
  kfastblock_volume_update_health now vol KFASTBLOCK_VOLUME_HEALTH_DEGRADED failure_source ret.

(** ** Events file of debugfs *)

(** The copy of the ring, oldest first. *)
Definition events_snapshot (l : kfastblock_volume_event_log) (count' : Z)
    : list kfastblock_volume_event :=
  let start := u32 (next_index l + KFASTBLOCK_MAX_VOLUME_EVENTS - count') mod
               KFASTBLOCK_MAX_VOLUME_EVENTS in
  omap (fun i => (entries l).[ u32 (start + i) mod KFASTBLOCK_MAX_VOLUME_EVENTS ])
       (seqZ 0 count').

Definition event_line (i : Z) (e : kfastblock_volume_event) : string :=
  "idx=" +:+ pretty i +:+ " jiffies=" +:+ pretty (ev_jiffies e)
  +:+ " type=" +:+ kfastblock_volume_event_type_name (ev_type e)
  +:+ " ret=" +:+ pretty (ev_ret e)
  +:+ " op=" +:+ kfastblock_volume_req_op_name (ev_op e)
  +:+ " pg_id=" +:+ pretty (ev_pg_id e) +:+ " osd_id=" +:+ pretty (ev_osd_id e)
  +:+ " arg0=" +:+ pretty (ev_arg0 e) +:+ " arg1=" +:+ pretty (ev_arg1 e).

(** The result and the lines printed; [alloc_ok] is the outcome of [kcalloc]. *)
Definition kfastblock_volume_events_show (alloc_ok : bool) (vol : ptr kfastblock_volume)
    : Z * list string :=
  match vol with
  | NULL => (- ENODEV, [])
  | Some v =>
      let count' := kfastblock_volume_events_count vol in
      if count' =? 0 then (0, [])
      else if negb alloc_ok then (- ENOMEM, [])
      else
        let count' := if count' >? count (event_log v) then count (event_log v) else count' in
        (0, zip_with event_line (seqZ 0 count') (events_snapshot (event_log v) count'))
  end.

(** ** Requests in flight *)

Definition kernel (c : kernel_call) (v : kfastblock_volume) : kfastblock_volume :=
  v <| kernel_calls ::= cons c |>.

Definition KFASTBLOCK_DEFAULT_REFRESH_INTERVAL_MS : Z := 3000.
Definition KFASTBLOCK_DEFAULT_IMAGE_REFRESH_INTERVAL_MS : Z := 30000.

Definition kfastblock_volume_refresh_interval `{Clock} (vol : ptr kfastblock_volume) : Z :=
  msecs_to_jiffies
    (match vol with
     | Some v => or_else (refresh_interval_ms v) KFASTBLOCK_DEFAULT_REFRESH_INTERVAL_MS
     | NULL => KFASTBLOCK_DEFAULT_REFRESH_INTERVAL_MS
     end).

Definition kfastblock_volume_image_refresh_interval `{Clock} (vol : ptr kfastblock_volume) : Z :=
  msecs_to_jiffies
    (match vol with
     | Some v => or_else (image_refresh_interval_ms v)
                         KFASTBLOCK_DEFAULT_IMAGE_REFRESH_INTERVAL_MS
     | NULL => KFASTBLOCK_DEFAULT_IMAGE_REFRESH_INTERVAL_MS
     end).

Definition kfastblock_volume_schedule_refresh `{Clock} (vol : ptr kfastblock_volume)
    : ptr kfastblock_volume :=
  (fun v => if ready v =? 0 then v
            else kernel (mod_delayed_work (kfastblock_volume_refresh_interval vol)) v) <$> vol.

Definition kfastblock_volume_kick_refresh (vol : ptr kfastblock_volume) : ptr kfastblock_volume :=
  (fun v => if ready v =? 0 then v else kernel (mod_delayed_work 0) v) <$> vol.

Definition kfastblock_volume_get_io (vol : ptr kfastblock_volume) : ptr kfastblock_volume :=
  (fun v => v <| inflight_ios ::= atomic_add 1 |>) <$> vol.

Definition kfastblock_volume_put_io (vol : ptr kfastblock_volume) : ptr kfastblock_volume :=
  (fun v =>
    let v := v <| inflight_ios ::= atomic_add (-1) |> in
    if inflight_ios v =? 0 then kernel wake_up_all v else v) <$> vol.

Definition kfastblock_volume_begin_flush (vol : ptr kfastblock_volume)
    : Z * ptr kfastblock_volume :=
  match vol with
  | NULL => (- EINVAL, NULL)
  | Some v => if flush_in_progress v then (- EBUSY, vol)
              else (0, Some (v <| flush_in_progress := true |>))
  end.

Definition kfastblock_volume_end_flush (vol : ptr kfastblock_volume) : ptr kfastblock_volume :=
  (fun v => v <| flush_in_progress := false |>) <$> vol.

(** [wait] is what the sleeping thread finds: the jiffies that
    [wait_event_timeout] returns and the count of requests in flight then. *)
Definition kfastblock_volume_drain_io (wait : Z -> Z * Z) (vol : ptr kfastblock_volume)
    (timeout_jiffies : Z) : Z * ptr kfastblock_volume :=
  match vol with
  | NULL => (- EINVAL, NULL)
  | Some v =>
      if inflight_ios v =? 0 then (0, vol)
      else
        let '(remaining, inflight) := wait timeout_jiffies in
        let vol := Some (v <| inflight_ios := inflight |>) in
        if truthy remaining || (inflight =? 0) then (0, vol) else (- ETIMEDOUT, vol)
  end.

(** [rq] is whether the request pointer is set. *)
Definition kfastblock_volume_handle_flush `{Clock} (now : Z) (wait : Z -> Z * Z)
    (vol : ptr kfastblock_volume) (rq : bool) : Z * ptr kfastblock_volume :=
  if negb (bool_decide (is_Some vol)) || negb rq
  then (BLK_STS_IOERR, kernel (blk_mq_end_request BLK_STS_IOERR) <$> vol)
  else
    let '(ret, vol) := kfastblock_volume_begin_flush vol in
    if truthy ret
    then (BLK_STS_RESOURCE, kernel (blk_mq_end_request BLK_STS_RESOURCE) <$> vol)
    else
      let vol := kfastblock_volume_account_io_submit vol REQ_OP_FLUSH 0 in
      let '(ret, vol) := kfastblock_volume_drain_io wait vol (msecs_to_jiffies 5000) in
      let vol := kfastblock_volume_end_flush vol in
      let vol := kfastblock_volume_account_io_complete vol ret in
      let vol := if truthy ret then vol
                 else kfastblock_volume_mark_success now vol KFASTBLOCK_VOLUME_SOURCE_OBJECT_IO in
      let status := if truthy ret then BLK_STS_RESOURCE else BLK_STS_OK in
      (status, kernel (blk_mq_end_request status) <$> vol).

(** ** The queue gate *)

Definition kfastblock_volume_should_pause_queue (vol : ptr kfastblock_volume) : bool :=
  match vol with
  | NULL => true
  | Some v =>
      if ready v =? 0 then true
      else manual_queue_pause v || negb (Meta.kfastblock_meta_io_ready (Some (view v)))
  end.

Definition kfastblock_volume_set_manual_queue_pause_locked (now : Z)
    (vol : ptr kfastblock_volume) (pause : bool) : ptr kfastblock_volume :=
  match vol with
  | NULL => NULL
  | Some v =>
      if Bool.eqb (manual_queue_pause v) pause then vol
      else
        let v := v <| manual_queue_pause := pause |> in
        let sync := sync_state_number (Meta.sync_state (view v)) in
        if pause then
          kfastblock_volume_record_event now (Some (stats_inc st_manual_queue_pauses v))
            KFASTBLOCK_VOLUME_EVENT_MANUAL_QUEUE_PAUSE 0 REQ_OP_FLUSH 0 0 sync 0
        else
          kfastblock_volume_record_event now (Some (stats_inc st_manual_queue_resumes v))
            KFASTBLOCK_VOLUME_EVENT_MANUAL_QUEUE_RESUME 0 REQ_OP_FLUSH 0 0 sync 0
  end.

(** [vol->disk && vol->disk->queue] *)
Definition disk_has_queue (v : kfastblock_volume) : bool :=
  from_option has_queue false (disk v).

Definition kfastblock_volume_update_queue_gate (now : Z) (vol : ptr kfastblock_volume)
    : ptr kfastblock_volume :=
  match vol with
  | NULL => NULL
  | Some v =>
      if negb (disk_has_queue v) then vol
      else
        let should_pause := kfastblock_volume_should_pause_queue vol in
        if Bool.eqb should_pause (queue_paused v) then vol
        else
          let sync := sync_state_number (Meta.sync_state (view v)) in
          if should_pause then
            let v := kernel blk_mq_quiesce_queue v <| queue_paused := true |> in
            let vol := kfastblock_volume_record_event now (Some (stats_inc st_queue_pause_events v))
                         KFASTBLOCK_VOLUME_EVENT_QUEUE_PAUSE 0 REQ_OP_FLUSH 0 0
                         sync (u32 (ready v)) in
            kfastblock_volume_update_health now vol KFASTBLOCK_VOLUME_HEALTH_STALE
              KFASTBLOCK_VOLUME_SOURCE_QUEUE_GATE (- ESTALE)
          else
            let v := kernel blk_mq_unquiesce_queue v <| queue_paused := false |> in
            let vol := kfastblock_volume_record_event now (Some (stats_inc st_queue_resume_events v))
                         KFASTBLOCK_VOLUME_EVENT_QUEUE_RESUME 0 REQ_OP_FLUSH 0 0
                         sync (u32 (ready v)) in
            kfastblock_volume_mark_success now vol KFASTBLOCK_VOLUME_SOURCE_QUEUE_GATE
  end.

(** ** Queue limits *)

Definition KFASTBLOCK_MAX_IO_BYTES : Z := 4 * 1024 * 1024.
Definition KFASTBLOCK_MAX_OBJECT_EXTENTS : Z := 128.
Definition KFASTBLOCK_DEFAULT_BLOCK_SIZE : Z := 4096.
Definition SECTOR_SHIFT : Z := 9.
Definition USHRT_MAX : Z := 65535.

(** The kernel's [round_down(x, y)] on [u64]: [x & ~(y - 1)]. *)
Definition round_down (x y : Z) : Z := Z.land x (Z.lnot (u64 (y - 1))).

Definition kfastblock_volume_effective_max_io_bytes (vol : ptr kfastblock_volume) : Z :=
  match vol with
  | NULL => KFASTBLOCK_MAX_IO_BYTES
  | Some v =>
      let image := Meta.image (view v) in
      if Meta.object_size image =? 0 then KFASTBLOCK_MAX_IO_BYTES
      else
        let limit := Z.min KFASTBLOCK_MAX_IO_BYTES
                       (u64 (Meta.object_size image * KFASTBLOCK_MAX_OBJECT_EXTENTS)) in
        let limit := if Meta.block_size image =? 0 then limit
                     else round_down limit (Meta.block_size image) in
        let limit := if limit =? 0 then or_else (Meta.block_size image) 512 else limit in
        u32 limit
  end.

Definition kfastblock_volume_apply_queue_limits (vol : ptr kfastblock_volume)
    : ptr kfastblock_volume :=
  match vol with
  | NULL => NULL
  | Some v =>
      if negb (disk_has_queue v) then vol
      else
        let image := Meta.image (view v) in
        let block_size := or_else (Meta.block_size image) KFASTBLOCK_DEFAULT_BLOCK_SIZE in
        let object_size := Meta.object_size image in
        let max_io_bytes := kfastblock_volume_effective_max_io_bytes vol in
        let sectors := Z.shiftr max_io_bytes SECTOR_SHIFT in
        let calls :=
          [blk_queue_logical_block_size block_size;
           blk_queue_max_hw_sectors sectors;
           blk_queue_max_segment_size max_io_bytes;
           blk_queue_max_segments USHRT_MAX;
           blk_queue_write_cache true false]
          ++ (if object_size =? 0 then
                [blk_queue_max_discard_sectors 0;
                 blk_queue_max_write_zeroes_sectors 0;
                 blk_queue_max_discard_segments 0;
                 limits_discard_granularity 0;
                 limits_discard_alignment 0]
              else
                [blk_queue_io_opt object_size;
                 blk_queue_chunk_sectors (Z.shiftr object_size SECTOR_SHIFT);
                 blk_queue_max_discard_sectors sectors;
                 blk_queue_max_write_zeroes_sectors sectors;
                 blk_queue_max_discard_segments 1;
                 limits_discard_granularity block_size;
                 limits_discard_alignment 0]) in
        Some (foldl (fun v c => kernel c v) v calls)
  end.

(** ** Cached sockets *)

Definition kfastblock_volume_close_osd_cached_sockets (now : Z) (vol : ptr kfastblock_volume) :=
  (fun v => v <| socket_cache ::= fun slots =>
     default slots (Connpool.kfastblock_osd_conn_pool_close now (Some slots) KFASTBLOCK_MAX_SOCKET_CACHE) |>)
  <$> vol.

Definition kfastblock_volume_close_monitor_cached_sockets (now : Z) (vol : ptr kfastblock_volume) :=
  (fun v => v <| monitor_cache ::= fun slots =>
     default slots (Connpool.kfastblock_monitor_conn_pool_close now (Some slots) KFASTBLOCK_MAX_MONITORS) |>)
  <$> vol.

Definition kfastblock_volume_close_cached_sockets (now : Z) (vol : ptr kfastblock_volume) :=
  kfastblock_volume_close_monitor_cached_sockets now
    (kfastblock_volume_close_osd_cached_sockets now vol).

Definition kfastblock_volume_reset_osd_backoff (vol : ptr kfastblock_volume) :=
  (fun v => v <| socket_cache ::= fun slots =>
     default slots (Connpool.kfastblock_osd_conn_pool_reset_backoff (Some slots)
                      KFASTBLOCK_MAX_SOCKET_CACHE) |>) <$> vol.

Definition kfastblock_volume_reset_monitor_backoff (vol : ptr kfastblock_volume) :=
  (fun v => v <| monitor_cache ::= fun slots =>
     default slots (Connpool.kfastblock_monitor_conn_pool_reset_backoff (Some slots)
                      KFASTBLOCK_MAX_MONITORS) |>) <$> vol.

(** ** Sequences of accounting calls *)

Inductive account_call :=
| AcIoSubmit (op bytes : Z)
| AcIoComplete (ret : Z)
| AcObjectSuccess (op pg_id osd_id length : Z)
| AcObjectRetry (op pg_id osd_id length ret : Z)
| AcObjectError (op pg_id osd_id length ret : Z)
| AcLeaderQuery (pg_id osd_id ret : Z)
| AcClusterRefresh (ret : Z)
| AcImageRefresh (ret : Z)
| AcMetadataStale
| AcRefreshKick (pg_id ret : Z)
| AcLeaderInvalidate (pg_id ret : Z)
| AcSocketDrop (monitor_socket : bool) (osd_id port ret : Z)
| AcSocketBackoff (monitor_socket : bool) (osd_id port fail_streak backoff_jiffies ret : Z)
| AcSocketBackoffWait (monitor_socket : bool) (osd_id port remaining_jiffies ret : Z)
| AcFaultInjection (site ret : Z)
| AcPipelinePrepare
| AcPipelineCleanup
| AcPipelineDispatchBatch (nr_objects : Z)
| AcPipelineRetry
| AcPipelineComplete (failed : bool)
| AcPipelineCancel (nr_objects : Z)
| AcPipelineSeq
| AcPipelineResponse (status body_len flags : Z)
| AcPipelineSnapshot (state : ptr Pipeline.kfastblock_pipeline_state)
| AcMarkSuccess (source : Z).

Definition exec_account `{Clock} (vol : ptr kfastblock_volume) (nc : Z * account_call)
    : ptr kfastblock_volume :=
  let '(now, c) := nc in
  match c with
  | AcIoSubmit op bytes => kfastblock_volume_account_io_submit vol op bytes
  | AcIoComplete ret => kfastblock_volume_account_io_complete vol ret
  | AcObjectSuccess op pg osd len => kfastblock_volume_account_object_success now vol op pg osd len
  | AcObjectRetry op pg osd len ret =>
      kfastblock_volume_account_object_retry now vol op pg osd len ret
  | AcObjectError op pg osd len ret =>
      kfastblock_volume_account_object_error now vol op pg osd len ret
  | AcLeaderQuery pg osd ret => kfastblock_volume_account_leader_query now vol pg osd ret
  | AcClusterRefresh ret => kfastblock_volume_account_cluster_refresh now vol ret
  | AcImageRefresh ret => kfastblock_volume_account_image_refresh now vol ret
  | AcMetadataStale => kfastblock_volume_account_metadata_stale now vol
  | AcRefreshKick pg ret => kfastblock_volume_account_refresh_kick now vol pg ret
  | AcLeaderInvalidate pg ret => kfastblock_volume_account_leader_invalidate now vol pg ret
  | AcSocketDrop m osd port ret => kfastblock_volume_account_socket_drop now vol m osd port ret
  | AcSocketBackoff m osd port streak j ret =>
      kfastblock_volume_account_socket_backoff now vol m osd port streak j ret
  | AcSocketBackoffWait m osd port j ret =>
      kfastblock_volume_account_socket_backoff_wait now vol m osd port j ret
  | AcFaultInjection site ret => kfastblock_volume_account_fault_injection now vol site ret
  | AcPipelinePrepare => kfastblock_volume_account_pipeline_prepare vol
  | AcPipelineCleanup => kfastblock_volume_account_pipeline_cleanup vol
  | AcPipelineDispatchBatch n => kfastblock_volume_account_pipeline_dispatch_batch vol n
  | AcPipelineRetry => kfastblock_volume_account_pipeline_retry vol
  | AcPipelineComplete failed => kfastblock_volume_account_pipeline_complete vol failed
  | AcPipelineCancel n => kfastblock_volume_account_pipeline_cancel vol n
  | AcPipelineSeq => kfastblock_volume_account_pipeline_seq vol
  | AcPipelineResponse st len fl => kfastblock_volume_account_pipeline_response vol st len fl
  | AcPipelineSnapshot st => kfastblock_volume_update_pipeline_snapshot vol st
  | AcMarkSuccess source => kfastblock_volume_mark_success now vol source
  end.

Definition exec_accounts `{Clock} (vol : ptr kfastblock_volume) (l : list (Z * account_call)) :=
  foldl exec_account vol l.

(** What accounting writes, blanked out: everything else of the volume. *)
Definition unaccounted (v : kfastblock_volume) : kfastblock_volume :=
  v <| stats := zero_stats |> <| pipeline_stats := zero_pipeline_stats |>
    <| pipeline_snapshot := Pipeline.empty_snapshot |>
    <| event_log := {| next_index := 0; count := 0; entries := [] |} |>
    <| health := {| h_state := 0; h_last_failure_source := 0; h_last_errno := 0;
                    h_state_since_jiffies := 0; h_last_failure_jiffies := 0;
                    h_last_success_jiffies := 0 |} |>.

Lemma record_event_unaccounted now vol type ret op pg osd a0 a1 :
  unaccounted <$> kfastblock_volume_record_event now vol type ret op pg osd a0 a1
  = unaccounted <$> vol.
Proof. by destruct vol. Qed.

Lemma update_health_unaccounted now vol st src ret :
  unaccounted <$> kfastblock_volume_update_health now vol st src ret = unaccounted <$> vol.
Proof.
  destruct vol as [v|]; [|done]. unfold kfastblock_volume_update_health.
  case_match; case_match; try done; by rewrite record_event_unaccounted.
Qed.

Lemma mark_success_unaccounted now vol src :
  unaccounted <$> kfastblock_volume_mark_success now vol src = unaccounted <$> vol.
Proof.
  destruct vol as [v|]; [|done]. unfold kfastblock_volume_mark_success.
  case_match; [done|]. case_match; by rewrite update_health_unaccounted.
Qed.

Create Rewrite HintDb vol.
#[local] Hint Rewrite record_event_unaccounted update_health_unaccounted
  mark_success_unaccounted : vol.

Ltac unfold_account :=
  unfold kfastblock_volume_account_object_success, kfastblock_volume_account_object_retry,
    kfastblock_volume_account_object_error, kfastblock_volume_account_socket_drop,
    kfastblock_volume_account_socket_backoff, kfastblock_volume_account_socket_backoff_wait,
    kfastblock_volume_account_fault_injection, kfastblock_volume_account_metadata_stale,
    kfastblock_volume_account_refresh_kick, kfastblock_volume_account_leader_invalidate,
    kfastblock_volume_account_leader_query, kfastblock_volume_account_cluster_refresh,
    kfastblock_volume_account_image_refresh.

Lemma exec_account_null `{Clock} nc : exec_account NULL nc = NULL.
Proof. destruct nc as [now []]; simpl; unfold_account; try done; by case_match. Qed.

Lemma exec_account_unaccounted `{Clock} vol nc :
  unaccounted <$> exec_account vol nc = unaccounted <$> vol.
Proof.
  destruct vol as [v|]; [|by rewrite exec_account_null].
  destruct nc as [now []]; simpl; unfold_account;
    repeat case_match; autorewrite with vol; try done; simpl; by repeat case_match.
Qed.

(** The accounting calls that the whole driver makes are passive: whatever
    sequence of them runs, they write only the counters, the health record, the
    event log and the pipeline snapshot.  In particular they never change the
    metadata, the state of the queue gate, the sockets, the buffers or the
    scheduler, and never call the block layer. *)
Theorem accounting_is_passive `{Clock} (vol : ptr kfastblock_volume)
    (l : list (Z * account_call)) :
  unaccounted <$> exec_accounts vol l = unaccounted <$> vol.
Proof.
  unfold exec_accounts. revert vol; induction l as [|nc l IH]; intros vol; simpl; [done|].
  by rewrite IH, exec_account_unaccounted.
Qed.

(** ** The event ring *)

Lemma omap_seqZ_lookup {A} (f : Z -> option A) (l : list A) (m : Z) :
  (forall i, (i < length l)%nat -> f (m + Z.of_nat i) = l !! i) ->
  omap f (seqZ m (Z.of_nat (length l))) = l.
Proof.
  revert m; induction l as [|x l IH]; intros m Hf; [done|].
  rewrite seqZ_cons by (simpl; lia). simpl.
  pose proof (Hf 0%nat ltac:(simpl; lia)) as H0. rewrite Z.add_0_r in H0. rewrite H0. simpl.
  f_equal. replace (Z.pred (Z.of_nat (S (length l)))) with (Z.of_nat (length l)) by lia.
  apply IH. intros i Hi. specialize (Hf (S i) ltac:(simpl; lia)). simpl in Hf.
  rewrite <- Hf. f_equal. lia.
Qed.

(** The log holds the newest 128 of the events recorded so far. *)
Record holds_last (hist : list kfastblock_volume_event) (l : kfastblock_volume_event_log)
    : Prop := {
  ring_len : length (entries l) = 128%nat;
  ring_next : next_index l = Z.of_nat (length hist) mod 128;
  ring_count : count l = Z.min 128 (Z.of_nat (length hist));
  ring_entries : forall k, (k < length hist)%nat -> (length hist <= k + 128)%nat ->
    (entries l).[Z.of_nat k mod 128] = hist !! k;
}.

Lemma event_log_add_holds hist l e :
  holds_last hist l -> holds_last (hist ++ [e]) (event_log_add e l).
Proof.
  intros [H1 H2 H3 H4].
  assert (Hc : event_log_add e l =
    {| next_index := Z.of_nat (length (hist ++ [e])) mod 128;
       count := Z.min 128 (Z.of_nat (length (hist ++ [e])));
       entries := <[Z.to_nat (Z.of_nat (length hist) mod 128) := e]> (entries l) |}).
  { unfold event_log_add, KFASTBLOCK_MAX_VOLUME_EVENTS; simpl. rewrite H2, H3.
    rewrite length_app; simpl. rewrite u32_small by div_lia.
    replace ((Z.of_nat (length hist) mod 128 + 1) mod 128)
      with (Z.of_nat (length hist + 1) mod 128) by div_lia.
    case_match; simpl; f_equal; lia. }
  rewrite Hc. split; simpl; [by rewrite length_insert|done|done|].
  intros k Hk1 Hk2. rewrite length_app in Hk1, Hk2; simpl in Hk1, Hk2.
  destruct (decide (k = length hist)) as [->|Hne].
  - rewrite list_lookup_insert_eq by (rewrite H1; div_lia). by rewrite lookup_app_r, Nat.sub_diag by lia.
  - rewrite list_lookup_insert_ne by div_lia. rewrite lookup_app_l by lia. apply H4; lia.
Qed.

Lemma holds_last_nil (v : kfastblock_volume) now :
  exists v', kfastblock_volume_stats_init now (Some v) = Some v' /\
    holds_last [] (event_log v').
Proof. eexists; split; [done|]. split; [done|done|done|simpl; lia]. Qed.

Lemma holds_last_snapshot hist l :
  holds_last hist l -> events_snapshot l (count l) = drop (length hist - 128) hist.
Proof.
  intros [H1 H2 H3 H4]. unfold events_snapshot, KFASTBLOCK_MAX_VOLUME_EVENTS.
  rewrite H3. replace (Z.min 128 (Z.of_nat (length hist)))
    with (Z.of_nat (length (drop (length hist - 128) hist))) by (rewrite length_drop; lia).
  apply omap_seqZ_lookup. intros i Hi. rewrite length_drop in *.
  rewrite lookup_drop, <- H4 by lia. rewrite H2.
  rewrite !u32_small by div_lia. f_equal. div_lia.
Qed.

(** The event that a call of [record_event] stores. *)
Record event_args := { ea_now : Z; ea_type : Z; ea_ret : Z; ea_op : Z; ea_pg_id : Z;
                       ea_osd_id : Z; ea_arg0 : Z; ea_arg1 : Z }.

Definition event_of (a : event_args) : kfastblock_volume_event :=
  {| ev_jiffies := ea_now a; ev_ret := ea_ret a; ev_type := ea_type a; ev_pg_id := ea_pg_id a;
     ev_osd_id := ea_osd_id a; ev_arg0 := ea_arg0 a; ev_arg1 := ea_arg1 a;
     ev_op := u8 (ea_op a) |}.

Definition record_events (vol : ptr kfastblock_volume) (l : list event_args) :=
  foldl (fun vol a => kfastblock_volume_record_event (ea_now a) vol (ea_type a) (ea_ret a)
                        (ea_op a) (ea_pg_id a) (ea_osd_id a) (ea_arg0 a) (ea_arg1 a)) vol l.

Lemma record_events_holds l : forall v hist, holds_last hist (event_log v) ->
  exists v', record_events (Some v) l = Some v' /\
    holds_last (hist ++ (event_of <$> l)) (event_log v').
Proof.
  induction l as [|a l IH]; intros v hist Hv; simpl.
  { exists v. by rewrite app_nil_r. }
  rewrite cons_middle, app_assoc. apply IH. simpl. by apply event_log_add_holds.
Qed.

(** The event log is a ring of the newest 128 events: after
    [kfastblock_volume_stats_init] and any sequence of recorded events, the
    debugfs file prints exactly the last 128 of them (all of them if there are
    fewer), oldest first and numbered from 0. *)
Theorem events_show_prints_newest (now : Z) (v : kfastblock_volume) (l : list event_args) :
  kfastblock_volume_events_show true
    (record_events (kfastblock_volume_stats_init now (Some v)) l)
  = (0, zip_with event_line (seqZ 0 (Z.min 128 (Z.of_nat (length l))))
          (event_of <$> drop (length l - 128) l)).
Proof.
  destruct (holds_last_nil v now) as (v0 & -> & H0).
  destruct (record_events_holds l v0 [] H0) as (v1 & -> & H1). simpl in H1.
  unfold kfastblock_volume_events_show. simpl.
  pose proof (ring_count _ _ H1) as Hc. rewrite length_fmap in Hc.
  case_match eqn:Hz; unbool.
  - destruct l; [done|simpl in *; lia].
  - rewrite Z.gtb_ltb, Z.ltb_irrefl, (holds_last_snapshot _ _ H1), Hc, length_fmap.
    by rewrite fmap_drop.
Qed.

(** ** Health *)

(** A log in which the newest event can be read back. *)
Definition log_wf (l : kfastblock_volume_event_log) : Prop := exists hist, holds_last hist l.

Definition newest_event (l : kfastblock_volume_event_log) : option kfastblock_volume_event :=
  (entries l).[ (next_index l + KFASTBLOCK_MAX_VOLUME_EVENTS - 1) mod KFASTBLOCK_MAX_VOLUME_EVENTS ].

Lemma newest_event_add l e : log_wf l -> newest_event (event_log_add e l) = Some e.
Proof.
  intros [hist H]. pose proof (event_log_add_holds _ _ e H) as H'.
  unfold newest_event, KFASTBLOCK_MAX_VOLUME_EVENTS. rewrite (ring_next _ _ H').
  rewrite length_app; simpl.
  replace ((Z.of_nat (length hist + 1) mod 128 + 128 - 1) mod 128)
    with (Z.of_nat (length hist) mod 128) by div_lia.
  rewrite (ring_entries _ _ H') by (rewrite length_app; simpl; lia).
  by rewrite lookup_app_r, Nat.sub_diag by lia.
Qed.

Lemma log_wf_add l e : log_wf l -> log_wf (event_log_add e l).
Proof. intros [hist H]. exists (hist ++ [e]). by apply event_log_add_holds. Qed.

(** The health of [v'] is that of [v], or it changed and the newest event of
    [v'] says so. *)
Definition health_logged (v v' : kfastblock_volume) : Prop :=
  log_wf (event_log v') /\
  (h_state (health v') = h_state (health v) \/
   exists e, newest_event (event_log v') = Some e /\
     ev_type e = KFASTBLOCK_VOLUME_EVENT_HEALTH_CHANGE /\
     ev_arg0 e = h_state (health v) /\ ev_arg1 e = h_state (health v')).

Lemma update_health_logged now v v1 st src ret :
  log_wf (event_log v1) -> h_state (health v1) = h_state (health v) ->
  exists v', kfastblock_volume_update_health now (Some v1) st src ret = Some v' /\
    health_logged v v'.
Proof.
  intros Hw Hs. unfold kfastblock_volume_update_health. rewrite Hs.
  destruct (truthy ret); (destruct (Z.eqb_spec st (h_state (health v)));
    (eexists; split; [reflexivity|]); simpl).
  1, 3: split; [done|left; by simpl].
  all: split; simpl; [by apply log_wf_add|]; right; eexists;
    split; [by apply newest_event_add|]; done.
Qed.

Lemma mark_success_logged now v v1 src :
  log_wf (event_log v1) -> h_state (health v1) = h_state (health v) ->
  exists v', kfastblock_volume_mark_success now (Some v1) src = Some v' /\
    health_logged v v'.
Proof.
  intros Hw Hs. unfold kfastblock_volume_mark_success. case_match.
  { eexists; split; [done|]. split; [done|by left]. }
  case_match; by apply update_health_logged.
Qed.

Lemma health_unlogged v v' :
  event_log v' = event_log v -> h_state (health v') = h_state (health v) ->
  log_wf (event_log v) -> health_logged v v'.
Proof. intros He Hh Hw. split; [by rewrite He|by left]. Qed.

Lemma exec_account_health `{Clock} v nc :
  log_wf (event_log v) ->
  exists v', exec_account (Some v) nc = Some v' /\ health_logged v v'.
Proof.
  intros Hw. destruct nc as [now []]; cbn [exec_account]; unfold_account;
    repeat match goal with |- context [if ?b then _ else _] => destruct b end;
    first
      [ apply update_health_logged; [first [apply log_wf_add; done | done]|done]
      | apply mark_success_logged; done
      | eexists; split; [reflexivity|]; split; [apply log_wf_add; done|by left]
      | eexists; split; [reflexivity|]; apply health_unlogged; done
      | eexists; split; [reflexivity|]; apply health_unlogged;
          repeat match goal with |- context [if ?b then _ else _] => destruct b end; done
      | idtac ].
  destruct state; eexists; (split; [reflexivity|]); by apply health_unlogged.
Qed.

Lemma exec_accounts_log_wf `{Clock} l : forall v, log_wf (event_log v) ->
  exists v', exec_accounts (Some v) l = Some v' /\ log_wf (event_log v').
Proof.
  induction l as [|nc l IH]; intros v Hw; [by exists v|].
  destruct (exec_account_health v nc Hw) as (v1 & E & Hw1 & _).
  unfold exec_accounts; simpl. rewrite E. by apply IH.
Qed.

(** Every change of a volume's health is visible in the event log: in a
    volume that has been initialised and then gone through any sequence of
    accounting calls, a further call either leaves the health state alone or
    makes the newest event of the log a [HEALTH_CHANGE] that carries the old
    state and the new one. *)
Theorem health_changes_are_logged `{Clock} (v : kfastblock_volume) (start : Z)
    (l : list (Z * account_call)) (nc : Z * account_call) (v1 v2 : kfastblock_volume) :
  exec_accounts (kfastblock_volume_stats_init start (Some v)) l = Some v1 ->
  exec_account (Some v1) nc = Some v2 ->
  h_state (health v2) <> h_state (health v1) ->
  exists e, newest_event (event_log v2) = Some e /\
    ev_type e = KFASTBLOCK_VOLUME_EVENT_HEALTH_CHANGE /\
    ev_arg0 e = h_state (health v1) /\ ev_arg1 e = h_state (health v2).
Proof.
  intros E1 E2 Hne. destruct (holds_last_nil v start) as (v0 & E0 & H0).
  rewrite E0 in E1.
  destruct (exec_accounts_log_wf l v0) as (v1' & E1' & Hw); [by exists []|].
  assert (v1' = v1) as -> by congruence.
  destruct (exec_account_health v1 nc Hw) as (v2' & E2' & _ & [Hs|He]).
  - congruence.
  - assert (v2' = v2) as -> by congruence. done.
Qed.

Lemma health_changes_are_logged_witness : exists v1 v2 e,
  exec_accounts (H := clock_hz1000) (kfastblock_volume_stats_init 5 (Some zero_volume))
    [(6, AcIoSubmit REQ_OP_WRITE 4096)] = Some v1 /\
  exec_account (H := clock_hz1000) (Some v1) (9, AcObjectError REQ_OP_WRITE 1 2 4096 (- EIO))
    = Some v2 /\
  newest_event (event_log v2) = Some e /\ ev_arg1 e = KFASTBLOCK_VOLUME_HEALTH_DEGRADED.
Proof.
  eexists _, _.
  destruct (health_changes_are_logged (H := clock_hz1000) zero_volume 5
    [(6, AcIoSubmit REQ_OP_WRITE 4096)] (9, AcObjectError REQ_OP_WRITE 1 2 4096 (- EIO))
    _ _ eq_refl eq_refl) as (e & He & _ & _ & H1); [vm_compute; discriminate|].
  exists e. split; [reflexivity|]. split; [reflexivity|]. split; [exact He|].
  rewrite H1. vm_compute. reflexivity.
Defined.

(** ** The queue gate *)

(** The quiesce depth that the block layer keeps: calls of
    [blk_mq_quiesce_queue] not yet undone. *)
Fixpoint quiesce_depth (l : list kernel_call) : Z :=
  match l with
  | [] => 0
  | blk_mq_quiesce_queue :: l => quiesce_depth l + 1
  | blk_mq_unquiesce_queue :: l => quiesce_depth l - 1
  | _ :: l => quiesce_depth l
  end.

(** The block layer's view of the queue agrees with the driver's. *)
Definition gate_balanced (v : kfastblock_volume) : Prop :=
  quiesce_depth (kernel_calls v) = Z.b2z (queue_paused v).

(** The fields the gate depends on. *)
Definition gate_fields (v : kfastblock_volume) :=
  (disk v, ready v, view v, queue_paused v, manual_queue_pause v, kernel_calls v).

Lemma unaccounted_gate_fields vol v :
  unaccounted <$> vol = unaccounted <$> Some v ->
  exists v', vol = Some v' /\ gate_fields v' = gate_fields v.
Proof.
  destruct vol as [v'|]; [|done]. intros [= ]. exists v'. split; [done|].
  unfold gate_fields. congruence.
Qed.

Lemma update_queue_gate_spec now v :
  disk_has_queue v = true ->
  exists v', kfastblock_volume_update_queue_gate now (Some v) = Some v' /\
    gate_fields v' =
      (disk v, ready v, view v, kfastblock_volume_should_pause_queue (Some v),
       manual_queue_pause v,
       (if Bool.eqb (kfastblock_volume_should_pause_queue (Some v)) (queue_paused v) then []
        else if kfastblock_volume_should_pause_queue (Some v) then [blk_mq_quiesce_queue]
        else [blk_mq_unquiesce_queue]) ++ kernel_calls v).
Proof.
  intros Hq. unfold kfastblock_volume_update_queue_gate. rewrite Hq. cbn [negb].
  destruct (kfastblock_volume_should_pause_queue (Some v)) eqn:Hs, (queue_paused v) eqn:Hp;
    cbn [Bool.eqb]; try (eexists; split; [done|]; unfold gate_fields; by rewrite Hp).
  all: match goal with |- exists v', ?op = Some v' /\ _ =>
         edestruct (unaccounted_gate_fields op) as (v' & E & Hg) end;
    [autorewrite with vol; reflexivity|]; exists v'; by rewrite E, Hg.
Qed.

(** ** Bounds of the queue limits *)

Lemma round_down_spec x y k :
  0 <= x < 2 ^ 64 -> 0 <= k < 64 -> y = 2 ^ k -> round_down x y = y * (x / y).
Proof.
  intros Hx Hk ->. unfold round_down.
  assert (0 < 2 ^ k) by lia. assert (2 ^ k <= 2 ^ 63) by (apply Z.pow_le_mono_r; lia).
  rewrite u64_small by lia. rewrite <- Z.ldiff_land, Z.sub_1_r, <- Z.ones_equiv.
  rewrite Z.ldiff_ones_r, Z.shiftl_mul_pow2, Z.shiftr_div_pow2 by lia. lia.
Qed.

(** The largest request the driver advertises to the block layer: for an
    image whose block size is a power of two no larger than 4 MiB and no larger
    than its objects, it is a positive multiple of the block size, at most 4 MiB
    and at most 128 objects long, and it is the largest such size. *)
Theorem max_io_bytes_bounds (v : kfastblock_volume) (k : Z) :
  let image := Meta.image (view v) in
  0 <= k <= 22 -> Meta.block_size image = 2 ^ k ->
  Meta.block_size image <= Meta.object_size image < 2 ^ 32 ->
  let m := kfastblock_volume_effective_max_io_bytes (Some v) in
  0 < m /\ (Meta.block_size image | m) /\
  m <= KFASTBLOCK_MAX_IO_BYTES /\ m <= Meta.object_size image * KFASTBLOCK_MAX_OBJECT_EXTENTS /\
  (forall n, (Meta.block_size image | n) -> n <= KFASTBLOCK_MAX_IO_BYTES ->
     n <= Meta.object_size image * KFASTBLOCK_MAX_OBJECT_EXTENTS -> n <= m).
Proof.
  intros image Hk Hb Ho m. subst m image.
  unfold kfastblock_volume_effective_max_io_bytes, KFASTBLOCK_MAX_IO_BYTES,
    KFASTBLOCK_MAX_OBJECT_EXTENTS.
  set (bs := Meta.block_size _) in *. set (os := Meta.object_size _) in *. clearbody bs os.
  assert (0 < 2 ^ k) by lia.
  assert (2 ^ k <= 2 ^ 22) by (apply Z.pow_le_mono_r; lia).
  rewrite (proj2 (Z.eqb_neq os 0)), (proj2 (Z.eqb_neq bs 0)) by lia.
  rewrite u64_small by lia.
  set (limit := Z.min _ _). assert (Hl : bs <= limit <= 4194304) by lia.
  rewrite (round_down_spec _ _ k) by lia.
  assert (1 <= limit / bs) by (apply Z.div_le_lower_bound; lia).
  pose proof (Z.mul_div_le limit bs ltac:(lia)).
  assert (bs <= bs * (limit / bs)) by nia.
  rewrite (proj2 (Z.eqb_neq (bs * (limit / bs)) 0)) by lia.
  rewrite u32_small by lia.
  split; [lia|]. split; [apply Z.divide_factor_l|]. split; [lia|]. split; [lia|].
  intros n [q ->] Hn1 Hn2. assert (q <= limit / bs) by (apply Z.div_le_lower_bound; lia). nia.
Qed.

Lemma max_io_bytes_bounds_witness :
  let v := zero_volume <| view ::= fun w => w <| Meta.image ::= fun i =>
             i <| Meta.block_size := 4096 |> <| Meta.object_size := 12288 |> |> |> in
  0 < kfastblock_volume_effective_max_io_bytes (Some v) <= 12288 * 128.
Proof.
  intros v. destruct (max_io_bytes_bounds v 12) as (H1 & _ & _ & H2 & _); subst v; simpl in *;
    [lia|reflexivity|lia|]. split; [exact H1|exact H2].
Defined.

End Volume.
