(* ===== verification/Request.v ===== *)
(** * Requests: splitting into objects (kfastblock/src/request.c, first part)

    A block request is split into object extents, one per object of the image it
    touches; each extent names its object, and the Jenkins hash of the name
    selects the placement group.  The placement groups of a request and the
    targets that serve them are captured with it.

    A request is kept beside the volume its [vol] pointer refers to: the
    operations take and return both, and [has_vol] says whether the pointer is
    set.  All requests of a tag set belong to one volume, so the pointer is
    either NULL or this volume.  [alloc k] is the outcome of the [k]-th
    allocation of an operation. *)

From Stdlib Require Import Ascii.
From S2P Require Import Prelude Meta Pipeline Scheduler Volume.
Import (hints) Meta Pipeline Scheduler Volume.

Module Request.
Import Volume(kfastblock_volume).

Definition KFASTBLOCK_MAX_OBJECT_EXTENTS : Z := 128.
Definition KFASTBLOCK_MAX_OBJECT_NAME_LEN : nat := 192.
Definition SECTOR_SHIFT : Z := 9.

(** ** Data *)

Inductive kfastblock_request_object_state :=
| KFASTBLOCK_OBJECT_INIT
| KFASTBLOCK_OBJECT_READY
| KFASTBLOCK_OBJECT_QUEUED
| KFASTBLOCK_OBJECT_IN_FLIGHT
| KFASTBLOCK_OBJECT_REQUEUE
| KFASTBLOCK_OBJECT_DONE
| KFASTBLOCK_OBJECT_FAILED
| KFASTBLOCK_OBJECT_CANCELLED.

#[export] Instance object_state_eq_dec : EqDecision kfastblock_request_object_state.
Proof. solve_decision. Defined.

Record kfastblock_request_pg_target := {
  target_osd_id : Z;
  target_flags : Z;
  target_port : Z;
  target_address : string;
}.

Record kfastblock_object_extent := {
  object_seq : Z;
  request_offset : Z;
  object_offset : Z;
  extent_length : Z;
  pg_id : Z;
  object_name : string;
}.

Record kfastblock_object_work := {
  work_parent : bool;
  work_object_index : Z;
}.

Record kfastblock_request_pg_hint := {
  hint_pg_id : Z;
  nr_targets : Z;
  hint_leader_valid : bool;
  hint_leader : Meta.kfastblock_leader_info;
  targets : ptr (list kfastblock_request_pg_target);
}.

#[export] Instance eta_pg_hint : Eta kfastblock_request_pg_hint := fun h =>
  {| hint_pg_id := hint_pg_id h; nr_targets := nr_targets h;
     hint_leader_valid := hint_leader_valid h; hint_leader := hint_leader h;
     targets := targets h |}.

Record kfastblock_request_object_runtime := {
  state : kfastblock_request_object_state;
  last_error : Z;
  attempt_count : Z;
  dispatch_count : Z;
  retry_count : Z;
  wire_seq : Z;
  response_status : Z;
  response_body_len : Z;
  transport_flags : Z;
  queued_jiffies : Z;
  last_retry_jiffies : Z;
  completed_jiffies : Z;
}.

#[export] Instance eta_runtime : Eta kfastblock_request_object_runtime := fun r =>
  {| state := state r; last_error := last_error r; attempt_count := attempt_count r;
     dispatch_count := dispatch_count r; retry_count := retry_count r; wire_seq := wire_seq r;
     response_status := response_status r; response_body_len := response_body_len r;
     transport_flags := transport_flags r; queued_jiffies := queued_jiffies r;
     last_retry_jiffies := last_retry_jiffies r; completed_jiffies := completed_jiffies r |}.

(** What the driver reads of the block layer's [struct request]. *)
Record block_request := {
  blk_rq_pos : Z;
  blk_rq_bytes : Z;
  req_op : Z;
}.

Record kfastblock_request := {
  rq : ptr block_request;
  has_vol : bool;
  byte_offset : Z;
  request_osdmap_epoch : Z;
  request_pgmap_epoch : Z;
  byte_length : Z;
  request_pool_id : Z;
  request_object_size : Z;
  nr_objects : Z;
  nr_unique_pgs : Z;
  next_object_to_queue : Z;
  dispatch_window : Z;
  max_object_extents : Z;
  status : Z;
  pending_objects : Z;
  dispatch_cursor : Z;
  queued_objects : Z;
  inflight_objects : Z;
  completed_objects : Z;
  failed_objects : Z;
  cancelled_objects : Z;
  dispatch_generation : Z;
  unique_pgs : ptr (list Z);
  pg_hints : ptr (list kfastblock_request_pg_hint);
  objects : ptr (list kfastblock_object_extent);
  object_works : ptr (list kfastblock_object_work);
  object_runtime : ptr (list kfastblock_request_object_runtime);
  pipeline : Pipeline.kfastblock_pipeline_state;
}.

#[export] Instance eta_request : Eta kfastblock_request := fun r =>
  {| rq := rq r; has_vol := has_vol r; byte_offset := byte_offset r;
     request_osdmap_epoch := request_osdmap_epoch r;
     request_pgmap_epoch := request_pgmap_epoch r; byte_length := byte_length r;
     request_pool_id := request_pool_id r; request_object_size := request_object_size r;
     nr_objects := nr_objects r; nr_unique_pgs := nr_unique_pgs r;
     next_object_to_queue := next_object_to_queue r; dispatch_window := dispatch_window r;
     max_object_extents := max_object_extents r; status := status r;
     pending_objects := pending_objects r; dispatch_cursor := dispatch_cursor r;
     queued_objects := queued_objects r; inflight_objects := inflight_objects r;
     completed_objects := completed_objects r; failed_objects := failed_objects r;
     cancelled_objects := cancelled_objects r; dispatch_generation := dispatch_generation r;
     unique_pgs := unique_pgs r; pg_hints := pg_hints r; objects := objects r;
     object_works := object_works r; object_runtime := object_runtime r;
     pipeline := pipeline r |}.

(** What [kvcalloc] and [memset] fill arrays and the request with. *)
Definition zero_hint : kfastblock_request_pg_hint :=
  {| hint_pg_id := 0; nr_targets := 0; hint_leader_valid := false;
     hint_leader := Meta.zero_leader; targets := NULL |}.

Definition zero_extent : kfastblock_object_extent :=
  {| object_seq := 0; request_offset := 0; object_offset := 0; extent_length := 0; pg_id := 0;
     object_name := EmptyString |}.

Definition zero_work : kfastblock_object_work :=
  {| work_parent := false; work_object_index := 0 |}.

Definition zero_runtime : kfastblock_request_object_runtime :=
  {| state := KFASTBLOCK_OBJECT_INIT; last_error := 0; attempt_count := 0; dispatch_count := 0;
     retry_count := 0; wire_seq := 0; response_status := 0; response_body_len := 0;
     transport_flags := 0; queued_jiffies := 0; last_retry_jiffies := 0;
     completed_jiffies := 0 |}.

Definition zero_pipeline : Pipeline.kfastblock_pipeline_state :=
  {| Pipeline.capacity := 0; Pipeline.inflight := 0; Pipeline.peak_inflight := 0;
     Pipeline.free_list := []; Pipeline.inflight_list := []; Pipeline.entries := NULL |}.

Definition zero_request : kfastblock_request :=
  {| rq := NULL; has_vol := false; byte_offset := 0; request_osdmap_epoch := 0;
     request_pgmap_epoch := 0; byte_length := 0; request_pool_id := 0;
     request_object_size := 0; nr_objects := 0; nr_unique_pgs := 0; next_object_to_queue := 0;
     dispatch_window := 0; max_object_extents := 0; status := 0; pending_objects := 0;
     dispatch_cursor := 0; queued_objects := 0; inflight_objects := 0; completed_objects := 0;
     failed_objects := 0; cancelled_objects := 0; dispatch_generation := 0;
     unique_pgs := NULL; pg_hints := NULL; objects := NULL; object_works := NULL;
     object_runtime := NULL; pipeline := zero_pipeline |}.

(** A call that passes [kf_req->vol]. *)
Definition on_vol (f : ptr kfastblock_volume -> ptr kfastblock_volume) (r : kfastblock_request)
    (vol : ptr kfastblock_volume) : ptr kfastblock_volume :=
  if has_vol r then f vol else vol.

(** ** The Jenkins hash *)

Definition KFASTBLOCK_JHASH_GOLDEN_RATIO : Z := 0x9e3779b9.

(** One line [x = x - y; x = x - z; x ^= z >> s;] of the mix, and with [<<]. *)
Definition mix_shr (x y z s : Z) : Z := Z.lxor (u32 (u32 (x - y) - z)) (Z.shiftr z s).
Definition mix_shl (x y z s : Z) : Z := Z.lxor (u32 (u32 (x - y) - z)) (u32 (Z.shiftl z s)).

Definition KFASTBLOCK_JHASH_MIX (abc : Z * Z * Z) : Z * Z * Z :=
  let '(a, b, c) := abc in
  let a := mix_shr a b c 13 in
  let b := mix_shl b c a 8 in
  let c := mix_shr c a b 13 in
  let a := mix_shr a b c 12 in
  let b := mix_shl b c a 16 in
  let c := mix_shr c a b 5 in
  let a := mix_shr a b c 3 in
  let b := mix_shl b c a 10 in
  let c := mix_shr c a b 15 in
  (a, b, c).

(** [k[i]] as a [u32] *)
Definition byte_at (k : list Z) (i : nat) : Z := nth i k 0.

(** [k[i] | k[i+1] << 8 | k[i+2] << 16 | k[i+3] << 24] *)
Definition word_at (k : list Z) (i : nat) : Z :=
  Z.lor (Z.lor (Z.lor (byte_at k i) (Z.shiftl (byte_at k (i + 1)) 8))
               (Z.shiftl (byte_at k (i + 2)) 16))
        (Z.shiftl (byte_at k (i + 3)) 24).

(** The [while (len >= 12)] loop: what is left of the string and the state. *)
Fixpoint jhash_loop (fuel : nat) (k : list Z) (abc : Z * Z * Z) : list Z * (Z * Z * Z) :=
  match fuel with
  | O => (k, abc)
  | S fuel =>
      if (12 <=? Z.of_nat (List.length k)) then
        let '(a, b, c) := abc in
        jhash_loop fuel (drop 12 k)
          (KFASTBLOCK_JHASH_MIX
             (u32 (a + word_at k 0), u32 (b + word_at k 4), u32 (c + word_at k 8)))
      else (k, abc)
  end.

(** The [switch (len)] with its fall through cases: case [n] and all below. *)
Definition jhash_tail (len : Z) (k : list Z) (abc : Z * Z * Z) : Z * Z * Z :=
  let '(a, b, c) := abc in
  let add n i s x := if n <=? len then u32 (x + u32 (Z.shiftl (byte_at k i) s)) else x in
  let c := add 9 8%nat 8 (add 10 9%nat 16 (add 11 10%nat 24 c)) in
  let b := add 5 4%nat 0 (add 6 5%nat 8 (add 7 6%nat 16 (add 8 7%nat 24 b))) in
  let a := add 1 0%nat 0 (add 2 1%nat 8 (add 3 2%nat 16 (add 4 3%nat 24 a))) in
  (a, b, c).

Definition kfastblock_jenkins_hash (str : ptr string) : Z :=
  match str with
  | NULL => 0
  | Some s =>
      let k := bytes_of_string s in
      let length := u32 (Z.of_nat (List.length k)) in
      let '(k, (a, b, c)) :=
        jhash_loop (List.length k) k (KFASTBLOCK_JHASH_GOLDEN_RATIO, KFASTBLOCK_JHASH_GOLDEN_RATIO, 0) in
      let abc := jhash_tail (Z.of_nat (List.length k)) k (a, b, u32 (c + length)) in
      let '(_, _, c) := KFASTBLOCK_JHASH_MIX abc in c
  end.

Definition kfastblock_request_calc_pg (object_name : ptr string) (pg_count : Z) : Z :=
  match object_name with
  | NULL => 0
  | Some _ => if pg_count =? 0 then 0 else kfastblock_jenkins_hash object_name mod pg_count
  end.

(** [scnprintf] into a buffer of [buf_len] bytes; NULL buffers are untouched. *)
Definition kfastblock_request_build_object_name (buf : ptr string) (buf_len : nat)
    (pool_id : Z) (image_name : ptr string) (object_seq : Z) : ptr string :=
  match buf with
  | NULL => NULL
  | Some _ =>
      if decide (buf_len = 0)%nat then buf
      else Some (strscpy (pretty pool_id +:+ "__blk_data___" +:+ default EmptyString image_name
                            +:+ pretty object_seq) buf_len)
  end.

Arguments kfastblock_request_calc_pg : simpl never.
Arguments kfastblock_request_build_object_name : simpl never.
Arguments kfastblock_jenkins_hash : simpl never.

(** ** Placement groups of a request *)

Definition set_hint (i : nat) (f : kfastblock_request_pg_hint -> kfastblock_request_pg_hint)
    (r : kfastblock_request) : kfastblock_request :=
  r <| pg_hints ::= fmap (alter f i) |>.

Definition kfastblock_request_track_unique_pg (req : ptr kfastblock_request) (pg : Z)
    : ptr kfastblock_request :=
  (fun r =>
    let n := Z.to_nat (nr_unique_pgs r) in
    if existsb (Z.eqb pg) (take n (default [] (unique_pgs r))) then r
    else if nr_unique_pgs r >=? max_object_extents r then r
    else
      let r := r <| unique_pgs ::= fmap <[n := pg]> |>
                 <| nr_unique_pgs ::= fun n => u32 (n + 1) |> in
      set_hint n (fun h => h <| hint_pg_id := pg |> <| nr_targets := 0 |>
                             <| hint_leader_valid := false |> <| targets := NULL |>) r) <$> req.

Definition kfastblock_request_estimate_extent_count (req : ptr kfastblock_request) : Z :=
  match req with
  | NULL => 0
  | Some r =>
      if (byte_length r =? 0) || (request_object_size r =? 0) then 0
      else
        let first_object := byte_offset r / request_object_size r in
        let last_object := u64 (byte_offset r + byte_length r - 1) / request_object_size r in
        if last_object <? first_object then 0
        else if last_object - first_object + 1 >? KFASTBLOCK_MAX_OBJECT_EXTENTS
        then KFASTBLOCK_MAX_OBJECT_EXTENTS + 1
        else last_object - first_object + 1
  end.

Definition kfastblock_request_alloc_state (alloc : nat -> bool) (req : ptr kfastblock_request)
    : Z * ptr kfastblock_request :=
  match req with
  | NULL => (- EINVAL, NULL)
  | Some r =>
      let count := kfastblock_request_estimate_extent_count req in
      if count =? 0 then (0, req)
      else if count >? KFASTBLOCK_MAX_OBJECT_EXTENTS then (- E2BIG, req)
      else
        let n := Z.to_nat count in
        let err_free_unique r := (- ENOMEM, Some (r <| unique_pgs := NULL |>)) in
        let err_free_hints r := err_free_unique (r <| pg_hints := NULL |>) in
        let err_free_objects r := err_free_hints (r <| objects := NULL |>) in
        let err_free_object_works r := err_free_objects (r <| object_works := NULL |>) in
        if negb (alloc 0%nat) then (- ENOMEM, Some (r <| unique_pgs := NULL |>))
        else
        let r := r <| unique_pgs := Some (replicate n 0) |> in
        if negb (alloc 1%nat) then err_free_unique (r <| pg_hints := NULL |>)
        else
        let r := r <| pg_hints := Some (replicate n zero_hint) |> in
        if negb (alloc 2%nat) then err_free_hints (r <| objects := NULL |>)
        else
        let r := r <| objects := Some (replicate n zero_extent) |> in
        if negb (alloc 3%nat) then err_free_objects (r <| object_works := NULL |>)
        else
        let r := r <| object_works := Some (replicate n zero_work) |> in
        if negb (alloc 4%nat) then err_free_object_works (r <| object_runtime := NULL |>)
        else
        let r := r <| object_runtime := Some (replicate n zero_runtime) |> in
        (0, Some (r <| max_object_extents := count |>))
  end.

(** The first [n] elements of an array, each changed by [f]. *)
Definition map_upto {A} (n : nat) (f : nat -> A -> A) (l : list A) : list A :=
  imap (fun i x => if decide (i < n)%nat then f i x else x) l.

Definition kfastblock_request_free_pg_hint_targets (req : ptr kfastblock_request)
    : ptr kfastblock_request :=
  (fun r =>
    r <| pg_hints ::= fmap (map_upto (Z.to_nat (max_object_extents r)) (fun _ h =>
           h <| targets := NULL |> <| nr_targets := 0 |> <| hint_leader_valid := false |>
             <| hint_leader := Meta.zero_leader |>)) |>) <$> req.

Definition zero_target : kfastblock_request_pg_target :=
  {| target_osd_id := 0; target_flags := 0; target_port := 0; target_address := EmptyString |}.

(** The inner loop of [capture_pg_hints]: resolve each replica of a route and
    fill the target array from index [k] on. *)
Fixpoint capture_targets (view : Meta.kfastblock_cluster_view) (pool pg : Z) (ids : list Z)
    (k : nat) (ts : list kfastblock_request_pg_target)
    : Z * list kfastblock_request_pg_target :=
  match ids with
  | [] => (0, ts)
  | id :: ids =>
      let '(ret, (_, osd, shard)) :=
        Meta.kfastblock_meta_resolve_pg_target (Some view) pool pg id
          (Some NULL) (Some NULL) (Some NULL) in
      if truthy ret then (ret, ts)
      else
        let osd := mjoin osd ≫= Meta.osd_at view in
        let shard := o ← osd; ss ← Meta.shards o; s ← mjoin shard; ss !! s in
        let target :=
          {| target_osd_id := from_option Meta.osd_id 0 osd;
             target_flags := from_option Meta.osd_flags 0 osd;
             target_port := from_option Meta.shard_port 0 shard;
             target_address := strscpy (from_option Meta.osd_address EmptyString osd)
                                 Meta.KFASTBLOCK_MAX_ADDR_LEN |} in
        capture_targets view pool pg ids (S k) (<[k := target]> ts)
  end.

(** The loop of [capture_pg_hints] over the hints in [idx]. *)
Fixpoint capture_loop (alloc : nat -> bool) (view : Meta.kfastblock_cluster_view)
    (idx : list nat) (r : kfastblock_request) : Z * kfastblock_request :=
  match idx with
  | [] => (0, r)
  | i :: idx =>
      let pg := from_option hint_pg_id 0 (default [] (pg_hints r) !! i) in
      let route := Meta.kfastblock_meta_find_pg_route (Some view) (request_pool_id r) pg
                   ≫= Meta.route_at view in
      match route with
      | NULL => (- ENOENT, r)
      | Some route =>
          if Meta.replica_count route =? 0 then (- ENOENT, r)
          else
            let r := set_hint i (fun h =>
                       h <| nr_targets := Meta.replica_count route |>
                         <| hint_leader_valid := Meta.leader_valid route |>
                         <| hint_leader := if Meta.leader_valid route then Meta.leader route
                                           else Meta.zero_leader |>) r in
            if negb (alloc i) then (- ENOMEM, set_hint i (fun h => h <| targets := NULL |>) r)
            else
              let n := Z.to_nat (Meta.replica_count route) in
              let '(ret, ts) := capture_targets view (request_pool_id r) pg
                                  (take n (Meta.osd_ids route)) 0 (replicate n zero_target) in
              let r := set_hint i (fun h => h <| targets := Some ts |>) r in
              if truthy ret then (ret, r) else capture_loop alloc view idx r
      end
  end.

Definition kfastblock_request_capture_pg_hints (alloc : nat -> bool)
    (req : ptr kfastblock_request) (view : ptr Meta.kfastblock_cluster_view)
    : Z * ptr kfastblock_request :=
  match req, view with
  | Some r, Some v =>
      let '(ret, r) := capture_loop alloc v (seq 0 (Z.to_nat (nr_unique_pgs r))) r in
      (ret, Some r)
  | _, _ => (- EINVAL, req)
  end.

(** ** Life of a request *)

Definition kfastblock_request_cleanup (vol : ptr kfastblock_volume) (req : ptr kfastblock_request)
    : ptr kfastblock_volume * ptr kfastblock_request :=
  match req with
  | NULL => (vol, NULL)
  | Some r =>
      let vol := on_vol Volume.kfastblock_volume_account_pipeline_cleanup r vol in
      let vol := on_vol Volume.kfastblock_volume_reset_pipeline_snapshot r vol in
      let req := kfastblock_request_free_pg_hint_targets (Some r) in
      (vol, (fun r =>
         r <| unique_pgs := NULL |> <| pg_hints := NULL |> <| objects := NULL |>
           <| object_works := NULL |> <| object_runtime := NULL |> <| max_object_extents := 0 |>
           <| pipeline ::= fun p => default p (Pipeline.kfastblock_pipeline_cleanup (Some p)) |>)
         <$> req)
  end.

(** [clamp_t(u32, x, lo, hi)] *)
Definition clamp_u32 (x lo hi : Z) : Z := Z.min (Z.max (u32 x) lo) hi.

(** The loop over the works and hints at the end of [init]. *)
Definition init_arrays (r : kfastblock_request) : kfastblock_request :=
  let n := Z.to_nat (max_object_extents r) in
  r <| object_works ::= fmap (map_upto n (fun i _ =>
         {| work_parent := true; work_object_index := Z.of_nat i |})) |>
    <| pg_hints ::= fmap (map_upto n (fun _ h =>
         h <| hint_pg_id := 0 |> <| nr_targets := 0 |> <| hint_leader_valid := false |>
           <| targets := NULL |>)) |>.

(** The request after the [memset] and the assignments that follow it. *)
Definition init_fields (v : kfastblock_volume) (b : block_request) : kfastblock_request :=
  let image := Meta.image (Volume.view v) in
  zero_request
    <| rq := Some b |> <| has_vol := true |>
    <| byte_offset := u64 (Z.shiftl (blk_rq_pos b) SECTOR_SHIFT) |>
    <| byte_length := blk_rq_bytes b |>
    <| request_pool_id := Meta.pool_id image |>
    <| request_object_size := Meta.object_size image |>
    <| request_osdmap_epoch := Meta.osdmap_epoch (Volume.view v) |>
    <| request_pgmap_epoch := Meta.pgmap_epoch (Volume.view v) |>.

(** The end of [init], from the accounting on. *)
Definition init_finish (now : Z) (v : kfastblock_volume) (r : kfastblock_request)
    : kfastblock_volume * kfastblock_request :=
  let v := default v (Volume.kfastblock_volume_account_pipeline_prepare (Some v)) in
  let '(window, c, _) :=
    Scheduler.kfastblock_scheduler_sample_window now (Some (Volume.scheduler v))
      (u32 (Volume.inflight_ios v)) (max_object_extents r) NULL in
  let v := v <| Volume.scheduler := default (Volume.scheduler v) c |> in
  let r := r <| dispatch_window := clamp_u32 window 1 (or_else (max_object_extents r) 1) |>
             <| next_object_to_queue := 0 |> <| pending_objects := 0 |> in
  (v, init_arrays r).

Definition kfastblock_request_init (now : Z) (alloc : nat -> bool) (req : ptr kfastblock_request)
    (vol : ptr kfastblock_volume) (rq' : ptr block_request)
    : Z * ptr kfastblock_volume * ptr kfastblock_request :=
  match req, vol, rq' with
  | Some _, Some v, Some b =>
      let '(vol, _) := kfastblock_request_cleanup vol req in
      let v := default v vol in
      let r := init_fields v b in
      let '(ret, req) := kfastblock_request_alloc_state alloc (Some r) in
      if truthy ret then (ret, Some v, req)
      else
        let r := default r req in
        let '(ret, p) := Pipeline.kfastblock_pipeline_init (alloc 5%nat) (Some (pipeline r))
                           (max_object_extents r) in
        let r := r <| pipeline := default (pipeline r) p |> in
        if truthy ret then
          let '(vol, req) := kfastblock_request_cleanup (Some v) (Some r) in (ret, vol, req)
        else
          let '(v, r) := init_finish now v r in (0, Some v, Some r)
  | _, _, _ => (- EINVAL, vol, req)
  end.

(** ** Splitting *)

(** One iteration of the [while (remaining)] loop after its guard: the extent
    and the request with the extent stored. *)
Definition split_extent (view : Meta.kfastblock_cluster_view) (object_size current_offset remaining : Z)
    (r : kfastblock_request) : kfastblock_object_extent :=
  let seq := current_offset / object_size in
  let offset := u32 (current_offset mod object_size) in
  let name := default EmptyString
    (kfastblock_request_build_object_name (Some EmptyString) KFASTBLOCK_MAX_OBJECT_NAME_LEN
       (request_pool_id r) (Some (Meta.image_name (Meta.image view))) seq) in
  {| object_seq := seq; request_offset := u32 (byte_length r - remaining);
     object_offset := offset;
     extent_length := Z.min remaining (u32 (object_size - offset));
     pg_id := kfastblock_request_calc_pg (Some name) (Meta.pg_count (Meta.image view));
     object_name := name |}.

Definition split_store (e : kfastblock_object_extent) (r : kfastblock_request)
    : kfastblock_request :=
  let r := r <| objects ::= fmap <[Z.to_nat (nr_objects r) := e]> |> in
  let r := default r (kfastblock_request_track_unique_pg (Some r) (pg_id e)) in
  r <| nr_objects ::= fun n => u32 (n + 1) |>.

(** The loop.  Each iteration takes one of the [max_object_extents] slots, so
    the number of free slots is enough fuel: when it is used up the guard on
    [nr_objects] has ended the loop. *)
Fixpoint split_loop (fuel : nat) (view : Meta.kfastblock_cluster_view) (object_size : Z)
    (current_offset remaining : Z) (r : kfastblock_request) : Z * kfastblock_request :=
  if remaining =? 0 then (0, r)
  else if nr_objects r >=? max_object_extents r then (- E2BIG, r)
  else
    match fuel with
    | O => (- E2BIG, r)
    | S fuel =>
        let e := split_extent view object_size current_offset remaining r in
        split_loop fuel view object_size (u64 (current_offset + extent_length e))
          (u32 (remaining - extent_length e)) (split_store e r)
    end.

Definition kfastblock_request_split (alloc : nat -> bool) (vol : ptr kfastblock_volume)
    (req : ptr kfastblock_request) : Z * ptr kfastblock_request :=
  match req with
  | NULL => (- EINVAL, NULL)
  | Some r =>
      match rq r, (if has_vol r then vol else NULL) with
      | Some _, Some v =>
          let view := Volume.view v in
          let object_size := request_object_size r in
          if (object_size =? 0) || (Meta.pg_count (Meta.image view) =? 0) then (- EINVAL, req)
          else
            let '(ret, r) :=
              split_loop (Z.to_nat (max_object_extents r - nr_objects r)) view object_size
                (byte_offset r) (byte_length r) r in
            if truthy ret then (ret, Some r)
            else kfastblock_request_capture_pg_hints alloc (Some r) (Some view)
      | _, _ => (- EINVAL, req)
      end
  end.

(** ** Leader of a hint *)

Definition kfastblock_request_get_pg_hint_leader (hint : ptr kfastblock_request_pg_hint)
    (leader : ptr Meta.kfastblock_leader_info) : Z * ptr Meta.kfastblock_leader_info :=
  match hint, leader with
  | Some h, Some _ =>
      if negb (hint_leader_valid h) then (- ENOENT, leader) else (0, Some (hint_leader h))
  | _, _ => (- EINVAL, leader)
  end.

Definition kfastblock_request_set_pg_hint_leader (hint : ptr kfastblock_request_pg_hint)
    (leader : ptr Meta.kfastblock_leader_info) : ptr kfastblock_request_pg_hint :=
  match leader with
  | NULL => hint
  | Some l => (fun h => h <| hint_leader := l |> <| hint_leader_valid := true |>) <$> hint
  end.

Definition kfastblock_request_invalidate_pg_hint_leader (hint : ptr kfastblock_request_pg_hint)
    : ptr kfastblock_request_pg_hint :=
  (fun h => h <| hint_leader_valid := false |> <| hint_leader := Meta.zero_leader |>) <$> hint.

(** ** Placement groups: the hash is a [u32], the group is in range *)

Lemma calc_pg_range name n : 0 < n -> 0 <= kfastblock_request_calc_pg (Some name) n < n.
Proof.
  intros Hn. unfold kfastblock_request_calc_pg. rewrite (proj2 (Z.eqb_neq n 0)) by lia.
  by apply Z.mod_pos_bound.
Qed.

(** The unique placement groups collected so far are those of the extents, in
    an array of [m] slots, with a hint for each. *)
Record pgs_inv (m : nat) (r : kfastblock_request) (pgs us : list Z) : Prop := {
  pi_unique : exists rest, unique_pgs r = Some (us ++ rest) /\
                           List.length (us ++ rest) = m;
  pi_count : nr_unique_pgs r = Z.of_nat (List.length us);
  pi_nodup : NoDup us;
  pi_same : forall pg, pg ∈ us <-> pg ∈ pgs;
  pi_hints : exists hs, pg_hints r = Some hs /\ List.length hs = m /\
                        hint_pg_id <$> take (List.length us) hs = us;
  pi_max : max_object_extents r = Z.of_nat m;
}.

Lemma pgs_inv_length m r pgs us : pgs_inv m r pgs us -> (List.length us <= List.length pgs)%nat.
Proof.
  intros H. apply submseteq_length, NoDup_submseteq; [apply (pi_nodup _ _ _ _ H)|].
  intros pg. apply (pi_same _ _ _ _ H).
Qed.

Lemma insert_app_cons {A} (l rest : list A) (x y : A) :
  <[List.length l := x]> (l ++ y :: rest) = l ++ x :: rest.
Proof. rewrite insert_app_r_alt by lia. by rewrite Nat.sub_diag. Qed.

(** A request with its unique placement groups and hints blanked. *)
Definition apart_from_pgs (r : kfastblock_request) : kfastblock_request :=
  r <| unique_pgs := NULL |> <| nr_unique_pgs := 0 |> <| pg_hints := NULL |>.

Lemma track_unique_pg_frame r pg :
  apart_from_pgs <$> kfastblock_request_track_unique_pg (Some r) pg = Some (apart_from_pgs r).
Proof. simpl. by repeat case_match. Qed.

Lemma track_unique_pg_same r pg r' :
  kfastblock_request_track_unique_pg (Some r) pg = Some r' ->
  objects r' = objects r /\ nr_objects r' = nr_objects r /\
  byte_length r' = byte_length r /\ request_pool_id r' = request_pool_id r.
Proof.
  intros E. pose proof (track_unique_pg_frame r pg) as Hf. rewrite E in Hf.
  by injection Hf.
Qed.

Lemma existsb_eqb_elem pg l : existsb (Z.eqb pg) l = true <-> pg ∈ l.
Proof.
  rewrite existsb_exists. setoid_rewrite Z.eqb_eq. split.
  - intros (x & Hx & ->). by apply list_elem_of_In.
  - intros Hx. exists pg. split; [by apply list_elem_of_In|done].
Qed.

Lemma take_hints_alter (us : list Z) hs pg f :
  (List.length us < List.length hs)%nat -> hint_pg_id <$> take (List.length us) hs = us ->
  (forall h, hint_pg_id (f h) = pg) ->
  hint_pg_id <$> take (List.length (us ++ [pg])) (alter f (List.length us) hs) = us ++ [pg].
Proof.
  intros Hl Hus Hf. rewrite length_app; simpl. rewrite Nat.add_1_r.
  destruct (lookup_lt_is_Some_2 hs (List.length us) Hl) as [h Hh].
  rewrite (take_S_r _ _ (f h)) by (by rewrite list_lookup_alter_eq, Hh).
  rewrite take_alter, decide_False, fmap_app, Hus by lia. simpl. by rewrite Hf.
Qed.

Lemma track_unique_pg_inv m r pgs us pg :
  pgs_inv m r pgs us -> (List.length pgs < m)%nat -> (m <= 128)%nat ->
  exists r' us', kfastblock_request_track_unique_pg (Some r) pg = Some r' /\
    pgs_inv m r' (pgs ++ [pg]) us'.
Proof.
  intros H Hlt Hm. pose proof (pgs_inv_length _ _ _ _ H) as Hle.
  destruct H as [(rest & Hu & Hul) Hc Hnd Hsame (hs & Hh & Hhl & Hhp) Hmax].
  unfold kfastblock_request_track_unique_pg. simpl. rewrite Hu, Hc, Hmax, Nat2Z.id. simpl.
  rewrite take_app_length. case_match eqn:Hex.
  { apply existsb_eqb_elem in Hex. exists r, us. split; [done|].
    split; eauto. intros q. rewrite Hsame, elem_of_app, list_elem_of_singleton.
    apply Hsame in Hex. naive_solver. }
  rewrite Z.geb_leb, (proj2 (Z.leb_gt _ _)) by lia.
  destruct rest as [|y rest]; [rewrite app_nil_r in Hul; lia|].
  eexists _, (us ++ [pg]). split; [done|].
  rewrite length_app in Hul; simpl in Hul.
  split; simpl.
  - exists rest. rewrite insert_app_cons, <- app_assoc. split; [done|].
    rewrite length_app; simpl; lia.
  - rewrite u32_small by lia. rewrite length_app; simpl; lia.
  - apply NoDup_app; split; [done|]. split; [|apply NoDup_singleton].
    intros q Hq ->%list_elem_of_singleton. apply existsb_eqb_elem in Hq. congruence.
  - intros q. rewrite !elem_of_app, Hsame. done.
  - eexists. rewrite Hh. split; [done|]. rewrite length_alter. split; [done|].
    by apply take_hints_alter; [lia|done|].
  - done.
Qed.

(** ** The extents tile the request *)

(** The extents [es] cover the bytes [p .. q] of a request at offset [off] of an
    image with objects of [size] bytes, in order, without gap or overlap, each
    inside one object and at its place there. *)
Fixpoint tiles (size off p : Z) (es : list kfastblock_object_extent) (q : Z) : Prop :=
  match es with
  | [] => p = q
  | e :: es =>
      request_offset e = p /\ 0 < extent_length e /\ 0 <= object_offset e /\
      object_offset e + extent_length e <= size /\
      object_seq e * size + object_offset e = off + p /\
      tiles size off (p + extent_length e) es q
  end.

Lemma tiles_snoc size off p es q e :
  tiles size off p es q -> request_offset e = q -> 0 < extent_length e ->
  0 <= object_offset e -> object_offset e + extent_length e <= size ->
  object_seq e * size + object_offset e = off + q ->
  tiles size off p (es ++ [e]) (q + extent_length e).
Proof.
  revert p; induction es as [|e' es IH]; intros p Ht; simpl in *.
  - subst. naive_solver.
  - naive_solver.
Qed.

Lemma tiles_bounds size off es : forall p q i e,
  tiles size off p es q -> es !! i = Some e ->
  p <= request_offset e /\ request_offset e + extent_length e <= q.
Proof.
  assert (Hle : forall es p q, tiles size off p es q -> p <= q).
  { clear. induction es as [|e es IH]; simpl; [lia|].
    intros p q (?&?&?&?&?&H%IH). lia. }
  induction es as [|e' es IH]; intros p q i e Ht Hi; [done|].
  destruct Ht as (Hr & Hl & _ & _ & _ & Ht). destruct i as [|i]; simplify_eq/=.
  - apply Hle in Ht. lia.
  - destruct (IH _ _ _ _ Ht Hi). lia.
Qed.

(** Where the byte [x] of the request goes. *)
Definition holds_byte (x : Z) (e : kfastblock_object_extent) : Prop :=
  request_offset e <= x < request_offset e + extent_length e.

Lemma tiles_byte size off es : 0 < size -> forall p q x,
  tiles size off p es q -> p <= x < q ->
  exists i e, es !! i = Some e /\ holds_byte x e /\
    object_seq e = (off + x) / size /\
    object_offset e + (x - request_offset e) = (off + x) mod size.
Proof.
  intros Hs. induction es as [|e es IH]; intros p q x Ht Hx; simpl in Ht; [lia|].
  destruct Ht as (Hr & Hl & Ho & Hf & Hp & Ht).
  destruct (decide (x < p + extent_length e)).
  - exists 0%nat, e. split; [done|]. split; [unfold holds_byte; lia|].
    apply (Z.div_mod_unique size); [left; lia|left; apply Z.mod_pos_bound; lia|].
    rewrite <- Z.div_mod by lia. lia.
  - destruct (IH _ _ x Ht ltac:(lia)) as (i & e' & He & H). by exists (S i), e'.
Qed.

Lemma tiles_unique size off es : forall p q x i j e e',
  tiles size off p es q -> es !! i = Some e -> es !! j = Some e' ->
  holds_byte x e -> holds_byte x e' -> i = j.
Proof.
  unfold holds_byte. induction es as [|e0 es IH]; intros p q x i j e e' Ht Hi Hj Hx Hx'; [done|].
  destruct Ht as (Hr & Hl & _ & _ & _ & Ht).
  destruct i as [|i], j as [|j]; simplify_eq/=; [done| | |].
  - destruct (tiles_bounds _ _ _ _ _ _ _ Ht Hj). lia.
  - destruct (tiles_bounds _ _ _ _ _ _ _ Ht Hi). lia.
  - f_equal. by eapply IH.
Qed.

(** ** The loop *)

(** An extent names its object and lies in the group of the name. *)
Definition named (view : Meta.kfastblock_cluster_view) (pool : Z) (e : kfastblock_object_extent)
    : Prop :=
  Some (object_name e) =
    kfastblock_request_build_object_name (Some EmptyString) KFASTBLOCK_MAX_OBJECT_NAME_LEN pool
      (Some (Meta.image_name (Meta.image view))) (object_seq e) /\
  pg_id e = kfastblock_request_calc_pg (Some (object_name e)) (Meta.pg_count (Meta.image view)).

(** The state of the loop after the extents [es]. *)
Record split_inv (view : Meta.kfastblock_cluster_view) (size off len pool : Z) (m : nat)
    (r : kfastblock_request) (es : list kfastblock_object_extent) (us : list Z) : Prop := {
  si_len : byte_length r = len;
  si_pool : request_pool_id r = pool;
  si_count : nr_objects r = Z.of_nat (List.length es);
  si_objects : exists rest, objects r = Some (es ++ rest) /\ List.length (es ++ rest) = m;
  si_named : Forall (named view pool) es;
  si_pgs : pgs_inv m r (pg_id <$> es) us;
}.

Lemma split_store_inv view size off len pool m r es us e :
  split_inv view size off len pool m r es us -> (List.length es < m <= 128)%nat ->
  named view pool e ->
  exists us', split_inv view size off len pool m (split_store e r) (es ++ [e]) us'.
Proof.
  intros [Hl Hp Hc (rest & Ho & Hol) Hn Hg] Hlt He. unfold split_store.
  set (r1 := r <| objects ::= _ |>).
  destruct (track_unique_pg_inv m r1 (pg_id <$> es) us (pg_id e)) as (r2 & us' & E & Hg2).
  { by destruct Hg; split. }
  { rewrite length_fmap. lia. } { lia. }
  destruct (track_unique_pg_same _ _ _ E) as (E1 & E2 & E3 & E4).
  rewrite E. exists us'. cbn [default from_option].
  destruct rest as [|y rest]; [rewrite app_nil_r in Hol; lia|].
  rewrite length_app in Hol; simpl in Hol.
  split; simpl.
  - by rewrite E3.
  - by rewrite E4.
  - rewrite length_app, E2; simpl. rewrite Hc, u32_small; lia.
  - exists rest. rewrite E1; simpl. rewrite Ho, Hc, Nat2Z.id; simpl.
    rewrite insert_app_cons, <- app_assoc. split; [done|]. rewrite length_app; simpl; lia.
  - apply Forall_app; split; [done|]. by rewrite Forall_singleton.
  - rewrite fmap_app. destruct Hg2; by split.
Qed.

Section split_loop.
Context (view : Meta.kfastblock_cluster_view) (size off len pool : Z) (m : nat).
Hypothesis Hsize : 0 < size < 2 ^ 32.
Hypothesis Hoff : 0 <= off < 2 ^ 64.
Hypothesis Hlen : 0 <= len < 2 ^ 32.
Hypothesis Hend : off + len <= 2 ^ 64.
Hypothesis Hm : (m <= 128)%nat.
Hypothesis Hcount : 0 < len -> Z.of_nat m = (off + len - 1) / size - off / size + 1.

Lemma split_extent_spec p r :
  0 <= p < len -> byte_length r = len ->
  let e := split_extent view size (off + p) (len - p) r in
  request_offset e = p /\ object_seq e = (off + p) / size /\
  object_offset e = (off + p) mod size /\
  extent_length e = Z.min (len - p) (size - (off + p) mod size) /\
  named view (request_pool_id r) e.
Proof.
  intros Hp Hl. unfold split_extent.
  pose proof (Z.mod_pos_bound (off + p) size ltac:(lia)).
  cbn [request_offset object_seq object_offset extent_length].
  rewrite Hl, (u32_small ((off + p) mod size)) by lia.
  rewrite !u32_small by lia.
  split; [lia|]. split; [reflexivity|]. split; [reflexivity|]. split; [reflexivity|].
  split; reflexivity.
Qed.

Lemma div_next q l : 0 <= q -> l = size - q mod size -> (q + l) / size = q / size + 1.
Proof.
  intros Hq ->. pose proof (Z.div_mod q size ltac:(lia)).
  replace (q + (size - q mod size)) with ((q / size + 1) * size) by lia.
  apply Z.div_mul; lia.
Qed.

Lemma split_loop_ok : forall fuel p r es us,
  split_inv view size off len pool m r es us -> tiles size off 0 es p -> 0 <= p <= len ->
  (p < len -> (off + p) / size = off / size + Z.of_nat (List.length es)) ->
  (m - List.length es <= fuel)%nat ->
  exists r' es' us', split_loop fuel view size (u64 (off + p)) (len - p) r = (0, r') /\
    split_inv view size off len pool m r' es' us' /\ tiles size off 0 es' len.
Proof.
  induction fuel as [|fuel IH]; intros p r es us Hr Ht Hp Hn Hfuel; cbn [split_loop];
    destruct (Z.eqb_spec (len - p) 0).
  1, 3: assert (p = len) as -> by lia; by exists r, es, us.
  all: specialize (Hn ltac:(lia)); specialize (Hcount ltac:(lia));
    pose proof (Z.div_le_mono (off + p) (off + len - 1) size ltac:(lia) ltac:(lia));
    assert (Hlt : (List.length es < m)%nat) by lia.
  { lia. }
  rewrite (si_count _ _ _ _ _ _ _ _ _ Hr), (pi_max _ _ _ _ (si_pgs _ _ _ _ _ _ _ _ _ Hr)).
  rewrite Z.geb_leb, (proj2 (Z.leb_gt _ _)), (u64_small (off + p)) by lia.
  destruct (split_extent_spec p r) as (E1 & E2 & E3 & E4 & E5); [lia|apply Hr|].
  rewrite (si_pool _ _ _ _ _ _ _ _ _ Hr) in E5.
  set (e := split_extent _ _ _ _ _) in *. clearbody e.
  pose proof (Z.mod_pos_bound (off + p) size ltac:(lia)).
  pose proof (Z.div_mod (off + p) size ltac:(lia)).
  destruct (split_store_inv _ _ _ _ _ _ _ _ _ e Hr) as (us' & Hr'); [lia|done|].
  replace (u64 (off + p + extent_length e)) with (u64 (off + (p + extent_length e))) by (f_equal; lia).
  replace (u32 (len - p - extent_length e)) with (len - (p + extent_length e))
    by (rewrite u32_small; lia).
  eapply IH; [exact Hr'|apply tiles_snoc; [done|lia..]|lia| |rewrite length_app; simpl; lia].
  intros Hlt'. rewrite length_app; simpl.
  rewrite Z.add_assoc, div_next by lia. lia.
Qed.

End split_loop.

(** ** Capturing the hints leaves the extents alone *)

Definition capture_errors : list Z := [0; - ENOENT; - ENOMEM; - EINVAL].

Lemma resolve_pg_target_ret view pool pg id a b c :
  (Meta.kfastblock_meta_resolve_pg_target view pool pg id a b c).1 ∈ capture_errors.
Proof.
  unfold Meta.kfastblock_meta_resolve_pg_target. repeat case_match; simpl;
    unfold capture_errors; set_solver.
Qed.

Lemma capture_targets_ret view pool pg ids : forall k ts,
  (capture_targets view pool pg ids k ts).1 ∈ capture_errors.
Proof.
  induction ids as [|id ids IH]; intros k ts; cbn [capture_targets]; [unfold capture_errors; set_solver|].
  pose proof (resolve_pg_target_ret (Some view) pool pg id (Some NULL) (Some NULL) (Some NULL)) as H.
  destruct (Meta.kfastblock_meta_resolve_pg_target _ _ _ _ _ _ _) as [ret [[? osd] shard]] in *.
  destruct (truthy ret); [done|apply IH].
Qed.

(** [r'] is [r] up to its hints, and the hints are for the same groups. *)
Definition same_groups (r r' : kfastblock_request) : Prop :=
  r <| pg_hints := NULL |> = r' <| pg_hints := NULL |> /\
  map hint_pg_id <$> pg_hints r = map hint_pg_id <$> pg_hints r'.

#[local] Instance same_groups_preorder : PreOrder same_groups.
Proof. split; [by split|]. intros r1 r2 r3 [H1 H2] [H3 H4]. split; congruence. Qed.

Lemma set_hint_same_groups i f r :
  (forall h, hint_pg_id (f h) = hint_pg_id h) -> same_groups r (set_hint i f r).
Proof.
  intros Hf. split; [done|]. simpl. destruct (pg_hints r) as [hs|]; [|done]. simpl. f_equal.
  apply list_eq. intros j. rewrite !list_lookup_fmap, list_lookup_alter.
  case_decide; [subst|done]. destruct (hs !! j); simpl; congruence.
Qed.

Lemma capture_loop_spec alloc view idx : forall r,
  let res := capture_loop alloc view idx r in
  res.1 ∈ capture_errors /\ same_groups r res.2.
Proof.
  assert (H0 : 0 ∈ capture_errors /\ - ENOENT ∈ capture_errors /\ - ENOMEM ∈ capture_errors)
    by (unfold capture_errors; set_solver).
  destruct H0 as (H0 & H1 & H2).
  induction idx as [|i idx IH]; intros r; cbn [capture_loop]; [done|].
  case_match eqn:Hr; [|done]. case_match; [done|].
  case_match.
  { split; [done|]. etrans; by apply set_hint_same_groups. }
  set (n := Z.to_nat _). set (pg := from_option hint_pg_id 0 _).
  pose proof (capture_targets_ret view (request_pool_id r) pg (take n (Meta.osd_ids k)) 0
    (replicate n zero_target)) as Ht.
  destruct (capture_targets _ _ _ _ _ _) as [ret ts] in *. simpl in Ht.
  assert (Hs : forall f g, (forall h, hint_pg_id (f h) = hint_pg_id h) ->
    (forall h, hint_pg_id (g h) = hint_pg_id h) -> same_groups r (set_hint i f (set_hint i g r))).
  { intros f g Hf Hg. etrans; by apply set_hint_same_groups. }
  destruct (truthy ret); simpl.
  { split; [done|]. by apply Hs. }
  match goal with |- context [capture_loop alloc view idx ?r'] => destruct (IH r') as [Hret Hg] end.
  split; [done|]. etrans; [|exact Hg]. by apply Hs.
Qed.

(** ** Initialisation *)

(** What a successful [kfastblock_request_init] leaves. *)
Record init_ok (v : kfastblock_volume) (b : block_request) (r : kfastblock_request) : Prop := {
  io_rq : rq r = Some b;
  io_vol : has_vol r = true;
  io_offset : byte_offset r = u64 (Z.shiftl (blk_rq_pos b) SECTOR_SHIFT);
  io_length : byte_length r = blk_rq_bytes b;
  io_pool : request_pool_id r = Meta.pool_id (Meta.image (Volume.view v));
  io_size : request_object_size r = Meta.object_size (Meta.image (Volume.view v));
  io_objects : nr_objects r = 0;
  io_pgs : nr_unique_pgs r = 0;
  io_max : max_object_extents r = kfastblock_request_estimate_extent_count (Some r);
  io_small : max_object_extents r <= KFASTBLOCK_MAX_OBJECT_EXTENTS;
  io_arrays : max_object_extents r <> 0 -> exists hs,
    objects r = Some (replicate (Z.to_nat (max_object_extents r)) zero_extent) /\
    unique_pgs r = Some (replicate (Z.to_nat (max_object_extents r)) 0) /\
    pg_hints r = Some hs /\ List.length hs = Z.to_nat (max_object_extents r);
}.

(** [alloc_state] succeeds without arrays, or with all of them. *)
Lemma alloc_state_ok alloc r req :
  max_object_extents r = 0 ->
  kfastblock_request_alloc_state alloc (Some r) = (0, req) ->
  let count := kfastblock_request_estimate_extent_count (Some r) in
  let n := Z.to_nat count in
  (count = 0 /\ req = Some r) \/
  ((count <> 0 /\ count <= KFASTBLOCK_MAX_OBJECT_EXTENTS) /\
   req = Some (r <| unique_pgs := Some (replicate n 0) |>
                 <| pg_hints := Some (replicate n zero_hint) |>
                 <| objects := Some (replicate n zero_extent) |>
                 <| object_works := Some (replicate n zero_work) |>
                 <| object_runtime := Some (replicate n zero_runtime) |>
                 <| max_object_extents := count |>)).
Proof.
  intros Hm. unfold kfastblock_request_alloc_state.
  destruct (Z.eqb_spec (kfastblock_request_estimate_extent_count (Some r)) 0) as [E|E].
  { intros [= <-]. by left. }
  rewrite Z.gtb_ltb. case_match; [done|]. unbool.
  do 5 match goal with |- context [alloc ?k] => destruct (alloc k); [|by intros [=]] end.
  intros E'. right. split; [lia|]. symmetry. exact (f_equal snd E').
Qed.

Lemma cleanup_view vol req vol' req' :
  kfastblock_request_cleanup vol req = (vol', req') ->
  Volume.view <$> vol' = Volume.view <$> vol.
Proof.
  unfold kfastblock_request_cleanup, on_vol. destruct req as [r|]; [|by intros [= <- _]].
  destruct (has_vol r); intros [= <- _]; by destruct vol.
Qed.

Lemma init_finish_spec now v r :
  let '(v', r') := init_finish now v r in
  Volume.view v' = Volume.view v /\
  exists w, r' = init_arrays (r <| dispatch_window := w |> <| next_object_to_queue := 0 |>
                                <| pending_objects := 0 |>).
Proof.
  unfold init_finish.
  destruct (Scheduler.kfastblock_scheduler_sample_window _ _ _ _ _) as [[w c] smp].
  split; [done|]. by eexists.
Qed.

Lemma estimate_ext r r' :
  byte_length r = byte_length r' -> request_object_size r = request_object_size r' ->
  byte_offset r = byte_offset r' ->
  kfastblock_request_estimate_extent_count (Some r) = kfastblock_request_estimate_extent_count (Some r').
Proof. intros H1 H2 H3. simpl. by rewrite H1, H2, H3. Qed.

Lemma init_ok_fields v b n r :
  n = kfastblock_request_estimate_extent_count (Some (init_fields v b)) ->
  n <= KFASTBLOCK_MAX_OBJECT_EXTENTS ->
  (n = 0 /\ r = init_fields v b \/
   n <> 0 /\ r = init_fields v b <| unique_pgs := Some (replicate (Z.to_nat n) 0) |>
                 <| pg_hints := Some (replicate (Z.to_nat n) zero_hint) |>
                 <| objects := Some (replicate (Z.to_nat n) zero_extent) |>
                 <| object_works := Some (replicate (Z.to_nat n) zero_work) |>
                 <| object_runtime := Some (replicate (Z.to_nat n) zero_runtime) |>
                 <| max_object_extents := n |>) ->
  init_ok v b r.
Proof.
  intros E Hn [(-> & ->)|(Hn0 & ->)]; split; try exact eq_refl.
  - rewrite <- E. exact eq_refl.
  - exact Hn.
  - intros []. exact eq_refl.
  - rewrite (estimate_ext _ (init_fields v b)) by exact eq_refl. exact E.
  - exact Hn.
  - intros _. exists (replicate (Z.to_nat n) zero_hint).
    split; [exact eq_refl|]. split; [exact eq_refl|]. split; [exact eq_refl|].
    apply length_replicate.
Qed.

(** The rest of [init] keeps what [init_ok] says. *)
Lemma init_ok_finish v b r p w :
  init_ok v b r ->
  init_ok v b (init_arrays (r <| pipeline := p |> <| dispatch_window := w |>
                  <| next_object_to_queue := 0 |> <| pending_objects := 0 |>)).
Proof.
  intros [H1 H2 H3 H4 H5 H6 H7 H8 H9 H10 H11].
  split; [exact H1|exact H2|exact H3|exact H4|exact H5|exact H6|exact H7|exact H8| |exact H10|].
  - rewrite (estimate_ext _ r) by exact eq_refl. exact H9.
  - intros Hm. destruct (H11 Hm) as (hs & E1 & E2 & E3 & E4). eexists.
    split; [exact E1|]. split; [exact E2|]. split; [simpl; rewrite E3; reflexivity|].
    unfold map_upto. rewrite length_imap. exact E4.
Qed.

Lemma request_init_ok now alloc req v b vol' r :
  kfastblock_request_init now alloc req (Some v) (Some b) = (0, vol', Some r) ->
  Volume.view <$> vol' = Some (Volume.view v) /\ init_ok v b r.
Proof.
  unfold kfastblock_request_init. destruct req as [r0|]; [|done].
  destruct (kfastblock_request_cleanup (Some v) (Some r0)) as [vol1 req1] eqn:Ec.
  apply cleanup_view in Ec. destruct vol1 as [v1|]; [|done].
  change (default v (Some v1)) with v1. injection Ec as Ec.
  assert (Hi : init_fields v1 b = init_fields v b) by (unfold init_fields; by rewrite Ec).
  rewrite Hi. set (r1 := init_fields v b).
  destruct (kfastblock_request_alloc_state alloc (Some r1)) as [ret req2] eqn:Ea.
  destruct (truthy ret) eqn:Hret; [by intros E; injection E as ->|].
  assert (ret = 0) as -> by (by unbool). clear Hret.
  apply alloc_state_ok in Ea; [|done].
  destruct (Pipeline.kfastblock_pipeline_init _ _ _) as [ret p].
  destruct (truthy ret) eqn:Hret.
  { destruct (kfastblock_request_cleanup _ _). by intros E; injection E as ->. }
  pose proof (init_finish_spec now v1 (default r1 req2 <| pipeline := default (pipeline (default r1 req2)) p |>)) as Hf.
  destruct (init_finish now v1 _) as [v2 r2]. intros E; injection E as <- <-.
  destruct Hf as (Hv & w & ->). split; [simpl; congruence|].
  subst r1. apply init_ok_finish. eapply init_ok_fields; [reflexivity| |].
  - destruct Ea as [(E & _) | ((_ & E') & _)]; [by rewrite E|exact E'].
  - destruct Ea as [(E & ->) | ((E & _) & ->)]; [left|right]; (split; [exact E|reflexivity]).
Qed.

(** ** Splitting an initialised request *)

(** The image is usable and the request lies in the address space. *)
Record valid_io (v : kfastblock_volume) (b : block_request) : Prop := {
  vi_size : 0 < Meta.object_size (Meta.image (Volume.view v)) < 2 ^ 32;
  vi_pgs : 0 < Meta.pg_count (Meta.image (Volume.view v));
  vi_pos : 0 <= blk_rq_pos b;
  vi_bytes : 0 <= blk_rq_bytes b < 2 ^ 32;
  vi_start : blk_rq_pos b * 512 < 2 ^ 64;
  vi_end : blk_rq_pos b * 512 + blk_rq_bytes b <= 2 ^ 64;
}.

Definition extents (r : kfastblock_request) : list kfastblock_object_extent :=
  take (Z.to_nat (nr_objects r)) (default [] (objects r)).

Definition request_pgs (r : kfastblock_request) : list Z :=
  take (Z.to_nat (nr_unique_pgs r)) (default [] (unique_pgs r)).

Definition request_hints (r : kfastblock_request) : list kfastblock_request_pg_hint :=
  take (Z.to_nat (nr_unique_pgs r)) (default [] (pg_hints r)).

(** What splitting promises of the extents and placement groups. *)
Record split_ok (v : kfastblock_volume) (b : block_request) (r : kfastblock_request) : Prop := {
  so_tiles : tiles (Meta.object_size (Meta.image (Volume.view v))) (blk_rq_pos b * 512) 0
               (extents r) (blk_rq_bytes b);
  so_named : Forall (named (Volume.view v) (Meta.pool_id (Meta.image (Volume.view v)))) (extents r);
  so_nodup : NoDup (request_pgs r);
  so_pgs : forall pg, pg ∈ request_pgs r <-> pg ∈ pg_id <$> extents r;
  so_hints : hint_pg_id <$> request_hints r = request_pgs r;
}.

Lemma split_inv_ok v b m r es us :
  let image := Meta.image (Volume.view v) in
  split_inv (Volume.view v) (Meta.object_size image) (blk_rq_pos b * 512) (blk_rq_bytes b)
    (Meta.pool_id image) m r es us ->
  tiles (Meta.object_size image) (blk_rq_pos b * 512) 0 es (blk_rq_bytes b) ->
  split_ok v b r.
Proof.
  intros image [_ _ Hc (rest & Ho & _) Hn [(rest' & Hu & _) Hg Hnd Hs (hs & Hh & _ & Hhp) _]] Ht.
  assert (E1 : extents r = es)
    by (unfold extents; rewrite Hc, Ho, Nat2Z.id; apply take_app_length).
  assert (E2 : request_pgs r = us)
    by (unfold request_pgs; rewrite Hg, Hu, Nat2Z.id; apply take_app_length).
  split; rewrite ?E1, ?E2; try done.
  unfold request_hints. by rewrite Hg, Hh, Nat2Z.id.
Qed.

Lemma same_groups_split_ok v b r r' : same_groups r r' -> split_ok v b r -> split_ok v b r'.
Proof.
  intros [H1 H2]. assert (E1 : extents r' = extents r)
    by (unfold extents; injection H1; intros; congruence).
  assert (E2 : request_pgs r' = request_pgs r)
    by (unfold request_pgs; injection H1; intros; congruence).
  assert (E3 : hint_pg_id <$> request_hints r' = hint_pg_id <$> request_hints r).
  { unfold request_hints. replace (nr_unique_pgs r') with (nr_unique_pgs r)
      by (injection H1; intros; congruence).
    rewrite !fmap_take. destruct (pg_hints r), (pg_hints r'); try done.
    injection H2 as H2. f_equal. exact (eq_sym H2). }
  intros [Ht Hn Hd Hp Hh]. split; rewrite ?E1, ?E2, ?E3; done.
Qed.

Lemma init_split_inv v b r :
  init_ok v b r -> max_object_extents r <> 0 -> 0 <= max_object_extents r ->
  let image := Meta.image (Volume.view v) in
  split_inv (Volume.view v) (Meta.object_size image) (blk_rq_pos b * 512) (blk_rq_bytes b)
    (Meta.pool_id image) (Z.to_nat (max_object_extents r)) r [] [].
Proof.
  intros H Hm Hm0 image. destruct (io_arrays _ _ _ H Hm) as (hs & E1 & E2 & E3 & E4).
  split; try apply H.
  - eexists. split; [exact E1|]. apply length_replicate.
  - constructor.
  - split; try apply H.
    + eexists. split; [exact E2|]. apply length_replicate.
    + constructor.
    + done.
    + exists hs. done.
    + lia.
Qed.

(** The estimate is the number of objects that the request touches. *)
Lemma estimate_spec r :
  0 < request_object_size r -> 0 <= byte_offset r -> 0 < byte_length r ->
  byte_offset r + byte_length r <= 2 ^ 64 ->
  let last := (byte_offset r + byte_length r - 1) / request_object_size r in
  let first := byte_offset r / request_object_size r in
  let n := kfastblock_request_estimate_extent_count (Some r) in
  0 < n /\ (n <= KFASTBLOCK_MAX_OBJECT_EXTENTS -> n = last - first + 1).
Proof.
  intros H1 H2 H3 H4. simpl. rewrite (proj2 (Z.eqb_neq (byte_length r) 0)) by lia.
  rewrite (proj2 (Z.eqb_neq (request_object_size r) 0)) by lia. simpl.
  rewrite u64_small by lia.
  pose proof (Z.div_le_mono (byte_offset r) (byte_offset r + byte_length r - 1)
    (request_object_size r) ltac:(lia) ltac:(lia)).
  rewrite (proj2 (Z.ltb_ge _ _)) by done. unfold KFASTBLOCK_MAX_OBJECT_EXTENTS.
  rewrite Z.gtb_ltb. case_match; unbool; lia.
Qed.

Lemma split_loop_init v b r :
  init_ok v b r -> valid_io v b -> byte_offset r = blk_rq_pos b * 512 ->
  exists r', split_loop (Z.to_nat (max_object_extents r - nr_objects r)) (Volume.view v)
      (Meta.object_size (Meta.image (Volume.view v))) (byte_offset r) (byte_length r) r
    = (0, r') /\ split_ok v b r'.
Proof.
  intros Hi [Hs Hp H0 Hb H1 H2] Hoff.
  rewrite (io_length _ _ _ Hi), (io_objects _ _ _ Hi).
  destruct (decide (blk_rq_bytes b = 0)) as [E0|E0].
  - exists r. split; [destruct (Z.to_nat _); cbn [split_loop]; by rewrite E0|].
    assert (E1 : extents r = []) by (unfold extents; by rewrite (io_objects _ _ _ Hi)).
    assert (E2 : request_pgs r = []) by (unfold request_pgs; by rewrite (io_pgs _ _ _ Hi)).
    assert (E3 : request_hints r = []) by (unfold request_hints; by rewrite (io_pgs _ _ _ Hi)).
    split; rewrite ?E1, ?E2, ?E3; try done; [by constructor..].
  - destruct (estimate_spec r) as [He1 He2];
      rewrite ?(io_size _ _ _ Hi), ?(io_length _ _ _ Hi), ?Hoff in *; try lia.
    rewrite <- (io_max _ _ _ Hi) in He1, He2. pose proof (io_small _ _ _ Hi) as Hsm.
    specialize (He2 Hsm). unfold KFASTBLOCK_MAX_OBJECT_EXTENTS in Hsm.
    edestruct (split_loop_ok (Volume.view v) (Meta.object_size (Meta.image (Volume.view v)))
      (blk_rq_pos b * 512) (blk_rq_bytes b) (Meta.pool_id (Meta.image (Volume.view v)))
      (Z.to_nat (max_object_extents r))) with (p := 0) as (r' & es & us & E & Hr & Ht);
      [lia|lia|lia|lia|lia|lia|apply init_split_inv; [done|lia..]|done|lia|
       intros _; simpl; rewrite !Z.add_0_r; done|done|].
    rewrite Z.add_0_r, Z.sub_0_r, u64_small in E by lia. rewrite Z.sub_0_r.
    exists r'. split; [|by eapply split_inv_ok].
    simpl in E. rewrite Nat.sub_0_r in E. exact E.
Qed.

Lemma request_split_ok alloc v v' b r :
  init_ok v b r -> valid_io v b -> Volume.view v' = Volume.view v ->
  exists ret r', kfastblock_request_split alloc (Some v') (Some r) = (ret, Some r') /\
    ret ∈ capture_errors /\ split_ok v b r'.
Proof.
  intros Hi Hv Ev. pose proof Hv as [Hs Hp H0 Hb H1 H2].
  assert (Hoff : byte_offset r = blk_rq_pos b * 512).
  { rewrite (io_offset _ _ _ Hi), Z.shiftl_mul_pow2 by done. apply u64_small.
    unfold SECTOR_SHIFT. lia. }
  unfold kfastblock_request_split.
  rewrite (io_rq _ _ _ Hi), (io_vol _ _ _ Hi), Ev, (io_size _ _ _ Hi).
  rewrite (proj2 (Z.eqb_neq (Meta.object_size _) 0)), (proj2 (Z.eqb_neq (Meta.pg_count _) 0)) by lia.
  cbn [orb].
  destruct (split_loop_init v b r Hi Hv Hoff) as (r' & -> & Hr).
  cbn [truthy Z.eqb negb].
  unfold kfastblock_request_capture_pg_hints.
  pose proof (capture_loop_spec alloc (Volume.view v) (seq 0 (Z.to_nat (nr_unique_pgs r'))) r') as Hc.
  destruct (capture_loop _ _ _ _) as [ret r'']. destruct Hc as [Hret Hg].
  exists ret, r''. split; [done|]. split; [done|]. by eapply same_groups_split_ok.
Qed.

(** C1: Splitting sends every byte of a block request to its place: once
    [kfastblock_request_init] has accepted a request on a usable image,
    [kfastblock_request_split] never runs out of extent slots, and each byte [x]
    of the request lies in exactly one of the extents, which names the object
    [(offset + x) / object_size] and puts the byte at offset
    [(offset + x) mod object_size] of that object. *)
Theorem split_routes_every_byte (now : Z) (alloc alloc' : nat -> bool)
    (req : ptr kfastblock_request) (v : kfastblock_volume) (b : block_request)
    (vol' : ptr kfastblock_volume) (r : kfastblock_request) :
  kfastblock_request_init now alloc req (Some v) (Some b) = (0, vol', Some r) ->
  valid_io v b ->
  exists ret r', kfastblock_request_split alloc' vol' (Some r) = (ret, Some r') /\
    ret <> - E2BIG /\
    forall x, 0 <= x < blk_rq_bytes b ->
    let byte := blk_rq_pos b * 512 + x in
    let size := Meta.object_size (Meta.image (Volume.view v)) in
    exists i e, extents r' !! i = Some e /\ holds_byte x e /\
      object_seq e = byte / size /\ object_offset e + (x - request_offset e) = byte mod size /\
      forall j e', extents r' !! j = Some e' -> holds_byte x e' -> j = i.
Proof.
  intros Hi Hv. destruct (request_init_ok _ _ _ _ _ _ _ Hi) as [Ev Hok].
  destruct vol' as [v'|]; [|done]. injection Ev as Ev.
  destruct (request_split_ok alloc' v v' b r Hok Hv Ev) as (ret & r' & E & Hret & Hs).
  exists ret, r'. split; [done|]. split.
  { intros ->. unfold capture_errors in Hret. set_solver. }
  intros x Hx byte size.
  destruct (tiles_byte size (blk_rq_pos b * 512) (extents r') ltac:(apply Hv) 0 (blk_rq_bytes b) x)
    as (i & e & He & Hxe & Hseq & Hat); [apply Hs|done|].
  exists i, e. split; [done|]. split; [done|]. split; [done|]. split; [done|].
  intros j e' Hj Hxj. by eapply tiles_unique; [apply Hs| | | |].
Qed.

(** The placement groups of a split request are exactly those of its
    extents, without repetition, one hint for each: an extent's group is the
    Jenkins hash of its object's name modulo the number of groups, so it is one
    of the pool's groups. *)
Theorem split_collects_groups (now : Z) (alloc alloc' : nat -> bool)
    (req : ptr kfastblock_request) (v : kfastblock_volume) (b : block_request)
    (vol' : ptr kfastblock_volume) (r : kfastblock_request) :
  kfastblock_request_init now alloc req (Some v) (Some b) = (0, vol', Some r) ->
  valid_io v b ->
  exists ret r', kfastblock_request_split alloc' vol' (Some r) = (ret, Some r') /\
    NoDup (request_pgs r') /\ hint_pg_id <$> request_hints r' = request_pgs r' /\
    (forall pg, pg ∈ request_pgs r' <-> exists e, e ∈ extents r' /\ pg_id e = pg) /\
    (forall e, e ∈ extents r' ->
       pg_id e = kfastblock_jenkins_hash (Some (object_name e))
                   mod Meta.pg_count (Meta.image (Volume.view v)) /\
       0 <= pg_id e < Meta.pg_count (Meta.image (Volume.view v))).
Proof.
  intros Hi Hv. destruct (request_init_ok _ _ _ _ _ _ _ Hi) as [Ev Hok].
  destruct vol' as [v'|]; [|done]. injection Ev as Ev.
  destruct (request_split_ok alloc' v v' b r Hok Hv Ev) as (ret & r' & E & _ & Hs).
  exists ret, r'. split; [done|]. split; [apply Hs|]. split; [apply Hs|]. split.
  - intros pg. rewrite (so_pgs _ _ _ Hs), list_elem_of_fmap. naive_solver.
  - intros e He. pose proof (so_named _ _ _ Hs) as Hn. rewrite Forall_forall in Hn.
    destruct (Hn e He) as [_ Hpg]. pose proof (vi_pgs _ _ Hv).
    split; [|by rewrite Hpg; apply calc_pg_range].
    rewrite Hpg. unfold kfastblock_request_calc_pg. by rewrite (proj2 (Z.eqb_neq _ 0)) by lia.
Qed.

(** ** Object names *)

Lemma pretty_N_go_length k : forall n s, (n < 10 ^ N.of_nat k)%N ->
  (String.length (pretty_N_go n s) <= k + String.length s)%nat.
Proof.
  induction k as [|k IH]; intros n s Hn.
  - assert (n = 0%N) as -> by (simpl in Hn; lia). by rewrite pretty_N_go_0.
  - destruct (decide (n = 0%N)) as [->|Hn0]; [rewrite pretty_N_go_0; lia|].
    rewrite pretty_N_go_step by lia. etrans; [apply IH|simpl; lia].
    apply N.Div0.div_lt_upper_bound. rewrite <- N.pow_succ_r'. by rewrite <- Nat2N.inj_succ.
Qed.

Lemma pretty_Z_length k n : 0 <= n < 10 ^ Z.of_nat k -> (0 < k)%nat ->
  (String.length (pretty n) <= k)%nat.
Proof.
  intros Hn Hk. destruct n as [|p|p]; [simpl; lia| |lia].
  change (pretty (Zpos p)) with (pretty_N_go (Npos p) ""%string).
  etrans; [apply (pretty_N_go_length k)|simpl; lia].
  apply N2Z.inj_lt. rewrite N2Z.inj_pow. rewrite nat_N_Z. simpl (Z.of_N _). lia.
Qed.

Lemma string_length_app s t : String.length (s +:+ t) = (String.length s + String.length t)%nat.
Proof. induction s as [|c s IH]; simpl; [done|by rewrite IH]. Qed.

(** The name fits its buffer of 192 bytes. *)
Lemma build_object_name_fits pool image seq buf :
  0 <= pool < 2 ^ 32 -> 0 <= seq < 2 ^ 64 ->
  (String.length image < Meta.KFASTBLOCK_MAX_NAME_LEN)%nat ->
  kfastblock_request_build_object_name (Some buf) KFASTBLOCK_MAX_OBJECT_NAME_LEN pool (Some image) seq
  = Some (pretty pool +:+ "__blk_data___" +:+ image +:+ pretty seq).
Proof.
  intros Hp Hs Hi. unfold kfastblock_request_build_object_name.
  rewrite decide_False by done. f_equal. cbn [default from_option].
  apply strscpy_fits. rewrite !string_length_app.
  pose proof (pretty_Z_length 10 pool ltac:(lia) ltac:(lia)).
  pose proof (pretty_Z_length 20 seq ltac:(lia) ltac:(lia)).
  unfold Meta.KFASTBLOCK_MAX_NAME_LEN, KFASTBLOCK_MAX_OBJECT_NAME_LEN in *.
  change (String.length "__blk_data___") with 13%nat. unfold id. lia.
Qed.

(** Within one image, different objects have different names, and none is
    cut off by its buffer: the name determines the object's sequence number for
    every pool, every sequence number and every image name that fits its
    field. *)
Theorem object_names_injective (pool seq1 seq2 : Z) (image buf1 buf2 : string) :
  0 <= pool < 2 ^ 32 -> 0 <= seq1 < 2 ^ 64 -> 0 <= seq2 < 2 ^ 64 ->
  (String.length image < Meta.KFASTBLOCK_MAX_NAME_LEN)%nat ->
  kfastblock_request_build_object_name (Some buf1) KFASTBLOCK_MAX_OBJECT_NAME_LEN pool (Some image) seq1
  = kfastblock_request_build_object_name (Some buf2) KFASTBLOCK_MAX_OBJECT_NAME_LEN pool (Some image) seq2 ->
  seq1 = seq2.
Proof.
  intros Hp H1 H2 Hi. rewrite !build_object_name_fits by done. intros E.
  injection E as E. do 3 apply (inj _) in E. by apply (inj pretty) in E.
Qed.

Lemma object_names_injective_witness :
  kfastblock_request_build_object_name (Some EmptyString) KFASTBLOCK_MAX_OBJECT_NAME_LEN 1
    (Some "vol1"%string) 23 = Some "1__blk_data___vol123"%string /\
  (kfastblock_request_build_object_name (Some EmptyString) KFASTBLOCK_MAX_OBJECT_NAME_LEN 1
     (Some "vol1"%string) 23
   = kfastblock_request_build_object_name (Some EmptyString) KFASTBLOCK_MAX_OBJECT_NAME_LEN 1
     (Some "vol1"%string) 23 -> 23 = 23).
Proof.
  split; [vm_compute; reflexivity|].
  apply (object_names_injective 1 23 23 "vol1" EmptyString EmptyString); [lia..|].
  vm_compute. lia.
Defined.

(** Across images of one pool the names are not distinct: the sequence number
    follows the image name without a separator, so object 23 of [vol1] and
    object 3 of [vol12] are the same object in the cluster. *)
Theorem object_names_collide_across_images :
  kfastblock_request_build_object_name (Some EmptyString) KFASTBLOCK_MAX_OBJECT_NAME_LEN 1
    (Some "vol1"%string) 23
  = kfastblock_request_build_object_name (Some EmptyString) KFASTBLOCK_MAX_OBJECT_NAME_LEN 1
    (Some "vol12"%string) 3.
Proof. vm_compute. reflexivity. Qed.

(** ** Concrete runs *)

(** A volume with objects of 1000 bytes in four placement groups, and a request
    for bytes 512 to 1536, which touches two objects. *)
Definition small_volume : kfastblock_volume :=
  Volume.zero_volume <| Volume.view ::= fun w => w <| Meta.image ::= fun i =>
    i <| Meta.object_size := 1000 |> <| Meta.pg_count := 4 |>
      <| Meta.image_name := "vol"%string |> |> |>.

Definition two_object_rq : block_request := {| blk_rq_pos := 1; blk_rq_bytes := 1024; req_op := 0 |}.

Lemma small_volume_valid : valid_io small_volume two_object_rq.
Proof. split; simpl; lia. Defined.

(** The volume and the request that [init] leaves. *)
Definition small_init :=
  kfastblock_request_init 7 (fun _ => true) (Some zero_request) (Some small_volume)
    (Some two_object_rq).

Definition small_vol : ptr kfastblock_volume := Eval vm_compute in small_init.1.2.
Definition small_request : kfastblock_request :=
  Eval vm_compute in default zero_request small_init.2.

Lemma small_init_ok :
  kfastblock_request_init 7 (fun _ => true) (Some zero_request) (Some small_volume)
    (Some two_object_rq) = (0, small_vol, Some small_request).
Proof. vm_compute. reflexivity. Defined.

Lemma split_routes_every_byte_witness :
  exists ret r', kfastblock_request_split (fun _ => true) small_vol (Some small_request)
      = (ret, Some r') /\
    exists i e, extents r' !! i = Some e /\ object_seq e = 1 /\
      object_offset e + (700 - request_offset e) = 212.
Proof.
  destruct (split_routes_every_byte 7 (fun _ => true) (fun _ => true) (Some zero_request)
    small_volume two_object_rq small_vol small_request small_init_ok small_volume_valid)
    as (ret & r' & E & _ & H).
  exists ret, r'. split; [exact E|].
  destruct (H 700) as (i & e & He & _ & H1 & H2 & _); [simpl; lia|].
  exists i, e. split; [exact He|]. split; [exact H1|exact H2].
Defined.

Lemma split_collects_groups_witness :
  exists ret r', kfastblock_request_split (fun _ => true) small_vol (Some small_request)
      = (ret, Some r') /\ NoDup (request_pgs r') /\ forall e, e ∈ extents r' -> 0 <= pg_id e < 4.
Proof.
  destruct (split_collects_groups 7 (fun _ => true) (fun _ => true) (Some zero_request)
    small_volume two_object_rq small_vol small_request small_init_ok small_volume_valid)
    as (ret & r' & E & H1 & _ & _ & H2).
  exists ret, r'. split; [exact E|]. split; [exact H1|]. intros e He. apply (H2 e He).
Defined.

End Request.
