(* ===== verification/Dispatch.v ===== *)
(** * Dispatching the objects of a request (kfastblock/src/request.c, second part)

    Each object of a request has a runtime record with its state; the request
    has a counter for each of the states that matter.  A batch of ready objects
    is picked round robin within the dispatch window, handed to workers, and
    each object ends up done, failed or cancelled, possibly after retries.

    As in Request, an operation takes and returns the volume that the request's
    [vol] pointer refers to; [now] is its reading of [jiffies]. *)

From stdpp Require Import relations.
From S2P Require Import Prelude Pipeline Volume Request.
Import (hints) Pipeline Volume Request.

Module Dispatch.
Import Volume(kfastblock_volume).
Import Request.

Record kfastblock_request_dispatch_batch := {
  nr_indexes : Z;
  indexes : list Z;
}.

#[export] Instance eta_batch : Eta kfastblock_request_dispatch_batch := fun b =>
  {| nr_indexes := nr_indexes b; indexes := indexes b |}.

Record kfastblock_request_object_snapshot := {
  snap_runtime : kfastblock_request_object_runtime;
  snap_object_index : Z;
}.

(** The runtime of an object, after the guard
    [!kf_req->object_runtime || object_index >= kf_req->nr_objects]. *)
Definition runtime_at (r : kfastblock_request) (i : Z) : ptr kfastblock_request_object_runtime :=
  if i >=? nr_objects r then NULL else rts ← object_runtime r; rts.[i].

Definition set_runtime (i : Z)
    (f : kfastblock_request_object_runtime -> kfastblock_request_object_runtime)
    (r : kfastblock_request) : kfastblock_request :=
  r <| object_runtime ::= fmap (alter f (Z.to_nat i)) |>.

(** The runtimes of the request's objects, as the loops over them see them. *)
Definition runtimes (r : kfastblock_request) : list kfastblock_request_object_runtime :=
  take (Z.to_nat (nr_objects r)) (default [] (object_runtime r)).

Definition is_state (st : kfastblock_request_object_state)
    (rt : kfastblock_request_object_runtime) : bool := bool_decide (state rt = st).

Definition u32_inc (x : Z) : Z := u32 (x + 1).

(** ** Preparation *)

Definition kfastblock_request_dispatch_batch_reset (batch : ptr kfastblock_request_dispatch_batch)
    : ptr kfastblock_request_dispatch_batch :=
  (fun _ => {| nr_indexes := 0;
               indexes := replicate (Z.to_nat KFASTBLOCK_MAX_OBJECT_EXTENTS) 0 |}) <$> batch.

Definition ready_runtime : kfastblock_request_object_runtime :=
  {| state := KFASTBLOCK_OBJECT_READY; last_error := 0; attempt_count := 0; dispatch_count := 0;
     retry_count := 0; wire_seq := 0; response_status := 0; response_body_len := 0;
     transport_flags := 0; queued_jiffies := 0; last_retry_jiffies := 0;
     completed_jiffies := 0 |}.

Definition kfastblock_request_prepare_runtime (vol : ptr kfastblock_volume)
    (req : ptr kfastblock_request) : ptr kfastblock_volume * ptr kfastblock_request :=
  match req with
  | NULL => (vol, NULL)
  | Some r =>
      match object_runtime r with
      | NULL => (vol, req)
      | Some _ =>
          let r := r <| dispatch_cursor := 0 |> <| queued_objects := 0 |>
                     <| inflight_objects := 0 |> <| completed_objects := 0 |>
                     <| failed_objects := 0 |> <| cancelled_objects := 0 |>
                     <| dispatch_generation ::= u32_inc |>
                     <| object_runtime ::= fmap (map_upto (Z.to_nat (nr_objects r))
                                                   (fun _ _ => ready_runtime)) |> in
          let r := r <| pipeline ::= fun p => default p (Pipeline.kfastblock_pipeline_reset (Some p)) |> in
          (on_vol (fun vol => Volume.kfastblock_volume_update_pipeline_snapshot vol (Some (pipeline r)))
             r vol, Some r)
      end
  end.

Definition kfastblock_request_object_dispatchable (runtime : ptr kfastblock_request_object_runtime)
    : bool :=
  from_option (is_state KFASTBLOCK_OBJECT_READY) false runtime.

Definition kfastblock_request_object_state_name (st : kfastblock_request_object_state) : string :=
  match st with
  | KFASTBLOCK_OBJECT_INIT => "init"
  | KFASTBLOCK_OBJECT_READY => "ready"
  | KFASTBLOCK_OBJECT_QUEUED => "queued"
  | KFASTBLOCK_OBJECT_IN_FLIGHT => "in_flight"
  | KFASTBLOCK_OBJECT_REQUEUE => "requeue"
  | KFASTBLOCK_OBJECT_DONE => "done"
  | KFASTBLOCK_OBJECT_FAILED => "failed"
  | KFASTBLOCK_OBJECT_CANCELLED => "cancelled"
  end.

Definition kfastblock_request_object_state_terminal (st : kfastblock_request_object_state) : bool :=
  match st with
  | KFASTBLOCK_OBJECT_DONE | KFASTBLOCK_OBJECT_FAILED | KFASTBLOCK_OBJECT_CANCELLED => true
  | _ => false
  end.

(** ** Picking a batch *)

(** What picking does to object [index]. *)
Definition pick_object (now index : Z) (r : kfastblock_request) : kfastblock_request :=
  set_runtime index (fun rt => rt <| state := KFASTBLOCK_OBJECT_QUEUED |>
                                  <| dispatch_count ::= fun n => u16 (n + 1) |>
                                  <| queued_jiffies := now |>) r
    <| queued_objects ::= u32_inc |>.

(** The scan.  [scanned] grows in every round and stops at [nr_objects], so
    [nr_objects] rounds are enough. *)
Fixpoint pick_loop (fuel : nat) (now cursor max_dispatch scanned count : Z)
    (idx : list Z) (r : kfastblock_request) : Z * list Z * kfastblock_request :=
  match fuel with
  | O => (count, idx, r)
  | S fuel =>
      if (scanned <? nr_objects r) && (count <? max_dispatch) then
        let index := u32 (cursor + scanned) mod nr_objects r in
        if kfastblock_request_object_dispatchable (default [] (object_runtime r)).[index]
        then pick_loop fuel now cursor max_dispatch (u32_inc scanned) (u32_inc count)
               (<[Z.to_nat count := index]> idx) (pick_object now index r)
        else pick_loop fuel now cursor max_dispatch (u32_inc scanned) count idx r
      else (count, idx, r)
  end.

Definition kfastblock_request_pick_dispatch_batch (now : Z) (vol : ptr kfastblock_volume)
    (req : ptr kfastblock_request) (batch : ptr kfastblock_request_dispatch_batch)
    (max_dispatch : Z)
    : Z * ptr kfastblock_volume * ptr kfastblock_request * ptr kfastblock_request_dispatch_batch :=
  match req, batch with
  | Some r, Some _ =>
      if max_dispatch =? 0 then (- EINVAL, vol, req, batch)
      else
        let batch := kfastblock_request_dispatch_batch_reset batch in
        if (nr_objects r =? 0) || negb (bool_decide (is_Some (object_runtime r)))
        then (0, vol, req, batch)
        else
          let '(count, idx, r) :=
            pick_loop (Z.to_nat (nr_objects r)) now (dispatch_cursor r) max_dispatch 0 0
              (from_option indexes [] batch) r in
          let r := if truthy count
                   then r <| dispatch_cursor :=
                          u32_inc (default 0 (idx.[count - 1])) mod nr_objects r |>
                   else r in
          let batch := Some {| nr_indexes := count; indexes := idx |} in
          let vol := if truthy count
                     then on_vol (fun vol =>
                            Volume.kfastblock_volume_account_pipeline_dispatch_batch vol count) r vol
                     else vol in
          (s32 count, vol, Some r, batch)
  | _, _ => (- EINVAL, vol, req, batch)
  end.

(** ** Transitions of one object *)

Definition kfastblock_request_mark_object_queued (req : ptr kfastblock_request) (i : Z)
    : Z * ptr kfastblock_request :=
  match req with
  | NULL => (- EINVAL, NULL)
  | Some r =>
      match runtime_at r i with
      | NULL => (- EINVAL, req)
      | Some rt =>
          if negb (is_state KFASTBLOCK_OBJECT_QUEUED rt) then (- EALREADY, req)
          else (0, Some (set_runtime i (fun rt => rt <| attempt_count ::= fun n => u16 (n + 1) |>) r))
      end
  end.

Definition kfastblock_request_mark_object_inflight (req : ptr kfastblock_request) (i : Z)
    : ptr kfastblock_request :=
  match req with
  | NULL => NULL
  | Some r =>
      match runtime_at r i with
      | NULL => req
      | Some rt =>
          if is_state KFASTBLOCK_OBJECT_QUEUED rt then
            Some (set_runtime i (fun rt => rt <| state := KFASTBLOCK_OBJECT_IN_FLIGHT |>) r
                    <| queued_objects ::= dec_if_nonzero |>
                    <| inflight_objects ::= u32_inc |>)
          else req
      end
  end.

Definition kfastblock_request_mark_object_complete (now : Z) (vol : ptr kfastblock_volume)
    (req : ptr kfastblock_request) (i ret : Z)
    : ptr kfastblock_volume * ptr kfastblock_request :=
  match req with
  | NULL => (vol, NULL)
  | Some r =>
      match runtime_at r i with
      | NULL => (vol, req)
      | Some rt =>
          let r := if is_state KFASTBLOCK_OBJECT_IN_FLIGHT rt
                   then r <| inflight_objects ::= dec_if_nonzero |> else r in
          let r := set_runtime i (fun rt =>
                     rt <| last_error := ret |> <| completed_jiffies := now |>
                        <| state := if truthy ret then KFASTBLOCK_OBJECT_FAILED
                                    else KFASTBLOCK_OBJECT_DONE |>) r in
          let r := if truthy ret then r <| failed_objects ::= u32_inc |>
                   else r <| completed_objects ::= u32_inc |> in
          (on_vol (fun vol => Volume.kfastblock_volume_account_pipeline_complete vol (truthy ret)) r vol,
           Some r)
      end
  end.

Definition kfastblock_request_record_object_seq (vol : ptr kfastblock_volume)
    (req : ptr kfastblock_request) (i seq : Z)
    : ptr kfastblock_volume * ptr kfastblock_request :=
  match req with
  | NULL => (vol, NULL)
  | Some r =>
      match runtime_at r i with
      | NULL => (vol, req)
      | Some _ =>
          (on_vol Volume.kfastblock_volume_account_pipeline_seq r vol,
           Some (set_runtime i (fun rt => rt <| wire_seq := seq |>) r))
      end
  end.

Definition kfastblock_request_record_object_response (vol : ptr kfastblock_volume)
    (req : ptr kfastblock_request) (i status body_len flags : Z)
    : ptr kfastblock_volume * ptr kfastblock_request :=
  match req with
  | NULL => (vol, NULL)
  | Some r =>
      match runtime_at r i with
      | NULL => (vol, req)
      | Some _ =>
          (on_vol (fun vol => Volume.kfastblock_volume_account_pipeline_response vol status body_len flags)
             r vol,
           Some (set_runtime i (fun rt => rt <| response_status := status |>
                                            <| response_body_len := body_len |>
                                            <| transport_flags := flags |>) r))
      end
  end.

Definition kfastblock_request_clear_object_response (vol : ptr kfastblock_volume)
    (req : ptr kfastblock_request) (i : Z) : ptr kfastblock_volume * ptr kfastblock_request :=
  kfastblock_request_record_object_response vol req i 0 0 0.

Definition kfastblock_request_note_object_retry (now : Z) (vol : ptr kfastblock_volume)
    (req : ptr kfastblock_request) (i ret : Z)
    : ptr kfastblock_volume * ptr kfastblock_request :=
  match req with
  | NULL => (vol, NULL)
  | Some r =>
      match runtime_at r i with
      | NULL => (vol, req)
      | Some _ =>
          (on_vol Volume.kfastblock_volume_account_pipeline_retry r vol,
           Some (set_runtime i (fun rt => rt <| retry_count ::= fun n => u16 (n + 1) |>
                                            <| last_error := ret |>
                                            <| last_retry_jiffies := now |>) r))
      end
  end.

Definition kfastblock_request_requeue_object (now : Z) (vol : ptr kfastblock_volume)
    (req : ptr kfastblock_request) (i ret : Z)
    : Z * ptr kfastblock_volume * ptr kfastblock_request :=
  match req with
  | NULL => (- EINVAL, vol, NULL)
  | Some r =>
      match runtime_at r i with
      | NULL => (- EINVAL, vol, req)
      | Some rt =>
          let r := if is_state KFASTBLOCK_OBJECT_QUEUED rt
                   then r <| queued_objects ::= dec_if_nonzero |> else r in
          let r := if is_state KFASTBLOCK_OBJECT_IN_FLIGHT rt
                   then r <| inflight_objects ::= dec_if_nonzero |> else r in
          let r := set_runtime i (fun rt =>
                     rt <| state := KFASTBLOCK_OBJECT_REQUEUE |>
                        <| last_error := ret |> <| last_retry_jiffies := now |>
                        <| wire_seq := 0 |> <| state := KFASTBLOCK_OBJECT_READY |>) r in
          let '(vol, req) := kfastblock_request_clear_object_response vol (Some r) i in
          let '(vol, req) := kfastblock_request_note_object_retry now vol req i ret in
          (0, vol, req)
      end
  end.

(** The loop of [cancel_unqueued] over the objects in [l]. *)
Fixpoint cancel_loop (now : Z) (l : list nat) (cancelled : Z) (r : kfastblock_request)
    : Z * kfastblock_request :=
  match l with
  | [] => (cancelled, r)
  | i :: l =>
      let st := state <$> default [] (object_runtime r) !! i in
      if bool_decide (st = Some KFASTBLOCK_OBJECT_READY)
         || bool_decide (st = Some KFASTBLOCK_OBJECT_QUEUED) then
        let r := if bool_decide (st = Some KFASTBLOCK_OBJECT_QUEUED)
                 then r <| queued_objects ::= dec_if_nonzero |> else r in
        let r := set_runtime (Z.of_nat i) (fun rt =>
                   rt <| state := KFASTBLOCK_OBJECT_CANCELLED |> <| last_error := - ECANCELED |>
                      <| completed_jiffies := now |>) r in
        cancel_loop now l (u32_inc cancelled) r
      else cancel_loop now l cancelled r
  end.

Definition kfastblock_request_cancel_unqueued (now : Z) (vol : ptr kfastblock_volume)
    (req : ptr kfastblock_request) : Z * ptr kfastblock_volume * ptr kfastblock_request :=
  match req with
  | NULL => (0, vol, NULL)
  | Some r =>
      match object_runtime r with
      | NULL => (0, vol, req)
      | Some _ =>
          let '(cancelled, r) := cancel_loop now (seq 0 (Z.to_nat (nr_objects r))) 0 r in
          let r := r <| cancelled_objects ::= fun n => u32 (n + cancelled) |> in
          let vol := if truthy cancelled
                     then on_vol (fun vol =>
                            Volume.kfastblock_volume_account_pipeline_cancel vol cancelled) r vol
                     else vol in
          (s32 cancelled, vol, Some r)
      end
  end.

(** ** Operations by sequence number *)

(** The result and the value left in [*object_index]. *)
Definition kfastblock_request_lookup_object_by_seq (req : ptr kfastblock_request) (q : Z)
    (out : ptr Z) : Z * ptr Z :=
  match req, out with
  | Some r, Some _ =>
      if q =? 0 then (- EINVAL, out)
      else
        let '(found, entry) :=
          Pipeline.kfastblock_pipeline_lookup (Some (pipeline r)) q (Some Pipeline.zero_entry) in
        if negb found then (- ENOENT, out)
        else (0, Pipeline.object_index <$> entry)
  | _, _ => (- EINVAL, out)
  end.

Definition kfastblock_request_record_object_response_by_seq (vol : ptr kfastblock_volume)
    (req : ptr kfastblock_request) (q status body_len flags : Z)
    : Z * ptr kfastblock_volume * ptr kfastblock_request :=
  let '(ret, index) := kfastblock_request_lookup_object_by_seq req q (Some 0) in
  if truthy ret then (ret, vol, req)
  else
    let '(vol, req) :=
      kfastblock_request_record_object_response vol req (default 0 index) status body_len flags in
    (0, vol, req).

Definition kfastblock_request_clear_object_response_by_seq (vol : ptr kfastblock_volume)
    (req : ptr kfastblock_request) (q : Z) :=
  kfastblock_request_record_object_response_by_seq vol req q 0 0 0.

Definition kfastblock_request_note_object_retry_by_seq (now : Z) (vol : ptr kfastblock_volume)
    (req : ptr kfastblock_request) (q ret : Z)
    : Z * ptr kfastblock_volume * ptr kfastblock_request :=
  let '(lookup_ret, index) := kfastblock_request_lookup_object_by_seq req q (Some 0) in
  if truthy lookup_ret then (lookup_ret, vol, req)
  else
    let '(vol, req) := kfastblock_request_note_object_retry now vol req (default 0 index) ret in
    (0, vol, req).

Definition kfastblock_request_requeue_object_by_seq (now : Z) (vol : ptr kfastblock_volume)
    (req : ptr kfastblock_request) (q ret : Z)
    : Z * ptr kfastblock_volume * ptr kfastblock_request :=
  let '(lookup_ret, index) := kfastblock_request_lookup_object_by_seq req q (Some 0) in
  if truthy lookup_ret then (lookup_ret, vol, req)
  else kfastblock_request_requeue_object now vol req (default 0 index) ret.

Definition kfastblock_request_complete_object_by_seq (now : Z) (vol : ptr kfastblock_volume)
    (req : ptr kfastblock_request) (q ret : Z)
    : Z * ptr kfastblock_volume * ptr kfastblock_request :=
  match req with
  | NULL => (- EINVAL, vol, NULL)
  | Some r =>
      if q =? 0 then (- EINVAL, vol, req)
      else
        let '(entry, p) := Pipeline.kfastblock_pipeline_complete now (Some (pipeline r)) q ret in
        let r := r <| pipeline := default (pipeline r) p |> in
        match entry with
        | NULL => (- ENOENT, vol, Some r)
        | Some e =>
            let index := from_option Pipeline.object_index 0 (Pipeline.entry_at (pipeline r) e) in
            let '(vol, req) := kfastblock_request_mark_object_complete now vol (Some r) index ret in
            (0, vol, req)
        end
  end.

(** The fields are copied one by one; the model keeps them together. *)
Definition kfastblock_request_snapshot_object (req : ptr kfastblock_request) (i : Z)
    (snapshot : ptr kfastblock_request_object_snapshot)
    : Z * ptr kfastblock_request_object_snapshot :=
  match req, snapshot with
  | Some r, Some _ =>
      match runtime_at r i with
      | NULL => (- EINVAL, snapshot)
      | Some rt => (0, Some {| snap_runtime := rt; snap_object_index := i |})
      end
  | _, _ => (- EINVAL, snapshot)
  end.

Definition kfastblock_request_snapshot_object_by_seq (req : ptr kfastblock_request) (q : Z)
    (snapshot : ptr kfastblock_request_object_snapshot)
    : Z * ptr kfastblock_request_object_snapshot :=
  let '(ret, index) := kfastblock_request_lookup_object_by_seq req q (Some 0) in
  if truthy ret then (ret, snapshot)
  else kfastblock_request_snapshot_object req (default 0 index) snapshot.

(** ** Questions about a request *)

Definition has_response (rt : kfastblock_request_object_runtime) : bool :=
  truthy (response_status rt) || truthy (response_body_len rt) || truthy (transport_flags rt).

Definition kfastblock_request_object_has_response (req : ptr kfastblock_request) (i : Z) : bool :=
  from_option (fun r => from_option has_response false (runtime_at r i)) false req.

Definition kfastblock_request_object_has_response_by_seq (req : ptr kfastblock_request) (q : Z)
    : bool :=
  let '(ret, index) := kfastblock_request_lookup_object_by_seq req q (Some 0) in
  if truthy ret then false
  else kfastblock_request_object_has_response req (default 0 index).

(** A loop over [i < nr_objects] that asks about each object. *)
Definition object_indexes (r : kfastblock_request) : list Z := seqZ 0 (nr_objects r).

(** [if (!kf_req || !kf_req->object_runtime) return d;] *)
Definition with_runtimes {A} (d : A) (f : kfastblock_request -> A) (req : ptr kfastblock_request) : A :=
  match req with
  | Some r => if bool_decide (is_Some (object_runtime r)) then f r else d
  | NULL => d
  end.

Definition kfastblock_request_has_response_recorded (req : ptr kfastblock_request) : bool :=
  with_runtimes false (fun r =>
    existsb (kfastblock_request_object_has_response req) (object_indexes r)) req.

Definition kfastblock_request_object_is_dispatchable (req : ptr kfastblock_request) (i : Z) : bool :=
  from_option (fun r => kfastblock_request_object_dispatchable (runtime_at r i)) false req.

Definition kfastblock_request_object_is_terminal (req : ptr kfastblock_request) (i : Z) : bool :=
  from_option (fun r => from_option (fun rt =>
    kfastblock_request_object_state_terminal (state rt)) false (runtime_at r i)) false req.

Definition kfastblock_request_inflight_objects := from_option inflight_objects 0.
Definition kfastblock_request_queued_objects := from_option queued_objects 0.
Definition kfastblock_request_failed_objects := from_option failed_objects 0.
Definition kfastblock_request_cancelled_objects := from_option cancelled_objects 0.
Definition kfastblock_request_completed_objects := from_option completed_objects 0.

Definition kfastblock_request_has_queued req : bool :=
  truthy (kfastblock_request_queued_objects req).
Definition kfastblock_request_has_completed req : bool :=
  truthy (kfastblock_request_completed_objects req).
Definition kfastblock_request_has_inflight req : bool :=
  0 <? kfastblock_request_inflight_objects req.

Definition kfastblock_request_dispatch_credits (req : ptr kfastblock_request) : Z :=
  from_option (fun r =>
    let window := or_else (dispatch_window r) 1 in
    let dispatched := u32 (queued_objects r + inflight_objects r) in
    if dispatched >=? window then 0 else window - dispatched) 0 req.

Definition kfastblock_request_dispatchable_objects (req : ptr kfastblock_request) : Z :=
  with_runtimes 0 (fun r =>
    count_if (fun rt => kfastblock_request_object_dispatchable (Some rt)) (runtimes r)) req.

Definition kfastblock_request_has_dispatchable req : bool :=
  truthy (kfastblock_request_dispatchable_objects req).

Definition kfastblock_request_dispatch_window_saturated req : bool :=
  (kfastblock_request_dispatch_credits req =? 0) && kfastblock_request_has_dispatchable req.

Definition kfastblock_request_active_objects req : Z :=
  u32 (kfastblock_request_queued_objects req + kfastblock_request_inflight_objects req).
Definition kfastblock_request_has_active req : bool :=
  truthy (kfastblock_request_active_objects req).

Definition kfastblock_request_state_count (req : ptr kfastblock_request)
    (st : kfastblock_request_object_state) : Z :=
  with_runtimes 0 (fun r => count_if (is_state st) (runtimes r)) req.
Definition kfastblock_request_any_failed req : bool :=
  0 <? kfastblock_request_state_count req KFASTBLOCK_OBJECT_FAILED.

Definition kfastblock_request_terminal_objects req : Z :=
  u32 (u32 (kfastblock_request_failed_objects req + kfastblock_request_cancelled_objects req)
       + kfastblock_request_completed_objects req).
Definition kfastblock_request_nonterminal_objects (req : ptr kfastblock_request) : Z :=
  from_option (fun r =>
    let terminal := kfastblock_request_terminal_objects req in
    if nr_objects r <=? terminal then 0 else nr_objects r - terminal) 0 req.
Definition kfastblock_request_has_terminal req : bool :=
  truthy (kfastblock_request_terminal_objects req).
Definition kfastblock_request_has_nonterminal req : bool :=
  truthy (kfastblock_request_nonterminal_objects req).
Definition kfastblock_request_all_terminal (req : ptr kfastblock_request) : bool :=
  from_option (fun r => if nr_objects r =? 0 then false
                        else kfastblock_request_terminal_objects req =? nr_objects r) false req.

Definition kfastblock_request_response_recorded_objects (req : ptr kfastblock_request) : Z :=
  with_runtimes 0 (fun r =>
    count_if (kfastblock_request_object_has_response req) (object_indexes r)) req.
Definition kfastblock_request_response_gap_objects (req : ptr kfastblock_request) : Z :=
  from_option (fun r =>
    let recorded := kfastblock_request_response_recorded_objects req in
    if nr_objects r <=? recorded then 0 else nr_objects r - recorded) 0 req.
Definition kfastblock_request_has_response_gap req : bool :=
  truthy (kfastblock_request_response_gap_objects req).
Definition kfastblock_request_all_responses_recorded (req : ptr kfastblock_request) : bool :=
  from_option (fun r => if nr_objects r =? 0 then false
                        else kfastblock_request_response_recorded_objects req =? nr_objects r)
    false req.

Definition kfastblock_request_retry_objects (req : ptr kfastblock_request) : Z :=
  with_runtimes 0 (fun r => count_if (fun rt => truthy (retry_count rt)) (runtimes r)) req.
Definition kfastblock_request_has_retry req : bool :=
  truthy (kfastblock_request_retry_objects req).

(** [min_t(u32, 100, (x * 100) / kf_req->nr_objects)] *)
Definition percent_of (r : kfastblock_request) (x : Z) : Z :=
  Z.min 100 (u32 (x * 100) / nr_objects r).
Definition kfastblock_request_terminal_progress_pct (req : ptr kfastblock_request) : Z :=
  from_option (fun r => if nr_objects r =? 0 then 0
                        else percent_of r (kfastblock_request_terminal_objects req)) 0 req.
Definition kfastblock_request_response_coverage_pct (req : ptr kfastblock_request) : Z :=
  from_option (fun r => if nr_objects r =? 0 then 0
                        else percent_of r (kfastblock_request_response_recorded_objects req)) 0 req.

(** The loops that keep the value of the last object with a sequence number. *)
Definition last_exchanged (f : kfastblock_request_object_runtime -> Z) (req : ptr kfastblock_request)
    : Z :=
  with_runtimes 0 (fun r =>
    foldl (fun value rt => if wire_seq rt =? 0 then value else f rt) 0 (runtimes r)) req.
Definition kfastblock_request_last_wire_seq := last_exchanged wire_seq.
Definition kfastblock_request_last_response_status := last_exchanged response_status.
Definition kfastblock_request_last_response_body_len := last_exchanged response_body_len.
Definition kfastblock_request_last_transport_flags := last_exchanged transport_flags.

Definition kfastblock_request_oldest_pending_jiffies (req : ptr kfastblock_request) : Z :=
  with_runtimes 0 (fun r =>
    foldl (fun value rt =>
      if kfastblock_request_object_state_terminal (state rt) then value
      else if queued_jiffies rt =? 0 then value
      else if (value =? 0) || (queued_jiffies rt <? value) then queued_jiffies rt
      else value) 0 (runtimes r)) req.

Definition kfastblock_request_last_completed_jiffies (req : ptr kfastblock_request) : Z :=
  with_runtimes 0 (fun r =>
    foldl (fun value rt => if completed_jiffies rt >? value then completed_jiffies rt else value)
      0 (runtimes r)) req.

(** ** Counting states *)

Definition cnt (st : kfastblock_request_object_state) (r : kfastblock_request) : Z :=
  count_if (is_state st) (runtimes r).

Lemma take_alter_comm {A} (f : A -> A) n i (l : list A) :
  take n (alter f i l) = alter f i (take n l).
Proof.
  apply list_eq. intros j. rewrite list_lookup_alter, !lookup_take, list_lookup_alter.
  repeat case_decide; subst; try done; lia.
Qed.

Lemma runtimes_set i f r :
  runtimes (set_runtime i f r) = alter f (Z.to_nat i) (runtimes r).
Proof.
  unfold runtimes. simpl. destruct (object_runtime r) as [rts|]; simpl.
  - apply take_alter_comm.
  - by rewrite !take_nil.
Qed.

Lemma count_if_alter {A} (p : A -> bool) f l i x :
  l !! i = Some x ->
  count_if p (alter f i l) = count_if p l - Z.b2z (p x) + Z.b2z (p (f x)).
Proof.
  intros H. rewrite <- (count_if_insert p l i x (f x) H). f_equal.
  apply list_eq. intros j. rewrite list_lookup_alter.
  case_decide; subst.
  - rewrite H, list_lookup_insert_eq; [done|]. apply lookup_lt_is_Some_1. by eexists.
  - by rewrite list_lookup_insert_ne.
Qed.

(** Object [i] of the request is in state [st]. *)
Definition object_state (r : kfastblock_request) (i : nat)
    : option kfastblock_request_object_state := state <$> runtimes r !! i.

Lemma runtime_at_nat r i rt :
  0 <= nr_objects r -> runtime_at r (Z.of_nat i) = Some rt -> runtimes r !! i = Some rt.
Proof.
  intros Hn. unfold runtime_at, runtimes. rewrite Z.geb_leb. case_match; [done|]. unbool.
  destruct (object_runtime r) as [rts|]; [|done]. simpl. rewrite Nat2Z.id. intros H'.
  by rewrite lookup_take_lt by lia.
Qed.

Lemma runtime_at_none r i :
  (exists rts, object_runtime r = Some rts /\ (Z.to_nat (nr_objects r) <= List.length rts)%nat) ->
  0 <= nr_objects r -> runtime_at r (Z.of_nat i) = None -> runtimes r !! i = None.
Proof.
  intros (rts & Hr & Hl) Hn. unfold runtime_at, runtimes. rewrite Hr, Z.geb_leb. simpl.
  case_match; unbool.
  - intros _. apply lookup_take_ge. lia.
  - rewrite Nat2Z.id. intros Hi%lookup_ge_None_1. apply lookup_take_ge. lia.
Qed.

(** ** The counters of a request are exact *)

Record counters_exact (r : kfastblock_request) : Prop := {
  ce_runtime : exists rts, object_runtime r = Some rts /\
                 (Z.to_nat (nr_objects r) <= List.length rts)%nat;
  ce_nr : 0 <= nr_objects r <= KFASTBLOCK_MAX_OBJECT_EXTENTS;
  ce_queued : queued_objects r = cnt KFASTBLOCK_OBJECT_QUEUED r;
  ce_inflight : inflight_objects r = cnt KFASTBLOCK_OBJECT_IN_FLIGHT r;
  ce_completed : completed_objects r = cnt KFASTBLOCK_OBJECT_DONE r;
  ce_failed : failed_objects r = cnt KFASTBLOCK_OBJECT_FAILED r;
  ce_cancelled : cancelled_objects r = cnt KFASTBLOCK_OBJECT_CANCELLED r;
  ce_live : Forall (fun rt => state rt <> KFASTBLOCK_OBJECT_INIT /\
                              state rt <> KFASTBLOCK_OBJECT_REQUEUE) (runtimes r);
}.

Lemma length_runtimes r :
  counters_exact r -> Z.of_nat (List.length (runtimes r)) = nr_objects r.
Proof.
  intros [(rts & Hr & Hl) Hn _ _ _ _ _ _]. unfold runtimes. rewrite Hr. simpl.
  rewrite length_take. lia.
Qed.

Lemma cnt_range st r :
  counters_exact r -> 0 <= cnt st r <= KFASTBLOCK_MAX_OBJECT_EXTENTS.
Proof.
  intros H. pose proof (length_runtimes r H). pose proof (ce_nr r H). unfold cnt.
  pose proof (count_if_nonneg (is_state st) (runtimes r)).
  pose proof (count_if_le_length (is_state st) (runtimes r)). lia.
Qed.

Lemma cnt_pos st r i : object_state r i = Some st -> 0 < cnt st r.
Proof.
  unfold object_state. intros (rt & Hrt & ->)%fmap_Some.
  eapply count_if_pos; [exact Hrt|]. unfold is_state. by apply bool_decide_eq_true.
Qed.

(** The count depends on the states alone. *)
Lemma cnt_states st r :
  cnt st r = count_if (fun s => bool_decide (s = st)) (state <$> runtimes r).
Proof. unfold cnt. by rewrite count_if_fmap. Qed.

Lemma b2z_is_state st rt : Z.b2z (is_state st rt) = if decide (state rt = st) then 1 else 0.
Proof. unfold is_state. by case_bool_decide; case_decide. Qed.

Lemma cnt_set st i f r rt :
  runtimes r !! i = Some rt ->
  cnt st (set_runtime (Z.of_nat i) f r)
  = cnt st r - (if decide (state rt = st) then 1 else 0)
    + (if decide (state (f rt) = st) then 1 else 0).
Proof.
  intros H. unfold cnt. rewrite runtimes_set, Nat2Z.id, (count_if_alter _ _ _ _ rt) by done.
  by rewrite !b2z_is_state.
Qed.

(** Writing fields other than the objects and the counters. *)
Lemma counters_exact_ext r r' :
  counters_exact r -> object_runtime r' = object_runtime r -> nr_objects r' = nr_objects r ->
  queued_objects r' = queued_objects r -> inflight_objects r' = inflight_objects r ->
  completed_objects r' = completed_objects r -> failed_objects r' = failed_objects r ->
  cancelled_objects r' = cancelled_objects r -> counters_exact r'.
Proof.
  intros [H1 H2 H3 H4 H5 H6 H7 H8] E1 E2 E3 E4 E5 E6 E7.
  assert (E : runtimes r' = runtimes r) by (unfold runtimes; by rewrite E1, E2).
  split; unfold cnt; rewrite ?E, ?E1, ?E2, ?E3, ?E4, ?E5, ?E6, ?E7; done.
Qed.

Lemma live_set i f r :
  Forall (fun rt => state rt <> KFASTBLOCK_OBJECT_INIT /\
                    state rt <> KFASTBLOCK_OBJECT_REQUEUE) (runtimes r) ->
  (forall rt, runtimes r !! i = Some rt ->
     state (f rt) <> KFASTBLOCK_OBJECT_INIT /\ state (f rt) <> KFASTBLOCK_OBJECT_REQUEUE) ->
  Forall (fun rt => state rt <> KFASTBLOCK_OBJECT_INIT /\
                    state rt <> KFASTBLOCK_OBJECT_REQUEUE) (runtimes (set_runtime (Z.of_nat i) f r)).
Proof.
  intros H Hf. rewrite runtimes_set, Nat2Z.id. apply Forall_lookup. intros j rt.
  rewrite list_lookup_alter. case_decide; [subst|intros Hj; exact (Forall_lookup_1 _ _ _ _ H Hj)].
  intros (x & Hx & ->)%fmap_Some. by apply Hf.
Qed.

(** One object moves from [state rt] to [st'] and the counters move with it. *)
Lemma counters_exact_set r r' i f rt :
  counters_exact r -> runtimes r !! i = Some rt ->
  object_runtime r' = object_runtime (set_runtime (Z.of_nat i) f r) ->
  state (f rt) <> KFASTBLOCK_OBJECT_INIT -> state (f rt) <> KFASTBLOCK_OBJECT_REQUEUE ->
  let delta st := (if decide (state (f rt) = st) then 1 else 0)
                  - (if decide (state rt = st) then 1 else 0) in
  nr_objects r' = nr_objects r ->
  queued_objects r' = queued_objects r + delta KFASTBLOCK_OBJECT_QUEUED ->
  inflight_objects r' = inflight_objects r + delta KFASTBLOCK_OBJECT_IN_FLIGHT ->
  completed_objects r' = completed_objects r + delta KFASTBLOCK_OBJECT_DONE ->
  failed_objects r' = failed_objects r + delta KFASTBLOCK_OBJECT_FAILED ->
  cancelled_objects r' = cancelled_objects r + delta KFASTBLOCK_OBJECT_CANCELLED ->
  counters_exact r'.
Proof.
  intros H Hi E1 Hf1 Hf2 delta E2 E3 E4 E5 E6 E7.
  assert (E : runtimes r' = runtimes (set_runtime (Z.of_nat i) f r))
    by (unfold runtimes; by rewrite E1, E2).
  assert (Ec : forall st, cnt st r' = cnt st r + delta st).
  { intros st. transitivity (cnt st (set_runtime (Z.of_nat i) f r)).
    - unfold cnt. by rewrite E.
    - rewrite (cnt_set _ _ _ _ rt) by done. unfold delta. lia. }
  destruct H as [(rts & Hr & Hl) H2 H3 H4 H5 H6 H7 H8].
  split; rewrite ?Ec, ?E2; try congruence.
  - exists (alter f i rts). rewrite E1. simpl. rewrite Hr, Nat2Z.id. simpl.
    by rewrite length_alter.
  - rewrite E. apply live_set; [done|]. intros x Hx. by simplify_eq.
Qed.

(** The successors and predecessors of counters that are in range. *)
Lemma u32_inc_cnt st r : counters_exact r -> u32_inc (cnt st r) = cnt st r + 1.
Proof.
  intros H. pose proof (cnt_range st r H) as Hr. unfold KFASTBLOCK_MAX_OBJECT_EXTENTS in Hr.
  unfold u32_inc. rewrite u32_small; lia.
Qed.

Lemma dec_cnt st r i rt :
  runtimes r !! i = Some rt -> state rt = st -> dec_if_nonzero (cnt st r) = cnt st r - 1.
Proof.
  intros H <-. apply dec_if_nonzero_pos. apply (cnt_pos _ _ i). unfold object_state. by rewrite H.
Qed.

Ltac solve_counters H Hi :=
  simpl; rewrite ?(ce_queued _ H), ?(ce_inflight _ H), ?(ce_completed _ H), ?(ce_failed _ H),
    ?(ce_cancelled _ H), ?(u32_inc_cnt _ _ H);
  repeat first [rewrite (dec_cnt _ _ _ _ Hi) by done];
  repeat case_decide; try congruence; try lia.

Lemma pick_object_exact now r i rt :
  counters_exact r -> runtimes r !! i = Some rt -> state rt = KFASTBLOCK_OBJECT_READY ->
  counters_exact (pick_object now (Z.of_nat i) r).
Proof.
  intros H Hi Hs. unfold pick_object.
  eapply (counters_exact_set r _ i); [done|exact Hi|reflexivity|done|done|done|..];
    solve_counters H Hi.
Qed.

Lemma mark_object_inflight_exact r i r' :
  counters_exact r ->
  kfastblock_request_mark_object_inflight (Some r) (Z.of_nat i) = Some r' -> counters_exact r'.
Proof.
  intros H. unfold kfastblock_request_mark_object_inflight.
  destruct (runtime_at r (Z.of_nat i)) as [rt|] eqn:E; [|by intros [= <-]].
  apply runtime_at_nat in E; [|apply H]. unfold is_state.
  case_bool_decide as Hs; [|by intros [= <-]]. intros E'; injection E' as <-.
  eapply (counters_exact_set r _ i); [done|exact E|reflexivity|done|done|done|..];
    solve_counters H E.
Qed.

Lemma mark_object_queued_exact r i ret r' :
  counters_exact r ->
  kfastblock_request_mark_object_queued (Some r) (Z.of_nat i) = (ret, Some r') -> counters_exact r'.
Proof.
  intros H. unfold kfastblock_request_mark_object_queued.
  destruct (runtime_at r (Z.of_nat i)) as [rt|] eqn:E; [|by intros [= _ <-]].
  apply runtime_at_nat in E; [|apply H]. case_match; [by intros [= _ <-]|].
  intros E'; injection E' as _ <-.
  pose proof (Forall_lookup_1 _ _ _ _ (ce_live _ H) E) as [Hl1 Hl2].
  eapply (counters_exact_set r _ i); [done|exact E|reflexivity|done|done|done|..];
    solve_counters H E.
Qed.

Lemma mark_object_complete_exact now vol r i ret vol' r' :
  counters_exact r -> object_state r i = Some KFASTBLOCK_OBJECT_IN_FLIGHT ->
  kfastblock_request_mark_object_complete now vol (Some r) (Z.of_nat i) ret = (vol', Some r') ->
  counters_exact r'.
Proof.
  intros H Hst. unfold kfastblock_request_mark_object_complete.
  destruct (runtime_at r (Z.of_nat i)) as [rt|] eqn:E; [|by intros [= _ <-]].
  apply runtime_at_nat in E; [|apply H]. unfold object_state in Hst. rewrite E in Hst.
  injection Hst as Hs. unfold is_state. rewrite bool_decide_true by done.
  intros E'; injection E' as _ <-.
  destruct (truthy ret) eqn:Hret;
    (eapply (counters_exact_set r _ i); [done|exact E|reflexivity| | |done| | | | |]);
    simpl; rewrite ?Hret; try done; solve_counters H E.
Qed.

(** Writing a runtime without changing its state. *)
Lemma counters_exact_keep r i f :
  counters_exact r -> (forall rt, state (f rt) = state rt) ->
  counters_exact (set_runtime (Z.of_nat i) f r).
Proof.
  intros H Hf. destruct (runtimes r !! i) as [rt|] eqn:E.
  - pose proof (Forall_lookup_1 _ _ _ _ (ce_live _ H) E) as [Hl1 Hl2].
    eapply (counters_exact_set r _ i); [done|exact E|reflexivity|by rewrite Hf|by rewrite Hf|done|..];
      by rewrite Hf, Z.sub_diag, Z.add_0_r.
  - assert (Er : runtimes (set_runtime (Z.of_nat i) f r) = runtimes r).
    { rewrite runtimes_set, Nat2Z.id. apply list_eq. intros j. rewrite list_lookup_alter.
      case_decide; [subst; by rewrite E|done]. }
    destruct H as [(rts & Hr & Hl) H2 H3 H4 H5 H6 H7 H8].
    split; unfold cnt; rewrite ?Er; try done.
    exists (alter f i rts). simpl. rewrite Hr, Nat2Z.id. split; [done|]. by rewrite length_alter.
Qed.

Lemma record_object_seq_exact vol r i q vol' r' :
  counters_exact r ->
  kfastblock_request_record_object_seq vol (Some r) (Z.of_nat i) q = (vol', Some r') ->
  counters_exact r'.
Proof.
  intros H. unfold kfastblock_request_record_object_seq.
  case_match; intros E'; injection E' as _ <-; [by apply counters_exact_keep|done].
Qed.

Lemma record_object_response_exact vol r i st len fl vol' r' :
  counters_exact r ->
  kfastblock_request_record_object_response vol (Some r) (Z.of_nat i) st len fl = (vol', Some r') ->
  counters_exact r'.
Proof.
  intros H. unfold kfastblock_request_record_object_response.
  case_match; intros E'; injection E' as _ <-; [by apply counters_exact_keep|done].
Qed.

Lemma note_object_retry_exact now vol r i ret vol' r' :
  counters_exact r ->
  kfastblock_request_note_object_retry now vol (Some r) (Z.of_nat i) ret = (vol', Some r') ->
  counters_exact r'.
Proof.
  intros H. unfold kfastblock_request_note_object_retry.
  case_match; intros E'; injection E' as _ <-; [by apply counters_exact_keep|done].
Qed.

Lemma record_object_response_some vol r i st len fl :
  exists vol' r', kfastblock_request_record_object_response vol (Some r) i st len fl = (vol', Some r').
Proof. unfold kfastblock_request_record_object_response. case_match; by eexists _, _. Qed.

Lemma note_object_retry_some now vol r i ret :
  exists vol' r', kfastblock_request_note_object_retry now vol (Some r) i ret = (vol', Some r').
Proof. unfold kfastblock_request_note_object_retry. case_match; by eexists _, _. Qed.

(** The request between the two halves of [requeue_object]. *)
Lemma requeue_middle_exact now r i ret rt :
  counters_exact r -> runtimes r !! i = Some rt ->
  state rt = KFASTBLOCK_OBJECT_QUEUED \/ state rt = KFASTBLOCK_OBJECT_IN_FLIGHT \/
  state rt = KFASTBLOCK_OBJECT_READY ->
  let r1 := if is_state KFASTBLOCK_OBJECT_QUEUED rt
            then r <| queued_objects ::= dec_if_nonzero |> else r in
  let r2 := if is_state KFASTBLOCK_OBJECT_IN_FLIGHT rt
            then r1 <| inflight_objects ::= dec_if_nonzero |> else r1 in
  counters_exact (set_runtime (Z.of_nat i) (fun rt =>
    rt <| state := KFASTBLOCK_OBJECT_REQUEUE |> <| last_error := ret |>
       <| last_retry_jiffies := now |> <| wire_seq := 0 |>
       <| state := KFASTBLOCK_OBJECT_READY |>) r2).
Proof.
  intros H Hi Hs. unfold is_state.
  destruct Hs as [Hs|[Hs|Hs]]; rewrite Hs, ?bool_decide_true, ?bool_decide_false by done; cbv zeta;
    (eapply (counters_exact_set r _ i); [done|exact Hi|reflexivity|done|done|done|..]);
    solve_counters H Hi.
Qed.

Lemma requeue_object_exact now vol r i ret ret' vol' r' st :
  counters_exact r -> object_state r i = Some st ->
  kfastblock_request_object_state_terminal st = false ->
  kfastblock_request_requeue_object now vol (Some r) (Z.of_nat i) ret = (ret', vol', Some r') ->
  counters_exact r'.
Proof.
  intros H Hst Ht. unfold kfastblock_request_requeue_object.
  destruct (runtime_at r (Z.of_nat i)) as [rt|] eqn:E; [|by intros [= _ _ <-]].
  apply runtime_at_nat in E; [|apply H]. unfold object_state in Hst. rewrite E in Hst.
  injection Hst as Hs.
  pose proof (Forall_lookup_1 _ _ _ _ (ce_live _ H) E) as [Hl1 Hl2].
  pose proof (requeue_middle_exact now r i ret rt H E) as Hm. cbv zeta in Hm.
  match type of Hm with _ -> counters_exact ?x => set (r2 := x) in * end. clearbody r2.
  destruct (record_object_response_some vol r2 (Z.of_nat i) 0 0 0) as (v3 & r3 & E3).
  unfold kfastblock_request_clear_object_response. rewrite E3.
  destruct (note_object_retry_some now v3 r3 (Z.of_nat i) ret) as (v4 & r4 & E4).
  rewrite E4. intros E5; injection E5 as _ _ <-.
  eapply note_object_retry_exact; [|exact E4]. eapply record_object_response_exact; [|exact E3].
  apply Hm. rewrite Hs in *. destruct st; naive_solver.
Qed.

(** ** Picking is round robin *)

(** The order in which the scan visits the objects, from its [s]-th step on. *)
Definition scan_order (cursor n s : Z) : list Z :=
  (fun k => (cursor + k) mod n) <$> seqZ s (n - s).

Definition is_ready (r : kfastblock_request) (i : Z) : bool :=
  bool_decide (object_state r (Z.to_nat i) = Some KFASTBLOCK_OBJECT_READY).

(** The reference: the first [max] ready objects in scan order. *)
Definition picks (r : kfastblock_request) (max : Z) : list Z :=
  take (Z.to_nat max) (List.filter (is_ready r) (scan_order (dispatch_cursor r) (nr_objects r) 0)).

Lemma scan_order_cons cursor n s :
  s < n -> scan_order cursor n s = (cursor + s) mod n :: scan_order cursor n (s + 1).
Proof.
  intros H. unfold scan_order. rewrite seqZ_cons by lia. simpl. do 2 f_equal.
  f_equal; lia.
Qed.

Lemma scan_order_notin cursor n s :
  0 <= s < n -> (cursor + s) mod n ∉ scan_order cursor n (s + 1).
Proof.
  intros H. unfold scan_order. rewrite list_elem_of_fmap. intros (k & Hk & Hin).
  apply elem_of_seqZ in Hin.
  assert ((k - s) mod n = 0) as Hd.
  { replace (k - s) with ((cursor + k) - (cursor + s)) by lia.
    rewrite Zminus_mod, Hk, Z.sub_diag. by rewrite Zmod_0_l. }
  rewrite Z.mod_small in Hd by lia. lia.
Qed.

Lemma scan_order_range cursor n s i : 0 < n -> i ∈ scan_order cursor n s -> 0 <= i < n.
Proof.
  intros Hn. unfold scan_order. rewrite list_elem_of_fmap. intros (k & -> & _).
  by apply Z.mod_pos_bound.
Qed.

Lemma object_state_set r i f j :
  object_state (set_runtime i f r) j =
  if decide (Z.to_nat i = j) then (fun rt => state (f rt)) <$> runtimes r !! j
  else object_state r j.
Proof.
  unfold object_state. rewrite runtimes_set, list_lookup_alter.
  case_decide; [subst|done]. by destruct (runtimes r !! Z.to_nat i).
Qed.

Lemma object_state_pick now i r j :
  is_ready r i = true ->
  object_state (pick_object now i r) j =
  if decide (Z.to_nat i = j) then Some KFASTBLOCK_OBJECT_QUEUED else object_state r j.
Proof.
  unfold is_ready. rewrite bool_decide_eq_true. intros H.
  change (object_state (pick_object now i r) j) with
    (object_state (set_runtime i (fun rt => rt <| state := KFASTBLOCK_OBJECT_QUEUED |>
       <| dispatch_count ::= fun n => u16 (n + 1) |> <| queued_jiffies := now |>) r) j).
  rewrite object_state_set. case_decide; [subst|done]. unfold object_state in H.
  destruct (runtimes r !! Z.to_nat i); [done|done].
Qed.

Lemma filter_ready_pick now i r l :
  is_ready r i = true -> Forall (fun j => 0 <= j) l -> 0 <= i -> i ∉ l ->
  List.filter (is_ready (pick_object now i r)) l = List.filter (is_ready r) l.
Proof.
  intros Hr. induction 1 as [|j l Hj Hl IH]; intros Hi Hin; [done|]. simpl.
  apply not_elem_of_cons in Hin as [Hne Hin]. rewrite IH by done.
  unfold is_ready at 1 3. rewrite object_state_pick by done.
  rewrite decide_False by lia. done.
Qed.

Lemma dispatchable_is_ready r i :
  0 <= i < nr_objects r ->
  kfastblock_request_object_dispatchable (default [] (object_runtime r)).[i] = is_ready r i.
Proof.
  intros Hi. unfold is_ready, object_state, runtimes.
  rewrite lookup_take_lt by lia. destruct (default [] (object_runtime r)).[i] as [rt|]; simpl.
  - unfold is_state. apply bool_decide_ext. split; [by intros ->|by intros [= ->]].
  - done.
Qed.

(** All the picks of a list, one after the other. *)
Definition pick_all (now : Z) (r : kfastblock_request) (l : list Z) : kfastblock_request :=
  foldl (fun r i => pick_object now i r) r l.

Lemma take_insert_next {A} (l : list A) (n : nat) (x : A) :
  (n < List.length l)%nat -> take (S n) (<[n := x]> l) = take n l ++ [x].
Proof.
  intros H. rewrite (take_S_r _ _ x) by (by apply list_lookup_insert_eq).
  by rewrite take_insert_ge by lia.
Qed.

Lemma pick_loop_spec now cursor max : forall fuel scanned count idx r,
  let n := nr_objects r in
  0 < n <= 128 -> 0 <= cursor < n -> 0 <= count <= scanned -> scanned <= n ->
  Z.of_nat fuel = n - scanned -> List.length idx = 128%nat ->
  let l := take (Z.to_nat (max - count)) (List.filter (is_ready r) (scan_order cursor n scanned)) in
  exists idx',
    pick_loop fuel now cursor max scanned count idx r
      = (count + Z.of_nat (List.length l), idx', pick_all now r l) /\
    List.length idx' = 128%nat /\
    take (Z.to_nat (count + Z.of_nat (List.length l))) idx' = take (Z.to_nat count) idx ++ l.
Proof.
  induction fuel as [|fuel IH]; intros scanned count idx r n Hn Hcur Hcount Hs Hf Hidx l; subst n l.
  - assert (scanned = nr_objects r) as -> by lia. unfold scan_order. rewrite Z.sub_diag.
    simpl. rewrite take_nil. exists idx. simpl. rewrite Z.add_0_r, app_nil_r. done.
  - rewrite (scan_order_cons cursor (nr_objects r) scanned) by lia. cbn [pick_loop].
    rewrite (proj2 (Z.ltb_lt scanned (nr_objects r))) by lia.
    rewrite (u32_small (cursor + scanned)) by lia.
    set (index := (cursor + scanned) mod nr_objects r).
    assert (Hi : 0 <= index < nr_objects r) by (apply Z.mod_pos_bound; lia).
    destruct (Z.ltb_spec count max) as [Hlt|Hge]; cbn [andb].
    2: { rewrite Z2Nat.nonpos by lia. exists idx. simpl. by rewrite Z.add_0_r, app_nil_r. }
    unfold u32_inc. rewrite !(u32_small (_ + 1)) by lia.
    rewrite dispatchable_is_ready by done. cbn [List.filter].
    destruct (is_ready r index) eqn:Hr.
    + edestruct (IH (scanned + 1) (count + 1) (<[Z.to_nat count := index]> idx)
        (pick_object now index r)) as (idx' & E & Hl & Ht);
        [exact Hn|exact Hcur|lia|simpl; lia|simpl; lia|by rewrite length_insert|].
      change (nr_objects (pick_object now index r)) with (nr_objects r) in *.
      rewrite filter_ready_pick in E, Ht; try done; try lia; try (apply scan_order_notin; lia).
      2, 3: apply Forall_forall; intros j Hj; apply scan_order_range in Hj; lia.
      replace (Z.to_nat (max - count)) with (S (Z.to_nat (max - (count + 1)))) by lia.
      cbn [take List.length]. exists idx'. rewrite E.
      split; [f_equal; f_equal; lia|]. split; [done|].
      replace (Z.to_nat (count + Z.of_nat (S (List.length (take (Z.to_nat (max - (count + 1)))
        (List.filter (is_ready r) (scan_order cursor (nr_objects r) (scanned + 1)))))))) with
        (Z.to_nat (count + 1 + Z.of_nat (List.length (take (Z.to_nat (max - (count + 1)))
        (List.filter (is_ready r) (scan_order cursor (nr_objects r) (scanned + 1))))))) by lia.
      rewrite Ht. replace (Z.to_nat (count + 1)) with (S (Z.to_nat count)) by lia.
      rewrite take_insert_next by lia. by rewrite <- app_assoc.
    + destruct (IH (scanned + 1) count idx r) as (idx' & E & Hl & Ht); [lia..|done|].
      exists idx'. done.
Qed.

Lemma scan_order_nodup cursor n s : 0 <= s -> NoDup (scan_order cursor n s).
Proof.
  intros Hs. destruct (decide (s < n)) as [Hlt|Hge].
  - remember (Z.to_nat (n - s)) as k eqn:Hk. revert s Hs Hlt Hk.
    induction k as [|k IH]; intros s Hs Hlt Hk; [lia|].
    rewrite scan_order_cons by lia. apply NoDup_cons. split; [apply scan_order_notin; lia|].
    destruct (decide (s + 1 < n)); [apply IH; lia|].
    unfold scan_order. rewrite seqZ_nil by lia. constructor.
  - unfold scan_order. rewrite seqZ_nil by lia. constructor.
Qed.

Lemma NoDup_list_filter {A} (p : A -> bool) (l : list A) : NoDup l -> NoDup (List.filter p l).
Proof.
  intros H. apply NoDup_ListNoDup, List.NoDup_filter, NoDup_ListNoDup, H.
Qed.

(** What is picked is ready, in range and not repeated. *)
Lemma picks_spec r max :
  0 < nr_objects r ->
  NoDup (picks r max) /\
  Forall (fun i => 0 <= i < nr_objects r /\ is_ready r i = true) (picks r max).
Proof.
  intros Hn. unfold picks. split.
  - eapply sublist_NoDup; [|apply sublist_take]. apply NoDup_list_filter, scan_order_nodup. lia.
  - apply Forall_take, Forall_forall. intros i Hi%list_elem_of_In%List.filter_In.
    destruct Hi as [Hi Hr]. apply list_elem_of_In, scan_order_range in Hi; [|done]. done.
Qed.

Lemma pick_all_spec now l : forall r,
  NoDup l -> Forall (fun i => 0 <= i < nr_objects r /\ is_ready r i = true) l ->
  counters_exact r ->
  (nr_objects (pick_all now r l) = nr_objects r /\
   dispatch_cursor (pick_all now r l) = dispatch_cursor r) /\
  counters_exact (pick_all now r l) /\
  forall j, object_state (pick_all now r l) j =
    if decide (Z.of_nat j ∈ l) then Some KFASTBLOCK_OBJECT_QUEUED else object_state r j.
Proof.
  induction l as [|i l IH]; intros r Hnd Hl Hc.
  { split; [done|]. split; [done|]. intros j. case_decide; [set_solver|done]. }
  apply NoDup_cons in Hnd as [Hin Hnd]. apply Forall_cons in Hl as [[Hi Hr] Hl].
  assert (Hready : exists rt, runtimes r !! Z.to_nat i = Some rt /\
                     state rt = KFASTBLOCK_OBJECT_READY).
  { unfold is_ready, object_state in Hr. apply bool_decide_eq_true, fmap_Some in Hr. naive_solver. }
  destruct Hready as (rt & Hrt & Hst).
  pose proof (pick_object_exact now r (Z.to_nat i) rt Hc Hrt Hst) as Hc'.
  rewrite Z2Nat.id in Hc' by lia.
  destruct (IH (pick_object now i r)) as (H1 & H2 & H3); [done| |done|].
  { apply Forall_forall. intros j Hj. rewrite Forall_forall in Hl. destruct (Hl j Hj) as [Hj1 Hj2].
    split; [done|]. unfold is_ready in *. rewrite object_state_pick by done.
    rewrite decide_False; [done|]. intros E. apply Hin. by replace i with j by lia. }
  split; [exact H1|]. split; [exact H2|]. intros j. etrans; [apply H3|].
  rewrite object_state_pick by done.
  destruct (decide (Z.of_nat j ∈ l)) as [Hjl|Hjl].
  - rewrite decide_True; [done|set_solver].
  - destruct (decide (Z.to_nat i = j)) as [<-|Hne].
    + rewrite decide_True; [done|]. rewrite Z2Nat.id by lia. set_solver.
    + rewrite decide_False; [done|]. rewrite elem_of_cons. intros [E|E]; [lia|done].
Qed.

(** A dispatch batch is the reference batch: the first [max_dispatch] ready
    objects met when going round from the cursor.  Exactly those objects become
    queued, the counters stay exact, and the cursor stays in range. *)
Theorem pick_is_round_robin (now : Z) (vol : ptr kfastblock_volume) (r : kfastblock_request)
    (batch : kfastblock_request_dispatch_batch) (max : Z) :
  counters_exact r -> 0 < nr_objects r -> 0 <= dispatch_cursor r < nr_objects r -> 0 < max ->
  exists vol' r' batch',
    kfastblock_request_pick_dispatch_batch now vol (Some r) (Some batch) max
      = (Z.of_nat (List.length (picks r max)), vol', Some r', Some batch') /\
    nr_indexes batch' = Z.of_nat (List.length (picks r max)) /\
    take (List.length (picks r max)) (indexes batch') = picks r max /\
    (forall j, object_state r' j =
       if decide (Z.of_nat j ∈ picks r max) then Some KFASTBLOCK_OBJECT_QUEUED
       else object_state r j) /\
    0 <= dispatch_cursor r' < nr_objects r' /\ counters_exact r'.
Proof.
  intros Hc Hn Hcur Hmax. destruct (picks_spec r max Hn) as [Hnd Hl].
  destruct (pick_all_spec now (picks r max) r Hnd Hl Hc) as ((H1 & H1') & H2 & H3).
  pose proof (ce_nr _ Hc) as Hnr. unfold KFASTBLOCK_MAX_OBJECT_EXTENTS in Hnr.
  assert (Hlen : (List.length (picks r max) <= 128)%nat).
  { unfold picks. rewrite length_take. etrans; [apply Nat.le_min_r|].
    etrans; [apply List.filter_length_le|]. unfold scan_order.
    rewrite length_fmap, length_seqZ. lia. }
  unfold kfastblock_request_pick_dispatch_batch.
  rewrite (proj2 (Z.eqb_neq max 0)), (proj2 (Z.eqb_neq (nr_objects r) 0)) by lia.
  destruct (ce_runtime _ Hc) as (rts & Hrts & _).
  rewrite bool_decide_true by (rewrite Hrts; by eexists). cbn [negb orb].
  destruct (pick_loop_spec now (dispatch_cursor r) max (Z.to_nat (nr_objects r)) 0 0
    (replicate 128 0) r) as (idx & E & _ & Ht); [lia..|done|].
  rewrite Z.sub_0_r in E, Ht. fold (picks r max) in E, Ht.
  unfold kfastblock_request_dispatch_batch_reset. cbn [fmap option_fmap option_map from_option indexes].
  change (replicate (Z.to_nat KFASTBLOCK_MAX_OBJECT_EXTENTS) 0) with (replicate 128 0).
  rewrite E. rewrite Z.add_0_l in *. rewrite Nat2Z.id in Ht. simpl (take (Z.to_nat 0) _) in Ht.
  assert (Hs32 : s32 (Z.of_nat (List.length (picks r max))) = Z.of_nat (List.length (picks r max))).
  { unfold s32, swrap. rewrite Z.mod_small by lia. zsolve. }
  rewrite Hs32. eexists _, _, _. split; [reflexivity|]. split; [reflexivity|]. split; [exact Ht|].
  set (r' := pick_all now r (picks r max)) in *. clearbody r'.
  destruct (truthy _); [|split; [exact H3|split; [lia|exact H2]]].
  split; [exact H3|]. split.
  - simpl. rewrite H1. apply Z.mod_pos_bound. lia.
  - eapply counters_exact_ext; [exact H2|reflexivity..].
Qed.

(** ** Cancelling *)

Definition cancel_state (st : kfastblock_request_object_state) : kfastblock_request_object_state :=
  match st with
  | KFASTBLOCK_OBJECT_READY | KFASTBLOCK_OBJECT_QUEUED => KFASTBLOCK_OBJECT_CANCELLED
  | st => st
  end.

(** The counters are exact once the [c] objects cancelled so far are added. *)
Definition exact_plus (c : Z) (r : kfastblock_request) : Prop :=
  0 <= c /\ 0 <= cancelled_objects r /\
  counters_exact (r <| cancelled_objects ::= fun n => n + c |>).

(** One round of the loop on an object that is cancelled. *)
Lemma cancel_step_exact now c r i rt :
  exact_plus c r -> runtimes r !! i = Some rt ->
  state rt = KFASTBLOCK_OBJECT_READY \/ state rt = KFASTBLOCK_OBJECT_QUEUED ->
  let r1 := if bool_decide (Some (state rt) = Some KFASTBLOCK_OBJECT_QUEUED)
            then r <| queued_objects ::= dec_if_nonzero |> else r in
  exact_plus (u32_inc c) (set_runtime (Z.of_nat i) (fun rt =>
    rt <| state := KFASTBLOCK_OBJECT_CANCELLED |> <| last_error := - ECANCELED |>
       <| completed_jiffies := now |>) r1).
Proof.
  intros (Hc & Hc' & H) Hi Hs. pose proof (cnt_range KFASTBLOCK_OBJECT_CANCELLED _ H) as Hr.
  rewrite <- (ce_cancelled _ H) in Hr. simpl in Hr. unfold KFASTBLOCK_MAX_OBJECT_EXTENTS in Hr.
  unfold u32_inc. rewrite u32_small by lia.
  assert (Hi' : runtimes (r <| cancelled_objects ::= fun n => n + c |>) !! i = Some rt) by exact Hi.
  destruct Hs as [Hs|Hs]; rewrite Hs; [rewrite bool_decide_false by done|rewrite bool_decide_true by done];
    cbv zeta; (split; [lia|]); (split; [exact Hc'|]);
    (eapply (counters_exact_set _ _ i); [exact H|exact Hi'|reflexivity|done|done|done|..]);
    simpl; rewrite Hs; repeat case_decide; try done; try lia.
  pose proof (dec_cnt _ _ _ _ Hi' Hs) as Hd. rewrite <- (ce_queued _ H) in Hd. simpl in Hd. lia.
Qed.

(** The same step, as a change of the states. *)
Lemma cancel_step_states now c r i :
  exact_plus c r -> (i < Z.to_nat (nr_objects r))%nat ->
  let st := state <$> default [] (object_runtime r) !! i in
  let r1 := if bool_decide (st = Some KFASTBLOCK_OBJECT_QUEUED)
            then r <| queued_objects ::= dec_if_nonzero |> else r in
  let r2 := set_runtime (Z.of_nat i) (fun rt =>
    rt <| state := KFASTBLOCK_OBJECT_CANCELLED |> <| last_error := - ECANCELED |>
       <| completed_jiffies := now |>) r1 in
  st = object_state r i /\
  if bool_decide (st = Some KFASTBLOCK_OBJECT_READY)
     || bool_decide (st = Some KFASTBLOCK_OBJECT_QUEUED)
  then exact_plus (u32_inc c) r2 /\ nr_objects r2 = nr_objects r /\
       cancelled_objects r2 = cancelled_objects r /\
       cancel_state <$> object_state r i = Some KFASTBLOCK_OBJECT_CANCELLED /\
       forall j, object_state r2 j =
         if decide (i = j) then Some KFASTBLOCK_OBJECT_CANCELLED else object_state r j
  else cancel_state <$> object_state r i = object_state r i.
Proof.
  intros Hc Hi. assert (Est : state <$> default [] (object_runtime r) !! i = object_state r i).
  { unfold object_state, runtimes. by rewrite lookup_take_lt by lia. }
  rewrite Est. cbv zeta. split; [done|].
  destruct (bool_decide _ || bool_decide _) eqn:Hb.
  - rewrite orb_true_iff, !bool_decide_eq_true in Hb.
    assert (Hrt : exists rt, runtimes r !! i = Some rt /\ object_state r i = Some (state rt)).
    { unfold object_state in *. destruct (runtimes r !! i) as [rt|]; [by exists rt|naive_solver]. }
    destruct Hrt as (rt & Hrt & Es). rewrite Es in *.
    split; [apply cancel_step_exact; [done|done|naive_solver]|].
    split; [by case_match|]. split; [by case_match|].
    split; [destruct Hb as [-> | ->]; done|]. intros j. rewrite object_state_set, Nat2Z.id.
    case_bool_decide; (case_decide; [subst|done]);
      change (runtimes (r <| queued_objects ::= dec_if_nonzero |>)) with (runtimes r);
      by rewrite Hrt.
  - rewrite orb_false_iff, !bool_decide_eq_false in Hb.
    destruct (object_state r i) as [[]|]; naive_solver.
Qed.

Lemma cancel_loop_spec now l : forall c r,
  NoDup l -> Forall (fun i => (i < Z.to_nat (nr_objects r))%nat) l -> exact_plus c r ->
  exists c' r', cancel_loop now l c r = (c', r') /\ exact_plus c' r' /\
    cancelled_objects r' = cancelled_objects r /\ nr_objects r' = nr_objects r /\
    forall j, object_state r' j =
      if decide (j ∈ l) then cancel_state <$> object_state r j else object_state r j.
Proof.
  induction l as [|i l IH]; intros c r Hnd Hl Hc.
  { exists c, r. split; [done|]. split; [done|]. split; [done|]. split; [done|].
    intros j. case_decide; [set_solver|done]. }
  apply NoDup_cons in Hnd as [Hin Hnd]. apply Forall_cons in Hl as [Hi Hl].
  cbn [cancel_loop].
  destruct (cancel_step_states now c r i Hc Hi) as [_ Hstep]. cbv zeta in Hstep.
  destruct (bool_decide _ || bool_decide _).
  - match type of Hstep with exact_plus _ ?x /\ _ => set (r1 := x) in * end. clearbody r1.
    destruct Hstep as (Hc1 & En & Ec & Ei & Es).
    destruct (IH (u32_inc c) r1) as (c' & r' & E & H1 & H2 & H3 & H4); [done|by rewrite En|done|].
    exists c', r'. split; [exact E|]. split; [exact H1|]. split; [congruence|].
    split; [congruence|]. intros j. rewrite H4, Es. destruct (decide (i = j)) as [<-|Hne].
    + by rewrite decide_False, decide_True, Ei by set_solver.
    + apply decide_ext. set_solver.
  - destruct (IH c r Hnd Hl Hc) as (c' & r' & E & H1 & H2 & H3 & H4).
    exists c', r'. split; [exact E|]. split; [exact H1|]. split; [exact H2|].
    split; [exact H3|]. intros j. rewrite H4. destruct (decide (j = i)) as [->|Hne].
    + rewrite Hstep. by repeat case_decide.
    + apply decide_ext. set_solver.
Qed.

Lemma cancel_unqueued_spec now vol r :
  counters_exact r ->
  exists n vol' r', kfastblock_request_cancel_unqueued now vol (Some r) = (n, vol', Some r') /\
    counters_exact r' /\ nr_objects r' = nr_objects r /\
    cancelled_objects r' = cancelled_objects r + n /\
    forall j, object_state r' j = cancel_state <$> object_state r j.
Proof.
  intros H. unfold kfastblock_request_cancel_unqueued.
  destruct (ce_runtime _ H) as (rts & Hr & _). rewrite Hr.
  pose proof (cnt_range KFASTBLOCK_OBJECT_CANCELLED r H) as Hcr.
  rewrite <- (ce_cancelled _ H) in Hcr.
  destruct (cancel_loop_spec now (seq 0 (Z.to_nat (nr_objects r))) 0 r)
    as (c & r1 & E & (Hc0 & Hc1 & Hc) & H2 & H3 & H4).
  { apply NoDup_seq. }
  { apply Forall_forall. intros i Hi%elem_of_seq. lia. }
  { split; [done|]. split; [lia|]. eapply counters_exact_ext; [exact H|try reflexivity..].
    simpl. lia. }
  rewrite E. pose proof (cnt_range KFASTBLOCK_OBJECT_CANCELLED _ Hc) as Hcr1.
  rewrite <- (ce_cancelled _ Hc) in Hcr1. simpl in Hcr1.
  unfold KFASTBLOCK_MAX_OBJECT_EXTENTS in *.
  eexists _, _, _. split; [reflexivity|]. rewrite s32_small by lia.
  split; [|split; [exact H3|split]].
  - eapply counters_exact_ext; [exact Hc|try reflexivity..]. simpl. rewrite u32_small; lia.
  - simpl. rewrite u32_small; lia.
  - intros j. etrans; [apply H4|]. destruct (decide (j ∈ _)) as [Hj|Hj]; [done|].
    destruct (object_state r j) as [st|] eqn:Ej; [|done]. exfalso. apply Hj, elem_of_seq.
    unfold object_state in Ej. apply fmap_Some in Ej as (rt & Hrt%lookup_lt_Some & _).
    pose proof (length_runtimes r H). lia.
Qed.

(** Cancelling leaves nothing to dispatch: afterwards no object is ready or
    queued, the objects in flight and the finished ones are untouched, and the
    returned number is what the count of cancelled objects grew by. *)
Theorem cancel_leaves_nothing_to_dispatch (now : Z) (vol : ptr kfastblock_volume)
    (r : kfastblock_request) :
  counters_exact r ->
  exists n vol' r', kfastblock_request_cancel_unqueued now vol (Some r) = (n, vol', Some r') /\
    counters_exact r' /\
    kfastblock_request_has_dispatchable (Some r') = false /\
    kfastblock_request_has_queued (Some r') = false /\
    kfastblock_request_inflight_objects (Some r') = kfastblock_request_inflight_objects (Some r) /\
    cancelled_objects r' = cancelled_objects r + n /\
    (forall j st, kfastblock_request_object_state_terminal st = true \/
                  st = KFASTBLOCK_OBJECT_IN_FLIGHT ->
       object_state r j = Some st -> object_state r' j = Some st).
Proof.
  intros H. destruct (cancel_unqueued_spec now vol r H) as (n & vol' & r' & E & H1 & Hn & H2 & H3).
  exists n, vol', r'. split; [exact E|]. split; [exact H1|].
  assert (Hz : forall st, cancel_state st <> st -> cnt st r' = 0).
  { intros st Hst. apply count_if_false, Forall_lookup. intros j rt Hrt. unfold is_state.
    apply bool_decide_eq_false. intros <-. specialize (H3 j). unfold object_state in H3.
    rewrite Hrt in H3. simpl in H3. symmetry in H3. apply fmap_Some in H3 as (st & _ & Hst').
    rewrite Hst' in Hst. by destruct st. }
  destruct (ce_runtime _ H1) as (rts & Hr & _).
  split; [|split; [|split; [|split; [exact H2|]]]].
  - unfold kfastblock_request_has_dispatchable, kfastblock_request_dispatchable_objects, with_runtimes.
    rewrite bool_decide_true by (rewrite Hr; by eexists).
    change (truthy (cnt KFASTBLOCK_OBJECT_READY r') = false). by rewrite Hz.
  - unfold kfastblock_request_has_queued, kfastblock_request_queued_objects. simpl.
    by rewrite (ce_queued _ H1), Hz.
  - unfold kfastblock_request_inflight_objects. simpl.
    rewrite (ce_inflight _ H1), (ce_inflight _ H), !cnt_states.
    replace (state <$> runtimes r') with (cancel_state <$> (state <$> runtimes r)).
    + rewrite count_if_fmap. apply count_if_ext. by intros [].
    + apply list_eq. intros j. specialize (H3 j). unfold object_state in H3.
      by rewrite !list_lookup_fmap, H3.
  - intros j st Hst Hj. rewrite H3, Hj. simpl. f_equal. by destruct st; naive_solver.
Qed.

(** ** The life of the objects as a step relation *)

Definition active (r : kfastblock_request) : Z := queued_objects r + inflight_objects r.

(** The window and the size of a request, which no step changes. *)
Definition fixed (r : kfastblock_request) : Z * Z := (dispatch_window r, nr_objects r).

Lemma prepare_runtime_exact vol r rts vol' r' :
  object_runtime r = Some rts -> (Z.to_nat (nr_objects r) <= List.length rts)%nat ->
  0 <= nr_objects r <= KFASTBLOCK_MAX_OBJECT_EXTENTS ->
  kfastblock_request_prepare_runtime vol (Some r) = (vol', Some r') ->
  counters_exact r' /\ fixed r' = fixed r /\ active r' = 0 /\
  Forall (fun rt => rt = ready_runtime) (runtimes r').
Proof.
  intros Hr Hl Hn. unfold kfastblock_request_prepare_runtime. rewrite Hr.
  intros E; injection E as _ <-.
  match goal with |- counters_exact ?x /\ _ => set (r' := x) end.
  assert (Hall : Forall (fun rt => rt = ready_runtime) (runtimes r')).
  { subst r'. unfold runtimes. simpl. rewrite Hr. simpl. apply Forall_lookup. intros j rt.
    unfold map_upto. intros Hj. pose proof (lookup_lt_Some _ _ _ Hj) as Hlt.
    rewrite length_take in Hlt. rewrite lookup_take_lt, list_lookup_imap in Hj by lia.
    apply fmap_Some in Hj as (x & _ & ->). by rewrite decide_True by lia. }
  assert (Hz : forall st, st <> KFASTBLOCK_OBJECT_READY -> cnt st r' = 0).
  { intros st Hst. apply count_if_false. eapply Forall_impl; [exact Hall|].
    intros rt ->. unfold is_state. by apply bool_decide_eq_false. }
  split; [|done]. split; rewrite ?Hz by done; try done.
  - eexists. split; [subst r'; simpl; rewrite Hr; reflexivity|]. unfold map_upto.
    by rewrite length_imap.
  - eapply Forall_impl; [exact Hall|]. by intros rt ->.
Qed.

Lemma pick_loop_exact now cursor max fuel : forall scanned count idx r,
  counters_exact r -> 0 <= count -> 0 < nr_objects r ->
  count + Z.of_nat fuel < 2 ^ 32 ->
  let '(count', _, r') := pick_loop fuel now cursor max scanned count idx r in
  counters_exact r' /\ fixed r' = fixed r /\ count <= count' <= Z.max count max /\
  active r' = active r + (count' - count).
Proof.
  induction fuel as [|fuel IH]; intros scanned count idx r H Hc Hn Hf; cbn [pick_loop].
  { split; [done|]. split; [done|]. lia. }
  destruct ((scanned <? nr_objects r) && (count <? max)) eqn:Hg;
    [|split; [done|]; split; [done|]; lia].
  unbool. set (index := _ mod _).
  assert (Hi : 0 <= index < nr_objects r) by (apply Z.mod_pos_bound; lia).
  rewrite dispatchable_is_ready by done. destruct (is_ready r index) eqn:Hr.
  - unfold is_ready, object_state in Hr. apply bool_decide_eq_true, fmap_Some in Hr.
    destruct Hr as (rt & Hrt & Hst).
    pose proof (pick_object_exact now r _ rt H Hrt (eq_sym Hst)) as H1.
    rewrite Z2Nat.id in H1 by lia.
    assert (Ha : active (pick_object now index r) = active r + 1).
    { unfold active. simpl. rewrite (ce_queued _ H), (u32_inc_cnt _ _ H). lia. }
    unfold u32_inc at 2. rewrite (u32_small (count + 1)) by lia.
    specialize (IH (u32_inc scanned) (count + 1) (<[Z.to_nat count := index]> idx)
      (pick_object now index r) H1 ltac:(lia) Hn ltac:(lia)).
    destruct (pick_loop _ _ _ _ _ _ _ _) as [[count' idx'] r'].
    destruct IH as (H2 & H3 & H4 & H5). split; [exact H2|]. split; [exact H3|]. lia.
  - apply IH; [done..|lia].
Qed.

Lemma pick_dispatch_batch_exact now vol r batch max n vol' r' batch' :
  counters_exact r -> 0 < max ->
  kfastblock_request_pick_dispatch_batch now vol (Some r) (Some batch) max
    = (n, vol', Some r', batch') ->
  counters_exact r' /\ fixed r' = fixed r /\ active r <= active r' <= active r + max.
Proof.
  intros H Hmax. unfold kfastblock_request_pick_dispatch_batch.
  rewrite (proj2 (Z.eqb_neq max 0)) by lia.
  destruct ((nr_objects r =? 0) || _) eqn:Hz.
  { intros E; injection E as _ _ <- _. split; [done|]. split; [done|]. lia. }
  unbool. pose proof (ce_nr _ H) as Hnr. unfold KFASTBLOCK_MAX_OBJECT_EXTENTS in Hnr.
  match goal with |- context [pick_loop ?a ?b ?c ?d ?e ?f ?g ?h] =>
    pose proof (pick_loop_exact b c d a e f g h H ltac:(lia) ltac:(lia) ltac:(lia)) as Hp;
    destruct (pick_loop a b c d e f g h) as [[count idx] r1] end.
  destruct Hp as (H1 & H2 & H3 & H4). intros E; injection E as _ _ <- _.
  destruct (negb (count =? 0)); [|split; [done|]; split; [done|]; lia].
  split; [eapply counters_exact_ext; [exact H1|reflexivity..]|]. split; [exact H2|].
  change (active r <= active r1 <= active r + max). lia.
Qed.

(** A step that keeps the window and the size and starts no new work. *)
Definition steady (r r' : kfastblock_request) : Prop :=
  fixed r' = fixed r /\ active r' <= active r.

Lemma steady_refl r : steady r r.
Proof. by split. Qed.

Lemma steady_trans r1 r2 r3 : steady r1 r2 -> steady r2 r3 -> steady r1 r3.
Proof. intros [H1 H2] [H3 H4]. split; [congruence|lia]. Qed.

Lemma steady_set i f r : steady r (set_runtime i f r).
Proof. split; [reflexivity|]. unfold active. simpl. lia. Qed.

Lemma dec_if_nonzero_le x : 0 <= x -> 0 <= dec_if_nonzero x <= x.
Proof. unfold dec_if_nonzero. unbool. case_match; unbool; lia. Qed.

Create HintDb steady.
#[local] Hint Resolve steady_refl steady_set : steady.

Lemma steady_counters r r' :
  fixed r' = fixed r -> queued_objects r' + inflight_objects r' <= queued_objects r + inflight_objects r ->
  steady r r'.
Proof. by split. Qed.

Lemma mark_object_queued_steady r i ret r' :
  kfastblock_request_mark_object_queued (Some r) i = (ret, Some r') -> steady r r'.
Proof.
  unfold kfastblock_request_mark_object_queued. repeat case_match;
    intros E; injection E as _ <-; auto with steady.
Qed.

Lemma mark_object_inflight_steady r i r' :
  counters_exact r ->
  kfastblock_request_mark_object_inflight (Some r) (Z.of_nat i) = Some r' -> steady r r'.
Proof.
  intros H. unfold kfastblock_request_mark_object_inflight.
  destruct (runtime_at r (Z.of_nat i)) as [rt|] eqn:E; [|intros [= <-]; auto with steady].
  apply runtime_at_nat in E; [|apply H]. unfold is_state.
  case_bool_decide as Hs; [|intros [= <-]; auto with steady]. intros E'; injection E' as <-.
  apply steady_counters; [reflexivity|]. solve_counters H E.
Qed.

Lemma mark_object_complete_steady now vol r i ret vol' r' :
  counters_exact r ->
  kfastblock_request_mark_object_complete now vol (Some r) i ret = (vol', Some r') -> steady r r'.
Proof.
  intros H. unfold kfastblock_request_mark_object_complete.
  case_match; [|intros E; injection E as _ <-; auto with steady].
  intros E; injection E as _ <-.
  pose proof (cnt_range KFASTBLOCK_OBJECT_IN_FLIGHT r H) as Hi. rewrite <- (ce_inflight _ H) in Hi.
  pose proof (dec_if_nonzero_le (inflight_objects r) ltac:(lia)).
  destruct (truthy ret), (is_state KFASTBLOCK_OBJECT_IN_FLIGHT _);
    (apply steady_counters; [reflexivity|simpl; lia]).
Qed.

Lemma record_object_seq_steady vol r i q vol' r' :
  kfastblock_request_record_object_seq vol (Some r) i q = (vol', Some r') -> steady r r'.
Proof.
  unfold kfastblock_request_record_object_seq.
  case_match; intros E; injection E as _ <-; auto with steady.
Qed.

Lemma record_object_response_steady vol r i st len fl vol' r' :
  kfastblock_request_record_object_response vol (Some r) i st len fl = (vol', Some r') ->
  steady r r'.
Proof.
  unfold kfastblock_request_record_object_response.
  case_match; intros E; injection E as _ <-; auto with steady.
Qed.

Lemma note_object_retry_steady now vol r i ret vol' r' :
  kfastblock_request_note_object_retry now vol (Some r) i ret = (vol', Some r') -> steady r r'.
Proof.
  unfold kfastblock_request_note_object_retry.
  case_match; intros E; injection E as _ <-; auto with steady.
Qed.

Lemma requeue_object_steady now vol r i ret ret' vol' r' :
  counters_exact r ->
  kfastblock_request_requeue_object now vol (Some r) i ret = (ret', vol', Some r') -> steady r r'.
Proof.
  intros H. unfold kfastblock_request_requeue_object.
  case_match; [|intros E; injection E as _ _ <-; auto with steady].
  pose proof (cnt_range KFASTBLOCK_OBJECT_IN_FLIGHT r H) as Hi. rewrite <- (ce_inflight _ H) in Hi.
  pose proof (cnt_range KFASTBLOCK_OBJECT_QUEUED r H) as Hq. rewrite <- (ce_queued _ H) in Hq.
  pose proof (dec_if_nonzero_le (inflight_objects r) ltac:(lia)).
  pose proof (dec_if_nonzero_le (queued_objects r) ltac:(lia)).
  match goal with |- context [kfastblock_request_clear_object_response _ (Some ?x) _] =>
    set (r2 := x) end.
  assert (Hr2 : steady r r2).
  { subst r2. destruct (is_state KFASTBLOCK_OBJECT_QUEUED _), (is_state KFASTBLOCK_OBJECT_IN_FLIGHT _);
      (apply steady_counters; [reflexivity|simpl; lia]). }
  clearbody r2. unfold kfastblock_request_clear_object_response.
  destruct (record_object_response_some vol r2 i 0 0 0) as (v3 & r3 & E3). rewrite E3.
  destruct (note_object_retry_some now v3 r3 i ret) as (v4 & r4 & E4). rewrite E4.
  intros E5; injection E5 as _ _ <-.
  eapply steady_trans; [exact Hr2|]. eapply steady_trans;
    [by eapply record_object_response_steady|by eapply note_object_retry_steady].
Qed.

Lemma cancel_loop_steady now l : forall c r c' r',
  0 <= queued_objects r -> cancel_loop now l c r = (c', r') -> steady r r'.
Proof.
  induction l as [|i l IH]; intros c r c' r' Hq E; cbn [cancel_loop] in E.
  { injection E as _ <-. auto with steady. }
  destruct (_ || _); [|by eapply IH].
  pose proof (dec_if_nonzero_le (queued_objects r) Hq).
  eapply steady_trans; [|eapply IH; [|exact E]].
  - case_bool_decide; (apply steady_counters; [reflexivity|simpl; lia]).
  - case_bool_decide; simpl; lia.
Qed.

Lemma cancel_unqueued_steady now vol r n vol' r' :
  counters_exact r ->
  kfastblock_request_cancel_unqueued now vol (Some r) = (n, vol', Some r') -> steady r r'.
Proof.
  intros H. unfold kfastblock_request_cancel_unqueued.
  pose proof (cnt_range KFASTBLOCK_OBJECT_QUEUED r H) as Hq. rewrite <- (ce_queued _ H) in Hq.
  destruct (ce_runtime _ H) as (rts & Hr & _). rewrite Hr.
  destruct (cancel_loop _ _ _ _) as [c r1] eqn:E. apply cancel_loop_steady in E; [|lia].
  intros E1; injection E1 as _ _ <-. eapply steady_trans; [exact E|].
  apply steady_counters; [reflexivity|simpl; lia].
Qed.

(** The calls the transport makes on a prepared request.  An object is completed
    only when it is in flight and requeued only while it is not finished; [allow]
    says how many objects a round may ask for. *)
Inductive dispatch_step (allow : kfastblock_request -> Z -> Prop)
  : kfastblock_request -> kfastblock_request -> Prop :=
| step_pick now vol r batch max n vol' r' batch' :
    0 < max -> allow r max ->
    kfastblock_request_pick_dispatch_batch now vol (Some r) (Some batch) max
      = (n, vol', Some r', batch') ->
    dispatch_step allow r r'
| step_queued r i ret r' :
    kfastblock_request_mark_object_queued (Some r) (Z.of_nat i) = (ret, Some r') ->
    dispatch_step allow r r'
| step_inflight r i r' :
    kfastblock_request_mark_object_inflight (Some r) (Z.of_nat i) = Some r' ->
    dispatch_step allow r r'
| step_seq vol r i q vol' r' :
    kfastblock_request_record_object_seq vol (Some r) (Z.of_nat i) q = (vol', Some r') ->
    dispatch_step allow r r'
| step_response vol r i st len fl vol' r' :
    kfastblock_request_record_object_response vol (Some r) (Z.of_nat i) st len fl
      = (vol', Some r') ->
    dispatch_step allow r r'
| step_complete now vol r i ret vol' r' :
    object_state r i = Some KFASTBLOCK_OBJECT_IN_FLIGHT ->
    kfastblock_request_mark_object_complete now vol (Some r) (Z.of_nat i) ret = (vol', Some r') ->
    dispatch_step allow r r'
| step_requeue now vol r i ret ret' vol' r' st :
    object_state r i = Some st -> kfastblock_request_object_state_terminal st = false ->
    kfastblock_request_requeue_object now vol (Some r) (Z.of_nat i) ret = (ret', vol', Some r') ->
    dispatch_step allow r r'
| step_cancel now vol r n vol' r' :
    kfastblock_request_cancel_unqueued now vol (Some r) = (n, vol', Some r') ->
    dispatch_step allow r r'.

Lemma dispatch_step_exact allow r r' :
  counters_exact r -> dispatch_step allow r r' -> counters_exact r' /\ fixed r' = fixed r.
Proof.
  intros H Hs. destruct Hs as [now vol r batch max n vol' r' batch' Hm _ E|r i ret r' E|r i r' E
    |vol r i q vol' r' E|vol r i st len fl vol' r' E|now vol r i ret vol' r' Hst E
    |now vol r i ret ret' vol' r' st Hst Ht E|now vol r n vol' r' E].
  - eapply pick_dispatch_batch_exact in E as (H1 & H2 & _); done.
  - split; [by eapply mark_object_queued_exact|by eapply mark_object_queued_steady].
  - split; [by eapply mark_object_inflight_exact|by eapply mark_object_inflight_steady].
  - split; [by eapply record_object_seq_exact|by eapply record_object_seq_steady].
  - split; [by eapply record_object_response_exact|by eapply record_object_response_steady].
  - split; [by eapply mark_object_complete_exact|by eapply mark_object_complete_steady].
  - split; [by eapply requeue_object_exact|by eapply requeue_object_steady].
  - split; [|by eapply cancel_unqueued_steady].
    destruct (cancel_unqueued_spec now vol r H) as (n1 & v1 & r1 & E1 & H1 & _).
    rewrite E in E1. by injection E1 as _ _ <-.
Qed.

(** A step either is a pick within [max] or starts no new work. *)
Lemma dispatch_step_active allow r r' :
  counters_exact r -> dispatch_step allow r r' ->
  active r' <= active r \/ exists max, 0 < max /\ allow r max /\ active r' <= active r + max.
Proof.
  intros H Hs. destruct Hs as [now vol r batch max n vol' r' batch' Hm Ha E|r i ret r' E|r i r' E
    |vol r i q vol' r' E|vol r i st len fl vol' r' E|now vol r i ret vol' r' Hst E
    |now vol r i ret ret' vol' r' st Hst Ht E|now vol r n vol' r' E].
  - right. exists max. split; [done|]. split; [done|].
    eapply pick_dispatch_batch_exact in E as (_ & _ & Hb); [lia|done|done].
  - left. by eapply mark_object_queued_steady.
  - left. by eapply mark_object_inflight_steady.
  - left. by eapply record_object_seq_steady.
  - left. by eapply record_object_response_steady.
  - left. by eapply mark_object_complete_steady.
  - left. by eapply requeue_object_steady.
  - left. by eapply cancel_unqueued_steady.
Qed.

Lemma dispatch_steps_exact allow r r' :
  counters_exact r -> rtc (dispatch_step allow) r r' -> counters_exact r' /\ fixed r' = fixed r.
Proof.
  intros H Hs. revert H. induction Hs as [r|r1 r2 r3 Hs _ IH]; intros H; [done|].
  destruct (dispatch_step_exact _ _ _ H Hs) as [H1 H2]. destruct (IH H1) as [H3 H4].
  split; [done|congruence].
Qed.

(** The states of a request with exact counters add up to its size. *)
Lemma count_states_total r :
  counters_exact r ->
  cnt KFASTBLOCK_OBJECT_READY r + queued_objects r + inflight_objects r
  + (completed_objects r + failed_objects r + cancelled_objects r) = nr_objects r.
Proof.
  intros H. rewrite <- (length_runtimes r H).
  rewrite (ce_queued _ H), (ce_inflight _ H), (ce_completed _ H), (ce_failed _ H), (ce_cancelled _ H).
  pose proof (ce_live _ H) as Hl. unfold cnt. clear H.
  induction Hl as [|rt l [H1 H2] Hl IH]; [done|]. rewrite !count_if_cons. simpl List.length.
  unfold is_state at 1 3 5 7 9 11. destruct (state rt); try done;
    repeat (rewrite bool_decide_true by done || rewrite bool_decide_false by done); simpl; lia.
Qed.

Lemma terminal_objects_exact r :
  counters_exact r ->
  kfastblock_request_terminal_objects (Some r)
  = completed_objects r + failed_objects r + cancelled_objects r.
Proof.
  intros H. pose proof (count_states_total r H) as Ht. pose proof (ce_nr _ H) as Hn.
  pose proof (cnt_range KFASTBLOCK_OBJECT_READY _ H). pose proof (cnt_range KFASTBLOCK_OBJECT_QUEUED _ H).
  pose proof (cnt_range KFASTBLOCK_OBJECT_IN_FLIGHT _ H). pose proof (cnt_range KFASTBLOCK_OBJECT_DONE _ H).
  pose proof (cnt_range KFASTBLOCK_OBJECT_FAILED _ H). pose proof (cnt_range KFASTBLOCK_OBJECT_CANCELLED _ H).
  pose proof (ce_queued _ H). pose proof (ce_inflight _ H). pose proof (ce_completed _ H).
  pose proof (ce_failed _ H). pose proof (ce_cancelled _ H).
  unfold kfastblock_request_terminal_objects, kfastblock_request_failed_objects,
    kfastblock_request_cancelled_objects, kfastblock_request_completed_objects,
    KFASTBLOCK_MAX_OBJECT_EXTENTS in *. cbn [from_option].
  rewrite (u32_small (failed_objects r + _)), u32_small by lia. lia.
Qed.

Lemma all_states_terminal r :
  counters_exact r ->
  (completed_objects r + failed_objects r + cancelled_objects r = nr_objects r <->
   forall j st, object_state r j = Some st -> kfastblock_request_object_state_terminal st = true).
Proof.
  intros H. pose proof (count_states_total r H) as Ht.
  pose proof (cnt_range KFASTBLOCK_OBJECT_READY _ H) as H1.
  pose proof (cnt_range KFASTBLOCK_OBJECT_QUEUED _ H) as H2.
  pose proof (cnt_range KFASTBLOCK_OBJECT_IN_FLIGHT _ H) as H3.
  pose proof (ce_queued _ H) as Eq. pose proof (ce_inflight _ H) as Ei. split.
  - intros E j st Hj. pose proof (cnt_pos _ _ _ Hj) as Hp.
    pose proof Hj as Hj'. unfold object_state in Hj'. apply fmap_Some in Hj' as (rt & Hrt & ->).
    pose proof (Forall_lookup_1 _ _ _ _ (ce_live _ H) Hrt) as [Hl1 Hl2].
    destruct (state rt); try done; lia.
  - intros Hall.
    assert (Hz : forall st, kfastblock_request_object_state_terminal st = false -> cnt st r = 0).
    { intros st Hst. apply count_if_false, Forall_lookup. intros j rt Hrt.
      apply bool_decide_eq_false. intros E. specialize (Hall j (state rt)).
      unfold object_state in Hall. rewrite Hrt in Hall. specialize (Hall eq_refl). congruence. }
    pose proof (Hz KFASTBLOCK_OBJECT_READY eq_refl). pose proof (Hz KFASTBLOCK_OBJECT_QUEUED eq_refl).
    pose proof (Hz KFASTBLOCK_OBJECT_IN_FLIGHT eq_refl). lia.
Qed.


(** Asking for no more objects than [dispatch_credits] gives. *)
Definition within_credits (r : kfastblock_request) (max : Z) : Prop :=
  max <= kfastblock_request_dispatch_credits (Some r).

Lemma credits_bound r max :
  counters_exact r -> 0 < max -> within_credits r max ->
  active r + max <= or_else (dispatch_window r) 1.
Proof.
  intros H Hm. unfold within_credits, kfastblock_request_dispatch_credits, active. cbn [from_option].
  pose proof (cnt_range KFASTBLOCK_OBJECT_QUEUED _ H). pose proof (cnt_range KFASTBLOCK_OBJECT_IN_FLIGHT _ H).
  pose proof (ce_queued _ H). pose proof (ce_inflight _ H). unfold KFASTBLOCK_MAX_OBJECT_EXTENTS in *.
  rewrite u32_small by lia. intros; case_match; unbool; lia.
Qed.

(** C29: As long as every round asks for at most the credits of the request, the
    objects queued and in flight never outnumber the dispatch window (a window of
    zero counts as one), whatever completions, retries and cancellations happen
    in between. *)
Theorem dispatch_window_never_exceeded (vol vol1 : ptr kfastblock_volume)
    (r0 r r' : kfastblock_request) (rts : list kfastblock_request_object_runtime) :
  object_runtime r0 = Some rts -> (Z.to_nat (nr_objects r0) <= List.length rts)%nat ->
  0 <= nr_objects r0 <= KFASTBLOCK_MAX_OBJECT_EXTENTS -> 0 <= dispatch_window r0 ->
  kfastblock_request_prepare_runtime vol (Some r0) = (vol1, Some r) ->
  rtc (dispatch_step within_credits) r r' ->
  kfastblock_request_active_objects (Some r') <= or_else (dispatch_window r0) 1.
Proof.
  intros Hr Hl Hn Hw Hp Hs.
  destruct (prepare_runtime_exact _ _ _ _ _ Hr Hl Hn Hp) as (H0 & Hf0 & Ha & _).
  assert (Hw1 : active r <= or_else (dispatch_window r) 1).
  { rewrite Ha. assert (dispatch_window r = dispatch_window r0) as -> by (unfold fixed in *; congruence).
    unfold or_else. case_match; unbool; lia. }
  assert (Hgoal : counters_exact r' /\ dispatch_window r' = dispatch_window r /\
                  active r' <= or_else (dispatch_window r') 1).
  { clear Ha Hf0 Hp. induction Hs as [r|r1 r2 r3 Hs _ IH]; [done|].
    destruct (dispatch_step_exact _ _ _ H0 Hs) as [H1 H2].
    assert (E : dispatch_window r2 = dispatch_window r1) by (unfold fixed in *; congruence).
    rewrite <- E in *. apply IH; [done|].
    destruct (dispatch_step_active _ _ _ H0 Hs) as [Hle|(max & Hm & Hal & Hle)]; [lia|].
    pose proof (credits_bound _ _ H0 Hm Hal). rewrite E in *. lia. }
  destruct Hgoal as (H & E & Hle).
  assert (Ew : dispatch_window r' = dispatch_window r0) by (unfold fixed in *; congruence).
  rewrite <- Ew. unfold kfastblock_request_active_objects, kfastblock_request_queued_objects,
    kfastblock_request_inflight_objects, active in *. cbn [from_option].
  pose proof (cnt_range KFASTBLOCK_OBJECT_QUEUED _ H). pose proof (cnt_range KFASTBLOCK_OBJECT_IN_FLIGHT _ H).
  pose proof (ce_queued _ H). pose proof (ce_inflight _ H). unfold KFASTBLOCK_MAX_OBJECT_EXTENTS in *.
  rewrite u32_small by lia. exact Hle.
Qed.

(** ** A request of three objects with a window of two *)

Definition three_objects : kfastblock_request :=
  zero_request <| nr_objects := 3 |> <| dispatch_window := 2 |>
    <| object_runtime := Some (replicate 3 ready_runtime) |>.

Definition empty_batch : kfastblock_request_dispatch_batch :=
  {| nr_indexes := 0; indexes := replicate 128 0 |}.

Definition three_prepared : kfastblock_request :=
  Eval vm_compute in
    default zero_request (kfastblock_request_prepare_runtime NULL (Some three_objects)).2.

Definition three_picked : kfastblock_request :=
  Eval vm_compute in default zero_request
    (kfastblock_request_pick_dispatch_batch 5 NULL (Some three_prepared) (Some empty_batch) 2).1.2.

Definition three_inflight : kfastblock_request :=
  Eval vm_compute in
    default zero_request (kfastblock_request_mark_object_inflight (Some three_picked) 0).

Definition three_done : kfastblock_request :=
  Eval vm_compute in default zero_request
    (kfastblock_request_mark_object_complete 6 NULL (Some three_inflight) 0 0).2.

Lemma three_prepared_ok :
  kfastblock_request_prepare_runtime NULL (Some three_objects) = (NULL, Some three_prepared).
Proof. vm_compute. reflexivity. Defined.

Lemma three_prepared_exact : counters_exact three_prepared.
Proof.
  eapply (prepare_runtime_exact NULL three_objects); [reflexivity|simpl; lia|vm_compute; split; discriminate|].
  exact three_prepared_ok.
Qed.

Lemma three_run (allow : kfastblock_request -> Z -> Prop) :
  allow three_prepared 2 -> rtc (dispatch_step allow) three_prepared three_done.
Proof.
  intros Ha. eapply rtc_l; [|eapply rtc_l; [|eapply rtc_l; [|apply rtc_refl]]].
  - eapply (step_pick _ 5 NULL three_prepared empty_batch 2); [lia|exact Ha|].
    vm_compute. reflexivity.
  - eapply (step_inflight _ three_picked 0 three_inflight). vm_compute. reflexivity.
  - eapply (step_complete _ 6 NULL three_inflight 0 0); vm_compute; reflexivity.
Qed.

Lemma pick_is_round_robin_witness :
  exists vol' r' batch',
    kfastblock_request_pick_dispatch_batch 5 NULL (Some three_prepared) (Some empty_batch) 2
      = (2, vol', Some r', Some batch') /\ take 2 (indexes batch') = [0; 1] /\
    object_state r' 1 = Some KFASTBLOCK_OBJECT_QUEUED.
Proof.
  destruct (pick_is_round_robin 5 NULL three_prepared empty_batch 2 three_prepared_exact)
    as (vol' & r' & batch' & E & _ & Ht & Hs & _); [vm_compute; reflexivity| |lia|].
  { split; vm_compute; [discriminate|reflexivity]. }
  exists vol', r', batch'. split; [exact E|]. split; [exact Ht|]. exact (Hs 1%nat).
Defined.

Lemma cancel_leaves_nothing_to_dispatch_witness :
  exists n vol' r',
    kfastblock_request_cancel_unqueued 9 NULL (Some three_prepared) = (n, vol', Some r') /\
    kfastblock_request_has_dispatchable (Some r') = false.
Proof.
  destruct (cancel_leaves_nothing_to_dispatch 9 NULL three_prepared three_prepared_exact)
    as (n & vol' & r' & E & _ & H & _).
  exists n, vol', r'. split; [exact E|exact H].
Defined.


Lemma dispatch_window_never_exceeded_witness :
  kfastblock_request_active_objects (Some three_done) <= 2.
Proof.
  apply (dispatch_window_never_exceeded NULL NULL three_objects three_prepared
    three_done (replicate 3 ready_runtime)).
  - reflexivity.
  - vm_compute. lia.
  - vm_compute. split; discriminate.
  - vm_compute. discriminate.
  - exact three_prepared_ok.
  - apply three_run. vm_compute. discriminate.
Defined.

(** Completing an object that is queued and not yet in flight finishes it but
    leaves it counted as queued. *)
Theorem complete_from_queued_leaves_count :
  exists r r', counters_exact r /\ object_state r 0 = Some KFASTBLOCK_OBJECT_QUEUED /\
    kfastblock_request_mark_object_complete 6 NULL (Some r) 0 (- EIO) = (NULL, Some r') /\
    object_state r' 0 = Some KFASTBLOCK_OBJECT_FAILED /\
    kfastblock_request_state_count (Some r') KFASTBLOCK_OBJECT_QUEUED = 1 /\ queued_objects r' = 2.
Proof.
  exists three_picked. eexists. split.
  - eapply (pick_dispatch_batch_exact 5 NULL three_prepared empty_batch 2);
      [exact three_prepared_exact|lia|vm_compute; reflexivity].
  - split; [vm_compute; reflexivity|]. split; [vm_compute; reflexivity|].
    split; [|split]; vm_compute; reflexivity.
Qed.

End Dispatch.
