(* ===== verification/Recovery.v ===== *)
(** * Failure recovery (kfastblock/src/recovery.c, include/kfastblock/recovery.h)

    What the driver does about a failed exchange: an error number is classified
    into a set of actions (drop the socket, forget the cached leader, refresh
    the metadata, retry), and the actions are applied to the connection slot and
    to the volume.  This file composes the connection pool, the metadata, the
    scheduler and the volume.

    The slot that the caller has locked is passed beside the volume and returned;
    no function of the volume called here touches its connection slots.  Taking
    and releasing [state_lock] around a single operation leaves no trace. *)

From S2P Require Import Prelude Scheduler Meta Connpool Volume Request.
Import (hints) Scheduler Meta Connpool Volume Request.

Module Recovery.
Import Volume(kfastblock_volume).

Definition KFASTBLOCK_RECOVERY_DROP_SOCKET : Z := Z.shiftl 1 0.
Definition KFASTBLOCK_RECOVERY_INVALIDATE_LEADER : Z := Z.shiftl 1 1.
Definition KFASTBLOCK_RECOVERY_KICK_REFRESH : Z := Z.shiftl 1 2.
Definition KFASTBLOCK_RECOVERY_RETRY : Z := Z.shiftl 1 3.

Definition BLK_STS_TRANSPORT : Z := 5.

(** [case] labels of a [switch] on an error number. *)
Definition one_of (ret : Z) (errs : list Z) : bool := existsb (fun e => ret =? - e) errs.

Definition kfastblock_recovery_should_retry_monitor (ret : Z) : bool :=
  one_of ret [EAGAIN; ETIMEDOUT; ECONNRESET; EPIPE; ECONNREFUSED; EHOSTUNREACH; ENETUNREACH;
              EPROTO; EIO].

Definition kfastblock_recovery_classify_object_failure (ret : Z) : Z :=
  if one_of ret [ESTALE] then KFASTBLOCK_RECOVERY_KICK_REFRESH
  else if one_of ret [ENOLINK; EAGAIN; EHOSTDOWN; ETIMEDOUT; ECONNRESET; EPIPE] then
    Z.lor (Z.lor (Z.lor KFASTBLOCK_RECOVERY_DROP_SOCKET KFASTBLOCK_RECOVERY_INVALIDATE_LEADER)
             KFASTBLOCK_RECOVERY_KICK_REFRESH) KFASTBLOCK_RECOVERY_RETRY
  else if one_of ret [EPROTO] then
    Z.lor (Z.lor KFASTBLOCK_RECOVERY_DROP_SOCKET KFASTBLOCK_RECOVERY_INVALIDATE_LEADER)
      KFASTBLOCK_RECOVERY_KICK_REFRESH
  else if one_of ret [EIO] then
    Z.lor KFASTBLOCK_RECOVERY_DROP_SOCKET KFASTBLOCK_RECOVERY_KICK_REFRESH
  else 0.

Definition kfastblock_recovery_classify_leader_failure (ret : Z) : Z :=
  if one_of ret [ESTALE] then
    Z.lor KFASTBLOCK_RECOVERY_INVALIDATE_LEADER KFASTBLOCK_RECOVERY_KICK_REFRESH
  else if one_of ret [ENOLINK; EAGAIN; EHOSTDOWN; ETIMEDOUT; ECONNRESET; EPIPE; EPROTO; EIO] then
    Z.lor (Z.lor KFASTBLOCK_RECOVERY_DROP_SOCKET KFASTBLOCK_RECOVERY_INVALIDATE_LEADER)
      KFASTBLOCK_RECOVERY_KICK_REFRESH
  else KFASTBLOCK_RECOVERY_INVALIDATE_LEADER.

Definition kfastblock_recovery_classify_monitor_failure (ret : Z) : Z :=
  if kfastblock_recovery_should_retry_monitor ret then KFASTBLOCK_RECOVERY_DROP_SOCKET else 0.

Definition kfastblock_recovery_prefetch_should_fail_request (ret : Z) : bool :=
  one_of ret [EINVAL; ENOMEM; E2BIG; EOPNOTSUPP; ENOENT].

Definition kfastblock_recovery_errno_to_blk_status (ret : Z) : Z :=
  if ret =? 0 then Volume.BLK_STS_OK
  else if one_of ret [EAGAIN; ESTALE; EBUSY] then Volume.BLK_STS_RESOURCE
  else if one_of ret [EHOSTDOWN; ENOLINK; ETIMEDOUT; ECONNRESET; EPIPE] then BLK_STS_TRANSPORT
  else Volume.BLK_STS_IOERR.

Definition kfastblock_recovery_update_live_pg_leader (vol : ptr kfastblock_volume)
    (pool_id pg_id : Z) (leader : ptr Meta.kfastblock_leader_info) : Z * ptr kfastblock_volume :=
  match vol, leader with
  | Some v, Some _ =>
      let '(ret, view) := Meta.kfastblock_meta_set_pg_leader (Some (Volume.view v)) pool_id pg_id leader in
      (ret, Some (v <| Volume.view ::= fun w => default w view |>))
  | _, _ => (- EINVAL, vol)
  end.

Definition kfastblock_recovery_invalidate_live_pg_leader (vol : ptr kfastblock_volume)
    (pool_id pg_id : Z) : ptr kfastblock_volume :=
  (fun v => v <| Volume.view ::= fun w =>
     default w (Meta.kfastblock_meta_invalidate_pg_leader (Some w) pool_id pg_id) |>) <$> vol.

Section Sockets.
Context `{Clock}.

Definition kfastblock_recovery_mark_osd_socket_failure (now : Z) (vol : ptr kfastblock_volume)
    (cached : ptr Connpool.kfastblock_cached_socket) (leader : ptr Meta.kfastblock_leader_info)
    (ret : Z) : ptr kfastblock_volume * ptr Connpool.kfastblock_cached_socket :=
  match vol, cached, leader with
  | Some _, Some _, Some l =>
      let '(backoff_jiffies, cached) :=
        Connpool.kfastblock_osd_conn_slot_mark_failure_locked now cached leader ret in
      (Volume.kfastblock_volume_account_socket_backoff now vol false (Meta.leader_osd_id l)
         (Meta.leader_port l) (from_option Connpool.fail_streak 0 cached) backoff_jiffies ret,
       cached)
  | _, _, _ => (vol, cached)
  end.

Definition kfastblock_recovery_mark_monitor_socket_failure (now : Z) (vol : ptr kfastblock_volume)
    (cached : ptr Connpool.kfastblock_cached_monitor_socket)
    (endpoint : ptr Meta.kfastblock_monitor_endpoint) (ret : Z)
    : ptr kfastblock_volume * ptr Connpool.kfastblock_cached_monitor_socket :=
  match vol, cached, endpoint with
  | Some _, Some _, Some e =>
      let '(backoff_jiffies, cached) :=
        Connpool.kfastblock_monitor_conn_slot_mark_failure_locked now cached endpoint ret in
      (Volume.kfastblock_volume_account_socket_backoff now vol true 0 (Meta.mon_port e)
         (from_option Connpool.mon_fail_streak 0 cached) backoff_jiffies ret,
       cached)
  | _, _, _ => (vol, cached)
  end.

Definition kfastblock_recovery_finalize_osd_socket (now : Z) (vol : ptr kfastblock_volume)
    (cached : ptr Connpool.kfastblock_cached_socket) (leader : ptr Meta.kfastblock_leader_info)
    (ret actions : Z) : ptr kfastblock_volume * ptr Connpool.kfastblock_cached_socket :=
  match cached with
  | NULL => (vol, NULL)
  | Some c =>
      if ret =? 0 then (vol, Some (c <| Connpool.lock := false |>))
      else
        let '(vol, cached) :=
          match leader, Connpool.sock c with
          | Some l, Some _ =>
              let '(vol, cached) :=
                if has_flag actions KFASTBLOCK_RECOVERY_DROP_SOCKET
                then kfastblock_recovery_mark_osd_socket_failure now vol cached leader ret
                else (vol, cached) in
              (Volume.kfastblock_volume_account_socket_drop now vol false (Meta.leader_osd_id l)
                 (Meta.leader_port l) ret, cached)
          | _, _ => (vol, cached)
          end in
        let cached := Connpool.kfastblock_osd_conn_slot_close_locked now cached in
        (vol, (fun c => c <| Connpool.lock := false |>) <$> cached)
  end.

Definition kfastblock_recovery_finalize_monitor_socket (now : Z) (vol : ptr kfastblock_volume)
    (cached : ptr Connpool.kfastblock_cached_monitor_socket) (ret actions : Z)
    : ptr kfastblock_volume * ptr Connpool.kfastblock_cached_monitor_socket :=
  match cached with
  | NULL => (vol, NULL)
  | Some c =>
      if ret =? 0 then (vol, Some (c <| Connpool.mon_lock := false |>))
      else
        let '(vol, cached) :=
          if has_flag actions KFASTBLOCK_RECOVERY_DROP_SOCKET && bool_decide (is_Some vol) then
            let '(vol, cached) :=
              match Connpool.mon_sock c with
              | Some _ =>
                  let endpoint :=
                    {| Meta.host := strscpy (Connpool.mon_address c) Meta.KFASTBLOCK_MAX_ADDR_LEN;
                       Meta.mon_port := Connpool.mon_port c |} in
                  let '(vol, cached) :=
                    kfastblock_recovery_mark_monitor_socket_failure now vol cached
                      (Some endpoint) ret in
                  (Volume.kfastblock_volume_account_socket_drop now vol true 0
                     (from_option Connpool.mon_port 0 cached) ret, cached)
              | NULL => (vol, cached)
              end in
            (vol, Connpool.kfastblock_monitor_conn_slot_close_locked now cached)
          else (vol, cached) in
        (vol, (fun c => c <| Connpool.mon_lock := false |>) <$> cached)
  end.

Definition kfastblock_recovery_apply_object_failure (now : Z) (vol : ptr kfastblock_volume)
    (pool_id : Z) (extent : ptr Request.kfastblock_object_extent) (op : Z)
    (leader : ptr Meta.kfastblock_leader_info) (ret actions : Z) : ptr kfastblock_volume :=
  match vol, extent with
  | Some _, Some e =>
      if actions =? 0 then vol
      else
        let vol :=
          if has_flag actions KFASTBLOCK_RECOVERY_INVALIDATE_LEADER then
            kfastblock_recovery_invalidate_live_pg_leader
              (Volume.kfastblock_volume_account_leader_invalidate now vol (Request.pg_id e) ret)
              pool_id (Request.pg_id e)
          else vol in
        let vol :=
          if has_flag actions KFASTBLOCK_RECOVERY_KICK_REFRESH then
            Volume.kfastblock_volume_kick_refresh
              (Volume.kfastblock_volume_account_refresh_kick now vol (Request.pg_id e) ret)
          else vol in
        if has_flag actions KFASTBLOCK_RECOVERY_RETRY then
          let vol := (fun v => v <| Volume.scheduler ::= fun s =>
                        default s (Scheduler.kfastblock_scheduler_note_retry now (Some s)) |>) <$> vol in
          Volume.kfastblock_volume_account_object_retry now vol op (Request.pg_id e)
            (from_option Meta.leader_osd_id 0 leader) (Request.extent_length e) ret
        else vol
  | _, _ => vol
  end.

Definition kfastblock_recovery_apply_leader_failure (now : Z) (vol : ptr kfastblock_volume)
    (pool_id pg_id ret actions : Z) : ptr kfastblock_volume :=
  match vol with
  | NULL => NULL
  | Some _ =>
      if actions =? 0 then vol
      else
        let vol :=
          if has_flag actions KFASTBLOCK_RECOVERY_INVALIDATE_LEADER then
            kfastblock_recovery_invalidate_live_pg_leader
              (Volume.kfastblock_volume_account_leader_invalidate now vol pg_id ret) pool_id pg_id
          else vol in
        if has_flag actions KFASTBLOCK_RECOVERY_KICK_REFRESH then
          Volume.kfastblock_volume_kick_refresh
            (Volume.kfastblock_volume_account_refresh_kick now vol pg_id ret)
        else vol
  end.

End Sockets.

(** ** What the classification promises *)

Lemma one_of_true ret errs : one_of ret errs = true <-> exists e, e ∈ errs /\ ret = - e.
Proof.
  unfold one_of. rewrite existsb_exists. split; intros (e & H1 & H2); exists e.
  - rewrite list_elem_of_In. unbool. by split.
  - rewrite list_elem_of_In in H1. split; [done|]. lia.
Qed.

(** The error numbers that the tables distinguish. *)
Definition classified : list Z :=
  [ESTALE; ENOLINK; EAGAIN; EHOSTDOWN; ETIMEDOUT; ECONNRESET; EPIPE; EPROTO; EIO; EINVAL; ENOMEM;
   E2BIG; EOPNOTSUPP; ENOENT; EBUSY; ECONNREFUSED; EHOSTUNREACH; ENETUNREACH].

Lemma one_of_unclassified ret errs :
  one_of ret classified = false -> forallb (fun e => one_of (- e) classified) errs = true ->
  one_of ret errs = false.
Proof.
  intros Hu Hs. apply not_true_iff_false. intros (e & He & ->)%one_of_true.
  rewrite forallb_forall in Hs. rewrite list_elem_of_In in He. rewrite Hs in Hu by done. done.
Qed.

(** Cases on an error number: one of those classified, or none of them. *)
Lemma classified_cases (P : Z -> Prop) :
  Forall (fun e => P (- e)) classified ->
  (forall ret, one_of ret classified = false -> P ret) -> forall ret, P ret.
Proof.
  intros H1 H2 ret. destruct (one_of ret classified) eqn:E; [|by apply H2].
  apply one_of_true in E as (e & He & ->). rewrite Forall_forall in H1. by apply H1.
Qed.

Ltac by_table ret :=
  pattern ret; apply classified_cases;
  [repeat constructor; vm_compute; try done; tauto
  |clear ret; intros ret Hu;
   unfold kfastblock_recovery_classify_object_failure, kfastblock_recovery_classify_leader_failure,
     kfastblock_recovery_classify_monitor_failure, kfastblock_recovery_should_retry_monitor,
     kfastblock_recovery_prefetch_should_fail_request, kfastblock_recovery_errno_to_blk_status;
   repeat rewrite (one_of_unclassified ret) by done].

(** The classification is coherent.  A failure that is retried also drops the
    socket, forgets the leader and refreshes the metadata, is reported to the
    block layer as a condition worth retrying, and never fails a prefetch; a
    leader query takes every action the object exchange would take for the same
    error except the retry, and always forgets the leader; success takes none
    of the object actions and is the only result reported as [BLK_STS_OK]. *)
Theorem classification_coherent (ret : Z) :
  (has_flag (kfastblock_recovery_classify_object_failure ret) KFASTBLOCK_RECOVERY_RETRY = true ->
     kfastblock_recovery_classify_object_failure ret
       = Z.lor (kfastblock_recovery_classify_leader_failure ret) KFASTBLOCK_RECOVERY_RETRY /\
     kfastblock_recovery_classify_leader_failure ret
       = Z.lor (Z.lor KFASTBLOCK_RECOVERY_DROP_SOCKET KFASTBLOCK_RECOVERY_INVALIDATE_LEADER)
           KFASTBLOCK_RECOVERY_KICK_REFRESH /\
     kfastblock_recovery_errno_to_blk_status ret <> Volume.BLK_STS_IOERR /\
     kfastblock_recovery_prefetch_should_fail_request ret = false) /\
  Z.land (kfastblock_recovery_classify_object_failure ret)
    (Z.lnot (Z.lor (kfastblock_recovery_classify_leader_failure ret) KFASTBLOCK_RECOVERY_RETRY)) = 0 /\
  has_flag (kfastblock_recovery_classify_leader_failure ret) KFASTBLOCK_RECOVERY_INVALIDATE_LEADER
    = true /\
  (kfastblock_recovery_errno_to_blk_status ret = Volume.BLK_STS_OK <-> ret = 0).
Proof.
  by_table ret. split; [done|]. split; [done|]. split; [done|].
  destruct (ret =? 0) eqn:E; unbool; [done|]. split; [done|lia].
Qed.

Lemma classification_coherent_witness :
  kfastblock_recovery_classify_object_failure (- EPIPE)
    = Z.lor (kfastblock_recovery_classify_leader_failure (- EPIPE)) KFASTBLOCK_RECOVERY_RETRY /\
  kfastblock_recovery_prefetch_should_fail_request (- EPIPE) = false.
Proof.
  destruct (classification_coherent (- EPIPE)) as [H _].
  destruct H as (H1 & _ & _ & H2); [vm_compute; reflexivity|]. split; [exact H1|exact H2].
Defined.

(** ** What applying the actions does *)

Section Apply.
Context `{Clock}.

(** The reference effect of a set of actions on the metadata, the scheduler and
    the refresh timer; everything else of the volume but the accounting stays. *)
Definition invalidated (actions pool pg : Z) (w : Meta.kfastblock_cluster_view) :=
  if has_flag actions KFASTBLOCK_RECOVERY_INVALIDATE_LEADER
  then default w (Meta.kfastblock_meta_invalidate_pg_leader (Some w) pool pg) else w.

Definition kicked (actions : Z) (v : kfastblock_volume) : list Volume.kernel_call :=
  if has_flag actions KFASTBLOCK_RECOVERY_KICK_REFRESH && truthy (Volume.ready v)
  then [Volume.mod_delayed_work 0] else [].

Definition noted (now actions : Z) (s : Scheduler.kfastblock_scheduler_controller) :=
  if has_flag actions KFASTBLOCK_RECOVERY_RETRY
  then default s (Scheduler.kfastblock_scheduler_note_retry now (Some s)) else s.

Definition recovered (now actions pool pg : Z) (v : kfastblock_volume) : kfastblock_volume :=
  v <| Volume.view ::= invalidated actions pool pg |>
    <| Volume.scheduler ::= noted now actions |>
    <| Volume.kernel_calls ::= app (kicked actions v) |>.

(** An accounting call changes nothing outside the accounting. *)
Lemma accounted vol v c now :
  Volume.unaccounted <$> vol = Volume.unaccounted <$> Some v ->
  Volume.unaccounted <$> Volume.exec_account vol (now, c) = Volume.unaccounted <$> Some v.
Proof. intros E. by rewrite Volume.exec_account_unaccounted. Qed.

Lemma unaccounted_some vol v :
  Volume.unaccounted <$> vol = Volume.unaccounted <$> Some v ->
  exists v', vol = Some v' /\ Volume.unaccounted v' = Volume.unaccounted v.
Proof.
  destruct vol as [v'|]; [|done]. intros E. exists v'. split; [done|].
  exact (inj Some _ _ E).
Qed.

Lemma unaccounted_view f v v' :
  Volume.unaccounted v' = Volume.unaccounted v ->
  Volume.unaccounted (v' <| Volume.view ::= f |>) = Volume.unaccounted (v <| Volume.view ::= f |>).
Proof.
  intros E. change (Volume.unaccounted v' <| Volume.view ::= f |>
                    = Volume.unaccounted v <| Volume.view ::= f |>). by rewrite E.
Qed.

Lemma unaccounted_scheduler f v v' :
  Volume.unaccounted v' = Volume.unaccounted v ->
  Volume.unaccounted (v' <| Volume.scheduler ::= f |>)
  = Volume.unaccounted (v <| Volume.scheduler ::= f |>).
Proof.
  intros E. change (Volume.unaccounted v' <| Volume.scheduler ::= f |>
                    = Volume.unaccounted v <| Volume.scheduler ::= f |>). by rewrite E.
Qed.

Lemma unaccounted_calls f v v' :
  Volume.unaccounted v' = Volume.unaccounted v ->
  Volume.unaccounted (v' <| Volume.kernel_calls ::= f |>)
  = Volume.unaccounted (v <| Volume.kernel_calls ::= f |>).
Proof.
  intros E. change (Volume.unaccounted v' <| Volume.kernel_calls ::= f |>
                    = Volume.unaccounted v <| Volume.kernel_calls ::= f |>). by rewrite E.
Qed.

Lemma unaccounted_ready v v' :
  Volume.unaccounted v' = Volume.unaccounted v -> Volume.ready v' = Volume.ready v.
Proof. intros E. exact (f_equal Volume.ready E). Qed.

(** The part of applying a failure that both functions share. *)
Lemma apply_common now v pool pg ret actions :
  let vol :=
    if has_flag actions KFASTBLOCK_RECOVERY_INVALIDATE_LEADER then
      kfastblock_recovery_invalidate_live_pg_leader
        (Volume.kfastblock_volume_account_leader_invalidate now (Some v) pg ret) pool pg
    else Some v in
  let vol :=
    if has_flag actions KFASTBLOCK_RECOVERY_KICK_REFRESH then
      Volume.kfastblock_volume_kick_refresh
        (Volume.kfastblock_volume_account_refresh_kick now vol pg ret)
    else vol in
  exists v', vol = Some v' /\
    Volume.unaccounted v' =
    Volume.unaccounted (v <| Volume.view ::= invalidated actions pool pg |>
                          <| Volume.kernel_calls ::= app (kicked actions v) |>).
Proof.
  cbv zeta. set (vol1 := if has_flag actions KFASTBLOCK_RECOVERY_INVALIDATE_LEADER then _ else _).
  assert (H1 : exists v1, vol1 = Some v1 /\
    Volume.unaccounted v1 = Volume.unaccounted (v <| Volume.view ::= invalidated actions pool pg |>)).
  { subst vol1. unfold invalidated.
    destruct (has_flag actions KFASTBLOCK_RECOVERY_INVALIDATE_LEADER); [|exists v; split; [done|]; by destruct v].
    destruct (unaccounted_some _ _ (accounted (Some v) v (Volume.AcLeaderInvalidate pg ret) now eq_refl))
      as (v1 & E1 & E2). change (Volume.exec_account _ _) with
      (Volume.kfastblock_volume_account_leader_invalidate now (Some v) pg ret) in E1.
    rewrite E1. eexists. split; [reflexivity|]. by apply unaccounted_view. }
  clearbody vol1. destruct H1 as (v1 & -> & E1). unfold kicked.
  destruct (has_flag actions KFASTBLOCK_RECOVERY_KICK_REFRESH); cbn [andb].
  - destruct (unaccounted_some _ _ (accounted (Some v1) v1 (Volume.AcRefreshKick pg ret) now eq_refl))
      as (v2 & E2 & E3). change (Volume.exec_account _ _) with
      (Volume.kfastblock_volume_account_refresh_kick now (Some v1) pg ret) in E2.
    rewrite E2. unfold Volume.kfastblock_volume_kick_refresh. cbn [fmap option_fmap option_map].
    eexists. split; [reflexivity|]. rewrite E1 in E3.
    rewrite (unaccounted_ready _ _ E3). unfold truthy.
    change (Volume.ready (v <| Volume.view ::= invalidated actions pool pg |>)) with (Volume.ready v).
    destruct (Volume.ready v =? 0); cbn [negb].
    + rewrite E3. by destruct v.
    + exact (unaccounted_calls (cons (Volume.mod_delayed_work 0)) _ _ E3).
  - exists v1. split; [done|]. rewrite E1. by destruct v.
Qed.

Lemma invalidated_spec actions pool pg w :
  Meta.view_wf w ->
  Meta.view_wf (invalidated actions pool pg w) /\
  Meta.leader_map (invalidated actions pool pg w)
  = if has_flag actions KFASTBLOCK_RECOVERY_INVALIDATE_LEADER
    then delete (pool, pg) (Meta.leader_map w) else Meta.leader_map w.
Proof.
  intros Hw. unfold invalidated. destruct (has_flag _ _); [|done].
  by destruct (Meta.invalidate_pg_leader_spec w pool pg Hw) as (w' & -> & ?).
Qed.

Lemma recovered_zero now pool pg v : recovered now 0 pool pg v = v.
Proof. by destruct v. Qed.

Lemma apply_object_failure_spec now v pool e op leader ret actions :
  exists v', kfastblock_recovery_apply_object_failure now (Some v) pool (Some e) op leader ret actions
      = Some v' /\
    Volume.unaccounted v' = Volume.unaccounted (recovered now actions pool (Request.pg_id e) v).
Proof.
  unfold kfastblock_recovery_apply_object_failure. destruct (actions =? 0) eqn:Ha.
  { unbool. subst. exists v. by rewrite recovered_zero. }
  destruct (apply_common now v pool (Request.pg_id e) ret actions) as (v1 & E1 & E2).
  cbv zeta in E1. rewrite E1. unfold recovered, noted.
  destruct (has_flag actions KFASTBLOCK_RECOVERY_RETRY).
  - cbn [fmap option_fmap option_map].
    match goal with |- context [Volume.kfastblock_volume_account_object_retry _ (Some ?x)] =>
      set (v2 := x) end.
    destruct (unaccounted_some _ _ (accounted (Some v2) v2 (Volume.AcObjectRetry op (Request.pg_id e)
      (from_option Meta.leader_osd_id 0 leader) (Request.extent_length e) ret) now eq_refl))
      as (v3 & E3 & E4). exists v3. split; [exact E3|]. rewrite E4. subst v2.
    etrans; [apply (unaccounted_scheduler _ _ _ E2)|]. by destruct v.
  - exists v1. split; [done|]. rewrite E2. by destruct v.
Qed.


Lemma apply_leader_failure_spec now v pool pg ret actions :
  exists v', kfastblock_recovery_apply_leader_failure now (Some v) pool pg ret actions = Some v' /\
    Volume.unaccounted v' =
    Volume.unaccounted (v <| Volume.view ::= invalidated actions pool pg |>
                          <| Volume.kernel_calls ::= app (kicked actions v) |>).
Proof.
  unfold kfastblock_recovery_apply_leader_failure. destruct (actions =? 0) eqn:Ha.
  { unbool. subst. exists v. split; [done|]. by destruct v. }
  apply apply_common.
Qed.

(** A leader query that fails, classified and applied, always leaves the
    group without a cached leader, so that the next exchange asks again, and
    touches no other group. *)
Theorem failed_leader_query_forgets_leader (now : Z) (v : kfastblock_volume) (pool pg ret : Z) :
  Meta.view_wf (Volume.view v) ->
  exists v', kfastblock_recovery_apply_leader_failure now (Some v) pool pg ret
               (kfastblock_recovery_classify_leader_failure ret) = Some v' /\
    Meta.view_wf (Volume.view v') /\
    Meta.leader_map (Volume.view v') = delete (pool, pg) (Meta.leader_map (Volume.view v)) /\
    Volume.scheduler v' = Volume.scheduler v.
Proof.
  intros Hw. set (actions := kfastblock_recovery_classify_leader_failure ret).
  destruct (apply_leader_failure_spec now v pool pg ret actions) as (v' & E1 & E2).
  exists v'. split; [exact E1|].
  assert (Ev : Volume.view v' = invalidated actions pool pg (Volume.view v))
    by exact (f_equal Volume.view E2).
  assert (Es : Volume.scheduler v' = Volume.scheduler v) by exact (f_equal Volume.scheduler E2).
  destruct (invalidated_spec actions pool pg _ Hw) as [H1 H2]. rewrite Ev, H2.
  split; [exact H1|]. split; [|exact Es].
  assert (Hf : has_flag actions KFASTBLOCK_RECOVERY_INVALIDATE_LEADER = true); [|by rewrite Hf].
  subst actions. clear. by_table ret. done.
Qed.

(** ** Finalizing the socket of an exchange *)

Lemma account_drop_spec now v m osd port ret :
  exists v', Volume.kfastblock_volume_account_socket_drop now (Some v) m osd port ret = Some v' /\
    Volume.unaccounted v' = Volume.unaccounted v.
Proof.
  exact (unaccounted_some _ _ (accounted (Some v) v (Volume.AcSocketDrop m osd port ret) now eq_refl)).
Qed.

Lemma account_backoff_spec now v m osd port streak j ret :
  exists v', Volume.kfastblock_volume_account_socket_backoff now (Some v) m osd port streak j ret
      = Some v' /\ Volume.unaccounted v' = Volume.unaccounted v.
Proof.
  exact (unaccounted_some _ _
    (accounted (Some v) v (Volume.AcSocketBackoff m osd port streak j ret) now eq_refl)).
Qed.

(** An OSD slot comes back unlocked from every exchange.  After a success it
    is otherwise untouched.  After a failure its socket is closed; when the
    actions drop the socket and the exchange had one, the endpoint of the leader
    is backed off until the end of the interval of its grown failure streak, and
    otherwise the streak and the backoff are left alone. *)
Theorem finalize_osd_socket_releases (now : Z) (v : kfastblock_volume)
    (c : Connpool.kfastblock_cached_socket) (l : Meta.kfastblock_leader_info) (ret actions : Z) :
  exists v' c',
    kfastblock_recovery_finalize_osd_socket now (Some v) (Some c) (Some l) ret actions
      = (Some v', Some c') /\
    Volume.unaccounted v' = Volume.unaccounted v /\
    Connpool.lock c' = false /\
    (ret = 0 -> c' = c <| Connpool.lock := false |>) /\
    (ret <> 0 ->
       Connpool.sock c' = NULL /\ Connpool.mux_waiters c' = [] /\ Connpool.connecting c' = false /\
       if has_flag actions KFASTBLOCK_RECOVERY_DROP_SOCKET && bool_decide (is_Some (Connpool.sock c))
       then Connpool.osd_id c' = Meta.leader_osd_id l /\
            Connpool.fail_streak c' = Z.min (u32 (Connpool.fail_streak c + 1)) 8 /\
            Connpool.backoff_until_jiffies c'
              = u64 (now + Connpool.kfastblock_conn_backoff_interval (Connpool.fail_streak c'))
       else Connpool.osd_id c' = Connpool.osd_id c /\
            Connpool.fail_streak c' = Connpool.fail_streak c /\
            Connpool.backoff_until_jiffies c' = Connpool.backoff_until_jiffies c).
Proof.
  unfold kfastblock_recovery_finalize_osd_socket. destruct (Z.eqb_spec ret 0) as [->|Hr].
  { eexists _, _. split; [reflexivity|]. by repeat split. }
  destruct (Connpool.sock c) as [s|] eqn:Hs.
  - rewrite bool_decide_true by by eexists. rewrite andb_true_r.
    destruct (has_flag actions KFASTBLOCK_RECOVERY_DROP_SOCKET).
    + unfold kfastblock_recovery_mark_osd_socket_failure.
      destruct (Connpool.kfastblock_osd_conn_slot_mark_failure_locked _ _ _ _) as [bj cached] eqn:Em.
      injection Em as Ebj <-.
      match goal with |- context [Volume.kfastblock_volume_account_socket_backoff ?a (Some v) ?c ?d ?e ?f ?g ?h] =>
        destruct (account_backoff_spec a v c d e f g h) as (v1 & -> & E2) end.
      cbv beta iota.
      match goal with |- context [Volume.kfastblock_volume_account_socket_drop ?a (Some v1) ?c ?d ?e ?f] =>
        destruct (account_drop_spec a v1 c d e f) as (v2 & -> & E4) end.
      eexists _, _. split; [reflexivity|]. split; [congruence|].
      cbn. case_match; cbn; by repeat split.
    + match goal with |- context [Volume.kfastblock_volume_account_socket_drop ?a (Some v) ?c ?d ?e ?f] =>
        destruct (account_drop_spec a v c d e f) as (v2 & -> & E4) end.
      eexists _, _. split; [reflexivity|]. split; [congruence|].
      cbn. case_match; cbn; by repeat split.
  - rewrite bool_decide_false by (intros [? ?]; done). rewrite andb_false_r.
    eexists _, _. split; [reflexivity|]. split; [done|]. cbn. case_match; cbn; by repeat split.
Qed.

End Apply.

(** A volume with the small cluster view of Meta. *)
Definition routed_volume : kfastblock_volume :=
  Volume.zero_volume <| Volume.view := Meta.small_view |>.

Lemma routed_volume_wf : Meta.view_wf (Volume.view routed_volume).
Proof. exact Meta.small_view_wf. Qed.


Lemma failed_leader_query_forgets_leader_witness :
  exists v', kfastblock_recovery_apply_leader_failure 10
      (Some routed_volume) 1 0 (- ENOENT)
      (kfastblock_recovery_classify_leader_failure (- ENOENT)) = Some v' /\
    Meta.leader_map (Volume.view v') = delete (1, 0) (Meta.leader_map Meta.small_view).
Proof.
  destruct (@failed_leader_query_forgets_leader clock_hz1000 10
    routed_volume 1 0 (- ENOENT) routed_volume_wf)
    as (v' & E & _ & H & _).
  exists v'. split; [exact E|exact H].
Defined.

End Recovery.
