(* ===== verification/Wire.v ===== *)
(** * The raw wire protocol as the driver speaks it
      (kfastblock/include/kfastblock/rawproto.h, kfastblock/src/transport.c)

    A message is a packed little-endian header followed by a body.  This file
    holds the packed structures, the checks and decoders that the driver applies
    to a response, and the synchronous exchange over a stream socket with which
    it fetches the image and the cluster map from a monitor.

    A byte is a [Z] in [0, 256).  Reading an array goes through [slice], which is
    [None] when the access leaves the array: a decoder that returns [None] has
    made an invalid access. *)

From S2P Require Import Prelude Meta Request.
Import (hints) Meta Request.

Module Wire.

(** ** Little-endian integers *)

(** [cpu_to_le16], [cpu_to_le32], [cpu_to_le64]: the [n] bytes of [x]. *)
Fixpoint le (n : nat) (x : Z) : list Z :=
  match n with
  | O => []
  | S n => x mod 256 :: le n (x / 256)
  end.

(** [le16_to_cpu], [le32_to_cpu], [le64_to_cpu] of the bytes in memory. *)
Fixpoint le_to_cpu (bs : list Z) : Z :=
  match bs with
  | [] => 0
  | b :: bs => b + 256 * le_to_cpu bs
  end.

(** A packed structure: the fields, each with its width. *)
Fixpoint pack (layout : list nat) (fields : list Z) : list Z :=
  match layout, fields with
  | n :: layout, x :: fields => le n x ++ pack layout fields
  | _, _ => []
  end.

Fixpoint unpack (layout : list nat) (bs : list Z) : list Z :=
  match layout with
  | [] => []
  | n :: layout => le_to_cpu (take n bs) :: unpack layout (drop n bs)
  end.

(** [sizeof] of a packed structure. *)
Definition size (layout : list nat) : Z := Z.of_nat (sum_list layout).

(** [memcpy(dst, bs + off, len)]: the bytes copied. *)
Definition slice (bs : list Z) (off len : Z) : option (list Z) :=
  if (0 <=? off) && (0 <=? len) && (off + len <=? Z.of_nat (List.length bs))
  then Some (take (Z.to_nat len) (drop (Z.to_nat off) bs)) else None.

(** ** Structures of the protocol *)

Definition KFASTBLOCK_RAW_MAGIC : Z := 0x46425257.
Definition KFASTBLOCK_RAW_VERSION_MAJOR : Z := 1.
Definition KFASTBLOCK_RAW_VERSION_MINOR : Z := 0.
Definition KFASTBLOCK_RAW_SERVICE_MONITOR : Z := 1.
Definition KFASTBLOCK_RAW_SERVICE_OSD : Z := 2.
Definition KFASTBLOCK_RAW_OP_GET_IMAGE_INFO : Z := 1.
Definition KFASTBLOCK_RAW_OP_GET_CLUSTER_MAP : Z := 2.
Definition KFASTBLOCK_RAW_OSD_OP_GET_LEADER : Z := 1.
Definition KFASTBLOCK_RAW_OSD_OP_READ_OBJECT : Z := 2.
Definition KFASTBLOCK_RAW_OSD_OP_WRITE_OBJECT : Z := 3.
Definition KFASTBLOCK_RAW_OSD_OP_DELETE_OBJECT : Z := 4.
Definition KFASTBLOCK_RAW_FLAG_RESPONSE : Z := Z.shiftl 1 0.
Definition KFASTBLOCK_RAW_STATUS_OK : Z := 0.
Definition KFASTBLOCK_RAW_STATUS_INVALID_REQUEST : Z := 1.
Definition KFASTBLOCK_RAW_STATUS_NOT_FOUND : Z := 2.
Definition KFASTBLOCK_RAW_STATUS_STALE_EPOCH : Z := 3.
Definition KFASTBLOCK_RAW_STATUS_RETRY_LATER : Z := 4.
Definition KFASTBLOCK_RAW_STATUS_NOT_LEADER : Z := 5.
Definition KFASTBLOCK_RAW_STATUS_PG_INITIALIZING : Z := 6.
Definition KFASTBLOCK_RAW_STATUS_OSD_DOWN : Z := 7.
Definition KFASTBLOCK_RAW_STATUS_INTERNAL_ERROR : Z := 8.
Definition KFASTBLOCK_RAW_IMAGE_FLAG_READ_ONLY : Z := Z.shiftl 1 0.

Record kfastblock_raw_header := {
  magic : Z;
  version_major : Z;
  version_minor : Z;
  service : Z;
  opcode : Z;
  flags : Z;
  seq : Z;
  status : Z;
  hdr_body_len : Z;
}.

Definition header_layout : list nat := [4; 1; 1; 1; 1; 4; 8; 4; 4]%nat.

Definition header_fields (h : kfastblock_raw_header) : list Z :=
  [magic h; version_major h; version_minor h; service h; opcode h; flags h; seq h; status h;
   hdr_body_len h].

Definition header_of_fields (l : list Z) : kfastblock_raw_header :=
  {| magic := nth 0 l 0; version_major := nth 1 l 0; version_minor := nth 2 l 0;
     service := nth 3 l 0; opcode := nth 4 l 0; flags := nth 5 l 0; seq := nth 6 l 0;
     status := nth 7 l 0; hdr_body_len := nth 8 l 0 |}.

Definition header_bytes (h : kfastblock_raw_header) : list Z := pack header_layout (header_fields h).
Definition header_of_bytes (bs : list Z) : kfastblock_raw_header :=
  header_of_fields (unpack header_layout bs).

Definition zero_header : kfastblock_raw_header := header_of_fields [].

(** The layouts of the other structures; their fields in order are the list that
    is packed or unpacked where they are used. *)
Definition kfastblock_raw_get_image_info_req : list nat := [8; 2; 2]%nat.
Definition kfastblock_raw_get_image_info_rsp : list nat := [8; 4; 4; 4; 4; 8]%nat.
Definition kfastblock_raw_get_cluster_map_req : list nat := [8; 4; 4; 8]%nat.
Definition kfastblock_raw_cluster_map_rsp_hdr : list nat := [8; 8; 4; 4]%nat.
Definition kfastblock_raw_osd_entry_hdr : list nat := [4; 4; 2; 2]%nat.
Definition kfastblock_raw_osd_shard_entry : list nat := [4; 2; 2]%nat.
Definition kfastblock_raw_pg_entry_hdr : list nat := [4; 4; 8; 4; 4; 4]%nat.
Definition kfastblock_raw_get_leader_req : list nat := [4; 4]%nat.
Definition kfastblock_raw_get_leader_rsp : list nat := [4; 2; 2]%nat.
Definition kfastblock_raw_read_object_req : list nat := [4; 4; 8; 4; 2; 2]%nat.
Definition kfastblock_raw_read_object_rsp : list nat := [4; 4]%nat.
Definition kfastblock_raw_write_object_req : list nat := [4; 4; 8; 4; 2; 2]%nat.
Definition kfastblock_raw_delete_object_req : list nat := [4; 4; 2; 2]%nat.

(** ** Responses *)

Definition kfastblock_transport_status_to_errno (st : Z) : Z :=
  if st =? KFASTBLOCK_RAW_STATUS_OK then 0
  else if st =? KFASTBLOCK_RAW_STATUS_INVALID_REQUEST then - EINVAL
  else if st =? KFASTBLOCK_RAW_STATUS_NOT_FOUND then - ENOENT
  else if st =? KFASTBLOCK_RAW_STATUS_STALE_EPOCH then - ESTALE
  else if st =? KFASTBLOCK_RAW_STATUS_RETRY_LATER then - EAGAIN
  else if st =? KFASTBLOCK_RAW_STATUS_NOT_LEADER then - ENOLINK
  else if st =? KFASTBLOCK_RAW_STATUS_PG_INITIALIZING then - EAGAIN
  else if st =? KFASTBLOCK_RAW_STATUS_OSD_DOWN then - EHOSTDOWN
  else - EIO.

(** [ret] of the C structure is [rsp_ret]. *)
Record kfastblock_transport_response_ctx := {
  hdr : kfastblock_raw_header;
  body : ptr (list Z);
  body_len : Z;
  rsp_ret : Z;
}.

#[export] Instance eta_response : Eta kfastblock_transport_response_ctx := fun r =>
  {| hdr := hdr r; body := body r; body_len := body_len r; rsp_ret := rsp_ret r |}.

Definition zero_response : kfastblock_transport_response_ctx :=
  {| hdr := zero_header; body := NULL; body_len := 0; rsp_ret := 0 |}.

Definition kfastblock_transport_response_ctx_reset
    (ctx : ptr kfastblock_transport_response_ctx) : ptr kfastblock_transport_response_ctx :=
  (fun c => c <| hdr := zero_header |> <| body := NULL |> <| body_len := 0 |>
              <| rsp_ret := 0 |>) <$> ctx.

(** [kvfree] of the body leaves no trace in the model. *)
Definition kfastblock_transport_response_ctx_release
    (ctx : ptr kfastblock_transport_response_ctx) : ptr kfastblock_transport_response_ctx :=
  (fun c => c <| body := NULL |> <| body_len := 0 |> <| rsp_ret := 0 |>
              <| hdr := zero_header |>) <$> ctx.

(** [*dst = *src] and the reset of [src]. *)
Definition kfastblock_transport_response_ctx_move
    (dst src : ptr kfastblock_transport_response_ctx)
    : ptr kfastblock_transport_response_ctx * ptr kfastblock_transport_response_ctx :=
  match dst, src with
  | Some _, Some s => (Some s, kfastblock_transport_response_ctx_reset src)
  | _, _ => (dst, src)
  end.

Definition kfastblock_transport_response_expect_min_body
    (ctx : ptr kfastblock_transport_response_ctx) (min_len : Z) : Z :=
  match ctx with
  | NULL => - EINVAL
  | Some c => if negb (bool_decide (is_Some (body c))) || (body_len c <? min_len)
              then - EPROTO else 0
  end.

(** The result and what is in [*dst]; [None] is an access outside the body. *)
Definition kfastblock_transport_response_copy_fixed
    (ctx : ptr kfastblock_transport_response_ctx) (dst : ptr (list Z)) (expected_len : Z)
    : option (Z * ptr (list Z)) :=
  match ctx, dst with
  | Some c, Some _ =>
      let ret := kfastblock_transport_response_expect_min_body ctx expected_len in
      if truthy ret then Some (ret, dst)
      else if negb (body_len c =? expected_len) then Some (- EPROTO, dst)
      else bs ← slice (default [] (body c)) 0 expected_len; Some (0, Some bs)
  | _, _ => Some (- EINVAL, dst)
  end.

Definition kfastblock_transport_response_decode_leader
    (response : ptr kfastblock_transport_response_ctx) (leader : ptr Meta.kfastblock_leader_info)
    : option (Z * ptr Meta.kfastblock_leader_info) :=
  match response, leader with
  | Some r, Some _ =>
      let sz := size kfastblock_raw_get_leader_rsp in
      if truthy (kfastblock_transport_response_expect_min_body response sz)
      then Some (- EPROTO, leader)
      else
        let bs := default [] (body r) in
        rsp ← slice bs 0 sz;
        let rsp := unpack kfastblock_raw_get_leader_rsp rsp in
        let leader_id := nth 0 rsp 0 in
        let leader_port := nth 1 rsp 0 in
        let address_len := nth 2 rsp 0 in
        if negb (body_len r =? sz + address_len) || (address_len =? 0)
           || (Z.of_nat Meta.KFASTBLOCK_MAX_ADDR_LEN <=? address_len)
        then Some (- EPROTO, leader)
        else
          addr ← slice bs sz address_len;
          let l := {| Meta.leader_osd_id := leader_id; Meta.leader_port := leader_port;
                      Meta.leader_address := string_of_bytes addr |} in
          if (Meta.leader_osd_id l =? 0) || (Meta.leader_port l =? 0)
             || str_empty (Meta.leader_address l)
          then Some (- EPROTO, Some l) else Some (0, Some l)
  | _, _ => Some (- EINVAL, leader)
  end.

(** [data] is the buffer of at least [extent->length] bytes. *)
Definition kfastblock_transport_response_decode_read_object
    (response : ptr kfastblock_transport_response_ctx)
    (extent : ptr Request.kfastblock_object_extent) (data : ptr (list Z))
    : option (Z * ptr (list Z)) :=
  match response, extent with
  | Some r, Some e =>
      if negb (bool_decide (is_Some data)) && truthy (Request.extent_length e)
      then Some (- EINVAL, data)
      else
        let sz := size kfastblock_raw_read_object_rsp in
        if truthy (kfastblock_transport_response_expect_min_body response sz)
        then Some (- EPROTO, data)
        else
          let bs := default [] (body r) in
          rsp ← slice bs 0 sz;
          let data_len := nth 0 (unpack kfastblock_raw_read_object_rsp rsp) 0 in
          if negb (body_len r =? sz + data_len) || (Request.extent_length e <? data_len)
          then Some (- EPROTO, data)
          else
            let n := Z.to_nat (Request.extent_length e) in
            let zeroed := (fun d => replicate n 0 ++ drop n d) <$> data in
            if truthy data_len then
              bs ← slice bs sz data_len;
              Some (0, (fun d => bs ++ drop (Z.to_nat data_len) d) <$> zeroed)
            else Some (0, zeroed)
  | _, _ => Some (- EINVAL, data)
  end.

(** ** Decoding a cluster map

    The decoders walk the body with an offset.  An operation ends with its
    results, with a negative error number, or with an invalid access; on an error
    the caller drops the offset and the arrays decoded so far. *)

Inductive outcome (A : Type) :=
| Fault
| Failed (ret : Z)
| Done (a : A).
Arguments Fault {_}.
Arguments Failed {_} _.
Arguments Done {_} _.

#[export] Instance outcome_bind : MBind outcome := fun A B k m =>
  match m with
  | Fault => Fault
  | Failed ret => Failed ret
  | Done a => k a
  end.

Definition or_fault {A} (m : option A) : outcome A :=
  match m with Some a => Done a | None => Fault end.

(** The new offset. *)
Definition kfastblock_transport_advance_offset (body_len : Z) (offset : ptr Z) (len : Z)
    : outcome Z :=
  match offset with
  | NULL => Failed (- EINVAL)
  | Some o => if body_len <? u64 (o + len) then Failed (- EPROTO) else Done (u64 (o + len))
  end.

(** The new offset and the bytes copied to [dst]. *)
Definition kfastblock_transport_copy_from_body (body : ptr (list Z)) (body_len : Z)
    (offset : ptr Z) (dst : ptr unit) (len : Z) : outcome (Z * list Z) :=
  match body, dst with
  | Some bs, Some _ =>
      o ← kfastblock_transport_advance_offset body_len offset len;
      out ← or_fault (slice bs (u64 (o - len)) len);
      Done (o, out)
  | _, _ => Failed (- EINVAL)
  end.

(** The loop over the shards of one OSD. *)
Fixpoint decode_shards (n : nat) (body : ptr (list Z)) (body_len offset : Z)
    : outcome (Z * list Meta.kfastblock_osd_shard) :=
  match n with
  | O => Done (offset, [])
  | S n =>
      '(offset, bs) ← kfastblock_transport_copy_from_body body body_len (Some offset) (Some tt)
                        (size kfastblock_raw_osd_shard_entry);
      let e := unpack kfastblock_raw_osd_shard_entry bs in
      '(offset, l) ← decode_shards n body body_len offset;
      Done (offset, {| Meta.shard_id := nth 0 e 0; Meta.shard_port := nth 1 e 0;
                       Meta.core_id := nth 2 e 0 |} :: l)
  end.

(** One round of the loop over the OSDs; [kcalloc_ok] says whether the allocation
    of its shards succeeds. *)
Definition decode_osd_entry (kcalloc_ok : bool) (body : ptr (list Z)) (body_len offset : Z)
    : outcome (Z * Meta.kfastblock_osd_endpoint) :=
  '(offset, bs) ← kfastblock_transport_copy_from_body body body_len (Some offset) (Some tt)
                    (size kfastblock_raw_osd_entry_hdr);
  let h := unpack kfastblock_raw_osd_entry_hdr bs in
  let address_len := nth 2 h 0 in
  let shard_count := nth 3 h 0 in
  if Z.of_nat Meta.KFASTBLOCK_MAX_ADDR_LEN <=? address_len then Failed (- E2BIG)
  else
    offset ← kfastblock_transport_advance_offset body_len (Some offset) address_len;
    addr ← (if truthy address_len
             then or_fault (slice (default [] body) (u64 (offset - address_len)) address_len)
             else Done []);
    let osd ss := {| Meta.osd_id := nth 0 h 0; Meta.osd_flags := nth 1 h 0;
                     Meta.shard_count := shard_count; Meta.osd_address := string_of_bytes addr;
                     Meta.shards := ss |} in
    if shard_count =? 0 then Done (offset, osd NULL)
    else if negb kcalloc_ok then Failed (- ENOMEM)
    else
      '(offset, ss) ← decode_shards (Z.to_nat shard_count) body body_len offset;
      Done (offset, osd (Some ss)).

Fixpoint decode_osd_loop (kcalloc_ok : nat -> bool) (n i : nat) (body : ptr (list Z))
    (body_len offset : Z) : outcome (Z * list Meta.kfastblock_osd_endpoint) :=
  match n with
  | O => Done (offset, [])
  | S n =>
      '(offset, o) ← decode_osd_entry (kcalloc_ok i) body body_len offset;
      '(offset, l) ← decode_osd_loop kcalloc_ok n (S i) body body_len offset;
      Done (offset, o :: l)
  end.

(** The array [osds] is the list returned. *)
Definition kfastblock_transport_decode_osd_entries (kcalloc_ok : nat -> bool)
    (body : ptr (list Z)) (body_len offset osd_count : Z)
    : outcome (Z * list Meta.kfastblock_osd_endpoint) :=
  decode_osd_loop kcalloc_ok (Z.to_nat osd_count) 0 body body_len offset.

(** The loop over the replicas of one placement group. *)
Fixpoint decode_replicas (n : nat) (body : ptr (list Z)) (body_len offset : Z)
    : outcome (Z * list Z) :=
  match n with
  | O => Done (offset, [])
  | S n =>
      '(offset, bs) ← kfastblock_transport_copy_from_body body body_len (Some offset) (Some tt) 4;
      '(offset, l) ← decode_replicas n body body_len offset;
      Done (offset, le_to_cpu bs :: l)
  end.

Definition decode_pg_entry (kcalloc_ok : bool) (body : ptr (list Z)) (body_len offset : Z)
    : outcome (Z * Meta.kfastblock_pg_route) :=
  '(offset, bs) ← kfastblock_transport_copy_from_body body body_len (Some offset) (Some tt)
                    (size kfastblock_raw_pg_entry_hdr);
  let h := unpack kfastblock_raw_pg_entry_hdr bs in
  let replica_count := nth 5 h 0 in
  let route ids := {| Meta.route_pool_id := nth 0 h 0; Meta.route_pg_id := nth 1 h 0;
                      Meta.version := nth 2 h 0; Meta.route_state := nth 3 h 0;
                      Meta.primary_shard := nth 4 h 0; Meta.replica_count := replica_count;
                      Meta.osd_ids := ids; Meta.leader_valid := false;
                      Meta.leader := Meta.zero_leader |} in
  if replica_count =? 0 then Done (offset, route [])
  else if negb kcalloc_ok then Failed (- ENOMEM)
  else
    '(offset, ids) ← decode_replicas (Z.to_nat replica_count) body body_len offset;
    Done (offset, route ids).

Fixpoint decode_pg_loop (kcalloc_ok : nat -> bool) (n i : nat) (body : ptr (list Z))
    (body_len offset pool_id pool_pg_count : Z)
    : outcome (Z * list Meta.kfastblock_pg_route * Z) :=
  match n with
  | O => Done (offset, [], pool_pg_count)
  | S n =>
      '(offset, r) ← decode_pg_entry (kcalloc_ok i) body body_len offset;
      let pool_pg_count := if Meta.route_pool_id r =? pool_id then u32 (pool_pg_count + 1)
                           else pool_pg_count in
      '(offset, l, count) ←
        decode_pg_loop kcalloc_ok n (S i) body body_len offset pool_id pool_pg_count;
      Done (offset, r :: l, count)
  end.

(** The array [routes] and [*pool_pg_count] are returned. *)
Definition kfastblock_transport_decode_pg_entries (kcalloc_ok : nat -> bool)
    (body : ptr (list Z)) (body_len offset route_count pool_id : Z) (pool_pg_count : ptr Z)
    : outcome (Z * list Meta.kfastblock_pg_route * Z) :=
  match pool_pg_count with
  | NULL => Failed (- EINVAL)
  | Some _ => decode_pg_loop kcalloc_ok (Z.to_nat route_count) 0 body body_len offset pool_id 0
  end.

Definition kfastblock_transport_response_decode_cluster_map_header
    (response : ptr kfastblock_transport_response_ctx) (offset : ptr Z) (rsp : ptr unit)
    : outcome (Z * list Z) :=
  match response, offset, rsp with
  | Some r, Some _, Some _ =>
      let sz := size kfastblock_raw_cluster_map_rsp_hdr in
      if truthy (kfastblock_transport_response_expect_min_body response sz) then Failed (- EPROTO)
      else kfastblock_transport_copy_from_body (body r) (body_len r) offset rsp sz
  | _, _, _ => Failed (- EINVAL)
  end.

(** Which of the allocations of a decoded map succeed. *)
Record map_allocs := {
  osds_ok : bool;
  shards_ok : nat -> bool;
  routes_ok : bool;
  osd_ids_ok : nat -> bool;
}.

(** The body of [response_decode_cluster_map] up to [replace_cluster_map]: its
    arguments for it. *)
Definition decode_cluster_map (mem : map_allocs) (r : kfastblock_transport_response_ctx)
    (pool_id : Z)
    : outcome (list Z * Z * ptr (list Meta.kfastblock_osd_endpoint)
               * ptr (list Meta.kfastblock_pg_route)) :=
  '(offset, bs) ← kfastblock_transport_response_decode_cluster_map_header (Some r) (Some 0) (Some tt);
  let rsp := unpack kfastblock_raw_cluster_map_rsp_hdr bs in
  let osd_count := nth 2 rsp 0 in
  let route_count := nth 3 rsp 0 in
  if truthy osd_count && negb (osds_ok mem) then Failed (- ENOMEM)
  else
    '(offset, osds) ← kfastblock_transport_decode_osd_entries (shards_ok mem) (body r) (body_len r)
                        offset osd_count;
    if truthy route_count && negb (routes_ok mem) then Failed (- ENOMEM)
    else
      '(offset, routes, pool_pg_count) ←
        kfastblock_transport_decode_pg_entries (osd_ids_ok mem) (body r) (body_len r) offset
          route_count pool_id (Some 0);
      if negb (offset =? body_len r) then Failed (- EPROTO)
      else if pool_pg_count =? 0 then Failed (- ENOENT)
      else Done (rsp, pool_pg_count,
                 if truthy osd_count then Some osds else NULL,
                 if truthy route_count then Some routes else NULL).

Definition kfastblock_transport_response_decode_cluster_map (mem : map_allocs)
    (response : ptr kfastblock_transport_response_ctx) (view : ptr Meta.kfastblock_cluster_view)
    : option (Z * ptr Meta.kfastblock_cluster_view) :=
  match response, view with
  | Some r, Some v =>
      match decode_cluster_map mem r (Meta.pool_id (Meta.image v)) with
      | Fault => None
      | Failed ret => Some (ret, view)
      | Done (rsp, pool_pg_count, osds, routes) =>
          Some (Meta.kfastblock_meta_replace_cluster_map view (nth 0 rsp 0) (nth 1 rsp 0)
                  pool_pg_count (nth 2 rsp 0) osds (nth 3 rsp 0) routes)
      end
  | _, _ => Some (- EINVAL, view)
  end.

(** ** Little-endian round trips *)

Lemma length_le n x : List.length (le n x) = n.
Proof. revert x; induction n as [|n IH]; intros x; simpl; [done|by rewrite IH]. Qed.

Lemma le_range n x : Forall (fun b => 0 <= b < 256) (le n x).
Proof.
  revert x; induction n as [|n IH]; intros x; simpl; constructor; [|apply IH].
  apply Z.mod_pos_bound. lia.
Qed.

Lemma le_to_cpu_le n x : le_to_cpu (le n x) = x mod 256 ^ Z.of_nat n.
Proof.
  revert x; induction n as [|n IH]; intros x; cbn [le le_to_cpu]; [by rewrite Z.mod_1_r|].
  rewrite IH, Nat2Z.inj_succ, Z.pow_succ_r by lia.
  rewrite Z.rem_mul_r by lia. lia.
Qed.

Lemma le_to_cpu_range bs :
  Forall (fun b => 0 <= b < 256) bs -> 0 <= le_to_cpu bs < 256 ^ Z.of_nat (List.length bs).
Proof.
  induction 1 as [|b bs Hb _ IH]; cbn [le_to_cpu List.length]; [lia|].
  rewrite Nat2Z.inj_succ, Z.pow_succ_r by lia. lia.
Qed.

(** The value [x] fits into [n] bytes. *)
Definition fits (n : nat) (x : Z) : Prop := 0 <= x < 256 ^ Z.of_nat n.

Lemma length_pack layout fields :
  List.length layout = List.length fields ->
  List.length (pack layout fields) = sum_list layout.
Proof.
  revert fields; induction layout as [|n layout IH]; intros [|x fields]; simpl; intros E; try done.
  rewrite length_app, length_le, IH; lia.
Qed.

Lemma pack_range layout fields : Forall (fun b => 0 <= b < 256) (pack layout fields).
Proof.
  revert fields; induction layout as [|n layout IH]; intros [|x fields]; simpl; try constructor.
  apply Forall_app. split; [apply le_range|apply IH].
Qed.

Lemma unpack_pack layout fields rest :
  Forall2 fits layout fields -> unpack layout (pack layout fields ++ rest) = fields.
Proof.
  induction 1 as [|n x layout fields Hx _ IH]; [done|]. cbn [pack unpack].
  rewrite <- app_assoc, take_app_length', drop_app_length', IH by by rewrite length_le.
  rewrite le_to_cpu_le, Z.mod_small by exact Hx. done.
Qed.

Lemma length_unpack layout bs : List.length (unpack layout bs) = List.length layout.
Proof. revert bs; induction layout as [|n l IH]; intros bs; simpl; [done|by rewrite IH]. Qed.

Lemma unpack_nonneg layout bs :
  Forall (fun b => 0 <= b < 256) bs -> Forall (fun x => 0 <= x) (unpack layout bs).
Proof.
  revert bs; induction layout as [|n l IH]; intros bs H; simpl; constructor.
  - apply le_to_cpu_range. by apply Forall_take.
  - apply IH. by apply Forall_drop.
Qed.

Lemma nth_nonneg l i : Forall (fun x => 0 <= x) l -> 0 <= nth i l 0.
Proof.
  intros H. destruct (Nat.lt_ge_cases i (List.length l)) as [Hi|Hi].
  - rewrite Forall_forall in H. apply H, list_elem_of_In, nth_In, Hi.
  - by rewrite nth_overflow.
Qed.

Lemma slice_some bs off len :
  0 <= off -> 0 <= len -> off + len <= Z.of_nat (List.length bs) ->
  slice bs off len = Some (take (Z.to_nat len) (drop (Z.to_nat off) bs)).
Proof.
  intros H1 H2 H3. unfold slice.
  rewrite (proj2 (Z.leb_le _ _) H1), (proj2 (Z.leb_le _ _) H2), (proj2 (Z.leb_le _ _) H3). done.
Qed.

(** ** The decoders stay inside the body *)

(** A response with a body of the announced length, of bytes. *)
Definition wf_body (bs : list Z) (len : Z) : Prop :=
  Z.of_nat (List.length bs) = len /\ len < 2 ^ 32 /\ Forall (fun b => 0 <= b < 256) bs.

(** The decoder moves the offset forward, inside the body, or fails cleanly. *)
Definition in_bounds {A} (len off : Z) (get : A -> Z) (m : outcome A) : Prop :=
  match m with
  | Fault => False
  | Failed ret => ret < 0
  | Done a => off <= get a <= len
  end.

Lemma in_bounds_bind {A B} len off (get : A -> Z) (get' : B -> Z) (m : outcome A) k :
  in_bounds len off get m -> (forall a, off <= get a <= len -> in_bounds len (get a) get' (k a)) ->
  in_bounds len off get' (m ≫= k).
Proof.
  destruct m as [|ret|a]; simpl; [done..|]. intros Ha Hk. specialize (Hk a Ha).
  unfold in_bounds in *. case_match; [done..|lia].
Qed.

Lemma advance_in_bounds bs len off n :
  wf_body bs len -> 0 <= off <= len -> 0 <= n < 2 ^ 33 ->
  in_bounds len (off + n) id (kfastblock_transport_advance_offset len (Some off) n).
Proof.
  intros (Hl & Hb & _) Ho Hn. unfold kfastblock_transport_advance_offset. rewrite u64_small by lia.
  destruct (len <? off + n) eqn:E; unbool; simpl; [unfold EPROTO; lia|unfold id; lia].
Qed.

Lemma copy_in_bounds bs len off n :
  wf_body bs len -> 0 <= off <= len -> 0 <= n < 2 ^ 33 ->
  match kfastblock_transport_copy_from_body (Some bs) len (Some off) (Some tt) n with
  | Fault => False
  | Failed ret => ret < 0
  | Done (o, out) => o = off + n /\ o <= len /\ out = take (Z.to_nat n) (drop (Z.to_nat off) bs)
  end.
Proof.
  intros Hw Ho Hn. pose proof (advance_in_bounds bs len off n Hw Ho Hn) as Ha.
  unfold kfastblock_transport_copy_from_body, mbind, outcome_bind.
  destruct Hw as (Hl & Hb & Hbs).
  unfold kfastblock_transport_advance_offset in *. rewrite (u64_small (off + n)) in * by lia.
  destruct (len <? off + n); [exact Ha|]. simpl in Ha. unfold id in Ha.
  rewrite u64_small, slice_some by lia. simpl.
  replace (off + n - n) with off by lia. split; [done|]. split; [lia|done].
Qed.

Lemma copied_bytes bs len off n :
  wf_body bs len -> Forall (fun b => 0 <= b < 256) (take n (drop off bs)).
Proof. intros (_ & _ & H). by apply Forall_take, Forall_drop. Qed.

Section bounds.
Context (bs : list Z) (len : Z) (Hw : wf_body bs len).

Lemma copy_step {B} off n (get' : B -> Z) (k : Z * list Z -> outcome B) :
  0 <= off <= len -> 0 <= n < 2 ^ 33 ->
  (off + n <= len ->
   in_bounds len (off + n) get' (k (off + n, take (Z.to_nat n) (drop (Z.to_nat off) bs)))) ->
  in_bounds len off get'
    (kfastblock_transport_copy_from_body (Some bs) len (Some off) (Some tt) n ≫= k).
Proof using Hw.
  intros Ho Hn Hk. pose proof (copy_in_bounds bs len off n Hw Ho Hn) as Hc.
  destruct (kfastblock_transport_copy_from_body _ _ _ _ _) as [|ret|[o out]]; simpl; [done..|].
  destruct Hc as (-> & Hle & ->). specialize (Hk Hle).
  unfold in_bounds in *. case_match; [done..|lia].
Qed.

Lemma decode_shards_in_bounds n : forall off,
  0 <= off <= len -> in_bounds len off fst (decode_shards n (Some bs) len off).
Proof using Hw.
  induction n as [|n IH]; intros off Ho; cbn [decode_shards]; [simpl; lia|].
  apply copy_step; [done|done|]. intros Hle.
  eapply (in_bounds_bind _ _ fst); [apply IH; change (size _) with 8 in *; lia|].
  intros [o l] Hl. simpl in *. lia.
Qed.

Lemma decode_replicas_in_bounds n : forall off,
  0 <= off <= len -> in_bounds len off fst (decode_replicas n (Some bs) len off).
Proof using Hw.
  induction n as [|n IH]; intros off Ho; cbn [decode_replicas]; [simpl; lia|].
  apply copy_step; [done|done|]. intros Hle.
  eapply (in_bounds_bind _ _ fst); [apply IH; lia|]. intros [o l] Hl. simpl in *. lia.
Qed.

Lemma decode_osd_entry_in_bounds ok off :
  0 <= off <= len -> in_bounds len off fst (decode_osd_entry ok (Some bs) len off).
Proof using Hw.
  intros Ho. unfold decode_osd_entry. apply copy_step; [done|done|]. intros Hle.
  change (size kfastblock_raw_osd_entry_hdr) with 12 in *.
  set (h := unpack _ _).
  assert (Hh : Forall (fun x => 0 <= x) h) by (apply unpack_nonneg; by eapply copied_bytes).
  clearbody h. pose proof (nth_nonneg _ 2 Hh) as H2.
  destruct (_ <=? nth 2 h 0) eqn:E; [simpl; unfold E2BIG; lia|]. unbool.
  change (Z.of_nat Meta.KFASTBLOCK_MAX_ADDR_LEN) with 256 in E.
  pose proof (advance_in_bounds bs len (off + 12) (nth 2 h 0) Hw ltac:(lia) ltac:(lia)) as Ha.
  destruct Hw as (Hl & Hb & _).
  unfold kfastblock_transport_advance_offset in *. rewrite u64_small in * by lia.
  destruct (len <? off + 12 + nth 2 h 0) eqn:E3; [exact Ha|]. clear Ha. unbool.
  cbn [mbind outcome_bind].
  assert (Haddr : exists addr, (if truthy (nth 2 h 0)
             then or_fault (slice bs (u64 (off + 12 + nth 2 h 0 - nth 2 h 0)) (nth 2 h 0))
             else Done []) = Done addr).
  { destruct (truthy _); [|by eexists].
    rewrite u64_small, slice_some by lia. by eexists. }
  unfold truthy in Haddr. destruct Haddr as [addr Haddr].
  change (default [] (Some bs)) with bs. rewrite Haddr. cbn [mbind outcome_bind].
  destruct (nth 3 h 0 =? 0); [cbn [in_bounds fst]; lia|]. destruct ok; [|simpl; unfold ENOMEM; lia]. simpl negb. cbv iota.
  set (o2 := off + 12 + nth 2 h 0) in *. assert (Ho2 : off + 12 <= o2 <= len) by lia. clearbody o2.
  pose proof (decode_shards_in_bounds (Z.to_nat (nth 3 h 0)) o2 ltac:(lia)) as Hs.
  destruct (decode_shards _ _ _ _) as [|ret|[o l]]; cbn in Hs |- *; [done..|lia].
Qed.

Lemma decode_pg_entry_in_bounds ok off :
  0 <= off <= len -> in_bounds len off fst (decode_pg_entry ok (Some bs) len off).
Proof using Hw.
  intros Ho. unfold decode_pg_entry. apply copy_step; [done|done|]. intros Hle.
  change (size kfastblock_raw_pg_entry_hdr) with 28 in *.
  case_match; [simpl; lia|]. destruct ok; [|simpl; unfold ENOMEM; lia]. simpl negb. cbv iota.
  match goal with |- context [decode_replicas ?n] =>
    pose proof (decode_replicas_in_bounds n (off + 28) ltac:(lia)) as Hs end.
  destruct (decode_replicas _ _ _ _) as [|ret|[o l]]; simpl in *; [done..|lia].
Qed.

Lemma decode_osd_loop_in_bounds ok n : forall i off,
  0 <= off <= len -> in_bounds len off fst (decode_osd_loop ok n i (Some bs) len off).
Proof using Hw.
  induction n as [|n IH]; intros i off Ho; cbn [decode_osd_loop]; [simpl; lia|].
  eapply (in_bounds_bind _ _ fst); [by apply decode_osd_entry_in_bounds|]. intros [o1 x] H1.
  eapply (in_bounds_bind _ _ fst); [apply IH; simpl in *; lia|]. intros [o2 l] H2. simpl in *. lia.
Qed.

Lemma decode_pg_loop_in_bounds ok n pool : forall i off c,
  0 <= off <= len ->
  in_bounds len off (fun r => r.1.1) (decode_pg_loop ok n i (Some bs) len off pool c).
Proof using Hw.
  induction n as [|n IH]; intros i off c Ho; cbn [decode_pg_loop]; [simpl; lia|].
  eapply (in_bounds_bind _ _ fst); [by apply decode_pg_entry_in_bounds|]. intros [o1 x] H1.
  eapply (in_bounds_bind _ _ (fun r => r.1.1)); [apply IH; simpl in *; lia|].
  intros [[o2 l] c2] H2. simpl in *. lia.
Qed.

End bounds.

Lemma decode_cluster_map_in_bounds mem r bs pool :
  body r = Some bs -> wf_body bs (body_len r) ->
  match decode_cluster_map mem r pool with
  | Fault => False | Failed ret => ret < 0 | Done _ => True
  end.
Proof.
  intros Hb Hw. pose proof Hw as (Hl & Hlen & _). unfold decode_cluster_map, mbind, outcome_bind,
    kfastblock_transport_response_decode_cluster_map_header,
    kfastblock_transport_response_expect_min_body,
    kfastblock_transport_decode_osd_entries, kfastblock_transport_decode_pg_entries.
  rewrite !Hb, bool_decide_true by by eexists. cbn [negb orb].
  change (size kfastblock_raw_cluster_map_rsp_hdr) with 24.
  destruct (body_len r <? 24) eqn:E; cbn [truthy]; [simpl; unfold EPROTO; lia|]. unbool.
  change (negb (0 =? 0)) with false. cbv iota.
  pose proof (copy_in_bounds bs (body_len r) 0 24 Hw ltac:(lia) ltac:(lia)) as Hc.
  destruct (kfastblock_transport_copy_from_body _ _ _ _ _) as [|ret|[o out]]; [done|done|].
  destruct Hc as (-> & Ho & _). set (rsp := unpack _ _). clearbody rsp.
  destruct (negb (nth 2 rsp 0 =? 0) && _); [simpl; unfold ENOMEM; lia|].
  pose proof (decode_osd_loop_in_bounds bs _ Hw (shards_ok mem) (Z.to_nat (nth 2 rsp 0)) 0 (0 + 24)
    ltac:(lia)) as H1.
  destruct (decode_osd_loop _ _ _ _ _ _) as [|ret|[o1 l1]]; [done|done|]. simpl in H1.
  destruct (negb (nth 3 rsp 0 =? 0) && _); [simpl; unfold ENOMEM; lia|].
  pose proof (decode_pg_loop_in_bounds bs _ Hw (osd_ids_ok mem) (Z.to_nat (nth 3 rsp 0)) pool 0 o1 0
    ltac:(lia)) as H2.
  destruct (decode_pg_loop _ _ _ _ _ _ _ _) as [|ret|[[o2 l2] c2]]; [done|done|]. simpl in H2.
  destruct (negb (o2 =? _)); [simpl; unfold EPROTO; lia|].
  destruct (c2 =? 0); simpl; unfold ENOENT; lia.
Qed.

(** ** Stream sockets

    [kernel_sendmsg sock buf] hands bytes to the socket and [kernel_recvmsg sock n]
    asks for at most [n]; both return the count or error they return in the kernel
    and the socket afterwards, and [kernel_recvmsg] the bytes received. *)

Class Stream (conn : Type) := {
  kernel_sendmsg : conn -> list Z -> Z * conn;
  kernel_recvmsg : conn -> Z -> Z * list Z * conn;
}.

Section sockets.
Context `{Stream conn}.

(** The [while (sent < len)] loop; a round that does not return sends at least one
    byte, so [len] rounds are enough.  [None] is an access outside the buffer, in
    particular through [NULL]. *)
Fixpoint send_loop (fuel : nat) (sock : conn) (buf : ptr (list Z)) (len sent : Z)
    : option (Z * conn) :=
  match fuel with
  | O => Some (0, sock)
  | S fuel =>
      if sent <? len then
        bs ← buf; out ← slice bs sent (len - sent);
        let '(rc, sock) := kernel_sendmsg sock out in
        if rc <=? 0 then Some (if rc <? 0 then rc else - EIO, sock)
        else send_loop fuel sock buf len (sent + rc)
      else Some (0, sock)
  end.

Definition kfastblock_transport_send_all (sock : conn) (buf : ptr (list Z)) (len : Z)
    : option (Z * conn) :=
  send_loop (Z.to_nat len) sock buf len 0.

(** The [while (received < len)] loop: the bytes received so far are [acc]. *)
Fixpoint recv_loop (fuel : nat) (sock : conn) (len : Z) (acc : list Z) : Z * list Z * conn :=
  match fuel with
  | O => (0, acc, sock)
  | S fuel =>
      if Z.of_nat (List.length acc) <? len then
        let '(rc, bs, sock) := kernel_recvmsg sock (len - Z.of_nat (List.length acc)) in
        if rc <=? 0 then (if rc <? 0 then rc else - EIO, acc, sock)
        else recv_loop fuel sock len (acc ++ bs)
      else (0, acc, sock)
  end.

Definition kfastblock_transport_recv_all (sock : conn) (len : Z) : Z * list Z * conn :=
  recv_loop (Z.to_nat len) sock len [].

Definition request_header (svc op sq len : Z) : kfastblock_raw_header :=
  {| magic := KFASTBLOCK_RAW_MAGIC; version_major := KFASTBLOCK_RAW_VERSION_MAJOR;
     version_minor := KFASTBLOCK_RAW_VERSION_MINOR; service := svc; opcode := op; flags := 0;
     seq := sq; status := 0; hdr_body_len := len |}.

Definition kfastblock_transport_send_request (sock : conn) (svc op sq : Z) (body : ptr (list Z))
    (body_len : Z) : option (Z * conn) :=
  '(ret, sock) ← kfastblock_transport_send_all sock
                   (Some (header_bytes (request_header svc op sq body_len))) (size header_layout);
  if truthy ret then Some (ret, sock)
  else if body_len =? 0 then Some (0, sock)
  else kfastblock_transport_send_all sock body body_len.

(** [struct kfastblock_transport_body_part]: the buffer and its length. *)
Definition kfastblock_transport_body_part : Type := ptr (list Z) * Z.

(** The sum of the lengths of the parts, in [u32]. *)
Definition parts_len (parts : list kfastblock_transport_body_part) : Z :=
  foldl (fun n p => u32 (n + p.2)) 0 parts.

(** The loop that sends the parts. *)
Fixpoint send_parts_loop (sock : conn) (parts : list kfastblock_transport_body_part)
    : option (Z * conn) :=
  match parts with
  | [] => Some (0, sock)
  | (buf, len) :: parts =>
      if len =? 0 then send_parts_loop sock parts
      else
        '(ret, sock) ← kfastblock_transport_send_all sock buf len;
        if truthy ret then Some (ret, sock) else send_parts_loop sock parts
  end.

(** The array [parts] of [nr_parts] elements is a list, empty when [parts] is
    [NULL]; the callers then pass no parts. *)
Definition kfastblock_transport_send_request_parts (sock : conn) (svc op sq : Z)
    (parts : list kfastblock_transport_body_part) : option (Z * conn) :=
  '(ret, sock) ← kfastblock_transport_send_request sock svc op sq NULL (parts_len parts);
  if truthy ret then Some (ret, sock) else send_parts_loop sock parts.

(** The result, the header received into [*hdr], [*body] and the socket; [hdr] and
    [body] are the addresses of fields of a response, and [h] is what was in
    [*hdr] before.  [kvmalloc_ok] says whether the body could be
    allocated. *)
Definition kfastblock_transport_recv_response_any (kvmalloc_ok : bool) (sock : conn)
    (expected_service expected_opcode : Z) (h : kfastblock_raw_header)
    : Z * kfastblock_raw_header * ptr (list Z) * conn :=
  let '(ret, bs, sock) := kfastblock_transport_recv_all sock (size header_layout) in
  if truthy ret then (ret, h, NULL, sock)
  else
    let h := header_of_bytes bs in
    if negb (magic h =? KFASTBLOCK_RAW_MAGIC) then (- EPROTO, h, NULL, sock)
    else if negb (version_major h =? KFASTBLOCK_RAW_VERSION_MAJOR) then (- EPROTO, h, NULL, sock)
    else if negb (service h =? expected_service) then (- EPROTO, h, NULL, sock)
    else if negb (opcode h =? expected_opcode) then (- EPROTO, h, NULL, sock)
    else if negb (has_flag (flags h) KFASTBLOCK_RAW_FLAG_RESPONSE) then (- EPROTO, h, NULL, sock)
    else if hdr_body_len h =? 0
    then (kfastblock_transport_status_to_errno (status h), h, NULL, sock)
    else if negb kvmalloc_ok then (- ENOMEM, h, NULL, sock)
    else
      let '(ret, bs, sock) := kfastblock_transport_recv_all sock (hdr_body_len h) in
      if truthy ret then (ret, h, NULL, sock)
      else (kfastblock_transport_status_to_errno (status h), h, Some bs, sock).

Definition kfastblock_transport_recv_response_exact (kvmalloc_ok : bool) (sock : conn)
    (expected_service expected_opcode expected_seq : Z) (h : kfastblock_raw_header)
    : Z * kfastblock_raw_header * ptr (list Z) * conn :=
  let '(ret, h, body, sock) :=
    kfastblock_transport_recv_response_any kvmalloc_ok sock expected_service expected_opcode h in
  if truthy ret then (ret, h, body, sock)
  else if seq h =? expected_seq then (0, h, body, sock)
  else (- EPROTO, h, NULL, sock).

(** The result, the response context and the socket. *)
Definition kfastblock_transport_exec_request_parts (kvmalloc_ok : bool) (sock : conn)
    (svc op sq : Z) (parts : list kfastblock_transport_body_part)
    (rsp : ptr kfastblock_transport_response_ctx)
    : option (Z * ptr kfastblock_transport_response_ctx * conn) :=
  match rsp with
  | NULL => Some (- EINVAL, NULL, sock)
  | Some _ =>
      let rsp := kfastblock_transport_response_ctx_reset rsp in
      '(ret, sock) ← kfastblock_transport_send_request_parts sock svc op sq parts;
      if truthy ret then Some (ret, (fun r => r <| rsp_ret := ret |>) <$> rsp, sock)
      else
        let '(ret, h, b, sock) :=
          kfastblock_transport_recv_response_exact kvmalloc_ok sock svc op sq zero_header in
        let rsp := (fun r => r <| hdr := h |> <| body := b |> <| rsp_ret := ret |>) <$> rsp in
        let rsp := if ret =? 0 then (fun r => r <| body_len := hdr_body_len h |>) <$> rsp else rsp in
        Some (ret, rsp, sock)
  end.

Definition kfastblock_transport_exec_request (kvmalloc_ok : bool) (sock : conn) (svc op sq : Z)
    (body : ptr (list Z)) (body_len : Z) (rsp : ptr kfastblock_transport_response_ctx) :=
  if negb (bool_decide (is_Some body)) || (body_len =? 0)
  then kfastblock_transport_exec_request_parts kvmalloc_ok sock svc op sq [] rsp
  else kfastblock_transport_exec_request_parts kvmalloc_ok sock svc op sq [(body, body_len)] rsp.

(** The result, what is in [*dst] and the socket. *)
Definition kfastblock_transport_exec_request_fixed_body (kvmalloc_ok : bool) (sock : conn)
    (svc op sq : Z) (parts : list kfastblock_transport_body_part) (dst : ptr (list Z))
    (expected_len : Z) : option (Z * ptr (list Z) * conn) :=
  '(ret, response, sock) ←
    kfastblock_transport_exec_request_parts kvmalloc_ok sock svc op sq parts (Some zero_response);
  if truthy ret then Some (ret, dst, sock)
  else
    '(ret, dst) ← kfastblock_transport_response_copy_fixed response dst expected_len;
    Some (ret, dst, sock).

Definition kfastblock_transport_exec_request_status_only (kvmalloc_ok : bool) (sock : conn)
    (svc op sq : Z) (parts : list kfastblock_transport_body_part) : option (Z * conn) :=
  '(ret, _, sock) ←
    kfastblock_transport_exec_request_parts kvmalloc_ok sock svc op sq parts (Some zero_response);
  Some (ret, sock).

(** A string as a body part. *)
Definition string_part (s : string) : kfastblock_transport_body_part :=
  (Some (bytes_of_string s), Z.of_nat (String.length s)).

(** A packed structure as a body part. *)
Definition struct_part (layout : list nat) (fields : list Z) : kfastblock_transport_body_part :=
  (Some (pack layout fields), size layout).

(** The message that a header and its parts describe. *)
Definition parts_bytes (parts : list kfastblock_transport_body_part) : list Z :=
  concat ((fun p => take (Z.to_nat p.2) (default [] p.1)) <$> parts).

Definition request_message (svc op sq : Z) (parts : list kfastblock_transport_body_part) : list Z :=
  header_bytes (request_header svc op sq (parts_len parts)) ++ parts_bytes parts.

Definition image_info_parts (view : Meta.kfastblock_cluster_view)
    : list kfastblock_transport_body_part :=
  let i := Meta.image view in
  [struct_part kfastblock_raw_get_image_info_req
     [Meta.image_epoch view; u16 (Z.of_nat (String.length (Meta.pool_name i)));
      u16 (Z.of_nat (String.length (Meta.image_name i)))];
   string_part (Meta.pool_name i); string_part (Meta.image_name i)].

(** The parts of the requests to an OSD; [data] is the buffer of a write. *)
Definition leader_parts (pool_id pg_id : Z) : list kfastblock_transport_body_part :=
  [struct_part kfastblock_raw_get_leader_req [pool_id; pg_id]].

Definition write_parts (pool_id : Z) (e : Request.kfastblock_object_extent) (data : ptr (list Z))
    : list kfastblock_transport_body_part :=
  let name := Request.object_name e in
  [struct_part kfastblock_raw_write_object_req
     [pool_id; Request.pg_id e; Request.object_offset e; Request.extent_length e;
      u16 (Z.of_nat (String.length name)); 0];
   string_part name; (data, Request.extent_length e)].

Definition read_parts (pool_id : Z) (e : Request.kfastblock_object_extent)
    : list kfastblock_transport_body_part :=
  let name := Request.object_name e in
  [struct_part kfastblock_raw_read_object_req
     [pool_id; Request.pg_id e; Request.object_offset e; Request.extent_length e;
      u16 (Z.of_nat (String.length name)); 0];
   string_part name].

Definition delete_parts (pool_id : Z) (e : Request.kfastblock_object_extent)
    : list kfastblock_transport_body_part :=
  let name := Request.object_name e in
  [struct_part kfastblock_raw_delete_object_req
     [pool_id; Request.pg_id e; u16 (Z.of_nat (String.length name)); 0];
   string_part name].

(** What a successful response writes to the view. *)
Definition apply_image_info (rsp : list Z) (view : Meta.kfastblock_cluster_view)
    : Meta.kfastblock_cluster_view :=
  view <| Meta.image_epoch := nth 0 rsp 0 |>
       <| Meta.image ::= fun i =>
            let i := i <| Meta.pool_id := nth 1 rsp 0 |> <| Meta.block_size := nth 2 rsp 0 |>
                       <| Meta.object_size := nth 3 rsp 0 |> <| Meta.size_bytes := nth 5 rsp 0 |>
                       <| Meta.read_only := has_flag (nth 4 rsp 0) KFASTBLOCK_RAW_IMAGE_FLAG_READ_ONLY |> in
            if Meta.block_size i =? 0
            then i <| Meta.block_size := Meta.KFASTBLOCK_DEFAULT_BLOCK_SIZE |> else i |>.

Definition kfastblock_transport_fetch_image_info (kvmalloc_ok : bool) (sock : conn)
    (view : Meta.kfastblock_cluster_view) (sq : Z)
    : option (Z * Meta.kfastblock_cluster_view * conn) :=
  '(ret, rsp, sock) ←
    kfastblock_transport_exec_request_fixed_body kvmalloc_ok sock KFASTBLOCK_RAW_SERVICE_MONITOR
      KFASTBLOCK_RAW_OP_GET_IMAGE_INFO sq (image_info_parts view) (Some [])
      (size kfastblock_raw_get_image_info_rsp);
  if ret =? - ESTALE then Some (0, view, sock)
  else if truthy ret then Some (ret, view, sock)
  else Some (0, apply_image_info (unpack kfastblock_raw_get_image_info_rsp (default [] rsp)) view, sock).

Definition cluster_map_request (view : Meta.kfastblock_cluster_view) : list Z :=
  pack kfastblock_raw_get_cluster_map_req
    [Meta.osdmap_epoch view; Meta.pool_id (Meta.image view); 0; Meta.pgmap_epoch view].

Definition kfastblock_transport_fetch_cluster_map_from_monitor (kvmalloc_ok : bool)
    (mem : map_allocs) (sock : conn) (view : Meta.kfastblock_cluster_view) (sq : Z)
    : option (Z * Meta.kfastblock_cluster_view * conn) :=
  '(ret, response, sock) ←
    kfastblock_transport_exec_request kvmalloc_ok sock KFASTBLOCK_RAW_SERVICE_MONITOR
      KFASTBLOCK_RAW_OP_GET_CLUSTER_MAP sq (Some (cluster_map_request view))
      (size kfastblock_raw_get_cluster_map_req) (Some zero_response);
  if ret =? - ESTALE then Some (0, view, sock)
  else if truthy ret then Some (ret, view, sock)
  else
    '(ret, v) ← kfastblock_transport_response_decode_cluster_map mem response (Some view);
    Some (ret, default view v, sock).

End sockets.

(** ** Requests with a body *)

Section requests.
Context `{Stream conn}.

Lemma send_all_null (sock : conn) len :
  0 < len -> kfastblock_transport_send_all sock NULL len = None.
Proof.
  intros Hl. unfold kfastblock_transport_send_all.
  destruct (Z.to_nat len) as [|n] eqn:E; [lia|]. cbn [send_loop].
  by rewrite (proj2 (Z.ltb_lt _ _) Hl).
Qed.

Lemma parts_len_from parts n :
  0 <= n < 2 ^ 32 ->
  0 <= foldl (fun n (p : kfastblock_transport_body_part) => u32 (n + p.2)) n parts < 2 ^ 32.
Proof.
  revert n; induction parts as [|p parts IH]; intros n Hn; cbn [foldl]; [done|].
  apply IH, Z.mod_pos_bound. lia.
Qed.

Lemma parts_len_range parts : 0 <= parts_len parts < 2 ^ 32.
Proof. apply parts_len_from. lia. Qed.

(** Once the header is out, a request whose parts have any bytes sends its body
    from [NULL]: [send_request_parts] passes [NULL] and the length of the parts to
    [send_request], which sends that many bytes. *)
Theorem request_parts_send_from_null (sock sock' : conn) (svc op sq : Z)
    (parts : list kfastblock_transport_body_part) :
  parts_len parts <> 0 ->
  kfastblock_transport_send_all sock
    (Some (header_bytes (request_header svc op sq (parts_len parts)))) (size header_layout)
    = Some (0, sock') ->
  kfastblock_transport_send_request_parts sock svc op sq parts = None.
Proof.
  intros Hp E. pose proof (parts_len_range parts) as Hr.
  unfold kfastblock_transport_send_request_parts, kfastblock_transport_send_request.
  rewrite E. cbn [mbind option_bind truthy]. change (truthy 0) with false. cbv iota.
  rewrite (proj2 (Z.eqb_neq _ _) Hp), send_all_null by lia. done.
Qed.

Lemma request_parts_never_complete (sock : conn) svc op sq parts ret sock' :
  parts_len parts <> 0 ->
  kfastblock_transport_send_request_parts sock svc op sq parts = Some (ret, sock') -> ret <> 0.
Proof.
  intros Hp. unfold kfastblock_transport_send_request_parts, kfastblock_transport_send_request.
  destruct (kfastblock_transport_send_all _ _ (size header_layout)) as [[r1 s1]|]; [|done].
  cbn [mbind option_bind]. destruct (truthy r1) eqn:E1.
  { cbn [mbind option_bind]. rewrite E1. intros E; injection E as <- _. by unbool. }
  pose proof (parts_len_range parts) as Hr.
  rewrite (proj2 (Z.eqb_neq _ _) Hp), send_all_null by lia. done.
Qed.

Lemma exec_request_parts_fails ok (sock : conn) svc op sq parts rsp ret rsp' sock' :
  parts_len parts <> 0 ->
  kfastblock_transport_exec_request_parts ok sock svc op sq parts rsp = Some (ret, rsp', sock') ->
  ret <> 0.
Proof.
  intros Hp. unfold kfastblock_transport_exec_request_parts. destruct rsp as [rsp|].
  2: { intros E; injection E as <- _ _. done. }
  destruct (kfastblock_transport_send_request_parts _ _ _ _ _) as [[r1 s1]|] eqn:E; [|done].
  apply request_parts_never_complete in E; [|done]. cbn [mbind option_bind].
  assert (Ht : truthy r1 = true) by by (apply negb_true_iff, Z.eqb_neq).
  rewrite Ht. intros E1; injection E1 as <- _ _. done.
Qed.

Lemma exec_fixed_body_fails ok (sock : conn) svc op sq parts dst n ret dst' sock' :
  parts_len parts <> 0 ->
  kfastblock_transport_exec_request_fixed_body ok sock svc op sq parts dst n
    = Some (ret, dst', sock') -> ret <> 0.
Proof.
  intros Hp. unfold kfastblock_transport_exec_request_fixed_body.
  destruct (kfastblock_transport_exec_request_parts _ _ _ _ _ _ _) as [[[r1 rsp1] s1]|] eqn:E; [|done].
  apply exec_request_parts_fails in E; [|done]. cbn [mbind option_bind].
  assert (Ht : truthy r1 = true) by by (apply negb_true_iff, Z.eqb_neq).
  rewrite Ht. intros E1; injection E1 as <- _ _. done.
Qed.

(** As the code stands no image is ever fetched: whatever the monitor and the
    socket do, [fetch_image_info] leaves the view unchanged when it returns,
    because its request always has a body and sending it goes through [NULL]. *)
Theorem image_info_never_fetched (ok : bool) (sock sock' : conn) (sq ret : Z)
    (view view' : Meta.kfastblock_cluster_view) :
  (String.length (Meta.pool_name (Meta.image view)) < Meta.KFASTBLOCK_MAX_NAME_LEN)%nat ->
  (String.length (Meta.image_name (Meta.image view)) < Meta.KFASTBLOCK_MAX_NAME_LEN)%nat ->
  kfastblock_transport_fetch_image_info ok sock view sq = Some (ret, view', sock') ->
  view' = view.
Proof.
  unfold Meta.KFASTBLOCK_MAX_NAME_LEN. intros H1 H2.
  unfold kfastblock_transport_fetch_image_info.
  destruct (kfastblock_transport_exec_request_fixed_body _ _ _ _ _ _ _ _) as [[[r1 d1] s1]|] eqn:E;
    [|done].
  apply exec_fixed_body_fails in E.
  - cbn [mbind option_bind]. case_match; [intros E1; by injection E1 as _ <- _|].
    assert (Ht : truthy r1 = true) by by (apply negb_true_iff, Z.eqb_neq).
    rewrite Ht. intros E1; by injection E1 as _ <- _.
  - unfold parts_len, image_info_parts. cbn [foldl snd struct_part string_part].
    change (size kfastblock_raw_get_image_info_req) with 12. change (u32 (0 + 12)) with 12.
    rewrite (u32_small (12 + _)), u32_small by lia. lia.
Qed.

End requests.

(** ** Framing of responses *)

(** What TCP promises about receiving: the bytes handed out are the next ones of
    those that are still to come, and there are as many as the count says. *)
Class StreamLaws (conn : Type) `{Stream conn} := {
  incoming : conn -> list Z;
  recv_in_order c n rc bs c' :
    0 < n -> kernel_recvmsg c n = (rc, bs, c') -> 0 < rc ->
    rc = Z.of_nat (List.length bs) /\ rc <= n /\ incoming c = bs ++ incoming c';
}.

(** A connection on which bytes that have arrived can be received. *)
Definition delivers `{StreamLaws conn} (P : conn -> Prop) : Prop :=
  forall c n, P c -> 0 < n -> incoming c <> [] ->
    let '(rc, bs, c') := kernel_recvmsg c n in 0 < rc /\ P c'.

Section framing.
Context `{StreamLaws conn}.

Lemma recv_loop_spec fuel : forall (sock : conn) len acc ret bs sock',
  Z.of_nat (List.length acc) <= len -> len - Z.of_nat (List.length acc) <= Z.of_nat fuel ->
  recv_loop fuel sock len acc = (ret, bs, sock') ->
  ret < 0 \/
  (ret = 0 /\ Z.of_nat (List.length bs) = len /\ acc ++ incoming sock = bs ++ incoming sock').
Proof.
  induction fuel as [|fuel IH]; intros sock len acc ret bs sock' Ha Hf; cbn [recv_loop].
  { intros E; injection E as <- <- <-. right. split; [done|]. split; [lia|done]. }
  destruct (_ <? len) eqn:Hl; unbool.
  2: { intros E; injection E as <- <- <-. right. split; [done|]. split; [lia|done]. }
  destruct (kernel_recvmsg sock _) as [[rc b] s1] eqn:E1.
  destruct (rc <=? 0) eqn:Hrc; unbool.
  { intros E; injection E as <- _ _. left. destruct (rc <? 0) eqn:?; unbool; [lia|].
    unfold EIO. lia. }
  apply recv_in_order in E1 as (Hrc1 & Hrc2 & Hin); [|lia|lia]. intros E.
  apply IH in E; [|rewrite length_app; lia..].
  rewrite Hin, app_assoc. exact E.
Qed.

Lemma recv_all_spec (sock : conn) len ret bs sock' :
  0 <= len -> kfastblock_transport_recv_all sock len = (ret, bs, sock') ->
  ret < 0 \/ (ret = 0 /\ Z.of_nat (List.length bs) = len /\ incoming sock = bs ++ incoming sock').
Proof. intros Hl E. apply recv_loop_spec in E; [exact E|simpl; lia|simpl; lia]. Qed.

Context (P : conn -> Prop) (HP : delivers P).

Lemma recv_loop_ok fuel : forall (sock : conn) len acc,
  P sock -> len <= Z.of_nat (List.length (acc ++ incoming sock)) ->
  exists ret bs sock', recv_loop fuel sock len acc = (ret, bs, sock') /\ ret = 0 /\ P sock'.
Proof using HP.
  induction fuel as [|fuel IH]; intros sock len acc Hs Hl; cbn [recv_loop].
  { by eexists _, _, _. }
  destruct (_ <? len) eqn:Hlt; unbool; [|by eexists _, _, _].
  assert (Hne : incoming sock <> []) by (intros E; rewrite E, app_nil_r in Hl; lia).
  pose proof (HP sock (len - Z.of_nat (List.length acc)) Hs ltac:(lia) Hne) as Hd.
  destruct (kernel_recvmsg sock _) as [[rc b] s1] eqn:E1. destruct Hd as [Hrc Hs1].
  rewrite (proj2 (Z.leb_gt rc 0)) by done.
  apply recv_in_order in E1 as (_ & _ & Hin); [|lia|done].
  apply IH; [done|]. by rewrite <- app_assoc, <- Hin.
Qed.

Lemma recv_all_ok (sock : conn) bs rest :
  P sock -> incoming sock = bs ++ rest ->
  exists sock', kfastblock_transport_recv_all sock (Z.of_nat (List.length bs)) = (0, bs, sock') /\
    P sock' /\ incoming sock' = rest.
Proof using HP.
  intros Hs Hin. destruct (recv_loop_ok (Z.to_nat (Z.of_nat (List.length bs))) sock
    (Z.of_nat (List.length bs)) [] Hs) as (ret & out & sock' & E & -> & Hs').
  { simpl. rewrite Hin, length_app. lia. }
  exists sock'. pose proof E as E'. apply recv_all_spec in E' as [?|(_ & Hl & E')]; [lia| |lia].
  rewrite Hin in E'. apply app_inj_1 in E' as [-> ->]; [|lia]. by split.
Qed.

End framing.

Lemma status_ok_iff st :
  kfastblock_transport_status_to_errno st = 0 <-> st = KFASTBLOCK_RAW_STATUS_OK.
Proof.
  unfold kfastblock_transport_status_to_errno, KFASTBLOCK_RAW_STATUS_OK. split; [|by intros ->].
  repeat (case_match; [unbool; try done; by subst|]). done.
Qed.

(** The values a header can hold. *)
Definition header_fits (h : kfastblock_raw_header) : Prop :=
  Forall2 fits header_layout (header_fields h).

Lemma length_header_bytes h : Z.of_nat (List.length (header_bytes h)) = size header_layout.
Proof. unfold header_bytes. by rewrite length_pack. Qed.

Lemma header_roundtrip h : header_fits h -> header_of_bytes (header_bytes h) = h.
Proof.
  intros H. unfold header_of_bytes, header_bytes.
  rewrite <- (app_nil_r (pack _ _)), unpack_pack by done. by destruct h.
Qed.

(** What the driver demands of a response to a request of service and opcode. *)
Definition response_to (svc op : Z) (h : kfastblock_raw_header) : Prop :=
  magic h = KFASTBLOCK_RAW_MAGIC /\ version_major h = KFASTBLOCK_RAW_VERSION_MAJOR /\
  service h = svc /\ opcode h = op /\ has_flag (flags h) KFASTBLOCK_RAW_FLAG_RESPONSE = true.

Section responses.
Context `{StreamLaws conn} (P : conn -> Prop) (HP : delivers P).

Lemma recv_any_ok (sock : conn) svc op h b rest h0 :
  P sock -> header_fits h -> response_to svc op h ->
  hdr_body_len h = Z.of_nat (List.length b) ->
  incoming sock = header_bytes h ++ b ++ rest ->
  exists sock', kfastblock_transport_recv_response_any true sock svc op h0
      = (kfastblock_transport_status_to_errno (status h), h,
         if decide (b = []) then NULL else Some b, sock') /\
    P sock' /\ incoming sock' = rest.
Proof using HP.
  intros Hs Hf (H1 & H2 & H3 & H4 & H5) Hl Hin.
  destruct (recv_all_ok P HP sock _ _ Hs Hin) as (s1 & E1 & Hs1 & Hin1).
  rewrite length_header_bytes in E1. unfold kfastblock_transport_recv_response_any.
  rewrite E1. change (truthy 0) with false. cbv iota. rewrite header_roundtrip by done.
  rewrite H1, H2, H3, H4, H5, !Z.eqb_refl. cbn [negb]. rewrite Hl.
  destruct b as [|x b].
  { simpl in *. exists s1. by split. }
  rewrite decide_False by done. rewrite (proj2 (Z.eqb_neq _ 0)) by (simpl; lia).
  destruct (recv_all_ok P HP s1 (x :: b) rest Hs1 Hin1) as (s2 & E2 & Hs2 & Hin2).
  rewrite E2. change (truthy 0) with false. cbv iota. exists s2. by split.
Qed.

(** C27: Responses are framed: on a connection that delivers what has arrived, the
    driver consumes exactly the header and the body of the next response and
    leaves the rest.  It returns 0 with the body exactly when the status is OK and
    the sequence number is the one it asked for; another status is reported as
    its error number, another sequence number as [-EPROTO]. *)
Theorem response_framing (sock : conn) (svc op sq : Z) (h h0 : kfastblock_raw_header)
    (b rest : list Z) :
  P sock -> header_fits h -> response_to svc op h ->
  hdr_body_len h = Z.of_nat (List.length b) ->
  incoming sock = header_bytes h ++ b ++ rest ->
  exists ret b' sock', kfastblock_transport_recv_response_exact true sock svc op sq h0
      = (ret, h, b', sock') /\
    P sock' /\ incoming sock' = rest /\
    ret = (if status h =? KFASTBLOCK_RAW_STATUS_OK
           then if seq h =? sq then 0 else - EPROTO
           else kfastblock_transport_status_to_errno (status h)) /\
    (ret = 0 -> default [] b' = b) /\
    (ret = 0 <-> status h = KFASTBLOCK_RAW_STATUS_OK /\ seq h = sq).
Proof using HP.
  intros Hs Hf Hr Hl Hin.
  destruct (recv_any_ok sock svc op h b rest h0 Hs Hf Hr Hl Hin) as (s1 & E & Hs1 & Hin1).
  unfold kfastblock_transport_recv_response_exact. rewrite E. clear E.
  pose proof (status_ok_iff (status h)) as Hst. unfold KFASTBLOCK_RAW_STATUS_OK in *.
  destruct (Z.eqb_spec (status h) 0) as [E0|E0].
  - rewrite (proj2 Hst E0). change (truthy 0) with false. cbv iota.
    destruct (Z.eqb_spec (seq h) sq) as [Eq|Eq].
    + eexists _, _, _. split; [reflexivity|]. repeat split; try done.
      intros _. by destruct b.
    + eexists _, _, _. split; [reflexivity|]. repeat split; try done. by intros [? ?].
  - assert (Ht : truthy (kfastblock_transport_status_to_errno (status h)) = true).
    { unfold truthy. apply negb_true_iff, Z.eqb_neq. tauto. }
    rewrite Ht. eexists _, _, _. split; [reflexivity|]. repeat split; try done; tauto.
Qed.

End responses.

(** ** Every decoder stays inside the body *)

Lemma expect_min_body_ok r bs n :
  body r = Some bs ->
  kfastblock_transport_response_expect_min_body (Some r) n
  = if body_len r <? n then - EPROTO else 0.
Proof.
  intros Hb. unfold kfastblock_transport_response_expect_min_body.
  by rewrite Hb, bool_decide_true by by eexists.
Qed.

Lemma decode_leader_in_bounds r bs l :
  body r = Some bs -> wf_body bs (body_len r) ->
  exists ret l', kfastblock_transport_response_decode_leader (Some r) (Some l) = Some (ret, Some l') /\
    (ret = 0 -> Meta.leader_osd_id l' <> 0 /\ Meta.leader_port l' <> 0 /\
                Meta.leader_address l' <> EmptyString).
Proof.
  intros Hb (Hl & Hlen & Hbs). unfold kfastblock_transport_response_decode_leader.
  rewrite (expect_min_body_ok _ _ _ Hb), Hb.
  change (size kfastblock_raw_get_leader_rsp) with 8. cbn [default from_option].
  destruct (body_len r <? 8) eqn:E; [by eexists _, _|]. change (truthy 0) with false. cbv iota.
  rewrite Z.ltb_ge in E. unfold id. rewrite slice_some by lia. cbn [mbind option_bind].
  set (rsp := unpack _ _). assert (Hr : 0 <= nth 2 rsp 0).
  { apply nth_nonneg, unpack_nonneg, Forall_take, Forall_drop, Hbs. }
  clearbody rsp. destruct (_ || _ || _) eqn:Ec; [by eexists _, _|].
  rewrite !orb_false_iff, negb_false_iff, Z.eqb_eq in Ec. destruct Ec as [[Ec _] _].
  rewrite slice_some by lia. cbn [mbind option_bind Meta.leader_osd_id Meta.leader_port
    Meta.leader_address].
  destruct (_ || _ || _) eqn:Ed; [by eexists _, _|]. eexists _, _. split; [reflexivity|].
  rewrite !orb_false_iff, !Z.eqb_neq in Ed. destruct Ed as [[Ed1 Ed2] Ed3]. intros _.
  split; [done|]. split; [done|]. unfold str_empty in Ed3. by apply bool_decide_eq_false in Ed3.
Qed.

Lemma decode_read_object_in_bounds r bs e data :
  body r = Some bs -> wf_body bs (body_len r) ->
  0 <= Request.extent_length e <= Z.of_nat (List.length data) ->
  exists ret data', kfastblock_transport_response_decode_read_object (Some r) (Some e) (Some data)
      = Some (ret, Some data') /\ List.length data' = List.length data.
Proof.
  intros Hb (Hl & Hlen & Hbs) He. unfold kfastblock_transport_response_decode_read_object.
  rewrite (expect_min_body_ok _ _ _ Hb), Hb, bool_decide_true by by eexists. cbn [negb andb].
  change (size kfastblock_raw_read_object_rsp) with 8. cbn [default from_option].
  destruct (body_len r <? 8) eqn:E; [by eexists _, _|]. change (truthy 0) with false. cbv iota.
  rewrite Z.ltb_ge in E. unfold id. rewrite slice_some by lia. cbn [mbind option_bind].
  set (rsp := unpack _ _). assert (Hr : 0 <= nth 0 rsp 0).
  { apply nth_nonneg, unpack_nonneg, Forall_take, Forall_drop, Hbs. }
  clearbody rsp. destruct (_ || _) eqn:Ec; [by eexists _, _|].
  rewrite orb_false_iff, negb_false_iff, Z.eqb_eq, Z.ltb_ge in Ec. destruct Ec as [Ec Ed].
  cbn [fmap option_fmap option_map].
  destruct (truthy (nth 0 rsp 0)).
  - rewrite slice_some by lia. cbn [mbind option_bind]. eexists _, _. split; [reflexivity|].
    rewrite length_app, length_drop, length_app, length_replicate, length_drop, length_take, length_drop.
    lia.
  - eexists _, _. split; [reflexivity|].
    rewrite length_app, length_replicate, length_drop. lia.
Qed.


(** ** Concrete runs *)

(** A connection on which whatever has arrived is received three bytes at a time. *)
#[export] Instance slow_stream : Stream (list Z) := {|
  kernel_sendmsg c bs := (Z.of_nat (List.length bs), c);
  kernel_recvmsg c n :=
    let k := Z.min n 3 in
    (Z.of_nat (List.length (take (Z.to_nat k) c)), take (Z.to_nat k) c, drop (Z.to_nat k) c);
|}.

#[export] Program Instance slow_stream_laws : StreamLaws (list Z) := {| incoming c := c |}.
Next Obligation.
  intros c n rc bs c' Hn E Hrc. injection E as <- <- <-.
  rewrite take_drop. split; [done|]. split; [|done]. rewrite length_take. lia.
Qed.

Lemma slow_delivers : delivers (conn := list Z) (fun _ => True).
Proof.
  intros c n _ Hn Hc. split; [|done]. destruct c as [|x c]; [done|].
  rewrite length_take. simpl. lia.
Qed.

Definition small_header : kfastblock_raw_header :=
  {| magic := KFASTBLOCK_RAW_MAGIC; version_major := 1; version_minor := 0;
     service := KFASTBLOCK_RAW_SERVICE_OSD; opcode := KFASTBLOCK_RAW_OSD_OP_READ_OBJECT;
     flags := 1; seq := 7; status := 0; hdr_body_len := 4 |}.

Lemma response_framing_witness :
  exists b' sock', kfastblock_transport_recv_response_exact true
      (header_bytes small_header ++ [1; 2; 3; 4] ++ [9; 9])
      KFASTBLOCK_RAW_SERVICE_OSD KFASTBLOCK_RAW_OSD_OP_READ_OBJECT 7 zero_header
    = (0, small_header, b', sock') /\ sock' = [9; 9] /\ default [] b' = [1; 2; 3; 4].
Proof.
  destruct (response_framing (conn := list Z) (fun _ => True) slow_delivers
    (header_bytes small_header ++ [1; 2; 3; 4] ++ [9; 9]) KFASTBLOCK_RAW_SERVICE_OSD
    KFASTBLOCK_RAW_OSD_OP_READ_OBJECT 7 small_header zero_header [1; 2; 3; 4] [9; 9])
    as (ret & b' & sock' & E & _ & Hin & Hret & Hb & _).
  - exact I.
  - repeat (apply Forall2_cons; split; [by vm_compute|]). by apply Forall2_nil.
  - by repeat split.
  - reflexivity.
  - reflexivity.
  - change (ret = 0) in Hret. subst ret. exists b', sock'. split; [exact E|].
    split; [exact Hin|]. by apply Hb.
Defined.


End Wire.
