(* ===== verification/Mux.v ===== *)
(** * Multiplexed OSD sockets (kfastblock/src/transport.c)

    Several object workers share one socket to an OSD.  A worker registers a
    waiter under the sequence number of its request, sends the request under
    [send_lock], queues the receiving work and sleeps; the receiving work reads
    responses and hands each one to the waiter with its number.  A worker whose
    exchange failed tears the socket down.

    The waiters live on the stacks of their workers; here they are a list, a
    pointer to one is its index, and the slot's [mux_waiters] holds indexes.
    [linked] is whether [waiter->link] is in a list, which [INIT_LIST_HEAD] of the
    slot's list does not change.  Every function below is one critical section, or
    is split into its critical sections where another thread can run between
    them.  What sending returns is an argument: Wire has the sending itself. *)

From stdpp Require Import relations.
From S2P Require Import Prelude Meta Connpool Volume Request Wire Recovery.
Import (hints) Meta Connpool Volume Request Wire.

Module Mux.
Import Wire(kfastblock_transport_response_ctx, zero_response, Stream, body_len, rsp_ret, hdr).
Import Connpool(kfastblock_cached_socket, mux_waiters, mux_inflight, mux_dead).

Record kfastblock_transport_mux_waiter := {
  linked : bool;
  done : bool;
  seq : Z;
  service : Z;
  opcode : Z;
  ret : Z;
  response : kfastblock_transport_response_ctx;
}.

#[export] Instance eta_waiter : Eta kfastblock_transport_mux_waiter := fun w =>
  {| linked := linked w; done := done w; seq := seq w; service := service w; opcode := opcode w;
     ret := ret w; response := response w |}.

Definition kfastblock_transport_init_mux_waiter (w : ptr kfastblock_transport_mux_waiter)
    (sq svc op : Z) : ptr kfastblock_transport_mux_waiter :=
  (fun _ => {| linked := false; done := false; seq := sq; service := svc; opcode := op;
               ret := - EINPROGRESS; response := zero_response |}) <$> w.

(** A shared socket: its slot, the waiters there have been, and the stream. *)
Record mux (conn : Type) := {
  cached : kfastblock_cached_socket;
  waiters : list kfastblock_transport_mux_waiter;
  stream : conn;
}.
#[global] Arguments cached {conn}.
#[global] Arguments waiters {conn}.
#[global] Arguments stream {conn}.

#[export] Instance eta_mux conn : Eta (mux conn) := fun m =>
  {| cached := cached m; waiters := waiters m; stream := stream m |}.

Section mux.
Context `{Stream conn}.

Definition set_waiter (i : Z) (f : kfastblock_transport_mux_waiter -> kfastblock_transport_mux_waiter)
    (m : mux conn) : mux conn :=
  m <| waiters ::= alter f (Z.to_nat i) |>.

Definition kfastblock_transport_register_mux_waiter (m : mux conn) (waiter : ptr Z)
    : Z * mux conn :=
  match waiter with
  | NULL => (- EINVAL, m)
  | Some i =>
      if mux_dead (cached m) then (- ENOTCONN, m)
      else
        (0, set_waiter i (fun w => w <| linked := true |>) m
              <| cached ::= fun c => c <| mux_waiters ::= fun l => l ++ [i] |>
                                       <| mux_inflight ::= fun n => u32 (n + 1) |> |>)
  end.

(** Removing a waiter that is in the slot's list. *)
Definition list_del (i : Z) (l : list Z) : list Z := filter (fun j => j <> i) l.

Definition kfastblock_transport_unregister_mux_waiter (m : mux conn) (waiter : ptr Z) : mux conn :=
  match waiter with
  | NULL => m
  | Some i =>
      match waiters m !! Z.to_nat i with
      | Some w =>
          if linked w then
            set_waiter i (fun w => w <| linked := false |>) m
              <| cached ::= fun c => c <| mux_waiters ::= list_del i |>
                                       <| mux_inflight ::= dec_if_nonzero |> |>
          else m
      | None => m
      end
  end.

Definition kfastblock_transport_find_mux_waiter_locked (m : mux conn) (sq : Z) : ptr Z :=
  if sq =? 0 then NULL
  else List.find (fun i => from_option (fun w => seq w =? sq) false (waiters m !! Z.to_nat i))
         (mux_waiters (cached m)).

(** The result, the response and the stream.  [kvmalloc_ok] says whether the body
    could be allocated. *)
Definition kfastblock_transport_recv_raw_osd_response (kvmalloc_ok : bool) (sock : ptr conn)
    (rsp : ptr kfastblock_transport_response_ctx)
    : Z * ptr kfastblock_transport_response_ctx * ptr conn :=
  match sock, rsp with
  | Some sock, Some _ =>
      let r := zero_response in
      let '(ret, bs, sock) := Wire.kfastblock_transport_recv_all sock (Wire.size Wire.header_layout) in
      if truthy ret then (ret, Some r, Some sock)
      else
        let h := Wire.header_of_bytes bs in
        let r := r <| hdr := h |> in
        if negb (Wire.magic h =? Wire.KFASTBLOCK_RAW_MAGIC) then (- EPROTO, Some r, Some sock)
        else if negb (Wire.version_major h =? Wire.KFASTBLOCK_RAW_VERSION_MAJOR)
        then (- EPROTO, Some r, Some sock)
        else if negb (Wire.service h =? Wire.KFASTBLOCK_RAW_SERVICE_OSD)
        then (- EPROTO, Some r, Some sock)
        else if negb (has_flag (Wire.flags h) Wire.KFASTBLOCK_RAW_FLAG_RESPONSE)
        then (- EPROTO, Some r, Some sock)
        else if Wire.hdr_body_len h =? 0 then (0, Some r, Some sock)
        else if negb kvmalloc_ok then (- ENOMEM, Some r, Some sock)
        else
          let '(ret, bs, sock) := Wire.kfastblock_transport_recv_all sock (Wire.hdr_body_len h) in
          if truthy ret then (ret, Some zero_response, Some sock)
          else (0, Some (r <| Wire.body := Some bs |> <| body_len := Wire.hdr_body_len h |>), Some sock)
  | _, _ => (- EINVAL, rsp, sock)
  end.

(** [complete(&waiter->done)] after the waiter has been given [ret]. *)
Definition fail_waiter (ret_ : Z) (w : kfastblock_transport_mux_waiter)
    : kfastblock_transport_mux_waiter :=
  w <| linked := false |> <| ret := ret_ |>
    <| response := default (response w)
         (Wire.kfastblock_transport_response_ctx_reset (Some (response w))) |>
    <| done := true |>.

Definition kfastblock_transport_fail_mux_waiters (m : mux conn) (ret_ : Z) : mux conn :=
  let ids := mux_waiters (cached m) in
  foldl (fun m i => set_waiter i (fail_waiter ret_) m)
    (m <| cached ::= fun c => c <| mux_waiters := [] |> <| mux_inflight := 0 |> |>) ids.

(** The response [rsp] is handed to its waiter. *)
Definition give_response (rsp : kfastblock_transport_response_ctx)
    (w : kfastblock_transport_mux_waiter) : kfastblock_transport_mux_waiter :=
  w <| ret := rsp_ret rsp |> <| response := rsp |> <| done := true |>.

(** One round of [kfastblock_transport_osd_mux_recv_work]; the flag says whether the
    work goes on. *)
Definition mux_recv_round (kvmalloc_ok : bool) (m : mux conn) : mux conn * bool :=
  if mux_inflight (cached m) =? 0 then (m, false)
  else
    let '(ret_, rsp, s) :=
      kfastblock_transport_recv_raw_osd_response kvmalloc_ok
        ((fun _ => stream m) <$> Connpool.sock (cached m)) (Some zero_response) in
    let m := m <| stream ::= fun s0 => default s0 s |> in
    let rsp := default zero_response rsp in
    if truthy ret_ then (kfastblock_transport_fail_mux_waiters m ret_, false)
    else
      let sq := Wire.seq (hdr rsp) in
      let rsp := rsp <| rsp_ret := Wire.kfastblock_transport_status_to_errno (Wire.status (hdr rsp)) |> in
      match kfastblock_transport_find_mux_waiter_locked m sq with
      | Some i =>
          let m := set_waiter i (fun w => w <| linked := false |>) m
                     <| cached ::= fun c => c <| mux_waiters ::= list_del i |>
                                              <| mux_inflight ::= dec_if_nonzero |> |> in
          (set_waiter i (give_response rsp) m, true)
      | NULL => (kfastblock_transport_fail_mux_waiters m (- EPROTO), false)
      end.

(** Every round that goes on takes a waiter from the list. *)
Fixpoint mux_recv_loop (fuel : nat) (kvmalloc_ok : bool) (m : mux conn) : mux conn :=
  match fuel with
  | O => m
  | S fuel =>
      let '(m, more) := mux_recv_round kvmalloc_ok m in
      if more then mux_recv_loop fuel kvmalloc_ok m else m
  end.

Definition kfastblock_transport_osd_mux_recv_work (kvmalloc_ok : bool) (m : mux conn) : mux conn :=
  mux_recv_loop (S (List.length (mux_waiters (cached m)))) kvmalloc_ok m.

(** ** A request on a shared socket *)

(** [kfastblock_transport_exec_mux_request_parts] up to sending: the waiter [i] is
    initialised and registered. *)
Definition exec_begin (sq svc op : Z) (m : mux conn) : Z * mux conn :=
  let i := Z.of_nat (List.length (waiters m)) in
  let w := kfastblock_transport_init_mux_waiter
             (Some {| linked := false; done := false; seq := 0; service := 0; opcode := 0; ret := 0;
                      response := zero_response |}) sq svc op in
  kfastblock_transport_register_mux_waiter (m <| waiters ::= fun l => l ++ option_list w |>) (Some i).

(** Under [send_lock]: [sent] and [s] are what sending returns and leaves, if the
    socket is there; a failure unregisters the waiter. *)
Definition exec_send (i : Z) (sent : Z) (s : conn) (m : mux conn) : Z * mux conn :=
  let '(ret_, m) :=
    if negb (bool_decide (is_Some (Connpool.sock (cached m)))) || mux_dead (cached m)
    then (- ENOTCONN, m)
    else (sent, m <| stream := s |>) in
  if truthy ret_ then (ret_, kfastblock_transport_unregister_mux_waiter m (Some i)) else (0, m).

(** ** Tearing a socket down

    The critical sections of [kfastblock_transport_finalize_mux_osd_socket], for a
    [ret] that is not 0.  Between them the receiving work runs to its end. *)

(** Whether the socket is to be shut down. *)
Definition finalize_mark (m : mux conn) : bool * mux conn :=
  if bool_decide (is_Some (Connpool.sock (cached m))) && negb (mux_dead (cached m))
  then (true, m <| cached ::= fun c => c <| mux_dead := true |> |>)
  else (false, m).

Definition kfastblock_transport_mark_osd_socket_failure `{Clock} (now : Z)
    (vol : ptr Volume.kfastblock_volume) (slot : ptr kfastblock_cached_socket)
    (leader : ptr Meta.kfastblock_leader_info) (ret_ : Z)
    : ptr Volume.kfastblock_volume * ptr kfastblock_cached_socket :=
  match slot, leader with
  | Some _, Some l =>
      let '(backoff_jiffies, slot) :=
        Connpool.kfastblock_osd_conn_slot_mark_failure_locked now slot leader ret_ in
      (Volume.kfastblock_volume_account_socket_backoff now vol false (Meta.leader_osd_id l)
         (Meta.leader_port l) (from_option Connpool.fail_streak 0 slot) backoff_jiffies ret_, slot)
  | _, _ => (vol, slot)
  end.

(** [same] is whether the slot still has the socket that was shut down. *)
Definition finalize_close `{Clock} (now : Z) (vol : ptr Volume.kfastblock_volume)
    (leader : ptr Meta.kfastblock_leader_info) (ret_ actions : Z) (same : bool) (m : mux conn)
    : ptr Volume.kfastblock_volume * mux conn :=
  if same && bool_decide (is_Some (Connpool.sock (cached m))) then
    let '(vol, slot) :=
      match leader with
      | Some l =>
          let '(vol, slot) :=
            if has_flag actions Recovery.KFASTBLOCK_RECOVERY_DROP_SOCKET
            then kfastblock_transport_mark_osd_socket_failure now vol (Some (cached m)) leader ret_
            else (vol, Some (cached m)) in
          (Volume.kfastblock_volume_account_socket_drop now vol false (Meta.leader_osd_id l)
             (Meta.leader_port l) ret_, slot)
      | NULL => (vol, Some (cached m))
      end in
    (vol, m <| cached ::= fun c =>
            default c (Connpool.kfastblock_osd_conn_slot_close_locked now slot) |>)
  else (vol, m).

(** ** The life of a shared socket *)

(** The workers begin requests, send them, and tear the socket down; the receiving
    work runs its rounds; bytes arrive.  There are fewer than [2 ^ 32] waiters at a
    time.  The slot is closed when no waiter is registered. *)
Inductive mux_step : mux conn -> mux conn -> Prop :=
| step_begin sq svc op m r m' :
    Z.of_nat (List.length (mux_waiters (cached m))) + 1 < 2 ^ 32 ->
    exec_begin sq svc op m = (r, m') -> mux_step m m'
| step_send i sent s m r m' : 0 <= i -> exec_send i sent s m = (r, m') -> mux_step m m'
| step_recv ok m m' more : mux_recv_round ok m = (m', more) -> mux_step m m'
| step_stream s m : mux_step m (m <| stream := s |>)
| step_mark m b m' : finalize_mark m = (b, m') -> mux_step m m'
| step_close `{Clock} now vol leader ret_ actions same m vol' m' :
    mux_waiters (cached m) = [] -> finalize_close now vol leader ret_ actions same m = (vol', m') ->
    mux_step m m'
| step_fail ret_ m : ret_ <> 0 -> mux_step m (kfastblock_transport_fail_mux_waiters m ret_).

(** A request that succeeded has the OK response with its own number. *)
Definition answered_right (w : kfastblock_transport_mux_waiter) : Prop :=
  ret w = 0 -> Wire.seq (hdr (response w)) = seq w /\
               Wire.status (hdr (response w)) = Wire.KFASTBLOCK_RAW_STATUS_OK.

Record mux_wf (m : mux conn) : Prop := {
  mw_nodup : NoDup (mux_waiters (cached m));
  mw_listed i : i ∈ mux_waiters (cached m) ->
    0 <= i /\ exists w, waiters m !! Z.to_nat i = Some w /\ linked w = true /\ done w = false;
  mw_linked (k : nat) w : waiters m !! k = Some w -> linked w = true -> Z.of_nat k ∈ mux_waiters (cached m);
  mw_count : mux_inflight (cached m) = Z.of_nat (List.length (mux_waiters (cached m)));
  mw_bound : Z.of_nat (List.length (mux_waiters (cached m))) < 2 ^ 32;
  mw_done (k : nat) w : waiters m !! k = Some w -> done w = true -> linked w = false /\ answered_right w;
}.

Lemma list_del_absent i l : i ∉ l -> list_del i l = l.
Proof.
  unfold list_del. induction l as [|x l IH]; intros Hi; [done|]. rewrite filter_cons, decide_True by set_solver.
  f_equal. apply IH. set_solver.
Qed.

Lemma list_del_spec i l :
  NoDup l -> NoDup (list_del i l) /\ (forall j, j ∈ list_del i l <-> j ∈ l /\ j <> i) /\
  (i ∈ l -> List.length l = S (List.length (list_del i l))).
Proof.
  intros Hn. unfold list_del. split; [by apply NoDup_filter|].
  split; [intros j; rewrite list_elem_of_filter; tauto|].
  induction Hn as [|x l Hx Hn IH]; [set_solver|]. intros Hi. rewrite filter_cons.
  destruct (decide (x <> i)) as [Hne|He].
  - simpl. f_equal. apply IH. set_solver.
  - assert (x = i) as -> by (destruct (decide (x = i)); [done|contradiction]). simpl. f_equal.
    pose proof (list_del_absent i l Hx) as E. unfold list_del in E. by rewrite E.
Qed.
Lemma waiters_set i f m k :
  0 <= i ->
  waiters (set_waiter i f m) !! k
  = if decide (Z.of_nat k = i) then f <$> waiters m !! k else waiters m !! k.
Proof.
  intros Hi. simpl. rewrite list_lookup_alter. destruct (decide (Z.of_nat k = i)) as [<-|Hne].
  - by rewrite Nat2Z.id, decide_True by done.
  - by rewrite decide_False by lia.
Qed.

Lemma fail_all r ids : forall m,
  (forall i, i ∈ ids -> 0 <= i) -> NoDup ids ->
  let m' := foldl (fun m i => set_waiter i (fail_waiter r) m) m ids in
  cached m' = cached m /\
  forall k, waiters m' !! k = if decide (Z.of_nat k ∈ ids)
                              then fail_waiter r <$> waiters m !! k else waiters m !! k.
Proof.
  induction ids as [|i ids IH]; intros m Hpos Hnd; cbv zeta; cbn [foldl].
  - split; [done|]. intros k. by rewrite decide_False by set_solver.
  - apply NoDup_cons in Hnd as [Hi Hnd].
    destruct (IH (set_waiter i (fail_waiter r) m)) as [E Hk]; [set_solver|done|].
    split; [by rewrite E|]. intros k. rewrite Hk, waiters_set by set_solver.
    destruct (decide (Z.of_nat k = i)) as [<-|Hne].
    + by rewrite decide_False, decide_True by set_solver.
    + destruct (decide (Z.of_nat k ∈ ids)); [rewrite decide_True by set_solver|rewrite decide_False by set_solver]; done.
Qed.

(** Failing the registered waiters touches no other one. *)
Lemma fail_spec m r :
  mux_wf m ->
  let m' := kfastblock_transport_fail_mux_waiters m r in
  cached m' = cached m <| mux_waiters := [] |> <| mux_inflight := 0 |> /\
  forall k, waiters m' !! k = if decide (Z.of_nat k ∈ mux_waiters (cached m))
                              then fail_waiter r <$> waiters m !! k else waiters m !! k.
Proof.
  intros Hw. cbv zeta. unfold kfastblock_transport_fail_mux_waiters.
  destruct (fail_all r (mux_waiters (cached m))
    (m <| cached ::= fun c => c <| mux_waiters := [] |> <| mux_inflight := 0 |> |>)) as [E Hk].
  - intros i Hi. by apply (mw_listed _ Hw).
  - apply Hw.
  - split; [by rewrite E|]. exact Hk.
Qed.

(** Failing everybody, when everybody is in the list. *)
Lemma fail_wf m r : r <> 0 -> mux_wf m -> mux_wf (kfastblock_transport_fail_mux_waiters m r).
Proof.
  intros Hr Hw. destruct (fail_spec m r Hw) as [E Hk]. destruct Hw as [H1 H2 H3 H4 H5 H6].
  split; rewrite ?E; [constructor|set_solver| |done|done|].
  - intros k w. rewrite Hk. destruct (decide _) as [Hd|Hd].
    + destruct (waiters m !! k); [|done]. by intros [= <-].
    + intros Hw Hl. by apply (H3 k w) in Hl.
  - intros k w. rewrite Hk. destruct (decide _) as [Hd|Hd]; [|by apply H6].
    destruct (waiters m !! k); [|done]. by intros [= <-].
Qed.

(** Taking a registered waiter out of the list, and changing it. *)
Lemma unlist_wf m i f :
  mux_wf m -> i ∈ mux_waiters (cached m) ->
  (forall w, waiters m !! Z.to_nat i = Some w -> linked (f w) = false /\ (done (f w) = true -> answered_right (f w))) ->
  mux_wf (set_waiter i f m
            <| cached ::= fun c => c <| mux_waiters ::= list_del i |> <| mux_inflight ::= dec_if_nonzero |> |>).
Proof.
  intros [H1 H2 H3 H4 H5 H6] Hi Hf. destruct (H2 i Hi) as (Hpos & w & Hw & Hl & Hd).
  destruct (list_del_spec i _ H1) as (D1 & D2 & D3). specialize (D3 Hi).
  set (m' := _ <| cached ::= _ |>).
  assert (Ew : forall k, waiters m' !! k
    = if decide (Z.of_nat k = i) then f <$> waiters m !! k else waiters m !! k)
    by (intros k; exact (waiters_set i f m k Hpos)).
  assert (Ec : mux_waiters (cached m') = list_del i (mux_waiters (cached m))) by done.
  assert (En : mux_inflight (cached m') = dec_if_nonzero (mux_inflight (cached m))) by done.
  clearbody m'. split; rewrite ?Ec, ?En.
  - done.
  - intros j [Hj Hne]%D2. destruct (H2 j Hj) as (Hjp & x & Hx & Hxl). split; [done|]. exists x.
    rewrite Ew, decide_False by lia. done.
  - intros k x. rewrite Ew, D2. destruct (decide (Z.of_nat k = i)) as [<-|Hne].
    + destruct (waiters m !! k) as [y|] eqn:Ey; [|done]. intros [= <-].
      destruct (Hf y) as [-> _]; [by rewrite Nat2Z.id|done].
    + intros Hx Hxl. split; [by eapply H3|done].
  - unfold dec_if_nonzero. case_match; lia.
  - lia.
  - intros k x. rewrite Ew. destruct (decide (Z.of_nat k = i)) as [<-|Hne]; [|by apply H6].
    destruct (waiters m !! k) as [y|] eqn:Ey; [|done]. intros [= <-] Hdn.
    destruct (Hf y) as [? ?]; [by rewrite Nat2Z.id|auto].
Qed.

(** Changes that the waiters and their list do not notice. *)
Lemma mux_wf_ext m m' :
  waiters m' = waiters m -> mux_waiters (cached m') = mux_waiters (cached m) ->
  mux_inflight (cached m') = mux_inflight (cached m) -> mux_wf m -> mux_wf m'.
Proof. intros E1 E2 E3 [H1 H2 H3 H4 H5 H6]. split; by rewrite ?E1, ?E2, ?E3. Qed.

Lemma mux_begin_wf sq svc op m r m' :
  mux_wf m -> Z.of_nat (List.length (mux_waiters (cached m))) + 1 < 2 ^ 32 ->
  exec_begin sq svc op m = (r, m') -> mux_wf m'.
Proof.
  intros [H1 H2 H3 H4 H5 H6] Hb. unfold exec_begin. set (n := List.length (waiters m)).
  cbn [kfastblock_transport_init_mux_waiter fmap option_fmap option_map option_list].
  set (w := {| linked := false; done := false; seq := sq; service := svc; opcode := op; ret := - EINPROGRESS; response := zero_response |}).
  set (m0 := m <| waiters ::= fun l => l ++ [w] |>).
  change (kfastblock_transport_register_mux_waiter m0 (Some (Z.of_nat n)) = (r, m') -> mux_wf m').
  assert (E0 : forall k x, waiters m0 !! k = Some x -> waiters m !! k = Some x \/ k = n /\ x = w).
  { intros k x. simpl. intros Hx. apply lookup_app_Some in Hx as [?|[Hk Hx]]; [by left|right].
    apply list_lookup_singleton_Some in Hx as [Hx <-]. fold n in Hk, Hx. split; [lia|done]. }
  assert (El : forall k x, waiters m !! k = Some x -> waiters m0 !! k = Some x).
  { intros k x Hx. simpl. by rewrite lookup_app_l by by eapply lookup_lt_Some. }
  assert (Hn : waiters m0 !! n = Some w) by (simpl; by rewrite lookup_app_r, Nat.sub_diag by lia).
  assert (Hni : Z.of_nat n ∉ mux_waiters (cached m)).
  { intros Hi. destruct (H2 _ Hi) as (_ & x & Hx & _). rewrite Nat2Z.id in Hx.
    apply lookup_lt_Some in Hx. subst n. lia. }
  unfold kfastblock_transport_register_mux_waiter. destruct (mux_dead (cached m0)).
  { intros E; apply (f_equal snd) in E; cbn [snd] in E; subst m'. split.
    - exact H1.
    - intros i Hi. destruct (H2 i Hi) as (Hp & x & Hx & Hxl). split; [done|]. eauto.
    - intros k x Hx Hxl. destruct (E0 k x Hx) as [Hx'|[-> ->]]; [by eapply H3|done].
    - exact H4.
    - exact H5.
    - intros k x Hx Hxd. destruct (E0 k x Hx) as [Hx'|[-> ->]]; [by eapply H6|done]. }
  intros E; apply (f_equal snd) in E; cbn [snd] in E.
  assert (Ew : forall k, waiters m' !! k
    = if decide (Z.of_nat k = Z.of_nat n) then (fun w => w <| linked := true |>) <$> waiters m0 !! k
      else waiters m0 !! k) by (intros k; rewrite <- E; apply (waiters_set (Z.of_nat n)); lia).
  assert (Ec : mux_waiters (cached m') = mux_waiters (cached m) ++ [Z.of_nat n]) by by rewrite <- E.
  assert (En : mux_inflight (cached m') = u32 (mux_inflight (cached m) + 1)) by by rewrite <- E.
  clear E. clearbody m0. split; rewrite ?Ec, ?En.
  - apply NoDup_app. split; [done|]. split; [set_solver|apply NoDup_singleton].
  - intros i [Hi|Hi]%elem_of_app.
    + destruct (H2 i Hi) as (Hp & x & Hx & Hxl). split; [done|]. exists x.
      rewrite Ew, decide_False by (intros En'; apply Hni; by rewrite <- En', Z2Nat.id). auto.
    + apply list_elem_of_singleton in Hi as ->. split; [lia|]. exists (w <| linked := true |>).
      by rewrite Nat2Z.id, Ew, decide_True, Hn by done.
  - intros k x. rewrite Ew. destruct (decide _) as [Ek|Hne].
    + intros _ _. rewrite Ek. set_solver.
    + intros Hx Hxl. destruct (E0 k x Hx) as [Hx'|[-> ->]]; [|done].
      apply elem_of_app. left. by eapply H3.
  - rewrite H4, length_app, u32_small by lia. simpl. lia.
  - rewrite length_app. simpl. lia.
  - intros k x. rewrite Ew. destruct (decide _) as [Ek|Hne].
    + apply Nat2Z.inj in Ek as ->. rewrite Hn. by intros [= <-].
    + intros Hx Hxd. destruct (E0 k x Hx) as [Hx'|[-> ->]]; [by eapply H6|done].
Qed.

Lemma unregister_wf m i :
  0 <= i -> mux_wf m -> mux_wf (kfastblock_transport_unregister_mux_waiter m (Some i)).
Proof.
  intros Hp Hw. unfold kfastblock_transport_unregister_mux_waiter.
  destruct (waiters m !! Z.to_nat i) as [w|] eqn:E; [|done]. destruct (linked w) eqn:Hl; [|done].
  pose proof (mw_linked _ Hw _ _ E Hl) as Hx. rewrite Z2Nat.id in Hx by done.
  apply unlist_wf; [done..|]. intros y Hy. split; [done|].
  destruct (mw_listed _ Hw i Hx) as (_ & z & Hz & _ & Hd). simplify_eq. simpl. congruence.
Qed.


(** What has been completed stays as it is: its worker may have returned. *)
Definition keeps_done (m m' : mux conn) : Prop :=
  forall (k : nat) w, waiters m !! k = Some w -> done w = true -> waiters m' !! k = Some w.

Lemma same_keeps m m' : waiters m' = waiters m -> keeps_done m m'.
Proof. by intros E k w; rewrite E. Qed.

Lemma unlist_keeps m i f g :
  mux_wf m -> i ∈ mux_waiters (cached m) -> keeps_done m (set_waiter i f m <| cached ::= g |>).
Proof.
  intros Hw Hi k w Hk Hd. destruct (mw_listed _ Hw i Hi) as (Hp & x & Hx & _ & Hxd).
  change (waiters (set_waiter i f m) !! k = Some w). rewrite waiters_set by done.
  destruct (decide (Z.of_nat k = i)) as [<-|Hne]; [|done]. rewrite Nat2Z.id in Hx. congruence.
Qed.

Lemma unregister_keeps m i :
  0 <= i -> mux_wf m -> keeps_done m (kfastblock_transport_unregister_mux_waiter m (Some i)).
Proof.
  intros Hp Hw. unfold kfastblock_transport_unregister_mux_waiter.
  destruct (waiters m !! Z.to_nat i) as [w|] eqn:E; [|by intros ?]. destruct (linked w) eqn:Hl; [|by intros ?].
  pose proof (mw_linked _ Hw _ _ E Hl) as Hx. rewrite Z2Nat.id in Hx by done. by apply unlist_keeps.
Qed.

Lemma fail_keeps m r : mux_wf m -> keeps_done m (kfastblock_transport_fail_mux_waiters m r).
Proof.
  intros Hw k w Hk Hd. destruct (fail_spec m r Hw) as [_ ->]. destruct (decide _) as [Hi|]; [|done].
  destruct (mw_listed _ Hw _ Hi) as (_ & x & Hx & _ & Hxd). rewrite Nat2Z.id in Hx. congruence.
Qed.

Lemma begin_keeps sq svc op m r m' : exec_begin sq svc op m = (r, m') -> keeps_done m m'.
Proof.
  unfold exec_begin, kfastblock_transport_register_mux_waiter.
  intros E k w Hk Hd. pose proof (lookup_lt_Some _ _ _ Hk) as Hlt. revert E.
  case_match; intros E; apply (f_equal snd) in E; cbn [snd] in E; subst m'.
  - simpl. by rewrite lookup_app_l.
  - match goal with |- context [set_waiter ?i ?f ?m0] =>
      change (waiters (set_waiter i f m0) !! k = Some w); rewrite waiters_set by lia end.
    rewrite decide_False by lia. simpl. by rewrite lookup_app_l.
Qed.

(** The waiter found is registered and has the number. *)
Lemma find_spec m sq i :
  kfastblock_transport_find_mux_waiter_locked m sq = Some i ->
  i ∈ mux_waiters (cached m) /\ exists w, waiters m !! Z.to_nat i = Some w /\ seq w = sq.
Proof.
  unfold kfastblock_transport_find_mux_waiter_locked. case_match; [done|]. intros E.
  apply List.find_some in E as [Hi E]. apply list_elem_of_In in Hi. split; [done|].
  destruct (waiters m !! Z.to_nat i) as [w|]; [|done]. simpl in E. unbool. eauto.
Qed.

Lemma set_waiter_twice i f g h m :
  set_waiter i f (set_waiter i g m <| cached ::= h |>) = set_waiter i (fun w => f (g w)) m <| cached ::= h |>.
Proof.
  unfold set_waiter. destruct m as [c l s]. simpl. f_equal.
  apply list_eq. intros k. rewrite !list_lookup_alter.
  destruct (decide (Z.to_nat i = k)) as [<-|]; [|done]. rewrite decide_True by done.
  by destruct (l !! Z.to_nat i).
Qed.

(** Handing a response to the waiter found for it. *)
Lemma handed_over m sq i rsp :
  mux_wf m -> kfastblock_transport_find_mux_waiter_locked m sq = Some i -> Wire.seq (hdr rsp) = sq ->
  rsp_ret rsp = Wire.kfastblock_transport_status_to_errno (Wire.status (hdr rsp)) ->
  let m' := set_waiter i (give_response rsp)
              (set_waiter i (fun w => w <| linked := false |>) m
                 <| cached ::= fun c => c <| mux_waiters ::= list_del i |>
                                          <| mux_inflight ::= dec_if_nonzero |> |>) in
  mux_wf m' /\ keeps_done m m'.
Proof.
  intros Hw Hf Hs Hr. cbv zeta. rewrite set_waiter_twice. apply find_spec in Hf as (Hi & w & Hwi & Hsq).
  split; [|by apply unlist_keeps]. apply unlist_wf; [done..|]. intros x Hx. simplify_eq. split; [done|].
  intros _ Hret. simpl in *. rewrite Hr in Hret. split; [congruence|by apply Wire.status_ok_iff].
Qed.

Lemma recv_round_wf ok m m' more :
  mux_wf m -> mux_recv_round ok m = (m', more) -> mux_wf m' /\ keeps_done m m'.
Proof.
  intros Hw. unfold mux_recv_round. case_match; [intros E; injection E as <- _; split; [done|by apply same_keeps]|].
  destruct (kfastblock_transport_recv_raw_osd_response _ _ _) as [[r rsp] s].
  set (m0 := m <| stream ::= _ |>). assert (Hw0 : mux_wf m0) by by apply (mux_wf_ext m).
  assert (Hfail : forall e, e <> 0 -> mux_wf (kfastblock_transport_fail_mux_waiters m0 e) /\
                                      keeps_done m0 (kfastblock_transport_fail_mux_waiters m0 e)).
  { intros e He. split; [by apply fail_wf|by apply fail_keeps]. }
  destruct (truthy r) eqn:Hr.
  { intros E; apply (f_equal fst) in E; cbn [fst] in E; rewrite <- E. apply Hfail. by unbool. }
  destruct (kfastblock_transport_find_mux_waiter_locked _ _) as [i|] eqn:Hf;
    intros E; apply (f_equal fst) in E; cbn [fst] in E; rewrite <- E; [|by apply Hfail].
  refine (handed_over m0 _ i _ Hw0 Hf _ _); reflexivity.
Qed.

(** Closing forgets the registered waiters, and touches none of them. *)
Lemma close_effect `{Clock} now vol leader ret_ actions m vol' m' :
  is_Some (Connpool.sock (cached m)) ->
  finalize_close now vol leader ret_ actions true m = (vol', m') ->
  waiters m' = waiters m /\ mux_waiters (cached m') = [] /\ mux_inflight (cached m') = 0.
Proof.
  intros Hs. unfold finalize_close. rewrite (bool_decide_eq_true_2 _ Hs). cbn [andb].
  destruct (match leader with Some l => _ | NULL => _ end) as [v slot] eqn:Es.
  assert (exists c, slot = Some c) as [c ->].
  { destruct leader; [|injection Es as _ <-; eauto].
    destruct (has_flag _ _); cbn in Es; injection Es as _ <-; eauto. }
  intros E. apply (f_equal snd) in E; cbn [snd] in E. rewrite <- E.
  split; [done|]. cbn. by destruct (truthy _ && _).
Qed.

Lemma close_wf `{Clock} now vol leader ret_ actions same m vol' m' :
  mux_waiters (cached m) = [] -> mux_wf m ->
  finalize_close now vol leader ret_ actions same m = (vol', m') -> mux_wf m' /\ keeps_done m m'.
Proof.
  intros Hc Hw E. destruct (same && bool_decide (is_Some (Connpool.sock (cached m)))) eqn:Hs.
  - apply andb_true_iff in Hs as [-> Hs]. apply bool_decide_eq_true_1 in Hs.
    apply close_effect in E as (Ew & Em1 & Em2); [|done]. split; [|by apply same_keeps].
    apply (mux_wf_ext m); [done|by rewrite Em1| |done]. by rewrite Em2, (mw_count _ Hw), Hc.
  - unfold finalize_close in E. rewrite Hs in E. injection E as _ <-. split; [done|by apply same_keeps].
Qed.

Lemma step_wf m m' : mux_step m m' -> mux_wf m -> mux_wf m' /\ keeps_done m m'.
Proof.
  intros Hs Hw. destruct Hs as [????? m' Hb E|i sent s m r m' Hi E|????E|s m|m b m' E|????????? m' Hc E|??].
  - split; [by eapply mux_begin_wf|by eapply begin_keeps].
  - revert E. unfold exec_send. set (m0 := m <| stream := s |>).
    assert (Hw0 : mux_wf m0) by by apply (mux_wf_ext m).
    destruct (_ || _); [|destruct (truthy sent)]; intros E; apply (f_equal snd) in E; cbn [snd] in E; rewrite <- E.
    + split; [by apply unregister_wf|by apply unregister_keeps].
    + split; [by apply unregister_wf|by apply (unregister_keeps m0)].
    + split; [done|by apply same_keeps].
  - by eapply recv_round_wf.
  - split; [by apply (mux_wf_ext m)|by apply same_keeps].
  - revert E. unfold finalize_mark. destruct (_ && _); intros E; injection E as _ <-;
      (split; [by apply (mux_wf_ext m)|by apply same_keeps]).
  - by eapply close_wf.
  - split; [by apply fail_wf|by apply fail_keeps].
Qed.

Lemma steps_wf m m' : rtc mux_step m m' -> mux_wf m -> mux_wf m' /\ keeps_done m m'.
Proof.
  induction 1 as [m|m m1 m' Hs _ IH]; intros Hw; [split; [done|by apply same_keeps]|].
  destruct (step_wf _ _ Hs Hw) as [Hw1 Hk1]. destruct (IH Hw1) as [Hw2 Hk2].
  split; [done|]. intros k w Hk Hd. auto.
Qed.

(** The receiving work is some rounds of it. *)
Lemma recv_loop_steps fuel ok : forall m, rtc mux_step m (mux_recv_loop fuel ok m).
Proof.
  induction fuel as [|fuel IH]; intros m; [constructor|]. cbn [mux_recv_loop].
  destruct (mux_recv_round ok m) as [m1 more] eqn:E. apply rtc_l with m1; [by eapply step_recv|].
  destruct more; [apply IH|constructor].
Qed.

(** A round that goes on has served one waiter, so the fuel of the work is enough. *)
Lemma recv_round_progress ok m m' :
  mux_wf m -> mux_recv_round ok m = (m', true) ->
  List.length (mux_waiters (cached m)) = S (List.length (mux_waiters (cached m'))).
Proof.
  intros Hw. unfold mux_recv_round. case_match; [done|].
  destruct (kfastblock_transport_recv_raw_osd_response _ _ _) as [[r rsp] s]. destruct (truthy r); [done|].
  destruct (kfastblock_transport_find_mux_waiter_locked _ _) as [i|] eqn:Hf; [|done].
  intros E; apply (f_equal fst) in E; cbn [fst] in E; rewrite <- E. apply find_spec in Hf as [Hi _].
  by apply (list_del_spec i _ (mw_nodup _ Hw)).
Qed.

Lemma recv_loop_enough ok fuel : forall fuel' m,
  mux_wf m -> (List.length (mux_waiters (cached m)) < fuel)%nat -> (fuel <= fuel')%nat ->
  mux_recv_loop fuel' ok m = mux_recv_loop fuel ok m.
Proof.
  induction fuel as [|fuel IH]; intros [|fuel'] m Hw Hl Hle; try lia. cbn [mux_recv_loop].
  destruct (mux_recv_round ok m) as [m1 [|]] eqn:E; [|done].
  destruct (recv_round_wf _ _ _ _ Hw E) as [Hw1 _]. apply recv_round_progress in E; [|done].
  apply IH; [done|lia|lia].
Qed.

Lemma fresh_wf m : waiters m = [] -> mux_waiters (cached m) = [] -> mux_inflight (cached m) = 0 -> mux_wf m.
Proof.
  intros E1 E2 E3. split; rewrite ?E1, ?E2, ?E3; try done; [constructor|set_solver].
Qed.


(** Closing the slot empties the list of the waiters before they are failed: a
    waiter that was registered is not completed then, nor by anything that runs
    over the list later, and its worker sleeps on. *)
Theorem closing_strands_waiters `{Clock} now vol leader ret_ actions (m : mux conn) vol' m' r ok (k : nat) w :
  mux_wf m -> is_Some (Connpool.sock (cached m)) ->
  finalize_close now vol leader ret_ actions true m = (vol', m') ->
  waiters m !! k = Some w -> linked w = true ->
  done w = false /\ waiters m' !! k = Some w /\
  waiters (kfastblock_transport_fail_mux_waiters m' r) !! k = Some w /\
  kfastblock_transport_osd_mux_recv_work ok m' = m'.
Proof.
  intros Hw Hs E Hk Hl. pose proof (mw_linked _ Hw _ _ Hk Hl) as Hi.
  destruct (mw_listed _ Hw _ Hi) as (_ & x & Hx & _ & Hd). rewrite Nat2Z.id in Hx. simplify_eq.
  apply close_effect in E as (Ew & Em & En); [|done].
  split; [done|]. split; [by rewrite Ew|]. split.
  - unfold kfastblock_transport_fail_mux_waiters. rewrite Em. simpl. by rewrite Ew.
  - unfold kfastblock_transport_osd_mux_recv_work. cbn [mux_recv_loop]. unfold mux_recv_round.
    by rewrite En.
Qed.

End mux.

(** ** Every registered waiter is served *)

Section served.
Context `{Wire.StreamLaws conn} (P : conn -> Prop) (HP : Wire.delivers P).

Abbreviation frame := (Wire.kfastblock_raw_header * list Z)%type.

(** A response an OSD sends: a header that fits, of the right kind, and its body. *)
Definition osd_frame (f : frame) : Prop :=
  Wire.header_fits (fst f) /\ Wire.magic (fst f) = Wire.KFASTBLOCK_RAW_MAGIC /\
  Wire.version_major (fst f) = Wire.KFASTBLOCK_RAW_VERSION_MAJOR /\
  Wire.service (fst f) = Wire.KFASTBLOCK_RAW_SERVICE_OSD /\
  has_flag (Wire.flags (fst f)) Wire.KFASTBLOCK_RAW_FLAG_RESPONSE = true /\
  Wire.hdr_body_len (fst f) = Z.of_nat (List.length (snd f)).

Definition frame_bytes (f : frame) : list Z := Wire.header_bytes (fst f) ++ snd f.

(** The response the driver has of a frame. *)
Definition response_of (f : frame) : kfastblock_transport_response_ctx :=
  {| hdr := fst f; Wire.body := if decide (snd f = []) then NULL else Some (snd f);
     body_len := Z.of_nat (List.length (snd f)); rsp_ret := 0 |}.

(** A waiter that has been given the frame [f]. *)
Definition served_by (f : frame) (w : kfastblock_transport_mux_waiter) : kfastblock_transport_mux_waiter :=
  let e := Wire.kfastblock_transport_status_to_errno (Wire.status (fst f)) in
  w <| linked := false |> <| done := true |> <| ret := e |> <| response := response_of f <| rsp_ret := e |> |>.

Lemma recv_raw_ok (sock : conn) f rest rsp :
  P sock -> osd_frame f -> Wire.incoming sock = frame_bytes f ++ rest ->
  exists sock', kfastblock_transport_recv_raw_osd_response true (Some sock) (Some rsp)
      = (0, Some (response_of f), Some sock') /\ P sock' /\ Wire.incoming sock' = rest.
Proof using HP.
  destruct f as [h b]. unfold frame_bytes, response_of. cbn [fst snd]. rewrite <- app_assoc.
  intros Hs (Hf & H1 & H2 & H3 & H4 & Hl) Hin. cbn [fst snd] in *.
  destruct (Wire.recv_all_ok P HP sock _ _ Hs Hin) as (s1 & E1 & Hs1 & Hin1).
  rewrite Wire.length_header_bytes in E1. unfold kfastblock_transport_recv_raw_osd_response.
  rewrite E1. change (truthy 0) with false. cbv iota zeta. rewrite Wire.header_roundtrip by done.
  rewrite H1, H2, H3, H4, !Z.eqb_refl. cbn [negb]. rewrite Hl.
  destruct b as [|x b].
  { simpl in *. exists s1. by split. }
  rewrite decide_False by done. rewrite (proj2 (Z.eqb_neq _ 0)) by (simpl; lia).
  destruct (Wire.recv_all_ok P HP s1 (x :: b) rest Hs1 Hin1) as (s2 & E2 & Hs2 & Hin2).
  rewrite E2. change (truthy 0) with false. cbv iota. exists s2. by split.
Qed.

(** The sequence numbers that are waited for. *)
Definition awaited (m : mux conn) : list Z :=
  (fun i => from_option seq 0 (waiters m !! Z.to_nat i)) <$> mux_waiters (cached m).

Lemma find_awaited (m : mux conn) sq :
  mux_wf m -> sq <> 0 -> sq ∈ awaited m ->
  exists i, kfastblock_transport_find_mux_waiter_locked m sq = Some i.
Proof.
  intros Hw Hs Hi. unfold kfastblock_transport_find_mux_waiter_locked.
  rewrite (proj2 (Z.eqb_neq _ _) Hs).
  destruct (List.find _ _) as [i|] eqn:E; [by exists i|exfalso].
  apply list_elem_of_fmap in Hi as (i & Hi1 & Hi2).
  destruct (mw_listed _ Hw i Hi2) as (_ & w & Hw2 & _). rewrite Hw2 in Hi1. simpl in Hi1.
  apply list_elem_of_In in Hi2. pose proof (List.find_none _ _ E i Hi2) as Hn. cbn beta in Hn.
  rewrite Hw2 in Hn. simpl in Hn. unbool. congruence.
Qed.

(** One round serves the waiter of the next frame. *)
Lemma serve_round (m : mux conn) f rest :
  mux_wf m -> is_Some (Connpool.sock (cached m)) -> P (stream m) -> osd_frame f ->
  Wire.seq (fst f) <> 0 -> Wire.seq (fst f) ∈ awaited m ->
  Wire.incoming (stream m) = frame_bytes f ++ rest ->
  exists i w m', i ∈ mux_waiters (cached m) /\ waiters m !! Z.to_nat i = Some w /\
    seq w = Wire.seq (fst f) /\ mux_recv_round true m = (m', true) /\
    mux_waiters (cached m') = list_del i (mux_waiters (cached m)) /\
    Connpool.sock (cached m') = Connpool.sock (cached m) /\
    P (stream m') /\ Wire.incoming (stream m') = rest /\
    forall k, waiters m' !! k = if decide (Z.of_nat k = i) then served_by f <$> waiters m !! k
                                else waiters m !! k.
Proof using HP.
  intros Hw [sk Hsk] HPs Hf Hnz Ha Hin.
  destruct (recv_raw_ok (stream m) f rest zero_response HPs Hf Hin) as (s1 & E & Hs1 & Hin1).
  set (m0 := m <| stream := s1 |>).
  assert (Hw0 : mux_wf m0) by by apply (mux_wf_ext m).
  destruct (find_awaited m0 _ Hw0 Hnz Ha) as (i & Ei). pose proof Ei as Ei'.
  apply find_spec in Ei as (Hi & w & Hwi & Hsq). exists i, w.
  destruct (mw_listed _ Hw i Hi) as (Hp & _).
  assert (Hpos : (mux_inflight (cached m) =? 0) = false).
  { apply Z.eqb_neq. rewrite (mw_count _ Hw). change (i ∈ mux_waiters (cached m)) in Hi.
    destruct (mux_waiters (cached m)); [set_solver|simpl; lia]. }
  unfold mux_recv_round. rewrite Hpos, Hsk. cbn [fmap option_fmap option_map]. rewrite E.
  change (truthy 0) with false. cbv iota zeta. cbn [default hdr response_of].
  match goal with |- context [kfastblock_transport_find_mux_waiter_locked ?x ?y] =>
    change (kfastblock_transport_find_mux_waiter_locked x y)
      with (kfastblock_transport_find_mux_waiter_locked m0 (Wire.seq (fst f))) end.
  rewrite Ei'.
  eexists. split; [done|]. split; [done|]. split; [done|]. split; [reflexivity|].
  split; [done|]. split; [done|]. split; [done|]. split; [done|].
  intros k. rewrite set_waiter_twice.
  match goal with |- context [set_waiter ?j ?g ?m1] =>
    change (waiters (set_waiter j g m1) !! k = if decide (Z.of_nat k = i) then served_by f <$> waiters m !! k
                                else waiters m !! k); rewrite waiters_set by done end.
  done.
Qed.

Lemma awaited_del (m m' : mux conn) f i w fs :
  mux_wf m -> i ∈ mux_waiters (cached m) -> waiters m !! Z.to_nat i = Some w -> seq w = Wire.seq (fst f) ->
  mux_waiters (cached m') = list_del i (mux_waiters (cached m)) ->
  (forall k, waiters m' !! k = if decide (Z.of_nat k = i) then served_by f <$> waiters m !! k
                               else waiters m !! k) ->
  (fun f => Wire.seq (fst f)) <$> f :: fs ≡ₚ awaited m ->
  (fun f => Wire.seq (fst f)) <$> fs ≡ₚ awaited m'.
Proof.
  intros Hw Hi Hwi Hs Hm' Hk Hp. apply list_elem_of_split in Hi as (l1 & l2 & El).
  pose proof (mw_nodup _ Hw) as Hnd. rewrite El in Hnd. apply NoDup_app in Hnd as (_ & Hd1 & Hnd2).
  apply NoDup_cons in Hnd2 as [Hd2 _].
  assert (Hdel : list_del i (mux_waiters (cached m)) = l1 ++ l2).
  { rewrite El. unfold list_del. rewrite filter_app, filter_cons_False by tauto.
    fold (list_del i l1) (list_del i l2). rewrite !list_del_absent by set_solver. done. }
  unfold awaited in *. rewrite Hm', Hdel. rewrite El in Hp.
  rewrite fmap_app, !fmap_cons, Hwi in Hp. cbn [from_option] in Hp. rewrite Hs in Hp.
  rewrite <- Permutation_middle in Hp. apply Permutation_cons_inv in Hp. rewrite Hp, <- fmap_app.
  erewrite list_fmap_ext; [reflexivity|]. intros _ j _. cbn beta. rewrite Hk.
  destruct (decide _); [|done]. by destruct (waiters m !! Z.to_nat j).
Qed.

Lemma serve_loop fs : forall fuel (m : mux conn) rest,
  (List.length fs < fuel)%nat -> mux_wf m -> is_Some (Connpool.sock (cached m)) -> P (stream m) ->
  Forall osd_frame fs -> Forall (fun f => Wire.seq (fst f) <> 0) fs ->
  (fun f => Wire.seq (fst f)) <$> fs ≡ₚ awaited m ->
  Wire.incoming (stream m) = concat (frame_bytes <$> fs) ++ rest ->
  let m' := mux_recv_loop fuel true m in
  mux_waiters (cached m') = [] /\ Wire.incoming (stream m') = rest /\
  forall i, i ∈ mux_waiters (cached m) -> exists w f, waiters m !! Z.to_nat i = Some w /\ f ∈ fs /\
    seq w = Wire.seq (fst f) /\ waiters m' !! Z.to_nat i = Some (served_by f w).
Proof using HP.
  induction fs as [|f fs IH]; intros [|fuel] m rest Hfuel Hw Hsk HPs Hf Hz Hp Hin;
    try (simpl in Hfuel; lia); cbv zeta.
  { symmetry in Hp. apply Permutation_nil_r in Hp. unfold awaited in Hp. apply fmap_nil_inv in Hp.
    cbn [mux_recv_loop]. unfold mux_recv_round. rewrite (mw_count _ Hw), Hp. cbn.
    split; [done|]. split; [done|]. set_solver. }
  apply Forall_cons in Hf as [Hf Hfs]. apply Forall_cons in Hz as [Hz Hzs].
  rewrite fmap_cons in Hin. cbn [concat] in Hin. rewrite <- app_assoc in Hin.
  assert (Ha : Wire.seq (fst f) ∈ awaited m) by (rewrite <- Hp, fmap_cons; constructor).
  destruct (serve_round m f _ Hw Hsk HPs Hf Hz Ha Hin)
    as (i & w & m1 & Hi & Hwi & Hsq & Er & Hm1 & Hsk1 & HP1 & Hin1 & Hk1).
  destruct (recv_round_wf _ _ _ _ Hw Er) as [Hw1 _].
  cbn [mux_recv_loop]. rewrite Er.
  pose proof (awaited_del m m1 f i w fs Hw Hi Hwi Hsq Hm1 Hk1 Hp) as Hp1.
  rewrite <- Hsk1 in Hsk.
  assert (Hfuel' : (List.length fs < fuel)%nat) by (simpl in Hfuel; lia).
  destruct (IH fuel m1 rest Hfuel' Hw1 Hsk HP1 Hfs Hzs Hp1 Hin1) as (E1 & E2 & E3).
  split; [done|]. split; [done|]. intros j Hj. destruct (mw_listed _ Hw j Hj) as (Hjp & x & Hx & _).
  destruct (decide (j = i)) as [->|Hne].
  - exists w, f. split; [done|]. split; [constructor|]. split; [done|].
    destruct (steps_wf _ _ (recv_loop_steps fuel true m1) Hw1) as [_ Hkeep]. apply Hkeep; [|done].
    by rewrite Hk1, decide_True, Hwi by lia.
  - destruct (E3 j) as (w' & f' & Hw' & Hf' & Hsq' & Hserved).
    { rewrite Hm1. by apply list_del_spec; [apply (mw_nodup _ Hw)|]. }
    rewrite Hk1, decide_False in Hw' by lia.
    exists w', f'. split; [done|]. split; [by constructor|]. by split.
Qed.

(** C11: When the socket delivers one response for each registered request, in
    whatever order the OSD sends them, one run of the receiving work consumes
    exactly these bytes and gives each waiter the response with its number: the
    error number of its status, its header and its body.  No waiter is left. *)
Theorem all_waiters_served (m : mux conn) (fs : list frame) (rest : list Z) :
  mux_wf m -> is_Some (Connpool.sock (cached m)) -> P (stream m) ->
  Forall osd_frame fs -> Forall (fun f => Wire.seq (fst f) <> 0) fs ->
  (fun f => Wire.seq (fst f)) <$> fs ≡ₚ awaited m ->
  Wire.incoming (stream m) = concat (frame_bytes <$> fs) ++ rest ->
  let m' := kfastblock_transport_osd_mux_recv_work true m in
  mux_waiters (cached m') = [] /\ mux_inflight (cached m') = 0 /\ Wire.incoming (stream m') = rest /\
  forall i, i ∈ mux_waiters (cached m) -> exists w f, waiters m !! Z.to_nat i = Some w /\ f ∈ fs /\
    seq w = Wire.seq (fst f) /\ waiters m' !! Z.to_nat i = Some (served_by f w).
Proof using HP.
  intros Hw Hsk HPs Hf Hz Hp Hin. unfold kfastblock_transport_osd_mux_recv_work.
  assert (Hl : (List.length fs < S (List.length (mux_waiters (cached m))))%nat).
  { apply Permutation_length in Hp. unfold awaited in Hp. rewrite !length_fmap in Hp. lia. }
  destruct (serve_loop fs _ m rest Hl Hw Hsk HPs Hf Hz Hp Hin) as (E1 & E2 & E3). cbv zeta.
  split; [done|]. split; [|by split].
  destruct (steps_wf _ _ (recv_loop_steps (S (List.length (mux_waiters (cached m)))) true m) Hw) as [Hw' _].
  by rewrite (mw_count _ Hw'), E1.
Qed.

End served.




(** ** Concrete runs *)

Definition shared_socket (bytes : list Z) : mux (list Z) :=
  {| cached := Connpool.fresh_slot <| Connpool.sock := Some 1 |>; waiters := []; stream := bytes |}.

(** Two reads, 7 and 8, are under way; the OSD answers 8 first, and not well. *)
Definition answer_8 : Wire.kfastblock_raw_header :=
  {| Wire.magic := Wire.KFASTBLOCK_RAW_MAGIC; Wire.version_major := 1; Wire.version_minor := 0;
     Wire.service := Wire.KFASTBLOCK_RAW_SERVICE_OSD;
     Wire.opcode := Wire.KFASTBLOCK_RAW_OSD_OP_READ_OBJECT; Wire.flags := 1; Wire.seq := 8;
     Wire.status := Wire.KFASTBLOCK_RAW_STATUS_NOT_LEADER; Wire.hdr_body_len := 0 |}.

Definition both_answers : list (Wire.kfastblock_raw_header * list Z) :=
  [(answer_8, []); (Wire.small_header, [1; 2; 3; 4])].

Definition begin_read (sq : Z) (m : mux (list Z)) : mux (list Z) :=
  snd (exec_begin sq Wire.KFASTBLOCK_RAW_SERVICE_OSD Wire.KFASTBLOCK_RAW_OSD_OP_READ_OBJECT m).

Lemma begin_read_step sq m :
  Z.of_nat (List.length (mux_waiters (cached m))) + 1 < 2 ^ 32 -> mux_step m (begin_read sq m).
Proof.
  intros Hb. apply (step_begin sq Wire.KFASTBLOCK_RAW_SERVICE_OSD Wire.KFASTBLOCK_RAW_OSD_OP_READ_OBJECT m
    (fst (exec_begin sq Wire.KFASTBLOCK_RAW_SERVICE_OSD Wire.KFASTBLOCK_RAW_OSD_OP_READ_OBJECT m)) _ Hb).
  apply surjective_pairing.
Qed.

Definition two_reads (bytes : list Z) : mux (list Z) := begin_read 8 (begin_read 7 (shared_socket bytes)).

Lemma two_reads_steps bytes : rtc mux_step (shared_socket bytes) (two_reads bytes).
Proof.
  apply rtc_l with (begin_read 7 (shared_socket bytes)); [by apply begin_read_step|].
  apply rtc_l with (two_reads bytes); [by apply begin_read_step|apply rtc_refl].
Qed.

Lemma all_waiters_served_witness :
  let m' := kfastblock_transport_osd_mux_recv_work true
              (two_reads (concat (frame_bytes <$> both_answers) ++ [9])) in
  stream m' = [9] /\ mux_inflight (cached m') = 0 /\ ret <$> waiters m' = [0; - ENOLINK].
Proof.
  cbv zeta. set (bs := concat _).
  pose proof (all_waiters_served (fun _ => True) Wire.slow_delivers (two_reads (bs ++ [9])) both_answers [9])
    as Hall.
  destruct Hall as (_ & Hi & Hs & _).
  - by destruct (steps_wf _ _ (two_reads_steps (bs ++ [9]))
      (fresh_wf (shared_socket _) eq_refl eq_refl eq_refl)).
  - by exists 1.
  - exact I.
  - repeat (apply Forall_cons; split; [|]); [..|by apply Forall_nil]; (split; [|by repeat split]);
      (repeat (apply Forall2_cons; split; [by vm_compute|]); by apply Forall2_nil).
  - by repeat constructor.
  - vm_compute. constructor.
  - reflexivity.
  - split; [exact Hs|]. split; [exact Hi|]. by vm_compute.
Defined.


End Mux.
