(* ===== verification/Monitor.v ===== *)
(** * The monitor's end of the raw protocol
      (monitor/rawproto/*.go, monitor/rawserver/server.go)

    The monitor answers two requests of the driver: the description of an image
    and the cluster map of a pool.  This file holds its encoders and decoders, its
    request handlers and the loop that serves one connection.  What the handlers
    ask of the monitor's database is the interface [MonitorDb].

    A reader is the list of bytes still to come and a writer the list of bytes
    written.  [encoding/binary] with [LittleEndian] writes the fields of a
    structure one after the other, as [Wire.pack] does; writing to a
    [bytes.Buffer] never fails.  A Go map is a [gmap]; the order in which a map is
    ranged over never shows, since the keys are sorted before use.  [sort.Slice]
    is a merge sort: elements with equal keys have no defined order in Go. *)

From stdpp Require Import gmap sorting.
From S2P Require Import Prelude Meta Wire.
Import (hints) Meta Wire.

Module Monitor.
Import Wire(le, le_to_cpu, pack, unpack, size).

(** ** Messages (proto/messages.proto) *)

Record ShardCore := {
  coreid : Z;
  port : Z;
  raw_port : Z;
}.

Record OsdDynamicInfo := {
  osdid : Z;
  address : string;
  sharded_ports : gmap Z ShardCore;
  isin : bool;
  isup : bool;
}.

Record PGInfo := {
  pgid : Z;
  version : Z;
  state : Z;
  coreindex : Z;
  osdids : list Z;
}.

Record GetPgMapResponse := {
  poolid_pgmapversion : gmap Z Z;
  pgs : gmap Z (list PGInfo);
}.

(** ** Constants and headers *)

Definition Magic : Z := 0x46425257.
Definition VersionMajor : Z := 1.
Definition VersionMinor : Z := 0.
Definition ServiceMonitor : Z := 1.
Definition OpGetImageInfo : Z := 1.
Definition OpGetClusterMap : Z := 2.
Definition FlagResponse : Z := Z.shiftl 1 0.
Definition StatusOK : Z := 0.
Definition StatusInvalidRequest : Z := 1.
Definition StatusNotFound : Z := 2.
Definition StatusStaleEpoch : Z := 3.
Definition StatusInternalError : Z := 8.

Record Header := {
  HMagic : Z;
  HVersionMajor : Z;
  HVersionMinor : Z;
  HService : Z;
  HOpcode : Z;
  HFlags : Z;
  HSeq : Z;
  HStatus : Z;
  HBodyLen : Z;
}.

#[export] Instance eta_header : Eta Header := fun h =>
  {| HMagic := HMagic h; HVersionMajor := HVersionMajor h; HVersionMinor := HVersionMinor h;
     HService := HService h; HOpcode := HOpcode h; HFlags := HFlags h; HSeq := HSeq h;
     HStatus := HStatus h; HBodyLen := HBodyLen h |}.

(** The widths of the fields, in order. *)
Definition Header_widths : list nat := [4; 1; 1; 1; 1; 4; 8; 4; 4]%nat.

Definition Header_values (h : Header) : list Z :=
  [HMagic h; HVersionMajor h; HVersionMinor h; HService h; HOpcode h; HFlags h; HSeq h;
   HStatus h; HBodyLen h].

Definition Header_of_values (l : list Z) : Header :=
  {| HMagic := nth 0 l 0; HVersionMajor := nth 1 l 0; HVersionMinor := nth 2 l 0;
     HService := nth 3 l 0; HOpcode := nth 4 l 0; HFlags := nth 5 l 0; HSeq := nth 6 l 0;
     HStatus := nth 7 l 0; HBodyLen := nth 8 l 0 |}.

(** [io.ReadFull]: the bytes read and the reader afterwards, or an error. *)
Definition ReadFull (r : list Z) (n : Z) : option (list Z * list Z) :=
  if Z.of_nat (List.length r) <? n then None
  else Some (take (Z.to_nat n) r, drop (Z.to_nat n) r).

(** [binary.Read] of a structure. *)
Definition binary_Read (widths : list nat) (r : list Z) : option (list Z * list Z) :=
  '(bs, r) ← ReadFull r (size widths); Some (unpack widths bs, r).

Definition ReadHeader (r : list Z) : option (Header * list Z) :=
  '(l, r) ← binary_Read Header_widths r; Some (Header_of_values l, r).

Definition ReadBody (r : list Z) (bodyLen : Z) : option (list Z * list Z) :=
  if bodyLen =? 0 then Some ([], r) else ReadFull r bodyLen.

(** The bytes written. *)
Definition WriteMessage (hdr : Header) (body : list Z) : list Z :=
  let hdr := hdr <| HBodyLen := u32 (Z.of_nat (List.length body)) |> in
  pack Header_widths (Header_values hdr) ++ body.

(** [None] is no error. *)
Definition ValidateRequestHeader (hdr : ptr Header) : option string :=
  match hdr with
  | NULL => Some "nil header"%string
  | Some h =>
      if negb (HMagic h =? Magic) then Some "invalid magic"%string
      else if negb (HVersionMajor h =? VersionMajor) then Some "unsupported version"%string
      else if negb (HService h =? ServiceMonitor) then Some "invalid service"%string
      else if has_flag (HFlags h) FlagResponse then Some "unexpected response flag"%string
      else None
  end.

Definition MakeResponseHeader (req : Header) (status : Z) : Header :=
  {| HMagic := Magic; HVersionMajor := VersionMajor; HVersionMinor := VersionMinor;
     HService := ServiceMonitor; HOpcode := HOpcode req; HFlags := FlagResponse;
     HSeq := HSeq req; HStatus := status; HBodyLen := 0 |}.

Definition ErrorStatus (err : option string) : Z :=
  match err with None => StatusOK | Some _ => StatusInternalError end.

Definition WriteErrorResponse (req : Header) (status : Z) : list Z :=
  WriteMessage (MakeResponseHeader req status) [].

(** ** Requests *)

Record GetImageInfoRequest := {
  ImageEpoch : Z;
  PoolName : list Z;
  ImageName : list Z;
}.

(** A Go string is its bytes. *)
Definition DecodeGetImageInfoRequest (body : list Z) : option GetImageInfoRequest :=
  '(imageEpoch, r) ← binary_Read [8]%nat body;
  '(poolNameLen, r) ← binary_Read [2]%nat r;
  '(imageNameLen, r) ← binary_Read [2]%nat r;
  let poolNameLen := nth 0 poolNameLen 0 in
  let imageNameLen := nth 0 imageNameLen 0 in
  if negb (Z.of_nat (List.length r) =? poolNameLen + imageNameLen) then None
  else
    '(poolName, r) ← ReadFull r poolNameLen;
    '(imageName, r) ← ReadFull r imageNameLen;
    Some {| ImageEpoch := nth 0 imageEpoch 0; PoolName := poolName; ImageName := imageName |}.

Record GetClusterMapRequest := {
  OSDMapEpoch : Z;
  PoolID : Z;
  Reserved : Z;
  PGMapEpoch : Z;
}.

Definition DecodeGetClusterMapRequest (body : list Z) : option GetClusterMapRequest :=
  '(l, r) ← binary_Read [8; 4; 4; 8]%nat body;
  if negb (Z.of_nat (List.length r) =? 0) then None
  else Some {| OSDMapEpoch := nth 0 l 0; PoolID := nth 1 l 0; Reserved := nth 2 l 0;
               PGMapEpoch := nth 3 l 0 |}.

(** ** Responses *)

Definition response_header (op seq status : Z) : Header :=
  {| HMagic := Magic; HVersionMajor := VersionMajor; HVersionMinor := VersionMinor;
     HService := ServiceMonitor; HOpcode := op; HFlags := FlagResponse; HSeq := seq;
     HStatus := status; HBodyLen := 0 |}.

Definition EncodeGetImageInfoResponse (seq status imageEpoch poolID blockSize objectSize flags
    sizeBytes : Z) : Header * list Z :=
  (response_header OpGetImageInfo seq status,
   pack [8; 4; 4; 4; 4; 8]%nat [imageEpoch; poolID; blockSize; objectSize; flags; sizeBytes]).

Definition clusterMapResponseHeader : list nat := [8; 8; 4; 4]%nat.
Definition osdEntryHeader : list nat := [4; 4; 2; 2]%nat.
Definition osdShardEntry : list nat := [4; 2; 2]%nat.
Definition pgEntryHeader : list nat := [4; 4; 8; 4; 4; 4]%nat.

(** [sort.Slice(l, func(i, j int) bool { return key(l[i]) < key(l[j]) })] *)
Definition key_le {A} (key : A -> Z) (x y : A) : Prop := key x <= key y.

#[export] Instance key_le_dec {A} (key : A -> Z) : RelDecision (key_le key) :=
  fun x y => Z_le_dec (key x) (key y).

Definition sort_by {A} (key : A -> Z) (l : list A) : list A := merge_sort (key_le key) l.

(** The keys of a map, sorted. *)
Definition sorted_keys {A} (m : gmap Z A) : list Z := sort_by id (map_to_list m).*1.

Definition encodeShard (shards : gmap Z ShardCore) (shardID : Z) : list Z :=
  match shards !! shardID with
  | Some core =>
      let port := if raw_port core =? 0 then port core else raw_port core in
      pack osdShardEntry [shardID; u16 port; u16 (coreid core)]
  | None => []
  end.

(** The bytes appended to the body. *)
Definition encodeOSDEntry (osdInfo : OsdDynamicInfo) : list Z :=
  let flags := if isin osdInfo then Z.lor 0 (Z.shiftl 1 0) else 0 in
  let flags := if isup osdInfo then Z.lor flags (Z.shiftl 1 1) else flags in
  let shards := sharded_ports osdInfo in
  let shardIDs := sorted_keys shards in
  let addr := bytes_of_string (address osdInfo) in
  pack osdEntryHeader [u32 (osdid osdInfo); flags; u16 (Z.of_nat (List.length addr));
                       u16 (Z.of_nat (List.length shardIDs))]
  ++ addr ++ concat (encodeShard shards <$> shardIDs).

Definition encodePG (poolID : Z) (pg : PGInfo) : list Z :=
  pack pgEntryHeader [u32 poolID; u32 (pgid pg); u64 (version pg); u32 (state pg); coreindex pg;
                      u32 (Z.of_nat (List.length (osdids pg)))]
  ++ concat ((fun osdID => le 4 (u32 osdID)) <$> osdids pg).

Definition encodePGEntries (pgResp : GetPgMapResponse) : list Z :=
  concat ((fun poolID =>
    concat (encodePG poolID <$> sort_by pgid (default [] (pgs pgResp !! poolID))))
    <$> sorted_keys (pgs pgResp)).

(** [pgCount += uint32(len(infos.GetPi()))] over the pools. *)
Definition count_pgs (pgResp : ptr GetPgMapResponse) : Z :=
  match pgResp with
  | NULL => 0
  | Some r => foldl (fun n p => u32 (n + u32 (Z.of_nat (List.length p)))) 0 (map_to_list (pgs r)).*2
  end.

Definition EncodeGetClusterMapResponse (seq status osdMapEpoch pgMapEpoch : Z)
    (osds : list OsdDynamicInfo) (pgResp : ptr GetPgMapResponse) : Header * list Z :=
  (response_header OpGetClusterMap seq status,
   pack clusterMapResponseHeader [osdMapEpoch; pgMapEpoch; u32 (Z.of_nat (List.length osds));
                                  count_pgs pgResp]
   ++ concat (encodeOSDEntry <$> sort_by osdid osds)
   ++ from_option encodePGEntries [] pgResp).

(** ** The request handlers *)

(** An image as the monitor stores it (monitor/osd/image.go). *)
Record ImageConfig := {
  ImageID : Z;
  Imagename : string;
  Poolname : string;
  Imagesize : Z;
  Objectsize : Z;
}.

(** What the handlers ask of package [osd]. *)
Class MonitorDb := {
  (** [ProcessGetImageMessage]: the image, when the code is [getImageOk]. *)
  ProcessGetImageMessage : list Z -> list Z -> option ImageConfig;
  GetPoolIDByName : string -> option Z;
  GetImageEpoch : ImageConfig -> Z;
  GetOSDMapVersion : Z;
  GetPoolPGMapVersion : Z -> option Z;
  (** [None] is an error. *)
  ProcessGetPgMapMessage : gmap Z Z -> option GetPgMapResponse;
  (** The OSDs, the version and whether the code is [ok] or [noOsdsExist]. *)
  ProcessGetOsdMapMessage : Z -> Z -> list OsdDynamicInfo * Z * bool;
}.

Section server.
Context `{MonitorDb}.

(** The bytes written to the connection. *)
Definition handleGetImageInfo (hdr : Header) (body : list Z) : list Z :=
  match DecodeGetImageInfoRequest body with
  | None => WriteErrorResponse hdr StatusInvalidRequest
  | Some req =>
      match ProcessGetImageMessage (ImageName req) (PoolName req) with
      | None =>
          let '(rspHdr, rspBody) :=
            EncodeGetImageInfoResponse (HSeq hdr) StatusNotFound 0 0 4096 0 0 0 in
          WriteMessage rspHdr rspBody
      | Some imageInfo =>
          match GetPoolIDByName (Poolname imageInfo) with
          | None => WriteErrorResponse hdr StatusInternalError
          | Some poolID =>
              let imageEpoch := GetImageEpoch imageInfo in
              if negb (ImageEpoch req =? 0) && (ImageEpoch req =? imageEpoch)
              then WriteErrorResponse hdr StatusStaleEpoch
              else
                let '(rspHdr, rspBody) :=
                  EncodeGetImageInfoResponse (HSeq hdr) StatusOK imageEpoch (u32 poolID) 4096
                    (u32 (Objectsize imageInfo)) 0 (u64 (Imagesize imageInfo)) in
                WriteMessage rspHdr rspBody
          end
      end
  end.

Definition maxPGMapVersion (pgResp : ptr GetPgMapResponse) : Z :=
  match pgResp with
  | NULL => 0
  | Some r => foldl (fun m v => if m <? v then v else m) 0 (map_to_list (poolid_pgmapversion r)).*2
  end.

Definition handleGetClusterMap (hdr : Header) (body : list Z) : list Z :=
  match DecodeGetClusterMapRequest body with
  | None => WriteErrorResponse hdr StatusInvalidRequest
  | Some req =>
      if PoolID req =? 0 then WriteErrorResponse hdr StatusInvalidRequest
      else
        let currentOSDMapVersion := GetOSDMapVersion in
        match GetPoolPGMapVersion (s32 (PoolID req)) with
        | None => WriteErrorResponse hdr StatusNotFound
        | Some currentPGMapVersion =>
            if (s64 (OSDMapEpoch req) =? currentOSDMapVersion)
               && (s64 (PGMapEpoch req) =? currentPGMapVersion)
            then WriteErrorResponse hdr StatusStaleEpoch
            else
              match ProcessGetPgMapMessage {[ s32 (PoolID req) := -1 ]} with
              | None => WriteErrorResponse hdr StatusInternalError
              | Some pgResp =>
                  let '(osds, osdMapVersion, rc_ok) := ProcessGetOsdMapMessage (-1) 0 in
                  let status := if rc_ok then StatusOK else StatusInternalError in
                  let pgMapVersion := maxPGMapVersion (Some pgResp) in
                  let '(rspHdr, rspBody) :=
                    EncodeGetClusterMapResponse (HSeq hdr) status (u64 osdMapVersion)
                      (u64 pgMapVersion) osds (Some pgResp) in
                  WriteMessage rspHdr rspBody
              end
        end
  end.

(** The handlers only fail when writing to the connection does. *)
Definition handleRequest (hdr : Header) (body : list Z) : list Z :=
  if HOpcode hdr =? OpGetImageInfo then handleGetImageInfo hdr body
  else if HOpcode hdr =? OpGetClusterMap then handleGetClusterMap hdr body
  else WriteErrorResponse hdr StatusInvalidRequest.

(** The loop that serves a connection: all that is written in answer to the bytes
    [r].  Each round consumes a header, so the number of bytes is enough fuel. *)
Fixpoint serve (fuel : nat) (r : list Z) : list Z :=
  match fuel with
  | O => []
  | S fuel =>
      match ReadHeader r with
      | None => []
      | Some (hdr, r) =>
          match ReadBody r (HBodyLen hdr) with
          | None => []
          | Some (body, r) =>
              match ValidateRequestHeader (Some hdr) with
              | Some _ => WriteErrorResponse hdr StatusInvalidRequest
              | None => handleRequest hdr body
              end
              ++ serve fuel r
          end
      end
  end.

Definition handleConnection (r : list Z) : list Z := serve (List.length r) r.

End server.

End Monitor.
