(* ===== verification/Placement.v ===== *)
(** * Placement of the groups of a new pool (monitor/osd/topology.go, calculator.go)

    The monitor builds a tree of the OSDs that may be used, cuts it into failure
    domains, and gives every placement group of a new pool one OSD in each of some
    distinct domains.

    A Go function that may panic, or that loops until chance helps, returns a [go].
    The order in which a map is run over and random numbers are parameters. *)

From stdpp Require Import gmap list strings pretty sorting.
From S2P Require Import Prelude.

Module Placement.

(** ** Go *)

Inductive go (A : Type) := Ret (a : A) | Panic | OutOfFuel.
Arguments Ret {A} a.
Arguments Panic {A}.
Arguments OutOfFuel {A}.

#[export] Instance go_ret : MRet go := fun A a => Ret a.
#[export] Instance go_bind : MBind go := fun A B f m => match m with Ret a => f a | Panic => Panic | OutOfFuel => OutOfFuel end.

(** Elements of a slice. *)
Definition at_index {A} (array : list A) (i : Z) : go A :=
  if i <? 0 then Panic else match array !! Z.to_nat i with Some x => Ret x | None => Panic end.

Definition set_index {A} (array : list A) (i : Z) (v : A) : go (list A) :=
  if (i <? 0) || (Z.of_nat (List.length array) <=? i) then Panic else Ret (<[Z.to_nat i := v]> array).

(** A loop over the elements of a list. *)
Definition for_each {A B} (f : B -> A -> go A) (l : list B) (a : A) : go A :=
  foldl (fun a x => a ≫= f x) (Ret a) l.

(** ** Topology *)

Abbreviation Level := string.

Definition IsOSD (level : Level) : bool := bool_decide (level = "osd"%string).

(** The children of a bucket are a map. *)
Inductive BucketTreeNode := Bucket (BucketName : string) (level : Level) (ChildNode : list (string * BucketTreeNode)).

Definition BucketName (b : BucketTreeNode) : string := let '(Bucket n _ _) := b in n.
Definition level_of (b : BucketTreeNode) : Level := let '(Bucket _ l _) := b in l.
Definition ChildNode (b : BucketTreeNode) : list (string * BucketTreeNode) := let '(Bucket _ _ c) := b in c.

Record BucketConfig := { Name : string; ParentName : string; bucket_level : Level }.

Record ShardPort := { Coreid : Z; Port : Z; RawPort : Z }.

Record OSDInfo := {
  Osdid : Z;
  Address : string;
  Uuid : string;
  Host : string;
  ShardedPorts : gmap Z ShardPort;
  Size : Z;
  IsIn : bool;
  IsUp : bool;
  IsPendingCreate : bool;
  CoreNum : Z;
  Config : string;
}.

#[export] Instance eta_osd : Eta OSDInfo := fun o =>
  {| Osdid := Osdid o; Address := Address o; Uuid := Uuid o; Host := Host o; ShardedPorts := ShardedPorts o; Size := Size o;
     IsIn := IsIn o; IsUp := IsUp o; IsPendingCreate := IsPendingCreate o; CoreNum := CoreNum o; Config := Config o |}.

(** The weight of an OSD is its size in GiB. *)
Record OSDTreeNode := { node_osdid : Z; node_size : Z; node_cores : Z }.

Abbreviation tree_map := (gmap Level (gmap string BucketTreeNode)).

(** [OSDID.String] *)
Definition String_of (id : Z) : string := pretty (u64 id).

Section topology.

(** The order in which the [n]-th loop runs over a map. *)
Context (shuffle : forall A : Type, nat -> list A -> list A).
Arguments shuffle {A}.

Definition add_child (name : string) (child : BucketTreeNode) (b : BucketTreeNode) : BucketTreeNode :=
  let '(Bucket n l c) := b in Bucket n l (filter (fun p => p.1 <> name) c ++ [(name, child)]).

(** A child goes under a parent, which is made when it is not there. *)
Definition add_under (parent : string) (level : Level) (name : string) (child : BucketTreeNode)
    (m : gmap string BucketTreeNode) : gmap string BucketTreeNode :=
  <[parent := add_child name child (default (Bucket parent level []) (m !! parent))]> m.

Definition addOSDToHostTree (osdID : Z) (osdState : OSDInfo)
    (s : gmap string BucketTreeNode * gmap string BucketTreeNode * gmap string OSDTreeNode) :=
  let '(hostTreeMap, osdTreeMap, osdNodeMap) := s in
  let osdIDString := String_of osdID in
  let osdBucketNode := Bucket osdIDString "osd" [] in
  (add_under (Host osdState) "host" osdIDString osdBucketNode hostTreeMap,
   <[osdIDString := osdBucketNode]> osdTreeMap,
   <[osdIDString := {| node_osdid := osdID; node_size := Size osdState; node_cores := CoreNum osdState |}]> osdNodeMap).

(** The buckets of a level that have children, under their parents. *)
Definition parents_of (child_level parent_level : Level) (configs : list (string * BucketConfig))
    (children : gmap string BucketTreeNode) : gmap string BucketTreeNode :=
  foldl (fun m '(_, c) =>
           if decide (bucket_level c = child_level) then
             match children !! Name c with
             | Some b => add_under (ParentName c) parent_level (Name c) b m
             | None => m
             end
           else m) ∅ configs.

(** [NULL]: no OSD state. *)
Definition GetOSDTree (onlyUp onlyIn : bool) (Osdinfo : ptr (gmap Z OSDInfo))
    (AllHostsMap AllRacksMap : ptr (gmap string BucketConfig)) : ptr (tree_map * gmap string OSDTreeNode) :=
  osds ← Osdinfo;
  let '(hosts, osdTree, nodes) :=
    foldl (fun s '(osdID, osdState) =>
             if negb (IsUp osdState) && onlyUp then s
             else if negb (IsIn osdState) && onlyIn then s
             else addOSDToHostTree osdID osdState s) (∅, ∅, ∅) (shuffle 0 (map_to_list osds)) in
  let all : tree_map := <["osd" := osdTree]> (<["host" := hosts]> ∅) in
  let all :=
    match AllHostsMap with
    | None => all
    | Some AllHostsMap =>
        let racks := parents_of "host" "rack" (shuffle 1 (map_to_list AllHostsMap)) hosts in
        let all := if decide (racks = ∅) then all else <["rack" := racks]> all in
        match AllRacksMap with
        | None => all
        | Some AllRacksMap =>
            let roots := parents_of "rack" "root" (shuffle 2 (map_to_list AllRacksMap)) racks in
            if decide (roots = ∅) then all else <["root" := roots]> all
        end
    end in
  Some (all, nodes).

Definition GetFailureDomainNum (treeMap : tree_map) (failureDomain : string) : Z :=
  from_option (fun m => Z.of_nat (base.size m)) 0 (treeMap !! failureDomain).

(** ** Failure domains *)

Record TreeNode := { OSDID : Z; Weight : Z; CoreNUm : Z }.
Record DomainNode := { DomainName : string; domain_children : list TreeNode }.

(** The children of a bucket are listed in the order in which a loop runs over them;
    what the loops collect is a map, or is sorted. *)
Fixpoint poolRootTraversal (failureDomain : string) (poolRoot : BucketTreeNode) (tree : gmap string BucketTreeNode)
    : gmap string BucketTreeNode :=
  let '(Bucket n l cs) := poolRoot in
  if decide (l = failureDomain) then <[n := poolRoot]> tree
  else foldl (fun tree '(_, child) => poolRootTraversal failureDomain child tree) tree cs.

Fixpoint addOSDNode (osdNodeMap : gmap string OSDTreeNode) (root : BucketTreeNode) (s : list TreeNode * gmap Z TreeNode)
    : list TreeNode * gmap Z TreeNode :=
  let '(Bucket n l cs) := root in
  if IsOSD l then
    match osdNodeMap !! n with
    | None => s
    | Some osd =>
        let treeNode := {| OSDID := node_osdid osd; Weight := node_size osd; CoreNUm := node_cores osd |} in
        (s.1 ++ [treeNode], <[OSDID treeNode := treeNode]> s.2)
    end
  else foldl (fun s '(_, child) => addOSDNode osdNodeMap child s) s cs.

(** The comparison of weights is one of floating point numbers. *)
Context (weight_less : Z -> Z -> bool).

Definition node_less (n1 n2 : TreeNode) : bool :=
  if weight_less (Weight n1) (Weight n2) || weight_less (Weight n2) (Weight n1)
  then weight_less (Weight n1) (Weight n2) else OSDID n1 <? OSDID n2.

Fixpoint insert_by {A} (less : A -> A -> bool) (x : A) (l : list A) : list A :=
  match l with
  | [] => [x]
  | y :: l' => if less y x then y :: insert_by less x l' else x :: l
  end.

Definition sort_by {A} (less : A -> A -> bool) (l : list A) : list A := foldr (insert_by less) [] l.

Definition find_root (treeMap : tree_map) (failureDomain poolRoot : string) (l : Level) : option (gmap string BucketTreeNode) :=
  m ← treeMap !! l; b ← m !! poolRoot; Some (poolRootTraversal failureDomain b ∅).

(** The sum of the weights and the uniform weights, which nothing uses, are left out. *)
Definition FlattenTree (treeMap : tree_map) (osdNodeMap : gmap string OSDTreeNode) (failureDomain poolRoot : string)
    (poolRootEnable : bool) : ptr (list DomainNode * gmap Z TreeNode) :=
  if decide (failureDomain = ""%string) then NULL
  else
    let tree :=
      if negb poolRootEnable then treeMap !! failureDomain
      else
        match find_root treeMap failureDomain poolRoot "host" with
        | Some t => Some t
        | None =>
            match find_root treeMap failureDomain poolRoot "rack" with
            | Some t => Some t
            | None =>
                match find_root treeMap failureDomain poolRoot "root" with
                | Some t => Some t
                | None => treeMap !! failureDomain
                end
            end
        end in
    tree ← tree;
    if decide (tree = ∅) then NULL
    else
      let '(domainTree, osdInfoMap) :=
        foldl (fun '(d, m) '(id, root) =>
                 let '(children, m) := addOSDNode osdNodeMap root ([], m) in
                 (d ++ [{| DomainName := id; domain_children := sort_by node_less children |}], m))
          ([], ∅) (shuffle 3 (map_to_list tree)) in
      Some (sort_by (fun a b => String.ltb (DomainName a) (DomainName b)) domainTree, osdInfoMap).

Definition getEffectivePGSize (pgSize domainNum : Z) : Z :=
  if domainNum * 2 <? pgSize then 0 else if pgSize <=? domainNum then pgSize else domainNum.

End topology.

(** ** Groups *)

Definition PgCreating : Z := 1.
Definition PgActive : Z := 2.
Definition PgUndersize : Z := 4.
Definition PgDown : Z := 8.
Definition PgRemapped : Z := 16.

Record PGConfig := {
  Version : Z;
  PgState : Z;
  CoreIndex : Z;
  OsdList : list Z;
  NewCoreIndex : Z;
  NewOsdList : list Z;
}.

#[export] Instance eta_pg : Eta PGConfig := fun p =>
  {| Version := Version p; PgState := PgState p; CoreIndex := CoreIndex p; OsdList := OsdList p;
     NewCoreIndex := NewCoreIndex p; NewOsdList := NewOsdList p |}.

Definition clear_bits (s b : Z) : Z := Z.ldiff s b.

Definition SetPgState (state : Z) (pg : PGConfig) : PGConfig :=
  if state =? PgCreating then pg <| PgState ::= fun s => Z.lor (clear_bits (clear_bits s PgActive) PgRemapped) state |>
  else if state =? PgActive then pg <| PgState := state |>
  else if state =? PgUndersize then pg <| PgState ::= fun s => Z.lor (clear_bits (clear_bits s PgActive) PgDown) state |>
  else if state =? PgDown then pg <| PgState ::= fun s => Z.lor (clear_bits (clear_bits s PgActive) PgUndersize) state |>
  else if state =? PgRemapped then pg <| PgState ::= fun s => Z.lor (clear_bits (clear_bits s PgActive) PgCreating) state |>
  else pg.

Definition one_state (state : Z) : bool :=
  (state =? PgCreating) || (state =? PgActive) || (state =? PgUndersize) || (state =? PgDown) || (state =? PgRemapped).

Definition UnsetPgState (state : Z) (pg : PGConfig) : PGConfig :=
  if one_state state then pg <| PgState ::= fun s => clear_bits s state |> else pg.

Definition PgInState (state : Z) (pg : PGConfig) : bool :=
  if one_state state then negb (Z.land (PgState pg) state =? 0) else false.

(** How many OSDs of a list are up. *)
Definition up_num (osds : gmap Z OSDInfo) (osdList : list Z) : Z :=
  count_if (fun id => match osds !! id with Some o => IsUp o | None => false end) osdList.

Definition CheckPgState (osds : gmap Z OSDInfo) (osdList : list Z) (pgSize : Z) : Z :=
  let upNum := up_num osds osdList in
  if (Z.quot pgSize 2 <? upNum) && (upNum <? pgSize) then PgUndersize
  else if upNum <=? Z.quot pgSize 2 then PgDown
  else 0.

(** The second list may repeat elements of the first. *)
Definition Compare_arry (arr1 arr2 : list Z) : bool :=
  if negb (Z.of_nat (List.length arr1) =? Z.of_nat (List.length arr2)) then false
  else forallb (fun val => bool_decide (val ∈ arr1)) arr2.

(** ** The initial placement *)

Definition range_end {A} (array : list A) (end_ : Z) : Z :=
  let len := Z.of_nat (List.length array) in
  if end_ <? 0 then len else Z.min len end_.

Definition holds_at (array : list Z) (val i : Z) : bool := bool_decide (array !! Z.to_nat i = Some val).

Definition contains (array : list Z) (val begin_ end_ : Z) : bool :=
  existsb (holds_at array val) (seqZ begin_ (range_end array end_ - begin_)).

Definition find (array : list Z) (val begin_ end_ : Z) : Z :=
  default (-1) (List.find (holds_at array val) (seqZ begin_ (range_end array end_ - begin_))).

Definition MaxInt32 : Z := 2147483647.

Record top3 := { min_num : Z; min_index : Z; second_min_num : Z; second_min_index : Z; third_min_num : Z; third_min_index : Z }.

Definition top3_step (t : top3) (x : Z * Z) : top3 :=
  let '(i, v) := x in
  if v <? min_num t then
    {| min_num := v; min_index := i; second_min_num := min_num t; second_min_index := min_index t;
       third_min_num := second_min_num t; third_min_index := second_min_index t |}
  else if (min_num t <=? v) && (v <? second_min_num t) then
    {| min_num := min_num t; min_index := min_index t; second_min_num := v; second_min_index := i;
       third_min_num := second_min_num t; third_min_index := second_min_index t |}
  else if (second_min_num t <=? v) && (v <? third_min_num t) then
    {| min_num := min_num t; min_index := min_index t; second_min_num := second_min_num t; second_min_index := second_min_index t;
       third_min_num := v; third_min_index := i |}
  else t.

Definition indexed (array : list Z) : list (Z * Z) := zip (seqZ 0 (Z.of_nat (List.length array))) array.

Definition top3_min_index (array : list Z) : Z * Z * Z :=
  let t := foldl top3_step {| min_num := MaxInt32; min_index := -1; second_min_num := MaxInt32; second_min_index := -1;
                              third_min_num := MaxInt32; third_min_index := -1 |} (indexed array) in
  (min_index t, second_min_index t, third_min_index t).

Definition max_index (array : list Z) : Z :=
  (foldl (fun '(max_num, index) '(i, v) => if max_num <? v then (v, i) else (max_num, index)) (- 2147483648, -1) (indexed array)).2.

(** One member of a group moves to another host. *)
Definition move_one (pg : list Z) (idx max_host host : Z) (pg_num_on_host : list Z) : go (bool * list Z * list Z) :=
  pg ← set_index pg idx host;
  n ← at_index pg_num_on_host max_host;
  pg_num_on_host ← set_index pg_num_on_host max_host (n - 1);
  n ← at_index pg_num_on_host host;
  pg_num_on_host ← set_index pg_num_on_host host (n + 1);
  Ret (true, pg, pg_num_on_host).

Definition transfer_one (pg : list Z) (max_host min_host second_min_host third_min_host : Z) (pg_num_on_host : list Z)
    : go (bool * list Z * list Z) :=
  let idx := find pg max_host 1 (-1) in
  if negb (contains pg min_host 0 (-1)) then move_one pg idx max_host min_host pg_num_on_host
  else if negb (contains pg second_min_host 0 (-1)) then move_one pg idx max_host second_min_host pg_num_on_host
  else if negb (contains pg third_min_host 0 (-1)) then move_one pg idx max_host third_min_host pg_num_on_host
  else Ret (false, pg, pg_num_on_host).

Section initial.

(** The [n]-th results of [rand.Intn] and [rand.Perm]. *)
Context (Intn : nat -> Z -> Z) (Perm : nat -> Z -> list Z).

(** [div] rounds of all candidates, then some of them at random. *)
Definition getRandIndex (candidate need : Z) : go (list Z) :=
  if (need <? 0) || (candidate =? 0) then Panic
  else
    let div := Z.quot need candidate in
    let remain := need - div * candidate in
    Ret (concat (replicate (Z.to_nat div) (seqZ 0 candidate)) ++ take (Z.to_nat remain) (Perm 0 candidate)).

(** Random hosts until one is not among the first [j] of the group; also the number of
    the next draw. *)
Fixpoint draw_host (fuel : nat) (seed : nat) (host_count : Z) (pg : list Z) (j : Z) : go (Z * nat) :=
  match fuel with
  | O => OutOfFuel
  | S fuel =>
      let rand_idx := Intn seed host_count in
      if negb (contains pg rand_idx 0 j) then Ret (rand_idx, S seed) else draw_host fuel (S seed) host_count pg j
  end.

Definition draw_pg (fuel : nat) (host_count pg_size : Z) (pg : list Z) (seed : nat) : go (list Z * nat) :=
  for_each (fun j '(pg, seed) =>
              r ← draw_host fuel seed host_count pg j;
              pg ← set_index pg j (fst r);
              Ret (pg, snd r)) (seqZ 1 (pg_size - 1)) (pg, seed).

(** Step 1: the hosts of every group. *)
Definition first_hosts (pg_size : Z) (leader_host_idx : list Z) (pg_count : Z) : go (list (list Z)) :=
  for_each (fun i a => h ← at_index leader_host_idx i; pg ← set_index (replicate (Z.to_nat pg_size) (-1)) 0 h; Ret (a ++ [pg]))
    (seqZ 0 pg_count) [].

Definition draw_pgs (fuel : nat) (host_count pg_size : Z) (pgs : list (list Z)) : go (list (list Z)) :=
  r ← for_each (fun pg '(a, seed) => r ← draw_pg fuel host_count pg_size pg seed; Ret (a ++ [fst r], snd r)) pgs ([], 0%nat);
  Ret (fst r).

(** How many groups, and which ones, every host has. *)
Definition count_pg (i : Z) (pg : list Z) (s : list Z * gmap Z (list Z)) : go (list Z * gmap Z (list Z)) :=
  for_each (fun host_idx '(pg_num_on_host, pg_on_host_map) =>
              n ← at_index pg_num_on_host host_idx;
              pg_num_on_host ← set_index pg_num_on_host host_idx (n + 1);
              Ret (pg_num_on_host, <[host_idx := default [] (pg_on_host_map !! host_idx) ++ [i]]> pg_on_host_map)) pg s.

Definition count_pgs (host_count : Z) (pg_host_array : list (list Z)) : go (list Z * gmap Z (list Z)) :=
  for_each (fun i s => pg ← at_index pg_host_array i; count_pg i pg s)
    (seqZ 0 (Z.of_nat (List.length pg_host_array))) (replicate (Z.to_nat host_count) 0, ∅).

(** Step 2: the first group of a host that can be moved is. *)
Fixpoint move_from (pg_ids : list Z) (max_host min_host second_min_host third_min_host : Z)
    (pg_host_array : list (list Z)) (pg_num_on_host : list Z) : go (bool * list (list Z) * list Z) :=
  match pg_ids with
  | [] => Ret (false, pg_host_array, pg_num_on_host)
  | pg_id :: pg_ids =>
      pg ← at_index pg_host_array pg_id;
      if contains pg max_host 1 (-1) then
        r ← transfer_one pg max_host min_host second_min_host third_min_host pg_num_on_host;
        let '(moved, pg, pg_num_on_host) := r in
        pg_host_array ← set_index pg_host_array pg_id pg;
        if moved : bool then Ret (true, pg_host_array, pg_num_on_host)
        else move_from pg_ids max_host min_host second_min_host third_min_host pg_host_array pg_num_on_host
      else move_from pg_ids max_host min_host second_min_host third_min_host pg_host_array pg_num_on_host
  end.

Fixpoint balance_hosts (loops : nat) (pg_per_host : Z) (pg_on_host_map : gmap Z (list Z)) (pg_host_array : list (list Z))
    (pg_num_on_host : list Z) : go (list (list Z) * list Z) :=
  match loops with
  | O => Ret (pg_host_array, pg_num_on_host)
  | S loops =>
      let max_host := max_index pg_num_on_host in
      let '(min_host, second_min_host, third_min_host) := top3_min_index pg_num_on_host in
      least ← at_index pg_num_on_host min_host;
      most ← at_index pg_num_on_host max_host;
      if (least <? pg_per_host) || (pg_per_host + 1 <? most) then
        r ← move_from (default [] (pg_on_host_map !! max_host)) max_host min_host second_min_host third_min_host
              pg_host_array pg_num_on_host;
        let '(moved, pg_host_array, pg_num_on_host) := r in
        if moved : bool then balance_hosts loops pg_per_host pg_on_host_map pg_host_array pg_num_on_host
        else Ret (pg_host_array, pg_num_on_host)
      else Ret (pg_host_array, pg_num_on_host)
  end.

(** Step 3: the cores of the OSDs of a host, by the number of groups they have. *)
Record osdCore := { osdid : Z; coreid : Z; pgnum : Z }.

Definition host_cores (coreNum : Z) (d : DomainNode) : list osdCore :=
  c ← seqZ 0 coreNum;
  tree_node ← domain_children d;
  if coreNum =? CoreNUm tree_node then [{| osdid := OSDID tree_node; coreid := c; pgnum := 0 |}] else [].

(** An element that has one more group goes behind those that do not have more; [rest] is what
    follows it. *)
Fixpoint sortOsdList (osd : osdCore) (rest : list osdCore) : list osdCore :=
  match rest with
  | [] => [osd]
  | o :: rest' => if pgnum osd <? pgnum o then osd :: rest else o :: sortOsdList osd rest'
  end.

Definition one_more (osd : osdCore) : osdCore := {| osdid := osdid osd; coreid := coreid osd; pgnum := pgnum osd + 1 |}.

(** The first element that [searchMinCore] accepts gets a group. *)
Fixpoint take_core (accept : osdCore -> bool) (lst : list osdCore) : go (osdCore * list osdCore) :=
  match lst with
  | [] => Panic
  | osd :: rest =>
      if accept osd then Ret (osd, sortOsdList (one_more osd) rest)
      else r ← take_core accept rest; Ret (fst r, osd :: snd r)
  end.

(** Step 4 *)
Definition MaxInt : Z := 2 ^ 63 - 1.
Definition MaxUint32 : Z := 2 ^ 32 - 1.

(** The member whose host has the least loaded core. *)
Definition least_member (host_map : list (list osdCore)) (pg : list Z) : go (Z * Z) :=
  r ← for_each (fun '(j, host_idx) '(min_pg_num, index, core_id) =>
                  lst ← at_index host_map host_idx;
                  osdEle ← at_index lst 0;
                  if pgnum osdEle <? min_pg_num then Ret (pgnum osdEle, j, coreid osdEle)
                  else Ret (min_pg_num, index, core_id)) (indexed pg) (MaxInt, 0, 0);
  Ret (r.1.2, r.2).

Definition pick_osds (index core_id : Z) (pg : list Z) (host_map : list (list osdCore)) : go (list Z * Z * list (list osdCore)) :=
  for_each (fun '(j, host_idx) '(osds, core_index, host_map) =>
              lst ← at_index host_map host_idx;
              r ← take_core (fun osd => (j =? index) || (coreid osd =? core_id)) lst;
              host_map ← set_index host_map host_idx (snd r);
              Ret (osds ++ [osdid (fst r)], if j =? index then coreid (fst r) else core_index, host_map))
    (indexed pg) ([], 0, host_map).

Definition new_pg (osds : gmap Z OSDInfo) (poolPgSize : Z) (PreviousPGList : gmap Z PGConfig) (i : Z) (ppc : PGConfig) : PGConfig :=
  match PreviousPGList !! i with
  | None =>
      let ppc := SetPgState PgCreating (ppc <| Version := 1 |>) in
      let state := CheckPgState osds (OsdList ppc) poolPgSize in
      if (state =? PgUndersize) || (state =? PgDown) then SetPgState state ppc else ppc
  | Some old =>
      if Compare_arry (OsdList old) (OsdList ppc) then ppc <| Version := Version old |> else ppc <| Version := Version old + 1 |>
  end.

Definition place_pg (osds : gmap Z OSDInfo) (poolPgSize : Z) (PreviousPGList : gmap Z PGConfig) (x : Z * list Z)
    (s : gmap Z PGConfig * list (list osdCore)) : go (gmap Z PGConfig * list (list osdCore)) :=
  let '(i, pg) := x in
  let '(PgMap, host_map) := s in
  r ← least_member host_map pg;
  r ← pick_osds (fst r) (snd r) pg host_map;
  let '(osdList, core_index, host_map) := r in
  let ppc := {| Version := 0; PgState := 0; CoreIndex := core_index; OsdList := osdList; NewCoreIndex := MaxUint32; NewOsdList := [] |} in
  Ret (<[i := new_pg osds poolPgSize PreviousPGList i ppc]> PgMap, host_map).

Record OptimizeCfg := {
  OSDTree : list DomainNode;
  OSDInfoMap : gmap Z TreeNode;
  PGCount : Z;
  PGSize : Z;
  PreviousPGList : gmap Z PGConfig;
}.

(** [NULL]: invalid input. *)
Definition SimpleInitial (fuel : nat) (osds : gmap Z OSDInfo) (cfg : OptimizeCfg) (poolPgSize coreNum : Z) : go (ptr (gmap Z PGConfig)) :=
  let host_count := Z.of_nat (List.length (OSDTree cfg)) in
  if (host_count =? 0) || bool_decide (OSDInfoMap cfg = ∅) || (host_count * 2 <? PGSize cfg) then Ret NULL
  else if host_count <? PGSize cfg then Ret NULL
  else
    let pg_per_host := Z.quot (PGCount cfg * PGSize cfg) host_count in
    leader_host_idx ← getRandIndex host_count (PGCount cfg);
    pgs ← first_hosts (PGSize cfg) leader_host_idx (PGCount cfg);
    pg_host_array ← draw_pgs fuel host_count (PGSize cfg) pgs;
    counts ← count_pgs host_count pg_host_array;
    r ← balance_hosts (Z.to_nat (PGCount cfg)) pg_per_host (snd counts) pg_host_array (fst counts);
    let host_map := host_cores coreNum <$> OSDTree cfg in
    r ← for_each (place_pg osds poolPgSize (PreviousPGList cfg))
          (zip (seqZ 0 (PGCount cfg)) (fst r)) (∅, host_map);
    Ret (Some (fst r)).

Definition EPoolNotInstance : Z := 5.
Definition EOsdTreeNotExist : Z := 6.
Definition ENoEnoughOsd : Z := 7.
Definition EPgDistributionError : Z := 8.

Record PoolPGsConfig := { map_version : Z; PgMap : gmap Z PGConfig }.

#[export] Instance eta_pgs : Eta PoolPGsConfig := fun p => {| map_version := map_version p; PgMap := PgMap p |}.

Record PoolConfig := {
  Poolid : Z;
  pool_name : string;
  pool_pgsize : Z;
  pool_pgcount : Z;
  pool_domain : string;
  Root : string;
  PoolPgMap : PoolPGsConfig;
}.

#[export] Instance eta_pool : Eta PoolConfig := fun p =>
  {| Poolid := Poolid p; pool_name := pool_name p; pool_pgsize := pool_pgsize p; pool_pgcount := pool_pgcount p;
     pool_domain := pool_domain p; Root := Root p; PoolPgMap := PoolPgMap p |}.

Context (shuffle : forall A : Type, nat -> list A -> list A) (weight_less : Z -> Z -> bool).

Definition CreatePgs (fuel : nat) (Osdinfo : ptr (gmap Z OSDInfo)) (AllHostsMap AllRacksMap : ptr (gmap string BucketConfig))
    (pool : PoolConfig) (coreNum : Z) : go (gmap Z PGConfig + Z) :=
  match GetOSDTree shuffle false true Osdinfo AllHostsMap AllRacksMap with
  | NULL => Ret (inr EOsdTreeNotExist)
  | Some (osdTreeMap, osdNodeMap) =>
      let pg_size := getEffectivePGSize (pool_pgsize pool) (GetFailureDomainNum osdTreeMap (pool_domain pool)) in
      if (Z.of_nat (base.size osdNodeMap) <? Z.quot pg_size 2 + 1) || (pg_size =? 0) then Ret (inr ENoEnoughOsd)
      else
        match FlattenTree shuffle weight_less osdTreeMap osdNodeMap (pool_domain pool) (Root pool) (bool_decide (Root pool <> ""%string)) with
        | NULL => Ret (inr EPgDistributionError)
        | Some (tree, infos) =>
            let cfg := {| OSDTree := tree; OSDInfoMap := infos; PGCount := pool_pgcount pool; PGSize := pg_size; PreviousPGList := ∅ |} in
            r ← SimpleInitial fuel (default ∅ Osdinfo) cfg (pool_pgsize pool) coreNum;
            match r with
            | NULL => Ret (inr EPgDistributionError)
            | Some m => Ret (inl m)
            end
        end
  end.

End initial.

(** ** Slices and loops *)

Lemma at_index_Some {A} (l : list A) i x : 0 <= i -> l !! Z.to_nat i = Some x -> at_index l i = Ret x.
Proof. intros Hi E. unfold at_index. rewrite (proj2 (Z.ltb_ge i 0) Hi). by rewrite E. Qed.

Lemma at_index_lt {A} (l : list A) i : 0 <= i < Z.of_nat (List.length l) -> exists x, l !! Z.to_nat i = Some x /\ at_index l i = Ret x.
Proof.
  intros Hi. destruct (lookup_lt_is_Some_2 l (Z.to_nat i)) as [x Hx]; [lia|]. exists x. split; [done|]. by apply at_index_Some; [lia|].
Qed.

Lemma set_index_lt {A} (l : list A) i v : 0 <= i < Z.of_nat (List.length l) -> set_index l i v = Ret (<[Z.to_nat i := v]> l).
Proof.
  intros Hi. unfold set_index. rewrite (proj2 (Z.ltb_ge i 0)), (proj2 (Z.leb_gt _ i)) by lia. done.
Qed.

(** A loop whose steps keep [P] of what has been run over. *)
Lemma for_each_inv {A B} (f : B -> A -> go A) (P : list B -> A -> Prop) l a :
  P [] a -> (forall pre x post a, l = pre ++ x :: post -> P pre a -> exists a', f x a = Ret a' /\ P (pre ++ [x]) a') ->
  exists a', for_each f l a = Ret a' /\ P l a'.
Proof.
  intros H0 Hs. unfold for_each.
  assert (Hg : forall post pre a, l = pre ++ post -> P pre a -> exists a', foldl (fun a x => a ≫= f x) (Ret a) post = Ret a' /\ P l a').
  { induction post as [|x post IH]; intros pre a0 E Hp; [rewrite app_nil_r in E; subst; by exists a0|].
    destruct (Hs pre x post a0 E Hp) as (a1 & E1 & Hp1). cbn [foldl]. change (Ret a0 ≫= f x) with (f x a0). rewrite E1.
    apply (IH (pre ++ [x])); [by rewrite <- app_assoc|done]. }
  by apply (Hg l []).
Qed.

Lemma existsb_holds array val b n :
  existsb (holds_at array val) (seqZ b n) = true <-> exists i, b <= i < b + n /\ array !! Z.to_nat i = Some val.
Proof.
  rewrite existsb_exists. split; intros (i & Hi & E).
  - apply list_elem_of_In, elem_of_seqZ in Hi. exists i. split; [lia|]. by apply bool_decide_eq_true in E.
  - exists i. split; [apply list_elem_of_In, elem_of_seqZ; lia|]. by apply bool_decide_eq_true.
Qed.

Lemma contains_all array val : contains array val 0 (-1) = true <-> val ∈ array.
Proof.
  unfold contains, range_end. cbn [Z.ltb Z.compare]. rewrite existsb_holds, list_elem_of_lookup. split.
  - intros (i & _ & E). by exists (Z.to_nat i).
  - intros [i E]. exists (Z.of_nat i). pose proof (lookup_lt_Some _ _ _ E). rewrite Nat2Z.id. split; [lia|done].
Qed.

Lemma contains_first array val j :
  0 <= j -> contains array val 0 j = true <-> val ∈ take (Z.to_nat j) array.
Proof.
  intros Hj. unfold contains, range_end. rewrite (proj2 (Z.ltb_ge j 0) Hj), existsb_holds, list_elem_of_lookup. split.
  - intros (i & Hi & E). exists (Z.to_nat i). rewrite lookup_take_lt by lia. done.
  - intros [i E]. apply lookup_take_Some in E as [E Hi]. exists (Z.of_nat i). pose proof (lookup_lt_Some _ _ _ E). rewrite Nat2Z.id. split; [lia|done].
Qed.

(** What is found behind the first place. *)
Lemma find_rest array val :
  contains array val 1 (-1) = true -> let i := find array val 1 (-1) in 1 <= i < Z.of_nat (List.length array) /\ array !! Z.to_nat i = Some val.
Proof.
  unfold contains, find. set (l := seqZ 1 _). intros Hc. destruct (List.find (holds_at array val) l) as [i|] eqn:E.
  - apply List.find_some in E as [Hi E]. apply list_elem_of_In, elem_of_seqZ in Hi. apply bool_decide_eq_true in E. cbn [default from_option id].
    pose proof (lookup_lt_Some _ _ _ E). split; [lia|done].
  - apply existsb_exists in Hc as (x & Hx & Ex). by rewrite (List.find_none _ _ E x Hx) in Ex.
Qed.

Lemma lookup_indexed (array : list Z) n i v :
  indexed array !! n = Some (i, v) <-> i = Z.of_nat n /\ array !! n = Some v.
Proof.
  unfold indexed. rewrite lookup_zip_Some. split.
  - intros [H1 H2]. apply lookup_seqZ in H1 as [-> _]. by rewrite Z.add_0_l.
  - intros [-> E]. split; [|done]. pose proof (lookup_lt_Some _ _ _ E). apply lookup_seqZ. lia.
Qed.

Lemma indexed_app l x : indexed (l ++ [x]) = indexed l ++ [(Z.of_nat (List.length l), x)].
Proof.
  unfold indexed. rewrite length_app. cbn [List.length]. rewrite Nat2Z.inj_add, seqZ_app, zip_with_app by (first [lia|by rewrite length_seqZ; lia]).
  done.
Qed.

(** ** Candidates *)

Definition valid_index (array : list Z) (i : Z) : Prop := 0 <= i < Z.of_nat (List.length array).

(** A place that is taken holds a valid index; the first places are taken. *)
Record top3_ok (array : list Z) (t : top3) : Prop := {
  t3_min : min_num t < MaxInt32 -> valid_index array (min_index t);
  t3_second : second_min_num t < MaxInt32 -> valid_index array (second_min_index t);
  t3_third : third_min_num t < MaxInt32 -> valid_index array (third_min_index t);
  t3_one : (1 <= List.length array)%nat -> min_num t < MaxInt32;
  t3_two : (2 <= List.length array)%nat -> second_min_num t < MaxInt32;
  t3_three : (3 <= List.length array)%nat -> third_min_num t < MaxInt32;
}.

Lemma valid_index_app l x i : valid_index l i -> valid_index (l ++ [x]) i.
Proof. unfold valid_index. rewrite length_app. lia. Qed.

Lemma top3_step_ok l v t :
  v < MaxInt32 -> top3_ok l t -> top3_ok (l ++ [v]) (top3_step t (Z.of_nat (List.length l), v)).
Proof.
  intros Hv [T1 T2 T3 T4 T5 T6].
  assert (Hn : valid_index (l ++ [v]) (Z.of_nat (List.length l))) by (unfold valid_index; rewrite length_app; cbn [List.length]; lia).
  pose proof (fun i => valid_index_app l v i) as Hm. unfold top3_step.
  destruct (Z.ltb_spec v (min_num t)); [|destruct (Z.leb_spec (min_num t) v); [|lia]; destruct (Z.ltb_spec v (second_min_num t));
    [|destruct (Z.leb_spec (second_min_num t) v); [|lia]; destruct (Z.ltb_spec v (third_min_num t))]];
    cbn [andb]; split; cbn; rewrite ?length_app; cbn [List.length]; intros; first [by apply Hm; auto|done|apply T4; lia|apply T5; lia|lia].
Qed.

Lemma top3_all array :
  Forall (fun v => v < MaxInt32) array ->
  top3_ok array (foldl top3_step {| min_num := MaxInt32; min_index := -1; second_min_num := MaxInt32; second_min_index := -1;
                                    third_min_num := MaxInt32; third_min_index := -1 |} (indexed array)).
Proof.
  induction array as [|v l IH] using rev_ind; intros Hv.
  - change (indexed []) with (@nil (Z * Z)). split; cbn; intros; lia.
  - apply Forall_app in Hv as [Hl Hv]. rewrite Forall_singleton in Hv. rewrite indexed_app, foldl_app. exact (top3_step_ok l v _ Hv (IH Hl)).
Qed.

Lemma top3_min_index_valid array a b c :
  Forall (fun v => v < MaxInt32) array -> top3_min_index array = (a, b, c) ->
  ((1 <= List.length array)%nat -> valid_index array a) /\
  ((3 <= List.length array)%nat -> valid_index array b /\ valid_index array c).
Proof.
  intros Hv. unfold top3_min_index. destruct (top3_all array Hv) as [T1 T2 T3 T4 T5 T6]. intros [= <- <- <-].
  split; [auto|]. intros Hl. split; [apply T2, T5; lia|auto].
Qed.

Lemma max_index_valid array :
  Forall (fun v => 0 <= v) array -> array <> [] -> valid_index array (max_index array).
Proof.
  unfold max_index. set (f := fun '(max_num, index) '(i, v) => _).
  intros Hv Hne. assert (Hg : let r := foldl f (- 2147483648, -1) (indexed array) in
    r.1 = - 2147483648 /\ array = [] \/ 0 <= r.1 /\ valid_index array r.2).
  { clear Hne. induction array as [|v l IH] using rev_ind; [by left|]. apply Forall_app in Hv as [Hl Hv]. rewrite Forall_singleton in Hv.
    rewrite indexed_app, foldl_app. cbn [foldl]. destruct (foldl f _ (indexed l)) as [mx ix]. cbn [fst snd] in IH. right.
    assert (Hn : valid_index (l ++ [v]) (Z.of_nat (List.length l))) by (unfold valid_index; rewrite length_app; cbn [List.length]; lia).
    unfold f. destruct (Z.ltb_spec mx v); cbn [fst snd]; [split; [lia|done]|].
    destruct (IH Hl) as [[-> ->]|[H1 H2]]; [lia|]. split; [lia|]. by apply valid_index_app. }
  destruct Hg as [[_ ->]|[_ Hg]]; [done|exact Hg].
Qed.

(** ** Drawing hosts *)

(** Some distinct hosts. *)
Record group_ok (host_count pg_size : Z) (pg : list Z) : Prop := {
  gr_length : Z.of_nat (List.length pg) = pg_size;
  gr_nodup : NoDup pg;
  gr_range : Forall (fun h => 0 <= h < host_count) pg;
}.

Lemma free_host (l : list Z) n :
  Z.of_nat (List.length l) < n -> exists h, 0 <= h < n /\ h ∉ l.
Proof.
  intros Hl. destruct (decide (Forall (fun h => h ∈ l) (seqZ 0 n))) as [Hf|Hf].
  - rewrite Forall_forall in Hf. pose proof (NoDup_submseteq _ _ (NoDup_seqZ 0 n) Hf) as Hs. apply submseteq_length in Hs.
    rewrite length_seqZ in Hs. lia.
  - apply not_Forall_Exists in Hf; [|apply _]. apply Exists_exists in Hf as (h & Hh & Hn). apply elem_of_seqZ in Hh. exists h. split; [lia|done].
Qed.

Section drawing.
Context (Intn : nat -> Z -> Z).
Hypothesis HIntn : forall s n, 0 < n -> 0 <= Intn s n < n.

Lemma draw_host_spec host_count pg j : 0 < host_count -> 0 <= j -> forall fuel seed t,
  (t < fuel)%nat -> Intn (seed + t) host_count ∉ take (Z.to_nat j) pg ->
  exists h seed', draw_host Intn fuel seed host_count pg j = Ret (h, seed') /\ 0 <= h < host_count /\ h ∉ take (Z.to_nat j) pg.
Proof.
  intros Hn Hj fuel. induction fuel as [|fuel IH]; intros seed t Ht Hf; [lia|]. cbn [draw_host].
  destruct (contains pg (Intn seed host_count) 0 j) eqn:Ec; cbn [negb].
  - destruct t as [|t]; [rewrite Nat.add_0_r in Hf; by apply contains_first in Ec|].
    apply (IH (S seed) t); [lia|]. by rewrite Nat.add_succ_comm.
  - exists (Intn seed host_count), (S seed). split; [done|]. split; [by apply HIntn|]. intros Hi. apply contains_first in Hi; [|done]. by rewrite Hi in Ec.
Qed.

(** Every host comes up within [fuel] draws. *)
Definition hits (fuel : nat) (host_count : Z) : Prop :=
  forall seed h, 0 <= h < host_count -> exists t, (t < fuel)%nat /\ Intn (seed + t) host_count = h.

Lemma draw_pg_spec fuel host_count pg_size pg h0 seed :
  hits fuel host_count -> 1 <= pg_size <= host_count -> Z.of_nat (List.length pg) = pg_size -> pg !! 0%nat = Some h0 -> 0 <= h0 < host_count ->
  exists pg' seed', draw_pg Intn fuel host_count pg_size pg seed = Ret (pg', seed') /\ group_ok host_count pg_size pg' /\ pg' !! 0%nat = Some h0.
Proof.
  intros Hh Hs Hl H0 Hr. unfold draw_pg.
  destruct (for_each_inv (fun j '(pg, seed) => r ← draw_host Intn fuel seed host_count pg j; pg ← set_index pg j (fst r); Ret (pg, snd r))
    (fun pre '(pg, _) => let n := S (List.length pre) in Z.of_nat (List.length pg) = pg_size /\ pg !! 0%nat = Some h0 /\
       NoDup (take n pg) /\ Forall (fun h => 0 <= h < host_count) (take n pg)) (seqZ 1 (pg_size - 1)) (pg, seed)) as ([pg' seed'] & E & I1 & I2 & I3 & I4).
  - destruct pg as [|x pg]; [done|]. injection H0 as ->. cbn. rewrite take_0. split; [done|]. split; [done|]. split; [apply NoDup_singleton|by constructor].
  - intros pre j post [pg1 s1] El (J1 & J2 & J3 & J4).
    assert (Hj : j = 1 + Z.of_nat (List.length pre) /\ j < pg_size).
    { assert (Ej : seqZ 1 (pg_size - 1) !! List.length pre = Some j) by (rewrite El; apply list_lookup_middle; done).
      apply lookup_seqZ in Ej. lia. }
    destruct Hj as [-> Hj]. set (n := S (List.length pre)) in *. replace (1 + Z.of_nat (List.length pre)) with (Z.of_nat n) by lia.
    destruct (free_host (take n pg1) host_count) as (h & Hh1 & Hh2); [rewrite length_take; lia|].
    destruct (Hh s1 h Hh1) as (t & Ht & Et).
    destruct (draw_host_spec host_count pg1 (Z.of_nat n) ltac:(lia) ltac:(lia) fuel s1 t Ht) as (x & s2 & Ed & Hx1 & Hx2); [by rewrite Nat2Z.id, Et|].
    rewrite Ed. cbn [mbind go_bind fst snd]. rewrite set_index_lt by lia. cbn [mbind go_bind]. rewrite Nat2Z.id in Hx2 |- *. eexists. split; [reflexivity|].
    rewrite length_app. cbn [List.length]. replace (S (List.length pre + 1)) with (S n) by lia.
    rewrite length_insert. split; [done|]. split; [rewrite list_lookup_insert_ne by lia; done|].
    rewrite (take_S_r _ _ x) by (rewrite list_lookup_insert_eq by lia; done). rewrite take_insert_ge by lia. split.
    + apply NoDup_app. split; [done|]. split; [|apply NoDup_singleton]. intros y Hy Hy'. apply list_elem_of_singleton in Hy'. by subst.
    + apply Forall_app. split; [done|by constructor].
  - exists pg', seed'. split; [done|]. rewrite length_seqZ in I3, I4. rewrite take_ge in I3, I4 by lia. split; [by split|done].
Qed.

Lemma draw_pgs_spec fuel host_count pg_size pgs leaders :
  hits fuel host_count -> 1 <= pg_size <= host_count ->
  Forall2 (fun pg h => Z.of_nat (List.length pg) = pg_size /\ pg !! 0%nat = Some h /\ 0 <= h < host_count) pgs leaders ->
  exists pgs', draw_pgs Intn fuel host_count pg_size pgs = Ret pgs' /\
    Forall2 (fun pg h => group_ok host_count pg_size pg /\ pg !! 0%nat = Some h) pgs' leaders.
Proof.
  intros Hh Hs Hall. unfold draw_pgs.
  destruct (for_each_inv (fun pg '(a, seed) => r ← draw_pg Intn fuel host_count pg_size pg seed; Ret (a ++ [fst r], snd r))
    (fun pre '(a, _) => Forall2 (fun pg h => group_ok host_count pg_size pg /\ pg !! 0%nat = Some h) a (take (List.length pre) leaders)) pgs ([], 0%nat))
    as ([a s] & E & Ha).
  - constructor.
  - intros pre pg post [a s] El Ha. subst pgs.
    destruct (Forall2_lookup_l _ _ _ (List.length pre) pg Hall) as (h & Eh & L1 & L2 & L3); [by apply list_lookup_middle|].
    destruct (draw_pg_spec fuel host_count pg_size pg h s Hh Hs L1 L2 L3) as (pg' & s' & Ed & G1 & G2). rewrite Ed. cbn [mbind go_bind fst snd].
    eexists. split; [reflexivity|]. rewrite length_app, Nat.add_1_r, (take_S_r _ _ h Eh). apply Forall2_app; [done|]. by constructor.
  - rewrite E. cbn [mbind go_bind fst]. exists a. split; [done|]. rewrite <- (firstn_all leaders), <- (Forall2_length _ _ _ Hall). done.
Qed.

End drawing.

(** ** Leaders *)

Definition count_of (h : Z) (l : list Z) : Z := count_if (fun x => bool_decide (x = h)) l.

Lemma count_of_nodup h l : NoDup l -> count_of h l = Z.b2z (bool_decide (h ∈ l)).
Proof.
  unfold count_of. induction 1 as [|x l Hx Hn IH]; [by rewrite count_if_nil|]. rewrite count_if_cons, IH.
  destruct (decide (x = h)) as [->|Hne].
  - rewrite (bool_decide_eq_true_2 (h = h)), (bool_decide_eq_false_2 (h ∈ l)), (bool_decide_eq_true_2 (h ∈ h :: l)) by (done || by left). done.
  - rewrite (bool_decide_eq_false_2 (x = h)) by done. rewrite (bool_decide_ext (h ∈ x :: l) (h ∈ l)); [done|].
    rewrite elem_of_cons. naive_solver.
Qed.

(** Each candidate leads as many groups as any other one, or one more. *)
Definition even_leaders (host_count pg_count : Z) (leaders : list Z) : Prop :=
  forall h, 0 <= h < host_count -> let div := Z.quot pg_count host_count in div <= count_of h leaders <= div + 1.

Section leaders.
Context (Perm : nat -> Z -> list Z).
Hypothesis HPerm : forall s n, Perm s n ≡ₚ seqZ 0 n.

Lemma getRandIndex_spec candidate need :
  0 < candidate -> 0 <= need ->
  exists leaders, getRandIndex Perm candidate need = Ret leaders /\ Z.of_nat (List.length leaders) = need /\
    Forall (fun h => 0 <= h < candidate) leaders /\ even_leaders candidate need leaders.
Proof.
  intros Hc Hn. unfold getRandIndex. rewrite (proj2 (Z.ltb_ge need 0) Hn), (proj2 (Z.eqb_neq candidate 0)) by lia. cbn [orb].
  rewrite Z.quot_div_nonneg by lia. set (div := need / candidate). pose proof (Z.div_mod need candidate ltac:(lia)) as Hd. fold div in Hd.
  pose proof (Z.mod_pos_bound need candidate Hc). assert (0 <= div) by (apply Z.div_pos; lia).
  set (p := Perm 0 candidate). assert (Hp : p ≡ₚ seqZ 0 candidate) by apply HPerm.
  assert (Hpl : Z.of_nat (List.length p) = candidate) by (rewrite (Permutation_length Hp), length_seqZ; lia).
  assert (Hrounds : forall n, Z.of_nat (List.length (concat (replicate n (seqZ 0 candidate)))) = Z.of_nat n * candidate /\
    forall h, 0 <= h < candidate -> count_of h (concat (replicate n (seqZ 0 candidate))) = Z.of_nat n).
  { induction n as [|n [IH1 IH2]]; cbn [replicate concat]; [done|]. split; [rewrite length_app, length_seqZ; lia|].
    intros h Hh. unfold count_of in *. rewrite count_if_app, IH2 by done. fold (count_of h (seqZ 0 candidate)).
    rewrite count_of_nodup by apply NoDup_seqZ. rewrite bool_decide_eq_true_2 by (apply elem_of_seqZ; lia). cbn [Z.b2z]. lia. }
  destruct (Hrounds (Z.to_nat div)) as [L1 L2]. eexists. split; [reflexivity|]. split_and!.
  - rewrite length_app, length_take. lia.
  - apply Forall_app. split.
    + apply Forall_concat, Forall_replicate, Forall_forall. intros h Hh. apply elem_of_seqZ in Hh. lia.
    + apply Forall_take, Forall_forall. intros h Hh. rewrite Hp in Hh. apply elem_of_seqZ in Hh. lia.
  - intros h Hh. cbn zeta. rewrite Z.quot_div_nonneg by lia. fold div. unfold count_of. rewrite count_if_app. fold (count_of h (concat (replicate (Z.to_nat div) (seqZ 0 candidate)))).
    rewrite L2 by done. fold (count_of h (take (Z.to_nat (need - div * candidate)) p)). rewrite count_of_nodup.
    + destruct (bool_decide _); cbn [Z.b2z]; lia.
    + eapply sublist_NoDup; [|apply sublist_take]. rewrite Hp. apply NoDup_seqZ.
Qed.

End leaders.

Lemma first_hosts_spec pg_size leaders pg_count :
  1 <= pg_size -> Z.of_nat (List.length leaders) = pg_count ->
  first_hosts pg_size leaders pg_count = Ret ((fun h => <[0%nat := h]> (replicate (Z.to_nat pg_size) (-1))) <$> leaders).
Proof.
  intros Hs Hl. unfold first_hosts. set (f := fun h : Z => <[0%nat := h]> (replicate (Z.to_nat pg_size) (-1))).
  destruct (for_each_inv (fun i a => h ← at_index leaders i; pg ← set_index (replicate (Z.to_nat pg_size) (-1)) 0 h; Ret (a ++ [pg]))
    (fun pre a => a = f <$> take (List.length pre) leaders) (seqZ 0 pg_count) []) as (a & -> & ->).
  - done.
  - intros pre i post a El ->. assert (Ei : seqZ 0 pg_count !! List.length pre = Some i) by (rewrite El; by apply list_lookup_middle).
    apply lookup_seqZ in Ei as [-> Hi]. rewrite Z.add_0_l in *. destruct (at_index_lt leaders (Z.of_nat (List.length pre))) as (h & Eh & ->); [lia|].
    cbn [mbind go_bind]. rewrite set_index_lt by (rewrite length_replicate; lia). cbn [mbind go_bind]. eexists. split; [reflexivity|].
    rewrite Nat2Z.id in Eh. rewrite length_app, Nat.add_1_r, (take_S_r _ _ h Eh), fmap_app. done.
  - f_equal. rewrite length_seqZ, take_ge by lia. done.
Qed.

(** ** Counting *)

Definition on_host (pgs : list (list Z)) (h : Z) : Z := count_if (fun pg => bool_decide (h ∈ pg)) pgs.

(** The counters say how many groups every host has. *)
Definition counted (host_count : Z) (pgs : list (list Z)) (nums : list Z) : Prop :=
  Z.of_nat (List.length nums) = host_count /\ forall h, 0 <= h < host_count -> nums !! Z.to_nat h = Some (on_host pgs h).

Lemma count_pg_spec host_count i pg nums m :
  NoDup pg -> Forall (fun h => 0 <= h < host_count) pg -> Z.of_nat (List.length nums) = host_count ->
  exists nums' m', count_pg i pg (nums, m) = Ret (nums', m') /\ Z.of_nat (List.length nums') = host_count /\
    (forall h, 0 <= h < host_count -> nums' !! Z.to_nat h = (fun n => n + Z.b2z (bool_decide (h ∈ pg))) <$> nums !! Z.to_nat h) /\
    (forall h j, j ∈ default [] (m' !! h) -> j = i \/ j ∈ default [] (m !! h)).
Proof.
  intros Hn Hr Hl. unfold count_pg.
  destruct (for_each_inv (fun host_idx '(pg_num_on_host, pg_on_host_map) =>
      n ← at_index pg_num_on_host host_idx; pg_num_on_host ← set_index pg_num_on_host host_idx (n + 1);
      Ret (pg_num_on_host, <[host_idx := default [] (pg_on_host_map !! host_idx) ++ [i]]> pg_on_host_map))
    (fun pre '(nums', m') => Z.of_nat (List.length nums') = host_count /\
      (forall h, 0 <= h < host_count -> nums' !! Z.to_nat h = (fun n => n + Z.b2z (bool_decide (h ∈ pre))) <$> nums !! Z.to_nat h) /\
      (forall h j, j ∈ default [] (m' !! h) -> j = i \/ j ∈ default [] (m !! h))) pg (nums, m)) as ([nums' m'] & E & I1 & I2 & I3).
  - split; [done|]. split; [|by right]. intros h Hh. rewrite bool_decide_eq_false_2 by apply not_elem_of_nil. destruct (nums !! _); [|done]. cbn. f_equal. lia.
  - intros pre x post [nums1 m1] El (J1 & J2 & J3). subst pg. apply Forall_app in Hr as [_ Hr]. apply Forall_cons in Hr as [Hx _].
    destruct (at_index_lt nums1 x ltac:(lia)) as (n & En & ->). cbn [mbind go_bind]. rewrite set_index_lt by lia. cbn [mbind go_bind].
    eexists. split; [reflexivity|]. cbn beta iota. rewrite length_insert. split; [done|]. split.
    + intros h Hh. apply NoDup_app in Hn as (_ & Hd & _). destruct (decide (h = x)) as [->|Hne].
      * rewrite list_lookup_insert_eq by lia. rewrite J2 in En by done. rewrite (bool_decide_eq_true_2 (x ∈ pre ++ [x])) by set_solver.
        rewrite (bool_decide_eq_false_2 (x ∈ pre)) in En by (intros Hp; apply (Hd x Hp); by left).
        destruct (nums !! Z.to_nat x) as [n0|]; [|done]. injection En as <-. cbn. f_equal. lia.
      * rewrite list_lookup_insert_ne by lia. rewrite J2 by done. destruct (nums !! Z.to_nat h); [|done]. cbn. do 2 f_equal.
        f_equal. apply bool_decide_ext. set_solver.
    + intros h j. destruct (decide (h = x)) as [->|Hne].
      * rewrite lookup_insert_eq. cbn [default from_option id]. rewrite elem_of_app, list_elem_of_singleton. naive_solver.
      * rewrite lookup_insert_ne by done. apply J3.
  - exists nums', m'. done.
Qed.

Lemma count_pgs_spec host_count pg_size pgs :
  0 <= host_count -> Forall (group_ok host_count pg_size) pgs ->
  exists nums m, count_pgs host_count pgs = Ret (nums, m) /\ counted host_count pgs nums /\
    forall h j, j ∈ default [] (m !! h) -> 0 <= j < Z.of_nat (List.length pgs).
Proof.
  intros Hc Hg. unfold count_pgs.
  destruct (for_each_inv (fun i s => pg ← at_index pgs i; count_pg i pg s)
    (fun pre '(nums, m) => counted host_count (take (List.length pre) pgs) nums /\
       forall h j, j ∈ default [] (m !! h) -> 0 <= j < Z.of_nat (List.length pgs)) (seqZ 0 (Z.of_nat (List.length pgs))) (replicate (Z.to_nat host_count) 0, ∅))
    as ([nums m] & E & I1 & I2).
  - split; [split; [rewrite length_replicate; lia|]|].
    + intros h Hh. rewrite lookup_replicate_2 by lia. done.
    + intros h j. rewrite lookup_empty. by intros ?%not_elem_of_nil.
  - intros pre i post [nums m] El [[J1 J2] J3].
    assert (Ei : seqZ 0 (Z.of_nat (List.length pgs)) !! List.length pre = Some i) by (rewrite El; by apply list_lookup_middle).
    apply lookup_seqZ in Ei as [-> Hi]. rewrite Z.add_0_l in *. destruct (at_index_lt pgs (Z.of_nat (List.length pre)) ltac:(lia)) as (pg & Ep & ->).
    rewrite Nat2Z.id in Ep. cbn [mbind go_bind]. pose proof (Forall_lookup_1 _ _ _ _ Hg Ep) as [G1 G2 G3].
    destruct (count_pg_spec host_count (Z.of_nat (List.length pre)) pg nums m G2 G3 J1) as (nums' & m' & E & L1 & L2 & L3).
    exists (nums', m'). split; [done|]. split; [split; [done|]|].
    + intros h Hh. rewrite L2, J2 by done. cbn [fmap option_fmap option_map]. f_equal. rewrite length_app, Nat.add_1_r, (take_S_r _ _ pg Ep). unfold on_host.
      rewrite count_if_app, count_if_cons, count_if_nil. lia.
    + intros h j Hj. destruct (L3 h j Hj) as [->|Hj']; [lia|]. by apply (J3 h).
  - exists nums, m. rewrite length_seqZ, take_ge in I1 by lia. done.
Qed.

(** ** Balancing *)

Lemma group_full host_count pg h : group_ok host_count host_count pg -> 0 <= h < host_count -> h ∈ pg.
Proof.
  intros [G1 G2 G3] Hh. destruct (decide (h ∈ pg)) as [|Hn]; [done|exfalso].
  assert (Hs : h :: pg ⊆+ seqZ 0 host_count).
  { apply NoDup_submseteq; [by constructor|]. intros x Hx. apply elem_of_cons in Hx as [->|Hx]; apply elem_of_seqZ; [lia|].
    rewrite Forall_forall in G3. specialize (G3 x Hx). lia. }
  apply submseteq_length in Hs. rewrite length_seqZ in Hs. cbn [List.length] in Hs. lia.
Qed.

Lemma group_replace host_count pg_size pg i x y :
  group_ok host_count pg_size pg -> pg !! i = Some x -> 0 <= y < host_count -> y ∉ pg ->
  group_ok host_count pg_size (<[i := y]> pg) /\ x <> y /\
  forall h, bool_decide (h ∈ <[i := y]> pg) = (bool_decide (h ∈ pg) && negb (bool_decide (h = x))) || bool_decide (h = y).
Proof.
  intros [G1 G2 G3] Ex Hy Hn. pose proof (lookup_lt_Some _ _ _ Ex) as Hi.
  destruct (list_elem_of_split_length pg i x Ex) as (l1 & l2 & -> & ->).
  rewrite insert_app_r_alt by lia. rewrite Nat.sub_diag. cbn [list_insert insert].
  apply NoDup_app in G2 as (N1 & N2 & N3). apply NoDup_cons in N3 as [N3 N4].
  assert (x ∉ l1) by (intros Hx; apply (N2 x Hx); by left). assert (Hyn : y ∉ l1 /\ y <> x /\ y ∉ l2) by set_solver.
  split; [split|split].
  - rewrite length_app in *. done.
  - apply NoDup_app. split; [done|]. split; [set_solver|]. apply NoDup_cons. split; [tauto|done].
  - apply Forall_app in G3 as [F1 F2]. apply Forall_cons in F2 as [_ F2]. apply Forall_app. split; [done|by constructor].
  - intros ->. tauto.
  - intros h. destruct (decide (h = y)) as [->|Hhy]; [rewrite (bool_decide_eq_true_2 (y = y)), orb_true_r by done; apply bool_decide_eq_true; set_solver|].
    rewrite (bool_decide_eq_false_2 (h = y)), orb_false_r by done. destruct (decide (h = x)) as [->|Hhx].
    + rewrite (bool_decide_eq_true_2 (x = x)), andb_false_r by done. apply bool_decide_eq_false. set_solver.
    + rewrite (bool_decide_eq_false_2 (h = x)), andb_true_r by done. apply bool_decide_ext. set_solver.
Qed.

(** The hosts of the groups, the first of each fixed, and their counters. *)
Definition placed (host_count pg_size : Z) (leaders : list Z) (pgs : list (list Z)) (nums : list Z) : Prop :=
  Forall2 (fun pg h => group_ok host_count pg_size pg /\ pg !! 0%nat = Some h) pgs leaders /\ counted host_count pgs nums.

Lemma on_host_insert pgs i pg pg' h :
  pgs !! i = Some pg -> on_host (<[i := pg']> pgs) h = on_host pgs h - Z.b2z (bool_decide (h ∈ pg)) + Z.b2z (bool_decide (h ∈ pg')).
Proof. intros E. unfold on_host. rewrite (count_if_insert _ _ _ _ _ E). lia. Qed.

Lemma move_one_spec host_count pg_size leaders pgs nums pg_id pg idx max_host host :
  placed host_count pg_size leaders pgs nums -> pgs !! pg_id = Some pg ->
  1 <= idx < Z.of_nat (List.length pg) -> pg !! Z.to_nat idx = Some max_host -> 0 <= host < host_count -> host ∉ pg ->
  exists pg' nums', move_one pg idx max_host host nums = Ret (true, pg', nums') /\
    placed host_count pg_size leaders (<[pg_id := pg']> pgs) nums'.
Proof.
  intros [Hall [Hl Hc]] Ep Hi Ei Hh Hn. destruct (Forall2_lookup_l _ _ _ _ _ Hall Ep) as (lead & El & Hg & H0).
  destruct (group_replace _ _ _ _ _ _ Hg Ei Hh Hn) as (Hg' & Hne & Hin).
  assert (Hm : 0 <= max_host < host_count) by exact (Forall_lookup_1 _ _ _ _ (gr_range _ _ _ Hg) Ei).
  unfold move_one. rewrite set_index_lt by lia. cbn [mbind go_bind]. rewrite (at_index_Some _ _ _ (proj1 Hm) (Hc _ Hm)). cbn [mbind go_bind].
  rewrite set_index_lt by lia. cbn [mbind go_bind].
  rewrite (at_index_Some _ host (on_host pgs host)) by (first [lia|rewrite list_lookup_insert_ne by lia; by apply Hc]). cbn [mbind go_bind].
  rewrite set_index_lt by (rewrite length_insert; lia). cbn [mbind go_bind]. do 2 eexists. split; [reflexivity|]. split; [|split].
  - rewrite <- (list_insert_id leaders pg_id lead El). apply Forall2_insert; [done|]. split; [done|]. rewrite list_lookup_insert_ne by lia. done.
  - rewrite !length_insert. done.
  - intros h Hhr. rewrite (on_host_insert _ _ _ _ _ Ep), Hin. destruct (decide (h = host)) as [->|Hh1]; [|destruct (decide (h = max_host)) as [->|Hh2]].
    + rewrite list_lookup_insert_eq by (rewrite length_insert; lia). rewrite (bool_decide_eq_false_2 (host ∈ pg)), (bool_decide_eq_true_2 (host = host)), orb_true_r by done.
      cbn [Z.b2z]. f_equal. lia.
    + rewrite list_lookup_insert_ne by lia. rewrite list_lookup_insert_eq by lia.
      rewrite (bool_decide_eq_true_2 (max_host ∈ pg)), (bool_decide_eq_true_2 (max_host = max_host)), (bool_decide_eq_false_2 (max_host = host)) by
        (first [done|by apply list_elem_of_lookup_2 in Ei]). cbn [Z.b2z andb orb negb]. f_equal. lia.
    + rewrite !list_lookup_insert_ne by lia. rewrite Hc by done. rewrite (bool_decide_eq_false_2 (h = host)), (bool_decide_eq_false_2 (h = max_host)), orb_false_r, andb_true_r by done.
      f_equal. lia.
Qed.

Lemma transfer_one_spec host_count pg_size leaders pgs nums pg_id pg max_host a b c :
  placed host_count pg_size leaders pgs nums -> pgs !! pg_id = Some pg -> contains pg max_host 1 (-1) = true ->
  0 <= a < host_count -> 0 <= b < host_count -> 0 <= c < host_count ->
  exists moved pg' nums', transfer_one pg max_host a b c nums = Ret (moved, pg', nums') /\
    placed host_count pg_size leaders (<[pg_id := pg']> pgs) nums'.
Proof.
  intros Hp Ep Hc Ha Hb Hcc. destruct (find_rest _ _ Hc) as [Hi Ei]. unfold transfer_one.
  assert (Hmove : forall h, contains pg h 0 (-1) = false -> 0 <= h < host_count -> exists moved pg' nums',
    move_one pg (find pg max_host 1 (-1)) max_host h nums = Ret (moved, pg', nums') /\ placed host_count pg_size leaders (<[pg_id := pg']> pgs) nums').
  { intros h Hn Hh. destruct (move_one_spec _ _ _ _ _ _ _ _ _ h Hp Ep Hi Ei Hh) as (pg' & nums' & E & Hp').
    - intros Hin. apply contains_all in Hin. congruence.
    - by exists true, pg', nums'. }
  destruct (contains pg a 0 (-1)) eqn:Ea; cbn [negb]; [|by apply Hmove].
  destruct (contains pg b 0 (-1)) eqn:Eb; cbn [negb]; [|by apply Hmove].
  destruct (contains pg c 0 (-1)) eqn:Ec; cbn [negb]; [|by apply Hmove].
  exists false, pg, nums. rewrite list_insert_id by done. done.
Qed.

Lemma move_from_spec host_count pg_size leaders max_host a b c :
  (2 <= pg_size -> 0 <= a < host_count /\ 0 <= b < host_count /\ 0 <= c < host_count) -> forall pg_ids pgs nums,
  placed host_count pg_size leaders pgs nums -> Forall (fun i => 0 <= i < Z.of_nat (List.length pgs)) pg_ids ->
  exists moved pgs' nums', move_from pg_ids max_host a b c pgs nums = Ret (moved, pgs', nums') /\ placed host_count pg_size leaders pgs' nums'.
Proof.
  intros Habc. induction pg_ids as [|i pg_ids IH]; intros pgs nums Hp Hr; cbn [move_from]; [by exists false, pgs, nums|].
  apply Forall_cons in Hr as [Hi Hr]. destruct (at_index_lt pgs i Hi) as (pg & Ep & ->). cbn [mbind go_bind].
  destruct (contains pg max_host 1 (-1)) eqn:Ec; [|by apply IH]. destruct (find_rest _ _ Ec) as [Hf _].
  destruct (Forall2_lookup_l _ _ _ _ _ (proj1 Hp) Ep) as (lead & _ & Hg & _). pose proof (gr_length _ _ _ Hg).
  destruct (Habc ltac:(lia)) as (Ha & Hb & Hc).
  destruct (transfer_one_spec _ _ _ _ _ _ _ _ a b c Hp Ep Ec Ha Hb Hc) as (moved & pg' & nums' & -> & Hp'). cbn [mbind go_bind].
  rewrite set_index_lt by lia. cbn [mbind go_bind]. destruct moved; [by do 3 eexists|]. apply IH; [done|]. rewrite length_insert. done.
Qed.

Lemma on_host_bounds pgs h : 0 <= on_host pgs h <= Z.of_nat (List.length pgs).
Proof. unfold on_host. pose proof (count_if_nonneg (fun pg => bool_decide (h ∈ pg)) pgs). pose proof (count_if_le_length (fun pg => bool_decide (h ∈ pg)) pgs). lia. Qed.

Lemma counted_Forall host_count pgs nums (P : Z -> Prop) :
  counted host_count pgs nums -> (forall h, 0 <= h < host_count -> P (on_host pgs h)) -> Forall P nums.
Proof.
  intros [Hl Hc] HP. apply Forall_lookup. intros i x Hx. pose proof (lookup_lt_Some _ _ _ Hx). specialize (Hc (Z.of_nat i) ltac:(lia)).
  rewrite Nat2Z.id, Hx in Hc. injection Hc as ->. apply HP. lia.
Qed.

(** Groups on all the hosts leave nothing to move. *)
Lemma full_counts host_count leaders pgs nums h n :
  placed host_count host_count leaders pgs nums -> nums !! h = Some n -> n = Z.of_nat (List.length pgs).
Proof.
  intros [Hall Hc] E. apply (Forall_lookup_1 (fun n => n = Z.of_nat (List.length pgs)) nums h); [|done]. apply (counted_Forall _ _ _ _ Hc).
  intros x Hx. unfold on_host. clear Hc E. induction Hall as [|pg l pgs leaders [Hg _] _ IH]; [done|]. rewrite count_if_cons, IH.
  rewrite bool_decide_eq_true_2 by (by apply (group_full host_count)). cbn [List.length Z.b2z]. lia.
Qed.

Lemma balance_hosts_spec host_count pg_size leaders pg_on_host_map :
  1 <= pg_size <= host_count -> Z.of_nat (List.length leaders) < MaxInt32 ->
  (forall h j, j ∈ default [] (pg_on_host_map !! h) -> 0 <= j < Z.of_nat (List.length leaders)) -> forall loops pgs nums,
  placed host_count pg_size leaders pgs nums ->
  exists pgs' nums', balance_hosts loops (Z.quot (Z.of_nat (List.length leaders) * pg_size) host_count) pg_on_host_map pgs nums = Ret (pgs', nums') /\
    placed host_count pg_size leaders pgs' nums'.
Proof.
  intros Hs Hm Hids. induction loops as [|loops IH]; intros pgs nums Hp; cbn [balance_hosts]; [by exists pgs, nums|].
  pose proof Hp as [Hall Hc]. pose proof (Forall2_length _ _ _ Hall) as Hlen. pose proof (proj1 Hc) as Hl.
  assert (Hlt : Forall (fun v => v < MaxInt32) nums) by (apply (counted_Forall _ _ _ _ Hc); intros h _; pose proof (on_host_bounds pgs h); lia).
  assert (Hge : Forall (fun v => 0 <= v) nums) by (apply (counted_Forall _ _ _ _ Hc); intros h _; apply on_host_bounds).
  destruct (top3_min_index nums) as [[a b] c] eqn:Et. destruct (top3_min_index_valid _ _ _ _ Hlt Et) as [V1 V3]. specialize (V1 ltac:(lia)).
  assert (Vm : valid_index nums (max_index nums)) by (apply max_index_valid; [done|intros ->; cbn in Hl; lia]).
  destruct (at_index_lt _ _ V1) as (least & El & ->). destruct (at_index_lt _ _ Vm) as (most & Em & ->). cbn [mbind go_bind].
  destruct (decide (pg_size = host_count)) as [->|Hne].
  - rewrite (full_counts _ _ _ _ _ _ Hp El), (full_counts _ _ _ _ _ _ Hp Em). rewrite Z.quot_mul, Hlen by lia.
    rewrite Z.ltb_irrefl, (proj2 (Z.ltb_ge _ _)) by lia. by exists pgs, nums.
  - destruct (_ || _); [|by exists pgs, nums].
    destruct (move_from_spec host_count pg_size leaders (max_index nums) a b c) with (pg_ids := default [] (pg_on_host_map !! max_index nums)) (pgs := pgs) (nums := nums)
      as (moved & pgs' & nums' & -> & Hp'); [|done| |].
    + intros H2. destruct (V3 ltac:(lia)). unfold valid_index in *. lia.
    + apply Forall_forall. intros j Hj. rewrite Hlen. by apply (Hids (max_index nums)).
    + cbn [mbind go_bind]. destruct moved; [by apply IH|by exists pgs', nums'].
Qed.

(** ** Cores *)

Definition core_key (o : osdCore) : Z * Z := (osdid o, coreid o).

(** An OSD of a domain with the right number of cores. *)
Definition member_of (coreNum : Z) (d : DomainNode) (id : Z) : Prop :=
  exists t, t ∈ domain_children d /\ OSDID t = id /\ CoreNUm t = coreNum.

Lemma host_cores_in coreNum d id c :
  (id, c) ∈ core_key <$> host_cores coreNum d <-> 0 <= c < coreNum /\ member_of coreNum d id.
Proof.
  rewrite list_elem_of_fmap. unfold host_cores, member_of. split.
  - intros (o & [= -> ->] & Ho). apply list_elem_of_bind in Ho as (c & Ho & Hc). apply list_elem_of_bind in Ho as (t & Ho & Ht).
    apply elem_of_seqZ in Hc. destruct (Z.eqb_spec coreNum (CoreNUm t)) as [He|]; [|by apply not_elem_of_nil in Ho].
    apply list_elem_of_singleton in Ho as ->. cbn. split; [lia|]. by exists t.
  - intros (Hc & t & Ht & Hid & Hn). exists {| osdid := id; coreid := c; pgnum := 0 |}. split; [done|].
    apply list_elem_of_bind. exists c. split; [|apply elem_of_seqZ; lia]. apply list_elem_of_bind. exists t. split; [|done].
    rewrite Hn, Z.eqb_refl, Hid. by left.
Qed.

Lemma sortOsdList_keys o rest : core_key <$> sortOsdList o rest ≡ₚ core_key <$> o :: rest.
Proof.
  induction rest as [|o' rest IH]; cbn [sortOsdList]; [done|]. destruct (_ <? _); [done|]. cbn [fmap list_fmap] in *. rewrite IH. apply Permutation_swap.
Qed.

Lemma take_core_spec accept lst o :
  o ∈ lst -> accept o = true ->
  exists o' lst', take_core accept lst = Ret (o', lst') /\ o' ∈ lst /\ accept o' = true /\ core_key <$> lst' ≡ₚ core_key <$> lst.
Proof.
  intros Ho Ha. induction lst as [|x lst IH]; [by apply not_elem_of_nil in Ho|]. cbn [take_core]. destruct (accept x) eqn:Ex.
  - do 2 eexists. split; [reflexivity|]. split; [by left|]. split; [done|]. rewrite sortOsdList_keys. done.
  - apply elem_of_cons in Ho as [->|Ho]; [congruence|]. destruct (IH Ho) as (o' & lst' & -> & H1 & H2 & H3). cbn [mbind go_bind fst snd].
    do 2 eexists. split; [reflexivity|]. split; [by right|]. split; [done|]. cbn [fmap list_fmap] in *. by rewrite H3.
Qed.

(** The lists of cores are those of the domains. *)
Definition cores_ok (coreNum : Z) (tree : list DomainNode) (host_map : list (list osdCore)) : Prop :=
  Forall2 (fun d lst => core_key <$> lst ≡ₚ core_key <$> host_cores coreNum d) tree host_map.

Definition usable (coreNum : Z) (d : DomainNode) : Prop := exists id, member_of coreNum d id.

Section cores.
Context (coreNum : Z) (tree : list DomainNode).
Hypothesis Hcores : 0 < coreNum.
Hypothesis Husable : Forall (usable coreNum) tree.

Lemma cores_at host_map h :
  cores_ok coreNum tree host_map -> 0 <= h < Z.of_nat (List.length tree) ->
  exists d lst, tree !! Z.to_nat h = Some d /\ at_index host_map h = Ret lst /\ core_key <$> lst ≡ₚ core_key <$> host_cores coreNum d /\
    (forall o, o ∈ lst -> 0 <= coreid o < coreNum /\ member_of coreNum d (osdid o)) /\ (forall c, 0 <= c < coreNum -> exists o, o ∈ lst /\ coreid o = c).
Proof.
  intros Hok Hh. destruct (lookup_lt_is_Some_2 tree (Z.to_nat h)) as [d Ed]; [lia|].
  destruct (Forall2_lookup_l _ _ _ _ _ Hok Ed) as (lst & El & Hk). exists d, lst. split; [done|]. split; [apply at_index_Some; [lia|done]|]. split; [done|]. split.
  - intros o Ho. apply host_cores_in. rewrite <- Hk. apply list_elem_of_fmap. by exists o.
  - intros c Hc. destruct (Forall_lookup_1 _ _ _ _ Husable Ed) as [id Hid].
    assert (Hin : (id, c) ∈ core_key <$> lst) by (rewrite Hk; by apply host_cores_in).
    apply list_elem_of_fmap in Hin as (o & [= -> ->] & Ho). by exists o.
Qed.

Lemma indexed_in pg j h : (j, h) ∈ indexed pg -> h ∈ pg.
Proof. intros Hi. unfold indexed in Hi. apply elem_of_zip_r in Hi. done. Qed.

Lemma least_member_spec pg_size host_map pg :
  cores_ok coreNum tree host_map -> group_ok (Z.of_nat (List.length tree)) pg_size pg ->
  exists index core_id, least_member host_map pg = Ret (index, core_id) /\ 0 <= core_id < coreNum.
Proof.
  intros Hok [_ _ Hr]. rewrite Forall_forall in Hr. unfold least_member.
  destruct (for_each_inv (fun '(j, host_idx) '(min_pg_num, index, core_id) =>
      lst ← at_index host_map host_idx; osdEle ← at_index lst 0;
      if pgnum osdEle <? min_pg_num then Ret (pgnum osdEle, j, coreid osdEle) else Ret (min_pg_num, index, core_id))
    (fun _ '(_, _, core_id) => 0 <= core_id < coreNum) (indexed pg) (MaxInt, 0, 0)) as ([[mn ix] c] & -> & Hc).
  - lia.
  - intros pre [j h] post [[mn ix] c] El Hc. destruct (cores_at host_map h Hok) as (d & lst & Ed & -> & _ & Hin & Hex).
    { apply Hr, (indexed_in pg j). rewrite El. set_solver. }
    cbn [mbind go_bind]. destruct (Hex 0 ltac:(lia)) as (o & Ho & _). destruct lst as [|x lst]; [by apply not_elem_of_nil in Ho|].
    change (at_index (x :: lst) 0) with (Ret x). cbn [mbind go_bind]. destruct (_ <? _); eexists; (split; [reflexivity|]); [|done]. apply (Hin x). by left.
  - cbn [mbind go_bind fst snd]. by exists ix, c.
Qed.

(** One OSD of every domain of the group. *)
Definition in_domains (osds pg : list Z) : Prop :=
  Forall2 (fun id h => exists d, tree !! Z.to_nat h = Some d /\ member_of coreNum d id) osds pg.

Lemma pick_osds_spec pg_size host_map pg index core_id :
  cores_ok coreNum tree host_map -> group_ok (Z.of_nat (List.length tree)) pg_size pg -> 0 <= core_id < coreNum ->
  exists osds core_index host_map', pick_osds index core_id pg host_map = Ret (osds, core_index, host_map') /\
    in_domains osds pg /\ 0 <= core_index < coreNum /\ cores_ok coreNum tree host_map'.
Proof.
  intros Hok [_ _ Hr] Hc. rewrite Forall_forall in Hr. unfold pick_osds.
  destruct (for_each_inv (fun '(j, host_idx) '(osds, core_index, host_map) =>
      lst ← at_index host_map host_idx; r ← take_core (fun osd => (j =? index) || (coreid osd =? core_id)) lst;
      host_map ← set_index host_map host_idx (snd r);
      Ret (osds ++ [osdid (fst r)], if j =? index then coreid (fst r) else core_index, host_map))
    (fun pre '(osds, core_index, host_map) => in_domains osds pre.*2 /\ 0 <= core_index < coreNum /\ cores_ok coreNum tree host_map)
    (indexed pg) ([], 0, host_map)) as ([[osds ci] hm] & -> & H1 & H2 & H3).
  - split; [constructor|]. split; [lia|done].
  - intros pre [j h] post [[osds ci] hm] El (J1 & J2 & J3).
    assert (Hh : 0 <= h < Z.of_nat (List.length tree)) by (apply Hr, (indexed_in pg j); rewrite El; set_solver).
    destruct (cores_at hm h J3 Hh) as (d & lst & Ed & -> & Hk & Hin & Hex). cbn [mbind go_bind].
    destruct (Hex core_id Hc) as (o & Ho & Hoc). pose proof (Forall2_length _ _ _ J3).
    destruct (take_core_spec (fun osd => (j =? index) || (coreid osd =? core_id)) lst o Ho) as (o' & lst' & -> & Ho' & _ & Hk'); [rewrite Hoc, Z.eqb_refl; apply orb_true_r|].
    cbn [mbind go_bind fst snd]. rewrite set_index_lt by lia. cbn [mbind go_bind]. eexists. split; [reflexivity|]. cbn beta iota. destruct (Hin o' Ho') as [Hco Hmo]. split; [|split].
    + rewrite fmap_app. apply Forall2_app; [done|]. constructor; [|constructor]. by exists d.
    + destruct (_ =? _); done.
    + rewrite <- (list_insert_id tree (Z.to_nat h) d Ed). apply Forall2_insert; [done|]. by rewrite Hk', Hk.
  - exists osds, ci, hm. split; [done|]. unfold indexed in H1. rewrite snd_zip in H1 by (rewrite length_seqZ; lia). done.
Qed.

(** What the monitor knows of a group that is placed on [pg]. *)
Definition placed_on (osds : gmap Z OSDInfo) (poolPgSize : Z) (PreviousPGList : gmap Z PGConfig) (i : Z) (pg : list Z) (c : PGConfig) : Prop :=
  exists osdList core_index, in_domains osdList pg /\ 0 <= core_index < coreNum /\
    c = new_pg osds poolPgSize PreviousPGList i
          {| Version := 0; PgState := 0; CoreIndex := core_index; OsdList := osdList; NewCoreIndex := MaxUint32; NewOsdList := [] |}.

Lemma place_pgs_spec osds poolPgSize prev pg_size pgs :
  Forall (group_ok (Z.of_nat (List.length tree)) pg_size) pgs ->
  exists m host_map, for_each (place_pg osds poolPgSize prev) (zip (seqZ 0 (Z.of_nat (List.length pgs))) pgs) (∅, host_cores coreNum <$> tree) = Ret (m, host_map) /\
    (forall i c, m !! i = Some c -> 0 <= i < Z.of_nat (List.length pgs)) /\
    (forall n pg, pgs !! n = Some pg -> exists c, m !! Z.of_nat n = Some c /\ placed_on osds poolPgSize prev (Z.of_nat n) pg c).
Proof.
  intros Hg. set (l := zip _ _). assert (Hl : forall n i pg, l !! n = Some (i, pg) <-> i = Z.of_nat n /\ pgs !! n = Some pg).
  { intros n i pg. unfold l. rewrite lookup_zip_Some, lookup_seqZ. split; [intros [[-> _] E]; done|]. intros [-> E]. pose proof (lookup_lt_Some _ _ _ E). split; [lia|done]. }
  destruct (for_each_inv (place_pg osds poolPgSize prev)
    (fun pre '(m, host_map) => cores_ok coreNum tree host_map /\ (forall i c, m !! i = Some c -> 0 <= i < Z.of_nat (List.length pre)) /\
       (forall n i pg, pre !! n = Some (i, pg) -> exists c, m !! Z.of_nat n = Some c /\ placed_on osds poolPgSize prev i pg c)) l (∅, host_cores coreNum <$> tree))
    as ([m hm] & E & _ & H2 & H3).
  - split; [apply Forall2_fmap_r, Forall_Forall2_diag, Forall_true; intros d; exact (Permutation_refl _)|]. split; [by intros ??; rewrite lookup_empty|by intros ???; rewrite lookup_nil].
  - intros pre [i pg] post [m hm] El (J1 & J2 & J3).
    assert (Hi : l !! List.length pre = Some (i, pg)) by (rewrite El; by apply list_lookup_middle). apply Hl in Hi as [-> Ep].
    pose proof (Forall_lookup_1 _ _ _ _ Hg Ep) as Hpg. unfold place_pg.
    destruct (least_member_spec _ hm pg J1 Hpg) as (ix & c & -> & Hc). cbn [mbind go_bind fst snd].
    destruct (pick_osds_spec _ hm pg ix c J1 Hpg Hc) as (ol & ci & hm' & -> & P1 & P2 & P3). cbn [mbind go_bind].
    eexists. split; [reflexivity|]. cbn beta iota. rewrite length_app. cbn [List.length]. split; [done|]. split.
    + intros i0 c0 E0. destruct (decide (i0 = Z.of_nat (List.length pre))) as [->|Hne]; [lia|]. rewrite lookup_insert_ne in E0 by done. specialize (J2 _ _ E0). lia.
    + intros n i0 pg0 E0. apply lookup_app_Some in E0 as [E0|[Hn E0]].
      * pose proof (lookup_lt_Some _ _ _ E0). rewrite lookup_insert_ne by lia. by apply J3.
      * apply list_lookup_singleton_Some in E0 as [Hz [= <- <-]]. replace n with (List.length pre) by lia. rewrite lookup_insert_eq. eexists. split; [done|]. by exists ol, ci.
  - assert (Hlen : List.length l = List.length pgs) by (unfold l; rewrite length_zip_with, length_seqZ; lia). rewrite Hlen in H2.
    exists m, hm. split; [done|]. split; [done|]. intros n pg Ep. apply H3. by apply Hl.
Qed.

End cores.

(** ** The initial placement, as a whole *)

Section whole.
Context (Intn : nat -> Z -> Z) (Perm : nat -> Z -> list Z).
Hypothesis HIntn : forall s n, 0 < n -> 0 <= Intn s n < n.
Hypothesis HPerm : forall s n, Perm s n ≡ₚ seqZ 0 n.

Lemma SimpleInitial_spec fuel osds cfg poolPgSize coreNum :
  let host_count := Z.of_nat (List.length (OSDTree cfg)) in
  hits Intn fuel host_count -> 1 <= PGSize cfg <= host_count -> OSDInfoMap cfg <> ∅ -> 0 <= PGCount cfg < MaxInt32 ->
  0 < coreNum -> Forall (usable coreNum) (OSDTree cfg) ->
  exists m leaders pgs, SimpleInitial Intn Perm fuel osds cfg poolPgSize coreNum = Ret (Some m) /\
    Z.of_nat (List.length leaders) = PGCount cfg /\ even_leaders host_count (PGCount cfg) leaders /\ Forall (fun h => 0 <= h < host_count) leaders /\
    Forall2 (fun pg h => group_ok host_count (PGSize cfg) pg /\ pg !! 0%nat = Some h) pgs leaders /\
    (forall i c, m !! i = Some c -> 0 <= i < PGCount cfg) /\
    (forall n pg, pgs !! n = Some pg -> exists c, m !! Z.of_nat n = Some c /\
       placed_on coreNum (OSDTree cfg) osds poolPgSize (PreviousPGList cfg) (Z.of_nat n) pg c).
Proof.
  intros host_count Hh Hs Hm Hc Hn Hu. unfold SimpleInitial. fold host_count.
  rewrite (proj2 (Z.eqb_neq host_count 0)), bool_decide_eq_false_2, (proj2 (Z.ltb_ge (host_count * 2) _)), (proj2 (Z.ltb_ge host_count _)) by (lia || done).
  cbn [orb]. destruct (getRandIndex_spec Perm HPerm host_count (PGCount cfg)) as (leaders & -> & L1 & L2 & L3); [lia..|]. cbn [mbind go_bind].
  rewrite first_hosts_spec by lia. cbn [mbind go_bind].
  destruct (draw_pgs_spec Intn HIntn fuel host_count (PGSize cfg) ((fun h => <[0%nat := h]> (replicate (Z.to_nat (PGSize cfg)) (-1))) <$> leaders) leaders Hh Hs)
    as (pgs & -> & Hpgs).
  { apply Forall2_fmap_l, Forall_Forall2_diag. eapply Forall_impl; [exact L2|]. intros h Hr. unfold compose. rewrite length_insert, length_replicate. split; [lia|]. split; [|done].
    rewrite list_lookup_insert_eq by (rewrite length_replicate; lia). done. }
  cbn [mbind go_bind]. pose proof (Forall2_length _ _ _ Hpgs) as Hl.
  destruct (count_pgs_spec host_count (PGSize cfg) pgs) as (nums & ids & -> & Hcnt & Hids); [lia|by eapply Forall2_Forall_l; [exact Hpgs|]; apply Forall_true; naive_solver|].
  cbn [mbind go_bind fst snd]. rewrite Hl in Hids. rewrite <- L1.
  destruct (balance_hosts_spec host_count (PGSize cfg) leaders ids Hs ltac:(lia) Hids (Z.to_nat (Z.of_nat (List.length leaders))) pgs nums (conj Hpgs Hcnt)) as (pgs' & nums' & -> & Hp' & _).
  cbn [mbind go_bind fst snd]. pose proof (Forall2_length _ _ _ Hp') as Hl'. rewrite <- Hl'.
  destruct (place_pgs_spec coreNum (OSDTree cfg) Hn Hu osds poolPgSize (PreviousPGList cfg) (PGSize cfg) pgs') as (m & hm & -> & M1 & M2);
    [by eapply Forall2_Forall_l; [exact Hp'|]; apply Forall_true; naive_solver|].
  cbn [mbind go_bind fst]. exists m, leaders, pgs'. rewrite Hl', L1 in *. done.
Qed.

End whole.

(** ** The tree *)

Definition in_list (osds : list (Z * OSDInfo)) (h : string) : list (Z * OSDInfo) := filter (fun p => IsIn p.2 = true /\ Host p.2 = h) osds.

Definition leaf (p : Z * OSDInfo) : string * BucketTreeNode := (String_of p.1, Bucket (String_of p.1) "osd" []).

Definition node_of (p : Z * OSDInfo) : OSDTreeNode := {| node_osdid := p.1; node_size := Size p.2; node_cores := CoreNum p.2 |}.

Definition int_id (id : Z) : Prop := - 2 ^ 63 <= id < 2 ^ 63.

#[export] Instance int_id_dec id : Decision (int_id id).
Proof. unfold int_id. apply _. Defined.

Lemma String_of_inj a b : int_id a -> int_id b -> String_of a = String_of b -> a = b.
Proof. unfold int_id, String_of, u64. intros Ha Hb E%(inj pretty). pose proof (Z.div_mod a (2 ^ 64)). pose proof (Z.div_mod b (2 ^ 64)). lia. Qed.

(** What the tree has of the OSDs that have been run over. *)
Definition tree_ok (osds : list (Z * OSDInfo)) (s : gmap string BucketTreeNode * gmap string BucketTreeNode * gmap string OSDTreeNode) : Prop :=
  let '(hosts, _, nodes) := s in
  (forall h, hosts !! h = match in_list osds h with [] => None | l => Some (Bucket h "host" (leaf <$> l)) end) /\
  (forall p, p ∈ osds -> IsIn p.2 = true -> nodes !! String_of p.1 = Some (node_of p)) /\
  (forall s n, nodes !! s = Some n -> exists p, p ∈ osds /\ IsIn p.2 = true /\ n = node_of p).

Lemma tree_ok_skip osds p s : IsIn p.2 = false -> tree_ok osds s -> tree_ok (osds ++ [p]) s.
Proof.
  destruct s as [[hosts tree] nodes]. intros Hp (T1 & T2 & T3). split_and!.
  - intros h. rewrite T1. unfold in_list. rewrite filter_app, (filter_cons_False _ p []) by (intros [E _]; congruence). rewrite filter_nil, app_nil_r. done.
  - intros q Hq Hi. apply elem_of_app in Hq as [Hq|Hq%list_elem_of_singleton]; [by apply T2|congruence].
  - intros k n E. destruct (T3 k n E) as (q & Hq & ?). exists q. split; [|done]. set_solver.
Qed.

Lemma add_child_new name child n l c :
  name ∉ c.*1 -> add_child name child (Bucket n l c) = Bucket n l (c ++ [(name, child)]).
Proof.
  intros Hn. unfold add_child. f_equal. f_equal. induction c as [|p c IH]; [done|]. apply not_elem_of_cons in Hn as [H1 H2]. rewrite filter_cons_True by done. by rewrite IH.
Qed.

Lemma tree_ok_add osds p s :
  IsIn p.2 = true -> (forall q, q ∈ osds -> String_of q.1 <> String_of p.1) -> tree_ok osds s -> tree_ok (osds ++ [p]) (addOSDToHostTree p.1 p.2 s).
Proof.
  destruct s as [[hosts tree] nodes]. intros Hp Hd (T1 & T2 & T3). split_and!.
  - intros h. unfold in_list. rewrite filter_app. fold (in_list osds h). unfold add_under. destruct (decide (h = Host p.2)) as [->|Hne].
    + rewrite lookup_insert_eq, (filter_cons_True _ p []) by done. rewrite filter_nil, T1.
      assert (Hn : String_of p.1 ∉ (leaf <$> in_list osds (Host p.2)).*1).
      { rewrite <- list_fmap_compose. intros Hin. apply list_elem_of_fmap in Hin as (q & E & Hq). apply list_elem_of_filter in Hq as [_ Hq]. by apply (Hd q Hq). }
      destruct (in_list osds (Host p.2)) as [|q l] eqn:El; [done|]. cbn [default from_option id app]. rewrite add_child_new by exact Hn.
      rewrite (app_comm_cons l [p] q), fmap_app. done.
    + rewrite lookup_insert_ne by done. rewrite (filter_cons_False _ p []) by (intros [_ E]; congruence). rewrite filter_nil, app_nil_r. apply T1.
  - intros q Hq Hi. apply elem_of_app in Hq as [Hq|Hq%list_elem_of_singleton].
    + rewrite lookup_insert_ne by (intros E; by apply (Hd q Hq)). by apply T2.
    + subst q. by rewrite lookup_insert_eq.
  - intros k n E. destruct (decide (k = String_of p.1)) as [->|Hne].
    + rewrite lookup_insert_eq in E. injection E as <-. exists p. split; [set_solver|done].
    + rewrite lookup_insert_ne in E by done. destruct (T3 k n E) as (q & Hq & ?). exists q. split; [set_solver|done].
Qed.

Lemma tree_of_osds l :
  NoDup l.*1 -> Forall int_id l.*1 ->
  tree_ok l (foldl (fun s '(osdID, osdState) => if negb (IsUp osdState) && false then s else if negb (IsIn osdState) && true then s
                      else addOSDToHostTree osdID osdState s) (∅, ∅, ∅) l).
Proof.
  induction l as [|p l IH] using rev_ind; intros Hn Hi.
  - split_and!; [done|by intros ? ?%not_elem_of_nil|]. intros ??. by rewrite lookup_empty.
  - rewrite fmap_app in Hn, Hi. apply NoDup_app in Hn as (N1 & N2 & _). apply Forall_app in Hi as [I1 I2]. rewrite foldl_app. destruct p as [id o]. cbn [foldl fmap list_fmap fst] in *.
    rewrite andb_false_r, andb_true_r. rewrite Forall_singleton in I2. destruct (IsIn o) eqn:Eo; cbn [negb]; [|by apply tree_ok_skip, IH].
    apply (tree_ok_add l (id, o)); [done| |by apply IH]. intros q Hq E. rewrite Forall_forall in I1.
    assert (Hq1 : q.1 ∈ l.*1) by (by apply list_elem_of_fmap_2). apply String_of_inj in E; [|by apply I1|done]. apply (N2 q.1 Hq1). rewrite E. by left.
Qed.

Lemma sorted_perm {A} (less : A -> A -> bool) l : sort_by less l ≡ₚ l.
Proof.
  assert (Hi : forall x l, insert_by less x l ≡ₚ x :: l).
  { clear l. intros x l. induction l as [|y l IH]; cbn [insert_by]; [done|]. destruct (less y x); [|done]. rewrite IH. apply Permutation_swap. }
  induction l as [|x l IH]; [done|]. change (sort_by less (x :: l)) with (insert_by less x (sort_by less l)). by rewrite Hi, IH.
Qed.

Definition tree_node (p : Z * OSDInfo) : TreeNode := {| OSDID := p.1; Weight := Size p.2; CoreNUm := CoreNum p.2 |}.

Lemma addOSDNode_leaves nodes l : Forall (fun p => nodes !! String_of p.1 = Some (node_of p)) l -> forall acc m,
  exists m', foldl (fun s '(_, child) => addOSDNode nodes child s) (acc, m) (leaf <$> l) = (acc ++ (tree_node <$> l), m') /\ (m <> ∅ \/ l <> [] -> m' <> ∅).
Proof.
  induction 1 as [|p l Hp _ IH]; intros acc m; cbn [fmap list_fmap foldl leaf]; [exists m; rewrite app_nil_r; naive_solver|].
  change (addOSDNode nodes (Bucket (String_of p.1) "osd" []) (acc, m)) with
    (match nodes !! String_of p.1 with None => (acc, m) | Some osd => let t := {| OSDID := node_osdid osd; Weight := node_size osd; CoreNUm := node_cores osd |} in
       (acc ++ [t], <[OSDID t := t]> m) end). rewrite Hp. cbn zeta.
  destruct (IH (acc ++ [tree_node p]) (<[p.1 := tree_node p]> m)) as (m' & E & Hm). exists m'. split; [|intros _; apply Hm; left; apply insert_non_empty].
  rewrite <- app_assoc in E. exact E.
Qed.

Section flatten.
Context (shuffle : forall A : Type, nat -> list A -> list A) (weight_less : Z -> Z -> bool).
Hypothesis Hshuffle : forall A n (l : list A), shuffle A n l ≡ₚ l.

Definition domain_of (osds : list (Z * OSDInfo)) (h : string) : DomainNode :=
  {| DomainName := h; domain_children := sort_by (node_less weight_less) (tree_node <$> in_list osds h) |}.

Lemma flatten_loop osds hosts t nodes l : tree_ok osds (hosts, t, nodes) -> Forall (fun p => hosts !! p.1 = Some p.2) l -> forall acc m,
  exists m', foldl (fun '(d, m) '(id, root) => let '(children, m) := addOSDNode nodes root ([], m) in
                      (d ++ [{| DomainName := id; domain_children := sort_by (node_less weight_less) children |}], m)) (acc, m) l
    = (acc ++ (domain_of osds <$> l.*1), m') /\ (m <> ∅ \/ l <> [] -> m' <> ∅).
Proof.
  intros (T1 & T2 & _). induction 1 as [|[h b] l Hp _ IH]; intros acc m; cbn [fmap list_fmap foldl]; [exists m; rewrite app_nil_r; naive_solver|].
  cbn [fst snd] in Hp. rewrite T1 in Hp. destruct (in_list osds h) as [|p0 l0] eqn:El; [done|]. rewrite <- El in Hp. injection Hp as <-.
  cbn [addOSDNode]. change (IsOSD "host") with false. cbn iota.
  destruct (addOSDNode_leaves nodes (in_list osds h)) with (acc := @nil TreeNode) (m := m) as (m1 & E1 & Hm1).
  { apply Forall_forall. intros p Hp. apply list_elem_of_filter in Hp as [[Hi _] Hp]. by apply T2. }
  rewrite E1. cbn [app]. destruct (IH (acc ++ [domain_of osds h]) m1) as (m' & E & Hm). exists m'. split; [rewrite <- app_assoc in E; exact E|].
  intros _. apply Hm. left. apply Hm1. right. rewrite El. done.
Qed.

Lemma FlattenTree_host osds hosts t nodes all poolRoot :
  tree_ok osds (hosts, t, nodes) -> all !! "host"%string = Some hosts -> hosts <> ∅ ->
  exists names infos, FlattenTree shuffle weight_less all nodes "host" poolRoot false = Some (sort_by (fun a b => String.ltb (DomainName a) (DomainName b)) (domain_of osds <$> names), infos) /\
    infos <> ∅ /\ names ≡ₚ elements (dom hosts).
Proof.
  intros Ht Ha Hne. unfold FlattenTree. cbn [decide negb]. rewrite Ha. destruct (decide ("host"%string = ""%string)) as [|_]; [done|]. cbn [mbind option_bind].
  destruct (decide (hosts = ∅)) as [|_]; [done|].
  destruct (flatten_loop osds hosts t nodes (shuffle _ 3 (map_to_list hosts)) Ht) with (acc := @nil DomainNode) (m := (∅ : gmap Z TreeNode)) as (m' & E & Hm).
  { apply Forall_forall. intros [h b] Hp. rewrite Hshuffle in Hp. by apply elem_of_map_to_list in Hp. }
  rewrite E. cbn [app]. eexists _, m'. split; [reflexivity|]. split.
  - apply Hm. right. intros E0. apply Hne. apply map_to_list_empty_iff. apply Permutation_nil. by rewrite <- E0, Hshuffle.
  - rewrite Hshuffle. apply NoDup_Permutation; [apply NoDup_fst_map_to_list|apply NoDup_elements|]. intros h. rewrite elem_of_elements, elem_of_dom. split.
    + intros Hh. apply list_elem_of_fmap in Hh as ([h' b] & -> & Hb). apply elem_of_map_to_list in Hb. by eexists.
    + intros [b Hb]. apply list_elem_of_fmap. exists (h, b). split; [done|]. by apply elem_of_map_to_list.
Qed.

Lemma GetOSDTree_host osds AllHostsMap AllRacksMap :
  Forall int_id (map_to_list osds).*1 ->
  exists l all hosts t nodes, GetOSDTree shuffle false true (Some osds) AllHostsMap AllRacksMap = Some (all, nodes) /\
    l ≡ₚ map_to_list osds /\ tree_ok l (hosts, t, nodes) /\ all !! "host"%string = Some hosts.
Proof.
  intros Hi. unfold GetOSDTree. cbn [mbind option_bind]. set (l := shuffle _ 0 (map_to_list osds)). assert (Hl : l ≡ₚ map_to_list osds) by apply Hshuffle.
  pose proof (tree_of_osds l) as Ht. destruct (foldl _ _ l) as [[hosts t] nodes]. eexists l, _, hosts, t, nodes. split; [reflexivity|]. split; [done|]. split.
  - apply Ht; rewrite Hl; [apply NoDup_fst_map_to_list|done].
  - destruct AllHostsMap as [ahm|]; [|done]. destruct (decide (_ = ∅)); destruct AllRacksMap as [arm|]; [destruct (decide (_ = ∅))| |destruct (decide (_ = ∅))|]; by simplify_map_eq.
Qed.

End flatten.

(** ** A new pool *)

Definition in_hosts (osds : gmap Z OSDInfo) : gset string :=
  list_to_set ((fun p => Host p.2) <$> filter (fun p => IsIn p.2 = true) (map_to_list osds)).

Lemma elem_of_in_hosts osds h : h ∈ in_hosts osds <-> exists id o, osds !! id = Some o /\ IsIn o = true /\ Host o = h.
Proof.
  unfold in_hosts. rewrite elem_of_list_to_set, list_elem_of_fmap. split.
  - intros ([id o] & -> & Hp). apply list_elem_of_filter in Hp as [Hi Hp]. apply elem_of_map_to_list in Hp. by exists id, o.
  - intros (id & o & E & Hi & <-). exists (id, o). split; [done|]. apply list_elem_of_filter. split; [done|]. by apply elem_of_map_to_list.
Qed.

Lemma elem_of_in_list osds l h p : l ≡ₚ map_to_list osds -> p ∈ in_list l h <-> osds !! p.1 = Some p.2 /\ IsIn p.2 = true /\ Host p.2 = h.
Proof. intros Hl. unfold in_list. rewrite list_elem_of_filter, Hl. destruct p as [id o]. rewrite elem_of_map_to_list. cbn. tauto. Qed.

Lemma size_of_list (l : list string) : (base.size (list_to_set l : gset string) <= List.length l)%nat.
Proof.
  apply (submseteq_length (elements (list_to_set l : gset string))), NoDup_submseteq; [apply NoDup_elements|].
  intros x. by rewrite elem_of_elements, elem_of_list_to_set.
Qed.

Lemma tree_hosts osds l hosts t nodes :
  l ≡ₚ map_to_list osds -> tree_ok l (hosts, t, nodes) -> dom hosts = in_hosts osds /\ (base.size (in_hosts osds) <= base.size nodes)%nat.
Proof.
  intros Hl (T1 & T2 & T3). split.
  - apply set_eq. intros h. rewrite elem_of_dom, elem_of_in_hosts, T1. split.
    + destruct (in_list l h) as [|p r] eqn:E; [by intros [? ?]|]. intros _. assert (Hp : p ∈ in_list l h) by (rewrite E; by left).
      apply (elem_of_in_list osds) in Hp; [|done]. by exists p.1, p.2.
    + intros (id & o & E & Hi & Hh). assert (Hp : (id, o) ∈ in_list l h) by (by apply (elem_of_in_list osds)).
      destruct (in_list l h); [by apply not_elem_of_nil in Hp|by eexists].
  - set (f := fun s => from_option (fun n => from_option Host ""%string (osds !! node_osdid n)) ""%string (nodes !! s)).
    assert (Hs : in_hosts osds ⊆ list_to_set (f <$> elements (dom nodes))).
    { intros h Hh. apply elem_of_in_hosts in Hh as (id & o & E & Hi & <-). apply elem_of_list_to_set, list_elem_of_fmap. exists (String_of id).
      assert (En : nodes !! String_of id = Some (node_of (id, o))) by (apply (T2 (id, o)); [rewrite Hl; by apply elem_of_map_to_list|done]).
      split; [unfold f; rewrite En; cbn; by rewrite E|]. apply elem_of_elements, elem_of_dom. by eexists. }
    apply subseteq_size in Hs. etrans; [exact Hs|]. rewrite <- (size_dom nodes). etrans; [apply size_of_list|]. rewrite length_fmap. done.
Qed.

Definition host_of (osds : gmap Z OSDInfo) (id : Z) : option string := Host <$> osds !! id.

(** A group of a new pool. *)
Record group_spread (osds : gmap Z OSDInfo) (pgSize coreNum : Z) (c : PGConfig) : Prop := {
  gs_size : Z.of_nat (List.length (OsdList c)) = Z.min pgSize (Z.of_nat (base.size (in_hosts osds)));
  gs_hosts : NoDup (host_of osds <$> OsdList c);
  gs_members : forall id, id ∈ OsdList c -> exists o, osds !! id = Some o /\ IsIn o = true /\ CoreNum o = coreNum;
  gs_core : 0 <= CoreIndex c < coreNum;
  gs_version : Version c = 1;
  gs_state : PgState c = Z.lor PgCreating (CheckPgState osds (OsdList c) pgSize);
  gs_new : NewOsdList c = [];
}.

(** The first OSD of a group is on a host. *)
Definition leads (osds : gmap Z OSDInfo) (m : gmap Z PGConfig) (h : string) (i : Z) : bool :=
  bool_decide ((m !! i ≫= fun c => head (OsdList c) ≫= host_of osds) = Some h).

Lemma count_if_seqZ {A} (p : Z -> bool) (q : A -> bool) l :
  (forall i x, l !! i = Some x -> p (Z.of_nat i) = q x) -> count_if p (seqZ 0 (Z.of_nat (List.length l))) = count_if q l.
Proof.
  induction l as [|x l IH] using rev_ind; intros Hp; [done|]. rewrite length_app. cbn [List.length]. rewrite Nat2Z.inj_add, seqZ_app by lia. rewrite !count_if_app, IH.
  - change (seqZ (0 + Z.of_nat (List.length l)) (Z.of_nat 1)) with [0 + Z.of_nat (List.length l)]. rewrite !count_if_cons, !count_if_nil, Z.add_0_l.
    rewrite (Hp (List.length l) x) by (by apply list_lookup_middle). done.
  - intros i y E. apply Hp. by apply lookup_app_l_Some.
Qed.

Lemma new_pg_fresh osds poolPgSize i core_index osdList :
  let c := new_pg osds poolPgSize ∅ i {| Version := 0; PgState := 0; CoreIndex := core_index; OsdList := osdList; NewCoreIndex := MaxUint32; NewOsdList := [] |} in
  OsdList c = osdList /\ CoreIndex c = core_index /\ Version c = 1 /\ NewOsdList c = [] /\ PgState c = Z.lor PgCreating (CheckPgState osds osdList poolPgSize).
Proof.
  unfold new_pg. rewrite lookup_empty. cbn zeta.
  assert (Hs : CheckPgState osds osdList poolPgSize ∈ [PgUndersize; PgDown; 0]) by (unfold CheckPgState; repeat destruct (_ <? _); repeat destruct (_ <=? _); cbn [andb]; set_solver).
  change (OsdList (SetPgState PgCreating _)) with osdList. rewrite !elem_of_cons, elem_of_nil in Hs. destruct Hs as [->|[->|[->|[]]]]; done.
Qed.

Section domains.
Context (weight_less : Z -> Z -> bool) (osds : gmap Z OSDInfo) (l : list (Z * OSDInfo)) (tree : list DomainNode) (coreNum : Z).
Hypothesis Hl : l ≡ₚ map_to_list osds.
Hypothesis Htree : tree ≡ₚ domain_of weight_less l <$> elements (in_hosts osds).

Lemma domain_at k d : tree !! k = Some d -> d = domain_of weight_less l (DomainName d) /\ DomainName d ∈ in_hosts osds.
Proof.
  intros E. apply list_elem_of_lookup_2 in E. rewrite Htree in E. apply list_elem_of_fmap in E as (h & -> & Hh). split; [done|]. by apply elem_of_elements.
Qed.

Lemma domain_names : NoDup (DomainName <$> tree).
Proof.
  rewrite Htree, <- list_fmap_compose. rewrite list_fmap_id. apply NoDup_elements.
Qed.

Lemma domain_unique a b d d' : tree !! a = Some d -> tree !! b = Some d' -> DomainName d = DomainName d' -> a = b.
Proof.
  intros Ea Eb E. apply (NoDup_lookup (DomainName <$> tree) a b (DomainName d)); [apply domain_names| |]; rewrite list_lookup_fmap; [by rewrite Ea|by rewrite Eb, E].
Qed.

Lemma domain_length : List.length tree = base.size (in_hosts osds).
Proof. rewrite Htree, length_fmap. done. Qed.

Lemma domain_member d id :
  d = domain_of weight_less l (DomainName d) ->
  member_of coreNum d id <-> exists o, osds !! id = Some o /\ IsIn o = true /\ Host o = DomainName d /\ CoreNum o = coreNum.
Proof.
  intros ->. unfold member_of. cbn [domain_of domain_children DomainName]. set (h := DomainName d). setoid_rewrite sorted_perm. setoid_rewrite list_elem_of_fmap. split.
  - intros (t & (p & -> & Hp) & <- & Hc). apply (elem_of_in_list osds) in Hp as (H1 & H2 & H3); [|done]. by exists p.2.
  - intros (o & H1 & H2 & H3 & H4). exists (tree_node (id, o)). split; [|done]. exists (id, o). split; [done|]. by apply (elem_of_in_list osds).
Qed.

Lemma domains_usable :
  (forall h, h ∈ in_hosts osds -> exists id o, osds !! id = Some o /\ IsIn o = true /\ Host o = h /\ CoreNum o = coreNum) -> Forall (usable coreNum) tree.
Proof.
  intros Hc. apply Forall_lookup. intros k d E. destruct (domain_at k d E) as [Hd Hh]. destruct (Hc _ Hh) as (id & Ho). exists id. by apply domain_member.
Qed.

Lemma in_domains_hosts osdList pg :
  in_domains coreNum tree osdList pg -> host_of osds <$> osdList = (fun h => DomainName <$> tree !! Z.to_nat h) <$> pg.
Proof.
  induction 1 as [|id h osdList pg (d & Ed & Hm) _ IH]; [done|]. cbn [fmap list_fmap]. f_equal; [|exact IH].
  apply domain_member in Hm as (o & E & _ & Hh & _); [|by eapply domain_at]. unfold host_of. rewrite E, Ed. cbn. by rewrite Hh.
Qed.

Lemma in_domains_spread pg_size osdList pg :
  group_ok (Z.of_nat (List.length tree)) pg_size pg -> in_domains coreNum tree osdList pg ->
  Z.of_nat (List.length osdList) = pg_size /\ NoDup (host_of osds <$> osdList) /\
  forall id, id ∈ osdList -> exists o, osds !! id = Some o /\ IsIn o = true /\ CoreNum o = coreNum.
Proof.
  intros [G1 G2 G3] Hin. split; [by rewrite (Forall2_length _ _ _ Hin)|]. split.
  - rewrite (in_domains_hosts _ _ Hin). apply NoDup_fmap_2_strong; [|done]. rewrite Forall_forall in G3. intros a b Ha Hb E. specialize (G3 _ Ha) as Ra. specialize (G3 _ Hb) as Rb.
    destruct (lookup_lt_is_Some_2 tree (Z.to_nat a)) as [da Ea]; [lia|]. destruct (lookup_lt_is_Some_2 tree (Z.to_nat b)) as [db Eb]; [lia|].
    rewrite Ea, Eb in E. injection E as E. pose proof (domain_unique _ _ _ _ Ea Eb E). lia.
  - intros id Hid. apply list_elem_of_lookup in Hid as [i Hi]. destruct (Forall2_lookup_l _ _ _ _ _ Hin Hi) as (h & _ & d & Ed & Hm).
    apply domain_member in Hm as (o & H1 & H2 & _ & H3); [by exists o|by eapply domain_at].
Qed.

Lemma placed_spread pgSize i pg c :
  group_ok (Z.of_nat (List.length tree)) (Z.min pgSize (Z.of_nat (base.size (in_hosts osds)))) pg -> placed_on coreNum tree osds pgSize ∅ i pg c ->
  in_domains coreNum tree (OsdList c) pg /\ group_spread osds pgSize coreNum c.
Proof.
  intros Hg (osdList & ci & Hin & Hci & ->). destruct (new_pg_fresh osds pgSize i ci osdList) as (F1 & F2 & F3 & F4 & F5).
  destruct (in_domains_spread _ osdList pg Hg Hin) as (S1 & S2 & S3). split; [by rewrite F1|]. split; rewrite ?F1, ?F2; done.
Qed.

(** Who leads, by hosts and by places in the tree. *)
Lemma leads_index m i c pg x k d :
  m !! Z.of_nat i = Some c -> in_domains coreNum tree (OsdList c) pg -> pg !! 0%nat = Some x -> 0 <= x -> tree !! k = Some d ->
  leads osds m (DomainName d) (Z.of_nat i) = bool_decide (x = Z.of_nat k).
Proof.
  intros Em Hin Ex Hx Ek. pose proof (in_domains_hosts _ _ Hin) as Hh. unfold leads. rewrite Em. cbn [mbind option_bind].
  destruct (OsdList c) as [|id osdList]; destruct pg as [|y pg]; [done..|]. injection Ex as ->. injection Hh as Hh _. cbn [head mbind option_bind]. rewrite Hh.
  inversion Hin as [|? ? ? ? (d' & Ed' & _)]; subst. rewrite Ed'. apply bool_decide_ext. cbn. split.
  - intros [= E]. pose proof (domain_unique _ _ _ _ Ed' Ek E). lia.
  - intros ->. rewrite Nat2Z.id in Ed'. congruence.
Qed.

End domains.

Lemma half_fits x y : 1 <= x <= y -> Z.quot x 2 + 1 <= y.
Proof. intros Hx. Z.to_euclidean_division_equations. lia. Qed.

Section new_pool.
Context (Intn : nat -> Z -> Z) (Perm : nat -> Z -> list Z) (shuffle : forall A : Type, nat -> list A -> list A) (weight_less : Z -> Z -> bool).
Hypothesis HIntn : forall s n, 0 < n -> 0 <= Intn s n < n.
Hypothesis HPerm : forall s n, Perm s n ≡ₚ seqZ 0 n.
Hypothesis Hshuffle : forall A n (l : list A), shuffle A n l ≡ₚ l.

(** C20: a pool whose failure domain is the host gets all its groups: each has as many OSDs as it
    wants or as there are hosts, all in, with the right number of cores, and no two on one
    host; it is being created, and says whether enough of its OSDs are up; and each host leads
    as many groups as any other, or one more. *)
Theorem new_pool_spreads_groups fuel osds AllHostsMap AllRacksMap pool coreNum :
  let n := Z.of_nat (base.size (in_hosts osds)) in
  hits Intn fuel n -> Forall int_id (map_to_list osds).*1 ->
  pool_domain pool = "host"%string -> Root pool = ""%string -> 1 <= pool_pgsize pool <= 2 * n -> 0 <= pool_pgcount pool < MaxInt32 -> 0 < coreNum ->
  (forall h, h ∈ in_hosts osds -> exists id o, osds !! id = Some o /\ IsIn o = true /\ Host o = h /\ CoreNum o = coreNum) ->
  exists m, CreatePgs Intn Perm shuffle weight_less fuel (Some osds) AllHostsMap AllRacksMap pool coreNum = Ret (inl m) /\
    (forall i, is_Some (m !! i) <-> 0 <= i < pool_pgcount pool) /\
    (forall i c, m !! i = Some c -> group_spread osds (pool_pgsize pool) coreNum c) /\
    (forall h, h ∈ in_hosts osds -> let q := Z.quot (pool_pgcount pool) n in
       q <= count_if (leads osds m h) (seqZ 0 (pool_pgcount pool)) <= q + 1).
Proof.
  intros n Hh Hi Hd Hr Hs Hc Hn Hu. unfold CreatePgs.
  destruct (GetOSDTree_host shuffle Hshuffle osds AllHostsMap AllRacksMap Hi) as (l & all & hosts & t & nodes & -> & Hl & Ht & Ha).
  destruct (tree_hosts osds l hosts t nodes Hl Ht) as [Hdom Hnodes]. assert (Hsz : base.size hosts = base.size (in_hosts osds)) by (rewrite <- Hdom; symmetry; apply size_dom).
  rewrite Hd, Hr. unfold GetFailureDomainNum. rewrite Ha. cbn [from_option]. rewrite Hsz. fold n.
  assert (Hps : getEffectivePGSize (pool_pgsize pool) n = Z.min (pool_pgsize pool) n) by (unfold getEffectivePGSize; destruct (Z.ltb_spec (n * 2) (pool_pgsize pool)); destruct (Z.leb_spec (pool_pgsize pool) n); lia).
  rewrite Hps. set (ps := Z.min (pool_pgsize pool) n). assert (Hps' : 1 <= ps <= n) by lia.
  assert (Hnn : Z.quot ps 2 + 1 <= Z.of_nat (base.size nodes)) by (apply half_fits; unfold n in Hps'; lia).
  rewrite (proj2 (Z.ltb_ge _ _) Hnn), (proj2 (Z.eqb_neq ps 0)) by lia. cbn [orb].
  destruct (FlattenTree_host shuffle weight_less Hshuffle l hosts t nodes all ""%string Ht Ha) as (names & infos & Ef & Hinf & Hnames).
  { intros ->. rewrite dom_empty_L in Hdom. rewrite <- Hdom, size_empty in Hsz. unfold n in Hs. rewrite <- Hdom, size_empty in Hs. lia. }
  rewrite bool_decide_eq_false_2 by tauto. rewrite Ef. set (tree := sort_by _ _).
  assert (Htree : tree ≡ₚ domain_of weight_less l <$> elements (in_hosts osds)) by (unfold tree; rewrite sorted_perm, Hnames, Hdom; done).
  pose proof (domain_length weight_less osds l tree Htree) as Hlen. pose proof (domains_usable weight_less osds l tree coreNum Hl Htree Hu) as Hus.
  set (cfg := {| OSDTree := tree; OSDInfoMap := infos; PGCount := pool_pgcount pool; PGSize := ps; PreviousPGList := ∅ |}).
  destruct (SimpleInitial_spec Intn Perm HIntn HPerm fuel osds cfg (pool_pgsize pool) coreNum) as (m & leaders & pgs & Em & L1 & L2 & L3 & Hp & M1 & M2);
    [cbn [cfg OSDTree PGCount PGSize OSDInfoMap]; rewrite ?Hlen; first [done|lia]..|].
  cbn [default from_option id]. rewrite Em. cbn [mbind go_bind]. exists m. cbn [cfg OSDTree PGCount PGSize PreviousPGList] in *. rewrite Hlen in *. fold n in L2, L3, Hp.
  pose proof (Forall2_length _ _ _ Hp) as Hpl.
  assert (Hat : forall i x, leaders !! i = Some x -> exists c pg, m !! Z.of_nat i = Some c /\ pg !! 0%nat = Some x /\ 0 <= x /\
    in_domains coreNum tree (OsdList c) pg /\ group_spread osds (pool_pgsize pool) coreNum c).
  { intros i x Ex. destruct (Forall2_lookup_r _ _ _ _ _ Hp Ex) as (pg & Epg & Hg & H0). destruct (M2 i pg Epg) as (c & Ec & Hc').
    exists c, pg. split; [done|]. split; [done|]. split; [apply (Forall_lookup_1 _ _ _ _ L3 Ex)|].
    apply (placed_spread weight_less osds l tree coreNum Hl Htree _ (Z.of_nat i)); [rewrite Hlen; exact Hg|done]. }
  split; [done|]. split; [|split].
  - intros i. split; [intros [c Ec]; by apply (M1 i c)|]. intros Hir. destruct (lookup_lt_is_Some_2 leaders (Z.to_nat i)) as [x Ex]; [lia|].
    destruct (Hat _ _ Ex) as (c & _ & Ec & _). rewrite Z2Nat.id in Ec by lia. by eexists.
  - intros i c Ec. pose proof (M1 i c Ec). destruct (lookup_lt_is_Some_2 leaders (Z.to_nat i)) as [x Ex]; [lia|].
    destruct (Hat _ _ Ex) as (c' & _ & Ec' & _ & _ & _ & Hgs). rewrite Z2Nat.id in Ec' by lia. by rewrite Ec in Ec'; injection Ec' as <-.
  - intros h Hin. assert (Hk : domain_of weight_less l h ∈ tree) by (rewrite Htree; apply list_elem_of_fmap_2, elem_of_elements; done).
    apply list_elem_of_lookup in Hk as [k Ek]. pose proof (lookup_lt_Some _ _ _ Ek). cbn zeta. pose proof (L2 (Z.of_nat k) ltac:(lia)) as HL. unfold count_of in HL.
    rewrite <- (count_if_seqZ (leads osds m h)), L1 in HL; [exact HL|]. intros i x Ex. destruct (Hat i x Ex) as (c & pg & A1 & A2 & A3 & A4 & _).
    exact (leads_index weight_less osds l tree coreNum Hl Htree m i c pg x k _ A1 A4 A2 A3 Ek).
Qed.

End new_pool.

(** ** An example *)

Definition counting (s : nat) (n : Z) : Z := Z.of_nat s mod n.

Lemma counting_range s n : 0 < n -> 0 <= counting s n < n.
Proof. intros Hn. by apply Z.mod_pos_bound. Qed.

Lemma counting_hits fuel : (0 < fuel)%nat -> hits counting fuel (Z.of_nat fuel).
Proof.
  intros Hf seed h Hh. exists (Z.to_nat ((h - Z.of_nat seed) mod Z.of_nat fuel)).
  pose proof (Z.mod_pos_bound (h - Z.of_nat seed) (Z.of_nat fuel) ltac:(lia)). split; [lia|]. unfold counting. rewrite Nat2Z.inj_add, Z2Nat.id by lia.
  rewrite Zplus_mod_idemp_r. replace (Z.of_nat seed + (h - Z.of_nat seed)) with h by lia. by apply Z.mod_small.
Qed.

Definition an_osd (id : Z) (host : string) (cores : Z) : OSDInfo :=
  {| Osdid := id; Address := "10.0.0.1"; Uuid := pretty id; Host := host; ShardedPorts := ∅; Size := 4096; IsIn := true; IsUp := negb (id =? 5);
     IsPendingCreate := false; CoreNum := cores; Config := "" |}.

Definition some_osds : gmap Z OSDInfo :=
  list_to_map ((fun '(id, h) => (id, an_osd id h 2)) <$> [(1, "a"); (2, "a"); (3, "b"); (4, "c"); (5, "d"); (6, "d")]%string).

Definition a_pool : PoolConfig :=
  {| Poolid := 1; pool_name := "rbd"; pool_pgsize := 3; pool_pgcount := 6; pool_domain := "host"; Root := ""; PoolPgMap := {| map_version := 0; PgMap := ∅ |} |}.

Lemma new_pool_spreads_groups_witness :
  exists m, CreatePgs counting (fun _ => seqZ 0) (fun _ _ l => l) Z.ltb 4 (Some some_osds) None None a_pool 2 = Ret (inl m) /\
    (forall i, is_Some (m !! i) <-> 0 <= i < 6) /\ (forall i c, m !! i = Some c -> group_spread some_osds 3 2 c).
Proof.
  assert (Hcores : map_Forall (fun _ o => CoreNum o = 2) some_osds) by (apply (bool_decide_unpack (map_Forall _ _)); vm_compute; exact I).
  destruct (new_pool_spreads_groups counting (fun _ => seqZ 0) (fun _ _ l => l) Z.ltb counting_range) with (fuel := 4%nat) (osds := some_osds)
    (AllHostsMap := @None (gmap string BucketConfig)) (AllRacksMap := @None (gmap string BucketConfig)) (pool := a_pool) (coreNum := 2) as (m & E & H1 & H2 & _).
  - done.
  - done.
  - apply (counting_hits 4). lia.
  - apply (bool_decide_unpack (Forall int_id _)). vm_compute. exact I.
  - done.
  - done.
  - vm_compute. split; discriminate.
  - vm_compute. split; [discriminate|reflexivity].
  - done.
  - intros h Hh. apply elem_of_in_hosts in Hh as (id & o & Eo & Hi & Hh). exists id, o. by rewrite (Hcores id o Eo).
  - exact (ex_intro _ m (conj E (conj H1 H2))).
Defined.

End Placement.
