(* ===== verification/OsdServer.v ===== *)
(** * The OSD's end of the raw protocol: requests (src/osd/raw_tcp_server.cc)

    An OSD serves the driver's object requests over TCP.  A connection keeps every
    request it has accepted in flight until it is answered and hands the request to
    the OSD service.  OsdConn has the reading and writing of frames.

    A [shared_ptr] to a request in flight is its index in [store], the requests
    allocated so far; [pending] and [ready] are the deques and [inflight_by_seq]
    the map of the connection.  The service's [process_read], [process_write] and
    [process_delete] answer later, through a callback: dispatching a request yields
    the call made, and the callback is an operation of its own.  Waking the threads
    that wait for the connection has no state of its own. *)

From stdpp Require Import gmap relations.
From S2P Require Import Prelude Wire.
Import (hints) Wire.

Module OsdServer.
Import Wire(kfastblock_raw_header, le, le_to_cpu, pack, unpack, size).

Definition raw_magic : Z := 0x46425257.
Definition raw_version_major : Z := 1.
Definition raw_version_minor : Z := 0.
Definition raw_service_osd : Z := 2.
Definition raw_op_get_leader : Z := 1.
Definition raw_op_read_object : Z := 2.
Definition raw_op_write_object : Z := 3.
Definition raw_op_delete_object : Z := 4.
Definition raw_flag_response : Z := Z.shiftl 1 0.
Definition raw_status_ok : Z := 0.
Definition raw_status_invalid_request : Z := 1.
Definition raw_status_not_found : Z := 2.
Definition raw_status_retry_later : Z := 4.
Definition raw_status_not_leader : Z := 5.
Definition raw_status_pg_initializing : Z := 6.
Definition raw_status_osd_down : Z := 7.
Definition raw_status_internal_error : Z := 8.
Definition max_raw_body_len : Z := 4 * 1024 * 1024 + 1024.
Definition raw_max_inflight_requests : Z := 128.

(** The states of the OSD service (include/fastblock/utils/err_num.h). *)
Definition E_SUCCESS : Z := 0.
Definition E_INVAL : Z := - EINVAL.
Definition RAFT_ERR_NOT_LEADER : Z := -135.
Definition RAFT_ERR_NOT_FOUND_LEADER : Z := -143.
Definition RAFT_ERR_NOT_FOUND_PG : Z := -144.
Definition RAFT_ERR_NO_CONNECTED : Z := -147.
Definition OSD_DOWN : Z := -149.
Definition OSD_STARTING : Z := -150.
Definition RAFT_ERR_PG_INITIALIZING : Z := -152.
Definition RAFT_ERR_MEMBERSHIP_CHANGING : Z := -153.
Definition RAFT_ERR_SNAPSHOT_WAIT_APPLY : Z := -154.
Definition ERR_NOT_FOUND_POOL : Z := -162.

Definition raw_status_from_errno (state : Z) : Z :=
  if state =? E_SUCCESS then raw_status_ok
  else if state =? E_INVAL then raw_status_invalid_request
  else if (state =? RAFT_ERR_NOT_FOUND_PG) || (state =? ERR_NOT_FOUND_POOL)
  then raw_status_not_found
  else if (state =? RAFT_ERR_NOT_FOUND_LEADER) || (state =? RAFT_ERR_NO_CONNECTED)
       || (state =? RAFT_ERR_MEMBERSHIP_CHANGING) || (state =? RAFT_ERR_SNAPSHOT_WAIT_APPLY)
  then raw_status_retry_later
  else if state =? RAFT_ERR_NOT_LEADER then raw_status_not_leader
  else if (state =? RAFT_ERR_PG_INITIALIZING) || (state =? OSD_STARTING)
  then raw_status_pg_initializing
  else if state =? OSD_DOWN then raw_status_osd_down
  else raw_status_internal_error.

(** The header structure is laid out as the driver's. *)
Definition validate_request_header (hdr : kfastblock_raw_header) : bool :=
  (Wire.magic hdr =? raw_magic) && (Wire.version_major hdr =? raw_version_major)
  && (Wire.version_minor hdr =? raw_version_minor) && (Wire.service hdr =? raw_service_osd)
  && negb (has_flag (Wire.flags hdr) raw_flag_response) && (Wire.status hdr =? 0)
  && (Wire.hdr_body_len hdr <=? max_raw_body_len).

(** ** Connections *)

Record osd_raw_tcp_inflight_response := {
  request_header : kfastblock_raw_header;
  response_body : list Z;
  detached : bool;
  completed : bool;
  status : Z;
}.

#[export] Instance eta_inflight : Eta osd_raw_tcp_inflight_response := fun i =>
  {| request_header := request_header i; response_body := response_body i;
     detached := detached i; completed := completed i; status := status i |}.

Record osd_raw_tcp_connection_state := {
  stopping : bool;
  reader_done : bool;
  requests_received : Z;
  responses_ready : Z;
  responses_sent : Z;
  responses_reordered : Z;
  callbacks_dropped : Z;
  protocol_errors : Z;
  peak_pending : Z;
  pending : list nat;
  ready : list nat;
  inflight_by_seq : gmap Z nat;
  store : list osd_raw_tcp_inflight_response;
}.

#[export] Instance eta_conn : Eta osd_raw_tcp_connection_state := fun c =>
  {| stopping := stopping c; reader_done := reader_done c;
     requests_received := requests_received c; responses_ready := responses_ready c;
     responses_sent := responses_sent c; responses_reordered := responses_reordered c;
     callbacks_dropped := callbacks_dropped c;
     protocol_errors := protocol_errors c; peak_pending := peak_pending c;
     pending := pending c; ready := ready c; inflight_by_seq := inflight_by_seq c;
     store := store c |}.

Definition zero_conn : osd_raw_tcp_connection_state :=
  {| stopping := false; reader_done := false; requests_received := 0; responses_ready := 0;
     responses_sent := 0; responses_reordered := 0; callbacks_dropped := 0; protocol_errors := 0; peak_pending := 0; pending := []; ready := []; inflight_by_seq := ∅;
     store := [] |}.

Definition set_inflight (i : nat) (f : osd_raw_tcp_inflight_response -> osd_raw_tcp_inflight_response)
    (c : osd_raw_tcp_connection_state) : osd_raw_tcp_connection_state :=
  c <| store ::= alter f i |>.

Definition stop_connection (c : ptr osd_raw_tcp_connection_state)
    : ptr osd_raw_tcp_connection_state :=
  (fun c =>
    let ids := (map_to_list (inflight_by_seq c)).*2 in
    c <| stopping := true |>
      <| store := foldl (fun s i => alter (fun r => r <| detached := true |>) i s) (store c) ids |>
      <| inflight_by_seq := ∅ |> <| pending := [] |> <| ready := [] |>) <$> c.

(** The result, or [None] while the call waits for a place among the pending
    requests. *)
Definition enqueue_inflight_response (c : ptr osd_raw_tcp_connection_state)
    (inflight : ptr nat) : option (bool * ptr osd_raw_tcp_connection_state) :=
  match c, inflight with
  | Some s, Some i =>
      let seq := from_option (fun r => Wire.seq (request_header r)) 0 (store s !! i) in
      if seq =? 0 then Some (false, c)
      else if negb (stopping s) && negb (Z.of_nat (List.length (pending s)) <? raw_max_inflight_requests)
      then None
      else if stopping s then Some (false, c)
      else if bool_decide (is_Some (inflight_by_seq s !! seq))
      then Some (false, Some (s <| protocol_errors ::= fun n => u64 (n + 1) |>))
      else
        let s := s <| pending ::= fun p => p ++ [i] |> <| inflight_by_seq ::= <[seq := i]> |>
                   <| requests_received ::= fun n => u64 (n + 1) |> in
        let s := if peak_pending s <? Z.of_nat (List.length (pending s))
                 then s <| peak_pending := Z.of_nat (List.length (pending s)) |> else s in
        Some (true, Some s)
  | _, _ => Some (false, c)
  end.

Definition complete_inflight_response (c : ptr osd_raw_tcp_connection_state) (inflight : ptr nat)
    (st : Z) (body : list Z) : ptr osd_raw_tcp_connection_state :=
  match c, inflight with
  | Some s, Some i =>
      match store s !! i with
      | None => c
      | Some r =>
          let drop := Some (s <| callbacks_dropped ::= fun n => u64 (n + 1) |>) in
          if detached r || stopping s || completed r then drop
          else if negb (bool_decide (inflight_by_seq s !! Wire.seq (request_header r) = Some i))
          then drop
          else
            Some (set_inflight i (fun r => r <| status := st |> <| response_body := body |>
                                             <| completed := true |>) s
                    <| ready ::= fun q => q ++ [i] |>
                    <| responses_ready ::= fun n => u64 (n + 1) |>)
      end
  | _, _ => c
  end.

(** ** Bodies *)

Record leader_endpoint := {
  leader_state : Z;
  leader_id : Z;
  leader_addr : string;
  leader_port : Z;
}.

Definition build_leader_response_body (l : leader_endpoint) : list Z :=
  let addr := bytes_of_string (leader_addr l) in
  pack [4; 2; 2]%nat [u32 (leader_id l); u16 (leader_port l); u16 (Z.of_nat (List.length addr))]
  ++ addr.

Definition build_read_response_body (data : list Z) : list Z :=
  pack [4; 4]%nat [u32 (Z.of_nat (List.length data)); 0] ++ data.

(** ** Dispatching a request *)

(** The requests passed to the service. *)
Inductive service_call :=
| process_read (pool_id pg_id offset length : Z) (object_name : list Z)
| process_write (pool_id pg_id offset : Z) (object_name data : list Z)
| process_delete (pool_id pg_id : Z) (object_name : list Z).

(** The part of the OSD service that answers at once. *)
Record osd_service := {
  resolve_pg_leader : Z -> Z -> bool -> leader_endpoint;
}.

Abbreviation conn_ptr := (ptr osd_raw_tcp_connection_state).

(** A dispatcher returns the connection and the call made to the service for the
    request. *)
Definition dispatch_get_leader_request (service : ptr osd_service) (connection : conn_ptr)
    (inflight : ptr nat) (body : list Z) : conn_ptr * option service_call :=
  match service, inflight with
  | Some service, Some _ =>
      if negb (Z.of_nat (List.length body) =? size [4; 4]%nat)
      then (complete_inflight_response connection inflight raw_status_invalid_request [], None)
      else
        let req := unpack [4; 4]%nat body in
        let leader := resolve_pg_leader service (nth 0 req 0) (nth 1 req 0) true in
        if negb (leader_state leader =? E_SUCCESS)
        then (complete_inflight_response connection inflight
                (raw_status_from_errno (leader_state leader)) [], None)
        else if (leader_port leader <=? 0) || (U16_MAX <? leader_port leader)
                || (leader_id leader <? 0)
                || (U16_MAX <? Z.of_nat (String.length (leader_addr leader)))
        then (complete_inflight_response connection inflight raw_status_internal_error [], None)
        else (complete_inflight_response connection inflight raw_status_ok
                (build_leader_response_body leader), None)
  | _, _ => (complete_inflight_response connection inflight raw_status_internal_error [], None)
  end.

Definition dispatch_read_request (service : ptr osd_service) (connection : conn_ptr)
    (inflight : ptr nat) (body : list Z) : conn_ptr * option service_call :=
  match service, inflight with
  | Some _, Some _ =>
      let sz := size [4; 4; 8; 4; 2; 2]%nat in
      if Z.of_nat (List.length body) <? sz
      then (complete_inflight_response connection inflight raw_status_invalid_request [], None)
      else
        let req := unpack [4; 4; 8; 4; 2; 2]%nat body in
        let object_name_len := nth 4 req 0 in
        if negb (Z.of_nat (List.length body) =? sz + object_name_len) || (object_name_len =? 0)
        then (complete_inflight_response connection inflight raw_status_invalid_request [], None)
        else (connection,
              Some (process_read (nth 0 req 0) (nth 1 req 0) (nth 2 req 0) (nth 3 req 0)
                      (take (Z.to_nat object_name_len) (drop (Z.to_nat sz) body))))
  | _, _ => (complete_inflight_response connection inflight raw_status_internal_error [], None)
  end.

(** The callback of a read, with the state and the data of the service's response. *)
Definition read_done (connection : conn_ptr) (inflight : ptr nat) (state : Z) (data : list Z)
    : conn_ptr :=
  if negb (state =? E_SUCCESS)
  then complete_inflight_response connection inflight (raw_status_from_errno state) []
  else if max_raw_body_len - size [4; 4]%nat <? Z.of_nat (List.length data)
  then complete_inflight_response connection inflight raw_status_internal_error []
  else complete_inflight_response connection inflight raw_status_ok (build_read_response_body data).

Definition dispatch_write_request (service : ptr osd_service) (connection : conn_ptr)
    (inflight : ptr nat) (body : list Z) : conn_ptr * option service_call :=
  match service, inflight with
  | Some _, Some _ =>
      let sz := size [4; 4; 8; 4; 2; 2]%nat in
      if Z.of_nat (List.length body) <? sz
      then (complete_inflight_response connection inflight raw_status_invalid_request [], None)
      else
        let req := unpack [4; 4; 8; 4; 2; 2]%nat body in
        let data_len := nth 3 req 0 in
        let object_name_len := nth 4 req 0 in
        if negb (Z.of_nat (List.length body) =? sz + object_name_len + data_len)
           || (object_name_len =? 0)
        then (complete_inflight_response connection inflight raw_status_invalid_request [], None)
        else (connection,
              Some (process_write (nth 0 req 0) (nth 1 req 0) (nth 2 req 0)
                      (take (Z.to_nat object_name_len) (drop (Z.to_nat sz) body))
                      (take (Z.to_nat data_len) (drop (Z.to_nat (sz + object_name_len)) body))))
  | _, _ => (complete_inflight_response connection inflight raw_status_internal_error [], None)
  end.

(** The callback of a write. *)
Definition write_done (connection : conn_ptr) (inflight : ptr nat) (state : Z) : conn_ptr :=
  complete_inflight_response connection inflight (raw_status_from_errno state) [].

Definition dispatch_delete_request (service : ptr osd_service) (connection : conn_ptr)
    (inflight : ptr nat) (body : list Z) : conn_ptr * option service_call :=
  match service, inflight with
  | Some _, Some _ =>
      let sz := size [4; 4; 2; 2]%nat in
      if Z.of_nat (List.length body) <? sz
      then (complete_inflight_response connection inflight raw_status_invalid_request [], None)
      else
        let req := unpack [4; 4; 2; 2]%nat body in
        let object_name_len := nth 2 req 0 in
        if negb (Z.of_nat (List.length body) =? sz + object_name_len) || (object_name_len =? 0)
        then (complete_inflight_response connection inflight raw_status_invalid_request [], None)
        else (connection,
              Some (process_delete (nth 0 req 0) (nth 1 req 0)
                      (take (Z.to_nat object_name_len) (drop (Z.to_nat sz) body))))
  | _, _ => (complete_inflight_response connection inflight raw_status_internal_error [], None)
  end.

(** The callback of a delete. *)
Definition delete_done (connection : conn_ptr) (inflight : ptr nat) (state : Z) : conn_ptr :=
  complete_inflight_response connection inflight (raw_status_from_errno state) [].

(** The connection is there, and the request is one of its own. *)
Definition dispatch_request (service : ptr osd_service) (connection : osd_raw_tcp_connection_state)
    (inflight : ptr nat) (body : list Z) : conn_ptr * option service_call :=
  match inflight with
  | NULL => (Some connection, None)
  | Some i =>
      let hdr := from_option request_header Wire.zero_header (store connection !! i) in
      if negb (validate_request_header hdr)
      then (complete_inflight_response
              (Some (connection <| protocol_errors ::= fun n => u64 (n + 1) |>)) inflight
              raw_status_invalid_request [], None)
      else
        let op := Wire.opcode hdr in
        if op =? raw_op_get_leader
        then dispatch_get_leader_request service (Some connection) inflight body
        else if op =? raw_op_read_object
        then dispatch_read_request service (Some connection) inflight body
        else if op =? raw_op_write_object
        then dispatch_write_request service (Some connection) inflight body
        else if op =? raw_op_delete_object
        then dispatch_delete_request service (Some connection) inflight body
        else (complete_inflight_response (Some connection) inflight raw_status_invalid_request [],
              None)
  end.

(** ** Frames *)

(** The frame built for a completed request. *)
Definition response_frame (r : osd_raw_tcp_inflight_response) : list Z :=
  let h := request_header r in
  Wire.header_bytes
    {| Wire.magic := raw_magic; Wire.version_major := raw_version_major;
       Wire.version_minor := raw_version_minor; Wire.service := raw_service_osd;
       Wire.opcode := Wire.opcode h; Wire.flags := Z.lor (Wire.flags h) raw_flag_response;
       Wire.seq := Wire.seq h; Wire.status := status r;
       Wire.hdr_body_len := u32 (Z.of_nat (List.length (response_body r))) |}
  ++ response_body r.

(** [std::find] and [erase] of the element found. *)
Fixpoint erase (i : nat) (l : list nat) : list nat :=
  match l with
  | [] => []
  | j :: l => if decide (j = i) then l else j :: erase i l
  end.

(** The next response to send: [None] when there is none, [Some None] when the
    request at the front is not pending, or the request and whether it overtakes
    another one. *)
Definition pop_ready (c : osd_raw_tcp_connection_state)
    : option (option (nat * bool)) * osd_raw_tcp_connection_state :=
  match ready c with
  | [] => (None, c)
  | i :: q =>
      let c := c <| ready := q |> in
      if negb (bool_decide (i ∈ pending c)) then (Some None, c)
      else
        let seq := from_option (fun r => Wire.seq (request_header r)) 0 (store c !! i) in
        (Some (Some (i, negb (bool_decide (head (pending c) = Some i)))),
         c <| inflight_by_seq ::= delete seq |> <| pending ::= erase i |>)
  end.

(** A request read from the connection: it is allocated and enqueued. *)
Definition fresh_inflight (hdr : kfastblock_raw_header) : osd_raw_tcp_inflight_response :=
  {| request_header := hdr; response_body := []; detached := false; completed := false;
     status := raw_status_internal_error |}.

Definition accept_request (hdr : kfastblock_raw_header) (c : osd_raw_tcp_connection_state)
    : option (bool * ptr osd_raw_tcp_connection_state) :=
  let i := List.length (store c) in
  enqueue_inflight_response (Some (c <| store ::= fun s => s ++ [fresh_inflight hdr] |>)) (Some i).

(** ** The invariant of the requests in flight *)

(** The requests in flight are exactly the pending ones, by distinct sequence
    numbers; the completed ones among them wait in [ready], once each. *)
Record conn_wf (c : osd_raw_tcp_connection_state) : Prop := {
  cw_nodup : NoDup (pending c);
  cw_map q i : inflight_by_seq c !! q = Some i <->
    i ∈ pending c /\ exists r, store c !! i = Some r /\ Wire.seq (request_header r) = q;
  cw_seq i r : i ∈ pending c -> store c !! i = Some r -> Wire.seq (request_header r) <> 0;
  cw_store i : i ∈ pending c -> is_Some (store c !! i);
  cw_ready_nodup : NoDup (ready c);
  cw_ready i : i ∈ ready c <-> i ∈ pending c /\ exists r, store c !! i = Some r /\ completed r = true;
  cw_bound : Z.of_nat (List.length (pending c)) <= raw_max_inflight_requests;
}.

Lemma zero_conn_wf : conn_wf zero_conn.
Proof.
  split; simpl; [constructor| | | |constructor| |done]; intros; try split; try done; set_solver.
Qed.

Lemma erase_nodup i l : NoDup l -> NoDup (erase i l) /\ forall j, j ∈ erase i l <-> j ∈ l /\ j <> i.
Proof.
  induction l as [|x l IH]; intros Hnd; simpl; [split; [constructor|set_solver]|].
  apply NoDup_cons in Hnd as [Hx Hnd]. destruct (IH Hnd) as [H1 H2].
  destruct (decide (x = i)) as [->|Hne]; [split; [done|set_solver]|]. split; [|set_solver].
  constructor; [|done]. rewrite H2. tauto.
Qed.

Lemma erase_length i l : i ∈ l -> List.length l = S (List.length (erase i l)).
Proof.
  induction l as [|x l IH]; intros Hi; [set_solver|]. simpl.
  destruct (decide (x = i)); [done|]. simpl. rewrite IH; set_solver.
Qed.

Lemma stop_connection_wf c c' : stop_connection (Some c) = Some c' -> conn_wf c'.
Proof.
  intros E; injection E as <-.
  split; simpl; [constructor| | | |constructor| |done]; intros; try split; try done; set_solver.
Qed.

Lemma enqueue_spec c i r b c' :
  store c !! i = Some r -> enqueue_inflight_response (Some c) (Some i) = Some (b, Some c') ->
  (b = false /\ (c' = c \/ c' = c <| protocol_errors ::= fun n => u64 (n + 1) |>)) \/
  (b = true /\ Wire.seq (request_header r) <> 0 /\ stopping c = false /\
   Z.of_nat (List.length (pending c)) < raw_max_inflight_requests /\
   inflight_by_seq c !! Wire.seq (request_header r) = None /\
   pending c' = pending c ++ [i] /\
   inflight_by_seq c' = <[Wire.seq (request_header r) := i]> (inflight_by_seq c) /\
   ready c' = ready c /\ store c' = store c).
Proof.
  intros Hr. unfold enqueue_inflight_response. rewrite Hr. cbn [from_option].
  destruct (Z.eqb_spec (Wire.seq (request_header r)) 0) as [E0|E0].
  { intros E; injection E as <- <-. left. by split; [|left]. }
  destruct (stopping c) eqn:Es; cbn [negb andb].
  { intros E; injection E as <- <-. left. by split; [|left]. }
  destruct (Z.ltb_spec (Z.of_nat (List.length (pending c))) raw_max_inflight_requests) as [Hl|Hl];
    cbn [negb]; [|done].
  case_bool_decide as Hd.
  { intros E; injection E as <- <-. left. by split; [|right]. }
  intros E; injection E as <- <-. right.
  assert (Hn : inflight_by_seq c !! Wire.seq (request_header r) = None).
  { apply eq_None_not_Some. done. }
  case_match; by repeat split.
Qed.

(** Growing the store changes nothing about the requests in it. *)
Lemma store_app_wf c r : conn_wf c -> conn_wf (c <| store ::= fun s => s ++ [r] |>).
Proof.
  intros [H1 H2 H3 H4 H5 H6 H7].
  assert (Hs : forall i x, i ∈ pending c -> (store c ++ [r]) !! i = Some x <-> store c !! i = Some x).
  { intros i x Hi. destruct (H4 i Hi) as [y Hy]. by rewrite lookup_app_l by by eapply lookup_lt_Some. }
  split; simpl; try done.
  - intros q i. rewrite H2. split; intros (Hi & x & Hx & Hq); (split; [done|]); exists x;
      (split; [|done]); by apply Hs.
  - intros i x Hi Hx%Hs; [by eapply H3|done].
  - intros i Hi. destruct (H4 i Hi) as [y Hy]. exists y. by apply Hs.
  - intros i. rewrite H6. split; intros (Hi & x & Hx & Hq); (split; [done|]); exists x;
      (split; [|done]); by apply Hs.
Qed.

Lemma accept_wf hdr c c' :
  conn_wf c -> accept_request hdr c = Some (true, Some c') -> conn_wf c'.
Proof.
  intros Hw E. pose proof (store_app_wf c (fresh_inflight hdr) Hw) as Hw'.
  unfold accept_request in E.
  apply (enqueue_spec _ _ (fresh_inflight hdr)) in E.
  2: { simpl. by rewrite lookup_app_r, Nat.sub_diag by lia. }
  destruct E as [[? _]|(_ & Hs & _ & Hl & Hn & E1 & E2 & E3 & E4)]; [done|].
  set (c1 := c <| store ::= fun s => s ++ [fresh_inflight hdr] |>) in *.
  set (i := List.length (store c)) in *.
  assert (Hi : store c1 !! i = Some (fresh_inflight hdr)).
  { subst c1 i. simpl. by rewrite lookup_app_r, Nat.sub_diag by lia. }
  assert (Hni : i ∉ pending c).
  { intros Hin. destruct (cw_store _ Hw i Hin) as [x Hx%lookup_lt_Some]. subst i. lia. }
  assert (Hni' : i ∉ pending c1) by exact Hni.
  clearbody i c1. destruct Hw' as [H1 H2 H3 H4 H5 H6 H7].
  split; rewrite ?E1, ?E2, ?E3, ?E4.
  - apply NoDup_app. split; [done|]. split; [set_solver|apply NoDup_singleton].
  - intros q j. rewrite lookup_insert_Some, H2. split.
    + intros [[<- <-]|(Hq & Hj & x & Hx & Ex)].
      * split; [set_solver|]. exists (fresh_inflight hdr). by split.
      * split; [set_solver|]. by exists x.
    + intros (Hj & x & Hx & Ex). apply elem_of_app in Hj as [Hj|Hj].
      * right. split; [|split; [done|by exists x]]. intros Eq.
        assert (inflight_by_seq c1 !! q = Some j) by (apply H2; split; [done|by exists x]).
        congruence.
      * apply list_elem_of_singleton in Hj as ->. left. by simplify_eq.
  - intros j x Hj Hx. apply elem_of_app in Hj as [Hj|Hj]; [by eapply H3|].
    apply list_elem_of_singleton in Hj as ->. by simplify_eq.
  - intros j Hj. apply elem_of_app in Hj as [Hj|Hj]; [by apply H4|].
    apply list_elem_of_singleton in Hj as ->. by eexists.
  - done.
  - intros j. rewrite H6. split.
    + intros (Hj & x & Hx & Ec). split; [set_solver|by exists x].
    + intros (Hj & x & Hx & Ec). apply elem_of_app in Hj as [Hj|Hj]; [by split; [|exists x]|].
      apply list_elem_of_singleton in Hj as ->. by simplify_eq.
  - rewrite length_app. simpl. lia.
Qed.

Lemma drop_wf c : conn_wf c -> conn_wf (c <| callbacks_dropped ::= fun n => u64 (n + 1) |>).
Proof. by intros [H1 H2 H3 H4 H5 H6 H7]. Qed.

Lemma complete_wf i st body c c' :
  conn_wf c -> complete_inflight_response (Some c) (Some i) st body = Some c' -> conn_wf c'.
Proof.
  intros Hw. unfold complete_inflight_response.
  destruct (store c !! i) as [r|] eqn:Hr; [|by intros [= <-]].
  destruct (detached r || stopping c || completed r) eqn:Hd;
    [intros E; injection E as <-; exact (drop_wf c Hw)|].
  case_bool_decide as Hm; cbn [negb]; [|intros E; injection E as <-; exact (drop_wf c Hw)].
  rewrite !orb_false_iff in Hd. destruct Hd as [_ Hnc].
  destruct Hw as [H1 H2 H3 H4 H5 H6 H7]. apply H2 in Hm as (Hi & _).
  intros E; injection E as <-.
  match goal with |- conn_wf ?x => set (c' := x) end.
  assert (Hst : forall j, store c' !! j = if decide (j = i)
      then Some (r <| status := st |> <| response_body := body |> <| completed := true |>)
      else store c !! j).
  { intros j. subst c'. simpl. rewrite list_lookup_alter. destruct (decide (j = i)) as [->|Hne].
    - by rewrite decide_True, Hr by done.
    - by rewrite decide_False by congruence. }
  assert (Ep : pending c' = pending c) by done. assert (Em : inflight_by_seq c' = inflight_by_seq c) by done.
  assert (Er : ready c' = ready c ++ [i]) by done. clearbody c'.
  assert (Hnr : i ∉ ready c) by (rewrite H6; intros (_ & x & Hx & Hc); congruence).
  split; rewrite ?Ep, ?Em, ?Er; try done.
  - intros q j. rewrite H2, Hst. destruct (decide (j = i)) as [->|]; [|done].
    rewrite Hr. split; intros (Hj & x & [= <-] & Hx); (split; [done|]); by eexists.
  - intros j x Hj. rewrite Hst. case_decide; [|by apply H3]. subst. intros [= <-]. by apply (H3 i r).
  - intros j Hj. rewrite Hst. case_decide; [by eexists|by apply H4].
  - apply NoDup_app. split; [done|]. split; [set_solver|apply NoDup_singleton].
  - intros j. rewrite elem_of_app, list_elem_of_singleton, H6, Hst. split.
    + intros [(Hj & x & Hx & Hc)| ->]; [|rewrite decide_True by done; eauto].
      split; [done|]. destruct (decide (j = i)) as [->|]; eauto.
    + intros (Hj & x & Hx & Hc). destruct (decide (j = i)); [by right|left; eauto].
Qed.

(** What taking the next ready response does. *)
Lemma pop_ready_spec c out c' :
  conn_wf c -> pop_ready c = (out, c') ->
  (ready c = [] /\ out = None /\ c' = c) \/
  exists i q r b, ready c = i :: q /\ i ∈ pending c /\ store c !! i = Some r /\ completed r = true /\
    out = Some (Some (i, b)) /\ store c' = store c /\ ready c' = q /\
    pending c' = erase i (pending c) /\
    inflight_by_seq c' = delete (Wire.seq (request_header r)) (inflight_by_seq c) /\
    stopping c' = stopping c.
Proof.
  intros Hw. unfold pop_ready. destruct (ready c) as [|i q] eqn:Er.
  { intros E; injection E as <- <-. by left. }
  destruct (proj1 (cw_ready _ Hw i)) as (Hi & r & Hr & Hc); [rewrite Er; by left|].
  change (pending (c <| ready := q |>)) with (pending c).
  change (store (c <| ready := q |>)) with (store c).
  rewrite bool_decide_true by done. cbn [negb]. rewrite Hr.
  intros E; injection E as <- <-. right. eexists i, q, r, _. by repeat split.
Qed.

Lemma pop_ready_wf c out c' : conn_wf c -> pop_ready c = (out, c') -> conn_wf c'.
Proof.
  intros Hw E. destruct (pop_ready_spec _ _ _ Hw E) as [(_ & _ & ->)|H]; [done|].
  destruct H as (i & q & r & b & Er & Hi & Hr & Hc & _ & Es & Eq & Ep & Em & _).
  destruct Hw as [H1 H2 H3 H4 H5 H6 H7]. destruct (erase_nodup i _ H1) as [Hnd Hin].
  rewrite Er in H5. apply NoDup_cons in H5 as [Hnq Hq].
  assert (Hu : forall j x, j ∈ pending c -> store c !! j = Some x ->
    Wire.seq (request_header x) = Wire.seq (request_header r) -> j = i).
  { intros j x Hj Hx Es'. assert (E1 : inflight_by_seq c !! Wire.seq (request_header r) = Some j).
    { apply H2. split; [done|by exists x]. }
    assert (E2 : inflight_by_seq c !! Wire.seq (request_header r) = Some i).
    { apply H2. split; [done|by exists r]. } congruence. }
  split; rewrite ?Ep, ?Em, ?Es, ?Eq; try done.
  - intros k j. rewrite lookup_delete_Some, H2, Hin. split.
    + intros (Hk & Hj & x & Hx & Ex). split; [split; [done|]|by exists x]. intros ->. congruence.
    + intros ((Hj & Hne) & x & Hx & Ex). split; [|split; [done|by exists x]]. intros <-.
      by apply Hne, (Hu j x).
  - intros j x Hj Hx. apply Hin in Hj as [Hj _]. by eapply H3.
  - intros j Hj. apply Hin in Hj as [Hj _]. by apply H4.
  - intros j. rewrite Hin. specialize (H6 j). rewrite Er, elem_of_cons in H6. split.
    + intros Hj. destruct (proj1 H6 (or_intror Hj)) as (Hp & Hx). split; [|done]. split; [done|].
      intros ->. done.
    + intros ((Hj & Hne) & Hx). destruct (proj2 H6 (conj Hj Hx)); [done|done].
  - pose proof (erase_length i _ Hi). lia.
Qed.

(** With 128 requests pending, the next one waits; no callback of the service makes
    room for it, only sending a response does, which the waiting thread itself
    would have to do. *)
Theorem full_connection_blocks_itself (hdr : kfastblock_raw_header) (c : osd_raw_tcp_connection_state)
    (calls : list (nat * Z * list Z)) :
  stopping c = false -> Wire.seq hdr <> 0 ->
  Z.of_nat (List.length (pending c)) = raw_max_inflight_requests ->
  exists c', foldl (fun c '(i, st, body) => complete_inflight_response c (Some i) st body)
               (Some c) calls = Some c' /\ accept_request hdr c' = None.
Proof.
  intros Hs Hq Hl. revert c Hs Hl. induction calls as [|[[i st] body] calls IH]; intros c Hs Hl.
  - exists c. split; [done|]. unfold accept_request, enqueue_inflight_response. simpl.
    rewrite lookup_app_r, Nat.sub_diag by lia. cbn.
    rewrite (proj2 (Z.eqb_neq _ _) Hq), Hs, Hl. done.
  - cbn [foldl]. assert (H : exists c1, complete_inflight_response (Some c) (Some i) st body = Some c1 /\
      stopping c1 = false /\ pending c1 = pending c).
    { unfold complete_inflight_response. destruct (store c !! i); [|by exists c].
      case_match; [by eexists|]. case_match; by eexists. }
    destruct H as (c1 & -> & Hs1 & Hp1). apply IH; [done|]. by rewrite Hp1.
Qed.

End OsdServer.
