(* ===== verification/OsdConn.v ===== *)
(** * The OSD's end of the raw protocol: connections (src/osd/raw_tcp_server.cc)

    The listener thread of a shard reads requests and writes responses on
    non-blocking sockets: a frame may arrive in any number of pieces, over any
    number of polls, and a response may be accepted in pieces.  The connection
    keeps the part of a frame that it has.

    A socket is what it will do: [rx] is what the calls of [recv] will return, [tx]
    what the calls of [send] will, and [written] the bytes sent.  A socket with
    nothing left in [rx] or [tx] would block.  Time passes in these lists, so that
    they cover every pace at which the peer sends and receives. *)

From stdpp Require Import gmap relations.
From S2P Require Import Prelude Wire OsdServer.
Import (hints) Wire OsdServer.

Module OsdConn.
Import OsdServer.
Import Wire(kfastblock_raw_header, size, header_layout, header_bytes, header_of_bytes, hdr_body_len).

(** ** Sockets and contexts *)

Inductive recv_event :=
| Arrive (b : Z) (bs : list Z)
| RecvInterrupted
| RecvWouldBlock
| RecvClosed
| RecvFailed (errno : N).

(** [Accept n]: the call takes up to [n + 1] of the bytes offered. *)
Inductive send_event :=
| Accept (n : nat)
| SendNothing
| SendInterrupted
| SendWouldBlock
| SendFailed (errno : N).

Record socket := {
  rx : list recv_event;
  tx : list send_event;
  written : list Z;
}.

#[export] Instance eta_socket : Eta socket := fun s =>
  {| rx := rx s; tx := tx s; written := written s |}.

(** [open]: the context has a descriptor or an SPDK socket. *)
Record connection_context := {
  sock : socket;
  open : bool;
  done : bool;
  recv_frame : list Z;
  recv_header_bytes : Z;
  recv_body_bytes : Z;
  recv_target_body_bytes : Z;
  send_bytes : Z;
  send_reordered : bool;
  send_frame : list Z;
  sending : ptr nat;
  state : osd_raw_tcp_connection_state;
}.

#[export] Instance eta_context : Eta connection_context := fun c =>
  {| sock := sock c; open := open c; done := done c; recv_frame := recv_frame c;
     recv_header_bytes := recv_header_bytes c; recv_body_bytes := recv_body_bytes c;
     recv_target_body_bytes := recv_target_body_bytes c; send_bytes := send_bytes c;
     send_reordered := send_reordered c; send_frame := send_frame c; sending := sending c;
     state := state c |}.

Definition fresh_context (s : socket) : connection_context :=
  {| sock := s; open := true; done := false; recv_frame := []; recv_header_bytes := 0;
     recv_body_bytes := 0; recv_target_body_bytes := 0; send_bytes := 0; send_reordered := false;
     send_frame := []; sending := NULL; state := zero_conn |}.

(** ** Reading *)

Definition reset_connection_frame (c : connection_context) : connection_context :=
  c <| recv_frame := [] |> <| recv_header_bytes := 0 |> <| recv_body_bytes := 0 |>
    <| recv_target_body_bytes := 0 |>.

(** [vector::resize]: new elements are zero. *)
Definition resize (n : Z) (l : list Z) : list Z :=
  take (Z.to_nat n) l ++ replicate (Z.to_nat n - List.length l) 0.

(** [memcpy] of [bs] to [buf + pos]. *)
Definition write_at (pos : Z) (bs buf : list Z) : list Z :=
  take (Z.to_nat pos) buf ++ bs ++ drop (Z.to_nat pos + List.length bs) buf.

(** The loop of [fill_connection_frame] while [completed < target], with the
    [recv] of [connection_recv]; [buf] is [frame + base].  The result, the frame,
    [completed] and what the socket does afterwards. *)
Fixpoint fill_connection_frame (s : list recv_event) (base target completed : Z) (frame : list Z)
    : Z * list Z * Z * list recv_event :=
  if negb (completed <? target) then (1, frame, completed, s)
  else
    match s with
    | [] => (0, frame, completed, s)
    | Arrive b bs :: s =>
        let n := Z.min (Z.of_nat (List.length (b :: bs))) (target - completed) in
        let frame := write_at (base + completed) (take (Z.to_nat n) (b :: bs)) frame in
        match drop (Z.to_nat n) (b :: bs) with
        | [] => fill_connection_frame s base target (completed + n) frame
        | b :: bs => (1, frame, completed + n, Arrive b bs :: s)
        end
    | RecvInterrupted :: s => fill_connection_frame s base target completed frame
    | RecvWouldBlock :: s => (0, frame, completed, s)
    | RecvClosed :: s => (- ECONNRESET, frame, completed, s)
    | RecvFailed errno :: s =>
        (if truthy (- Z.of_N errno) then - Z.of_N errno else - EIO, frame, completed, s)
    end.

(** The result of a call: the value returned, [*hdr_out] and [*body_out] when it is
    1, and the context. *)
Definition receive_result : Type :=
  Z * option (kfastblock_raw_header * list Z) * connection_context.

(** The part of [try_receive_one_request] that completes the header: a return, or
    on to the body. *)
Definition receive_header (c : connection_context) : connection_context + receive_result :=
  let sz := size header_layout in
  let '(ret, frame, n, s) :=
    fill_connection_frame (rx (sock c)) 0 sz (recv_header_bytes c) (recv_frame c) in
  let c := c <| recv_frame := frame |> <| recv_header_bytes := n |>
             <| sock ::= fun k => k <| rx := s |> |> in
  if ret <=? 0 then inr (ret, None, c)
  else
    let hdr := header_of_bytes (take (Z.to_nat sz) (recv_frame c)) in
    if negb (validate_request_header hdr)
    then inr (- EPROTO, None, reset_connection_frame c)
    else
      let c := c <| recv_target_body_bytes := hdr_body_len hdr |>
                 <| recv_frame ::= resize (sz + hdr_body_len hdr) |> in
      if recv_target_body_bytes c =? 0
      then inr (1, Some (hdr, []), reset_connection_frame c)
      else inl c.

(** The part that completes the body. *)
Definition receive_body (c : connection_context) : receive_result :=
  let sz := size header_layout in
  let '(ret, frame, n, s) :=
    fill_connection_frame (rx (sock c)) sz (recv_target_body_bytes c) (recv_body_bytes c)
      (recv_frame c) in
  let c := c <| recv_frame := frame |> <| recv_body_bytes := n |>
             <| sock ::= fun k => k <| rx := s |> |> in
  if ret <=? 0 then (ret, None, c)
  else (1, Some (header_of_bytes (take (Z.to_nat sz) (recv_frame c)),
                 drop (Z.to_nat sz) (recv_frame c)),
        reset_connection_frame c).

Definition try_receive_one_request (c : connection_context) : receive_result :=
  let sz := size header_layout in
  let c := if decide (recv_frame c = []) then c <| recv_frame ::= resize sz |> else c in
  match (if recv_header_bytes c <? sz then receive_header c else inl c) with
  | inr r => r
  | inl c => receive_body c
  end.

(** ** Writing *)

Definition reset_connection_send (c : connection_context) : connection_context :=
  c <| send_bytes := 0 |> <| send_reordered := false |> <| send_frame := [] |> <| sending := NULL |>.

(** The loop of [flush_connection_send_frame], with the [send] of
    [connection_send]: the result, [send_bytes], what the socket does afterwards
    and the bytes written. *)
Fixpoint flush_loop (s : list send_event) (frame : list Z) (send_bytes : Z) (written : list Z)
    : Z * Z * list send_event * list Z :=
  if negb (send_bytes <? Z.of_nat (List.length frame)) then (1, send_bytes, s, written)
  else
    match s with
    | [] => (0, send_bytes, s, written)
    | Accept n :: s =>
        let rc := Z.min (Z.of_nat n + 1) (Z.of_nat (List.length frame) - send_bytes) in
        flush_loop s frame (send_bytes + rc)
          (written ++ take (Z.to_nat rc) (drop (Z.to_nat send_bytes) frame))
    | SendNothing :: s => (- EIO, send_bytes, s, written)
    | SendInterrupted :: s => flush_loop s frame send_bytes written
    | SendWouldBlock :: s => (0, send_bytes, s, written)
    | SendFailed errno :: s =>
        (if truthy (- Z.of_N errno) then - Z.of_N errno else - EIO, send_bytes, s, written)
    end.

Definition flush_connection_send_frame (c : connection_context) : Z * connection_context :=
  let '(ret, n, s, w) := flush_loop (tx (sock c)) (send_frame c) (send_bytes c) (written (sock c)) in
  (ret, c <| send_bytes := n |> <| sock ::= fun k => k <| tx := s |> <| written := w |> |>).

Definition close_connection (conn : ptr connection_context) : ptr connection_context :=
  (fun c =>
    c <| state ::= fun st =>
           default st (stop_connection (Some (st <| reader_done := true |>))) |>
      <| open := false |> <| done := true |>) <$> conn.

(** [close_connection] of a context that is there. *)
Definition closed (c : connection_context) : connection_context :=
  default c (close_connection (Some c)).

(** ** Serving a connection *)

(** The guards of [service_connection_io] and [service_connection_write]. *)
Definition in_service (c : connection_context) : bool := negb (done c) && open c.

(** One round of the loop of [service_connection_io]: [None] while it waits in
    [enqueue_inflight_response]; otherwise the context, the call made to the
    service for a request, and whether the loop goes on. *)
Definition io_round (service : ptr osd_service) (c : connection_context)
    : option (connection_context * option (nat * service_call) * bool) :=
  let '(recv_ret, req, c) := try_receive_one_request c in
  match req with
  | Some (hdr, body) =>
      match accept_request hdr (state c) with
      | None => None
      | Some (ok, st) =>
          let i := List.length (store (state c)) in
          let c := c <| state ::= fun s => default s st |> in
          if negb ok then Some (closed c, None, false)
          else
            let '(st, call) := dispatch_request service (state c) (Some i) body in
            Some (c <| state ::= fun s => default s st |>, pair i <$> call, true)
      end
  | None =>
      if recv_ret <? 0
      then Some (closed (c <| state ::= fun s =>
                   s <| protocol_errors ::= fun n => u64 (n + 1) |> |>), None, false)
      else Some (c, None, false)
  end.

Fixpoint io_loop (fuel : nat) (service : ptr osd_service) (c : connection_context)
    : option (connection_context * list (nat * service_call)) :=
  match fuel with
  | O => Some (c, [])
  | S fuel =>
      '(c, call, more) ← io_round service c;
      if more : bool then
        '(c, calls) ← io_loop fuel service c;
        Some (c, option_list call ++ calls)
      else Some (c, option_list call)
  end.

(** Bytes still to arrive: a round that goes on takes a header's worth of them, or
    ends a frame that had begun. *)
Definition arriving (s : list recv_event) : list Z :=
  concat ((fun e => match e with Arrive b bs => b :: bs | _ => [] end) <$> s).

(** [error]: one of [POLLERR], [POLLHUP] and [POLLNVAL] is set. *)
Definition service_connection_io (service : ptr osd_service) (conn : ptr connection_context)
    (error pollin : bool) : option (ptr connection_context * list (nat * service_call)) :=
  match conn with
  | NULL => Some (conn, [])
  | Some c =>
      if negb (in_service c) then Some (conn, [])
      else if error then Some (close_connection conn, [])
      else if negb pollin then Some (conn, [])
      else
        '(c, calls) ← io_loop (S (S (List.length (arriving (rx (sock c)))))) service c;
        Some (Some c, calls)
  end.

(** The end of a round of [service_connection_write], with a frame to send; the
    flag says whether the loop goes on. *)
Definition send_round (c : connection_context) : connection_context * bool :=
  let '(ret, c) := flush_connection_send_frame c in
  if ret <? 0 then (closed c, false)
  else if ret =? 0 then (c, false)
  else
    let c := c <| state ::= fun s => s <| responses_sent ::= fun n => u64 (n + 1) |> |> in
    let c := if send_reordered c
             then c <| state ::= fun s => s <| responses_reordered ::= fun n => u64 (n + 1) |> |>
             else c in
    (reset_connection_send c, true).

(** A round: the next frame is chosen unless one is being sent. *)
Definition write_round (c : connection_context) : connection_context * bool :=
  match sending c with
  | Some _ => send_round c
  | NULL =>
      match pop_ready (state c) with
      | (None, st) => (c <| state := st |>, false)
      | (Some None, st) => (c <| state := st |>, true)
      | (Some (Some (i, reordered)), st) =>
          let c := c <| state := st |> <| send_reordered := reordered |> <| sending := Some i |> in
          send_round (c <| send_frame := from_option response_frame [] (store st !! i) |>)
      end
  end.

Fixpoint write_loop (fuel : nat) (running : bool) (c : connection_context) : connection_context :=
  match fuel with
  | O => c
  | S fuel =>
      if running && negb (stopping (state c)) then
        let '(c, more) := write_round c in
        if more then write_loop fuel running c else c
      else c
  end.

(** Every round that goes on takes a request from [ready] or ends the one being
    sent, so the fuel is enough. *)
Definition service_connection_write (running : bool) (conn : ptr connection_context)
    : ptr connection_context :=
  (fun c =>
    if negb (in_service c) then c
    else write_loop (S (S (List.length (ready (state c))))) running c) <$> conn.

(** ** Receiving, however the bytes arrive *)

Lemma take_write_at pos bs buf :
  0 <= pos <= Z.of_nat (List.length buf) ->
  take (Z.to_nat (pos + Z.of_nat (List.length bs))) (write_at pos bs buf)
  = take (Z.to_nat pos) buf ++ bs.
Proof.
  intros Hp. unfold write_at. rewrite app_assoc, take_app_length'; [done|].
  rewrite length_app, length_take. lia.
Qed.

Lemma length_write_at pos bs buf :
  0 <= pos -> pos + Z.of_nat (List.length bs) <= Z.of_nat (List.length buf) ->
  List.length (write_at pos bs buf) = List.length buf.
Proof.
  intros H1 H2. unfold write_at. rewrite !length_app, length_take, length_drop. lia.
Qed.

Lemma arriving_cons e s :
  arriving (e :: s) = match e with Arrive b bs => b :: bs | _ => [] end ++ arriving s.
Proof. done. Qed.

(** The events that can be left: the rest of the list, perhaps with the end of a
    piece before it. *)
Definition weight (s : list recv_event) : nat := (List.length (arriving s) + List.length s)%nat.

(** What one fill does. *)
Record filled (s : list recv_event) (base target completed : Z) (frame : list Z)
    (ret : Z) (frame' : list Z) (n : Z) (s' : list recv_event) (got : list Z) : Prop := {
  fl_count : n = completed + Z.of_nat (List.length got);
  fl_bound : n <= target;
  fl_bytes : arriving s = got ++ arriving s';
  fl_length : List.length frame' = List.length frame;
  fl_frame : take (Z.to_nat (base + n)) frame' = take (Z.to_nat (base + completed)) frame ++ got;
  fl_ret : ret = 1 /\ n = target \/ ret = 0 /\ n < target /\ (s' = [] \/ (List.length s' < List.length s)%nat) \/
           ret < 0 /\ n < target /\ exists e, e ∈ s /\ (e = RecvClosed \/ exists k, e = RecvFailed k);
  fl_events : (List.length s' <= List.length s)%nat;
  fl_subset : forall e, e ∈ s' -> (exists b bs, e = Arrive b bs) \/ e ∈ s;
}.

(** The event [e] with the bytes [pre], and then a fill of the rest. *)
Lemma filled_cons e pre s base target completed frame fr ret frame' n s' got :
  match e with Arrive b bs => b :: bs | _ => [] end = pre ->
  List.length fr = List.length frame ->
  take (Z.to_nat (base + (completed + Z.of_nat (List.length pre)))) fr
  = take (Z.to_nat (base + completed)) frame ++ pre ->
  filled s base target (completed + Z.of_nat (List.length pre)) fr ret frame' n s' got ->
  filled (e :: s) base target completed frame ret frame' n s' (pre ++ got).
Proof.
  intros He Hl Ht [F1 F2 F3 F4 F5 F6 F7 F8]. split.
  - rewrite length_app. lia.
  - done.
  - rewrite arriving_cons, F3, He. by rewrite app_assoc.
  - lia.
  - rewrite F5, Ht. by rewrite app_assoc.
  - destruct F6 as [F6|[(-> & ? & F6)|(? & ? & x & Hx & F6)]]; [by left| |].
    + right; left. split; [done|]. split; [done|]. simpl. destruct F6; [by left|right; lia].
    + right; right. split; [done|]. split; [done|]. exists x. split; [by right|done].
  - simpl; lia.
  - intros x Hx. destruct (F8 x Hx); [by left|right; by right].
Qed.

(** A fill that ends at once. *)
Lemma filled_now s s' base target completed frame ret :
  completed <= target -> arriving s = arriving s' -> s' `suffix_of` s ->
  ret = 1 /\ completed = target \/
  ret = 0 /\ completed < target /\ (s' = [] \/ (List.length s' < List.length s)%nat) \/
  ret < 0 /\ completed < target /\ (exists e, e ∈ s /\ (e = RecvClosed \/ exists k, e = RecvFailed k)) ->
  filled s base target completed frame ret frame completed s' [].
Proof.
  intros Hc Ha [pre ->] Hr. split; simpl; rewrite ?app_nil_r, ?Z.add_0_r; try done.
  - rewrite length_app. lia.
  - intros e He. right. apply elem_of_app. by right.
Qed.

Lemma fill_spec s : forall base target completed frame ret frame' n s',
  0 <= base -> 0 <= completed <= target -> base + target <= Z.of_nat (List.length frame) ->
  fill_connection_frame s base target completed frame = (ret, frame', n, s') ->
  exists got, filled s base target completed frame ret frame' n s' got.
Proof.
  induction s as [|e s IH]; intros base target completed frame ret frame' n s' Hb Hc Hl;
    cbn [fill_connection_frame]; destruct (Z.ltb_spec completed target) as [Hlt|Hge]; cbn [negb].
  1, 2, 4: intros E; injection E as <- <- <- <-; exists [];
    apply filled_now; try (done || lia); solve [right; left; auto|left; lia].
  assert (Hsuf : s `suffix_of` e :: s) by by exists [e].
  destruct e as [b bs| | | |errno].
  - set (data := b :: bs). set (k := Z.min _ _).
    assert (Hk : 0 < k <= target - completed) by (subst k data; simpl; lia).
    assert (Htk : List.length (take (Z.to_nat k) data) = Z.to_nat k)
      by (rewrite length_take; subst k; lia).
    pose proof (take_write_at (base + completed) (take (Z.to_nat k) data) frame) as Htw.
    pose proof (length_write_at (base + completed) (take (Z.to_nat k) data) frame) as Hlw.
    rewrite Htk in Htw, Hlw. set (fr := write_at _ _ _) in *.
    specialize (Hlw ltac:(lia) ltac:(lia)). specialize (Htw ltac:(lia)).
    destruct (drop (Z.to_nat k) data) as [|b' bs'] eqn:Ed.
    + assert (Hd : take (Z.to_nat k) data = data).
      { rewrite <- (take_drop (Z.to_nat k) data) at 2. by rewrite Ed, app_nil_r. }
      rewrite Hd in Htk, Htw.
      intros E. apply IH in E as (got & F); [|lia|lia|lia]. exists (data ++ got).
      apply (filled_cons _ data _ _ _ _ _ fr); [done|done| |].
      * rewrite <- Htw. f_equal. lia.
      * by replace (Z.of_nat (List.length data)) with k by lia.
    + intros E; injection E as <- <- <- <-. exists (take (Z.to_nat k) data ++ []).
      assert (E0 : List.length (drop (Z.to_nat k) data) = S (List.length bs')) by by rewrite Ed.
      rewrite length_drop in E0. assert (Hkt : k = target - completed) by (subst k; lia).
      split; rewrite ?app_nil_r; try lia; try done.
      * rewrite !arriving_cons, <- Ed. fold data. by rewrite app_assoc, take_drop.
      * rewrite <- Htw. f_equal. lia.
      * intros e He. apply elem_of_cons in He as [->|He]; [left; eauto|right; by right].
  - intros E. apply IH in E as (got & F); [|done..]. exists ([] ++ got).
    apply (filled_cons _ [] _ _ _ _ _ frame); [done|done| |].
    + by rewrite app_nil_r, Z.add_0_r.
    + by rewrite Z.add_0_r.
  - intros E; injection E as <- <- <- <-. exists []. apply filled_now; [lia|done|done|].
    right; left. split; [done|]. split; [done|]. right. simpl. lia.
  - intros E; injection E as <- <- <- <-. exists []. apply filled_now; [lia|done|done|].
    right; right. split; [unfold ECONNRESET; lia|]. split; [done|]. exists RecvClosed.
    split; [by left|by left].
  - intros E; injection E as <- <- <- <-. exists []. apply filled_now; [lia|done|done|].
    right; right. split; [case_match; unfold truthy, EIO in *; unbool; lia|]. split; [done|].
    exists (RecvFailed errno). split; [by left|right; eauto].
Qed.

(** The first frame of a sequence of bytes: [None] when it is incomplete,
    [Some None] when its header is refused, or the request and what follows. *)
Definition next_frame (bs : list Z) : option (option (kfastblock_raw_header * list Z * list Z)) :=
  let sz := Z.to_nat (size header_layout) in
  if (List.length bs <? sz)%nat then None
  else
    let hdr := header_of_bytes (take sz bs) in
    if negb (validate_request_header hdr) then Some None
    else
      let rest := drop sz bs in
      let n := Z.to_nat (hdr_body_len hdr) in
      if (List.length rest <? n)%nat then None else Some (Some (hdr, take n rest, drop n rest)).

Definition header_at (bs : list Z) : kfastblock_raw_header := header_of_bytes (take 28 bs).
#[global] Arguments header_at : simpl never.

(** The context has the bytes [p] of a frame that is not complete. *)
Record header_part (c : connection_context) (p : list Z) : Prop := {
  hp_len : Z.of_nat (List.length p) < 28;
  hp_bytes : recv_header_bytes c = Z.of_nat (List.length p);
  hp_body : recv_body_bytes c = 0;
  hp_target : recv_target_body_bytes c = 0;
  hp_frame : recv_frame c = [] /\ p = [] \/
             List.length (recv_frame c) = 28%nat /\ take (List.length p) (recv_frame c) = p;
}.

Record body_part (c : connection_context) (p : list Z) : Prop := {
  bp_header : recv_header_bytes c = 28;
  bp_len : Z.of_nat (List.length p) = 28 + recv_body_bytes c;
  bp_bytes : 0 <= recv_body_bytes c < recv_target_body_bytes c;
  bp_valid : validate_request_header (header_at p) = true;
  bp_target : recv_target_body_bytes c = hdr_body_len (header_at p);
  bp_frame : Z.of_nat (List.length (recv_frame c)) = 28 + recv_target_body_bytes c;
  bp_taken : take (List.length p) (recv_frame c) = p;
}.

Definition holds (c : connection_context) (p : list Z) : Prop := header_part c p \/ body_part c p.

Lemma holds_incomplete c p : holds c p -> next_frame p = None.
Proof.
  unfold next_frame. change (Z.to_nat (size header_layout)) with 28%nat.
  intros [[H1 _ _ _ _]|[_ H2 H3 H4 H5 _ _]].
  - by rewrite (proj2 (Nat.ltb_lt _ _)) by lia.
  - rewrite (proj2 (Nat.ltb_ge _ _)) by lia. fold (header_at p). rewrite H4. cbn [negb].
    rewrite length_drop, (proj2 (Nat.ltb_lt _ _)); [done|]. lia.
Qed.

Lemma next_frame_whole p rest :
  validate_request_header (header_at p) = true -> 0 <= hdr_body_len (header_at p) ->
  Z.of_nat (List.length p) = 28 + hdr_body_len (header_at p) ->
  next_frame (p ++ rest) = Some (Some (header_at p, drop 28 p, rest)).
Proof.
  intros Hv Hn Hl. unfold next_frame. change (Z.to_nat (size header_layout)) with 28%nat.
  rewrite length_app, (proj2 (Nat.ltb_ge _ _)) by lia.
  rewrite take_app_le by lia. fold (header_at p). rewrite Hv. cbn [negb].
  rewrite drop_app_le by lia. rewrite length_app, (proj2 (Nat.ltb_ge _ _)) by (rewrite length_drop; lia).
  rewrite take_app_length', drop_app_length' by (rewrite length_drop; lia). done.
Qed.

Lemma next_frame_refused p rest :
  validate_request_header (header_at p) = false -> (28 <= List.length p)%nat ->
  next_frame (p ++ rest) = Some None.
Proof.
  intros Hv Hl. unfold next_frame. change (Z.to_nat (size header_layout)) with 28%nat.
  rewrite length_app, (proj2 (Nat.ltb_ge _ _)), take_app_le by lia. fold (header_at p). by rewrite Hv.
Qed.

(** Only the receiving side of the context changes. *)
Definition only_recv (c c' : connection_context) : Prop :=
  (open c', done c', send_bytes c', send_reordered c', send_frame c', sending c', state c',
   tx (sock c'), written (sock c'))
  = (open c, done c, send_bytes c, send_reordered c, send_frame c, sending c, state c,
     tx (sock c), written (sock c)).

Definition breaks (s : list recv_event) : Prop :=
  exists e, e ∈ s /\ (e = RecvClosed \/ exists k, e = RecvFailed k).

(** What one call makes of the bytes [p] that it had and those that it got. *)
Definition received (c c' : connection_context) (p : list Z) (ret : Z)
    (req : option (kfastblock_raw_header * list Z)) : Prop :=
  match req with
  | Some (hdr, body) => ret = 1 /\ holds c' [] /\
      forall rest, next_frame (p ++ rest) = Some (Some (hdr, body, rest))
  | None =>
      ret = 0 /\ holds c' p /\
        (rx (sock c') = [] \/ (List.length (rx (sock c')) < List.length (rx (sock c)))%nat) \/
      ret = - EPROTO /\ (forall rest, next_frame (p ++ rest) = Some None) \/
      ret < 0 /\ breaks (rx (sock c))
  end.

(** The events left are events of before, or the end of a piece. *)
Record later (s s' : list recv_event) (got : list Z) : Prop := {
  lt_bytes : arriving s = got ++ arriving s';
  lt_length : (List.length s' <= List.length s)%nat;
  lt_subset : forall e, e ∈ s' -> (exists b bs, e = Arrive b bs) \/ e ∈ s;
}.

Lemma later_trans s1 s2 s3 g1 g2 : later s1 s2 g1 -> later s2 s3 g2 -> later s1 s3 (g1 ++ g2).
Proof.
  intros [A1 A2 A3] [B1 B2 B3]. split.
  - by rewrite A1, B1, app_assoc.
  - lia.
  - intros e He. destruct (B3 e He) as [?|He']; [by left|]. by apply A3.
Qed.

Lemma breaks_later s s' got : later s s' got -> breaks s' -> breaks s.
Proof.
  intros Hl (e & He & Hk). exists e. split; [|done].
  destruct (lt_subset _ _ _ Hl e He) as [(b & bs & ->)|?]; [|done].
  by destruct Hk as [|[? ?]].
Qed.

Lemma filled_later s base target completed frame ret frame' n s' got :
  filled s base target completed frame ret frame' n s' got -> later s s' got.
Proof. by intros []. Qed.

Lemma holds_reset c : holds (reset_connection_frame c) [].
Proof. left. split; simpl; try done. by left. Qed.

(** What a call does, from the bytes [p] it had. *)
Definition received_from (c c' : connection_context) (p : list Z) (ret : Z)
    (req : option (kfastblock_raw_header * list Z)) : Prop :=
  exists got, later (rx (sock c)) (rx (sock c')) got /\ only_recv c c' /\
    received c c' (p ++ got) ret req.

Lemma receive_body_spec c p ret req c' :
  body_part c p -> receive_body c = (ret, req, c') -> received_from c c' p ret req.
Proof.
  intros [B1 B2 B3 B4 B5 B6 B7]. unfold receive_body. change (size header_layout) with 28.
  destruct (fill_connection_frame _ _ _ _ _) as [[[r frame] n] s] eqn:Ef.
  apply fill_spec in Ef as (got & F); [|lia|lia|lia]. pose proof (filled_later _ _ _ _ _ _ _ _ _ _ F) as Hlt.
  destruct F as [F1 F2 F3 F4 F5 F6 F7 F8].
  rewrite <- B2, Nat2Z.id, B7 in F5.
  assert (Hh : header_at (p ++ got) = header_at p).
  { unfold header_at. rewrite take_app_le by lia. done. }
  assert (Hpl : Z.of_nat (List.length (p ++ got)) = 28 + n) by (rewrite length_app; lia).
  intros E. exists got. destruct (Z.leb_spec r 0) as [Hr|Hr].
  - injection E as <- <- <-. split; [done|]. split; [reflexivity|].
    destruct F6 as [[-> _]|[(-> & Hn & Hs)|(Hn & _ & Hs)]]; [lia| |by right; right].
    left. split; [done|]. split; [|done]. right. split; rewrite ?Hh; try exact B4; try exact B5; simpl; try done; try lia.
    etransitivity; [|exact F5]. f_equal. lia.
  - destruct F6 as [[-> Hn]|[(-> & _)|(? & _)]]; [|lia|lia].
    assert (Hf : frame = p ++ got).
    { rewrite <- F5. symmetry. apply take_ge. lia. }
    injection E as <- <- <-. split; [done|].
    split; [reflexivity|].
    split; [done|]. split; [apply holds_reset|]. intros rest. cbn [recv_frame set_field]. simpl. rewrite Hf.
    apply next_frame_whole; rewrite ?Hh; [done|lia|lia].
Qed.

Lemma only_recv_trans c1 c2 c3 : only_recv c1 c2 -> only_recv c2 c3 -> only_recv c1 c3.
Proof. unfold only_recv. congruence. Qed.

Definition bytes (l : list Z) : Prop := Forall (fun b => 0 <= b < 256) l.

Lemma body_len_nonneg bs : bytes bs -> 0 <= hdr_body_len (header_of_bytes bs).
Proof.
  intros Hb. unfold header_of_bytes, Wire.header_of_fields. cbn [hdr_body_len].
  by apply Wire.nth_nonneg, Wire.unpack_nonneg.
Qed.

(** A header that has been completed, and found good, with the context for its body. *)
Lemma receive_header_spec c p :
  header_part c p -> recv_frame c <> [] -> bytes (p ++ arriving (rx (sock c))) ->
  match receive_header c with
  | inr (ret, req, c') => received_from c c' p ret req
  | inl c' => exists got, later (rx (sock c)) (rx (sock c')) got /\ only_recv c c' /\
                body_part c' (p ++ got)
  end.
Proof.
  intros [H1 H2 H3 H4 H5] Hne Hby. destruct H5 as [[? _]|[Hl Ht]]; [done|].
  unfold receive_header. change (size header_layout) with 28.
  destruct (fill_connection_frame _ _ _ _ _) as [[[r frame] n] s] eqn:Ef.
  apply fill_spec in Ef as (got & F); [|lia|lia|lia]. pose proof (filled_later _ _ _ _ _ _ _ _ _ _ F) as Hlt.
  destruct F as [F1 F2 F3 F4 F5 F6 F7 F8]. rewrite !Z.add_0_l, H2, Nat2Z.id, Ht in F5.
  assert (Hpl : Z.of_nat (List.length (p ++ got)) = n) by (rewrite length_app; lia).
  destruct (Z.leb_spec r 0) as [Hr|Hr].
  { exists got. split; [done|]. split; [reflexivity|].
    destruct F6 as [[-> _]|[(-> & Hn & Hs)|(Hn & _ & Hs)]]; [lia| |by right; right].
    left. split; [done|]. split; [|done]. left. split; simpl; try done; try lia.
    right. split; [lia|]. etransitivity; [|exact F5]. f_equal. lia. }
  destruct F6 as [[-> Hn]|[(-> & _)|(? & _)]]; [|lia|lia].
  assert (Hf : frame = p ++ got).
  { rewrite <- F5. symmetry. apply take_ge. lia. }
  simpl recv_frame. change (Z.to_nat 28) with 28%nat. rewrite Hf. fold (header_at (p ++ got)).
  assert (Hnn : 0 <= hdr_body_len (header_at (p ++ got))).
  { apply body_len_nonneg, Forall_take. rewrite F3, app_assoc in Hby. by apply Forall_app in Hby as [? _]. }
  destruct (validate_request_header (header_at (p ++ got))) eqn:Hv; cbn [negb].
  2: { exists got. split; [done|]. split; [reflexivity|].
       right; left. split; [done|]. intros rest. apply next_frame_refused; [done|lia]. }
  match goal with |- context [recv_target_body_bytes ?x =? 0] =>
    change (recv_target_body_bytes x) with (hdr_body_len (header_at (p ++ got))) end.
  destruct (Z.eqb_spec (hdr_body_len (header_at (p ++ got))) 0) as [E0|E0].
  { exists got. split; [done|]. split; [reflexivity|].
    split; [done|]. split; [apply holds_reset|]. intros rest.
    rewrite (next_frame_whole _ _ Hv) by lia. by rewrite (drop_ge (p ++ got) 28) by lia. }
  exists got. split; [done|]. split; [reflexivity|].
  assert (Hrs : Z.of_nat (List.length (resize (28 + hdr_body_len (header_at (p ++ got))) (p ++ got)))
    = 28 + hdr_body_len (header_at (p ++ got))).
  { unfold resize. rewrite length_app, length_take, length_replicate. lia. }
  split; [exact Hn| | |exact Hv|reflexivity|exact Hrs|].
  - change (Z.of_nat (List.length (p ++ got)) = 28 + recv_body_bytes c). lia.
  - change (0 <= recv_body_bytes c < hdr_body_len (header_at (p ++ got))). lia.
  - change (take (List.length (p ++ got)) (resize (28 + hdr_body_len (header_at (p ++ got))) (p ++ got))
      = p ++ got).
    unfold resize. rewrite take_app_le by (rewrite length_take; lia).
    rewrite take_take. apply take_ge. lia.
Qed.

Lemma receive_spec c p ret req c' :
  holds c p -> bytes (p ++ arriving (rx (sock c))) -> try_receive_one_request c = (ret, req, c') ->
  received_from c c' p ret req.
Proof.
  unfold try_receive_one_request. change (size header_layout) with 28. intros Hh Hby.
  set (c1 := if decide (recv_frame c = []) then _ else c).
  assert (Hc1 : only_recv c c1 /\ rx (sock c1) = rx (sock c) /\ recv_frame c1 <> [] /\ holds c1 p).
  { subst c1. destruct (decide (recv_frame c = [])) as [E|E].
    - split; [reflexivity|]. split; [done|]. simpl. rewrite E. split; [done|].
      destruct Hh as [[H1 H2 H3 H4 H5]|[_ _ H3 _ _ H6 _]].
      + destruct H5 as [[_ ->]|[H5 _]]; [|by rewrite E in H5].
        left. split; simpl; try done. by right.
      + rewrite E in H6. simpl in H6. lia.
    - split; [reflexivity|]. by repeat split. }
  clearbody c1. destruct Hc1 as (Ho & Er & Hne & Hh1). rewrite <- Er in Hby.
  assert (Hd : (recv_header_bytes c1 <? 28) = true -> header_part c1 p).
  { destruct Hh1 as [?|[B1 _ _ _ _ _ _]]; [done|]. rewrite B1. done. }
  assert (Hb : (recv_header_bytes c1 <? 28) = false -> body_part c1 p).
  { destruct Hh1 as [[H1 H2 _ _ _]|?]; [|done]. rewrite H2, Z.ltb_ge. lia. }
  assert (Hgoal : forall c', received_from c1 c' p ret req -> received_from c c' p ret req).
  { intros c2 (got & G1 & G2 & G3). exists got. rewrite <- Er. split; [done|].
    split; [by eapply only_recv_trans|]. unfold received in *. by rewrite <- Er. }
  destruct (recv_header_bytes c1 <? 28) eqn:E.
  - pose proof (receive_header_spec c1 p (Hd eq_refl) Hne Hby) as Hs.
    destruct (receive_header c1) as [c2|[[r q] c2]].
    + destruct Hs as (got & Hlt & Ho2 & Hbp). intros E2.
      apply (receive_body_spec _ (p ++ got)) in E2 as (got2 & G1 & G2 & G3); [|done].
      apply Hgoal. exists (got ++ got2). split; [by eapply later_trans|].
      split; [by eapply only_recv_trans|]. rewrite app_assoc. unfold received in *.
      destruct req as [[hdr body]|]; [done|].
      destruct G3 as [(? & ? & G)|[?|[? G]]]; [left|by right; left|right; right].
      * split; [done|]. split; [done|]. destruct G as [?|G]; [by left|right].
        pose proof (lt_length _ _ _ Hlt). lia.
      * split; [done|]. by eapply breaks_later.
    + intros E2. injection E2 as -> -> ->. by apply Hgoal.
  - intros E2. apply Hgoal. eapply receive_body_spec; [by apply Hb|done].
Qed.

(** ** Requests on a stream *)

(** The requests that a connection receives, over all the polls until nothing is
    left to arrive, and the error that ends it, or 0. *)
Fixpoint receive_all (fuel : nat) (c : connection_context)
    : list (kfastblock_raw_header * list Z) * Z :=
  match fuel with
  | O => ([], 0)
  | S fuel =>
      let '(ret, req, c) := try_receive_one_request c in
      match req with
      | Some r => let '(l, e) := receive_all fuel c in (r :: l, e)
      | None => if ret <? 0 then ([], ret)
                else match rx (sock c) with [] => ([], 0) | _ => receive_all fuel c end
      end
  end.

(** The requests in a sequence of bytes, and whether a header is refused. *)
Fixpoint split_frames (fuel : nat) (bs : list Z) : list (kfastblock_raw_header * list Z) * Z :=
  match fuel with
  | O => ([], 0)
  | S fuel =>
      match next_frame bs with
      | None => ([], 0)
      | Some None => ([], - EPROTO)
      | Some (Some (hdr, body, rest)) => let '(l, e) := split_frames fuel rest in ((hdr, body) :: l, e)
      end
  end.

(** A call that returns a request has taken bytes from the socket. *)
Lemma received_takes c c' p got ret hdr body :
  holds c p -> received c c' (p ++ got) ret (Some (hdr, body)) -> got <> [].
Proof.
  intros Hh (_ & _ & Hn) ->. specialize (Hn []). rewrite !app_nil_r in Hn.
  by rewrite (holds_incomplete _ _ Hh) in Hn.
Qed.

Lemma receive_all_spec n : forall c p m,
  holds c p -> bytes (p ++ arriving (rx (sock c))) -> ~ breaks (rx (sock c)) ->
  (weight (rx (sock c)) < n)%nat -> (List.length (p ++ arriving (rx (sock c))) < m)%nat ->
  receive_all n c = split_frames m (p ++ arriving (rx (sock c))).
Proof.
  induction n as [|n IH]; intros c p m Hh Hby Hbr Hw Hm; [lia|]. cbn [receive_all].
  destruct m as [|m]; [lia|]. cbn [split_frames].
  destruct (try_receive_one_request c) as [[ret req] c'] eqn:E.
  pose proof (receive_spec _ _ _ _ _ Hh Hby E) as (got & Hlt & _ & Hr).
  pose proof (lt_bytes _ _ _ Hlt) as Ha. pose proof (lt_length _ _ _ Hlt) as Hl.
  assert (Hbr' : ~ breaks (rx (sock c'))) by (intros Hb; by eapply Hbr, breaks_later).
  unfold weight in *. rewrite Ha, app_assoc in *. rewrite !length_app in *.
  destruct req as [[hdr body]|].
  - pose proof (received_takes _ _ _ _ _ _ _ Hh Hr) as Hg. destruct Hr as (_ & Hh' & Hn). rewrite Hn.
    assert (Hg' : (0 < List.length got)%nat) by (destruct got; [done|simpl; lia]).
    rewrite (IH c' [] m Hh'); simpl; [done| |done|lia|lia]. by apply Forall_app in Hby as [_ ?].
  - destruct Hr as [(-> & Hh' & Hs)|[(-> & Hn)|(_ & ?)]]; [| |done].
    + change (0 <? 0) with false. cbv iota. destruct (rx (sock c')) as [|e s'] eqn:Es.
      * change (arriving []) with (@nil Z). by rewrite app_nil_r, (holds_incomplete _ _ Hh').
      * destruct Hs as [|Hs]; [done|]. rewrite <- Es in *.
        rewrite (IH c' (p ++ got) (S m) Hh'); [done|done|done|lia|rewrite !length_app; lia].
    + rewrite Hn. done.
Qed.

(** C9: Requests do not depend on how their bytes arrive: whatever the pieces in
    which the peer's bytes come, and whatever the interruptions and the polls
    between them, an OSD connection receives exactly the frames of the bytes, and
    ends with a protocol error exactly when a frame's header is refused. *)
Theorem frames_independent_of_arrival (s : socket) :
  bytes (arriving (rx s)) -> ~ breaks (rx s) ->
  receive_all (S (weight (rx s))) (fresh_context s)
  = split_frames (S (List.length (arriving (rx s)))) (arriving (rx s)).
Proof.
  intros Hby Hbr. apply (receive_all_spec _ (fresh_context s) []); simpl; try done; try lia.
  left. split; simpl; try done. by left.
Qed.

(** ** What the operations do to the requests in flight *)

(** Answered requests keep their answer, and only new requests become pending. *)
Record evolves (c c' : osd_raw_tcp_connection_state) : Prop := {
  ev_wf : conn_wf c -> conn_wf c';
  ev_length : (List.length (store c) <= List.length (store c'))%nat;
  ev_answers i r : store c !! i = Some r -> completed r = true ->
    exists r', store c' !! i = Some r' /\ completed r' = true /\ response_frame r' = response_frame r;
  ev_pending i : i ∈ pending c' -> i ∈ pending c \/ (List.length (store c) <= i)%nat;
}.

#[export] Instance evolves_preorder : PreOrder evolves.
Proof.
  split.
  - intros c. split; [done|done|by eauto|by left].
  - intros c1 c2 c3 [A1 A2 A3 A4] [B1 B2 B3 B4]. split; [auto|lia| |].
    + intros i r Hi Hr. destruct (A3 i r Hi Hr) as (r2 & H2 & Hc2 & E2).
      destruct (B3 i r2 H2 Hc2) as (r3 & H3 & Hc3 & E3). exists r3. by rewrite E3.
    + intros i Hi. destruct (B4 i Hi) as [Hi'|]; [|right; lia]. by apply A4.
Qed.

(** Changing counters only. *)
Lemma evolves_counters c c' :
  stopping c' = stopping c -> pending c' = pending c -> ready c' = ready c ->
  inflight_by_seq c' = inflight_by_seq c -> store c' = store c -> evolves c c'.
Proof.
  intros E1 E2 E3 E4 E5. split; rewrite ?E5; [|done|by eauto|rewrite E2; by left].
  intros [H1 H2 H3 H4 H5 H6 H7]. split; by rewrite ?E2, ?E3, ?E4, ?E5.
Qed.

Lemma evolves_complete c i st body c' :
  complete_inflight_response (Some c) (Some i) st body = Some c' -> evolves c c'.
Proof.
  intros E. split; [intros Hw; by eapply complete_wf|..];
    unfold complete_inflight_response in E; destruct (store c !! i) as [r|] eqn:Hr.
  2, 4, 6: injection E as <-; by eauto.
  all: destruct (detached r || stopping c || completed r) eqn:Hd; [injection E as <-; by eauto|].
  all: case_bool_decide; cbn [negb] in E; injection E as <-; try by eauto.
  - simpl. by rewrite length_alter.
  - intros j x Hj Hc. exists x. split; [|done]. simpl. rewrite list_lookup_alter_ne; [done|].
    intros <-. rewrite Hr in Hj. injection Hj as <-. by rewrite Hc, orb_true_r in Hd.
Qed.

Lemma frame_detached r : response_frame (r <| detached := true |>) = response_frame r.
Proof. unfold response_frame. reflexivity. Qed.

Lemma evolves_stop c c' : stop_connection (Some c) = Some c' -> evolves c c'.
Proof.
  intros E. split; [intros _; by eapply stop_connection_wf|..]; injection E as <-; simpl.
  - generalize (map_to_list (inflight_by_seq c)).*2. intros l.
    generalize (store c). induction l as [|j l IH]; intros s; simpl; [done|].
    specialize (IH (alter (fun r => r <| detached := true |>) j s)). by rewrite length_alter in IH.
  - generalize (map_to_list (inflight_by_seq c)).*2. intros l.
    generalize (store c). induction l as [|j l IH]; intros s i r Hi Hr; simpl; [by eauto|].
    destruct (decide (j = i)) as [->|Hne].
    + destruct (IH (alter (fun r => r <| detached := true |>) i s) i (r <| detached := true |>))
        as (r' & H1 & H2 & H3); [by rewrite list_lookup_alter_eq, Hi|exact Hr|].
      exists r'. split; [exact H1|]. split; [exact H2|]. rewrite H3. apply frame_detached.
    + apply (IH _ i r); [|done]. by rewrite list_lookup_alter_ne.
  - set_solver.
Qed.

Lemma evolves_accept hdr c b c' : accept_request hdr c = Some (b, Some c') -> evolves c c'.
Proof.
  intros E. pose proof (fun Hw => accept_wf hdr c c' Hw) as Hwf. unfold accept_request in *.
  set (c1 := c <| store ::= fun s => s ++ [fresh_inflight hdr] |>) in *.
  assert (H1 : evolves c c1).
  { split; [apply store_app_wf| | |by left]; simpl.
    - rewrite length_app. lia.
    - intros i r Hi Hr. exists r. by rewrite lookup_app_l by by eapply lookup_lt_Some. }
  pose proof E as E'. apply (enqueue_spec _ _ (fresh_inflight hdr)) in E'.
  2: { simpl. by rewrite lookup_app_r, Nat.sub_diag by lia. }
  destruct E' as [(-> & [->| ->])|(-> & _ & _ & _ & _ & E1 & E2 & E3 & E4)]; [done| |].
  - transitivity c1; [done|]. by apply evolves_counters.
  - destruct H1 as [_ A2 A3 _]. split; [auto|by rewrite E4|by rewrite E4|].
    rewrite E1. intros i [Hi|Hi]%elem_of_app; [by left|].
    apply list_elem_of_singleton in Hi as ->. by right.
Qed.

Lemma evolves_pop c out c' : conn_wf c -> pop_ready c = (out, c') -> evolves c c'.
Proof.
  intros Hw E. pose proof (pop_ready_wf _ _ _ Hw E) as Hw'.
  destruct (pop_ready_spec _ _ _ Hw E) as [(_ & _ & ->)|H]; [done|].
  destruct H as (i & q & r & b & _ & _ & _ & _ & _ & Es & _ & Ep & _).
  split; rewrite ?Es; [done|done|by eauto|]. intros j Hj. left. rewrite Ep in Hj.
  by apply (erase_nodup i _ (cw_nodup _ Hw)) in Hj as [? _].
Qed.

(** Every branch of the dispatchers completes the request or calls the service. *)
Lemma evolves_dispatch service c i body st call :
  dispatch_request service c (Some i) body = (st, call) ->
  exists c', st = Some c' /\ evolves c c'.
Proof.
  assert (Hc : forall c0 s b, evolves c c0 ->
    exists c', complete_inflight_response (Some c0) (Some i) s b = Some c' /\ evolves c c').
  { intros c0 s b H0. assert (Hx : exists c', complete_inflight_response (Some c0) (Some i) s b = Some c').
    { unfold complete_inflight_response. repeat case_match; by eexists. }
    destruct Hx as [c' E]. exists c'. split; [done|]. transitivity c0; [done|]. by eapply evolves_complete. }
  unfold dispatch_request, dispatch_get_leader_request, dispatch_read_request,
    dispatch_write_request, dispatch_delete_request.
  repeat case_match; intros E; apply (f_equal fst) in E; cbn [fst] in E; rewrite <- E;
    first [by eexists|apply Hc; first [done|by apply evolves_counters]].
Qed.

(** ** The life of a connection *)

(** A round of reading or of writing by the listener thread, a callback of the
    service, the end of the connection, or the end of the server.  Callbacks run
    under the connection's mutex: one that falls between the locked sections of a
    round (accepting a request and answering that one) has the same effect before
    the round. *)
Inductive serve_step (service : ptr osd_service) : connection_context -> connection_context -> Prop :=
| serve_io c c' call more :
    in_service c = true -> io_round service c = Some (c', call, more) -> serve_step service c c'
| serve_write c c' more :
    in_service c = true -> stopping (state c) = false -> write_round c = (c', more) ->
    serve_step service c c'
| serve_callback i st body c st' :
    complete_inflight_response (Some (state c)) (Some i) st body = Some st' ->
    serve_step service c (c <| state := st' |>)
| serve_close c : serve_step service c (closed c)
| serve_stop c st' :
    stop_connection (Some (state c)) = Some st' ->
    serve_step service c (c <| state := st' |> <| open := false |>).

(** The frame of the answer to request [i]. *)
Definition frame_of (c : connection_context) (i : nat) : list Z :=
  from_option response_frame [] (store (state c) !! i).

(** What has been written: the frames of the answered requests [ids], each once,
    and what has been sent of the next. *)
Record sent_inv (c : connection_context) (ids : list nat) : Prop := {
  si_wf : conn_wf (state c);
  si_written : written (sock c)
    = concat (frame_of c <$> ids) ++ take (Z.to_nat (send_bytes c)) (send_frame c);
  si_nodup : NoDup (ids ++ option_list (sending c));
  si_answered i : i ∈ ids ++ option_list (sending c) ->
    (i ∉ pending (state c)) /\ exists r, store (state c) !! i = Some r /\ completed r = true;
  si_sending : 0 <= send_bytes c <= Z.of_nat (List.length (send_frame c)) /\
    send_frame c = from_option (frame_of c) [] (sending c);
}.

Lemma frame_of_evolves c c' i :
  evolves (state c) (state c') -> (exists r, store (state c) !! i = Some r /\ completed r = true) ->
  frame_of c' i = frame_of c i.
Proof.
  intros He (r & Hr & Hc). unfold frame_of. destruct (ev_answers _ _ He i r Hr Hc) as (r' & Hr' & _ & E).
  rewrite Hr, Hr'. exact E.
Qed.

(** The sending side does not notice the requests that come and go. *)
Lemma sent_evolves c c' ids :
  sent_inv c ids -> evolves (state c) (state c') ->
  written (sock c') = written (sock c) -> send_bytes c' = send_bytes c ->
  send_frame c' = send_frame c -> sending c' = sending c -> sent_inv c' ids.
Proof.
  intros [H1 H2 H3 H4 H5] He E1 E2 E3 E4.
  assert (Hf : forall i, i ∈ ids ++ option_list (sending c) -> frame_of c' i = frame_of c i).
  { intros i Hi. apply frame_of_evolves; [done|]. by apply H4. }
  split; rewrite ?E1, ?E2, ?E3, ?E4; [by apply (ev_wf _ _ He)| |done| |].
  - rewrite H2. f_equal. f_equal. apply list_fmap_ext. intros k i Hi. symmetry. apply Hf, elem_of_app.
    left. by eapply list_elem_of_lookup_2.
  - intros i Hi. destruct (H4 i Hi) as (Hn & r & Hr & Hc). split.
    + intros Hp. destruct (ev_pending _ _ He i Hp) as [?|Hl]; [done|].
      apply lookup_lt_Some in Hr. lia.
    + destruct (ev_answers _ _ He i r Hr Hc) as (r' & Hr' & Hc' & _). by exists r'.
  - destruct H5 as [? H5]. split; [done|]. rewrite H5. destruct (sending c) as [i|]; [|done].
    simpl. symmetry. apply Hf. set_solver.
Qed.

Lemma flush_spec s frame n w ret n' s' w' :
  0 <= n <= Z.of_nat (List.length frame) -> flush_loop s frame n w = (ret, n', s', w') ->
  n <= n' <= Z.of_nat (List.length frame) /\
  (forall pre, w = pre ++ take (Z.to_nat n) frame -> w' = pre ++ take (Z.to_nat n') frame) /\
  (ret = 1 /\ n' = Z.of_nat (List.length frame) \/ ret <= 0).
Proof.
  revert n w. induction s as [|e s IH]; intros n w Hn; cbn [flush_loop];
    destruct (Z.ltb_spec n (Z.of_nat (List.length frame))) as [Hlt|Hge]; cbn [negb].
  1, 2, 4: intros E; injection E as <- <- <- <-; split; [lia|]; split; [done|]; (by right) || (left; lia).
  destruct e as [k| | | |errno].
  - set (rc := Z.min _ _). assert (Hrc : 0 < rc <= Z.of_nat (List.length frame) - n) by lia.
    intros E. apply IH in E as (H1 & H2 & H3); [|lia]. split; [lia|]. split; [|done].
    intros pre ->. apply H2. rewrite <- app_assoc. f_equal.
    rewrite take_take_drop. f_equal. lia.
  - intros E; injection E as <- <- <- <-. split; [lia|]. split; [done|]. by right.
  - apply IH. lia.
  - intros E; injection E as <- <- <- <-. split; [lia|]. split; [done|]. by right.
  - intros E; injection E as <- <- <- <-. split; [lia|]. split; [done|]. right.
    unfold EIO. case_match; lia.
Qed.

Lemma sent_closed c ids : sent_inv c ids -> sent_inv (closed c) ids.
Proof.
  intros H. apply (sent_evolves c); try done. unfold closed. simpl.
  transitivity (state c <| reader_done := true |>); [by apply evolves_counters|].
  by eapply evolves_stop.
Qed.

(** Sending more of the frame at hand. *)
Lemma sent_flush c ids ret c' :
  sent_inv c ids -> flush_connection_send_frame c = (ret, c') ->
  sent_inv c' ids /\ sending c' = sending c /\ state c' = state c /\
  (ret = 1 /\ send_bytes c' = Z.of_nat (List.length (send_frame c')) \/ ret <= 0).
Proof.
  intros [H1 H2 H3 H4 H5]. unfold flush_connection_send_frame.
  destruct (flush_loop _ _ _ _) as [[[r n] s] w] eqn:E. intros Eq; injection Eq as <- <-.
  destruct H5 as [Hn Hs]. apply flush_spec in E as (E1 & E2 & E3); [|done].
  split; [|done]. split; try done.
  - change (w = concat (frame_of c <$> ids) ++ take (Z.to_nat n) (send_frame c)). by apply E2.
  - split; [|done]. change (0 <= n <= Z.of_nat (List.length (send_frame c))). lia.
Qed.

(** The frame at hand has been sent. *)
Lemma sent_reset c ids i :
  sent_inv c ids -> sending c = Some i -> send_bytes c = Z.of_nat (List.length (send_frame c)) ->
  sent_inv (reset_connection_send c) (ids ++ [i]).
Proof.
  intros [H1 H2 H3 H4 [_ H5]] Hi Hb. rewrite Hi in *. simpl in H3, H4, H5. split; try done.
  - simpl. rewrite app_nil_r, H2, fmap_app, concat_app. simpl. rewrite app_nil_r. f_equal.
    rewrite Hb, take_ge, H5 by lia. reflexivity.
  - simpl. by rewrite app_nil_r.
  - simpl. rewrite app_nil_r. exact H4.
Qed.

(** The next frame has been picked. *)
Lemma sent_pop c ids out st :
  sent_inv c ids -> sending c = NULL -> pop_ready (state c) = (out, st) ->
  sent_inv (c <| state := st |>) ids /\
  (out = None /\ ready (state c) = [] \/
   exists i b, out = Some (Some (i, b)) /\
     List.length (ready (state c)) = S (List.length (ready st)) /\
     sent_inv (c <| state := st |> <| send_reordered := b |> <| sending := Some i |>
                 <| send_frame := from_option response_frame [] (store st !! i) |>) ids).
Proof.
  intros H Hn E. pose proof (si_wf _ _ H) as Hw. pose proof (evolves_pop _ _ _ Hw E) as He.
  pose proof (sent_evolves c (c <| state := st |>) ids H He eq_refl eq_refl eq_refl eq_refl) as H'.
  split; [exact H'|].
  destruct (pop_ready_spec _ _ _ Hw E) as [(Hr & -> & _)|Hp]; [by left|right].
  destruct Hp as (i & q & r & b & Er & Hi & Hr & Hc & -> & Es & Eq & Ep & _).
  exists i, b. split; [done|]. split; [by rewrite Er, Eq|].
  destruct H' as [A1 A2 A3 A4 [A5 A6]]. simpl in A2, A3, A4, A5, A6. rewrite Hn in *.
  simpl in A3, A4, A6. rewrite app_nil_r in A3, A4. rewrite A6 in A2, A5. simpl in A5.
  assert (Hni : i ∉ pending st).
  { rewrite Ep. intros Hx. apply (erase_nodup i _ (cw_nodup _ Hw)) in Hx as [_ ?]. done. }
  split; simpl.
  - exact A1.
  - rewrite A2, take_nil. replace (send_bytes c) with 0 by lia. by rewrite take_0.
  - apply NoDup_app. split; [done|]. split; [|apply NoDup_singleton]. intros j Hj Hji.
    apply list_elem_of_singleton in Hji as ->.
    destruct (si_answered _ _ H i) as [Hx _]; [by apply elem_of_app; left|done].
  - intros j Hj. apply elem_of_app in Hj as [Hj|Hj]; [by apply A4|].
    apply list_elem_of_singleton in Hj as ->. split; [done|]. exists r. by rewrite Es.
  - split; [lia|done].
Qed.

Lemma sent_counters c c' ids :
  sent_inv c ids -> stopping (state c') = stopping (state c) -> pending (state c') = pending (state c) ->
  ready (state c') = ready (state c) -> inflight_by_seq (state c') = inflight_by_seq (state c) ->
  store (state c') = store (state c) -> sock c' = sock c -> send_bytes c' = send_bytes c ->
  send_frame c' = send_frame c -> sending c' = sending c -> sent_inv c' ids.
Proof.
  intros H E1 E2 E3 E4 E5 E6 E7 E8 E9. apply (sent_evolves c); [done| |by rewrite E6|done..].
  by apply evolves_counters.
Qed.

(** The part of a round of writing after a frame has been chosen. *)
Lemma sent_write_flush c ids i :
  sent_inv c ids -> sending c = Some i ->
  exists ids',
    sent_inv (send_round c).1 ids'.
Proof.
  intros H Hi. unfold send_round. destruct (flush_connection_send_frame c) as [ret c'] eqn:E.
  destruct (sent_flush _ _ _ _ H E) as (H' & Es & _ & Hr). rewrite Hi in Es.
  destruct (Z.ltb_spec ret 0); [exists ids; by apply sent_closed|].
  destruct (Z.eqb_spec ret 0); [by exists ids|]. destruct Hr as [[-> Hb]|]; [|lia].
  exists (ids ++ [i]). cbn [fst]. set (c1 := c' <| state ::= _ |>).
  assert (H1 : sent_inv c1 ids) by by apply (sent_counters c').
  destruct (send_reordered c1); apply sent_reset; try done.
  by apply (sent_counters c1).
Qed.

Lemma sent_write_round c ids c' more :
  sent_inv c ids -> write_round c = (c', more) -> exists ids', sent_inv c' ids'.
Proof.
  intros H E. assert (Hc : c' = (write_round c).1) by by rewrite E. rewrite Hc. clear E Hc.
  unfold write_round. destruct (sending c) as [i|] eqn:Hs; [by eapply sent_write_flush|].
  destruct (pop_ready (state c)) as [out st] eqn:E.
  destruct (sent_pop _ _ _ _ H Hs E) as (H1 & [[-> _]|(i & b & -> & _ & H2)]); [by exists ids|].
  by eapply sent_write_flush.
Qed.

Lemma sent_io_round service c ids c' call more :
  sent_inv c ids -> (exists p, holds c p /\ bytes (p ++ arriving (rx (sock c)))) ->
  io_round service c = Some (c', call, more) -> sent_inv c' ids.
Proof.
  intros H (p & Hh & Hby). unfold io_round.
  destruct (try_receive_one_request c) as [[ret req] c1] eqn:E.
  destruct (receive_spec _ _ _ _ _ Hh Hby E) as (got & _ & Ho & _). injection Ho as O1 O2 O3 O4 O5 O6 O7 O8 O9.
  assert (H1 : sent_inv c1 ids).
  { apply (sent_evolves c); try done. by rewrite O7. }
  clear E. destruct req as [[hdr body]|].
  2: { destruct (ret <? 0); intros Eq; injection Eq as <- _ _; [|done].
       apply sent_closed. by apply (sent_counters c1). }
  destruct (accept_request hdr (state c1)) as [[ok st]|] eqn:Ea; [|done].
  destruct st as [st|].
  2: { unfold accept_request, enqueue_inflight_response in Ea. repeat case_match; done. }
  pose proof (evolves_accept _ _ _ _ Ea) as He.
  assert (H2 : sent_inv (c1 <| state ::= fun s => default s (Some st) |>) ids)
    by by apply (sent_evolves c1).
  destruct ok; cbn [negb]; [|intros Eq; injection Eq as <- _ _; by apply sent_closed].
  set (c2 := c1 <| state ::= _ |>) in *.
  destruct (dispatch_request service (state c2) (Some (List.length (store (state c1)))) body)
    as [st2 call2] eqn:Ed.
  apply evolves_dispatch in Ed as (c3 & -> & He3). intros Eq; injection Eq as <- _ _.
  by apply (sent_evolves c2).
Qed.

(** The receiving side of a context. *)
Definition recv_side (c : connection_context) :=
  (recv_frame c, recv_header_bytes c, recv_body_bytes c, recv_target_body_bytes c, rx (sock c)).

Definition readable (c : connection_context) : Prop :=
  exists p, holds c p /\ bytes (p ++ arriving (rx (sock c))).

Lemma readable_ext c c' : recv_side c' = recv_side c -> readable c -> readable c'.
Proof.
  intros E (p & Hh & Hb). injection E as E1 E2 E3 E4 E5. exists p. rewrite E5. split; [|done].
  destruct Hh as [[H1 H2 H3 H4 H5]|[H1 H2 H3 H4 H5 H6 H7]]; [left|right];
    split; by rewrite ?E1, ?E2, ?E3, ?E4.
Qed.

Lemma flush_recv_side c : recv_side (flush_connection_send_frame c).2 = recv_side c.
Proof. unfold flush_connection_send_frame. by destruct (flush_loop _ _ _ _) as [[[? ?] ?] ?]. Qed.

Lemma send_round_recv_side c : recv_side (send_round c).1 = recv_side c.
Proof.
  unfold send_round. rewrite <- (flush_recv_side c).
  destruct (flush_connection_send_frame c) as [ret c1]. cbv zeta. by repeat case_match.
Qed.

Lemma write_round_recv_side c : recv_side (write_round c).1 = recv_side c.
Proof.
  unfold write_round. destruct (sending c); [apply send_round_recv_side|].
  destruct (pop_ready (state c)) as [[[[i b]|]|] st]; [|done|done].
  by rewrite send_round_recv_side.
Qed.

(** A round of reading leaves the context readable, and has taken bytes if the loop
    goes on. *)
Lemma io_round_readable service c c' call more :
  readable c -> io_round service c = Some (c', call, more) ->
  (in_service c' = true -> readable c') /\
  (more = true -> readable c' /\
     (List.length (arriving (rx (sock c'))) < List.length (arriving (rx (sock c))))%nat).
Proof.
  intros (p & Hh & Hby). unfold io_round.
  destruct (try_receive_one_request c) as [[ret req] c1] eqn:E.
  destruct (receive_spec _ _ _ _ _ Hh Hby E) as (got & Hlt & Ho & Hr).
  pose proof (lt_bytes _ _ _ Hlt) as Ha. rewrite Ha, app_assoc in Hby.
  assert (Hcl : forall x, in_service (closed x) = true -> readable (closed x)) by done.
  destruct req as [[hdr body]|].
  - pose proof (received_takes _ _ _ _ _ _ _ Hh Hr) as Hg. destruct Hr as (_ & Hh1 & _).
    assert (H1 : readable c1) by (exists []; split; [done|]; by apply Forall_app in Hby as [_ ?]).
    destruct (accept_request hdr (state c1)) as [[ok st]|]; [|done].
    destruct ok; cbn [negb]; [|by intros Eq; injection Eq as <- _ <-].
    destruct (dispatch_request _ _ _ _) as [st2 call2]. intros Eq; injection Eq as <- _ <-.
    assert (H2 : readable (c1 <| state ::= fun s => default s st |>
                              <| state ::= fun s => default s st2 |>)) by by apply (readable_ext c1).
    split; [done|]. intros _. split; [exact H2|]. rewrite Ha, length_app.
    destruct got; [done|]. simpl. lia.
  - destruct (Z.ltb_spec ret 0) as [Hneg|Hpos]; intros Eq; injection Eq as <- _ <-; [done|].
    destruct Hr as [(_ & Hh1 & _)|[(-> & _)|(? & _)]]; [|unfold EPROTO in Hpos; lia|lia].
    split; [|done]. intros _. by exists (p ++ got).
Qed.

(** What holds of a connection at every moment of its life. *)
Lemma serve_inv service s c :
  bytes (arriving (rx s)) -> written s = [] -> rtc (serve_step service) (fresh_context s) c ->
  (exists ids, sent_inv c ids) /\ (in_service c = true -> readable c).
Proof.
  intros Hby Hw Hr.
  assert (H0 : (exists ids, sent_inv (fresh_context s) ids) /\
               (in_service (fresh_context s) = true -> readable (fresh_context s))).
  { split.
    - exists []. split; simpl; [apply zero_conn_wf|done|constructor|set_solver|done].
    - intros _. exists []. split; [|done]. left. split; simpl; try done. by left. }
  revert H0. clear Hby Hw. induction Hr as [|c1 c2 c3 Hs _ IH]; [done|]. intros [[ids Hi] Hrd].
  apply IH. clear IH.
  destruct Hs as [c c' call more Hin E|c c' more Hin Hst E|i st body c st' E|c|c st' E].
  - specialize (Hrd Hin). split; [exists ids; by eapply sent_io_round|].
    exact (proj1 (io_round_readable _ _ _ _ _ Hrd E)).
  - split; [by eapply sent_write_round|]. intros _. apply (readable_ext c); [|auto].
    pose proof (write_round_recv_side c) as Hx. by rewrite E in Hx.
  - split; [exists ids; apply (sent_evolves c); try done; by eapply evolves_complete|].
    intros Hin. apply (readable_ext c); [done|]. by apply Hrd.
  - split; [exists ids; by apply sent_closed|done].
  - split; [exists ids; apply (sent_evolves c); try done; by eapply evolves_stop|].
    unfold in_service. simpl. by rewrite andb_false_r.
Qed.

(** C10: Responses are whole, and each request is answered at most once: over the life
    of a connection, whatever arrives and in whatever pieces the socket takes what
    is sent, the bytes written are the frames of distinct answered requests, each
    one after the other, and a part of the frame of at most one more; an answered
    request is in flight no more.  The requests in flight keep distinct sequence
    numbers and number at most 128. *)
Theorem responses_whole_and_once (service : ptr osd_service) (s : socket) (c : connection_context) :
  bytes (arriving (rx s)) -> written s = [] -> rtc (serve_step service) (fresh_context s) c ->
  conn_wf (state c) /\
  exists ids n, NoDup (ids ++ option_list (sending c)) /\
    (forall i, i ∈ ids ++ option_list (sending c) -> (i ∉ pending (state c)) /\
       exists r, store (state c) !! i = Some r /\ completed r = true) /\
    written (sock c) = concat (frame_of c <$> ids)
                       ++ take n (from_option (frame_of c) [] (sending c)).
Proof.
  intros Hby Hw Hr. destruct (serve_inv _ _ _ Hby Hw Hr) as [[ids [H1 H2 H3 H4 [_ H5]]] _].
  split; [done|]. exists ids, (Z.to_nat (send_bytes c)). split; [done|]. split; [done|].
  rewrite H2. by rewrite H5.
Qed.

(** ** The loops end *)

Lemma io_loop_fuel service n : forall m c,
  readable c -> (List.length (arriving (rx (sock c))) < n)%nat ->
  (List.length (arriving (rx (sock c))) < m)%nat -> io_loop n service c = io_loop m service c.
Proof.
  induction n as [|n IH]; intros [|m] c Hr Hn Hm; [done|lia|lia|]. cbn [io_loop].
  destruct (io_round service c) as [[[c' call] more]|] eqn:E; [|done]. cbn [mbind option_bind].
  destruct more; [|done]. destruct (io_round_readable _ _ _ _ _ Hr E) as [_ [Hr' Hl]]; [done|].
  by rewrite (IH m c' Hr') by lia.
Qed.

Definition to_send (c : connection_context) : nat :=
  (List.length (ready (state c)) + List.length (option_list (sending c)))%nat.

Lemma send_round_progress c ids c' :
  sent_inv c ids -> send_round c = (c', true) ->
  sending c' = NULL /\ ready (state c') = ready (state c).
Proof.
  intros H. unfold send_round. destruct (flush_connection_send_frame c) as [ret c1] eqn:E.
  destruct (sent_flush _ _ _ _ H E) as (_ & _ & Es & _). cbv zeta. rewrite <- Es.
  repeat case_match; try done; intros Eq; by injection Eq as <-.
Qed.

Lemma write_round_progress c ids c' :
  sent_inv c ids -> write_round c = (c', true) -> (to_send c' < to_send c)%nat.
Proof.
  unfold to_send. intros H. unfold write_round. destruct (sending c) as [i|] eqn:Hs.
  - intros E. destruct (send_round_progress _ _ _ H E) as [-> ->]. simpl. lia.
  - destruct (pop_ready (state c)) as [out st] eqn:E.
    destruct (sent_pop _ _ _ _ H Hs E) as (_ & [[-> _]|(i & b & -> & Hl & H2)]); [done|].
    intros Eq. apply (send_round_progress _ _ _ H2) in Eq as [-> ->]. simpl in *. lia.
Qed.

Lemma write_loop_fuel running n : forall m c ids,
  sent_inv c ids -> (to_send c < n)%nat -> (to_send c < m)%nat ->
  write_loop n running c = write_loop m running c.
Proof.
  induction n as [|n IH]; intros [|m] c ids H Hn Hm; [done|lia|lia|]. cbn [write_loop].
  destruct (running && _); [|done]. destruct (write_round c) as [c' more] eqn:E.
  destruct more; [|done]. pose proof (write_round_progress _ _ _ H E).
  destruct (sent_write_round _ _ _ _ H E) as [ids' H']. apply (IH m c' ids'); [done|lia|lia].
Qed.


(** ** A concrete run *)

(** A request without a body, which is answered at once because a read needs one;
    it arrives in pieces, and its answer leaves in pieces. *)
Definition small_request : kfastblock_raw_header :=
  {| Wire.magic := raw_magic; Wire.version_major := 1; Wire.version_minor := 0;
     Wire.service := raw_service_osd; Wire.opcode := raw_op_read_object; Wire.flags := 0;
     Wire.seq := 7; Wire.status := 0; Wire.hdr_body_len := 0 |}.

Definition piece (bs : list Z) : list recv_event :=
  match bs with [] => [] | b :: bs => [Arrive b bs] end.

Definition small_socket : socket :=
  {| rx := piece (take 5 (header_bytes small_request)) ++ [RecvInterrupted; RecvWouldBlock]
           ++ piece (drop 5 (header_bytes small_request) ++ [1; 2]);
     tx := [Accept 9; SendInterrupted; Accept 99]; written := [] |}.

Definition small_service : ptr osd_service :=
  Some {| resolve_pg_leader _ _ _ :=
    {| leader_state := 0; leader_id := 0; leader_addr := EmptyString; leader_port := 0 |} |}.

Definition small_io (c : connection_context) : connection_context :=
  match io_round small_service c with
  | Some (c, _, _) => c
  | None => c
  end.

Lemma small_bytes : bytes (arriving (rx small_socket)).
Proof. vm_compute arriving. repeat (apply Forall_cons; split; [done|]). by apply Forall_nil. Qed.

Lemma frames_independent_of_arrival_witness :
  receive_all (S (weight (rx small_socket))) (fresh_context small_socket)
  = ([(small_request, [])], 0).
Proof.
  rewrite (frames_independent_of_arrival small_socket small_bytes).
  - vm_compute. reflexivity.
  - intros (e & He & Hk). vm_compute in He.
    repeat (apply elem_of_cons in He as [->|He]; [by destruct Hk as [|[? ?]]|]).
    by apply not_elem_of_nil in He.
Defined.

(** Two polls, between them the rest of the header, and then the answer. *)
Definition small_read : connection_context := small_io (small_io (fresh_context small_socket)).
Definition small_written : connection_context := (write_round small_read).1.

Lemma small_run : rtc (serve_step small_service) (fresh_context small_socket) small_written.
Proof.
  apply (rtc_l _ _ (small_io (fresh_context small_socket))).
  { apply (serve_io _ _ _ None false); vm_compute; reflexivity. }
  apply (rtc_l _ _ small_read).
  { apply (serve_io _ _ _ None true); vm_compute; reflexivity. }
  apply (rtc_l _ _ small_written); [|apply rtc_refl].
  apply (serve_write _ _ _ true); vm_compute; reflexivity.
Qed.

Lemma responses_whole_and_once_witness :
  conn_wf (state small_written) /\ sending small_written = NULL /\
  List.length (written (sock small_written)) = 28%nat /\
  exists ids, NoDup ids /\ written (sock small_written) = concat (frame_of small_written <$> ids).
Proof.
  destruct (responses_whole_and_once small_service small_socket small_written small_bytes eq_refl
    small_run) as (Hw & ids & n & Hn & _ & Hwr).
  split; [exact Hw|]. split; [vm_compute; reflexivity|]. split; [vm_compute; reflexivity|].
  exists ids. change (sending small_written) with (@None nat) in Hn, Hwr.
  split; [by rewrite app_nil_r in Hn|]. rewrite Hwr. simpl. by rewrite take_nil, app_nil_r.
Defined.


End OsdConn.
