(* ===== verification/Interop.v ===== *)
(** * What crosses the wire

    The driver (Wire), the monitor (Monitor) and the OSD (OsdServer) are written in
    C, Go and C++ and share nothing but the protocol.  The theorems of this file
    compose the encoder of one side with the decoder of the other. *)

From stdpp Require Import gmap sorting.
From S2P Require Import Prelude Meta Request Wire Monitor OsdServer OsdConn.
Import (hints) Meta Request Wire Monitor OsdServer.

Module Interop.
Import Meta(view_wf, sorted_by, key_lt, route_key).
Import Wire Monitor.

(** ** Sorting *)

Lemma sort_by_perm {A} (key : A -> Z) l : sort_by key l ≡ₚ l.
Proof. apply merge_sort_Permutation. Qed.

#[local] Instance key_le_trans {A} (key : A -> Z) : Transitive (key_le key).
Proof. intros x y z. unfold key_le. lia. Qed.

#[local] Instance key_le_total {A} (key : A -> Z) : Total (key_le key).
Proof. intros x y. unfold key_le. lia. Qed.

Lemma strongly_sorted_lookup {A} (R : relation A) l i j x y :
  StronglySorted R l -> l !! i = Some x -> l !! j = Some y -> (i < j)%nat -> R x y.
Proof.
  intros Hs; revert i j; induction Hs as [|z l Hs IH Hall]; intros i j Hi Hj Hlt; [done|].
  destruct j as [|j]; [lia|]. destruct i as [|i]; simpl in *.
  - simplify_eq. by eapply (Forall_lookup_1 (R x)).
  - eapply IH; [done..|lia].
Qed.

(** Sorting elements with distinct keys puts them in strictly increasing order. *)
Lemma sort_by_sorted {A} (key : A -> Z) l :
  NoDup (key <$> l) -> sorted_by Z.lt key (sort_by key l).
Proof.
  intros Hnd i j x y Hi Hj Hlt.
  pose proof (StronglySorted_merge_sort (key_le key) l) as Hs.
  pose proof (strongly_sorted_lookup _ _ _ _ _ _ Hs Hi Hj Hlt) as Hle. unfold key_le in Hle.
  assert (Hne : key x <> key y); [|lia]. intros E.
  assert (Hnd' : NoDup (key <$> sort_by key l)).
  { by rewrite (fmap_Permutation key _ _ (sort_by_perm key l)). }
  rewrite NoDup_alt in Hnd'. specialize (Hnd' i j (key x)).
  rewrite !list_lookup_fmap in Hnd'.
  rewrite Hi, Hj in Hnd'. simpl in Hnd'.
  rewrite E in Hnd'. specialize (Hnd' eq_refl eq_refl). lia.
Qed.

Lemma sorted_keys_sorted {A} (m : gmap Z A) : sorted_by Z.lt id (sorted_keys m).
Proof.
  apply sort_by_sorted. rewrite list_fmap_id. apply NoDup_fst_map_to_list.
Qed.

Lemma elem_of_sorted_keys {A} (m : gmap Z A) k : k ∈ sorted_keys m <-> is_Some (m !! k).
Proof.
  unfold sorted_keys. rewrite (sort_by_perm id), list_elem_of_fmap. split.
  - intros ([k' x] & -> & Hx). apply elem_of_map_to_list in Hx. by eexists.
  - intros [x Hx]. exists (k, x). split; [done|]. by apply elem_of_map_to_list.
Qed.

(** ** Reading what was packed *)

(** The body [pre ++ chunk ++ post], read at the end of [pre]. *)
Lemma copy_chunk pre chunk post :
  Z.of_nat (List.length (pre ++ chunk ++ post)) < 2 ^ 32 ->
  kfastblock_transport_copy_from_body (Some (pre ++ chunk ++ post))
    (Z.of_nat (List.length (pre ++ chunk ++ post))) (Some (Z.of_nat (List.length pre))) (Some tt)
    (Z.of_nat (List.length chunk))
  = Done (Z.of_nat (List.length (pre ++ chunk)), chunk).
Proof.
  intros Hl. unfold kfastblock_transport_copy_from_body, kfastblock_transport_advance_offset.
  rewrite !length_app in *. rewrite (u64_small (_ + Z.of_nat (List.length chunk))) by lia.
  rewrite (proj2 (Z.ltb_ge _ _)) by lia. cbn [mbind outcome_bind].
  rewrite u64_small, slice_some by (rewrite ?length_app; lia). cbn [or_fault mbind outcome_bind].
  do 2 f_equal; [lia|].
  replace (Z.to_nat (Z.of_nat (List.length pre) + Z.of_nat (List.length chunk)
    - Z.of_nat (List.length chunk))) with (List.length pre) by lia.
  by rewrite drop_app_length, Nat2Z.id, take_app_length.
Qed.

Lemma copy_struct pre layout fields post :
  List.length layout = List.length fields ->
  Z.of_nat (List.length (pre ++ pack layout fields ++ post)) < 2 ^ 32 ->
  kfastblock_transport_copy_from_body (Some (pre ++ pack layout fields ++ post))
    (Z.of_nat (List.length (pre ++ pack layout fields ++ post)))
    (Some (Z.of_nat (List.length pre))) (Some tt) (size layout)
  = Done (Z.of_nat (List.length (pre ++ pack layout fields)), pack layout fields).
Proof.
  intros Hf Hl. unfold size. rewrite <- (length_pack layout fields Hf). by apply copy_chunk.
Qed.

(** Goals [Forall2 fits layout fields] on concrete layouts. *)
Ltac solve_fits :=
  unfold is_u32, is_u16, is_u64, fits in *;
  repeat match goal with
  | |- Forall2 _ (_ :: _) (_ :: _) => apply Forall2_cons; split
  | |- Forall2 _ [] [] => apply Forall2_nil_2
  | |- Forall2 _ ?l _ => unfold l
  end; try (case_match; lia); try lia.

Lemma unpack_pack_all layout fields :
  Forall2 fits layout fields -> unpack layout (pack layout fields) = fields.
Proof. intros Hf. rewrite <- (app_nil_r (pack _ _)). by apply unpack_pack. Qed.

(** ** The cluster map *)

(** An OSD as the driver should see it. *)
Definition driver_shard (shards : gmap Z ShardCore) (shardID : Z) : Meta.kfastblock_osd_shard :=
  let core := default {| coreid := 0; port := 0; raw_port := 0 |} (shards !! shardID) in
  {| Meta.shard_id := shardID;
     Meta.shard_port := if raw_port core =? 0 then port core else raw_port core;
     Meta.core_id := coreid core |}.

Definition osd_flag_bits (o : OsdDynamicInfo) : Z :=
  Z.lor (if isin o then Meta.KFASTBLOCK_OSD_FLAG_IN else 0)
        (if isup o then Meta.KFASTBLOCK_OSD_FLAG_UP else 0).

Definition driver_osd (o : OsdDynamicInfo) : Meta.kfastblock_osd_endpoint :=
  let ids := sorted_keys (sharded_ports o) in
  {| Meta.osd_id := osdid o; Meta.osd_flags := osd_flag_bits o;
     Meta.shard_count := Z.of_nat (List.length ids); Meta.osd_address := address o;
     Meta.shards := if decide (ids = []) then NULL
                    else Some (driver_shard (sharded_ports o) <$> ids) |}.

Definition driver_route (pool : Z) (pg : PGInfo) : Meta.kfastblock_pg_route :=
  {| Meta.route_pool_id := pool; Meta.route_pg_id := pgid pg; Meta.version := u64 (version pg);
     Meta.route_state := u32 (state pg); Meta.primary_shard := coreindex pg;
     Meta.replica_count := Z.of_nat (List.length (osdids pg)); Meta.osd_ids := osdids pg;
     Meta.leader_valid := false; Meta.leader := Meta.zero_leader |}.

Definition driver_routes (pgResp : GetPgMapResponse) : list Meta.kfastblock_pg_route :=
  concat ((fun pool => driver_route pool <$> sort_by pgid (default [] (pgs pgResp !! pool)))
          <$> sorted_keys (pgs pgResp)).

(** What the monitor's database holds: the widths and the uniqueness that the
    protocol relies on. *)
Definition shard_ok (id : Z) (c : ShardCore) : Prop :=
  is_u32 id /\ is_u16 (port c) /\ is_u16 (raw_port c) /\ is_u16 (coreid c).

Record osd_ok (o : OsdDynamicInfo) : Prop := {
  osd_id_ok : 0 <= osdid o < 2 ^ 31;
  osd_address_ok : (String.length (address o) < Meta.KFASTBLOCK_MAX_ADDR_LEN)%nat;
  osd_address_c : no_nul (address o);
  osd_shards_ok : forall id c, sharded_ports o !! id = Some c -> shard_ok id c;
  osd_shard_count_ok : Z.of_nat (List.length (sorted_keys (sharded_ports o))) < 2 ^ 16;
}.

Record pg_ok (pg : PGInfo) : Prop := {
  pg_id_ok : 0 <= pgid pg < 2 ^ 31;
  pg_core_ok : is_u32 (coreindex pg);
  pg_replicas_ok : Z.of_nat (List.length (osdids pg)) < 2 ^ 32;
  pg_osds_ok : Forall (fun id => 0 <= id < 2 ^ 31) (osdids pg);
}.

Section decode.
Context (body : list Z) (Hlen : Z.of_nat (List.length body) < 2 ^ 32).

Lemma copy_struct_at pre layout fields post :
  body = pre ++ pack layout fields ++ post -> List.length layout = List.length fields ->
  kfastblock_transport_copy_from_body (Some body) (Z.of_nat (List.length body))
    (Some (Z.of_nat (List.length pre))) (Some tt) (size layout)
  = Done (Z.of_nat (List.length (pre ++ pack layout fields)), pack layout fields).
Proof using Hlen. intros E Hf. rewrite E in *. by apply copy_struct. Qed.

Lemma copy_le_at pre n x post :
  body = pre ++ le n x ++ post ->
  kfastblock_transport_copy_from_body (Some body) (Z.of_nat (List.length body))
    (Some (Z.of_nat (List.length pre))) (Some tt) (Z.of_nat n)
  = Done (Z.of_nat (List.length (pre ++ le n x)), le n x).
Proof using Hlen.
  intros E. rewrite E in *. pose proof (copy_chunk pre (le n x) post Hlen) as Hc.
  by rewrite length_le in Hc.
Qed.

Lemma decode_shards_at m ids : forall pre post,
  (forall id, id ∈ ids -> exists c, m !! id = Some c /\ shard_ok id c) ->
  body = pre ++ concat (encodeShard m <$> ids) ++ post ->
  decode_shards (List.length ids) (Some body) (Z.of_nat (List.length body))
    (Z.of_nat (List.length pre))
  = Done (Z.of_nat (List.length (pre ++ concat (encodeShard m <$> ids))), driver_shard m <$> ids).
Proof using Hlen.
  induction ids as [|id ids IH]; intros pre post Hok E; cbn [decode_shards List.length fmap list_fmap].
  { simpl. by rewrite app_nil_r. }
  destruct (Hok id) as (c & Hc & Hid & Hp & Hr & Hco); [set_solver|].
  assert (Ee : encodeShard m id
    = pack kfastblock_raw_osd_shard_entry
        [id; if raw_port c =? 0 then port c else raw_port c; coreid c]).
  { unfold encodeShard. rewrite Hc. unfold is_u16 in *.
    rewrite (u16_small (coreid c)) by lia. rewrite u16_small by (case_match; lia). done. }
  cbn [fmap list_fmap concat] in E |- *. rewrite Ee in *. rewrite <- app_assoc in E.
  rewrite (copy_struct_at _ _ _ _ E) by done. cbn [mbind outcome_bind].
  rewrite unpack_pack_all.
  2: { solve_fits. }
  rewrite app_assoc in E. rewrite (IH _ post); [|set_solver|done]. cbn [mbind outcome_bind].
  rewrite <- app_assoc. unfold driver_shard at 2. rewrite Hc. done.
Qed.

Lemma decode_replicas_at ids : forall pre post,
  Forall (fun id => 0 <= id < 2 ^ 31) ids ->
  body = pre ++ concat ((fun id => le 4 (u32 id)) <$> ids) ++ post ->
  decode_replicas (List.length ids) (Some body) (Z.of_nat (List.length body))
    (Z.of_nat (List.length pre))
  = Done (Z.of_nat (List.length (pre ++ concat ((fun id => le 4 (u32 id)) <$> ids))), ids).
Proof using Hlen.
  induction ids as [|id ids IH]; intros pre post Hok E; cbn [decode_replicas List.length fmap list_fmap].
  { simpl. by rewrite app_nil_r. }
  apply Forall_cons in Hok as [Hid Hok]. cbn [fmap list_fmap concat] in *.
  rewrite <- app_assoc in E. pose proof (copy_le_at _ _ _ _ E) as Hc. change (Z.of_nat 4) with 4 in Hc. rewrite Hc.
  cbn [mbind outcome_bind]. rewrite app_assoc in E. rewrite (IH _ post) by done.
  cbn [mbind outcome_bind]. rewrite <- app_assoc, le_to_cpu_le, u32_small by lia.
  rewrite Z.mod_small by lia. done.
Qed.

Lemma osd_flag_bits_fits o : fits 4 (osd_flag_bits o).
Proof. unfold osd_flag_bits, fits. destruct (isin o), (isup o); vm_compute; done. Qed.

Lemma encodeOSDEntry_ok o :
  osd_ok o ->
  encodeOSDEntry o
  = pack kfastblock_raw_osd_entry_hdr
      [osdid o; osd_flag_bits o; Z.of_nat (String.length (address o));
       Z.of_nat (List.length (sorted_keys (sharded_ports o)))]
    ++ bytes_of_string (address o)
    ++ concat (encodeShard (sharded_ports o) <$> sorted_keys (sharded_ports o)).
Proof.
  intros [H1 H2 H3 H4 H5]. unfold encodeOSDEntry.
  rewrite length_bytes_of_string. unfold Meta.KFASTBLOCK_MAX_ADDR_LEN in H2.
  rewrite u32_small, !u16_small by lia. unfold osd_flag_bits.
  destruct (isin o), (isup o); reflexivity.
Qed.

Lemma decode_osd_entry_at o pre post :
  osd_ok o -> body = pre ++ encodeOSDEntry o ++ post ->
  decode_osd_entry true (Some body) (Z.of_nat (List.length body)) (Z.of_nat (List.length pre))
  = Done (Z.of_nat (List.length (pre ++ encodeOSDEntry o)), driver_osd o).
Proof using Hlen.
  intros Ho E. rewrite (encodeOSDEntry_ok o Ho) in *.
  set (ids := sorted_keys (sharded_ports o)) in *.
  set (hdr := pack kfastblock_raw_osd_entry_hdr _) in *.
  set (addr := bytes_of_string (address o)) in *.
  set (ss := concat _) in *.
  assert (Ha : List.length addr = String.length (address o)) by apply length_bytes_of_string.
  destruct Ho as [H1 H2 H3 H4 H5]. fold ids in H5. unfold Meta.KFASTBLOCK_MAX_ADDR_LEN in H2.
  unfold decode_osd_entry. rewrite <- !app_assoc in E.
  rewrite (copy_struct_at _ _ _ _ E) by done. cbn [mbind outcome_bind].
  rewrite unpack_pack_all.
  2: { pose proof (osd_flag_bits_fits o). solve_fits. }
  fold hdr. cbn [nth]. change (Z.of_nat Meta.KFASTBLOCK_MAX_ADDR_LEN) with 256.
  rewrite (proj2 (Z.leb_gt _ _)) by lia.
  assert (Hb : Z.of_nat (List.length body) = Z.of_nat (List.length (pre ++ hdr)) + Z.of_nat (List.length addr)
                 + Z.of_nat (List.length (ss ++ post))).
  { rewrite E, !length_app. lia. }
  unfold kfastblock_transport_advance_offset. rewrite <- Ha.
  rewrite (u64_small (_ + Z.of_nat (List.length addr))) by lia.
  rewrite (proj2 (Z.ltb_ge _ _)) by lia. cbn [mbind outcome_bind].
  assert (Haddr : (if truthy (Z.of_nat (List.length addr))
     then or_fault (slice (default [] (Some body)) (u64 (Z.of_nat (List.length (pre ++ hdr))
            + Z.of_nat (List.length addr) - Z.of_nat (List.length addr))) (Z.of_nat (List.length addr)))
     else Done []) = Done addr).
  { destruct (truthy _) eqn:Ht.
    - change (default [] (Some body)) with body. rewrite u64_small, slice_some by lia.
      simpl. f_equal. rewrite E, app_assoc.
      replace (Z.to_nat (Z.of_nat (List.length (pre ++ hdr)) + Z.of_nat (List.length addr)
        - Z.of_nat (List.length addr))) with (List.length (pre ++ hdr)) by lia.
      by rewrite drop_app_length, Nat2Z.id, take_app_length.
    - unfold truthy in Ht. rewrite negb_false_iff, Z.eqb_eq in Ht. f_equal. symmetry.
      apply nil_length_inv. lia. }
  rewrite Haddr. cbn [mbind outcome_bind].
  assert (Es : string_of_bytes addr = address o) by by apply string_of_bytes_of_string.
  replace (Z.of_nat (List.length (pre ++ hdr)) + Z.of_nat (List.length addr))
    with (Z.of_nat (List.length (pre ++ hdr ++ addr))) by (rewrite !length_app; lia).
  unfold driver_osd. fold ids. rewrite Es. destruct (decide (ids = [])) as [En|En].
  - subst ss. rewrite En. simpl. rewrite app_nil_r. done.
  - rewrite (proj2 (Z.eqb_neq _ 0)) by (destruct ids; [done|simpl; lia]). cbn [negb].
    rewrite Nat2Z.id. rewrite (decode_shards_at (sharded_ports o) ids _ post).
    + cbn [mbind outcome_bind]. fold ss. by rewrite <- !app_assoc.
    + intros id Hid. apply elem_of_sorted_keys in Hid as [c Hc]. exists c. split; [done|].
      by apply H4.
    + rewrite E, <- !app_assoc. done.
Qed.

Lemma decode_osd_loop_at (ok : nat -> bool) l : (forall i, ok i = true) -> forall i pre post,
  Forall osd_ok l -> body = pre ++ concat (encodeOSDEntry <$> l) ++ post ->
  decode_osd_loop ok (List.length l) i (Some body) (Z.of_nat (List.length body))
    (Z.of_nat (List.length pre))
  = Done (Z.of_nat (List.length (pre ++ concat (encodeOSDEntry <$> l))), driver_osd <$> l).
Proof using Hlen.
  intros Hok. induction l as [|o l IH]; intros i pre post Hl E;
    cbn [decode_osd_loop List.length fmap list_fmap].
  { simpl. by rewrite app_nil_r. }
  apply Forall_cons in Hl as [Ho Hl]. cbn [fmap list_fmap concat] in E |- *.
  rewrite <- app_assoc in E. rewrite Hok, (decode_osd_entry_at o _ _ Ho E). cbn [mbind outcome_bind].
  rewrite app_assoc in E. rewrite (IH _ _ post) by done. cbn [mbind outcome_bind].
  by rewrite <- app_assoc.
Qed.

Lemma encodePG_ok pool pg :
  0 <= pool < 2 ^ 31 -> pg_ok pg ->
  encodePG pool pg
  = pack kfastblock_raw_pg_entry_hdr
      [pool; pgid pg; u64 (version pg); u32 (state pg); coreindex pg;
       Z.of_nat (List.length (osdids pg))]
    ++ concat ((fun id => le 4 (u32 id)) <$> osdids pg).
Proof.
  intros Hp [H1 H2 H3 H4]. unfold encodePG.
  rewrite (u32_small pool), (u32_small (pgid pg)), (u32_small (Z.of_nat _)) by lia. done.
Qed.

Lemma decode_pg_entry_at pool pg pre post :
  0 <= pool < 2 ^ 31 -> pg_ok pg -> body = pre ++ encodePG pool pg ++ post ->
  decode_pg_entry true (Some body) (Z.of_nat (List.length body)) (Z.of_nat (List.length pre))
  = Done (Z.of_nat (List.length (pre ++ encodePG pool pg)), driver_route pool pg).
Proof using Hlen.
  intros Hp Hpg E. rewrite (encodePG_ok pool pg Hp Hpg) in *.
  set (hdr := pack kfastblock_raw_pg_entry_hdr _) in *. set (ids := concat _) in *.
  destruct Hpg as [H1 H2 H3 H4]. unfold decode_pg_entry. rewrite <- app_assoc in E.
  rewrite (copy_struct_at _ _ _ _ E) by done. cbn [mbind outcome_bind].
  rewrite unpack_pack_all.
  2: { pose proof (u64_range (version pg)). pose proof (u32_range (state pg)). solve_fits. }
  fold hdr. cbn [nth]. destruct (decide (osdids pg = [])) as [En|En].
  - subst ids. unfold driver_route. rewrite En. cbn [fmap list_fmap concat List.length].
    by rewrite app_nil_r.
  - rewrite (proj2 (Z.eqb_neq _ 0)) by (destruct (osdids pg); [done|simpl; lia]). cbn [negb].
    rewrite Nat2Z.id, (decode_replicas_at _ _ post); [|done|by rewrite <- app_assoc].
    cbn [mbind outcome_bind]. fold ids. by rewrite <- app_assoc.
Qed.

(** The placement groups with their pools. *)
Lemma decode_pg_loop_at (ok : nat -> bool) pool l : (forall i, ok i = true) -> forall i pre post c,
  Forall (fun p => 0 <= p.1 < 2 ^ 31 /\ pg_ok p.2) l ->
  0 <= c -> c + Z.of_nat (List.length l) < 2 ^ 32 ->
  body = pre ++ concat ((fun p => encodePG p.1 p.2) <$> l) ++ post ->
  decode_pg_loop ok (List.length l) i (Some body) (Z.of_nat (List.length body))
    (Z.of_nat (List.length pre)) pool c
  = Done (Z.of_nat (List.length (pre ++ concat ((fun p => encodePG p.1 p.2) <$> l))),
          (fun p => driver_route p.1 p.2) <$> l,
          c + count_if (fun p => p.1 =? pool) l).
Proof using Hlen.
  intros Hok. induction l as [|[q pg] l IH]; intros i pre post c Hl Hc Hcl E;
    cbn [decode_pg_loop List.length fmap list_fmap].
  { simpl. rewrite app_nil_r. by rewrite Z.add_0_r. }
  apply Forall_cons in Hl as [[Hq Hpg] Hl]. cbn [fmap list_fmap concat fst snd] in *.
  rewrite <- app_assoc in E. rewrite Hok, (decode_pg_entry_at _ _ _ _ Hq Hpg E).
  cbn [mbind outcome_bind Meta.route_pool_id driver_route]. rewrite app_assoc in E.
  cbn [List.length] in Hcl. rewrite count_if_cons. cbn [fst].
  destruct (q =? pool); cbn [Z.b2z].
  - rewrite u32_small by lia. rewrite (IH _ _ post) by (done || lia). cbn [mbind outcome_bind].
    rewrite <- app_assoc. do 2 f_equal. lia.
  - rewrite (IH _ _ post) by (done || lia). cbn [mbind outcome_bind].
    rewrite <- app_assoc. do 2 f_equal.
Qed.

End decode.

(** The placement groups of a response in the order in which they are sent. *)
Definition all_pgs (r : GetPgMapResponse) : list (Z * PGInfo) :=
  concat ((fun pool => pair pool <$> sort_by pgid (default [] (pgs r !! pool))) <$> sorted_keys (pgs r)).

Lemma fmap_concat {A B} (f : A -> B) (ll : list (list A)) :
  fmap (M:=list) f (concat ll) = concat (fmap (M:=list) (fmap (M:=list) f) ll).
Proof. induction ll as [|l ll IH]; simpl; [done|]. by rewrite fmap_app, IH. Qed.

Lemma concat_concat {A B} (f : A -> list (list B)) (l : list A) :
  concat ((fun x => concat (f x)) <$> l) = concat (concat (f <$> l)).
Proof.
  induction l as [|x l IH]; [done|]. cbn [fmap list_fmap concat].
  rewrite concat_app. f_equal. exact IH.
Qed.

Lemma encodePGEntries_flat r :
  encodePGEntries r = concat ((fun p => encodePG p.1 p.2) <$> all_pgs r).
Proof.
  unfold encodePGEntries, all_pgs.
  rewrite (concat_concat (fun pool => encodePG pool <$> sort_by pgid (default [] (pgs r !! pool)))).
  rewrite fmap_concat, <- list_fmap_compose. do 2 f_equal. apply list_fmap_ext. intros i pool _.
  simpl. by rewrite <- list_fmap_compose.
Qed.

Lemma driver_routes_flat r : driver_routes r = ((fun p => driver_route p.1 p.2) <$> all_pgs r).
Proof.
  unfold driver_routes, all_pgs. rewrite fmap_concat, <- list_fmap_compose. f_equal.
  apply list_fmap_ext. intros i pool _. simpl. by rewrite <- list_fmap_compose.
Qed.

Lemma length_concat {A} (ll : list (list A)) :
  List.length (concat ll) = sum_list (List.length <$> ll).
Proof. induction ll as [|l ll IH]; [done|]. simpl. by rewrite length_app, IH. Qed.

Lemma sum_list_cons x l : sum_list (x :: l) = (x + sum_list l)%nat.
Proof. done. Qed.

Lemma sum_list_perm (l k : list nat) : l ≡ₚ k -> sum_list l = sum_list k.
Proof. induction 1; simpl; lia. Qed.

Lemma length_all_pgs r :
  List.length (all_pgs r) = sum_list (List.length <$> (map_to_list (pgs r)).*2).
Proof.
  unfold all_pgs. rewrite length_concat, <- list_fmap_compose.
  rewrite (sum_list_perm _ (List.length ∘ (fun pool => pair pool <$> sort_by pgid
    (default [] (pgs r !! pool))) <$> (map_to_list (pgs r)).*1)).
  2: { apply fmap_Permutation, sort_by_perm. }
  rewrite <- !list_fmap_compose. f_equal. apply list_fmap_ext. intros i [pool l] Hl. simpl.
  apply list_elem_of_lookup_2 in Hl. apply elem_of_map_to_list in Hl. rewrite Hl. simpl.
  by rewrite length_fmap, (Permutation_length (sort_by_perm pgid l)).
Qed.

Lemma count_pgs_ok r :
  Z.of_nat (List.length (all_pgs r)) < 2 ^ 32 ->
  count_pgs (Some r) = Z.of_nat (List.length (all_pgs r)).
Proof.
  rewrite length_all_pgs. unfold count_pgs. generalize (map_to_list (pgs r)).*2. intros ll Hl.
  assert (H : forall n, 0 <= n -> n + Z.of_nat (sum_list (List.length <$> ll)) < 2 ^ 32 ->
    foldl (fun n p => u32 (n + u32 (Z.of_nat (List.length p)))) n ll
    = n + Z.of_nat (sum_list (List.length <$> ll))); [|apply H; lia].
  clear Hl. induction ll as [|l ll IH]; intros n Hn Hl; cbn [foldl]; [simpl; lia|].
  rewrite fmap_cons, sum_list_cons in *.
  rewrite (u32_small (Z.of_nat _)), u32_small by lia. rewrite IH; lia.
Qed.

(** ** Order of the routes *)

Lemma strict_sort {A} (key : A -> Z) l :
  NoDup (key <$> l) -> StronglySorted (fun x y => key x < key y) (sort_by key l).
Proof.
  intros Hnd. pose proof (StronglySorted_merge_sort (key_le key) l) as Hs.
  assert (Hnd' : NoDup (key <$> sort_by key l)).
  { by rewrite (fmap_Permutation key _ _ (sort_by_perm key l)). }
  unfold sort_by in Hnd'. fold (sort_by key l) in *.
  induction Hs as [|x m Hs IH Hall]; [constructor|]. simpl in Hnd'.
  apply NoDup_cons in Hnd' as [Hx Hnd']. constructor; [by apply IH|].
  rewrite Forall_forall in Hall |- *. intros y Hy. specialize (Hall y Hy). unfold key_le in Hall.
  assert (key x <> key y); [|lia]. intros E. apply Hx. rewrite E. by apply list_elem_of_fmap_2.
Qed.

Lemma strongly_sorted_app {A} (R : relation A) l k :
  StronglySorted R l -> StronglySorted R k -> (forall x y, x ∈ l -> y ∈ k -> R x y) ->
  StronglySorted R (l ++ k).
Proof.
  intros Hl Hk Hlk. induction Hl as [|x l Hl IH Hall]; [done|]. simpl. constructor.
  - apply IH. intros y z Hy Hz. apply Hlk; [by right|done].
  - apply Forall_app. split; [done|]. apply Forall_forall. intros y Hy. apply Hlk; [by left|done].
Qed.

Lemma strongly_sorted_fmap {A B} (f : A -> B) (R : relation B) l :
  StronglySorted (fun x y => R (f x) (f y)) l -> StronglySorted R (f <$> l).
Proof.
  induction 1 as [|x l Hl IH Hall]; simpl; constructor; [done|]. by apply Forall_fmap.
Qed.

Lemma sorted_keys_strict {A} (m : gmap Z A) : StronglySorted Z.lt (sorted_keys m).
Proof. apply (strict_sort id). rewrite list_fmap_id. apply NoDup_fst_map_to_list. Qed.

Lemma sum_indicator_zero (ks : list Z) k0 n :
  k0 ∉ ks -> foldr Z.add 0 ((fun k => if decide (k = k0) then n else 0) <$> ks) = 0.
Proof.
  intros H. induction ks as [|k ks IH]; [done|]. rewrite fmap_cons. cbn [foldr].
  rewrite decide_False, IH by set_solver. done.
Qed.

Lemma sum_indicator (ks : list Z) k0 n :
  NoDup ks -> k0 ∈ ks ->
  foldr Z.add 0 ((fun k => if decide (k = k0) then n else 0) <$> ks) = n.
Proof.
  intros Hnd Hin. induction ks as [|k ks IH]; [set_solver|].
  apply NoDup_cons in Hnd as [Hk Hnd]. rewrite fmap_cons. cbn [foldr].
  destruct (decide (k = k0)) as [->|Hne].
  - rewrite sum_indicator_zero by done. lia.
  - rewrite IH; [lia|done|set_solver].
Qed.

(** What a response must hold for the driver of a volume in [pool]. *)
Record map_response_ok (osds : list OsdDynamicInfo) (r : GetPgMapResponse) (pool : Z)
    (pool_pgs : list PGInfo) : Prop := {
  mr_osds : Forall osd_ok osds;
  mr_osd_ids : NoDup (osdid <$> osds);
  mr_osds_ne : osds <> [];
  mr_osd_count : Z.of_nat (List.length osds) < 2 ^ 32;
  mr_pools : forall p l, pgs r !! p = Some l ->
               0 <= p < 2 ^ 31 /\ Forall pg_ok l /\ NoDup (pgid <$> l);
  mr_pg_count : Z.of_nat (List.length (all_pgs r)) < 2 ^ 32;
  mr_pool : pgs r !! pool = Some pool_pgs;
  mr_pool_ne : pool_pgs <> [];
}.

Section response.
Context (os : list OsdDynamicInfo) (r : GetPgMapResponse) (pool : Z) (pool_pgs : list PGInfo).
Context (Hok : map_response_ok os r pool pool_pgs).

Lemma elem_of_all_pgs p pg :
  (p, pg) ∈ all_pgs r -> exists l, pgs r !! p = Some l /\ pg ∈ l.
Proof.
  unfold all_pgs. rewrite list_elem_of_In, in_concat. intros (l & Hl & Hpg).
  rewrite <- list_elem_of_In in Hl. rewrite <- list_elem_of_In in Hpg. apply list_elem_of_fmap in Hl as (q & -> & Hq).
  apply list_elem_of_fmap in Hpg as (pg' & E & Hpg'). simplify_eq.
  apply elem_of_sorted_keys in Hq as [l Hl]. exists l. split; [done|].
  rewrite Hl in Hpg'. simpl in Hpg'. by rewrite (sort_by_perm pgid) in Hpg'.
Qed.

Lemma all_pgs_ok : Forall (fun p => 0 <= p.1 < 2 ^ 31 /\ pg_ok p.2) (all_pgs r).
Proof using Hok.
  apply Forall_forall. intros [p pg] Hp. apply elem_of_all_pgs in Hp as (l & Hl & Hpg).
  destruct (mr_pools _ _ _ _ Hok p l Hl) as (H1 & H2 & _). split; [done|].
  rewrite Forall_forall in H2. by apply H2.
Qed.

Lemma all_pgs_sorted :
  StronglySorted (fun x y => key_lt (x.1, pgid x.2) (y.1, pgid y.2)) (all_pgs r).
Proof using Hok.
  unfold all_pgs. pose proof (sorted_keys_strict (pgs r)) as Hs.
  assert (Hin : forall k, k ∈ sorted_keys (pgs r) -> is_Some (pgs r !! k))
    by (intros k; apply elem_of_sorted_keys).
  induction Hs as [|k ks Hs IH Hall]; [constructor|]. cbn [fmap list_fmap concat].
  apply strongly_sorted_app.
  - apply strongly_sorted_fmap. destruct (Hin k) as [l Hl]; [by left|]. rewrite Hl. simpl.
    destruct (mr_pools _ _ _ _ Hok k l Hl) as (_ & _ & Hnd). apply strict_sort in Hnd.
    clear -Hnd. induction Hnd as [|x m Hm IH Hall]; constructor; [done|].
    eapply Forall_impl; [exact Hall|]. intros y Hy. right. by split.
  - apply IH. intros k' Hk'. apply Hin. by right.
  - intros [p1 x] [p2 y] Hx Hy. apply list_elem_of_fmap in Hx as (x' & E & _). simplify_eq.
    rewrite list_elem_of_In, in_concat in Hy. destruct Hy as (l & Hl & Hy).
    rewrite <- list_elem_of_In in Hl. rewrite <- list_elem_of_In in Hy. apply list_elem_of_fmap in Hl as (q & -> & Hq).
    apply list_elem_of_fmap in Hy as (y' & E & _). simplify_eq. left. simpl.
    rewrite Forall_forall in Hall. by apply Hall.
Qed.

Lemma driver_routes_sorted : sorted_by key_lt route_key (driver_routes r).
Proof using Hok.
  intros i j x y Hi Hj Hlt. rewrite driver_routes_flat in Hi, Hj.
  rewrite list_lookup_fmap in Hi, Hj. apply fmap_Some in Hi as (p & Hp & ->).
  apply fmap_Some in Hj as (q & Hq & ->).
  exact (strongly_sorted_lookup _ _ _ _ _ _ all_pgs_sorted Hp Hq Hlt).
Qed.

Lemma driver_osds_sorted : sorted_by Z.lt Meta.osd_id (driver_osd <$> sort_by osdid os).
Proof using Hok.
  intros i j x y Hi Hj Hlt. rewrite list_lookup_fmap in Hi, Hj.
  apply fmap_Some in Hi as (p & Hp & ->). apply fmap_Some in Hj as (q & Hq & ->).
  exact (sort_by_sorted osdid os (mr_osd_ids _ _ _ _ Hok) i j p q Hp Hq Hlt).
Qed.

Lemma count_if_concat {A} (p : A -> bool) ll :
  count_if p (concat ll) = foldr Z.add 0 (count_if p <$> ll).
Proof.
  induction ll as [|l ll IH]; [done|]. simpl. rewrite count_if_app, IH. done.
Qed.

Lemma pool_pg_count_ok :
  count_if (fun p => p.1 =? pool) (all_pgs r) = Z.of_nat (List.length pool_pgs).
Proof using Hok.
  unfold all_pgs. rewrite count_if_concat, <- list_fmap_compose.
  assert (Hin : pool ∈ sorted_keys (pgs r)).
  { apply elem_of_sorted_keys. rewrite (mr_pool _ _ _ _ Hok). by eexists. }
  assert (Hnd : NoDup (sorted_keys (pgs r))).
  { unfold sorted_keys. rewrite (sort_by_perm id). apply NoDup_fst_map_to_list. }
  assert (Hblock : forall k, (count_if (fun p : Z * PGInfo => p.1 =? pool)
      ∘ (fun k => pair k <$> sort_by pgid (default [] (pgs r !! k)))) k
    = if decide (k = pool) then Z.of_nat (List.length pool_pgs) else 0).
  { intros k. simpl. rewrite count_if_fmap. simpl. destruct (decide (k = pool)) as [->|Hne].
    - rewrite Z.eqb_refl, (mr_pool _ _ _ _ Hok). simpl.
      rewrite count_if_all by by apply Forall_true.
      by rewrite (Permutation_length (sort_by_perm pgid pool_pgs)).
    - apply count_if_false, Forall_true. intros x. by apply Z.eqb_neq. }
  rewrite (list_fmap_ext _ _ _ (fun _ k _ => Hblock k)). clear Hblock.
  by apply sum_indicator.
Qed.

End response.

Definition allocs_ok (mem : map_allocs) : Prop :=
  osds_ok mem = true /\ routes_ok mem = true /\
  (forall i, shards_ok mem i = true) /\ (forall i, osd_ids_ok mem i = true).

Lemma decode_cluster_map_ok mem rsp oe pe os r pool pool_pgs :
  allocs_ok mem -> map_response_ok os r pool pool_pgs -> is_u64 oe -> is_u64 pe ->
  let b := (EncodeGetClusterMapResponse 0 StatusOK oe pe os (Some r)).2 in
  Z.of_nat (List.length b) < 2 ^ 32 -> body rsp = Some b -> body_len rsp = Z.of_nat (List.length b) ->
  decode_cluster_map mem rsp pool
  = Done ([oe; pe; Z.of_nat (List.length os); Z.of_nat (List.length (all_pgs r))],
          Z.of_nat (List.length pool_pgs),
          Some (driver_osd <$> sort_by osdid os), Some (driver_routes r)).
Proof.
  intros (M1 & M2 & M3 & M4) Hok Ho Hp. cbv zeta. unfold EncodeGetClusterMapResponse. cbn [snd from_option].
  pose proof (mr_osd_count _ _ _ _ Hok) as Hoc. pose proof (mr_pg_count _ _ _ _ Hok) as Hpc.
  rewrite (count_pgs_ok r Hpc), (u32_small (Z.of_nat (List.length os))) by lia.
  rewrite encodePGEntries_flat.
  change (pack clusterMapResponseHeader) with (pack kfastblock_raw_cluster_map_rsp_hdr).
  set (flds := [oe; pe; _; _]). set (eo := concat (encodeOSDEntry <$> _)).
  set (ep := concat _). set (b := _ ++ eo ++ ep). intros Hlen Hb Hbl.
  assert (Hfits : Forall2 fits kfastblock_raw_cluster_map_rsp_hdr flds) by (subst flds; solve_fits).
  assert (Hne : 0 < Z.of_nat (List.length pool_pgs)).
  { pose proof (mr_pool_ne _ _ _ _ Hok). destruct pool_pgs; [done|simpl; lia]. }
  assert (Hone : 0 < Z.of_nat (List.length os)).
  { pose proof (mr_osds_ne _ _ _ _ Hok). destruct os; [done|simpl; lia]. }
  assert (Hrne : 0 < Z.of_nat (List.length (all_pgs r))).
  { rewrite <- (pool_pg_count_ok _ _ _ _ Hok) in Hne.
    pose proof (count_if_le_length (fun p : Z * PGInfo => p.1 =? pool) (all_pgs r)). lia. }
  unfold decode_cluster_map, kfastblock_transport_response_decode_cluster_map_header.
  rewrite (expect_min_body_ok _ _ _ Hb), Hbl, Hb.
  assert (H24 : 24 <= Z.of_nat (List.length b)).
  { subst b. rewrite length_app, length_pack by done. simpl. lia. }
  change (size kfastblock_raw_cluster_map_rsp_hdr) with 24 at 1.
  rewrite (proj2 (Z.ltb_ge _ _)) by lia. change (truthy 0) with false. cbv iota.
  rewrite (copy_struct_at b Hlen [] _ flds (eo ++ ep)) by done. cbn [mbind outcome_bind].
  rewrite unpack_pack_all by done. subst flds. cbn [nth].
  assert (Ht : forall n, 0 < n -> truthy n = true).
  { intros n Hn. unfold truthy. apply negb_true_iff, Z.eqb_neq. lia. }
  rewrite !Ht, M1, M2 by done. cbn [andb negb].
  unfold kfastblock_transport_decode_osd_entries, kfastblock_transport_decode_pg_entries.
  rewrite !Nat2Z.id.
  rewrite <- (Permutation_length (sort_by_perm osdid os)) at 1.
  assert (Hos : Forall osd_ok (sort_by osdid os)).
  { rewrite (sort_by_perm osdid). exact (mr_osds _ _ _ _ Hok). }
  rewrite (decode_osd_loop_at b Hlen _ _ M3 _ _ ep Hos) by done. cbn [mbind outcome_bind].
  fold eo. rewrite (decode_pg_loop_at b Hlen _ pool (all_pgs r) M4 _ _ [] 0
    (all_pgs_ok _ _ _ _ Hok)); [|lia|lia|].
  2: { subst b ep. by rewrite app_nil_r, <- app_assoc. }
  cbn [mbind outcome_bind]. fold ep. rewrite <- app_assoc. simpl ([] ++ _). fold b.
  rewrite Z.eqb_refl, (pool_pg_count_ok _ _ _ _ Hok), Z.add_0_l. cbn [negb].
  rewrite (proj2 (Z.eqb_neq _ 0)) by lia. by rewrite driver_routes_flat.
Qed.

(** What the driver makes of a cluster map that the monitor encoded. *)
Lemma cluster_map_decodes (mem : map_allocs) (rsp : kfastblock_transport_response_ctx)
    (view : Meta.kfastblock_cluster_view) (oe pe : Z) (os : list OsdDynamicInfo)
    (r : GetPgMapResponse) (pool_pgs : list PGInfo) :
  allocs_ok mem -> view_wf view ->
  map_response_ok os r (Meta.pool_id (Meta.image view)) pool_pgs -> is_u64 oe -> is_u64 pe ->
  let b := (EncodeGetClusterMapResponse 0 StatusOK oe pe os (Some r)).2 in
  Z.of_nat (List.length b) < 2 ^ 32 -> body rsp = Some b -> body_len rsp = Z.of_nat (List.length b) ->
  exists v' rs',
    kfastblock_transport_response_decode_cluster_map mem (Some rsp) (Some view)
      = Some (0, Some v') /\ view_wf v' /\
    Meta.osdmap_epoch v' = oe /\ Meta.pgmap_epoch v' = pe /\
    Meta.pg_count (Meta.image v') = Z.of_nat (List.length pool_pgs) /\
    Meta.osds v' = Some (driver_osd <$> sort_by osdid os) /\
    Meta.routes v' = Some rs' /\ (Meta.clear_leader <$> rs') = driver_routes r.
Proof.
  intros Hm Hw Hok Ho Hp b Hlen Hb Hbl.
  pose proof (decode_cluster_map_ok mem rsp oe pe os r _ _ Hm Hok Ho Hp Hlen Hb Hbl) as Hd.
  unfold kfastblock_transport_response_decode_cluster_map. rewrite Hd. cbn [nth].
  assert (Hl1 : List.length (driver_osd <$> sort_by osdid os) = List.length os)
    by by rewrite length_fmap, (Permutation_length (sort_by_perm osdid os)).
  assert (Hl2 : List.length (driver_routes r) = List.length (all_pgs r))
    by by rewrite driver_routes_flat, length_fmap.
  destruct (Meta.replace_cluster_map_wf view oe pe (Z.of_nat (List.length pool_pgs))
    (Z.of_nat (List.length os)) (driver_osd <$> sort_by osdid os)
    (Z.of_nat (List.length (all_pgs r))) (driver_routes r) Hw)
    as (v' & rs' & E & H1 & H2 & H3 & H4 & H5 & H6 & H7).
  { split.
    - cbn. by rewrite Hl1.
    - cbn. by rewrite Hl2.
    - exact (mr_osd_count _ _ _ _ Hok).
    - exact (mr_pg_count _ _ _ _ Hok).
    - exact (driver_osds_sorted _ _ _ _ Hok).
    - exact (driver_routes_sorted _ _ _ _ Hok). }
  exists v', rs'. rewrite E. do 7 (split; [done|]). rewrite H7.
  rewrite driver_routes_flat, <- list_fmap_compose. by apply list_fmap_ext.
Qed.

(** ** Messages and their frames *)

Definition to_wire (h : Header) : kfastblock_raw_header :=
  {| magic := HMagic h; version_major := HVersionMajor h; version_minor := HVersionMinor h;
     service := HService h; opcode := HOpcode h; flags := HFlags h; seq := HSeq h;
     status := HStatus h; hdr_body_len := HBodyLen h |}.

Definition of_wire (h : kfastblock_raw_header) : Header :=
  {| HMagic := magic h; HVersionMajor := version_major h; HVersionMinor := version_minor h;
     HService := service h; HOpcode := opcode h; HFlags := flags h; HSeq := seq h;
     HStatus := status h; HBodyLen := hdr_body_len h |}.

Lemma WriteMessage_frame h b :
  Z.of_nat (List.length b) < 2 ^ 32 ->
  WriteMessage h b = header_bytes (to_wire (h <| HBodyLen := Z.of_nat (List.length b) |>)) ++ b.
Proof. intros Hl. unfold WriteMessage. by rewrite u32_small by lia. Qed.

Lemma ReadFull_app b rest :
  ReadFull (b ++ rest) (Z.of_nat (List.length b)) = Some (b, rest).
Proof.
  unfold ReadFull. rewrite length_app, (proj2 (Z.ltb_ge _ _)) by lia.
  by rewrite Nat2Z.id, take_app_length, drop_app_length.
Qed.

Lemma binary_Read_pack widths fields rest :
  Forall2 fits widths fields ->
  binary_Read widths (pack widths fields ++ rest) = Some (fields, rest).
Proof.
  intros Hf. unfold binary_Read, size.
  rewrite <- (length_pack widths fields) by by eapply Forall2_length.
  rewrite ReadFull_app. cbn [mbind option_bind]. by rewrite unpack_pack_all.
Qed.

Lemma ReadHeader_frame h rest :
  header_fits h -> ReadHeader (header_bytes h ++ rest) = Some (of_wire h, rest).
Proof.
  intros Hf. unfold ReadHeader, header_bytes.
  change Header_widths with header_layout. rewrite binary_Read_pack by done. done.
Qed.

Lemma ReadBody_frame b rest :
  ReadBody (b ++ rest) (Z.of_nat (List.length b)) = Some (b, rest).
Proof.
  unfold ReadBody. destruct (Z.eqb_spec (Z.of_nat (List.length b)) 0) as [E|E].
  - assert (b = []) as -> by (apply nil_length_inv; lia). done.
  - apply ReadFull_app.
Qed.

Lemma request_header_fits svc op sq len :
  0 <= svc < 256 -> 0 <= op < 256 -> is_u64 sq -> is_u32 len ->
  header_fits (request_header svc op sq len).
Proof.
  intros H1 H2 H3 H4. unfold header_fits, header_fields, request_header, header_layout. cbn.
  unfold KFASTBLOCK_RAW_MAGIC, KFASTBLOCK_RAW_VERSION_MAJOR, KFASTBLOCK_RAW_VERSION_MINOR.
  solve_fits.
Qed.

Lemma response_header_fits op sq st len :
  0 <= op < 256 -> is_u64 sq -> 0 <= st < 2 ^ 32 -> is_u32 len ->
  header_fits (to_wire (response_header op sq st <| HBodyLen := len |>)).
Proof.
  intros H1 H2 H3 H4. change (Forall2 fits [4; 1; 1; 1; 1; 4; 8; 4; 4]%nat
    [Magic; VersionMajor; VersionMinor; ServiceMonitor; op; 1; sq; st; len]).
  unfold Magic, VersionMajor, VersionMinor, ServiceMonitor. solve_fits.
Qed.

(** One request on a connection of the monitor. *)
Lemma handleConnection_one `{MonitorDb} op sq b :
  0 <= op < 256 -> is_u64 sq -> Z.of_nat (List.length b) < 2 ^ 32 ->
  handleConnection (header_bytes (request_header KFASTBLOCK_RAW_SERVICE_MONITOR op sq
                                    (Z.of_nat (List.length b))) ++ b)
  = handleRequest (of_wire (request_header KFASTBLOCK_RAW_SERVICE_MONITOR op sq
                              (Z.of_nat (List.length b)))) b.
Proof.
  intros Ho Hs Hb. unfold handleConnection.
  set (h := request_header _ _ _ _).
  assert (Hf : header_fits h).
  { apply request_header_fits; unfold KFASTBLOCK_RAW_SERVICE_MONITOR, is_u32; try lia. done. }
  assert (Hl : List.length (header_bytes h ++ b) = S (27 + List.length b)).
  { rewrite length_app. unfold header_bytes. rewrite length_pack by done. done. }
  rewrite Hl. cbn [serve]. rewrite ReadHeader_frame by done. cbn [HBodyLen of_wire].
  rewrite <- (app_nil_r b) at 1. cbn [hdr_body_len h request_header].
  unfold h at 2. cbn [hdr_body_len request_header]. rewrite ReadBody_frame.
  assert (Hv : ValidateRequestHeader (Some (of_wire h)) = None) by reflexivity.
  rewrite Hv. cbn [serve Nat.add]. by rewrite app_nil_r.
Qed.

(** A request of one part. *)
Lemma request_message_one svc op sq b n :
  n = Z.of_nat (List.length b) -> n < 2 ^ 32 ->
  request_message svc op sq [(Some b, n)]
  = header_bytes (request_header svc op sq (Z.of_nat (List.length b))) ++ b.
Proof.
  intros -> Hn. unfold request_message, parts_bytes, parts_len. cbn [foldl snd fmap list_fmap concat fst].
  rewrite u32_small by lia. cbn [default from_option]. unfold id.
  by rewrite Nat2Z.id, take_ge, app_nil_r by lia.
Qed.

Lemma decode_map_request view :
  is_u64 (Meta.osdmap_epoch view) -> is_u32 (Meta.pool_id (Meta.image view)) ->
  is_u64 (Meta.pgmap_epoch view) ->
  DecodeGetClusterMapRequest (cluster_map_request view)
  = Some {| OSDMapEpoch := Meta.osdmap_epoch view; PoolID := Meta.pool_id (Meta.image view);
            Reserved := 0; PGMapEpoch := Meta.pgmap_epoch view |}.
Proof.
  intros Ho Hp Hg. unfold DecodeGetClusterMapRequest, cluster_map_request.
  rewrite <- (app_nil_r (pack _ _)). rewrite binary_Read_pack by solve_fits. done.
Qed.


(** ** Image information *)

Definition name_ok (s : string) : Prop := (String.length s < Meta.KFASTBLOCK_MAX_NAME_LEN)%nat.

Definition image_request (view : Meta.kfastblock_cluster_view) : list Z :=
  pack kfastblock_raw_get_image_info_req
    [Meta.image_epoch view; Z.of_nat (String.length (Meta.pool_name (Meta.image view)));
     Z.of_nat (String.length (Meta.image_name (Meta.image view)))]
  ++ bytes_of_string (Meta.pool_name (Meta.image view))
  ++ bytes_of_string (Meta.image_name (Meta.image view)).

Lemma struct_part_bytes layout fields :
  List.length layout = List.length fields ->
  take (Z.to_nat (size layout)) (pack layout fields) = pack layout fields.
Proof. intros H. unfold size. rewrite Nat2Z.id. apply take_ge. by rewrite length_pack. Qed.

Lemma string_part_bytes s :
  take (Z.to_nat (Z.of_nat (String.length s))) (bytes_of_string s) = bytes_of_string s.
Proof. rewrite Nat2Z.id. apply take_ge. by rewrite length_bytes_of_string. Qed.

Lemma image_info_parts_bytes view :
  name_ok (Meta.pool_name (Meta.image view)) -> name_ok (Meta.image_name (Meta.image view)) ->
  parts_bytes (image_info_parts view) = image_request view /\
  parts_len (image_info_parts view) = Z.of_nat (List.length (image_request view)).
Proof.
  unfold name_ok, Meta.KFASTBLOCK_MAX_NAME_LEN. intros H1 H2.
  unfold image_info_parts. rewrite !u16_small by lia. split.
  - unfold parts_bytes, image_request. cbn [fmap list_fmap concat struct_part string_part fst snd default from_option id].
    by rewrite struct_part_bytes, !string_part_bytes, app_nil_r.
  - unfold parts_len, image_request. cbn [foldl struct_part string_part snd].
    change (size kfastblock_raw_get_image_info_req) with 12. change (u32 (0 + 12)) with 12.
    rewrite (u32_small (12 + _)), u32_small by lia.
    rewrite !length_app, !length_bytes_of_string, length_pack by done. simpl. lia.
Qed.

Lemma decode_image_request view :
  is_u64 (Meta.image_epoch view) ->
  name_ok (Meta.pool_name (Meta.image view)) -> name_ok (Meta.image_name (Meta.image view)) ->
  DecodeGetImageInfoRequest (image_request view)
  = Some {| ImageEpoch := Meta.image_epoch view;
            PoolName := bytes_of_string (Meta.pool_name (Meta.image view));
            ImageName := bytes_of_string (Meta.image_name (Meta.image view)) |}.
Proof.
  unfold name_ok, Meta.KFASTBLOCK_MAX_NAME_LEN. intros He H1 H2.
  unfold DecodeGetImageInfoRequest, image_request.
  set (p := bytes_of_string (Meta.pool_name _)). set (q := bytes_of_string (Meta.image_name _)).
  assert (Hp : List.length p = String.length (Meta.pool_name (Meta.image view)))
    by apply length_bytes_of_string.
  assert (Hq : List.length q = String.length (Meta.image_name (Meta.image view)))
    by apply length_bytes_of_string.
  rewrite <- Hp, <- Hq in *.
  change (pack kfastblock_raw_get_image_info_req [Meta.image_epoch view; Z.of_nat (List.length p);
    Z.of_nat (List.length q)]) with (pack [8]%nat [Meta.image_epoch view]
    ++ pack [2]%nat [Z.of_nat (List.length p)] ++ pack [2]%nat [Z.of_nat (List.length q)]).
  rewrite <- !app_assoc. rewrite binary_Read_pack by solve_fits. cbn [mbind option_bind].
  rewrite binary_Read_pack by solve_fits. cbn [mbind option_bind].
  rewrite binary_Read_pack by solve_fits. cbn [mbind option_bind nth].
  rewrite length_app, (proj2 (Z.eqb_eq _ _)) by lia. cbn [negb].
  rewrite ReadFull_app. cbn [mbind option_bind].
  rewrite <- (app_nil_r q) at 1. rewrite ReadFull_app. done.
Qed.


(** ** Object requests *)

(** An extent that the driver sends: its name fits the driver's buffer. *)
Record extent_ok (e : Request.kfastblock_object_extent) : Prop := {
  ex_pg : is_u32 (Request.pg_id e);
  ex_offset : is_u64 (Request.object_offset e);
  ex_length : 0 <= Request.extent_length e <= 4 * 1024 * 1024;
  ex_name : (0 < String.length (Request.object_name e) < 256)%nat;
}.

(** A message with a body of known bytes is the first frame of the OSD's stream. *)
Lemma osd_receives_message op sq parts b rest :
  0 <= op < 256 -> is_u64 sq -> parts_bytes parts = b ->
  parts_len parts = Z.of_nat (List.length b) ->
  Z.of_nat (List.length b) <= OsdServer.max_raw_body_len ->
  OsdConn.next_frame (request_message KFASTBLOCK_RAW_SERVICE_OSD op sq parts ++ rest)
  = Some (Some (request_header KFASTBLOCK_RAW_SERVICE_OSD op sq (Z.of_nat (List.length b)), b, rest)).
Proof.
  intros Ho Hs Eb El Hb. unfold request_message. rewrite Eb, El.
  pose proof Hb as Hb'. unfold OsdServer.max_raw_body_len in Hb.
  set (h := request_header _ _ _ _).
  assert (Hf : header_fits h).
  { apply request_header_fits; unfold KFASTBLOCK_RAW_SERVICE_OSD, is_u32; try lia. done. }
  assert (Hl : List.length (header_bytes h) = 28%nat) by (unfold header_bytes; by rewrite length_pack).
  assert (Hh : OsdConn.header_at (header_bytes h ++ b) = h).
  { unfold OsdConn.header_at. by rewrite take_app_length', header_roundtrip. }
  rewrite (OsdConn.next_frame_whole (header_bytes h ++ b)); rewrite ?Hh.
  - by rewrite drop_app_length'.
  - unfold OsdServer.validate_request_header. cbn. by rewrite (proj2 (Z.leb_le _ _)).
  - cbn. lia.
  - rewrite length_app, Hl. cbn [hdr_body_len h request_header]. subst h. cbn. lia.
Qed.

Lemma osd_validates op sq len :
  0 <= len <= OsdServer.max_raw_body_len ->
  OsdServer.validate_request_header (request_header KFASTBLOCK_RAW_SERVICE_OSD op sq len) = true.
Proof.
  intros H. unfold OsdServer.validate_request_header. cbn. by rewrite (proj2 (Z.leb_le _ _)) by lia.
Qed.

Definition named_body (layout : list nat) (fields : list Z) (e : Request.kfastblock_object_extent)
    (data : list Z) : list Z :=
  pack layout fields ++ bytes_of_string (Request.object_name e) ++ data.

Lemma length_named_body layout fields e data :
  List.length layout = List.length fields ->
  Z.of_nat (List.length (named_body layout fields e data))
  = size layout + Z.of_nat (String.length (Request.object_name e)) + Z.of_nat (List.length data).
Proof.
  intros Hl. unfold named_body, size.
  rewrite !length_app, length_pack, length_bytes_of_string by done. lia.
Qed.

Lemma named_body_small layout fields e data :
  extent_ok e -> List.length layout = List.length fields -> size layout <= 24 ->
  Z.of_nat (List.length data) <= Request.extent_length e ->
  Z.of_nat (List.length (named_body layout fields e data)) <= OsdServer.max_raw_body_len.
Proof.
  intros [_ _ Hl Hn] E H1 H2. rewrite length_named_body by done.
  unfold OsdServer.max_raw_body_len in *. lia.
Qed.

(** The name and the data follow the structure. *)
Lemma named_body_slices layout fields e data :
  List.length layout = List.length fields ->
  let b := named_body layout fields e data in
  let n := Z.of_nat (String.length (Request.object_name e)) in
  take (Z.to_nat n) (drop (Z.to_nat (size layout)) b) = bytes_of_string (Request.object_name e) /\
  drop (Z.to_nat (size layout + n)) b = data.
Proof.
  intros Hl. cbv zeta. unfold named_body, size.
  rewrite <- (length_pack layout fields Hl), <- (length_bytes_of_string (Request.object_name e)).
  rewrite !Nat2Z.id, drop_app_length, take_app_length. split; [done|].
  rewrite <- Nat2Z.inj_add, Nat2Z.id, <- length_app, app_assoc. apply drop_app_length.
Qed.

(** The bytes of each request. *)
Definition io_fields (pool : Z) (e : Request.kfastblock_object_extent) : list Z :=
  [pool; Request.pg_id e; Request.object_offset e; Request.extent_length e;
   Z.of_nat (String.length (Request.object_name e)); 0].

Definition delete_fields (pool : Z) (e : Request.kfastblock_object_extent) : list Z :=
  [pool; Request.pg_id e; Z.of_nat (String.length (Request.object_name e)); 0].

Lemma read_parts_bytes pool e :
  extent_ok e ->
  parts_bytes (read_parts pool e) = named_body kfastblock_raw_read_object_req (io_fields pool e) e [] /\
  parts_len (read_parts pool e)
  = Z.of_nat (List.length (named_body kfastblock_raw_read_object_req (io_fields pool e) e [])).
Proof.
  intros [_ _ _ Hn]. rewrite length_named_body by done.
  unfold read_parts, parts_bytes, parts_len, named_body. rewrite u16_small by lia.
  cbn [fmap list_fmap concat struct_part string_part fst snd default from_option id foldl].
  rewrite struct_part_bytes, string_part_bytes by done. split; [done|].
  change (size kfastblock_raw_read_object_req) with 24. change (u32 (0 + 24)) with 24.
  rewrite u32_small; simpl; lia.
Qed.

Lemma write_parts_bytes pool e data :
  extent_ok e -> Z.of_nat (List.length data) = Request.extent_length e ->
  parts_bytes (write_parts pool e (Some data))
  = named_body kfastblock_raw_write_object_req (io_fields pool e) e data /\
  parts_len (write_parts pool e (Some data))
  = Z.of_nat (List.length (named_body kfastblock_raw_write_object_req (io_fields pool e) e data)).
Proof.
  intros [_ _ Hl Hn] Hd. rewrite length_named_body by done.
  unfold write_parts, parts_bytes, parts_len, named_body. rewrite u16_small by lia.
  cbn [fmap list_fmap concat struct_part string_part fst snd default from_option id foldl].
  rewrite struct_part_bytes, string_part_bytes by done.
  rewrite (take_ge data), app_nil_r by lia. split; [done|].
  change (size kfastblock_raw_write_object_req) with 24. change (u32 (0 + 24)) with 24.
  rewrite (u32_small (24 + _)), u32_small; lia.
Qed.

Lemma delete_parts_bytes pool e :
  extent_ok e ->
  parts_bytes (delete_parts pool e)
  = named_body kfastblock_raw_delete_object_req (delete_fields pool e) e [] /\
  parts_len (delete_parts pool e)
  = Z.of_nat (List.length (named_body kfastblock_raw_delete_object_req (delete_fields pool e) e [])).
Proof.
  intros [_ _ _ Hn]. rewrite length_named_body by done.
  unfold delete_parts, parts_bytes, parts_len, named_body. rewrite u16_small by lia.
  cbn [fmap list_fmap concat struct_part string_part fst snd default from_option id foldl].
  rewrite struct_part_bytes, string_part_bytes by done. split; [done|].
  change (size kfastblock_raw_delete_object_req) with 12. change (u32 (0 + 12)) with 12.
  rewrite u32_small; simpl; lia.
Qed.

Lemma io_fields_fit layout pool e :
  layout = [4; 4; 8; 4; 2; 2]%nat -> is_u32 pool -> extent_ok e ->
  Forall2 fits layout (io_fields pool e).
Proof. intros -> Hp [H1 H2 H3 H4]. unfold io_fields. solve_fits. Qed.

Lemma delete_fields_fit pool e :
  is_u32 pool -> extent_ok e ->
  Forall2 fits kfastblock_raw_delete_object_req (delete_fields pool e).
Proof. intros Hp [H1 H2 H3 H4]. unfold delete_fields. solve_fits. Qed.

Section osd_requests.
Context (service : OsdServer.osd_service) (c : OsdServer.osd_raw_tcp_connection_state) (i : nat).

Lemma dispatch_read_ok pool e :
  is_u32 pool -> extent_ok e ->
  OsdServer.dispatch_read_request (Some service) (Some c) (Some i)
    (named_body kfastblock_raw_read_object_req (io_fields pool e) e [])
  = (Some c, Some (OsdServer.process_read pool (Request.pg_id e) (Request.object_offset e)
      (Request.extent_length e) (bytes_of_string (Request.object_name e)))).
Proof.
  intros Hp He. pose proof (ex_name _ He) as Hn. unfold OsdServer.dispatch_read_request.
  rewrite length_named_body by done.
  change (size [4; 4; 8; 4; 2; 2]%nat) with (size kfastblock_raw_read_object_req).
  rewrite (proj2 (Z.ltb_ge _ _)) by lia.
  assert (Hu : unpack [4; 4; 8; 4; 2; 2]%nat
     (named_body kfastblock_raw_read_object_req (io_fields pool e) e []) = io_fields pool e)
    by by apply unpack_pack, io_fields_fit.
  rewrite Hu. cbn [io_fields nth List.length]. rewrite Z.add_0_r, Z.eqb_refl.
  rewrite (proj2 (Z.eqb_neq _ _)) by lia. cbn [negb orb].
  by rewrite (proj1 (named_body_slices kfastblock_raw_read_object_req (io_fields pool e) e [] eq_refl)).
Qed.

Lemma dispatch_write_ok pool e data :
  is_u32 pool -> extent_ok e -> Z.of_nat (List.length data) = Request.extent_length e ->
  OsdServer.dispatch_write_request (Some service) (Some c) (Some i)
    (named_body kfastblock_raw_write_object_req (io_fields pool e) e data)
  = (Some c, Some (OsdServer.process_write pool (Request.pg_id e) (Request.object_offset e)
      (bytes_of_string (Request.object_name e)) data)).
Proof.
  intros Hp He Hd. pose proof (ex_name _ He) as Hn. unfold OsdServer.dispatch_write_request.
  rewrite length_named_body by done.
  change (size [4; 4; 8; 4; 2; 2]%nat) with (size kfastblock_raw_write_object_req).
  rewrite (proj2 (Z.ltb_ge _ _)) by lia.
  assert (Hu : unpack [4; 4; 8; 4; 2; 2]%nat
     (named_body kfastblock_raw_write_object_req (io_fields pool e) e data) = io_fields pool e)
    by by apply unpack_pack, io_fields_fit.
  rewrite Hu. cbn [io_fields nth]. rewrite Hd, Z.eqb_refl.
  rewrite (proj2 (Z.eqb_neq _ _)) by lia. cbn [negb orb].
  destruct (named_body_slices kfastblock_raw_write_object_req (io_fields pool e) e data eq_refl)
    as [-> Hs].
  rewrite Hs, (take_ge data) by lia. done.
Qed.

Lemma dispatch_delete_ok pool e :
  is_u32 pool -> extent_ok e ->
  OsdServer.dispatch_delete_request (Some service) (Some c) (Some i)
    (named_body kfastblock_raw_delete_object_req (delete_fields pool e) e [])
  = (Some c, Some (OsdServer.process_delete pool (Request.pg_id e)
      (bytes_of_string (Request.object_name e)))).
Proof.
  intros Hp He. pose proof (ex_name _ He) as Hn. unfold OsdServer.dispatch_delete_request.
  rewrite length_named_body by done.
  change (size [4; 4; 2; 2]%nat) with (size kfastblock_raw_delete_object_req).
  rewrite (proj2 (Z.ltb_ge _ _)) by lia.
  assert (Hu : unpack [4; 4; 2; 2]%nat
     (named_body kfastblock_raw_delete_object_req (delete_fields pool e) e []) = delete_fields pool e)
    by by apply unpack_pack, delete_fields_fit.
  rewrite Hu. cbn [delete_fields nth List.length]. rewrite Z.add_0_r, Z.eqb_refl.
  rewrite (proj2 (Z.eqb_neq _ _)) by lia. cbn [negb orb].
  by rewrite (proj1 (named_body_slices kfastblock_raw_delete_object_req (delete_fields pool e) e []
    eq_refl)).
Qed.

End osd_requests.

(** A connection that can accept a request with number [sq]. *)
Record has_room (c : OsdServer.osd_raw_tcp_connection_state) (sq : Z) : Prop := {
  hr_running : OsdServer.stopping c = false;
  hr_room : Z.of_nat (List.length (OsdServer.pending c)) < OsdServer.raw_max_inflight_requests;
  hr_seq : OsdServer.inflight_by_seq c !! sq = None;
  hr_nonzero : sq <> 0;
}.

(** The connection after the request has been accepted. *)
Record in_flight (c : OsdServer.osd_raw_tcp_connection_state) (i : nat) (hdr : kfastblock_raw_header)
    : Prop := {
  if_running : OsdServer.stopping c = false;
  if_stored : exists r, OsdServer.store c !! i = Some r /\ OsdServer.request_header r = hdr /\
                OsdServer.detached r = false /\ OsdServer.completed r = false;
  if_mapped : OsdServer.inflight_by_seq c !! seq hdr = Some i;
}.

Lemma accept_ok hdr c :
  has_room c (seq hdr) ->
  exists c', OsdServer.accept_request hdr c = Some (true, Some c') /\
    in_flight c' (List.length (OsdServer.store c)) hdr.
Proof.
  intros [H1 H2 H3 H4]. unfold OsdServer.accept_request, OsdServer.enqueue_inflight_response.
  set (c1 := c <| OsdServer.store ::= _ |>).
  assert (Hs : OsdServer.store c1 !! List.length (OsdServer.store c) = Some (OsdServer.fresh_inflight hdr)).
  { simpl. by rewrite lookup_app_r, Nat.sub_diag by lia. }
  rewrite Hs. cbn [from_option OsdServer.request_header OsdServer.fresh_inflight].
  rewrite (proj2 (Z.eqb_neq _ _) H4).
  change (OsdServer.stopping c1) with (OsdServer.stopping c). rewrite H1.
  change (OsdServer.pending c1) with (OsdServer.pending c). rewrite (proj2 (Z.ltb_lt _ _) H2).
  change (OsdServer.inflight_by_seq c1) with (OsdServer.inflight_by_seq c).
  rewrite H3, bool_decide_false by by intros [? ?]. cbn [negb andb].
  eexists. split; [reflexivity|].
  match goal with |- in_flight (if ?b then _ else _) _ _ => destruct b end;
    (split; [exact H1|eexists; split; [exact Hs|by repeat split]|apply lookup_insert_eq]).
Qed.

(** What the OSD does with the first frame of a stream: the connection, the call to
    the service and the bytes that follow. *)
Definition osd_operation (service : OsdServer.osd_service)
    (c : OsdServer.osd_raw_tcp_connection_state) (bs : list Z)
    : option (OsdServer.conn_ptr * option OsdServer.service_call * list Z) :=
  match OsdConn.next_frame bs with
  | Some (Some (hdr, b, rest)) =>
      match OsdServer.accept_request hdr c with
      | Some (true, Some c') =>
          Some (OsdServer.dispatch_request (Some service) c' (Some (List.length (OsdServer.store c))) b,
                rest)
      | _ => None
      end
  | _ => None
  end.

(** The dispatcher that an opcode selects. *)
Lemma first_operation service c op sq parts b rest :
  0 <= op < 256 -> is_u64 sq -> has_room c sq -> parts_bytes parts = b ->
  parts_len parts = Z.of_nat (List.length b) ->
  Z.of_nat (List.length b) <= OsdServer.max_raw_body_len ->
  exists c', let i := List.length (OsdServer.store c) in
    in_flight c' i (request_header KFASTBLOCK_RAW_SERVICE_OSD op sq (Z.of_nat (List.length b))) /\
    osd_operation service c (request_message KFASTBLOCK_RAW_SERVICE_OSD op sq parts ++ rest)
    = Some (if op =? OsdServer.raw_op_get_leader
            then OsdServer.dispatch_get_leader_request (Some service) (Some c') (Some i) b
            else if op =? OsdServer.raw_op_read_object
            then OsdServer.dispatch_read_request (Some service) (Some c') (Some i) b
            else if op =? OsdServer.raw_op_write_object
            then OsdServer.dispatch_write_request (Some service) (Some c') (Some i) b
            else if op =? OsdServer.raw_op_delete_object
            then OsdServer.dispatch_delete_request (Some service) (Some c') (Some i) b
            else (OsdServer.complete_inflight_response (Some c') (Some i)
                    OsdServer.raw_status_invalid_request [], None), rest).
Proof.
  intros Ho Hs Hroom Eb El Hb. cbv zeta.
  set (hdr := request_header KFASTBLOCK_RAW_SERVICE_OSD op sq (Z.of_nat (List.length b))).
  destruct (accept_ok hdr c Hroom) as (c' & Ea & Hi). exists c'. split; [done|].
  unfold osd_operation. rewrite (osd_receives_message _ _ _ b) by done. fold hdr. rewrite Ea.
  unfold OsdServer.dispatch_request. destruct Hi as [_ (r & -> & Er & _) _]. cbn [from_option].
  rewrite Er. subst hdr. rewrite osd_validates by lia. cbn [negb]. reflexivity.
Qed.


(** ** Object replies *)

(** The frame of a completed request is a response to it. *)
Lemma osd_frame_responds (r : OsdServer.osd_raw_tcp_inflight_response) op sq n :
  OsdServer.request_header r = request_header KFASTBLOCK_RAW_SERVICE_OSD op sq n ->
  0 <= op < 256 -> is_u64 sq -> is_u32 (OsdServer.status r) ->
  Z.of_nat (List.length (OsdServer.response_body r)) < 2 ^ 32 ->
  exists h, OsdServer.response_frame r = header_bytes h ++ OsdServer.response_body r /\
    header_fits h /\ response_to KFASTBLOCK_RAW_SERVICE_OSD op h /\ seq h = sq /\
    status h = OsdServer.status r /\
    hdr_body_len h = Z.of_nat (List.length (OsdServer.response_body r)).
Proof.
  intros Eh Ho Hs Hst Hl. unfold OsdServer.response_frame. rewrite Eh, u32_small by lia.
  eexists. split; [reflexivity|].
  split; [|by repeat split].
  unfold header_fits, header_layout, header_fields.
  cbn [magic version_major version_minor service opcode flags seq status hdr_body_len request_header].
  unfold OsdServer.raw_magic, OsdServer.raw_version_major, OsdServer.raw_version_minor,
    OsdServer.raw_service_osd, OsdServer.raw_flag_response. solve_fits. by vm_compute.
Qed.

Lemma decode_leader_reply rsp l l0 :
  1 <= OsdServer.leader_id l < 2 ^ 31 -> 1 <= OsdServer.leader_port l <= U16_MAX ->
  (0 < String.length (OsdServer.leader_addr l) < Meta.KFASTBLOCK_MAX_ADDR_LEN)%nat ->
  no_nul (OsdServer.leader_addr l) ->
  body rsp = Some (OsdServer.build_leader_response_body l) ->
  body_len rsp = Z.of_nat (List.length (OsdServer.build_leader_response_body l)) ->
  kfastblock_transport_response_decode_leader (Some rsp) (Some l0)
  = Some (0, Some {| Meta.leader_osd_id := OsdServer.leader_id l;
                     Meta.leader_port := OsdServer.leader_port l;
                     Meta.leader_address := OsdServer.leader_addr l |}).
Proof.
  unfold Meta.KFASTBLOCK_MAX_ADDR_LEN, U16_MAX. intros Hi Hp Ha Hz Hb Hl.
  unfold kfastblock_transport_response_decode_leader.
  rewrite (expect_min_body_ok _ _ _ Hb), Hb, Hl. clear Hb Hl rsp.
  unfold OsdServer.build_leader_response_body. cbv zeta.
  set (addr := bytes_of_string (OsdServer.leader_addr l)).
  assert (Hal : List.length addr = String.length (OsdServer.leader_addr l))
    by apply length_bytes_of_string.
  rewrite !u16_small, u32_small by lia. set (fields := [OsdServer.leader_id l; _; _]).
  assert (Hpk : List.length (pack [4; 2; 2]%nat fields) = 8%nat) by by rewrite length_pack.
  change (size kfastblock_raw_get_leader_rsp) with 8. cbn [default from_option]. unfold id.
  rewrite length_app, Hpk, (proj2 (Z.ltb_ge _ _)) by lia. change (truthy 0) with false. cbv iota.
  rewrite slice_some by (rewrite ?length_app; lia). cbn [mbind option_bind].
  change (Z.to_nat 0) with 0%nat. change (Z.to_nat 8) with 8%nat. rewrite drop_0.
  rewrite <- Hpk, take_app_length.
  rewrite unpack_pack_all by (subst fields; solve_fits).
  subst fields. cbn [nth]. rewrite Hpk.
  rewrite (proj2 (Z.eqb_eq _ _)) by lia. rewrite (proj2 (Z.eqb_neq _ 0)) by lia.
  rewrite (proj2 (Z.leb_gt _ _)) by (unfold Meta.KFASTBLOCK_MAX_ADDR_LEN; lia). cbn [negb orb].
  rewrite slice_some by (rewrite ?length_app; lia). cbn [mbind option_bind].
  change (Z.to_nat 8) with 8%nat. rewrite <- Hpk, drop_app_length.
  rewrite Nat2Z.id, take_ge by lia. subst addr. rewrite string_of_bytes_of_string by done.
  cbn [Meta.leader_osd_id Meta.leader_port Meta.leader_address].
  rewrite !(proj2 (Z.eqb_neq _ 0)) by lia. unfold str_empty.
  by rewrite bool_decide_false by (intros E; rewrite E in Ha; simpl in Ha; lia).
Qed.

Lemma decode_read_reply rsp e data buf :
  Z.of_nat (List.length data) <= Request.extent_length e <= Z.of_nat (List.length buf) ->
  Request.extent_length e < 2 ^ 32 ->
  body rsp = Some (OsdServer.build_read_response_body data) ->
  body_len rsp = Z.of_nat (List.length (OsdServer.build_read_response_body data)) ->
  kfastblock_transport_response_decode_read_object (Some rsp) (Some e) (Some buf)
  = Some (0, Some (data ++ replicate (Z.to_nat (Request.extent_length e) - List.length data) 0
                        ++ drop (Z.to_nat (Request.extent_length e)) buf)).
Proof.
  intros He Hu Hb Hl. unfold kfastblock_transport_response_decode_read_object.
  rewrite (expect_min_body_ok _ _ _ Hb), Hb, Hl, bool_decide_true by by eexists. clear Hb Hl rsp.
  unfold OsdServer.build_read_response_body. rewrite u32_small by lia.
  set (fields := [Z.of_nat (List.length data); 0]). cbn [negb andb].
  assert (Hpk : List.length (pack [4; 4]%nat fields) = 8%nat) by by rewrite length_pack.
  change (size kfastblock_raw_read_object_rsp) with 8. cbn [default from_option]. unfold id.
  rewrite length_app, Hpk, (proj2 (Z.ltb_ge _ _)) by lia. change (truthy 0) with false. cbv iota.
  rewrite slice_some by (rewrite ?length_app; lia). cbn [mbind option_bind].
  change (Z.to_nat 0) with 0%nat. change (Z.to_nat 8) with 8%nat. rewrite drop_0.
  rewrite <- Hpk, take_app_length.
  rewrite unpack_pack_all by (subst fields; solve_fits).
  subst fields. cbn [nth]. rewrite Hpk.
  rewrite (proj2 (Z.eqb_eq _ _)) by lia. rewrite (proj2 (Z.ltb_ge _ _)) by lia. cbn [negb orb].
  cbn [fmap option_fmap option_map].
  assert (Hz : forall n z (x : list Z), (n <= z)%nat ->
    drop n (replicate z 0 ++ x) = replicate (z - n) 0 ++ x).
  { intros n z x Hn. by rewrite drop_app_le, drop_replicate by by rewrite length_replicate. }
  unfold truthy. destruct (Z.eqb_spec (Z.of_nat (List.length data)) 0) as [E|E]; cbn [negb].
  - destruct data; [|simpl in E; lia]. simpl. by rewrite Nat.sub_0_r.
  - rewrite slice_some by (rewrite ?length_app; lia). cbn [mbind option_bind].
    change (Z.to_nat 8) with 8%nat. rewrite <- Hpk, drop_app_length.
    rewrite Nat2Z.id, take_ge by lia. by rewrite Hz by lia.
Qed.

(** The bytes are one OK response to the request, with that body. *)
Definition ok_response (op sq : Z) (frame b : list Z) : Prop :=
  exists h, frame = header_bytes h ++ b /\ header_fits h /\
    response_to KFASTBLOCK_RAW_SERVICE_OSD op h /\ seq h = sq /\
    status h = KFASTBLOCK_RAW_STATUS_OK /\ hdr_body_len h = Z.of_nat (List.length b).

(** Completing a request in flight. *)
Lemma complete_ok c i op sq len b :
  0 <= op < 256 -> is_u64 sq -> Z.of_nat (List.length b) < 2 ^ 32 ->
  in_flight c i (request_header KFASTBLOCK_RAW_SERVICE_OSD op sq len) ->
  exists c' r, OsdServer.complete_inflight_response (Some c) (Some i) OsdServer.raw_status_ok b = Some c' /\
    OsdServer.store c' !! i = Some r /\ OsdServer.completed r = true /\ last (OsdServer.ready c') = Some i /\
    ok_response op sq (OsdServer.response_frame r) b.
Proof.
  intros Ho Hs Hl [H1 (r & Hr & Er & Hd & Hc) H3].
  unfold OsdServer.complete_inflight_response. rewrite Hr, Hd, H1, Hc. cbn [orb].
  rewrite Er, H3, bool_decide_true by done. cbn [negb].
  set (r' := r <| OsdServer.status := OsdServer.raw_status_ok |> <| OsdServer.response_body := b |>
               <| OsdServer.completed := true |>).
  eexists _, r'. split; [reflexivity|]. split; [simpl; by rewrite list_lookup_alter_eq, Hr|].
  split; [done|]. split; [simpl; by rewrite last_snoc|].
  by apply (osd_frame_responds r' op sq len).
Qed.


(** C5: What an OSD read is what the driver gets: the answer to a read that the
    service completed is one OK response, from which the driver fills the extent's
    part of the buffer with the data, zeroes the rest of the extent (an object
    may be shorter), and leaves the rest of the buffer alone. *)
Theorem read_data_crosses_the_wire (c : OsdServer.osd_raw_tcp_connection_state) (i : nat)
    (e : Request.kfastblock_object_extent) (data buf : list Z) (sq len : Z) :
  is_u64 sq ->
  in_flight c i (request_header KFASTBLOCK_RAW_SERVICE_OSD KFASTBLOCK_RAW_OSD_OP_READ_OBJECT sq len) ->
  Request.extent_length e <= 4 * 1024 * 1024 ->
  Z.of_nat (List.length data) <= Request.extent_length e <= Z.of_nat (List.length buf) ->
  exists c' r b,
    OsdServer.read_done (Some c) (Some i) OsdServer.E_SUCCESS data = Some c' /\
    OsdServer.store c' !! i = Some r /\ last (OsdServer.ready c') = Some i /\
    ok_response KFASTBLOCK_RAW_OSD_OP_READ_OBJECT sq (OsdServer.response_frame r) b /\
    forall rsp, body rsp = Some b -> body_len rsp = Z.of_nat (List.length b) ->
      kfastblock_transport_response_decode_read_object (Some rsp) (Some e) (Some buf)
      = Some (0, Some (data
          ++ replicate (Z.to_nat (Request.extent_length e) - List.length data) 0
          ++ drop (Z.to_nat (Request.extent_length e)) buf)).
Proof.
  intros Hs Hfl Hl Hd. set (b := OsdServer.build_read_response_body data).
  assert (Hb : Z.of_nat (List.length b) < 2 ^ 32).
  { subst b. unfold OsdServer.build_read_response_body. rewrite length_app, length_pack by done.
    simpl. lia. }
  destruct (complete_ok c i KFASTBLOCK_RAW_OSD_OP_READ_OBJECT sq len b ltac:(done) Hs Hb Hfl)
    as (c' & r & Ec & Hr & _ & Hlast & Hok).
  exists c', r, b. split_and!; [|done|done|done|].
  - rewrite <- Ec. unfold OsdServer.read_done.
    change (OsdServer.E_SUCCESS =? OsdServer.E_SUCCESS) with true.
    cbn [negb]. rewrite (proj2 (Z.ltb_ge _ _)); [done|].
    change (size [4; 4]%nat) with 8. unfold OsdServer.max_raw_body_len. lia.
  - intros rsp. apply decode_read_reply; lia.
Qed.

(** ** Concrete runs *)

(** A monitor with two OSDs, given out of order, and two pools. *)
Definition small_mon_osd (id : Z) : OsdDynamicInfo :=
  {| osdid := id; address := "10.0.0.1"; sharded_ports :=
       {[ 1 := {| coreid := 3; port := 9001; raw_port := 0 |};
          0 := {| coreid := 2; port := 9000; raw_port := 9100 |} ]};
     isin := true; isup := id =? 10 |}.

Definition small_pg (id : Z) : PGInfo :=
  {| pgid := id; version := 4; state := 1; coreindex := 0; osdids := [10; 11] |}.

Definition small_pgmap : GetPgMapResponse :=
  {| poolid_pgmapversion := {[ 0 := 8; 1 := 8 ]};
     pgs := {[ 1 := [small_pg 1; small_pg 0]; 0 := [small_pg 0] ]} |}.

Definition small_mem : map_allocs :=
  {| osds_ok := true; shards_ok := fun _ => true; routes_ok := true; osd_ids_ok := fun _ => true |}.

Definition small_map_rsp : kfastblock_transport_response_ctx :=
  let b := (EncodeGetClusterMapResponse 0 StatusOK 9 8 [small_mon_osd 11; small_mon_osd 10]
              (Some small_pgmap)).2 in
  zero_response <| body := Some b |> <| body_len := Z.of_nat (List.length b) |>.

Lemma small_mon_osd_ok id : 0 <= id < 2 ^ 31 -> osd_ok (small_mon_osd id).
Proof.
  intros Hid. split; [done|simpl; unfold Meta.KFASTBLOCK_MAX_ADDR_LEN; lia| |..].
  - by repeat constructor.
  - intros i c Hc. simpl in Hc.
    apply lookup_insert_Some in Hc as [[<- <-]|[_ Hc]]; [by vm_compute|].
    apply lookup_singleton_Some in Hc as [<- <-]. by vm_compute.
  - by vm_compute.
Qed.

Lemma small_pg_ok id : 0 <= id < 2 ^ 31 -> pg_ok (small_pg id).
Proof. intros Hid. split; [done|by vm_compute|by vm_compute|]. by repeat constructor. Qed.

Lemma small_response_ok :
  map_response_ok [small_mon_osd 11; small_mon_osd 10] small_pgmap 1 [small_pg 1; small_pg 0].
Proof.
  split; [|..|by vm_compute|reflexivity|done].
  - apply Forall_cons; split; [|apply Forall_singleton]; by apply small_mon_osd_ok.
  - apply NoDup_cons; split; [set_solver|apply NoDup_singleton].
  - done.
  - done.
  - intros p l Hl. simpl in Hl.
    apply lookup_insert_Some in Hl as [[<- <-]|[_ Hl]].
    + split_and!; [done|done|apply Forall_cons; split; [|apply Forall_singleton]; by apply small_pg_ok|].
      apply NoDup_cons; split; [set_solver|apply NoDup_singleton].
    + apply lookup_singleton_Some in Hl as [<- <-].
      split_and!; [done|done|apply Forall_singleton; by apply small_pg_ok|apply NoDup_singleton].
Qed.

(** A volume of pool 1 that has an old map. *)
Definition small_pool_view : Meta.kfastblock_cluster_view :=
  Meta.small_view <| Meta.image ::= fun i => i <| Meta.pool_id := 1 |> |>.

Lemma small_pool_view_wf : view_wf small_pool_view.
Proof. by destruct Meta.small_view_wf. Qed.

(** A monitor that knows one image of pool 3. *)
Definition small_db : MonitorDb :=
  {| ProcessGetImageMessage _ _ :=
       Some {| ImageID := 5; Imagename := "img"; Poolname := "pool"; Imagesize := 1048576;
               Objectsize := 65536 |};
     GetPoolIDByName _ := Some 3; GetImageEpoch i := ImageID i; GetOSDMapVersion := 9;
     GetPoolPGMapVersion _ := Some 10; ProcessGetPgMapMessage _ := Some small_pgmap;
     ProcessGetOsdMapMessage _ _ := ([small_mon_osd 11; small_mon_osd 10], 9, true) |}.



Definition small_extent : Request.kfastblock_object_extent :=
  {| Request.object_seq := 0; Request.request_offset := 0; Request.object_offset := 4096;
     Request.extent_length := 3; Request.pg_id := 2; Request.object_name := "blk_img_0" |}.

Definition small_service : OsdServer.osd_service :=
  {| OsdServer.resolve_pg_leader _ _ _ :=
       {| OsdServer.leader_state := 0; OsdServer.leader_id := 10;
          OsdServer.leader_addr := "10.0.0.1"; OsdServer.leader_port := 9000 |} |}.

Lemma small_extent_ok : extent_ok small_extent.
Proof. split; [by vm_compute|by vm_compute|simpl; lia|simpl; lia]. Qed.

Lemma small_room : has_room OsdServer.zero_conn 7.
Proof. by split. Qed.



(** A read of the driver in flight. *)
Definition small_read_request : kfastblock_raw_header :=
  request_header KFASTBLOCK_RAW_SERVICE_OSD KFASTBLOCK_RAW_OSD_OP_READ_OBJECT 7 0.

Definition small_flight : OsdServer.osd_raw_tcp_connection_state :=
  match OsdServer.accept_request small_read_request OsdServer.zero_conn with
  | Some (true, Some c) => c
  | _ => OsdServer.zero_conn
  end.

Lemma read_data_crosses_the_wire_witness :
  exists c' b, OsdServer.read_done (Some small_flight) (Some 0%nat) 0 [1; 2] = Some c' /\
    kfastblock_transport_response_decode_read_object
      (Some (zero_response <| body := Some b |> <| body_len := Z.of_nat (List.length b) |>))
      (Some small_extent) (Some [7; 7; 7; 7]) = Some (0, Some [1; 2; 0; 7]).
Proof.
  destruct (read_data_crosses_the_wire small_flight 0 small_extent [1; 2] [7; 7; 7; 7] 7 0)
    as (c' & r & b & E & _ & _ & _ & Hd);
    [by vm_compute| |simpl; lia|simpl; lia|].
  - split; [reflexivity| |vm_compute; reflexivity].
    exists (OsdServer.fresh_inflight small_read_request). by repeat split.
  - exists c', b. split; [exact E|]. apply Hd; reflexivity.
Defined.

End Interop.
