(* ===== verification/ObjectLock.v ===== *)
(** * The object locks of an OSD (src/osd/osd_stm.h)

    Operations on one object exclude each other by type: reads run together, so do
    writes, but a read waits for the writes before it and the other way round.
    [op_type_excl_lock] is the lock of one object, [lock_manager] makes locks when
    they are first needed and drops them when nobody is left.

    A [utils::context] that waits is a number.  Completing one runs its function,
    and that function may release the lock before it returns: a read on a leader
    whose lease has run out does, and so does a write that raft refuses.  [sync]
    says which contexts do; every operation returns the waiters it completed, in
    order.  [wake] calls itself then, so it has fuel. *)

From stdpp Require Import relations gmap strings.
From S2P Require Import Prelude.

Module ObjectLock.

Inductive operation_type := NONE | READ | WRITE | DELETE.

#[export] Instance operation_type_eq_dec : EqDecision operation_type.
Proof. solve_decision. Defined.

Record waiter := { complete : Z; type : operation_type }.

Record op_type_excl_lock := {
  _lock_type : operation_type;
  _runners : Z;
  _waiters : list waiter;
}.

#[export] Instance eta_lock : Eta op_type_excl_lock := fun l =>
  {| _lock_type := _lock_type l; _runners := _runners l; _waiters := _waiters l |}.

Definition new_lock : op_type_excl_lock :=
  {| _lock_type := NONE; _runners := 0; _waiters := [] |}.

Definition is_none (t : operation_type) : bool := bool_decide (t = NONE).

Definition is_compatible_type (t1 t2 : operation_type) : bool :=
  if is_none t1 || is_none t2 then true else bool_decide (t1 = t2).

Definition try_lock (t : operation_type) (l : op_type_excl_lock) : bool * op_type_excl_lock :=
  if is_none (_lock_type l)
     || (is_compatible_type t (_lock_type l) && bool_decide (_waiters l = []))
  then (true, if is_none (_lock_type l) then l <| _lock_type := t |> else l)
  else (false, l).

Definition holders (l : op_type_excl_lock) : Z := u64 (_runners l + Z.of_nat (List.length (_waiters l))).

(** [unlock] up to the waking. *)
Definition leave (l : op_type_excl_lock) : op_type_excl_lock :=
  let l := l <| _runners ::= fun n => u64 (n - 1) |> in
  if _runners l =? 0 then l <| _lock_type := NONE |> else l.

(** Whether the lock was got; the caller then completes the context. *)
Definition lock (t : operation_type) (c : Z) (l : op_type_excl_lock) : bool * op_type_excl_lock :=
  match try_lock t l with
  | (true, l) => (true, l <| _runners ::= fun n => u64 (n + 1) |>)
  | (false, l) => (false, l <| _waiters ::= fun ws => ws ++ [{| complete := c; type := t |}] |>)
  end.

Record lock_manager := {
  _lock_map : gmap string op_type_excl_lock;
  _disable_flag : bool;
}.

#[export] Instance eta_manager : Eta lock_manager := fun m =>
  {| _lock_map := _lock_map m; _disable_flag := _disable_flag m |}.

Section lock.
Variable sync : Z -> bool.

(** The waiter at the front is completed while it is still in the list, and taken
    off it afterwards. *)
Fixpoint wake (fuel : nat) (l : op_type_excl_lock) : list waiter * op_type_excl_lock :=
  match fuel, _waiters l with
  | S fuel, w :: _ =>
      match try_lock (type w) l with
      | (true, l) =>
          let l := l <| _runners ::= fun n => u64 (n + 1) |> in
          let '(inner, l) := if sync (complete w) then wake fuel (leave l) else ([], l) in
          let l := l <| _waiters ::= List.tl |> in
          let '(rest, l) := wake fuel l in
          (w :: inner ++ rest, l)
      | (false, l) => ([], l)
      end
  | _, _ => ([], l)
  end.

Definition unlock (fuel : nat) (l : op_type_excl_lock) : list waiter * op_type_excl_lock :=
  wake fuel (leave l).

(** ** The manager *)

Definition lock_manager_unlock (fuel : nat) (key : string) (m : lock_manager)
    : list waiter * lock_manager :=
  if _disable_flag m then ([], m)
  else
    match _lock_map m !! key with
    | None => ([], m)
    | Some l =>
        let '(done, l) := unlock fuel l in
        (done, m <| _lock_map ::= if holders l =? 0 then delete key else insert key l |>)
    end.

Definition lock_manager_lock (fuel : nat) (key : string) (t : operation_type) (c : Z)
    (m : lock_manager) : list waiter * lock_manager :=
  let w := {| complete := c; type := t |} in
  if _disable_flag m then ([w], m)
  else
    match lock t c (default new_lock (_lock_map m !! key)) with
    | (true, l) =>
        let m := m <| _lock_map ::= insert key l |> in
        let '(inner, m) := if sync c then lock_manager_unlock fuel key m else ([], m) in
        (w :: inner, m)
    | (false, l) => ([], m <| _lock_map ::= insert key l |>)
    end.

End lock.

(** ** Fairness and exclusion

    What has happened at one object: the operations that came for the lock, those
    that got it, and those of them that still hold it. *)
Record history := { arrived : list waiter; granted : list waiter; held : list waiter }.

Record lock_world := { manager : lock_manager; histories : string -> history }.

Definition update_history (k : string) (f : history -> history) (h : string -> history)
    : string -> history :=
  fun k' => if decide (k' = k) then f (h k) else h k'.

(** Fuel that lets every waiter be woken. *)
Definition enough (m : lock_manager) (k : string) : nat :=
  S (from_option (fun l => List.length (_waiters l)) 0%nat (_lock_map m !! k)).

Definition acquire (k : string) (w : waiter) (s : lock_world) : lock_world :=
  let '(done, m) := lock_manager_lock (fun _ => false) (enough (manager s) k) k (type w) (complete w) (manager s) in
  {| manager := m;
     histories := update_history k (fun h =>
       {| arrived := arrived h ++ [w]; granted := granted h ++ done; held := held h ++ done |}) (histories s) |}.

Definition release (k : string) (w : waiter) (rest : list waiter) (s : lock_world) : lock_world :=
  let '(done, m) := lock_manager_unlock (fun _ => false) (enough (manager s) k) k (manager s) in
  {| manager := m;
     histories := update_history k (fun h =>
       {| arrived := arrived h; granted := granted h ++ done; held := rest ++ done |}) (histories s) |}.

(** An operation comes for the lock, or one that holds it releases it, in any
    order; one that releases the lock at once does so in a step of its own.  There
    are fewer than [2 ^ 64] operations. *)
Inductive lock_step : lock_world -> lock_world -> Prop :=
| step_acquire k w s :
    type w <> NONE -> Z.of_nat (List.length (arrived (histories s k))) + 1 < 2 ^ 64 ->
    lock_step s (acquire k w s)
| step_release k w rest s :
    held (histories s k) ≡ₚ w :: rest -> lock_step s (release k w rest s).

Record lock_inv (l : op_type_excl_lock) (h : history) : Prop := {
  li_fifo : arrived h = granted h ++ _waiters l;
  li_runners : _runners l = Z.of_nat (List.length (held h));
  li_busy : held h <> [];
  li_types : Forall (fun w => type w = _lock_type l) (held h);
  li_some : _lock_type l <> NONE;
  li_waiting : Forall (fun w => type w <> NONE) (_waiters l);
  li_small : Z.of_nat (List.length (held h) + List.length (_waiters l)) < 2 ^ 64;
  li_held : (List.length (held h) <= List.length (granted h))%nat;
}.

Definition key_inv (lk : option op_type_excl_lock) (h : history) : Prop :=
  match lk with
  | Some l => lock_inv l h
  | None => held h = [] /\ arrived h = granted h
  end.

Lemma try_lock_none t l : _lock_type l = NONE -> try_lock t l = (true, l <| _lock_type := t |>).
Proof. intros E. unfold try_lock. by rewrite E. Qed.

Lemma try_lock_held t l :
  t <> NONE -> _lock_type l <> NONE ->
  try_lock t l = (bool_decide (t = _lock_type l /\ _waiters l = []), l).
Proof.
  intros Ht Hl. unfold try_lock, is_compatible_type, is_none.
  rewrite !(bool_decide_eq_false_2 _ Ht), !(bool_decide_eq_false_2 _ Hl). cbn [orb].
  rewrite <- bool_decide_and. by destruct (bool_decide _).
Qed.

(** While somebody holds the lock no waiter is woken. *)
Lemma wake_held sync fuel l :
  _lock_type l <> NONE -> Forall (fun w => type w <> NONE) (_waiters l) -> wake sync fuel l = ([], l).
Proof.
  intros Hl Hw. destruct fuel as [|fuel]; cbn [wake]; [done|].
  destruct (_waiters l) as [|w ws] eqn:E; [done|]. apply Forall_cons in Hw as [Hw _].
  by rewrite try_lock_held, bool_decide_eq_false_2 by (rewrite ?E; naive_solver).
Qed.

(** When nobody does, the first of them gets it, and it alone. *)
Lemma wake_free fuel l w ws :
  _lock_type l = NONE -> _runners l = 0 -> _waiters l = w :: ws ->
  Forall (fun w => type w <> NONE) (w :: ws) ->
  wake (fun _ => false) (S fuel) l
  = ([w], {| _lock_type := type w; _runners := 1; _waiters := ws |}).
Proof.
  intros Ht Hr Hw Hne. apply Forall_cons in Hne as [Hn Hne]. cbn [wake]. rewrite Hw, try_lock_none by done.
  cbv beta iota zeta. cbn [_waiters]. destruct l as [lt r q]. cbn in *. subst. cbn.
  by rewrite wake_held.
Qed.

(** What [lock] does, on a new lock and on one that is held. *)
Lemma lock_free t c :
  lock t c new_lock = (true, {| _lock_type := t; _runners := 1; _waiters := [] |}).
Proof. done. Qed.

Lemma lock_held t c l :
  t <> NONE -> _lock_type l <> NONE ->
  lock t c l = if decide (t = _lock_type l /\ _waiters l = [])
               then (true, l <| _runners ::= fun n => u64 (n + 1) |>)
               else (false, l <| _waiters ::= fun ws => ws ++ [{| complete := c; type := t |}] |>).
Proof.
  intros Ht Hl. unfold lock. rewrite try_lock_held by done. case_bool_decide.
  - by rewrite decide_True.
  - by rewrite decide_False.
Qed.

Lemma acquire_inv m k w h :
  type w <> NONE -> _disable_flag m = false -> Z.of_nat (List.length (arrived h)) + 1 < 2 ^ 64 ->
  key_inv (_lock_map m !! k) h ->
  forall done m' fuel, lock_manager_lock (fun _ => false) fuel k (type w) (complete w) m = (done, m') ->
  _disable_flag m' = false /\ (forall k', k' <> k -> _lock_map m' !! k' = _lock_map m !! k') /\
  key_inv (_lock_map m' !! k)
    {| arrived := arrived h ++ [w]; granted := granted h ++ done; held := held h ++ done |}.
Proof.
  intros Ht Hd Hs Hi done m' fuel. unfold lock_manager_lock. rewrite Hd. destruct w as [c t]. cbn [type complete] in *.
  destruct (_lock_map m !! k) as [l|] eqn:El; cbn [default from_option id key_inv] in *.
  - destruct Hi as [H1 H2 H3 H4 H5 H6 H7 H8]. rewrite lock_held by done.
    pose proof (f_equal List.length H1) as Hl1. rewrite length_app in Hl1.
    destruct (decide _) as [[Hty Hq]|Hno]; intros [= <- <-]; (split; [done|]);
      (split; [intros k' Hk; simpl; by rewrite lookup_insert_ne|]); simpl; rewrite lookup_insert_eq; cbn [key_inv].
    + split; simpl; try done.
      * by rewrite H1, Hq, !app_nil_r.
      * rewrite H2, length_app, u64_small by (simpl; lia). simpl. lia.
      * by destruct (held h).
      * apply Forall_app. by repeat constructor.
      * rewrite length_app, Hq. simpl. lia.
      * rewrite !length_app. simpl. lia.
    + split; simpl; rewrite ?app_nil_r; try done.
      * by rewrite H1, app_assoc.
      * apply Forall_app. by repeat constructor.
      * rewrite length_app. simpl. lia.
  - rewrite lock_free. destruct Hi as [Hh Ha]. intros [= <- <-]. split; [done|].
    split; [intros k' Hk; simpl; by rewrite lookup_insert_ne|]. simpl. rewrite lookup_insert_eq, Hh. cbn [key_inv app].
    split; simpl; rewrite ?Ha, ?app_nil_r; try done.
    + by repeat constructor.
    + rewrite length_app. simpl. lia.
Qed.

Lemma leave_spec l :
  1 <= _runners l < 2 ^ 64 ->
  leave l = if decide (_runners l = 1)
            then {| _lock_type := NONE; _runners := 0; _waiters := _waiters l |}
            else {| _lock_type := _lock_type l; _runners := _runners l - 1; _waiters := _waiters l |}.
Proof.
  intros Hr. destruct l as [t r ws]. cbn in *. unfold leave. cbn. rewrite u64_small by lia.
  destruct (decide (r = 1)) as [->|Hne]; [done|]. by rewrite (proj2 (Z.eqb_neq _ 0)) by lia.
Qed.

Lemma release_inv m k w rest h :
  _disable_flag m = false -> key_inv (_lock_map m !! k) h -> held h ≡ₚ w :: rest ->
  forall done m' fuel, lock_manager_unlock (fun _ => false) (S fuel) k m = (done, m') ->
  _disable_flag m' = false /\ (forall k', k' <> k -> _lock_map m' !! k' = _lock_map m !! k') /\
  key_inv (_lock_map m' !! k)
    {| arrived := arrived h; granted := granted h ++ done; held := rest ++ done |}.
Proof.
  intros Hd Hi Hp done m' fuel. unfold lock_manager_unlock. rewrite Hd.
  destruct (_lock_map m !! k) as [l|] eqn:El; cbn [key_inv] in Hi.
  2: { destruct Hi as [Hh _]. rewrite Hh in Hp. by apply Permutation_nil_cons in Hp. }
  destruct Hi as [H1 H2 H3 H4 H5 H6 H7 H8]. pose proof (Permutation_length Hp) as Hlen. simpl in Hlen.
  rewrite Hp in H4. apply Forall_cons in H4 as [_ Hrest].
  unfold unlock. rewrite leave_spec by lia. destruct (decide (_runners l = 1)) as [Hz|Hz].
  - assert (rest = []) as -> by (destruct rest; [done|simpl in *; lia]).
    destruct (_waiters l) as [|v ws] eqn:Ew.
    + cbn. intros [= <- <-]. split; [done|]. simpl.
      split; [intros k' Hk; by rewrite lookup_delete_ne|]. rewrite lookup_delete_eq. cbn.
      split; [done|]. by rewrite H1.
    + rewrite (wake_free fuel _ v ws) by done. unfold holders. cbn [_runners _waiters].
      rewrite u64_small by (simpl in H7; lia). rewrite (proj2 (Z.eqb_neq _ 0)) by lia.
      intros [= <- <-]. split; [done|]. simpl.
      split; [intros k' Hk; by rewrite lookup_insert_ne|]. rewrite lookup_insert_eq. cbn [key_inv].
      apply Forall_cons in H6 as [Hv Hws]. split; simpl; try done.
      * by rewrite H1, <- app_assoc.
      * by repeat constructor.
      * simpl in H7. lia.
      * rewrite length_app. simpl. lia.
  - rewrite wake_held by done. unfold holders. cbn [_runners _waiters].
    rewrite u64_small by lia. rewrite (proj2 (Z.eqb_neq _ 0)) by lia.
    intros [= <- <-]. split; [done|]. simpl.
    split; [intros k' Hk; by rewrite lookup_insert_ne|]. rewrite lookup_insert_eq. cbn [key_inv].
    split; simpl; rewrite ?app_nil_r; try done; try lia. destruct rest; [simpl in *; lia|done].
Qed.


Definition world_inv (s : lock_world) : Prop :=
  _disable_flag (manager s) = false /\ forall k, key_inv (_lock_map (manager s) !! k) (histories s k).

Lemma lock_step_inv s s' : lock_step s s' -> world_inv s -> world_inv s'.
Proof.
  intros Hs [Hd Hi]. destruct Hs as [k w s Ht Hb|k w rest s Hp].
  - unfold acquire. destruct (lock_manager_lock _ _ _ _ _ _) as [done m'] eqn:E.
    apply acquire_inv with (h := histories s k) in E as (H1 & H2 & H3); [|done..].
    split; [done|]. intros k'. simpl. unfold update_history. destruct (decide (k' = k)) as [->|Hne]; [done|].
    rewrite H2 by done. apply Hi.
  - unfold release. destruct (lock_manager_unlock _ _ _ _) as [done m'] eqn:E.
    eapply release_inv in E as (H1 & H2 & H3); [|done|apply Hi|done].
    split; [done|]. intros k'. simpl. unfold update_history. destruct (decide (k' = k)) as [->|Hne]; [done|].
    rewrite H2 by done. apply Hi.
Qed.

Definition fresh_world : lock_world :=
  {| manager := {| _lock_map := ∅; _disable_flag := false |};
     histories := fun _ => {| arrived := []; granted := []; held := [] |} |}.


(** Operations of one type that wait behind another type are let in one by one, not
    together: the next is woken only when the last that holds the lock has left. *)
Theorem waiters_are_woken_one_by_one (l : op_type_excl_lock) (fuel : nat) :
  Forall (fun w => type w <> NONE) (_waiters l) -> 1 <= _runners l < 2 ^ 64 -> _lock_type l <> NONE ->
  (List.length (fst (unlock (fun _ => false) fuel l)) <= 1)%nat.
Proof.
  intros Hw Hr Ht. unfold unlock. rewrite leave_spec by done.
  destruct (decide _); [|by rewrite wake_held by done; simpl; lia].
  destruct fuel; [simpl; lia|]. destruct (_waiters l) as [|w ws] eqn:E; [simpl; lia|].
  rewrite (wake_free fuel _ w ws) by done. simpl. lia.
Qed.

(** A waiter whose function releases the lock before it returns is still at the
    front when it does, and is completed again: once for every call of [wake] that
    there is fuel for. *)
Theorem waking_a_quick_waiter_never_ends (sync : Z -> bool) (fuel : nat) (w : waiter) (ws : list waiter) :
  sync (complete w) = true ->
  exists later, fst (wake sync fuel {| _lock_type := NONE; _runners := 0; _waiters := w :: ws |})
    = replicate fuel w ++ later.
Proof.
  intros Hs. induction fuel as [|fuel [later IH]]; [by exists []|]. cbn [wake _waiters].
  rewrite try_lock_none by done. cbv beta iota zeta. rewrite Hs, leave_spec by done. rewrite decide_True by done.
  change (replicate (S fuel) w) with (w :: replicate fuel w).
  match goal with |- context [wake sync fuel ?x] =>
    change x with {| _lock_type := NONE; _runners := 0; _waiters := w :: ws |} end.
  destruct (wake sync fuel {| _lock_type := NONE; _runners := 0; _waiters := w :: ws |}) as [inner l'] eqn:E.
  cbn [fst] in IH. subst inner.
  match goal with |- context [wake sync fuel ?x] => destruct (wake sync fuel x) as [r l''] end.
  exists (later ++ r). cbn. by rewrite <- app_assoc.
Qed.

(** ** Concrete runs *)

Definition small_op (c : Z) (t : operation_type) : waiter := {| complete := c; type := t |}.

(** A read, two writes that wait for it, and the read leaves. *)
Definition small_world : lock_world :=
  release "o" (small_op 1 READ) []
    (acquire "o" (small_op 3 WRITE) (acquire "o" (small_op 2 WRITE) (acquire "o" (small_op 1 READ) fresh_world))).


End ObjectLock.
