(* ===== verification/ObjectStore.v ===== *)
(** * The object store of an OSD (src/localstore/object_store.cc, src/osd/osd_stm.cc)

    Every object of a placement group is a blob of 4 MiB in an SPDK blobstore; a
    table maps its name to the blob, to a snapshot that recovery reads, and to the
    snapshots users made.  Blobs are read and written in units of 512 bytes, so an
    operation that is not aligned reads the units first.

    SPDK is not part of the source: [Blobs] has the calls the store makes.  They
    are asynchronous there, and every callback is a definition here; an operation
    is the chain of its callbacks.  Operations on one object do not overlap
    (ObjectLock, and the state machine applies one entry at a time), operations on
    different objects work on different blobs.  The extended attributes given to a
    new blob are left out, and so are [spdk_malloc], which is not checked, and the
    measurement of slow operations. *)

From stdpp Require Import gmap strings.
From S2P Require Import Prelude.

Module ObjectStore.

(** ** SPDK *)

(** An open blob is a pointer, a blob has a number.  The first result is the error
    number given to the callback. *)
Class Blobs (B : Type) := {
  spdk_bs_create_blob_ext : B -> Z -> Z * Z * B;
  spdk_bs_open_blob : B -> Z -> Z * ptr Z * B;
  spdk_bs_delete_blob : B -> Z -> Z * B;
  spdk_bs_create_snapshot : B -> Z -> Z * Z * B;
  spdk_blob_close : B -> ptr Z -> Z * B;
  spdk_blob_get_id : B -> ptr Z -> Z;
  spdk_blob_io_read : B -> ptr Z -> Z -> Z -> Z * list Z;
  spdk_blob_io_write : B -> ptr Z -> list Z -> Z -> Z -> Z * B;
}.

(** ** Data *)

Record fb_blob := { blob : ptr Z; blobid : Z }.

Definition no_blob : fb_blob := {| blob := NULL; blobid := 0 |}.

Record snap := { snap_blob : fb_blob; snap_name : string }.

Record object := { origin : fb_blob; recover : fb_blob; snap_list : list snap }.

#[export] Instance eta_fb_blob : Eta fb_blob := fun b => {| blob := blob b; blobid := blobid b |}.

#[export] Instance eta_object : Eta object := fun o =>
  {| origin := origin o; recover := recover o; snap_list := snap_list o |}.

Record object_store (B : Type) := { table : gmap string object; bs : B }.
#[global] Arguments table {B}.
#[global] Arguments bs {B}.

#[export] Instance eta_object_store B : Eta (object_store B) := fun s => {| table := table s; bs := bs s |}.

Definition blob_cluster : Z := 4.
Definition cluster_size : Z := 1024 * 1024.
Definition blob_size : Z := blob_cluster * cluster_size.
Definition unit_size : Z := 512.

Definition is_lba_aligned (offset length : Z) : bool :=
  (offset mod unit_size =? 0) && (length mod unit_size =? 0).

(** [start_lba] and [num_lba]; [lba_size] is [unit_size]. *)
Definition get_page_parameters (offset length : Z) : Z * Z :=
  let start_lba := offset / unit_size in
  let end_lba := u64 (u64 (offset + length) - 1) / unit_size in
  (start_lba, u64 (u64 (end_lba - start_lba) + 1)).

(** [memcpy(dst + at, src, n)]. *)
Definition memcpy_at (dst : list Z) (at_ : Z) (src : list Z) (n : Z) : list Z :=
  take (Z.to_nat at_) dst ++ take (Z.to_nat n) src ++ drop (Z.to_nat (at_ + n)) dst.

Section store.
Context `{Blobs B}.

(** ** Reading and writing

    The result, what the caller's buffer holds, and the blobstore. *)

Definition rw_done (objerrno : Z) (buf : list Z) (b : B) : Z * list Z * B := (objerrno, buf, b).

Definition read_done (blob_ : ptr Z) (offset : Z) (buf : list Z) (len start_lba num_lba : Z)
    (is_read : bool) (objerrno : Z) (pin_buf : list Z) (b : B) : Z * list Z * B :=
  if truthy objerrno then (objerrno, buf, b)
  else
    let at_ := Z.land offset (unit_size - 1) in
    if is_read then rw_done 0 (memcpy_at buf 0 (drop (Z.to_nat at_) pin_buf) len) b
    else
      let pin_buf := memcpy_at pin_buf at_ buf len in
      let '(e, b) := spdk_blob_io_write b blob_ pin_buf start_lba num_lba in
      rw_done e buf b.

Definition blob_readwrite (blob_ : ptr Z) (offset : Z) (buf : list Z) (len : Z) (is_read : bool)
    (b : B) : Z * list Z * B :=
  let '(start_lba, num_lba) := get_page_parameters offset len in
  if is_lba_aligned offset len then
    if negb is_read then
      let '(e, b) := spdk_blob_io_write b blob_ (take (Z.to_nat len) buf) start_lba num_lba in
      rw_done e buf b
    else
      let '(e, data) := spdk_blob_io_read b blob_ start_lba num_lba in
      rw_done e (if truthy e then buf else memcpy_at buf 0 data len) b
  else
    let '(e, pin_buf) := spdk_blob_io_read b blob_ start_lba num_lba in
    read_done blob_ offset buf len start_lba num_lba is_read e pin_buf b.

(** [emplace] leaves an entry that is there as it is. *)
Definition emplace (name : string) (o : object) (t : gmap string object) : gmap string object :=
  match t !! name with Some _ => t | None => <[name := o]> t end.

Definition on_bs (r : Z * list Z * B) (s : object_store B) : Z * list Z * object_store B :=
  let '(e, buf, b) := r in (e, buf, s <| bs := b |>).

Definition open_done (name : string) (offset : Z) (buf : list Z) (len : Z) (is_read : bool)
    (blob_ : ptr Z) (objerrno : Z) (s : object_store B) : Z * list Z * object_store B :=
  if truthy objerrno then (objerrno, buf, s)
  else
    let obj := {| origin := {| blob := blob_; blobid := spdk_blob_get_id (bs s) blob_ |};
                  recover := no_blob; snap_list := [] |} in
    let s := s <| table ::= emplace name obj |> in
    on_bs (blob_readwrite blob_ offset buf len is_read (bs s)) s.

Definition create_done (name : string) (offset : Z) (buf : list Z) (len : Z) (is_read : bool)
    (blobid_ : Z) (objerrno : Z) (s : object_store B) : Z * list Z * object_store B :=
  if truthy objerrno then (objerrno, buf, s)
  else
    let '(e, blob_, b) := spdk_bs_open_blob (bs s) blobid_ in
    open_done name offset buf len is_read blob_ e (s <| bs := b |>).

(** The pool of blobs made in advance is switched off. *)
Definition create_blob (name : string) (offset : Z) (buf : list Z) (len : Z) (is_read : bool)
    (s : object_store B) : Z * list Z * object_store B :=
  let '(e, id, b) := spdk_bs_create_blob_ext (bs s) blob_cluster in
  create_done name offset buf len is_read id e (s <| bs := b |>).

Definition readwrite (name : string) (offset : Z) (buf : list Z) (len : Z) (is_read : bool)
    (s : object_store B) : Z * list Z * object_store B :=
  let len := if blob_size <? u64 (offset + len) then u64 (blob_size - offset) else len in
  match table s !! name with
  | Some o =>
      if bool_decide (is_Some (blob (origin o))) && negb (blobid (origin o) =? 0)
      then on_bs (blob_readwrite (blob (origin o)) offset buf len is_read (bs s)) s
      else if is_read then (- ENOENT, buf, s) else create_blob name offset buf len is_read s
  | None => if is_read then (- ENOENT, buf, s) else create_blob name offset buf len is_read s
  end.

Definition write (name : string) (offset : Z) (buf : list Z) (len : Z) (s : object_store B)
    : Z * object_store B :=
  let '(e, _, s) := readwrite name offset buf len false s in (e, s).

Definition read (name : string) (offset : Z) (buf : list Z) (len : Z) (s : object_store B)
    : Z * list Z * object_store B :=
  readwrite name offset buf len true s.

(** ** Deleting *)

Definition delete_complete (name : string) (objerrno : Z) (s : object_store B)
    : Z * object_store B :=
  if truthy objerrno then (objerrno, s)
  else
    match table s !! name with
    | Some o =>
        let o := o <| origin ::= fun b => b <| blobid := 0 |> |> in
        (0, s <| table ::= if (blobid (recover o) =? 0) && bool_decide (snap_list o = [])
                           then delete name else insert name o |>)
    | None => (0, s)
    end.

Definition delete_close_complete (name : string) (blob_ : fb_blob) (objerrno : Z)
    (s : object_store B) : Z * object_store B :=
  if truthy objerrno then (objerrno, s)
  else
    match table s !! name with
    | None => (- ENOENT, s)
    | Some o =>
        let s := s <| table ::= insert name (o <| origin ::= fun b => b <| blob := NULL |> |>) |> in
        let '(e, b) := spdk_bs_delete_blob (bs s) (blobid blob_) in
        delete_complete name e (s <| bs := b |>)
    end.

Definition delete_object (name : string) (s : object_store B) : Z * object_store B :=
  match table s !! name with
  | Some o =>
      if (blobid (origin o) =? 0) || bool_decide (blob (origin o) = NULL) then (0, s)
      else
        let '(e, b) := spdk_blob_close (bs s) (blob (origin o)) in
        delete_close_complete name (origin o) e (s <| bs := b |>)
  | None => (0, s)
  end.

(** ** Snapshots *)

Definition snap_create_complete (name snap_name_ : string) (snap_id objerrno : Z)
    (s : object_store B) : Z * object_store B :=
  if truthy objerrno then (objerrno, s)
  else
    match table s !! name with
    | None => (- EINVAL, s)
    | Some o =>
        let sn := {| snap_blob := {| blob := NULL; blobid := snap_id |}; snap_name := snap_name_ |} in
        (0, s <| table ::= insert name (o <| snap_list ::= fun l => l ++ [sn] |>) |>)
    end.

Definition snap_create (name snap_name_ : string) (s : object_store B) : Z * object_store B :=
  match table s !! name with
  | None => (- EINVAL, s)
  | Some o =>
      let '(e, id, b) := spdk_bs_create_snapshot (bs s) (blobid (origin o)) in
      snap_create_complete name snap_name_ id e (s <| bs := b |>)
  end.

Definition snap_delete_complete (objerrno : Z) (s : object_store B) : Z * object_store B :=
  if truthy objerrno then (objerrno, s) else (0, s).

(** The first snapshot of the name leaves the list; 0 if there is none. *)
Fixpoint erase_snap (snap_name_ : string) (l : list snap) : Z * list snap :=
  match l with
  | [] => (0, [])
  | sn :: l =>
      if String.eqb (snap_name sn) snap_name_ then (blobid (snap_blob sn), l)
      else let '(id, l) := erase_snap snap_name_ l in (id, sn :: l)
  end.

Definition snap_delete (name snap_name_ : string) (s : object_store B) : Z * object_store B :=
  match table s !! name with
  | None => (- EINVAL, s)
  | Some o =>
      let '(del_blobid, l) := erase_snap snap_name_ (snap_list o) in
      let s := s <| table ::= insert name (o <| snap_list := l |>) |> in
      if del_blobid =? 0 then (- EINVAL, s)
      else
        let '(e, b) := spdk_bs_delete_blob (bs s) del_blobid in
        snap_delete_complete e (s <| bs := b |>)
  end.

Definition recovery_open_complete (name : string) (blob_ : ptr Z) (objerrno : Z)
    (s : object_store B) : Z * object_store B :=
  if truthy objerrno then (objerrno, s)
  else
    match table s !! name with
    | None => (- EINVAL, s)
    | Some o => (0, s <| table ::= insert name (o <| recover ::= fun r => r <| blob := blob_ |> |>) |>)
    end.

Definition recovery_create_complete (name : string) (blob_id objerrno : Z) (s : object_store B)
    : Z * object_store B :=
  if truthy objerrno then (objerrno, s)
  else
    match table s !! name with
    | None => (- EINVAL, s)
    | Some o =>
        let s := s <| table ::= insert name (o <| recover := {| blob := NULL; blobid := blob_id |} |>) |> in
        let '(e, blob_, b) := spdk_bs_open_blob (bs s) blob_id in
        recovery_open_complete name blob_ e (s <| bs := b |>)
    end.

Definition recovery_create (name : string) (s : object_store B) : Z * object_store B :=
  match table s !! name with
  | None => (- EINVAL, s)
  | Some o =>
      let '(e, id, b) := spdk_bs_create_snapshot (bs s) (blobid (origin o)) in
      recovery_create_complete name id e (s <| bs := b |>)
  end.

Definition recovery_delete_complete (name : string) (objerrno : Z) (s : object_store B)
    : Z * object_store B :=
  if truthy objerrno then (objerrno, s)
  else
    match table s !! name with
    | None => (- EINVAL, s)
    | Some o => (0, s <| table ::= insert name (o <| recover ::= fun r => r <| blobid := 0 |> |>) |>)
    end.

Definition recovery_close_complete (name : string) (blob_ : fb_blob) (objerrno : Z)
    (s : object_store B) : Z * object_store B :=
  if truthy objerrno then (objerrno, s)
  else
    match table s !! name with
    | None => (- EINVAL, s)
    | Some o =>
        let s := s <| table ::= insert name (o <| recover ::= fun r => r <| blob := NULL |> |>) |> in
        let '(e, b) := spdk_bs_delete_blob (bs s) (blobid blob_) in
        recovery_delete_complete name e (s <| bs := b |>)
    end.

Definition recovery_delete (name : string) (s : object_store B) : Z * object_store B :=
  match table s !! name with
  | None => (- EINVAL, s)
  | Some o =>
      let '(e, b) := spdk_blob_close (bs s) (blob (recover o)) in
      recovery_close_complete name (recover o) e (s <| bs := b |>)
  end.

Definition recovery_read_complete (objerrno : Z) : Z := if truthy objerrno then objerrno else 0.

Definition recovery_read (name : string) (buf : list Z) (s : object_store B) : Z * list Z :=
  match table s !! name with
  | None => (- EINVAL, buf)
  | Some o =>
      if (blobid (recover o) =? 0) || bool_decide (blob (recover o) = NULL) then (- EINVAL, buf)
      else
        let '(e, data) := spdk_blob_io_read (bs s) (blob (recover o)) 0 (blob_size / unit_size) in
        (recovery_read_complete e, if truthy e then buf else memcpy_at buf 0 data blob_size)
  end.

Definition is_exist (name : string) (s : object_store B) : bool :=
  bool_decide (is_Some (table s !! name)).

Definition load (objects : gmap string object) (s : object_store B) : object_store B :=
  s <| table := objects |>.

(** ** Stopping

    [stop] closes the blob of every object and deletes its snapshots, in the order
    of the table; the first error ends it. *)

Fixpoint delete_snaps (l : list snap) (b : B) : Z * B :=
  match l with
  | [] => (0, b)
  | sn :: l =>
      let '(e, b) := spdk_bs_delete_blob b (blobid (snap_blob sn)) in
      if truthy e then (e, b) else delete_snaps l b
  end.

Fixpoint stop_objects (l : list object) (b : B) : Z * B :=
  match l with
  | [] => (0, b)
  | o :: l =>
      let '(e, b) := spdk_blob_close b (blob (origin o)) in
      if truthy e then (e, b)
      else
        let '(e, b) := delete_snaps (snap_list o) b in
        if truthy e then (e, b) else stop_objects l b
  end.

Definition stop (s : object_store B) : Z * object_store B :=
  let '(e, b) := stop_objects (snd <$> map_to_list (table s)) (bs s) in
  (e, {| table := ∅; bs := b |}).

(** The blobs [destroy] deletes. *)
Definition blobs_of (o : object) : list fb_blob :=
  (if bool_decide (blob (origin o) = NULL) then [] else [origin o]) ++
  (if bool_decide (blob (recover o) = NULL) then [] else [recover o]) ++
  (snap_blob <$> snap_list o).

Fixpoint destroy_blobs (l : list fb_blob) (b : B) : Z * B :=
  match l with
  | [] => (0, b)
  | f :: l =>
      let '(e, b) := spdk_blob_close b (blob f) in
      if truthy e then (e, b)
      else
        let '(e, b) := spdk_bs_delete_blob b (blobid f) in
        if truthy e then (e, b) else destroy_blobs l b
  end.

(** [None] is where the front of an empty list is read. *)
Definition destroy (s : object_store B) : option (Z * object_store B) :=
  if bool_decide (table s = ∅) then Some (0, s)
  else
    match concat ((fun p => blobs_of (snd p)) <$> map_to_list (table s)) with
    | [] => None
    | l => let '(e, b) := destroy_blobs l (bs s) in Some (e, {| table := ∅; bs := b |})
    end.

End store.

(** ** What SPDK promises

    A blob that exists has a number of clusters and bytes.  A call on one blob
    leaves the others alone, whether it succeeds or not; reading gives the bytes of
    the units asked for, writing replaces them. *)

(** [b'] has every blob of [b] that satisfies [P] as it was. *)
Record keeps {B} (live : B -> Z -> Prop) (clusters : B -> Z -> Z) (data : B -> Z -> Z -> Z)
    (opened : B -> Z -> Z -> Prop) (P : Z -> Prop) (b b' : B) : Prop := {
  keep_live j : P j -> live b j -> live b' j;
  keep_clusters j : P j -> live b j -> clusters b' j = clusters b j;
  keep_data j o : P j -> live b j -> data b' j o = data b j o;
  keep_open j h : P j -> live b j -> opened b h j -> opened b' h j;
}.

Class BlobLaws (B : Type) `{Blobs B} := {
  live : B -> Z -> Prop;
  clusters : B -> Z -> Z;
  data : B -> Z -> Z -> Z;
  opened : B -> Z -> Z -> Prop;
  create_blob_law b n e id b' :
    spdk_bs_create_blob_ext b n = (e, id, b') ->
    keeps live clusters data opened (fun _ => True) b b' /\
    (e = 0 -> id <> 0 /\ ~ live b id /\ live b' id /\ clusters b' id = n);
  open_blob_law b id e p b' :
    spdk_bs_open_blob b id = (e, p, b') ->
    keeps live clusters data opened (fun _ => True) b b' /\
    (e = 0 -> exists h, p = Some h /\ opened b' h id);
  delete_blob_law b id e b' :
    spdk_bs_delete_blob b id = (e, b') -> keeps live clusters data opened (fun j => j <> id) b b';
  close_blob_law b h id e b' :
    opened b h id -> spdk_blob_close b (Some h) = (e, b') ->
    keeps live clusters data opened (fun j => j <> id) b b' /\ live b' id /\
    (e <> 0 -> keeps live clusters data opened (fun _ => True) b b');
  snapshot_law b id e id' b' :
    spdk_bs_create_snapshot b id = (e, id', b') ->
    keeps live clusters data opened (fun _ => True) b b' /\
    (e = 0 -> id' <> 0 /\ ~ live b id' /\ live b' id');
  get_id_law b h id : opened b h id -> spdk_blob_get_id b (Some h) = id;
  io_read_law b h id lba n bytes :
    opened b h id -> 0 <= lba -> 0 < n -> (lba + n) * unit_size <= clusters b id * cluster_size ->
    spdk_blob_io_read b (Some h) lba n = (0, bytes) ->
    bytes = data b id <$> seqZ (lba * unit_size) (n * unit_size);
  io_write_law b h id bytes lba n e b' :
    opened b h id -> 0 <= lba -> 0 < n -> (lba + n) * unit_size <= clusters b id * cluster_size ->
    Z.of_nat (List.length bytes) = n * unit_size -> live b id ->
    spdk_blob_io_write b (Some h) bytes lba n = (e, b') ->
    keeps live clusters data opened (fun j => j <> id) b b' /\
    live b' id /\ clusters b' id = clusters b id /\ opened b' h id /\
    (e = 0 -> forall o, data b' id o =
       if decide (lba * unit_size <= o < (lba + n) * unit_size)
       then nth (Z.to_nat (o - lba * unit_size)) bytes 0 else data b id o);
}.

Section laws.
Context `{BlobLaws B}.

(** Where an operation of [len] bytes at [off] begins and ends, in units. *)
Lemma page_parameters off len :
  0 <= off -> 0 < len -> off + len <= blob_size ->
  exists lba n, get_page_parameters off len = (lba, n) /\ 0 <= lba /\ 0 < n /\
    lba * unit_size <= off < (lba + 1) * unit_size /\
    (lba + n - 1) * unit_size < off + len <= (lba + n) * unit_size /\
    (lba + n) * unit_size <= blob_size.
Proof.
  unfold blob_size, blob_cluster, cluster_size. intros Ho Hl Hb.
  unfold get_page_parameters. rewrite (u64_small (off + len)), (u64_small (off + len - 1)) by lia.
  assert (Hm : off / unit_size <= (off + len - 1) / unit_size) by (apply Z.div_le_mono; [done|lia]).
  assert (0 <= off / unit_size) by (apply Z.div_pos; [lia|done]).
  assert ((off + len - 1) / unit_size < 8192) by (apply Z.div_lt_upper_bound; [done|unfold unit_size; lia]).
  rewrite (u64_small ((off + len - 1) / unit_size - off / unit_size)), u64_small by lia.
  eexists _, _. split; [reflexivity|]. pose proof (Z.div_mod off unit_size ltac:(done)).
  pose proof (Z.mod_pos_bound off unit_size ltac:(done)).
  pose proof (Z.div_mod (off + len - 1) unit_size ltac:(done)).
  pose proof (Z.mod_pos_bound (off + len - 1) unit_size ltac:(done)).
  unfold unit_size in *. lia.
Qed.

Lemma truthy_false x : truthy x = false -> x = 0.
Proof. intros H1. by apply negb_false_iff, Z.eqb_eq in H1. Qed.

Lemma slice_seqZ {A} (f : Z -> A) s n a len :
  0 <= a -> 0 <= len -> a + len <= n ->
  take (Z.to_nat len) (drop (Z.to_nat a) (f <$> seqZ s n)) = f <$> seqZ (s + a) len.
Proof.
  intros Ha Hl Hn. replace n with (a + (len + (n - a - len))) by lia.
  rewrite seqZ_app, seqZ_app, !fmap_app by lia.
  rewrite drop_app_length' by (rewrite length_fmap, length_seqZ; done).
  by rewrite take_app_length' by (rewrite length_fmap, length_seqZ; done).
Qed.

Lemma memcpy_at_0 dst src n : memcpy_at dst 0 src n = take (Z.to_nat n) src ++ drop (Z.to_nat n) dst.
Proof. done. Qed.

Lemma length_memcpy_at dst a src n :
  0 <= a -> 0 <= n -> a + n <= Z.of_nat (List.length dst) -> n <= Z.of_nat (List.length src) ->
  List.length (memcpy_at dst a src n) = List.length dst.
Proof.
  intros Ha Hn Hd Hs. unfold memcpy_at. rewrite !length_app, !length_take, length_drop. lia.
Qed.

Lemma nth_memcpy_at dst a src n i :
  0 <= a -> 0 <= n -> a + n <= Z.of_nat (List.length dst) -> n <= Z.of_nat (List.length src) -> 0 <= i ->
  nth (Z.to_nat i) (memcpy_at dst a src n) 0
  = if decide (a <= i < a + n) then nth (Z.to_nat (i - a)) src 0 else nth (Z.to_nat i) dst 0.
Proof.
  intros Ha Hn Hd Hs Hi. unfold memcpy_at.
  destruct (decide (a <= i < a + n)) as [Hin|Hout]; rewrite !nth_lookup; f_equal.
  - rewrite lookup_app_r, length_take, Nat.min_l by (rewrite ?length_take; lia).
    rewrite lookup_app_l by (rewrite length_take; lia). rewrite lookup_take_lt by lia. f_equal. lia.
  - destruct (decide (i < a)).
    + rewrite lookup_app_l by (rewrite length_take; lia). by rewrite lookup_take_lt by lia.
    + rewrite lookup_app_r, length_take, Nat.min_l by (rewrite ?length_take; lia).
      rewrite lookup_app_r, length_take, Nat.min_l by (rewrite ?length_take; lia).
      rewrite lookup_drop. f_equal. lia.
Qed.

Lemma land_unit off : 0 <= off -> Z.land off (unit_size - 1) = off mod unit_size.
Proof. intros Ho. change (unit_size - 1) with (Z.ones 9). by rewrite Z.land_ones. Qed.

(** An operation that is aligned covers its units, one that is not lies in them. *)
Lemma page_offsets off len lba n :
  0 <= off -> 0 < len -> off + len <= blob_size -> get_page_parameters off len = (lba, n) ->
  0 <= lba /\ 0 < n /\ (lba + n) * unit_size <= blob_cluster * cluster_size /\
  0 <= off mod unit_size /\ off = lba * unit_size + off mod unit_size /\
  off mod unit_size + len <= n * unit_size /\
  (is_lba_aligned off len = true -> off = lba * unit_size /\ len = n * unit_size).
Proof.
  intros Ho Hl Hb E. destruct (page_parameters off len Ho Hl Hb) as (lba' & n' & E' & H1 & H2 & H3 & H4 & H5).
  rewrite E in E'. injection E' as <- <-.
  pose proof (Z.div_mod off unit_size ltac:(done)). pose proof (Z.mod_pos_bound off unit_size ltac:(done)).
  assert (Hq : off / unit_size = lba) by (unfold unit_size in *; lia).
  split; [done|]. split; [done|]. split; [done|]. split; [lia|]. split; [lia|].
  split; [unfold unit_size in *; lia|].
  unfold is_lba_aligned. intros Ha. apply andb_true_iff in Ha as [Ha1 Ha2].
  apply Z.eqb_eq in Ha1. apply Z.eqb_eq, Z.mod_divide in Ha2 as [m Hm]; [|done].
  split; [lia|]. unfold unit_size in *. lia.
Qed.

Lemma blob_read_spec b h id off buf len e buf' b' :
  opened b h id -> clusters b id = blob_cluster -> 0 <= off -> 0 < len -> off + len <= blob_size ->
  blob_readwrite (Some h) off buf len true b = (e, buf', b') ->
  b' = b /\ (e = 0 -> buf' = (data b id <$> seqZ off len) ++ drop (Z.to_nat len) buf).
Proof.
  intros Hop Hc Ho Hl Hb. unfold blob_readwrite. destruct (get_page_parameters off len) as [lba n] eqn:Ep.
  apply page_offsets in Ep as (H1 & H2 & H3 & H4 & H5 & H6 & Hal); [|done..].
  destruct (spdk_blob_io_read b (Some h) lba n) as [e1 bytes] eqn:Er.
  assert (Hread : e1 = 0 -> bytes = data b id <$> seqZ (lba * unit_size) (n * unit_size)).
  { intros ->. eapply io_read_law; [done|done|done|by rewrite Hc|done]. }
  destruct (is_lba_aligned off len); cbn [negb].
  - destruct (Hal eq_refl) as [Hoff Hlen]. unfold rw_done. intros [= -> <- <-]. split; [done|]. intros ->.
    change (truthy 0) with false. cbv iota. rewrite memcpy_at_0.
    rewrite Hread by done. rewrite <- Hoff, <- Hlen. f_equal.
    rewrite take_ge; [done|]. rewrite length_fmap, length_seqZ. lia.
  - unfold read_done, rw_done. destruct (truthy e1) eqn:Ht.
    { intros [= -> <- <-]. split; [done|]. intros ->. done. }
    intros [= <- <- <-]. split; [done|]. intros _. apply truthy_false in Ht.
    rewrite Hread, memcpy_at_0, land_unit by done.
    rewrite slice_seqZ by lia. by rewrite <- H5.
Qed.

Lemma blob_write_spec b h id off buf len e buf' b' :
  opened b h id -> live b id -> clusters b id = blob_cluster -> 0 <= off -> 0 < len -> off + len <= blob_size ->
  len <= Z.of_nat (List.length buf) ->
  blob_readwrite (Some h) off buf len false b = (e, buf', b') ->
  keeps live clusters data opened (fun j => j <> id) b b' /\
  live b' id /\ clusters b' id = blob_cluster /\ opened b' h id /\
  (e = 0 -> forall o, 0 <= o -> data b' id o =
     if decide (off <= o < off + len) then nth (Z.to_nat (o - off)) buf 0 else data b id o).
Proof.
  intros Hop Hlv Hc Ho Hl Hb Hbuf. unfold blob_readwrite. destruct (get_page_parameters off len) as [lba n] eqn:Ep.
  apply page_offsets in Ep as (H1 & H2 & H3 & H4 & H5 & H6 & Hal); [|done..].
  destruct (is_lba_aligned off len); cbn [negb].
  - destruct (Hal eq_refl) as [Hoff Hlen].
    destruct (spdk_blob_io_write b (Some h) _ lba n) as [e1 b1] eqn:Ew. unfold rw_done. intros [= -> <- <-].
    apply io_write_law with (id := id) in Ew as (K1 & K2 & K3 & K4 & K5);
      [|done|done|done|by rewrite Hc|rewrite length_take; lia|done].
    rewrite K3. split_and!; try done. intros He o Hoo. rewrite K5 by done.
    rewrite Z.mul_add_distr_r, <- Hoff, <- Hlen. destruct (decide _) as [Hin|]; [|done].
    rewrite !nth_lookup, lookup_take_lt by lia. done.
  - destruct (spdk_blob_io_read b (Some h) lba n) as [e1 pin] eqn:Er. unfold read_done.
    destruct (truthy e1) eqn:Ht.
    { intros [= -> <- <-]. split_and!; try done. intros ->. done. }
    apply truthy_false in Ht. subst e1.
    apply io_read_law with (id := id) in Er; [|done|done|done|by rewrite Hc].
    rewrite land_unit by done.
    assert (Hpl : List.length pin = Z.to_nat (n * unit_size)) by (rewrite Er, length_fmap, length_seqZ; done).
    destruct (spdk_blob_io_write b (Some h) _ lba n) as [e1 b1] eqn:Ew. unfold rw_done. intros [= -> <- <-].
    apply io_write_law with (id := id) in Ew as (K1 & K2 & K3 & K4 & K5);
      [|done|done|done|by rewrite Hc|rewrite length_memcpy_at; lia|done].
    rewrite K3. split_and!; try done. intros He o Hoo. rewrite K5 by done.
    destruct (decide (lba * unit_size <= o < (lba + n) * unit_size)) as [Hin|Hout].
    + rewrite nth_memcpy_at by lia. destruct (decide (off <= o < off + len)) as [Hin2|Hout2].
      * rewrite decide_True by lia. do 2 f_equal. lia.
      * rewrite decide_False by lia. rewrite Er, nth_lookup, list_lookup_fmap, lookup_seqZ_lt by lia.
        simpl. f_equal. lia.
    + by rewrite decide_False by lia.
Qed.


(** ** The store as a map from names to bytes *)

Definition usable (f : fb_blob) : Prop := is_Some (blob f) /\ blobid f <> 0.

#[export] Instance usable_dec f : Decision (usable f).
Proof. unfold usable. apply _. Defined.

(** What can be read under a name. *)
Definition contents (s : object_store B) (name : string) : option (Z -> Z) :=
  o ← table s !! name; if decide (usable (origin o)) then Some (data (bs s) (blobid (origin o))) else None.

Definition same_bytes (x y : option (Z -> Z)) : Prop :=
  match x, y with
  | Some f, Some g => forall o, f o = g o
  | None, None => True
  | _, _ => False
  end.

#[export] Instance same_bytes_equiv : Equivalence same_bytes.
Proof.
  split; [intros [f|]|intros [f|] [g|]|intros [f|] [g|] [h|]]; simpl; try done.
  intros E1 E2 o. by rewrite E1.
Qed.

(** The blobs an object owns. *)
Definition ids (o : object) : list Z :=
  (if decide (usable (origin o)) then [blobid (origin o)] else []) ++
  (if decide (blobid (recover o) = 0) then [] else [blobid (recover o)]) ++
  ((fun sn => blobid (snap_blob sn)) <$> snap_list o).

Record object_ok (b : B) (o : object) : Prop := {
  ok_open : usable (origin o) -> exists h, blob (origin o) = Some h /\ opened b h (blobid (origin o)) /\
                                           clusters b (blobid (origin o)) = blob_cluster;
  ok_live id : id ∈ ids o -> live b id;
  ok_nodup : NoDup (ids o);
}.

Record store_wf (s : object_store B) : Prop := {
  wf_object name o : table s !! name = Some o -> object_ok (bs s) o;
  wf_disjoint n1 n2 o1 o2 id : n1 <> n2 -> table s !! n1 = Some o1 -> table s !! n2 = Some o2 ->
    id ∈ ids o1 -> id ∉ ids o2;
}.

Lemma ids_origin o : usable (origin o) -> blobid (origin o) ∈ ids o.
Proof. intros Hu. unfold ids. rewrite decide_True by done. set_solver. Qed.

Abbreviation kept := (keeps live clusters data opened).

Lemma kept_refl P b : kept P b b.
Proof. by split. Qed.

Lemma kept_trans P Q b b1 b2 : kept P b b1 -> kept Q b1 b2 -> kept (fun j => P j /\ Q j) b b2.
Proof.
  intros [H1 H2 H3 H4] [K1 K2 K3 K4]. split.
  - intros j [HP HQ] Hl. auto.
  - intros j [HP HQ] Hl. rewrite K2, H2; auto.
  - intros j o [HP HQ] Hl. rewrite K3, H3; auto.
  - intros j h [HP HQ] Hl Ho. auto.
Qed.

Lemma kept_weaken P Q b b1 : (forall j, Q j -> P j) -> kept P b b1 -> kept Q b b1.
Proof. intros HQ [H1 H2 H3 H4]. split; auto. Qed.

Lemma object_ok_kept P b b' o : kept P b b' -> (forall id, id ∈ ids o -> P id) -> object_ok b o -> object_ok b' o.
Proof.
  intros [K1 K2 K3 K4] HP [H1 H2 H3]. split; [|auto|done].
  intros Hu. pose proof (ids_origin o Hu) as Hi. destruct (H1 Hu) as (h & E & Ho & Hc).
  exists h. split; [done|]. split; [auto|]. rewrite K2; auto.
Qed.

(** An operation on one name: what it leaves alone keeps its content. *)
Lemma change_wf s s' name P :
  store_wf s -> (forall n, n <> name -> table s' !! n = table s !! n) -> kept P (bs s) (bs s') ->
  (forall n o id, n <> name -> table s !! n = Some o -> id ∈ ids o -> P id) ->
  (forall o, table s' !! name = Some o -> object_ok (bs s') o /\
     forall n o' id, n <> name -> table s !! n = Some o' -> id ∈ ids o' -> id ∉ ids o) ->
  store_wf s' /\ forall n, n <> name -> same_bytes (contents s' n) (contents s n).
Proof.
  intros [W1 W2] Ht Hk HP Hn. split; [split|].
  - intros n o. destruct (decide (n = name)) as [->|Hne]; [by intros Ho; apply Hn|].
    rewrite Ht by done. intros Ho. eapply object_ok_kept; [done|by eauto|by eauto].
  - intros n1 n2 o1 o2 id Hne H1 H2 Hi.
    destruct (decide (n1 = name)) as [->|Hn1]; [|destruct (decide (n2 = name)) as [->|Hn2]].
    + rewrite Ht in H2 by done. intros Hi2. destruct (Hn o1 H1) as [_ Hd]. by apply (Hd n2 o2 id).
    + rewrite Ht in H1 by done. destruct (Hn o2 H2) as [_ Hd]. by apply (Hd n1 o1 id).
    + rewrite Ht in H1, H2 by done. by apply (W2 n1 n2 o1 o2 id).
  - intros n Hne. unfold contents. rewrite Ht by done.
    destruct (table s !! n) as [o|] eqn:E; simpl; [|done]. destruct (decide _) as [Hu|]; [|done].
    intros x. destruct Hk as [_ _ K3 _]. pose proof (ids_origin o Hu) as Hi. apply K3; [by eapply HP|].
    by eapply (ok_live _ _ (W1 n o E)).
Qed.

Lemma contents_some s name f :
  contents s name = Some f -> exists o, table s !! name = Some o /\ usable (origin o) /\ f = data (bs s) (blobid (origin o)).
Proof.
  unfold contents. destruct (table s !! name) as [o|]; simpl; [|done].
  destruct (decide _); [|done]. intros [= <-]. eauto.
Qed.

Lemma usable_test o :
  bool_decide (is_Some (blob (origin o))) && negb (blobid (origin o) =? 0) = bool_decide (usable (origin o)).
Proof.
  destruct (Z.eqb_spec (blobid (origin o)) 0); case_bool_decide; symmetry; simpl;
    (apply bool_decide_eq_true_2 || apply bool_decide_eq_false_2); unfold usable; tauto.
Qed.

Lemma in_range off len : 0 <= off -> 0 < len -> off + len <= blob_size ->
  (if blob_size <? u64 (off + len) then u64 (blob_size - off) else len) = len.
Proof.
  unfold blob_size, blob_cluster, cluster_size. intros Ho Hl Hb. rewrite u64_small by lia.
  by rewrite (proj2 (Z.ltb_ge _ _)) by lia.
Qed.

Lemma read_spec s name off buf len e buf' s' :
  store_wf s -> 0 <= off -> 0 < len -> off + len <= blob_size ->
  read name off buf len s = (e, buf', s') ->
  s' = s /\ (contents s name = None -> e = - ENOENT) /\
  (forall f, contents s name = Some f -> e = 0 -> buf' = (f <$> seqZ off len) ++ drop (Z.to_nat len) buf).
Proof.
  intros Hw Ho Hl Hb. unfold read, readwrite. rewrite in_range by done. unfold contents.
  destruct (table s !! name) as [o|] eqn:Et; simpl; [|intros [= <- <- <-]; done].
  rewrite usable_test. case_bool_decide as Hu; [rewrite decide_True by done|rewrite decide_False by done; by intros [= <- <- <-]].
  destruct (ok_open _ _ (wf_object _ Hw _ _ Et) Hu) as (h & Eh & Hop & Hc). rewrite Eh. unfold on_bs.
  destruct (blob_readwrite (Some h) off buf len true (bs s)) as [[e1 buf1] b1] eqn:Er.
  apply blob_read_spec with (id := blobid (origin o)) in Er as [-> Hbuf]; [|done..].
  intros [= <- <- <-]. split; [by destruct s|]. split; [done|]. intros f [= <-]. done.
Qed.


(** [f] is what there was, with [len] bytes of [buf] at [off]. *)
Definition written (before : option (Z -> Z)) (off : Z) (buf : list Z) (len : Z) (f : Z -> Z) : Prop :=
  forall o, 0 <= o -> if decide (off <= o < off + len) then f o = nth (Z.to_nat (o - off)) buf 0
                      else forall g, before = Some g -> f o = g o.

(** An entry of the table that a write fills or uses. *)
Definition writable (s : object_store B) (name : string) : Prop :=
  forall o, table s !! name = Some o -> usable (origin o).

Lemma write_known s name o off buf len e s' :
  store_wf s -> 0 <= off -> 0 < len -> off + len <= blob_size -> len <= Z.of_nat (List.length buf) ->
  table s !! name = Some o -> usable (origin o) ->
  write name off buf len s = (e, s') ->
  store_wf s' /\ (forall n, n <> name -> same_bytes (contents s' n) (contents s n)) /\
  table s' = table s /\
  (e = 0 -> exists f, contents s' name = Some f /\ written (contents s name) off buf len f).
Proof.
  intros Hw Ho Hl Hb Hbuf Et Hu. unfold write, readwrite. rewrite in_range, Et, usable_test by done.
  rewrite bool_decide_eq_true_2 by done.
  destruct (wf_object _ Hw _ _ Et) as [Hop Hlv Hnd]. destruct (Hop Hu) as (h & Eh & Hoh & Hc). rewrite Eh.
  pose proof (ids_origin o Hu) as Hid. unfold on_bs.
  destruct (blob_readwrite (Some h) off buf len false (bs s)) as [[e1 buf1] b1] eqn:Er.
  apply blob_write_spec with (id := blobid (origin o)) in Er as (K1 & K2 & K3 & K4 & K5); [|by auto..].
  intros [= <- <-].
  destruct (change_wf s {| table := table s; bs := b1 |} name (fun j => j <> blobid (origin o)) Hw
    (fun _ _ => eq_refl) K1) as [W1 W2].
  { intros n o' id Hne Hn Hi ->. by apply (wf_disjoint _ Hw n name o' o (blobid (origin o))). }
  { intros ox Hox. simpl in Hox. assert (ox = o) as -> by congruence. split; [split|].
    - intros _. by exists h.
    - intros id Hi. simpl. destruct (decide (id = blobid (origin o))) as [->|Hne]; [done|].
      apply (keep_live _ _ _ _ _ _ _ K1); [done|by apply Hlv].
    - done.
    - intros n o2 id Hne Hn Hi. by apply (wf_disjoint _ Hw n name o2 o id). }
  split; [done|]. split; [done|]. split; [done|]. intros ->.
  exists (data b1 (blobid (origin o))). unfold contents. simpl. rewrite Et. simpl. rewrite !decide_True by done.
  split; [done|]. intros x Hx. rewrite K5 by done. destruct (decide _); [done|]. by intros g [= <-].
Qed.

Lemma create_open b e1 id b1 e2 p b2 :
  spdk_bs_create_blob_ext b blob_cluster = (e1, id, b1) -> e1 = 0 ->
  spdk_bs_open_blob b1 id = (e2, p, b2) ->
  kept (fun _ => True) b b2 /\
  (e2 = 0 -> exists h, p = Some h /\ opened b2 h id /\ id <> 0 /\ ~ live b id /\ live b2 id /\
                       clusters b2 id = blob_cluster).
Proof.
  intros Ec He Eo. apply create_blob_law in Ec as [Kc Hc]. apply open_blob_law in Eo as [Ko Hopen].
  split; [by eapply kept_weaken; [|exact (kept_trans _ _ _ _ _ Kc Ko)]|]. intros E2.
  destruct (Hc He) as (H1 & H2 & H3 & H4). destruct (Hopen E2) as (h & -> & Hoh). exists h.
  split_and!; try done; [by apply (keep_live _ _ _ _ _ _ _ Ko)|].
  by rewrite (keep_clusters _ _ _ _ _ _ _ Ko).
Qed.

(** The object a write creates. *)
Definition fresh_object (h id : Z) : object :=
  {| origin := {| blob := Some h; blobid := id |}; recover := no_blob; snap_list := [] |}.

Lemma fresh_usable h id : id <> 0 -> usable (origin (fresh_object h id)).
Proof. by split; [eexists|]. Qed.

Lemma fresh_ids h id : id <> 0 -> ids (fresh_object h id) = [id].
Proof. intros Hid. unfold ids. by rewrite decide_True by by apply fresh_usable. Qed.

Lemma add_fresh s name h id b b3 :
  store_wf s -> ~ live (bs s) id -> id <> 0 -> kept (fun _ => True) (bs s) b -> kept (fun j => j <> id) b b3 ->
  live b3 id -> clusters b3 id = blob_cluster -> opened b3 h id ->
  let s' := {| table := <[name := fresh_object h id]> (table s); bs := b3 |} in
  store_wf s' /\ (forall n, n <> name -> same_bytes (contents s' n) (contents s n)) /\
  contents s' name = Some (data b3 id).
Proof.
  intros Hw Hfresh Hid K1 K2 Hl Hc Ho. cbv zeta. set (s' := {| table := _; bs := b3 |}).
  assert (Hnot : forall n o j, table s !! n = Some o -> j ∈ ids o -> j <> id).
  { intros n o j Hn Hj ->. apply Hfresh. by apply (ok_live _ _ (wf_object _ Hw _ _ Hn)). }
  destruct (change_wf s s' name (fun j => True /\ j <> id) Hw) as [W1 W2].
  - intros n Hne. simpl. by rewrite lookup_insert_ne.
  - by eapply kept_trans.
  - intros n o j _ Hn Hj. split; [done|by eapply Hnot].
  - intros o. simpl. rewrite lookup_insert_eq. intros [= <-]. split; [split|].
    + intros _. by exists h.
    + intros j. rewrite fresh_ids by done. intros ->%list_elem_of_singleton. done.
    + rewrite fresh_ids by done. apply NoDup_singleton.
    + intros n o' j _ Hn Hj. rewrite fresh_ids by done. intros ->%list_elem_of_singleton. by eapply Hnot.
  - split; [done|]. split; [done|]. unfold contents. simpl. rewrite lookup_insert_eq. simpl.
    by rewrite decide_True by by apply (fresh_usable h).
Qed.

(** Where a write that finds no object ends: creating or opening the blob failed, or
    the blob is written and entered under the name if that is free. *)
Lemma write_absent s name off buf len e s' :
  0 <= off -> 0 < len -> off + len <= blob_size -> len <= Z.of_nat (List.length buf) ->
  (forall o, table s !! name = Some o -> ~ usable (origin o)) -> write name off buf len s = (e, s') ->
  (e <> 0 /\ table s' = table s /\ kept (fun _ => True) (bs s) (bs s')) \/
  exists h id b, table s' = emplace name (fresh_object h id) (table s) /\
    ~ live (bs s) id /\ id <> 0 /\ kept (fun _ => True) (bs s) b /\ kept (fun j => j <> id) b (bs s') /\
    live (bs s') id /\ clusters (bs s') id = blob_cluster /\ opened (bs s') h id /\
    (e = 0 -> written None off buf len (data (bs s') id)).
Proof.
  intros Ho Hl Hb Hbuf Et. unfold write, readwrite. rewrite in_range by done.
  assert (Hgo : forall (A : Type) (x : object -> A) (y : A), match table s !! name with
            Some o => if bool_decide (is_Some (blob (origin o))) && negb (blobid (origin o) =? 0) then x o else y
          | None => y end = y).
  { intros A x y. destruct (table s !! name) as [o|] eqn:E; [|done].
    rewrite usable_test, bool_decide_eq_false_2; [done|by apply Et]. }
  rewrite Hgo. unfold create_blob, create_done.
  destruct (spdk_bs_create_blob_ext (bs s) blob_cluster) as [[e1 id] b1] eqn:Ec.
  destruct (truthy e1) eqn:T1; [intros [= <- <-]; left; split_and!; [by unbool|done|by eapply create_blob_law]|].
  destruct (spdk_bs_open_blob b1 id) as [[e2 p] b2] eqn:Eo.
  change (bs (s <| bs := b1 |>)) with b1. rewrite Eo. unfold open_done.
  apply truthy_false in T1. destruct (create_open _ _ _ _ _ _ _ Ec T1 Eo) as [K2 Hop].
  destruct (truthy e2) eqn:T2; [intros [= <- <-]; left; split_and!; [by unbool|done|done]|].
  apply truthy_false in T2. destruct (Hop T2) as (h & -> & Hoh & Hid0 & Hfresh & Hlive & Hcl).
  unfold on_bs.
  match goal with |- context [spdk_blob_get_id ?x _] => change x with b2 end. rewrite (get_id_law _ _ _ Hoh).
  match goal with |- context [blob_readwrite _ _ _ _ _ ?x] => change x with b2 end.
  destruct (blob_readwrite (Some h) off buf len false b2) as [[e3 buf3] b3] eqn:Er.
  apply blob_write_spec with (id := id) in Er as (K1 & L1 & L2 & L3 & L4); [|done..].
  intros [= <- <-]. right. exists h, id, b2. split_and!; try done. intros He x Hx.
  simpl. rewrite L4 by done. by destruct (decide _).
Qed.

Lemma write_new s name off buf len e s' :
  store_wf s -> 0 <= off -> 0 < len -> off + len <= blob_size -> len <= Z.of_nat (List.length buf) ->
  table s !! name = None -> write name off buf len s = (e, s') ->
  store_wf s' /\ (forall n, n <> name -> same_bytes (contents s' n) (contents s n)) /\
  (e = 0 -> exists f, contents s' name = Some f /\ written None off buf len f).
Proof.
  intros Hw Ho Hl Hb Hbuf Et E.
  apply write_absent in E as [(He & Ht & K)|(h & id & b & Ht & H1 & H2 & H3 & H4 & H5 & H6 & H7 & H8)]; try done.
  - destruct (change_wf s s' name (fun _ => True) Hw) as [W1 W2]; [by intros; rewrite Ht|done|done| |done].
    intros o. by rewrite Ht, Et.
  - destruct s' as [t' b']. cbn [table bs] in *. unfold emplace in Ht. rewrite Et in Ht. subst t'.
    destruct (add_fresh s name h id b b' Hw) as (W1 & W2 & W3); try done.
    split; [done|]. split; [done|]. intros He. exists (data b' id). auto.
  - intros o. by rewrite Et.
Qed.

(** A write to a name whose entry has lost its blob, as deleting an object with
    snapshots leaves it, succeeds into a blob that no name leads to. *)
Theorem write_after_delete_is_lost (s : object_store B) (name : string) (o : object) (off : Z)
    (buf : list Z) (len e : Z) (s' : object_store B) :
  0 <= off -> 0 < len -> off + len <= blob_size -> len <= Z.of_nat (List.length buf) ->
  table s !! name = Some o -> ~ usable (origin o) -> write name off buf len s = (e, s') ->
  contents s' name = None.
Proof.
  intros Ho Hl Hb Hbuf Et Hu E. unfold contents.
  apply write_absent in E as [(_ & -> & _)|(h & id & b & -> & _)]; try done.
  - rewrite Et. simpl. by rewrite decide_False.
  - unfold emplace. rewrite Et. simpl. rewrite Et. simpl. by rewrite decide_False.
  - intros o'. rewrite Et. by intros [= <-].
Qed.

Lemma object_ok_subset b o o' :
  object_ok b o -> (usable (origin o') -> origin o' = origin o) -> ids o' ⊆ ids o -> NoDup (ids o') ->
  object_ok b o'.
Proof.
  intros [H1 H2 H3] Ho Hs Hn. split; [|by auto|done].
  intros Hu. pose proof (Ho Hu) as E. rewrite E in *. auto.
Qed.

(** Without its blob an object owns the rest of its blobs. *)
Lemma ids_lost o o' :
  usable (origin o) -> ~ usable (origin o') -> recover o' = recover o -> snap_list o' = snap_list o ->
  ids o = blobid (origin o) :: ids o'.
Proof.
  intros Hu Hn Hr Hl. unfold ids. rewrite Hr, Hl.
  destruct (decide (usable (origin o))); [|done]. by destruct (decide (usable (origin o'))).
Qed.

(** The object of a name loses its blob, or the name goes. *)
Lemma lose_origin s name o b' mo :
  store_wf s -> table s !! name = Some o -> usable (origin o) ->
  kept (fun j => j <> blobid (origin o)) (bs s) b' ->
  (forall o', mo = Some o' -> ~ usable (origin o') /\ recover o' = recover o /\ snap_list o' = snap_list o) ->
  let s' := {| table := partial_alter (fun _ => mo) name (table s); bs := b' |} in
  store_wf s' /\ (forall n, n <> name -> same_bytes (contents s' n) (contents s n)) /\ contents s' name = None.
Proof.
  intros Hw Et Hu K Hm. cbv zeta. set (s' := {| table := _; bs := b' |}).
  destruct (wf_object _ Hw _ _ Et) as [_ Hlv Hnd].
  destruct (change_wf s s' name (fun j => j <> blobid (origin o)) Hw) as [W1 W2].
  - intros n Hne. simpl. by rewrite lookup_partial_alter_ne.
  - done.
  - intros n o' id Hne Hn Hi ->. apply (wf_disjoint _ Hw n name o' o _ Hne Hn Et Hi). by apply ids_origin.
  - intros o'. simpl. rewrite lookup_partial_alter_eq. intros E. destruct (Hm o' E) as (H1 & H2 & H3).
    rewrite (ids_lost o o' Hu H1 H2 H3) in Hnd, Hlv. apply NoDup_cons in Hnd as [Hni Hnd].
    split; [split; [done| |done]|].
    + intros id Hi. apply (keep_live _ _ _ _ _ _ _ K); [by intros ->|]. apply Hlv. by constructor.
    + intros n o2 id Hne Hn Hi Hi'. apply (wf_disjoint _ Hw n name o2 o id Hne Hn Et Hi).
      rewrite (ids_lost o o' Hu H1 H2 H3). by constructor.
  - split; [done|]. split; [done|]. unfold contents. simpl. rewrite lookup_partial_alter_eq.
    destruct mo as [o'|]; simpl; [|done]. rewrite decide_False; [done|by apply Hm].
Qed.

Lemma delete_closed s name o b1 e s' :
  store_wf s -> table s !! name = Some o -> usable (origin o) ->
  kept (fun j => j <> blobid (origin o)) (bs s) b1 ->
  delete_close_complete name (origin o) 0 {| table := table s; bs := b1 |} = (e, s') ->
  store_wf s' /\ (forall n, n <> name -> same_bytes (contents s' n) (contents s n)) /\
  contents s' name = None.
Proof.
  intros Hw Et Hu K1. unfold delete_close_complete. change (truthy 0) with false. cbn [table bs]. rewrite Et.
  set (o1 := o <| origin ::= _ |>). cbv zeta.
  change (bs ({| table := table s; bs := b1 |} <| table ::= insert name o1 |>)) with b1.
  destruct (spdk_bs_delete_blob b1 (blobid (origin o))) as [e2 b2] eqn:Ed. apply delete_blob_law in Ed.
  pose proof (kept_weaken _ (fun j => j <> blobid (origin o)) _ _ (fun j Hj => conj Hj Hj)
    (kept_trans _ _ _ _ _ K1 Ed)) as K. unfold delete_complete.
  assert (Hmo : forall mo : option object, (forall o', mo = Some o' -> exists i, o' = o1 <| origin ::= fun b => b <| blobid := i |> |>) ->
    let s' := {| table := partial_alter (fun _ => mo) name (table s); bs := b2 |} in
    store_wf s' /\ (forall n, n <> name -> same_bytes (contents s' n) (contents s n)) /\ contents s' name = None).
  { intros mo Hmo. apply (lose_origin s name o b2 mo Hw Et Hu K). intros o' Ho'. destruct (Hmo o' Ho') as [i ->].
    split_and!; try done. by intros [[? ?] _]. }
  destruct (truthy e2).
  - intros [= <- <-]. apply (Hmo (Some o1)). intros o' [= <-]. by exists (blobid (origin o)).
  - simpl. rewrite lookup_insert_eq. simpl. intros [= <- <-].
    destruct ((blobid (recover o) =? 0) && bool_decide (snap_list o = [])).
    + rewrite delete_insert_eq. by apply (Hmo None).
    + rewrite insert_insert_eq. 
      apply (Hmo (Some {| origin := {| blob := NULL; blobid := 0 |}; recover := recover o; snap_list := snap_list o |})).
      intros o' [= <-]. by exists 0.
Qed.

Lemma not_usable_test o :
  (blobid (origin o) =? 0) || bool_decide (blob (origin o) = NULL) = negb (bool_decide (usable (origin o))).
Proof.
  rewrite <- usable_test. destruct (blobid (origin o) =? 0); destruct (blob (origin o)); done.
Qed.

Lemma delete_spec s name e s' :
  store_wf s -> delete_object name s = (e, s') ->
  store_wf s' /\ (forall n, n <> name -> same_bytes (contents s' n) (contents s n)) /\
  (e = 0 -> contents s' name = None).
Proof.
  intros Hw. unfold delete_object.
  destruct (table s !! name) as [o|] eqn:Et.
  2: { intros [= <- <-]. split; [done|]. split; [done|]. intros _. unfold contents. by rewrite Et. }
  rewrite not_usable_test. case_bool_decide as Hu; cbn [negb].
  2: { intros [= <- <-]. split; [done|]. split; [done|]. intros _. unfold contents. rewrite Et. simpl.
       by rewrite decide_False. }
  destruct (ok_open _ _ (wf_object _ Hw _ _ Et) Hu) as (h & Eh & Hop & _). rewrite Eh.
  destruct (spdk_blob_close (bs s) (Some h)) as [e1 b1] eqn:Ec.
  destruct (close_blob_law _ _ _ _ _ Hop Ec) as (Kc & _ & Kf).
  destruct (truthy e1) eqn:T1.
  - unfold delete_close_complete. rewrite T1. intros [= <- <-]. unbool. specialize (Kf T1).
    destruct (change_wf s {| table := table s; bs := b1 |} name (fun _ => True) Hw (fun _ _ => eq_refl) Kf) as [W1 W2];
      [done| |done]. intros o' Ho'. simpl in Ho'. assert (o' = o) as -> by congruence. split.
    + eapply object_ok_kept; [exact Kf|done|by apply (wf_object _ Hw name)].
    + intros n o2 id Hne Hn Hi. by apply (wf_disjoint _ Hw n name o2 o id).
  - apply truthy_false in T1 as ->. intros E. by apply (delete_closed s name o b1) in E as (W1 & W2 & W3).
Qed.

(** A write longer than the object is cut at its end, and succeeds. *)
Theorem write_past_end_is_cut (s : object_store B) (name : string) (off : Z) (buf : list Z) (len : Z) :
  0 <= off < blob_size -> 0 < len < 2 ^ 32 -> blob_size < off + len ->
  write name off buf len s = write name off buf (blob_size - off) s.
Proof.
  unfold blob_size, blob_cluster, cluster_size. intros Ho Hl Hb. unfold write, readwrite, blob_size, blob_cluster, cluster_size.
  rewrite (u64_small (off + len)), (proj2 (Z.ltb_lt _ _)), u64_small by lia.
  by rewrite (proj2 (Z.ltb_ge _ _)) by (rewrite u64_small by lia; lia).
Qed.

(** An object changes its snapshots. *)
Lemma adjust_wf s name o o' b' P :
  store_wf s -> table s !! name = Some o -> origin o' = origin o -> kept P (bs s) b' ->
  (forall n o1 id, n <> name -> table s !! n = Some o1 -> id ∈ ids o1 -> P id) ->
  (usable (origin o) -> P (blobid (origin o))) -> object_ok b' o' ->
  (forall id, id ∈ ids o' -> id ∈ ids o \/ ~ live (bs s) id) ->
  let s' := {| table := <[name := o']> (table s); bs := b' |} in
  store_wf s' /\ forall n, same_bytes (contents s' n) (contents s n).
Proof.
  intros Hw Et Eo K HP HPo Hok Hids. cbv zeta. set (s' := {| table := _; bs := b' |}).
  destruct (change_wf s s' name P Hw) as [W1 W2]; [|done|done| |].
  - intros n Hne. simpl. by rewrite lookup_insert_ne.
  - intros x. simpl. rewrite lookup_insert_eq. intros [= <-]. split; [done|].
    intros n o1 id Hne Hn Hi Hi'. destruct (Hids id Hi') as [Hio|Hf].
    + by apply (wf_disjoint _ Hw n name o1 o id).
    + apply Hf. by apply (ok_live _ _ (wf_object _ Hw _ _ Hn)).
  - split; [done|]. intros n. destruct (decide (n = name)) as [->|Hne]; [|by apply W2].
    unfold contents. simpl. rewrite lookup_insert_eq, Et. simpl. rewrite Eo.
    destruct (decide _) as [Hu|]; [|done]. intros x. apply (keep_data _ _ _ _ _ _ _ K); [by apply HPo|].
    apply (ok_live _ _ (wf_object _ Hw _ _ Et)). by apply ids_origin.
Qed.

Lemma only_blobs s name o b' :
  store_wf s -> table s !! name = Some o -> kept (fun _ => True) (bs s) b' ->
  let s' := {| table := table s; bs := b' |} in
  store_wf s' /\ forall n, same_bytes (contents s' n) (contents s n).
Proof.
  intros Hw Et K. rewrite <- (insert_id (table s) name o Et). cbv zeta.
  apply (adjust_wf s name o o b' (fun _ => True)); try done; [|by left].
  eapply object_ok_kept; [exact K|done|by apply (wf_object _ Hw name)].
Qed.

Lemma ids_snap o sn : ids (o <| snap_list ::= fun l => l ++ [sn] |>) = ids o ++ [blobid (snap_blob sn)].
Proof. unfold ids. simpl. by rewrite fmap_app, !app_assoc. Qed.

Lemma add_id_ok b b' o o' id :
  object_ok b o -> kept (fun _ => True) b b' -> ~ live b id -> live b' id -> origin o' = origin o ->
  ids o' ≡ₚ id :: ids o -> object_ok b' o'.
Proof.
  intros Hok K Hf Hl Eo Hp. pose proof (ok_live _ _ Hok) as Hlv. pose proof (ok_nodup _ _ Hok) as Hnd.
  apply (object_ok_kept _ _ _ _ K) in Hok; [|done]. destruct Hok as [H1 H2 _]. split.
  - by rewrite Eo.
  - intros j. rewrite Hp. intros [->|Hj]%elem_of_cons; [done|by apply H2].
  - rewrite Hp. apply NoDup_cons. split; [|done]. intros Hi. by apply Hf, Hlv.
Qed.

Lemma snap_create_spec s name sn e s' :
  store_wf s -> snap_create name sn s = (e, s') ->
  store_wf s' /\ forall n, same_bytes (contents s' n) (contents s n).
Proof.
  intros Hw. unfold snap_create. destruct (table s !! name) as [o|] eqn:Et; [|by intros [= <- <-]].
  destruct (spdk_bs_create_snapshot (bs s) (blobid (origin o))) as [[e1 id] b1] eqn:Es.
  apply snapshot_law in Es as [K Hs]. unfold snap_create_complete.
  destruct (truthy e1) eqn:T1; [intros [= <- <-]; by apply (only_blobs s name o b1)|].
  apply truthy_false in T1. destruct (Hs T1) as (H1 & H2 & H3).
  change (table (s <| bs := b1 |>)) with (table s). rewrite Et. intros [= <- <-].
  set (o' := {| origin := origin o; recover := recover o; snap_list := _ |}).
  assert (Hp : ids o' ≡ₚ id :: ids o).
  { subst o'. etransitivity; [|symmetry; apply Permutation_cons_append].
    change (ids (o <| snap_list ::= fun l => l ++ [{| snap_blob := {| blob := NULL; blobid := id |}; snap_name := sn |}] |>)
            ≡ₚ ids o ++ [id]). by rewrite ids_snap. }
  apply (adjust_wf s name o o' b1 (fun _ => True)); try done.
  - by eapply add_id_ok; [by apply (wf_object _ Hw name)|exact K|exact H2|..].
  - intros j. rewrite Hp. intros [->|Hj]%elem_of_cons; [by right|by left].
Qed.

Lemma erase_snap_spec nm l id l' :
  erase_snap nm l = (id, l') ->
  (l' = l /\ id = 0) \/ exists sn, l ≡ₚ sn :: l' /\ id = blobid (snap_blob sn).
Proof.
  revert id l'. induction l as [|sn l IH]; intros id l'; simpl; [intros [= <- <-]; by left|].
  destruct (String.eqb _ _); [intros [= <- <-]; right; by exists sn|].
  destruct (erase_snap nm l) as [id1 l1]. intros [= <- <-].
  destruct (IH _ _ eq_refl) as [[-> ->]|(sn1 & Hp & ->)]; [by left|right]. exists sn1. split; [|done].
  rewrite Hp. apply Permutation_swap.
Qed.

Lemma snap_delete_spec s name sn e s' :
  store_wf s -> snap_delete name sn s = (e, s') ->
  store_wf s' /\ forall n, same_bytes (contents s' n) (contents s n).
Proof.
  intros Hw. unfold snap_delete. destruct (table s !! name) as [o|] eqn:Et; [|by intros [= <- <-]].
  destruct (erase_snap sn (snap_list o)) as [id l] eqn:Ee. apply erase_snap_spec in Ee.
  pose proof (wf_object _ Hw _ _ Et) as Hok.
  set (o' := {| origin := origin o; recover := recover o; snap_list := l |}).
  destruct Ee as [[-> ->]|(sn1 & Hp & Hid)].
  { cbv zeta. change (0 =? 0) with true. cbv iota. intros [= <- <-].
    apply (adjust_wf s name o o' (bs s) (fun _ => True)); try done; [by destruct o|by left]. }
  assert (Hi : ids o ≡ₚ id :: ids o').
  { unfold ids, o'. simpl. rewrite Hp, fmap_cons, <- Hid, !(app_assoc _ _ (_ <$> l)), app_assoc.
    by rewrite <- Permutation_middle. }
  pose proof (ok_nodup _ _ Hok) as Hnd. rewrite Hi in Hnd. apply NoDup_cons in Hnd as [Hni Hnd].
  assert (Hor : usable (origin o) -> blobid (origin o) <> id).
  { intros Hu Heq. apply Hni. rewrite <- Heq. apply (ids_origin o'). exact Hu. }
  assert (Hsub : forall j, j ∈ ids o' -> j ∈ ids o) by (intros j Hj; rewrite Hi; by constructor).
  destruct (id =? 0).
  - intros [= <- <-]. apply (adjust_wf s name o o' (bs s) (fun _ => True)); try done; [|by left; auto].
    by eapply object_ok_subset; [exact Hok|..].
  - match goal with |- context [spdk_bs_delete_blob ?x _] => change x with (bs s) end.
    destruct (spdk_bs_delete_blob (bs s) id) as [e1 b1] eqn:Ed. apply delete_blob_law in Ed.
    unfold snap_delete_complete. intros E.
    assert (s' = {| table := <[name := o']> (table s); bs := b1 |}) as ->
      by (destruct (truthy e1); by injection E as <- <-).
    apply (adjust_wf s name o o' b1 (fun j => j <> id)); try done; [| |by left; auto].
    + intros n o1 j Hne Hn Hj ->. apply (wf_disjoint _ Hw n name o1 o _ Hne Hn Et Hj). rewrite Hi. by constructor.
    + eapply object_ok_kept; [exact Ed|by intros j Hj ->|].
      by eapply object_ok_subset; [exact Hok|..].
Qed.

(** ** Refinement of a map

    The operations on objects and their snapshots, with data of the length asked
    for, inside the object, on a name whose entry has its blob. *)
Inductive store_op :=
| OpRead (name : string) (off len : Z)
| OpWrite (name : string) (off : Z) (bytes : list Z)
| OpDelete (name : string)
| OpSnapCreate (name snap : string)
| OpSnapDelete (name snap : string).

Definition exec_op (op : store_op) (s : object_store B) : Z * list Z * object_store B :=
  match op with
  | OpRead name off len => read name off (replicate (Z.to_nat len) 0) len s
  | OpWrite name off bytes => let '(e, s) := write name off bytes (Z.of_nat (List.length bytes)) s in (e, [], s)
  | OpDelete name => let '(e, s) := delete_object name s in (e, [], s)
  | OpSnapCreate name snap => let '(e, s) := snap_create name snap s in (e, [], s)
  | OpSnapDelete name snap => let '(e, s) := snap_delete name snap s in (e, [], s)
  end.

Definition op_ok (op : store_op) (s : object_store B) : Prop :=
  match op with
  | OpRead name off len => 0 <= off /\ 0 < len /\ off + len <= blob_size
  | OpWrite name off bytes =>
      0 <= off /\ bytes <> [] /\ off + Z.of_nat (List.length bytes) <= blob_size /\ writable s name
  | _ => True
  end.

(** What a map from names to bytes does for the operation, with the result [e]. *)
Definition op_spec (op : store_op) (c : string -> option (Z -> Z)) (e : Z) (out : list Z)
    (c' : string -> option (Z -> Z)) : Prop :=
  match op with
  | OpRead name off len =>
      (forall n, same_bytes (c' n) (c n)) /\ (c name = None -> e = - ENOENT) /\
      (forall f, c name = Some f -> e = 0 -> out = f <$> seqZ off len)
  | OpWrite name off bytes =>
      (forall n, n <> name -> same_bytes (c' n) (c n)) /\
      (e = 0 -> exists f, c' name = Some f /\ written (c name) off bytes (Z.of_nat (List.length bytes)) f)
  | OpDelete name => (forall n, n <> name -> same_bytes (c' n) (c n)) /\ (e = 0 -> c' name = None)
  | OpSnapCreate _ _ | OpSnapDelete _ _ => forall n, same_bytes (c' n) (c n)
  end.


End laws.

(** ** A blobstore in memory *)

Record mem_blob := { bytes : gmap Z Z; size : Z }.

(** The blob with number [i] is the [i]-th of the list. *)
Abbreviation mem := (list (option mem_blob)).

Definition get_blob (b : mem) (id : Z) : option mem_blob :=
  if decide (0 < id) then mjoin (b !! Z.to_nat (id - 1)) else None.

Fixpoint put_bytes (o : Z) (l : list Z) (m : gmap Z Z) : gmap Z Z :=
  match l with [] => m | x :: l => put_bytes (o + 1) l (<[o := x]> m) end.

Definition add_blob (b : mem) (m : mem_blob) : Z * Z * mem :=
  (0, Z.of_nat (List.length b) + 1, b ++ [Some m]).

Definition byte_of (m : mem_blob) (o : Z) : Z := default 0 (bytes m !! o).

#[export] Instance mem_blobs : Blobs mem := {|
  spdk_bs_create_blob_ext b n := add_blob b {| bytes := ∅; size := n |};
  spdk_bs_open_blob b id := (if get_blob b id then 0 else - ENOENT, Some id, b);
  spdk_bs_delete_blob b id :=
    if decide (0 < id) then (0, <[Z.to_nat (id - 1) := None]> b) else (- ENOENT, b);
  spdk_bs_create_snapshot b id :=
    match get_blob b id with Some m => add_blob b m | None => (- ENOENT, 0, b) end;
  spdk_blob_close b _ := (0, b);
  spdk_blob_get_id _ p := default 0 p;
  spdk_blob_io_read b p lba n :=
    match p ≫= get_blob b with
    | Some m => (0, byte_of m <$> seqZ (lba * unit_size) (n * unit_size))
    | None => (- EINVAL, [])
    end;
  spdk_blob_io_write b p l lba n :=
    match p with
    | Some id =>
        match get_blob b id with
        | Some m => (0, <[Z.to_nat (id - 1) :=
                          Some {| bytes := put_bytes (lba * unit_size) l (bytes m); size := size m |}]> b)
        | None => (- EINVAL, b)
        end
    | None => (- EINVAL, b)
    end;
|}.

Lemma put_bytes_lookup l : forall o m x,
  put_bytes o l m !! x
  = if decide (o <= x < o + Z.of_nat (List.length l)) then l !! Z.to_nat (x - o) else m !! x.
Proof.
  induction l as [|y l IH]; intros o m x; simpl; [by rewrite decide_False by lia|].
  rewrite IH. destruct (decide (o + 1 <= x < o + 1 + Z.of_nat (List.length l))).
  - rewrite decide_True by lia. replace (Z.to_nat (x - o)) with (S (Z.to_nat (x - (o + 1)))) by lia. done.
  - destruct (decide (x = o)) as [->|Hne].
    + rewrite lookup_insert_eq, decide_True by lia. by rewrite Z.sub_diag.
    + by rewrite lookup_insert_ne, decide_False by lia.
Qed.

Lemma get_blob_insert b id j v :
  0 < id -> j <> id -> get_blob (<[Z.to_nat (id - 1) := v]> b) j = get_blob b j.
Proof.
  intros Hid Hne. unfold get_blob. destruct (decide (0 < j)); [|done].
  by rewrite list_lookup_insert_ne by lia.
Qed.

Lemma get_blob_app b x j : get_blob b j <> None -> get_blob (b ++ [x]) j = get_blob b j.
Proof.
  unfold get_blob. destruct (decide (0 < j)); [|done]. intros Hj.
  destruct (b !! Z.to_nat (j - 1)) as [y|] eqn:E; [|done]. by rewrite (lookup_app_l_Some _ _ _ _ E).
Qed.

Lemma get_blob_new b m : get_blob (b ++ [Some m]) (Z.of_nat (List.length b) + 1) = Some m.
Proof.
  unfold get_blob. rewrite decide_True by lia. replace (Z.to_nat _) with (List.length b) by lia.
  by rewrite lookup_app_r, Nat.sub_diag by lia.
Qed.

Lemma get_blob_same b id m v :
  get_blob b id = Some m -> 0 < id /\ get_blob (<[Z.to_nat (id - 1) := Some v]> b) id = Some v.
Proof.
  unfold get_blob. destruct (decide (0 < id)); [|done]. intros E. split; [done|].
  destruct (b !! Z.to_nat (id - 1)) as [y|] eqn:El; [|done].
  by rewrite list_lookup_insert_eq by by eapply lookup_lt_Some.
Qed.

Definition mem_live (b : mem) (id : Z) : Prop := get_blob b id <> None.
Definition mem_clusters (b : mem) (id : Z) : Z := from_option size 0 (get_blob b id).
Definition mem_data (b : mem) (id o : Z) : Z := from_option (fun m => byte_of m o) 0 (get_blob b id).
Definition mem_opened (b : mem) (h id : Z) : Prop := h = id /\ mem_live b id.

(** Blobs with the same entry are as they were. *)
Lemma mem_keeps (P : Z -> Prop) b b' :
  (forall j, P j -> mem_live b j -> get_blob b' j = get_blob b j) ->
  keeps mem_live mem_clusters mem_data mem_opened P b b'.
Proof.
  intros E. unfold mem_live, mem_clusters, mem_data, mem_opened in *. split.
  - intros j HP Hl. by rewrite E.
  - intros j HP Hl. by rewrite E.
  - intros j o HP Hl. by rewrite E.
  - intros j h HP Hl [-> _]. unfold mem_live. by rewrite E.
Qed.

Lemma add_blob_keeps b m e id b' :
  add_blob b m = (e, id, b') ->
  keeps mem_live mem_clusters mem_data mem_opened (fun _ => True) b b' /\
  (e = 0 -> id <> 0 /\ ~ mem_live b id /\ get_blob b' id = Some m).
Proof.
  intros [= <- <- <-]. split; [apply mem_keeps; intros j _ Hj; by apply get_blob_app|]. intros _.
  split; [lia|]. split; [|apply get_blob_new]. intros Hl. apply Hl. unfold get_blob.
  rewrite decide_True by lia. by rewrite lookup_ge_None_2 by lia.
Qed.

#[export] Program Instance mem_blob_laws : BlobLaws mem := {|
  live := mem_live; clusters := mem_clusters; data := mem_data; opened := mem_opened
|}.
Next Obligation.
  intros b n e id b' E. apply add_blob_keeps in E as [K Hn]. split; [done|]. intros He.
  destruct (Hn He) as (H1 & H2 & H3). unfold mem_live, mem_clusters in *. by rewrite H3.
Qed.
Next Obligation.
  intros b id e p b' E. cbn in E. destruct (get_blob b id) as [m|] eqn:Eg; injection E as <- <- <-;
    (split; [by apply mem_keeps|]); [|done]. intros _. exists id. split; [done|]. split; [done|].
  unfold mem_live. by rewrite Eg.
Qed.
Next Obligation.
  intros b id e b' E. cbn in E. destruct (decide (0 < id)); injection E as <- <-; apply mem_keeps; [|done].
  intros j Hne _. by apply get_blob_insert.
Qed.
Next Obligation.
  intros b h id e b' [_ Hl] E. cbn in E. injection E as <- <-. split; [by apply mem_keeps|]. split; [done|].
  intros _. by apply mem_keeps.
Qed.
Next Obligation.
  intros b id e id' b' E. cbn in E. destruct (get_blob b id) as [m|].
  - apply add_blob_keeps in E as [K Hn]. split; [done|]. intros He. destruct (Hn He) as (H1 & H2 & H3).
    unfold mem_live in *. by rewrite H3.
  - injection E as <- <- <-. split; [by apply mem_keeps|done].
Qed.
Next Obligation. by intros b h id [-> _]. Qed.
Next Obligation.
  intros b h id lba n l [-> Hl] H1 H2 _ E. cbn in E. unfold mem_live in Hl.
  destruct (get_blob b id) as [m|] eqn:Eg; [|done]. injection E as <-. apply list_fmap_ext.
  intros _ o _. unfold mem_data. by rewrite Eg.
Qed.
Next Obligation.
  intros b h id l lba n e b' [-> Hl] H1 H2 _ Hlen _ E. cbn in E. unfold mem_live in Hl.
  destruct (get_blob b id) as [m|] eqn:Eg; [|done]. injection E as <- <-.
  destruct (get_blob_same b id m {| bytes := put_bytes (lba * unit_size) l (bytes m); size := size m |} Eg) as [Hp Es].
  split; [apply mem_keeps; intros j Hne _; by apply get_blob_insert|].
  unfold mem_opened, mem_live, mem_clusters, mem_data. rewrite Es, Eg. split_and!; try done.
  intros _ o. cbn [from_option size]. unfold byte_of. cbn [bytes]. rewrite put_bytes_lookup, Hlen, <- Z.mul_add_distr_r.
  destruct (decide _); [|done]. by rewrite nth_lookup.
Qed.

(** ** Concrete runs *)

Definition empty_store : object_store mem := {| table := ∅; bs := [] |}.

Lemma empty_store_wf : store_wf empty_store.
Proof. split; intros *; simpl; by rewrite lookup_empty. Qed.

(** Seven bytes that lie across two units. *)
Definition small_write : store_op := OpWrite "o" 509 [1; 2; 3; 4; 5; 6; 7].


End ObjectStore.
