(* ===== verification/OsdStm.v ===== *)
(** * The state machine of a placement group (src/osd/osd_stm.cc, src/raft/state_machine.cc)

    Raft hands the entries of its log to the state machine in order, one at a time;
    the state machine applies each to the object store.  A write is copied into a
    buffer of whole blocks of 4 KiB first; a read goes into such a buffer, and the
    response is the part that was asked for.

    Decoding an entry ([ParseFromString] of a protobuf message) is left out: an entry
    here has its fields.  An operation of the store runs to its end when it is
    started; [_apply_in_progress] keeps a second one from being started before that. *)

From stdpp Require Import relations gmap strings.
From S2P Require Import Prelude ObjectStore.
Import (hints) ObjectStore.

Module OsdStm.
Import ObjectStore.

Inductive raft_entry :=
| RAFT_LOGTYPE_WRITE (object_name : string) (offset : Z) (data : list Z)
| RAFT_LOGTYPE_DELETE (object_name : string)
| RAFT_LOGTYPE_ADD_NONVOTING_NODE
| RAFT_LOGTYPE_CONFIGURATION.

Definition E_SUCCESS : Z := 0.
Definition BLOCK_UNITS : Z := 8.

(** On [uint64_t], for an alignment that is a power of two. *)
Definition align_up (v align : Z) : Z := Z.land (u64 (u64 (v + align) - 1)) (u64 (Z.lnot (align - 1))).

Section stm.
Context `{Blobs B}.

(** [spdk_zmalloc], and the data copied to its front. *)
Definition block_buffer (len : Z) (data : list Z) : list Z :=
  memcpy_at (replicate (Z.to_nat (align_up len (512 * BLOCK_UNITS))) 0) 0 data (Z.of_nat (List.length data)).

Definition write_obj (obj_name : string) (offset : Z) (data : list Z) (s : object_store B)
    : Z * object_store B :=
  let len := Z.of_nat (List.length data) in
  write obj_name offset (block_buffer len data) len s.

Definition delete_obj (obj_name : string) (s : object_store B) : Z * object_store B :=
  delete_object obj_name s.

Definition apply (entry : raft_entry) (s : object_store B) : Z * object_store B :=
  match entry with
  | RAFT_LOGTYPE_WRITE name offset data => write_obj name offset data s
  | RAFT_LOGTYPE_DELETE name => delete_obj name s
  | RAFT_LOGTYPE_ADD_NONVOTING_NODE | RAFT_LOGTYPE_CONFIGURATION => (E_SUCCESS, s)
  end.

(** What [read_and_wait] does once it has the lock and the lease is valid, and
    [read_obj_done]: the state of the reply and its data. *)
Definition read_obj (obj_name : string) (offset length : Z) (s : object_store B)
    : Z * list Z * object_store B :=
  let '(e, buf, s) := read obj_name offset (block_buffer length []) length s in
  (e, if e =? 0 then take (Z.to_nat length) buf else [], s).

Record state_machine := {
  _last_applied_idx : Z;
  _apply_in_progress : bool;
  _last_save_time : Z;
  _last_save_index : Z;
  _store : object_store B;
}.

#[export] Instance eta_state_machine : Eta state_machine := fun m =>
  {| _last_applied_idx := _last_applied_idx m; _apply_in_progress := _apply_in_progress m;
     _last_save_time := _last_save_time m; _last_save_index := _last_save_index m; _store := _store m |}.

(** [apply_complete::finish]. *)
Definition apply_complete (idx r : Z) (m : state_machine) : state_machine :=
  let m := if r =? E_SUCCESS then m <| _last_applied_idx := idx |> else m in
  m <| _apply_in_progress := false |>.

(** The index that is saved, every 100 entries or 2 seconds; times are in
    milliseconds. *)
Definition save_index (cur_time : Z) (m : state_machine) : option Z * state_machine :=
  if (1 <? u64 (cur_time - _last_save_time m) / 1000) || (100 <=? _last_applied_idx m - _last_save_index m) then
    if negb (_last_save_index m =? _last_applied_idx m)
    then (Some (_last_applied_idx m),
          m <| _last_save_index := _last_applied_idx m |> <| _last_save_time := cur_time |>)
    else (None, m)
  else (None, m).

(** [entry_at] is [raft_get_entry_by_idx].  The first result is whether the poller
    was busy. *)
Definition raft_apply_entry (snapshot_in_progress : bool) (cur_time commit_idx : Z)
    (entry_at : Z -> option raft_entry) (m : state_machine) : bool * option Z * state_machine :=
  if snapshot_in_progress then (false, None, m)
  else
    let '(saved, m) := save_index cur_time m in
    if _last_applied_idx m =? commit_idx then (false, saved, m)
    else if _apply_in_progress m then (false, saved, m)
    else
      let m := m <| _apply_in_progress := true |> in
      let log_idx := _last_applied_idx m + 1 in
      match entry_at log_idx with
      | None => (true, saved, m <| _apply_in_progress := false |>)
      | Some ety =>
          let '(r, s) := apply ety (_store m) in
          (true, saved, apply_complete log_idx r (m <| _store := s |>))
      end.

End stm.
#[global] Arguments state_machine : clear implicits.

(** ** Buffers *)

Lemma align_up_le v : 0 <= v < 2 ^ 63 -> v <= align_up v (512 * BLOCK_UNITS).
Proof.
  intros Hv. unfold align_up, BLOCK_UNITS. change (512 * 8) with 4096.
  rewrite (u64_small (v + 4096)), (u64_small (v + 4096 - 1)) by lia.
  assert (E : Z.land (v + 4096 - 1) (u64 (Z.lnot (4096 - 1))) = Z.ldiff (v + 4095) (Z.ones 12)).
  { unfold u64. rewrite <- (Z.land_ones _ 64) by done. rewrite (Z.land_comm (Z.lnot _)), Z.land_assoc.
    rewrite (Z.land_ones _ 64), Z.mod_small by lia. rewrite Z.ldiff_land. f_equal. lia. }
  rewrite E, Z.ldiff_ones_r, Z.shiftr_div_pow2, Z.shiftl_mul_pow2 by done.
  pose proof (Z.div_mod (v + 4095) (2 ^ 12) ltac:(done)). pose proof (Z.mod_pos_bound (v + 4095) (2 ^ 12) ltac:(done)).
  lia.
Qed.

Lemma block_buffer_length len data :
  0 <= len < 2 ^ 63 -> Z.of_nat (List.length data) <= len -> len <= Z.of_nat (List.length (block_buffer len data)).
Proof.
  intros Hl Hd. pose proof (align_up_le len Hl). unfold block_buffer.
  rewrite length_memcpy_at; rewrite ?length_replicate; lia.
Qed.

Lemma block_buffer_nth len data i :
  0 <= len < 2 ^ 63 -> Z.of_nat (List.length data) <= len -> 0 <= i < Z.of_nat (List.length data) ->
  nth (Z.to_nat i) (block_buffer len data) 0 = nth (Z.to_nat i) data 0.
Proof.
  intros Hl Hd Hi. pose proof (align_up_le len Hl). unfold block_buffer.
  rewrite nth_memcpy_at, decide_True, Z.sub_0_r by (rewrite ?length_replicate; lia). done.
Qed.

(** ** What a log does to objects

    The bytes that the log has written, for each object it leaves. *)
Abbreviation log_map := (string -> option (Z -> option Z)).

Definition apply_to_map (e : raft_entry) (m : log_map) : log_map :=
  match e with
  | RAFT_LOGTYPE_WRITE name off data => fun n =>
      if decide (n = name) then
        Some (fun o => if decide (off <= o < off + Z.of_nat (List.length data))
                       then Some (nth (Z.to_nat (o - off)) data 0)
                       else f ← m name; f o)
      else m n
  | RAFT_LOGTYPE_DELETE name => fun n => if decide (n = name) then None else m n
  | RAFT_LOGTYPE_ADD_NONVOTING_NODE | RAFT_LOGTYPE_CONFIGURATION => m
  end.

Definition entry_ok (e : raft_entry) : Prop :=
  match e with
  | RAFT_LOGTYPE_WRITE _ off data => 0 <= off /\ data <> [] /\ off + Z.of_nat (List.length data) <= blob_size
  | _ => True
  end.

Section applied.
Context `{BlobLaws B}.

(** The store holds the objects of the map, with the bytes that were written. *)
Definition holds_at (x : option (Z -> option Z)) (y : option (Z -> Z)) : Prop :=
  match x, y with
  | Some f, Some g => forall o v, 0 <= o -> f o = Some v -> g o = v
  | None, None => True
  | _, _ => False
  end.

Definition holds (m : log_map) (s : object_store B) : Prop :=
  forall name, holds_at (m name) (contents s name).

Lemma holds_at_same x y y' : same_bytes y' y -> holds_at x y -> holds_at x y'.
Proof.
  destruct x as [f|], y as [g|], y' as [g'|]; simpl; try done. intros E Hh o v Ho Hv. rewrite E. by apply Hh.
Qed.

(** Objects without snapshots: every name of the table has its blob. *)
Definition tidy (s : object_store B) : Prop :=
  forall name o, table s !! name = Some o ->
    usable (origin o) /\ blobid (recover o) = 0 /\ snap_list o = [].

Lemma write_tidy s name off buf len s' :
  store_wf s -> tidy s -> 0 <= off -> 0 < len -> off + len <= blob_size -> len <= Z.of_nat (List.length buf) ->
  write name off buf len s = (0, s') -> tidy s'.
Proof.
  intros Hw Ht Ho Hl Hb Hbuf E. destruct (table s !! name) as [o|] eqn:Et.
  - apply (write_known s name o) in E as (_ & _ & E & _); try done; [|by eapply Ht].
    intros n o'. rewrite E. apply Ht.
  - apply write_absent in E as [(? & _)|(h & id & b & E & _ & Hid & _)]; try done; [|by intros o; rewrite Et].
    intros n o'. rewrite E. unfold emplace. rewrite Et. intros [[<- <-]|[_ Hn]]%lookup_insert_Some; [|by eapply Ht].
    split; [by apply fresh_usable|done].
Qed.

Lemma delete_tidy s name s' : store_wf s -> tidy s -> delete_object name s = (0, s') -> tidy s'.
Proof.
  intros Hw Ht. unfold delete_object.
  destruct (table s !! name) as [o|] eqn:Et; [|by intros [= <-]].
  destruct (Ht _ _ Et) as (Hu & Hr & Hs). rewrite not_usable_test, bool_decide_eq_true_2 by done. cbn [negb].
  destruct (spdk_blob_close (bs s) _) as [e1 b1]. unfold delete_close_complete.
  destruct (truthy e1) eqn:T1; [intros [= -> _]; done|]. simpl. rewrite Et.
  destruct (spdk_bs_delete_blob b1 _) as [e2 b2]. unfold delete_complete.
  destruct (truthy e2) eqn:T2; [intros [= -> _]; done|]. simpl. rewrite lookup_insert_eq. simpl. rewrite Hr, Hs.
  intros [= <-]. intros n o'. simpl. rewrite delete_insert_eq.
  intros [_ Hn]%lookup_delete_Some. by eapply Ht.
Qed.

Lemma apply_holds e m s s' :
  entry_ok e -> store_wf s -> tidy s -> holds m s -> apply e s = (E_SUCCESS, s') ->
  store_wf s' /\ tidy s' /\ holds (apply_to_map e m) s'.
Proof.
  intros Hok Hw Ht Hm. destruct e as [name off data|name| |]; simpl in *; [| |by intros [= <-]..].
  - destruct Hok as (H1 & H2 & H3). unfold write_obj. set (len := Z.of_nat (List.length data)) in *.
    assert (0 < len) by (destruct data; [done|unfold len; simpl; lia]).
    assert (len < 2 ^ 63) by (unfold blob_size, blob_cluster, cluster_size in *; lia).
    pose proof (block_buffer_length len data ltac:(lia) ltac:(lia)) as Hbl. intros E.
    assert (Hwr : store_wf s' /\ (forall n, n <> name -> same_bytes (contents s' n) (contents s n)) /\
      exists f, contents s' name = Some f /\ written (contents s name) off (block_buffer len data) len f).
    { destruct (table s !! name) as [o|] eqn:Et.
      - apply (write_known s name o) in E as (W1 & W2 & _ & W3); try done; [|by eapply Ht]. by auto.
      - apply write_new in E as (W1 & W2 & W3); try done.
        assert (contents s name = None) as -> by (unfold contents; by rewrite Et). by auto. }
    destruct Hwr as (W1 & W2 & f & W3 & W4). apply write_tidy in E; try done. split; [done|]. split; [done|].
    intros n. destruct (decide (n = name)) as [->|Hne].
    + rewrite W3. intros o v Ho. specialize (W4 o Ho). destruct (decide _) as [Hin|Hout].
      * intros [= <-]. rewrite W4. apply block_buffer_nth; lia.
      * intros Hv. specialize (Hm name). destruct (m name) as [g|]; [|done]. simpl in Hv.
        destruct (contents s name) as [g'|]; [|done]. rewrite (W4 g' eq_refl). by apply Hm.
    + by eapply holds_at_same; [apply W2|apply Hm].
  - unfold delete_obj. intros E. pose proof (delete_tidy _ _ _ Hw Ht E). apply delete_spec in E as (W1 & W2 & W3); [|done].
    split; [done|]. split; [done|]. intros n. destruct (decide (n = name)) as [->|Hne]; [by rewrite W3|].
    by eapply holds_at_same; [apply W2|apply Hm].
Qed.

(** A call of the poller on a log with this content, in which the store does what it
    is asked to. *)
Inductive poll (log : Z -> option raft_entry) : state_machine B -> state_machine B -> Prop :=
| poll_apply snapshot time commit m busy saved m' :
    (forall e, log (_last_applied_idx m + 1) = Some e -> entry_ok e /\ fst (apply e (_store m)) = E_SUCCESS) ->
    raft_apply_entry snapshot time commit log m = (busy, saved, m') -> poll log m m'.

(** The first [n] entries. *)
Fixpoint log_upto (log : Z -> option raft_entry) (n : nat) : log_map :=
  match n with
  | O => fun _ => None
  | S n => from_option (fun e => apply_to_map e (log_upto log n)) (log_upto log n) (log (Z.of_nat (S n)))
  end.

Record machine_ok (log : Z -> option raft_entry) (m : state_machine B) : Prop := {
  mo_idx : 0 <= _last_applied_idx m;
  mo_idle : _apply_in_progress m = false;
  mo_wf : store_wf (_store m);
  mo_tidy : tidy (_store m);
  mo_holds : holds (log_upto log (Z.to_nat (_last_applied_idx m))) (_store m);
}.

Lemma save_index_same time (m : state_machine B) :
  let m' := snd (save_index time m) in
  _last_applied_idx m' = _last_applied_idx m /\ _apply_in_progress m' = _apply_in_progress m /\
  _store m' = _store m.
Proof. unfold save_index. by repeat case_match. Qed.

Lemma poll_ok log (m m' : state_machine B) : poll log m m' -> machine_ok log m -> machine_ok log m'.
Proof.
  intros [sn t c m0 busy saved m1 Hok E] [H1 H2 H3 H4 H5]. revert E. unfold raft_apply_entry.
  destruct sn; [by intros [= _ _ <-]|].
  pose proof (save_index_same t m0) as Hs. destruct (save_index t m0) as [sv ms]. simpl in Hs.
  destruct Hs as (S1 & S2 & S3).
  assert (Hm : machine_ok log ms) by (split; by rewrite ?S1, ?S2, ?S3).
  destruct (_ =? c); [by intros [= _ _ <-]|]. rewrite S2, H2.
  cbv zeta. change (_last_applied_idx (ms <| _apply_in_progress := true |>)) with (_last_applied_idx ms). rewrite S1.
  destruct (log (_last_applied_idx m0 + 1)) as [e|] eqn:El.
  - destruct (Hok e eq_refl) as [He Hr]. change (_store (ms <| _apply_in_progress := true |>)) with (_store ms).
    rewrite S3. destruct (apply e (_store m0)) as [r s1] eqn:Ea. simpl in Hr. subst r. intros [= _ _ <-].
    destruct (apply_holds e _ _ s1 He H3 H4 H5 Ea) as (A1 & A2 & A3).
    split; simpl; [lia|done|done|done|]. replace (Z.to_nat (_last_applied_idx m0 + 1)) with (S (Z.to_nat (_last_applied_idx m0))) by lia.
    cbn [log_upto]. rewrite Nat2Z.inj_succ, Z2Nat.id by lia. unfold Z.succ. by rewrite El.
  - intros [= _ _ <-]. destruct Hm. by split.
Qed.

Definition fresh_machine (b : B) : state_machine B :=
  {| _last_applied_idx := 0; _apply_in_progress := false; _last_save_time := 0; _last_save_index := 0;
     _store := {| table := ∅; bs := b |} |}.

Lemma polls_ok log (b : B) m : rtc (poll log) (fresh_machine b) m -> machine_ok log m.
Proof.
  intros Hp. assert (H1 : machine_ok log (fresh_machine b)).
  { split; [done|done| | |].
    - split; intros *; simpl; by rewrite lookup_empty.
    - intros n o. simpl. by rewrite lookup_empty.
    - intros n. done. }
  induction Hp as [|m1 m2 m3 Hs _ IH]; [done|]. apply IH. by eapply poll_ok.
Qed.

(** The state machine stays behind the commit index, and moves on one entry at a time. *)
Lemma applied_in_order snapshot time commit log (m m' : state_machine B) busy saved :
  _last_applied_idx m <= commit -> raft_apply_entry snapshot time commit log m = (busy, saved, m') ->
  _last_applied_idx m' <= commit /\
  (_last_applied_idx m' = _last_applied_idx m \/
   _last_applied_idx m' = _last_applied_idx m + 1 /\ is_Some (log (_last_applied_idx m'))) /\
  (forall i, saved = Some i -> i = _last_applied_idx m).
Proof.
  intros Hc. unfold raft_apply_entry. destruct snapshot; [by intros [= <- <- <-]; split_and!; [done|left|]|].
  destruct (save_index time m) as [sv ms] eqn:Es. pose proof (save_index_same time m) as Hs. rewrite Es in Hs.
  simpl in Hs. destruct Hs as (S1 & S2 & S3).
  assert (Hsv : forall i, sv = Some i -> i = _last_applied_idx m).
  { intros i ->. revert Es. unfold save_index. repeat case_match; intros [=]; congruence. }
  destruct (_ =? commit) eqn:Eq; [by intros [= <- <- <-]; rewrite S1; split_and!; [done|left|]|]. apply Z.eqb_neq in Eq.
  destruct (_apply_in_progress ms); [by intros [= <- <- <-]; rewrite S1; split_and!; [done|left|]|]. cbv zeta.
  change (_last_applied_idx (ms <| _apply_in_progress := true |>)) with (_last_applied_idx ms). rewrite S1 in *.
  destruct (log (_last_applied_idx m + 1)) as [e|] eqn:El; [|by intros [= <- <- <-]; simpl; rewrite S1; split_and!; [done|left|]].
  destruct (apply e _) as [r s1]. intros [= <- <- <-]. unfold apply_complete.
  destruct (r =? E_SUCCESS); simpl; rewrite ?S1, ?El; split_and!; eauto; lia.
Qed.

(** C15: A replica that has applied the log up to an entry answers a read, aligned or
    not, with the bytes that the entries up to that one have written, and says that
    there is no such object when they have left none; reading changes nothing. *)
Theorem reads_see_the_log (log : Z -> option raft_entry) (b : B) (m : state_machine B) name off len e out s' :
  rtc (poll log) (fresh_machine b) m ->
  0 <= off -> 0 < len -> off + len <= blob_size ->
  read_obj name off len (_store m) = (e, out, s') ->
  s' = _store m /\
  match log_upto log (Z.to_nat (_last_applied_idx m)) name with
  | None => e = - ENOENT /\ out = []
  | Some f => e = 0 -> Z.of_nat (List.length out) = len /\
      forall i v, 0 <= i < len -> f (off + i) = Some v -> nth (Z.to_nat i) out 0 = v
  end.
Proof.
  intros Hp Ho Hl Hb. apply polls_ok in Hp as [_ _ Hw _ Hh]. specialize (Hh name). unfold read_obj.
  destruct (read name off _ len (_store m)) as [[e1 buf] s1] eqn:E. intros [= <- <- <-].
  apply read_spec in E as (-> & E1 & E2); [|done..]. split; [done|].
  destruct (log_upto log _ name) as [f|], (contents (_store m) name) as [g|] eqn:Ec; simpl in Hh; try done.
  - intros ->. rewrite (E2 g eq_refl eq_refl). simpl.
    rewrite take_app_length' by (rewrite length_fmap, length_seqZ; lia).
    rewrite length_fmap, length_seqZ. split; [lia|]. intros i v Hi Hv. apply (Hh (off + i)) in Hv; [|lia].
    apply nth_lookup_Some. rewrite list_lookup_fmap, lookup_seqZ_lt by lia. simpl. f_equal.
    rewrite <- Hv. f_equal. lia.
  - by rewrite (E1 eq_refl).
Qed.

End applied.

(** C14: Replicas of a placement group that have applied the same part of the log, on
    whatever blobstores they have, hold the same objects, and agree on every byte
    that the log has written; that byte is the one of the last write to cover it
    since the object was created.  Their state machines are not stuck. *)
Theorem replicas_agree `{BlobLaws B1} `{BlobLaws B2} (log : Z -> option raft_entry)
    (b1 : B1) (b2 : B2) (m1 : state_machine B1) (m2 : state_machine B2) :
  rtc (poll log) (fresh_machine b1) m1 -> rtc (poll log) (fresh_machine b2) m2 ->
  _last_applied_idx m1 = _last_applied_idx m2 ->
  _apply_in_progress m1 = false /\ _apply_in_progress m2 = false /\
  forall name,
    match contents (_store m1) name, contents (_store m2) name with
    | Some f1, Some f2 => exists f, log_upto log (Z.to_nat (_last_applied_idx m1)) name = Some f /\
        forall o v, 0 <= o -> f o = Some v -> f1 o = v /\ f2 o = v
    | None, None => True
    | _, _ => False
    end.
Proof.
  intros P1 P2 E. apply polls_ok in P1 as [_ I1 _ _ A1], P2 as [_ I2 _ _ A2]. split; [done|]. split; [done|].
  intros name. specialize (A1 name). specialize (A2 name). rewrite <- E in A2.
  destruct (log_upto log _ name) as [f|], (contents (_store m1) name), (contents (_store m2) name); simpl in *; try done.
  exists f. split; [done|]. intros o v Ho Hv. auto.
Qed.

(** ** Concrete runs *)

Definition small_log (i : Z) : option raft_entry :=
  if i =? 1 then Some (RAFT_LOGTYPE_WRITE "o" 3 [1; 2; 3])
  else if i =? 2 then Some (RAFT_LOGTYPE_WRITE "o" 4 [9])
  else None.

Definition small_bytes (o : Z) : option Z :=
  if decide (4 <= o < 4 + 1) then Some (nth (Z.to_nat (o - 4)) [9] 0)
  else if decide (3 <= o < 3 + 3) then Some (nth (Z.to_nat (o - 3)) [1; 2; 3] 0) else None.

Lemma small_log_bytes : log_upto small_log 2 "o" = Some small_bytes.
Proof. reflexivity. Qed.

Definition poll_once (m : state_machine mem) : state_machine mem :=
  snd (raft_apply_entry false 0 2 small_log m).

(** One replica has an empty device, the other one where a blob has been before. *)
Definition replica (b : mem) : state_machine mem := poll_once (poll_once (fresh_machine b)).

Lemma poll_once_poll m e :
  small_log (_last_applied_idx m + 1) = Some e -> entry_ok e -> fst (apply e (_store m)) = E_SUCCESS ->
  poll small_log m (poll_once m).
Proof.
  intros E1 E2 E3. unfold poll_once. destruct (raft_apply_entry false 0 2 small_log m) as [[x y] m'] eqn:E.
  apply (poll_apply small_log false 0 2 m x y m'); [|done]. intros e' E'. by rewrite E1 in E'; injection E' as <-.
Qed.

Lemma replica_polls b :
  fst (apply (RAFT_LOGTYPE_WRITE "o" 3 [1; 2; 3]) (_store (fresh_machine b))) = E_SUCCESS ->
  fst (apply (RAFT_LOGTYPE_WRITE "o" 4 [9]) (_store (poll_once (fresh_machine b)))) = E_SUCCESS ->
  _last_applied_idx (poll_once (fresh_machine b)) = 1 ->
  rtc (poll small_log) (fresh_machine b) (replica b).
Proof.
  intros H1 H2 H3. eapply rtc_l; [|apply rtc_once]; (eapply poll_once_poll; [|  |eassumption]);
    rewrite ?H3; try done; by split_and!.
Qed.

Lemma reads_see_the_log_witness :
  exists out, read_obj "o" 3 3 (_store (replica [])) = (0, out, _store (replica [])) /\
    nth 0 out 0 = 1 /\ nth 1 out 0 = 9 /\ nth 2 out 0 = 3.
Proof.
  assert (P1 : rtc (poll small_log) (fresh_machine []) (replica [])) by by apply replica_polls; vm_compute.
  destruct (read_obj "o" 3 3 (_store (replica []))) as [[e out] s'] eqn:E.
  destruct (reads_see_the_log small_log [] (replica []) "o" 3 3 e out s' P1) as [-> Hr]; [done..|].
  assert (e = 0) as -> by (apply (f_equal (fun x => fst (fst x))) in E; by vm_compute in E).
  assert (_last_applied_idx (replica []) = 2) as Ei by by vm_compute.
  rewrite Ei in Hr. change (Z.to_nat 2) with 2%nat in Hr. rewrite small_log_bytes in Hr.
  destruct (Hr eq_refl) as [_ Hb].
  exists out. split; [reflexivity|]. clear E P1 Hr Ei.
  split; [exact (Hb 0 1 ltac:(lia) eq_refl)|]. split; [exact (Hb 1 9 ltac:(lia) eq_refl)|exact (Hb 2 3 ltac:(lia) eq_refl)].
Defined.

Lemma replicas_agree_witness :
  exists f1 f2, contents (_store (replica [])) "o" = Some f1 /\ contents (_store (replica [None])) "o" = Some f2 /\
    f1 4 = 9 /\ f2 4 = 9 /\ f1 5 = 3 /\ f2 5 = 3.
Proof.
  assert (P1 : rtc (poll small_log) (fresh_machine []) (replica [])) by by apply replica_polls; vm_compute.
  assert (P2 : rtc (poll small_log) (fresh_machine [None]) (replica [None])) by by apply replica_polls; vm_compute.
  destruct (replicas_agree small_log [] [None] (replica []) (replica [None]) P1 P2) as (_ & _ & Ha).
  - by vm_compute.
  - specialize (Ha "o").
    destruct (contents (_store (replica [])) "o") as [f1|] eqn:E1; [|by vm_compute in E1].
    destruct (contents (_store (replica [None])) "o") as [f2|] eqn:E2; [|by vm_compute in E2].
    destruct Ha as (f & Ef & Hf). exists f1, f2. split; [done|]. split; [done|].
    assert (_last_applied_idx (replica []) = 2) as Ei by by vm_compute.
    rewrite Ei in Ef. change (Z.to_nat 2) with 2%nat in Ef. rewrite small_log_bytes in Ef. injection Ef as <-.
    destruct (Hf 4 9) as [-> ->]; [done..|]. by destruct (Hf 5 3) as [-> ->].
Defined.


End OsdStm.
