(* ===== verification/Codec.v ===== *)
(** * Serialization into buffers (src/localstore/spdk_buffer.h, types.h, log_entry.h)

    Integers are written in little-endian order and strings with their length in
    front.  Three records are stored in this way: the header of a log entry, the
    operations of a commit of the key-value store ([serialize_op] of kv_store.h), and
    the configurations of a raft group ([serialize] of configuration_manager.cc).

    A string is a list of bytes. *)

From stdpp Require Import list.
From S2P Require Import Prelude Wire.

Module Codec.

Record spdk_buffer := { _buf : list Z; _used : Z }.

Definition buf_size (b : spdk_buffer) : Z := Z.of_nat (List.length (_buf b)).
Definition remain (b : spdk_buffer) : Z := if _used b <? buf_size b then buf_size b - _used b else 0.
Definition reset (b : spdk_buffer) : spdk_buffer := {| _buf := _buf b; _used := 0 |}.

Definition inc (n : Z) (b : spdk_buffer) : spdk_buffer :=
  {| _buf := _buf b; _used := _used b + Z.min n (remain b) |}.

(** [memcpy(get_append(), bs, ...)]. *)
Definition store (bs : list Z) (b : spdk_buffer) : spdk_buffer :=
  {| _buf := take (Z.to_nat (_used b)) (_buf b) ++ bs ++ drop (Z.to_nat (_used b) + List.length bs) (_buf b);
     _used := _used b |}.

Definition append (bs : list Z) (b : spdk_buffer) : spdk_buffer :=
  let sz := Z.min (Z.of_nat (List.length bs)) (remain b) in
  inc sz (store (take (Z.to_nat sz) bs) b).

(** The bytes from [get_append()] on. *)
Definition at_append (b : spdk_buffer) : list Z := drop (Z.to_nat (_used b)) (_buf b).

(** ** Writing: whether it succeeded, and the buffer *)

Abbreviation put := (spdk_buffer -> bool * spdk_buffer).

Definition seq_put (p q : put) : put := fun b => let '(rc, b) := p b in if rc then q b else (false, b).

Definition done_put : put := fun b => (true, b).

Definition put_all {A} (f : A -> put) (l : list A) : put :=
  foldr (fun x k => seq_put (f x) k) done_put l.

Definition PutFixed (n : nat) (value : Z) : put := fun b =>
  if remain b <? Z.of_nat n then (false, b)
  else (true, inc (Z.of_nat n) (store (Wire.le n value) b)).

Definition PutFixed32 (value : Z) : put := PutFixed 4 value.
Definition PutFixed64 (value : Z) : put := PutFixed 8 value.

Definition PutString (value : list Z) : put := fun b =>
  if remain b <? 8 + Z.of_nat (List.length value) then (false, b)
  else
    let b := inc 8 (store (Wire.le 8 (Z.of_nat (List.length value))) b) in
    (true, append value b).

Definition PutOptString (value : option (list Z)) : put :=
  match value with Some v => PutString v | None => PutString [] end.

(** ** Reading: [Short] when there are too few bytes, [Overrun] when bytes after the
    end of the buffer are taken *)

Inductive got (A : Type) := Got (x : A) | Short | Overrun.
Arguments Got {A} x.
Arguments Short {A}.
Arguments Overrun {A}.

Abbreviation get A := (spdk_buffer -> got A * spdk_buffer).

Definition bind_get {A C} (g : get A) (k : A -> get C) : get C := fun b =>
  match g b with
  | (Got x, b) => k x b
  | (Short, b) => (Short, b)
  | (Overrun, b) => (Overrun, b)
  end.

Definition ret_get {A} (x : A) : get A := fun b => (Got x, b).

Fixpoint get_n {A} (n : nat) (g : get A) : get (list A) :=
  match n with
  | O => ret_get []
  | S n => bind_get g (fun x => bind_get (get_n n g) (fun l => ret_get (x :: l)))
  end.

Definition GetFixed (n : nat) : get Z := fun b =>
  if remain b <? Z.of_nat n then (Short, b)
  else (Got (Wire.le_to_cpu (take n (at_append b))), inc (Z.of_nat n) b).

Definition GetFixed32 : get Z := GetFixed 4.
Definition GetFixed64 : get Z := GetFixed 8.

(** The sum that is compared with [remain] is one of 64 bits. *)
Definition GetString : get (list Z) := fun b =>
  if remain b <? 8 then (Short, b)
  else
    let str_size := Wire.le_to_cpu (take 8 (at_append b)) in
    if remain b <? u64 (8 + str_size) then (Short, b)
    else
      let b := inc 8 b in
      if remain b <? str_size then (Overrun, b)
      else (Got (take (Z.to_nat str_size) (at_append b)), inc str_size b).

Definition GetOptString : get (option (list Z)) :=
  bind_get GetString (fun str => ret_get (if bool_decide (str = []) then None else Some str)).

(** ** Log entries *)

Record log_entry_t := {
  term_id : Z;
  index : Z;
  size : Z;
  type : Z;
  meta : list Z;
  data : list Z;
}.

Definition EncodeLogHeader (entry : log_entry_t) : put :=
  seq_put (PutFixed64 (term_id entry))
  (seq_put (PutFixed64 (index entry))
  (seq_put (PutFixed64 (size entry))
  (seq_put (PutFixed64 (type entry))
           (PutString (meta entry))))).

(** The entry that is read has no data yet. *)
Definition DecodeLogHeader : get log_entry_t :=
  bind_get GetFixed64 (fun t =>
  bind_get GetFixed64 (fun i =>
  bind_get GetFixed64 (fun s =>
  bind_get GetFixed64 (fun ty =>
  bind_get GetString (fun m =>
  ret_get {| term_id := t; index := i; size := s; type := ty; meta := m; data := [] |}))))).

(** ** Operations of the key-value store *)

Record op := { key : list Z; value : option (list Z) }.

(** The results of writing are not looked at. *)
Definition put_op (o : op) (b : spdk_buffer) : spdk_buffer :=
  snd (PutOptString (value o) (snd (PutString (key o) b))).

Definition serialize_op (ops : list op) (write_buf : spdk_buffer) : spdk_buffer :=
  let b := inc 8 (reset write_buf) in
  let b := snd (PutFixed64 (Z.of_nat (List.length ops)) b) in
  let b := foldl (fun b o => put_op o b) b ops in
  {| _buf := Wire.le 8 (_used b) ++ drop 8 (_buf b); _used := _used b |}.

(** Neither are those of reading: a variable that cannot be read keeps what moving
    it into the last operation has left.  The result is [None] after an overrun. *)
Fixpoint deserialize_ops (n : nat) (k : list Z) (v : option (list Z)) (b : spdk_buffer)
    : option (list op) :=
  match n with
  | O => Some []
  | S n =>
      match GetString b with
      | (Overrun, _) => None
      | (r, b) =>
          let k := match r with Got x => x | _ => k end in
          match GetOptString b with
          | (Overrun, _) => None
          | (r, b) =>
              let v := match r with Got x => x | _ => v end in
              cons {| key := k; value := v |} <$> deserialize_ops n [] ((fun _ => []) <$> v) b
          end
      end
  end.

Definition deserialize_op (read_buf : spdk_buffer) : option (list op) :=
  let '(d, b) := GetFixed64 (reset read_buf) in
  let data_size := match d with Got x => x | _ => 0 end in
  let '(n, b) := GetFixed64 b in
  let op_size := match n with Got x => x | _ => 0 end in
  if (data_size =? 0) || (op_size =? 0) then Some []
  else deserialize_ops (Z.to_nat op_size) [] None b.

(** ** Configurations of a raft group *)

Record raft_node_info := { node_id : Z; addr : list Z; port : Z }.

Record node_configuration := {
  _index : Z;
  _term : Z;
  _nodes : list raft_node_info;
  _new_nodes : list raft_node_info;
}.

Definition put_node (n : raft_node_info) : put :=
  seq_put (PutFixed32 (node_id n)) (seq_put (PutString (addr n)) (PutFixed32 (port n))).

Definition put_configuration (c : node_configuration) : put :=
  seq_put (PutFixed64 (_index c))
  (seq_put (PutFixed64 (_term c))
  (seq_put (PutFixed32 (Z.of_nat (List.length (_nodes c))))
  (seq_put (put_all put_node (_nodes c))
  (seq_put (PutFixed32 (Z.of_nat (List.length (_new_nodes c))))
           (put_all put_node (_new_nodes c)))))).

(** Into [buf], of 1 MiB. *)
Definition serialize (configurations : list node_configuration) (buf : list Z) : option (list Z) :=
  match seq_put (PutFixed32 (Z.of_nat (List.length configurations))) (put_all put_configuration configurations)
          {| _buf := buf; _used := 0 |} with
  | (true, b) => Some (take (Z.to_nat (_used b)) (_buf b))
  | (false, _) => None
  end.

Definition get_node : get raft_node_info :=
  bind_get GetFixed32 (fun i => bind_get GetString (fun a => bind_get GetFixed32 (fun p =>
  ret_get {| node_id := s32 i; addr := a; port := s32 p |}))).

Definition get_configuration : get node_configuration :=
  bind_get GetFixed64 (fun i => bind_get GetFixed64 (fun t =>
  bind_get GetFixed32 (fun n => bind_get (get_n (Z.to_nat n) get_node) (fun nodes =>
  bind_get GetFixed32 (fun m => bind_get (get_n (Z.to_nat m) get_node) (fun new_nodes =>
  ret_get {| _index := s64 i; _term := s64 t; _nodes := nodes; _new_nodes := new_nodes |})))))).

(** The configurations that are found, none after an error. *)
Definition deserialize (data : list Z) : got (list node_configuration) :=
  fst (bind_get GetFixed32 (fun n => get_n (Z.to_nat n) get_configuration) {| _buf := data; _used := 0 |}).

(** ** What is written *)

Definition buf_wf (b : spdk_buffer) : Prop := 0 <= _used b <= buf_size b.

Definition room (n : Z) (b : spdk_buffer) : Prop := _used b + n <= buf_size b.

(** [b'] is [b] with [bs] appended to what is used. *)
Record wrote (b : spdk_buffer) (bs : list Z) (b' : spdk_buffer) : Prop := {
  wr_size : List.length (_buf b') = List.length (_buf b);
  wr_used : _used b' = _used b + Z.of_nat (List.length bs);
  wr_bytes : take (Z.to_nat (_used b')) (_buf b') = take (Z.to_nat (_used b)) (_buf b) ++ bs;
}.

(** [p] writes [bs] when there is room. *)
Definition puts (p : put) (bs : list Z) : Prop :=
  forall b, buf_wf b -> room (Z.of_nat (List.length bs)) b -> exists b', p b = (true, b') /\ wrote b bs b'.

Lemma wrote_wf b bs b' : buf_wf b -> room (Z.of_nat (List.length bs)) b -> wrote b bs b' -> buf_wf b'.
Proof. intros H1 H2 [E1 E2 _]. unfold buf_wf, room, buf_size in *. rewrite E1, E2. lia. Qed.

Lemma remain_eq b : buf_wf b -> remain b = buf_size b - _used b.
Proof. intros Hb. unfold remain, buf_wf in *. zsolve. Qed.

Lemma store_wrote b bs :
  buf_wf b -> room (Z.of_nat (List.length bs)) b -> wrote b bs (inc (Z.of_nat (List.length bs)) (store bs b)).
Proof.
  intros Hb Hr. unfold buf_wf, room, buf_size in *.
  assert (Hlen : List.length (_buf (store bs b)) = List.length (_buf b))
    by (simpl; rewrite !length_app, length_take, length_drop; lia).
  assert (Hm : remain (store bs b) = Z.of_nat (List.length (_buf b)) - _used b).
  { rewrite remain_eq; unfold buf_wf, buf_size; rewrite Hlen; simpl; lia. }
  split; simpl; [done|rewrite Hm; lia|]. rewrite Hm, Z.min_l by lia.
  rewrite Z2Nat.inj_add, Nat2Z.id by lia. rewrite app_assoc, take_app_length'; [done|].
  rewrite length_app, length_take. lia.
Qed.

Lemma done_puts : puts done_put [].
Proof.
  intros b Hb _. exists b. split; [done|]. split; [done|simpl; lia|]. by rewrite app_nil_r.
Qed.

Lemma wrote_trans b bs b1 bs1 b2 : wrote b bs b1 -> wrote b1 bs1 b2 -> wrote b (bs ++ bs1) b2.
Proof.
  intros [A1 A2 A3] [B1 B2 B3]. split; [by rewrite B1|rewrite B2, A2, length_app; lia|].
  by rewrite B3, A3, app_assoc.
Qed.

Lemma seq_puts p q bs bs' : puts p bs -> puts q bs' -> puts (seq_put p q) (bs ++ bs').
Proof.
  intros Hp Hq b Hb Hr. unfold room in Hr. rewrite length_app in Hr. destruct (Hp b Hb) as (b1 & E1 & W1); [unfold room; lia|].
  assert (Hb1 : buf_wf b1) by (eapply wrote_wf; [done| |done]; unfold room; lia).
  destruct (Hq b1 Hb1) as (b2 & E2 & W2).
  { unfold room, buf_size in *. rewrite (wr_used _ _ _ W1), (wr_size _ _ _ W1). lia. }
  exists b2. unfold seq_put. rewrite E1, E2. split; [done|]. by eapply wrote_trans.
Qed.

Lemma put_all_puts {A} (f : A -> put) (enc : A -> list Z) l :
  (forall x, x ∈ l -> puts (f x) (enc x)) -> puts (put_all f l) (concat (enc <$> l)).
Proof.
  induction l as [|x l IH]; intros Hf; simpl; [apply done_puts|].
  apply seq_puts; [apply Hf; left|]. apply IH. intros y Hy. apply Hf. by right.
Qed.

Lemma PutFixed_puts n v : puts (PutFixed n v) (Wire.le n v).
Proof.
  intros b Hb Hr. pose proof (store_wrote b (Wire.le n v) Hb Hr) as W. rewrite Wire.length_le in *.
  unfold PutFixed. rewrite remain_eq by done. unfold room in Hr.
  rewrite (proj2 (Z.ltb_ge _ _)) by lia. by eexists.
Qed.

Definition enc_string (v : list Z) : list Z := Wire.le 8 (Z.of_nat (List.length v)) ++ v.

Lemma PutString_puts v : puts (PutString v) (enc_string v).
Proof.
  intros b Hb Hr. unfold enc_string, room in *. rewrite length_app, Wire.length_le in Hr.
  pose proof (store_wrote b (Wire.le 8 (Z.of_nat (List.length v))) Hb) as W. rewrite Wire.length_le in W.
  unfold PutString. rewrite remain_eq, (proj2 (Z.ltb_ge _ _)) by (done || lia).
  specialize (W ltac:(unfold room; lia)). change (Z.of_nat 8) with 8 in W. set (b1 := inc 8 _) in *.
  assert (Hb1 : buf_wf b1) by (eapply wrote_wf; [done| |exact W]; unfold room; rewrite Wire.length_le; lia).
  assert (Hr1 : room (Z.of_nat (List.length v)) b1).
  { unfold room, buf_size in *. rewrite (wr_used _ _ _ W), (wr_size _ _ _ W), Wire.length_le. lia. }
  pose proof (store_wrote b1 v Hb1 Hr1) as W1. eexists. split; [done|]. eapply wrote_trans; [exact W|].
  unfold append. rewrite remain_eq, Z.min_l by (done || unfold room in Hr1; lia). by rewrite Nat2Z.id, firstn_all.
Qed.

(** ** What is read *)

(** [g] reads [x] where [bs] lies. *)
Definition gets {A} (g : get A) (x : A) (bs : list Z) : Prop :=
  forall b rest, buf_wf b -> at_append b = bs ++ rest ->
    exists b', g b = (Got x, b') /\ buf_wf b' /\ _buf b' = _buf b /\ at_append b' = rest.

Lemma at_append_room b bs rest : buf_wf b -> at_append b = bs ++ rest -> Z.of_nat (List.length bs) <= remain b.
Proof.
  intros Hb E. apply (f_equal (@List.length Z)) in E. unfold at_append in E.
  rewrite length_drop, length_app in E. rewrite remain_eq by done. unfold buf_wf, buf_size in *. lia.
Qed.

Lemma inc_gets b bs rest :
  buf_wf b -> at_append b = bs ++ rest ->
  let b' := inc (Z.of_nat (List.length bs)) b in
  buf_wf b' /\ _buf b' = _buf b /\ at_append b' = rest.
Proof.
  intros Hb E. pose proof (at_append_room b bs rest Hb E) as Hr. rewrite remain_eq in Hr by done.
  unfold buf_wf, buf_size, at_append, inc in *. cbn [_buf _used].
  rewrite remain_eq, Z.min_l by (done || unfold buf_size; lia). split_and!; [lia|lia|done|].
  rewrite Z2Nat.inj_add, Nat2Z.id by lia. rewrite <- drop_drop, E. by apply drop_app_length'.
Qed.

Lemma ret_gets {A} (x : A) : gets (ret_get x) x [].
Proof. intros b rest Hb E. by exists b. Qed.

Lemma bind_gets {A C} (g : get A) (k : A -> get C) x y bs bs' :
  gets g x bs -> gets (k x) y bs' -> gets (bind_get g k) y (bs ++ bs').
Proof.
  intros Hg Hk b rest Hb E. rewrite <- app_assoc in E. destruct (Hg b _ Hb E) as (b1 & E1 & H1 & E2 & E3).
  destruct (Hk b1 _ H1 E3) as (b2 & E4 & H2 & E5 & E6). exists b2. unfold bind_get. rewrite E1.
  split_and!; try done. congruence.
Qed.

Lemma map_gets {A C} (g : get A) (f : A -> C) x bs : gets g x bs -> gets (bind_get g (fun x => ret_get (f x))) (f x) bs.
Proof. intros Hg. rewrite <- (app_nil_r bs). eapply bind_gets; [done|]. apply ret_gets. Qed.

Lemma get_n_gets {A} (g : get A) (enc : A -> list Z) l :
  (forall x, x ∈ l -> gets g x (enc x)) -> gets (get_n (List.length l) g) l (concat (enc <$> l)).
Proof.
  induction l as [|x l IH]; intros Hg; simpl; [apply ret_gets|].
  eapply bind_gets; [apply Hg; left|]. apply (map_gets _ (cons x)). apply IH. intros y Hy. apply Hg. by right.
Qed.

Lemma GetFixed_gets n v : gets (GetFixed n) (v mod 256 ^ Z.of_nat n) (Wire.le n v).
Proof.
  intros b rest Hb E. pose proof (at_append_room _ _ _ Hb E) as Hr. pose proof (inc_gets _ _ _ Hb E) as Hi.
  rewrite Wire.length_le in Hr, Hi. unfold GetFixed. rewrite (proj2 (Z.ltb_ge _ _)) by lia.
  eexists. split; [|exact Hi]. rewrite E, take_app_length' by by rewrite Wire.length_le.
  by rewrite Wire.le_to_cpu_le.
Qed.

Lemma GetFixed64_gets v : 0 <= v < 2 ^ 64 -> gets GetFixed64 v (Wire.le 8 v).
Proof. intros Hv. rewrite <- (Z.mod_small v (256 ^ Z.of_nat 8)) at 1 by done. apply GetFixed_gets. Qed.

Lemma GetFixed32_gets v : 0 <= v < 2 ^ 32 -> gets GetFixed32 v (Wire.le 4 v).
Proof. intros Hv. rewrite <- (Z.mod_small v (256 ^ Z.of_nat 4)) at 1 by done. apply GetFixed_gets. Qed.

Definition is_str (v : list Z) : Prop := Z.of_nat (List.length v) < 2 ^ 63.

Lemma GetString_gets v : is_str v -> gets GetString v (enc_string v).
Proof.
  intros Hv b rest Hb E. unfold is_str in Hv. unfold enc_string in E.
  pose proof (at_append_room _ _ _ Hb E) as Hr. rewrite length_app, Wire.length_le in Hr.
  rewrite <- app_assoc in E. destruct (inc_gets _ _ _ Hb E) as (Hb1 & E1 & E2). rewrite Wire.length_le in *.
  pose proof (inc_gets _ _ _ Hb1 E2) as Hi. pose proof (at_append_room _ _ _ Hb1 E2) as Hr1.
  unfold GetString. rewrite (proj2 (Z.ltb_ge _ 8)) by lia.
  rewrite E, take_app_length', Wire.le_to_cpu_le by by rewrite Wire.length_le.
  change (256 ^ Z.of_nat 8) with (2 ^ 64). rewrite Z.mod_small, u64_small by lia.
  change (Z.of_nat 8) with 8 in *. rewrite (proj2 (Z.ltb_ge _ _)), (proj2 (Z.ltb_ge (remain (inc 8 b)) _)) by lia.
  eexists. split; [|exact Hi]. rewrite E2, Nat2Z.id. by rewrite take_app_length.
Qed.

(** ** Round trips *)

Lemma put_get {A} (p : put) (g : get A) x bs b :
  puts p bs -> gets g x bs -> Z.of_nat (List.length bs) <= buf_size b ->
  exists b1, p (reset b) = (true, b1) /\ List.length (_buf b1) = List.length (_buf b) /\ fst (g (reset b1)) = Got x.
Proof.
  intros Hp Hg Hs. destruct (Hp (reset b)) as (b1 & E & W); [split; [done|unfold buf_size; simpl; lia]|done|].
  exists b1. split; [done|]. split; [apply (wr_size _ _ _ W)|].
  destruct (Hg (reset b1) (drop (List.length bs) (_buf b1))) as (b2 & -> & _); [split; [done|unfold buf_size; simpl; lia]| |done].
  unfold at_append. simpl. rewrite drop_0, <- (take_drop (List.length bs) (_buf b1)) at 1. f_equal.
  pose proof (wr_bytes _ _ _ W) as Wb. rewrite (wr_used _ _ _ W) in Wb.
  change (_used (reset b)) with 0 in Wb. by rewrite Z.add_0_l, Nat2Z.id in Wb.
Qed.

Definition enc_header (e : log_entry_t) : list Z :=
  Wire.le 8 (term_id e) ++ Wire.le 8 (index e) ++ Wire.le 8 (size e) ++ Wire.le 8 (type e) ++ enc_string (meta e).

Lemma EncodeLogHeader_puts e : puts (EncodeLogHeader e) (enc_header e).
Proof. repeat apply seq_puts; try apply PutFixed_puts. apply PutString_puts. Qed.

Definition header_ok (e : log_entry_t) : Prop :=
  is_u64 (term_id e) /\ is_u64 (index e) /\ is_u64 (size e) /\ is_u64 (type e) /\ is_str (meta e).

Definition header_of (e : log_entry_t) : log_entry_t :=
  {| term_id := term_id e; index := index e; size := size e; type := type e; meta := meta e; data := [] |}.

Lemma DecodeLogHeader_gets e : header_ok e -> gets DecodeLogHeader (header_of e) (enc_header e).
Proof.
  intros (H1 & H2 & H3 & H4 & H5). unfold DecodeLogHeader, enc_header.
  do 4 (eapply bind_gets; [by apply GetFixed64_gets|]).
  apply (map_gets _ (fun m => {| term_id := _; index := _; size := _; type := _; meta := m; data := [] |})).
  by apply GetString_gets.
Qed.

(** *** Configurations *)

Definition enc_node (n : raft_node_info) : list Z :=
  Wire.le 4 (node_id n) ++ enc_string (addr n) ++ Wire.le 4 (port n).

Definition enc_configuration (c : node_configuration) : list Z :=
  Wire.le 8 (_index c) ++ Wire.le 8 (_term c) ++
  Wire.le 4 (Z.of_nat (List.length (_nodes c))) ++ concat (enc_node <$> _nodes c) ++
  Wire.le 4 (Z.of_nat (List.length (_new_nodes c))) ++ concat (enc_node <$> _new_nodes c).

Definition is_s32 (x : Z) : Prop := - 2 ^ 31 <= x < 2 ^ 31.
Definition is_s64 (x : Z) : Prop := - 2 ^ 63 <= x < 2 ^ 63.

Definition node_ok (n : raft_node_info) : Prop := is_s32 (node_id n) /\ is_str (addr n) /\ is_s32 (port n).

Definition configuration_ok (c : node_configuration) : Prop :=
  is_s64 (_index c) /\ is_s64 (_term c) /\
  Z.of_nat (List.length (_nodes c)) < 2 ^ 32 /\ Z.of_nat (List.length (_new_nodes c)) < 2 ^ 32 /\
  Forall node_ok (_nodes c) /\ Forall node_ok (_new_nodes c).

Lemma s32_mod x : is_s32 x -> s32 (x mod 256 ^ Z.of_nat 4) = x.
Proof.
  intros Hx. change (256 ^ Z.of_nat 4) with (2 ^ 32). rewrite <- (s32_small x Hx) at 2. unfold s32, swrap.
  by rewrite Z.mod_mod.
Qed.

Lemma s64_mod x : is_s64 x -> s64 (x mod 256 ^ Z.of_nat 8) = x.
Proof. intros Hx. change (x mod 256 ^ Z.of_nat 8) with (u64 x). rewrite s64_wrap. by apply s64_small. Qed.

Lemma put_node_puts n : puts (put_node n) (enc_node n).
Proof. repeat apply seq_puts; try apply PutFixed_puts. apply PutString_puts. Qed.

Lemma get_node_gets n : node_ok n -> gets get_node n (enc_node n).
Proof.
  intros (H1 & H2 & H3).
  cut (gets get_node {| node_id := s32 (node_id n mod 256 ^ Z.of_nat 4); addr := addr n;
                        port := s32 (port n mod 256 ^ Z.of_nat 4) |} (enc_node n));
    [rewrite !s32_mod by done; by destruct n|].
  eapply bind_gets; [apply GetFixed_gets|]. eapply bind_gets; [by apply GetString_gets|].
  eapply (map_gets GetFixed32 (fun p => {| node_id := _; addr := _; port := s32 p |})). apply GetFixed_gets.
Qed.

Lemma put_configuration_puts c : puts (put_configuration c) (enc_configuration c).
Proof.
  repeat apply seq_puts; try apply PutFixed_puts; apply put_all_puts; intros; apply put_node_puts.
Qed.

Lemma nodes_gets l :
  Forall node_ok l -> gets (get_n (Z.to_nat (Z.of_nat (List.length l))) get_node) l (concat (enc_node <$> l)).
Proof.
  intros Hl. rewrite Nat2Z.id. apply get_n_gets. intros x Hx. apply get_node_gets. by eapply Forall_forall.
Qed.

Lemma get_configuration_gets c : configuration_ok c -> gets get_configuration c (enc_configuration c).
Proof.
  intros (H1 & H2 & H3 & H4 & H5 & H6).
  cut (gets get_configuration {| _index := s64 (_index c mod 256 ^ Z.of_nat 8); _term := s64 (_term c mod 256 ^ Z.of_nat 8);
                                 _nodes := _nodes c; _new_nodes := _new_nodes c |} (enc_configuration c));
    [rewrite !s64_mod by done; by destruct c|].
  eapply bind_gets; [apply GetFixed_gets|]. eapply bind_gets; [apply GetFixed_gets|].
  eapply bind_gets; [apply GetFixed32_gets; lia|]. eapply bind_gets; [by apply nodes_gets|].
  eapply bind_gets; [apply GetFixed32_gets; lia|].
  eapply (map_gets _ (fun l => {| _index := _; _term := _; _nodes := _; _new_nodes := l |})). by apply nodes_gets.
Qed.

Definition enc_configurations (l : list node_configuration) : list Z :=
  Wire.le 4 (Z.of_nat (List.length l)) ++ concat (enc_configuration <$> l).

Lemma configurations_gets l :
  Forall configuration_ok l -> Z.of_nat (List.length l) < 2 ^ 32 ->
  gets (bind_get GetFixed32 (fun n => get_n (Z.to_nat n) get_configuration)) l (enc_configurations l).
Proof.
  intros Hl Hn. eapply bind_gets; [apply GetFixed32_gets; lia|]. rewrite Nat2Z.id.
  apply get_n_gets. intros x Hx. apply get_configuration_gets. by eapply Forall_forall.
Qed.

(** C25: The configurations of a raft group come back from the key-value store as they
    were saved, if they fit into the buffer of 1 MiB. *)
Theorem configurations_roundtrip (l : list node_configuration) (buf : list Z) :
  Forall configuration_ok l -> Z.of_nat (List.length l) < 2 ^ 32 ->
  Z.of_nat (List.length (enc_configurations l)) <= Z.of_nat (List.length buf) ->
  exists bytes, serialize l buf = Some bytes /\ deserialize bytes = Got l.
Proof.
  intros Hl Hn Hs. unfold serialize.
  destruct (seq_puts _ _ _ _ (PutFixed_puts 4 (Z.of_nat (List.length l)))
    (put_all_puts put_configuration enc_configuration l (fun x _ => put_configuration_puts x))
    {| _buf := buf; _used := 0 |}) as (b & E & W); [split; [done|unfold buf_size; simpl; lia]|done|].
  unfold PutFixed32. rewrite E. eexists. split; [done|].
  assert (Wb : take (Z.to_nat (_used b)) (_buf b) = enc_configurations l) by exact (wr_bytes _ _ _ W).
  rewrite Wb. unfold deserialize.
  destruct (configurations_gets l Hl Hn {| _buf := enc_configurations l; _used := 0 |} []) as (b' & -> & _); try done.
  unfold at_append. by rewrite app_nil_r.
Qed.

(** *** Operations of the key-value store *)

Definition enc_op (o : op) : list Z := enc_string (key o) ++ enc_string (default [] (value o)).

Definition op_ok (o : op) : Prop := is_str (key o) /\ is_str (default [] (value o)).

(** What an operation is read as: an empty value as none. *)
Definition read_as (o : op) : op :=
  {| key := key o; value := if bool_decide (default [] (value o) = []) then None else value o |}.

Lemma put_op_puts o : puts (fun b => (true, put_op o b)) (enc_op o).
Proof.
  intros b Hb Hr.
  assert (H2 : puts (PutOptString (value o)) (enc_string (default [] (value o))))
    by (destruct (value o); apply PutString_puts).
  destruct (seq_puts _ _ _ _ (PutString_puts (key o)) H2 b Hb Hr) as (b' & E & W). exists b'. split; [|done].
  unfold seq_put in E. unfold put_op. destruct (PutString (key o) b) as [[] b1]; [|done]. simpl. by rewrite E.
Qed.

Lemma put_ops_wrote ops b :
  buf_wf b -> room (Z.of_nat (List.length (concat (enc_op <$> ops)))) b ->
  wrote b (concat (enc_op <$> ops)) (foldl (fun b o => put_op o b) b ops).
Proof.
  revert b. induction ops as [|o ops IH]; intros b Hb Hr; cbn [fmap list_fmap concat foldl] in *.
  { split; [done|simpl; lia|by rewrite app_nil_r]. }
  unfold room in Hr. rewrite length_app in Hr.
  destruct (put_op_puts o b Hb) as (b1 & [= E] & W); [unfold room; lia|]. rewrite E.
  eapply wrote_trans; [exact W|]. apply IH; [eapply wrote_wf; [done| |done]; unfold room; lia|].
  unfold room, buf_size in *. rewrite (wr_used _ _ _ W), (wr_size _ _ _ W). lia.
Qed.

Lemma GetOptString_gets o : is_str (default [] (value o)) ->
  gets GetOptString (value (read_as o)) (enc_string (default [] (value o))).
Proof.
  intros Ho. replace (value (read_as o)) with
    (if bool_decide (default [] (value o) = []) then None else Some (default [] (value o))).
  - apply (map_gets _ (fun str => if bool_decide (str = []) then None else Some str)). by apply GetString_gets.
  - by destruct o as [k [v|]].
Qed.

Lemma deserialize_ops_gets ops k v b rest :
  Forall op_ok ops -> buf_wf b -> at_append b = concat (enc_op <$> ops) ++ rest ->
  deserialize_ops (List.length ops) k v b = Some (read_as <$> ops).
Proof.
  intros Hops. revert k v b. induction Hops as [|o ops [H1 H2] _ IH]; intros k v b Hb E; [done|].
  cbn [fmap list_fmap concat] in E. unfold enc_op in E. rewrite <- !app_assoc in E.
  destruct (GetString_gets (key o) H1 b _ Hb E) as (b1 & E1 & Hb1 & _ & A1).
  destruct (GetOptString_gets o H2 b1 _ Hb1 A1) as (b2 & E2 & Hb2 & _ & A2).
  simpl. rewrite E1, E2, (IH _ _ b2 Hb2 A2). by destruct o.
Qed.

Definition enc_ops (ops : list op) : list Z := Wire.le 8 (Z.of_nat (List.length ops)) ++ concat (enc_op <$> ops).

Lemma serialize_op_wrote ops b :
  8 + Z.of_nat (List.length (enc_ops ops)) <= buf_size b ->
  let n := 8 + Z.of_nat (List.length (enc_ops ops)) in
  _used (serialize_op ops b) = n /\ buf_size (serialize_op ops b) = buf_size b /\
  exists rest, _buf (serialize_op ops b) = Wire.le 8 n ++ enc_ops ops ++ rest.
Proof.
  intros Hs. unfold serialize_op. set (b0 := inc 8 (reset b)).
  assert (Hb0 : _used b0 = 8 /\ _buf b0 = _buf b).
  { split; [|done]. unfold b0, inc. simpl. rewrite remain_eq by (split; [done|]; unfold buf_size; simpl; lia).
    unfold buf_size in *. simpl. lia. }
  destruct Hb0 as [U0 B0]. assert (Hw0 : buf_wf b0) by (unfold buf_wf, buf_size in *; rewrite U0, B0; lia).
  unfold enc_ops in Hs. rewrite length_app, Wire.length_le in Hs.
  destruct (PutFixed_puts 8 (Z.of_nat (List.length ops)) b0 Hw0) as (b1 & E1 & W1).
  { unfold room, buf_size in *. rewrite U0, B0, Wire.length_le. lia. }
  unfold PutFixed64. rewrite E1. cbn [snd].
  assert (W2 : wrote b1 (concat (enc_op <$> ops)) (foldl (fun b o => put_op o b) b1 ops)).
  { apply put_ops_wrote.
    - eapply wrote_wf; [done| |done]. unfold room, buf_size in *. rewrite U0, B0, Wire.length_le. lia.
    - unfold room, buf_size in *. rewrite (wr_used _ _ _ W1), (wr_size _ _ _ W1), U0, B0, Wire.length_le. lia. }
  pose proof (wrote_trans _ _ _ _ _ W1 W2) as W. fold (enc_ops ops) in W.
  set (b2 := foldl _ _ _) in *. cbn [_buf _used]. unfold buf_size in *. cbn [_buf]. rewrite (wr_used _ _ _ W), U0.
  split; [done|]. split.
  { rewrite length_app, Wire.length_le, length_drop, (wr_size _ _ _ W), B0. lia. }
  exists (drop (Z.to_nat (_used b2)) (_buf b2)). f_equal.
  rewrite <- (take_drop (Z.to_nat (_used b2)) (_buf b2)) at 1. rewrite (wr_bytes _ _ _ W), U0.
  rewrite <- app_assoc, drop_app_length'; [done|]. rewrite length_take, B0. unfold buf_size in *. lia.
Qed.

Lemma length_ops ops : (List.length ops <= List.length (enc_ops ops))%nat.
Proof.
  unfold enc_ops. rewrite length_app. induction ops as [|o ops IH]; cbn [fmap list_fmap concat List.length] in *; [lia|].
  rewrite !length_app. rewrite Wire.length_le in *.
  assert (1 <= List.length (enc_op o))%nat by (unfold enc_op, enc_string; rewrite !length_app, !Wire.length_le; lia). lia.
Qed.

(** A buffer that begins with a batch. *)
Lemma deserialize_op_gets ops b rest :
  Forall op_ok ops -> buf_size b < 2 ^ 63 ->
  _buf b = Wire.le 8 (8 + Z.of_nat (List.length (enc_ops ops))) ++ enc_ops ops ++ rest ->
  deserialize_op b = Some (read_as <$> ops).
Proof.
  intros Hops Hm E. unfold deserialize_op. assert (Hb : buf_wf (reset b)) by (split; [done|unfold buf_size; simpl; lia]).
  assert (Hs : 8 + Z.of_nat (List.length (enc_ops ops)) <= buf_size b)
    by (unfold buf_size; rewrite E, !length_app, Wire.length_le; lia).
  pose proof (length_ops ops).
  assert (Ea : at_append (reset b) = Wire.le 8 (8 + Z.of_nat (List.length (enc_ops ops))) ++ enc_ops ops ++ rest) by exact E.
  destruct (GetFixed64_gets (8 + Z.of_nat (List.length (enc_ops ops))) ltac:(lia) _ _ Hb Ea) as (b1 & -> & Hb1 & _ & A1).
  unfold enc_ops in A1. rewrite <- app_assoc in A1.
  destruct (GetFixed64_gets (Z.of_nat (List.length ops)) ltac:(lia) b1 _ Hb1 A1) as (b2 & -> & Hb2 & _ & A2).
  rewrite (proj2 (Z.eqb_neq (8 + _) 0)) by lia. simpl.
  destruct (Z.eqb_spec (Z.of_nat (List.length ops)) 0) as [E0|]; [by destruct ops|].
  rewrite Nat2Z.id. by eapply deserialize_ops_gets.
Qed.

(** C24: The operations of a commit of the key-value store are found again in the log,
    in their order, if they fit into the buffer; an operation that stores an empty
    value comes back as one that removes the key. *)
Theorem operations_roundtrip (ops : list op) (write_buf : spdk_buffer) :
  Forall op_ok ops -> 8 + Z.of_nat (List.length (enc_ops ops)) <= buf_size write_buf < 2 ^ 63 ->
  deserialize_op (serialize_op ops write_buf) = Some (read_as <$> ops).
Proof.
  intros Hops [Hs Hm]. destruct (serialize_op_wrote ops write_buf Hs) as (_ & Hb & rest & E).
  eapply deserialize_op_gets; [done| |exact E]. lia.
Qed.

(** ** Concrete records *)

Definition joint : node_configuration :=
  {| _index := 7; _term := 2; _nodes := [{| node_id := 1; addr := [65; 66]; port := 0 |}];
     _new_nodes := [{| node_id := 1; addr := [65; 66]; port := 0 |}; {| node_id := 2; addr := []; port := 0 |}] |}.

Lemma configurations_roundtrip_witness :
  exists bytes, serialize [joint] (replicate 128 0) = Some bytes /\ deserialize bytes = Got [joint].
Proof.
  apply configurations_roundtrip; [|done|done].
  apply Forall_singleton. split_and!; try done; repeat constructor; done.
Defined.

Definition some_ops : list op := [{| key := [107]; value := Some [1; 2] |}; {| key := [108]; value := None |}].

Lemma operations_roundtrip_witness :
  deserialize_op (serialize_op some_ops {| _buf := replicate 128 0; _used := 5 |}) = Some some_ops.
Proof.
  rewrite (operations_roundtrip some_ops {| _buf := replicate 128 0; _used := 5 |}); [done| |done].
  repeat constructor; done.
Defined.

(** The length that [GetString] adds 8 to can be so large that the sum is 0. *)
Example length_check_wraps :
  fst (GetString {| _buf := [248; 255; 255; 255; 255; 255; 255; 255]; _used := 0 |}) = Overrun.
Proof. by vm_compute. Qed.

End Codec.
