(* ===== verification/RollingBlob.v ===== *)
(** * Rolling blobs (src/localstore/rolling_blob.h)

    A rolling blob is a ring in an SPDK blob, after a super block of 4 KiB: data is
    appended at [front], which only grows, and given back at [back]; a position is
    taken modulo the size of the ring to find its place in the blob.  An operation
    that crosses the end of the ring is done in two parts.

    An operation on the device runs to its end when it is started.  Where the code
    calls a completion function that it has moved away, the result is [None]. *)

From stdpp Require Import gmap list.
From S2P Require Import Prelude Wire ObjectStore.

Module RollingBlob.

Definition ENOSPC : Z := 28.

(** An open blob; offsets and lengths are in units. *)
Class BlobIo (B : Type) := {
  spdk_blob_io_writev : B -> list Z -> Z -> Z -> Z * B;
  spdk_blob_io_readv : B -> Z -> Z -> Z * list Z;
  spdk_blob_io_unmap : B -> Z -> Z -> Z * B;
}.

Definition super_size : Z := 4 * 1024.
Definition unit_size : Z := 512.

Record location := { pos : Z; lba : Z }.
Record rblob_rw_result := { start_pos : Z; len : Z }.

Record rolling_blob (B : Type) := {
  blob_size : Z;
  front : location;
  back : location;
  super : list Z;
  inflight_rw : list (Z * bool);
  dev : B;
}.
Arguments blob_size {B}.
Arguments front {B}.
Arguments back {B}.
Arguments super {B}.
Arguments inflight_rw {B}.
Arguments dev {B}.

#[export] Instance eta_rolling_blob B : Eta (rolling_blob B) := fun r =>
  {| blob_size := blob_size r; front := front r; back := back r; super := super r;
     inflight_rw := inflight_rw r; dev := dev r |}.

Section ops.
Context `{BlobIo B}.
Implicit Types rb : rolling_blob B.

Definition size rb : Z := u64 (blob_size rb - super_size).
Definition used rb : Z := u64 (pos (front rb) - pos (back rb)).
Definition available rb : Z := u64 (size rb - used rb).
Definition begin_ : Z := 0.
Definition end_ rb : Z := u64 (blob_size rb - super_size).
Definition is_rolled rb : bool := negb (pos (front rb) / size rb =? pos (back rb) / size rb).
Definition need_roll rb (start length : Z) : bool :=
  negb (start / size rb =? u64 (start + length) / size rb).
Definition pos_to_end rb (p : Z) : Z := end_ rb - p mod size rb.
Definition front_to_end rb : Z := end_ rb - pos (front rb) mod size rb.
Definition back_to_end rb : Z := end_ rb - pos (back rb) mod size rb.
Definition begin_to_front rb : Z := pos (front rb) mod size rb.
Definition pos_to_lba rb (p : Z) : Z := p mod size rb + super_size.

Definition at_pos rb (p : Z) : location := {| pos := p; lba := pos_to_lba rb p |}.

Definition new_rolling_blob (size_ : Z) (super_ : list Z) (b : B) : rolling_blob B :=
  {| blob_size := size_; front := {| pos := 0; lba := super_size |};
     back := {| pos := 0; lba := super_size |}; super := super_; inflight_rw := []; dev := b |}.

(** [inflight_rw] is an ordered map from the end of a write to whether it is done. *)
Fixpoint emplace (k : Z) (l : list (Z * bool)) : list (Z * bool) :=
  match l with
  | [] => [(k, false)]
  | (k', b) :: l' =>
      if k <? k' then (k, false) :: l
      else if k =? k' then l
      else (k', b) :: emplace k l'
  end.

Fixpoint pop_done (advance : Z) (l : list (Z * bool)) : Z * list (Z * bool) :=
  match l with
  | (k, true) :: l' => pop_done k l'
  | _ => (advance, l)
  end.

Definition maybe_advance_front (offset : Z) rb : rolling_blob B :=
  let l := (fun '(k, b) => (k, b || (k =? offset))) <$> inflight_rw rb in
  let '(advance, l) := pop_done (pos (front rb)) l in
  rb <| inflight_rw := l |> <| front := at_pos rb advance |>.

(** [rw_done] of a write that nothing follows. *)
Definition write_done (start length rberrno : Z) rb : option (Z * rblob_rw_result) * rolling_blob B :=
  if truthy rberrno then (Some (rberrno, {| start_pos := start; len := length |}), rb)
  else (Some (0, {| start_pos := start; len := length |}), maybe_advance_front (start + length) rb).

Definition writev (bl : list Z) (start length : Z) rb : Z * rolling_blob B :=
  let '(e, d) := spdk_blob_io_writev (dev rb) bl (pos_to_lba rb start / unit_size) (length / unit_size) in
  (e, rb <| dev := d |>).

Definition append (bl : list Z) rb : option (Z * rblob_rw_result) * rolling_blob B :=
  let length := Z.of_nat (List.length bl) in
  if available rb <? length
  then (Some (- ENOSPC, {| start_pos := pos (front rb); len := length |}), rb)
  else if is_rolled rb || (length <? front_to_end rb) then
    let start := pos (front rb) in
    let rb := rb <| inflight_rw ::= emplace (start + length) |> in
    let '(e, rb) := writev bl start length rb in
    write_done start length e rb
  else
    let first_len := front_to_end rb in
    let second_len := length - first_len in
    let start := pos (front rb) in
    let next_start := start + first_len in
    let rb := rb <| inflight_rw ::= emplace (next_start + second_len) |> in
    let '(e, rb) := writev (take (Z.to_nat first_len) bl) start first_len rb in
    if truthy e then (None, rb)
    else
      let '(e, rb) := writev (drop (Z.to_nat first_len) bl) next_start second_len rb in
      write_done next_start second_len e rb.

Definition readv (start length : Z) rb : Z * list Z :=
  spdk_blob_io_readv (dev rb) (pos_to_lba rb start / unit_size) (length / unit_size).

(** What is read goes to the front of the buffer [bl]. *)
Definition fill (bl bytes : list Z) : list Z := bytes ++ drop (List.length bytes) bl.

Definition read (start length : Z) (bl : list Z) (is_load : bool) rb
    : option (Z * rblob_rw_result) * list Z :=
  if start <? pos (back rb) then (Some (- EINVAL, {| start_pos := start; len := length |}), bl)
  else if (used rb <? length) && negb is_load
  then (Some (- ENOSPC, {| start_pos := start; len := length |}), bl)
  else
    let max_pos := pos (back rb) + size rb in
    if is_load && (max_pos <=? start) then (Some (0, {| start_pos := start; len := 0 |}), bl)
    else
      let length := if is_load && (max_pos <? start + length) then u64 (max_pos - pos (front rb)) else length in
      if need_roll rb start length then
        let first_len := pos_to_end rb start in
        let second_len := u64 (length - first_len) in
        let '(e, bytes) := readv start first_len rb in
        if truthy e then (None, bl)
        else
          let '(e, bytes') := readv (start + first_len) second_len rb in
          (Some (e, {| start_pos := start + first_len; len := second_len |}),
           if truthy e then fill bl bytes else fill bl (bytes ++ bytes'))
      else
        let '(e, bytes) := readv start length rb in
        (Some (e, {| start_pos := start; len := length |}), if truthy e then bl else fill bl bytes).

(** ** Trimming and the super block *)

Definition super_layout : list nat := [8; 8; 8; 8]%nat.

Definition serialize_super rb : rolling_blob B :=
  rb <| super ::= fun s =>
    Wire.pack super_layout [lba (back rb); pos (back rb); lba (front rb); pos (front rb)] ++ drop 32 s |>.

Definition deserialize_super (s : list Z) rb : rolling_blob B :=
  let fields := Wire.unpack super_layout s in
  rb <| back := {| lba := nth 0 fields 0; pos := nth 1 fields 0 |} |>
     <| front := {| lba := nth 2 fields 0; pos := nth 3 fields 0 |} |>.

Definition sync_md rb : Z * rolling_blob B :=
  let rb := serialize_super rb in
  let '(e, d) := spdk_blob_io_writev (dev rb) (super rb) 0 (Z.of_nat (List.length (super rb)) / unit_size) in
  (e, rb <| dev := d |>).

Definition load_md rb : Z * rolling_blob B :=
  let '(e, bytes) := spdk_blob_io_readv (dev rb) 0 (Z.of_nat (List.length (super rb)) / unit_size) in
  if truthy e then (e, rb)
  else (0, deserialize_super (fill (super rb) bytes) (rb <| super := fill (super rb) bytes |>)).

(** [trim_done] of a trim that nothing follows. *)
Definition trim_done (rberrno : Z) rb : option Z * rolling_blob B :=
  if truthy rberrno then (Some rberrno, rb)
  else let '(e, rb) := sync_md rb in (Some e, rb).

Definition unmap (lba_ length : Z) rb : Z * rolling_blob B :=
  let '(e, d) := spdk_blob_io_unmap (dev rb) (lba_ / unit_size) (length / unit_size) in
  (e, rb <| dev := d |>).

Definition trim_back (length : Z) rb : option Z * rolling_blob B :=
  if used rb <? length then (Some (- ENOSPC), rb)
  else
    let lba_ := lba (back rb) in
    let to_end := back_to_end rb in
    let rolled := is_rolled rb in
    let rb := rb <| back := at_pos rb (pos (back rb) + length) |> in
    if negb rolled || (length <? to_end) then
      let '(e, rb) := unmap lba_ length rb in trim_done e rb
    else
      let '(e, rb) := unmap lba_ to_end rb in
      if truthy e then (None, rb)
      else let '(e, rb) := unmap (pos_to_lba rb 0) (length - to_end) rb in trim_done e rb.

Definition trim_front (length : Z) rb : option Z * rolling_blob B :=
  if used rb <? length then (Some (- ENOSPC), rb)
  else
    let from_begin := begin_to_front rb in
    let rolled := is_rolled rb in
    let p := pos (front rb) - length in
    let rb := rb <| front := at_pos rb p |> in
    if negb rolled || (length <? from_begin) then
      let '(e, rb) := unmap (pos_to_lba rb p) length rb in trim_done e rb
    else
      let second_len := length - from_begin in
      let '(e, rb) := unmap (pos_to_lba rb begin_) from_begin rb in
      if truthy e then (None, rb)
      else let '(e, rb) := unmap (pos_to_lba rb (end_ rb - second_len)) second_len rb in trim_done e rb.

(** ** Loading

    [check] looks at the data and says whether all of it is valid, how much of it
    is, and how much the entry needs that is cut off; the component that owns the
    blob records what it finds in its own state.  [make_buffer_list] is a buffer of
    that many pages with whatever they hold. *)
Section load.
Context {S : Type} (check : list Z -> Z -> S -> bool * Z * Z * S) (make_buffer_list : Z -> list Z).

Definition set_front (p : Z) rb : rolling_blob B := rb <| front := at_pos rb p |>.

(** Reading from [p], and [load_read_done]. *)
Fixpoint load_read (fuel : nat) (p length : Z) (st : S) rb : option (option Z * S * rolling_blob B) :=
  match fuel with
  | O => None
  | Datatypes.S fuel =>
      match read p length (make_buffer_list (length / 4096)) true rb with
      | (None, _) => Some (None, st, rb)
      | (Some (e, _), bl) =>
          if truthy e then Some (Some e, st, rb)
          else
            let '(all_valid, valid_size, next_unit, st) := check bl p st in
            let length := if length <? next_unit then length * 2 else length in
            if all_valid && (0 <? valid_size)
            then load_read fuel (p + valid_size) length st rb
            else Some (Some 0, st, set_front (p + valid_size) rb)
      end
  end.

Definition load (fuel : nat) (read_unit : Z) (st : S) rb : option (option Z * S * rolling_blob B) :=
  let '(e, rb) := load_md rb in
  if truthy e then Some (Some e, st, rb) else load_read fuel (pos (back rb)) read_unit st rb.

End load.
End ops.

(** ** The ring *)

Class BlobIoLaws (B : Type) `{BlobIo B} := {
  data : B -> Z -> Z;
  units : B -> Z;
  writev_law b bytes lba_ n e b' :
    spdk_blob_io_writev b bytes lba_ n = (e, b') ->
    0 <= lba_ -> 0 <= n -> lba_ + n <= units b -> Z.of_nat (List.length bytes) = n * unit_size ->
    units b' = units b /\
    (forall o, ~ (lba_ * unit_size <= o < (lba_ + n) * unit_size) -> data b' o = data b o) /\
    (e = 0 -> forall i, 0 <= i < n * unit_size -> data b' (lba_ * unit_size + i) = nth (Z.to_nat i) bytes 0);
  readv_law b lba_ n bytes :
    spdk_blob_io_readv b lba_ n = (0, bytes) ->
    0 <= lba_ -> 0 <= n -> lba_ + n <= units b -> bytes = data b <$> seqZ (lba_ * unit_size) (n * unit_size);
  unmap_law b lba_ n e b' :
    spdk_blob_io_unmap b lba_ n = (e, b') ->
    0 <= lba_ -> 0 <= n -> lba_ + n <= units b ->
    units b' = units b /\
    (forall o, ~ (lba_ * unit_size <= o < (lba_ + n) * unit_size) -> data b' o = data b o);
}.

Section ring.
Context `{BlobIoLaws B}.
Implicit Types rb : rolling_blob B.

Record ring_ok rb : Prop := {
  wf_size : super_size < blob_size rb < 2 ^ 63;
  wf_units : blob_size rb = units (dev rb) * unit_size;
}.

Record rblob_wf rb : Prop := {
  wf_ring : ring_ok rb;
  wf_back : 0 <= pos (back rb) <= pos (front rb);
  wf_front : pos (front rb) <= pos (back rb) + size rb;
  wf_top : pos (front rb) + size rb < 2 ^ 63;
  wf_back_lba : lba (back rb) = pos_to_lba rb (pos (back rb));
  wf_front_lba : lba (front rb) = pos_to_lba rb (pos (front rb));
  wf_back_unit : (unit_size | pos (back rb));
  wf_front_unit : (unit_size | pos (front rb));
  wf_super : List.length (super rb) = Z.to_nat super_size;
  wf_inflight : inflight_rw rb = [];
}.

(** The byte at a position. *)
Definition stream rb (p : Z) : Z := data (dev rb) (pos_to_lba rb p).

Lemma ring_ok_same rb rb' :
  ring_ok rb -> blob_size rb' = blob_size rb -> dev rb' = dev rb -> ring_ok rb'.
Proof. intros [H1 H2] E1 E2. by split; rewrite ?E1, ?E2. Qed.

Lemma size_eq rb : ring_ok rb -> size rb = blob_size rb - super_size.
Proof. intros Hw. destruct (wf_size _ Hw). unfold size. apply u64_small. unfold super_size in *. lia. Qed.

Lemma size_pos rb : ring_ok rb -> 0 < size rb < 2 ^ 63.
Proof. intros Hw. rewrite size_eq by done. destruct (wf_size _ Hw). unfold super_size in *. lia. Qed.

Lemma size_unit rb : ring_ok rb -> (unit_size | size rb).
Proof.
  intros Hw. rewrite size_eq, (wf_units _ Hw) by done. apply Z.divide_sub_r; [apply Z.divide_factor_r|].
  by exists 8.
Qed.

Lemma used_eq rb : rblob_wf rb -> used rb = pos (front rb) - pos (back rb).
Proof.
  intros Hw. pose proof (size_pos _ (wf_ring _ Hw)). destruct (wf_back _ Hw). pose proof (wf_front _ Hw). pose proof (wf_top _ Hw). unfold used.
  apply u64_small. lia.
Qed.

Lemma available_eq rb : rblob_wf rb -> available rb = pos (back rb) + size rb - pos (front rb).
Proof.
  intros Hw. pose proof (size_pos _ (wf_ring _ Hw)). destruct (wf_back _ Hw). pose proof (wf_front _ Hw). pose proof (wf_top _ Hw). unfold available.
  rewrite used_eq by done. rewrite u64_small; lia.
Qed.

(** A run of positions that does not cross the end of the ring. *)
Lemma lba_run rb p i :
  ring_ok rb -> 0 <= p -> 0 <= i -> p mod size rb + i < size rb -> pos_to_lba rb (p + i) = pos_to_lba rb p + i.
Proof.
  intros Hw Hp Hi Hr. pose proof (size_pos _ Hw) as Hs. unfold pos_to_lba.
  pose proof (Z.mod_pos_bound p (size rb) ltac:(lia)).
  rewrite <- Z.add_mod_idemp_l by lia. rewrite (Z.mod_small (p mod size rb + i)) by lia. lia.
Qed.

Lemma lba_inj rb p q :
  ring_ok rb -> pos_to_lba rb p = pos_to_lba rb q -> - size rb < p - q < size rb -> p = q.
Proof.
  intros Hw E Hd. pose proof (size_pos _ Hw) as Hs. unfold pos_to_lba in E.
  assert (E' : p mod size rb = q mod size rb) by lia. clear E.
  pose proof (Z.div_mod p (size rb) ltac:(lia)). pose proof (Z.div_mod q (size rb) ltac:(lia)).
  assert (size rb * (p / size rb - q / size rb) = p - q) by lia.
  assert (p / size rb - q / size rb = 0) by nia. lia.
Qed.

Lemma lba_unit rb p :
  ring_ok rb -> (unit_size | p) -> (unit_size | pos_to_lba rb p).
Proof.
  intros Hw Hp. pose proof (size_pos _ Hw) as Hs. unfold pos_to_lba. apply Z.divide_add_r; [|by exists 8].
  rewrite Z.mod_eq by lia. apply Z.divide_sub_r; [done|]. apply Z.divide_mul_l, size_unit, Hw.
Qed.

Definition in_run (start length q : Z) : Prop := start <= q < start + length.

(** Positions that are at most one turn of the ring away from all of a run. *)
Definition near rb (start length q : Z) : Prop := start + length - size rb <= q < start + size rb.

Lemma out_of_run rb start length q :
  ring_ok rb -> 0 <= start -> start mod size rb + length <= size rb ->
  near rb start length q -> ~ in_run start length q ->
  ~ (pos_to_lba rb start <= pos_to_lba rb q < pos_to_lba rb start + length).
Proof.
  intros Hw Hs Hr [Hn1 Hn2] Hq Hc. apply Hq. set (i := pos_to_lba rb q - pos_to_lba rb start) in *.
  assert (E : pos_to_lba rb q = pos_to_lba rb (start + i)) by (rewrite lba_run by (done || lia); lia).
  apply lba_inj in E; [|done|lia]. unfold in_run. lia.
Qed.

Lemma run_range rb start length :
  ring_ok rb -> 0 <= start -> (unit_size | start) -> (unit_size | length) -> 0 <= length ->
  start mod size rb + length <= size rb ->
  pos_to_lba rb start / unit_size * unit_size = pos_to_lba rb start /\
  length / unit_size * unit_size = length /\
  0 <= pos_to_lba rb start / unit_size /\ 0 <= length / unit_size /\
  pos_to_lba rb start / unit_size + length / unit_size <= units (dev rb).
Proof.
  intros Hw Hs Hu Hl Hl0 Hr. pose proof (size_pos _ Hw) as Hsz. pose proof (size_eq _ Hw) as Heq.
  pose proof (wf_units _ Hw) as Hun.
  pose proof (Z.mod_pos_bound start (size rb) ltac:(lia)).
  assert (E1 : pos_to_lba rb start / unit_size * unit_size = pos_to_lba rb start)
    by (symmetry; rewrite Z.mul_comm; apply Z.div_exact; [done|]; apply Z.mod_divide; [done|]; by apply lba_unit).
  assert (E2 : length / unit_size * unit_size = length)
    by (symmetry; rewrite Z.mul_comm; apply Z.div_exact; [done|]; by apply Z.mod_divide).
  assert (0 <= pos_to_lba rb start / unit_size) by (apply Z.div_pos; [unfold pos_to_lba, super_size; lia|done]).
  assert (0 <= length / unit_size) by (by apply Z.div_pos).
  split_and!; try done. unfold pos_to_lba in *. unfold unit_size in *. lia.
Qed.

Lemma writev_run rb bytes start length e rb' :
  ring_ok rb -> 0 <= start -> (unit_size | start) -> (unit_size | length) -> 0 <= length ->
  start mod size rb + length <= size rb -> Z.of_nat (List.length bytes) = length ->
  writev bytes start length rb = (e, rb') ->
  exists d, rb' = rb <| dev := d |> /\ ring_ok rb' /\
    (forall q, near rb start length q -> ~ in_run start length q -> stream rb' q = stream rb q) /\
    (e = 0 -> forall i, 0 <= i < length -> stream rb' (start + i) = nth (Z.to_nat i) bytes 0).
Proof.
  intros Hw Hs Hu Hl Hl0 Hr Hb. destruct (run_range rb start length) as (E1 & E2 & R1 & R2 & R3); [done..|].
  unfold writev. destruct (spdk_blob_io_writev _ _ _ _) as [e1 d] eqn:Ew.
  apply writev_law in Ew as (W1 & W2 & W3); [|done || lia..].
  assert (Hr' : ring_ok (rb <| dev := d |>)) by (split; simpl; rewrite ?W1; apply Hw).
  rewrite Z.mul_add_distr_r, E1, E2 in W2. rewrite E1, E2 in W3. intros [= <- <-].
  exists d. split_and!; [done|done| |].
  - intros q Hn Hq. apply W2. by apply (out_of_run rb).
  - intros He i Hi. transitivity (data d (pos_to_lba rb (start + i))); [done|].
    rewrite lba_run by (done || lia). by apply W3.
Qed.

Lemma unmap_run rb start length e rb' :
  ring_ok rb -> 0 <= start -> (unit_size | start) -> (unit_size | length) -> 0 <= length ->
  start mod size rb + length <= size rb ->
  unmap (pos_to_lba rb start) length rb = (e, rb') ->
  exists d, rb' = rb <| dev := d |> /\ ring_ok rb' /\
    (forall q, near rb start length q -> ~ in_run start length q -> stream rb' q = stream rb q).
Proof.
  intros Hw Hs Hu Hl Hl0 Hr. destruct (run_range rb start length) as (E1 & E2 & R1 & R2 & R3); [done..|].
  unfold unmap. destruct (spdk_blob_io_unmap _ _ _) as [e1 d] eqn:Ew.
  apply unmap_law in Ew as (W1 & W2); [|done || lia..].
  assert (Hr' : ring_ok (rb <| dev := d |>)) by (split; simpl; rewrite ?W1; apply Hw).
  rewrite Z.mul_add_distr_r, E1, E2 in W2. intros [= <- <-].
  exists d. split_and!; [done|done|]. intros q Hn Hq. apply W2. by apply (out_of_run rb).
Qed.

Lemma readv_run rb start length bytes :
  ring_ok rb -> 0 <= start -> (unit_size | start) -> (unit_size | length) -> 0 <= length ->
  start mod size rb + length <= size rb ->
  readv start length rb = (0, bytes) -> bytes = stream rb <$> seqZ start length.
Proof.
  intros Hw Hs Hu Hl Hl0 Hr. destruct (run_range rb start length) as (E1 & E2 & R1 & R2 & R3); [done..|].
  unfold readv. intros E. apply readv_law in E as ->; [|done || lia..]. rewrite E1, E2.
  apply list_eq. intros i. rewrite !list_lookup_fmap.
  destruct (decide (Z.of_nat i < length)).
  - rewrite !lookup_seqZ_lt by lia. simpl. f_equal. unfold stream. f_equal. symmetry. by apply lba_run; [..|lia|lia].
  - rewrite !lookup_seqZ_ge by lia. done.
Qed.

(** ** Appending *)

Lemma mod_lap rb :
  rblob_wf rb ->
  pos (front rb) mod size rb =
    pos (back rb) mod size rb + used rb - (if is_rolled rb then size rb else 0).
Proof.
  intros Hw. pose proof (size_pos _ (wf_ring _ Hw)) as Hs. rewrite used_eq by done.
  destruct (wf_back _ Hw) as [B1 B2]. pose proof (wf_front _ Hw) as F1. pose proof (wf_top _ Hw) as F2. unfold is_rolled.
  set (S := size rb) in *. set (f := pos (front rb)) in *. set (b := pos (back rb)) in *.
  pose proof (Z.div_mod f S ltac:(lia)). pose proof (Z.div_mod b S ltac:(lia)).
  pose proof (Z.mod_pos_bound f S ltac:(lia)). pose proof (Z.mod_pos_bound b S ltac:(lia)).
  destruct (Z.eqb_spec (f / S) (b / S)) as [E|E]; simpl; [rewrite E in *; lia|].
  assert (f / S = b / S + 1) as E' by nia. rewrite E' in *. lia.
Qed.

Lemma advance_one rb k :
  inflight_rw rb = [(k, false)] ->
  maybe_advance_front k rb = rb <| inflight_rw := [] |> <| front := at_pos rb k |>.
Proof. intros E. unfold maybe_advance_front. rewrite E. simpl. by rewrite Z.eqb_refl. Qed.

(** Bytes that were there are kept. *)
Definition kept rb rb' : Prop :=
  forall p, pos (back rb') <= p < pos (front rb) -> stream rb' p = stream rb p.

Lemma grown rb rb' d n :
  rblob_wf rb -> rb' = rb <| dev := d |> <| inflight_rw := [] |> <| front := at_pos rb (pos (front rb) + n) |> ->
  ring_ok rb' -> (unit_size | n) -> 0 <= n <= available rb -> pos (front rb) + n + size rb < 2 ^ 63 ->
  rblob_wf rb'.
Proof.
  intros Hw -> Hr Hu Hn Hb. rewrite available_eq in Hn by done.
  destruct (wf_back _ Hw). pose proof (wf_front _ Hw). pose proof (wf_top _ Hw). split; simpl; try done; try apply Hw.
  - lia.
  - change (size _) with (size rb). lia.
  - apply Z.divide_add_r; [apply Hw|done].
Qed.

(** What an append of [bl] at [p] leaves. *)
Definition appended rb (bl : list Z) rb' : Prop :=
  pos (back rb') = pos (back rb) /\
  pos (front rb') = pos (front rb) + Z.of_nat (List.length bl) /\
  forall i, 0 <= i < Z.of_nat (List.length bl) -> stream rb' (pos (front rb) + i) = nth (Z.to_nat i) bl 0.

Lemma append_straight rb bl e r rb1 rb' :
  rblob_wf rb -> let length := Z.of_nat (List.length bl) in
  0 < length <= available rb -> pos (front rb) + length + size rb < 2 ^ 63 -> (unit_size | length) ->
  is_rolled rb || (length <? front_to_end rb) = true ->
  writev bl (pos (front rb)) length (rb <| inflight_rw ::= emplace (pos (front rb) + length) |>) = (e, rb1) ->
  write_done (pos (front rb)) length e rb1 = (r, rb') ->
  kept rb rb' /\ pos (back rb') = pos (back rb) /\
  (forall x, r = Some (0, x) -> rblob_wf rb' /\ appended rb bl rb').
Proof.
  intros Hw length Hl Htop Hu Hc. pose proof (size_pos _ (wf_ring _ Hw)) as Hs.
  pose proof (available_eq _ Hw) as Ha. pose proof (mod_lap _ Hw) as Hm. rewrite used_eq in Hm by done.
  destruct (wf_back _ Hw) as [B1 B2]. pose proof (wf_front _ Hw) as F1. pose proof (wf_top _ Hw) as F2.
  pose proof (Z.mod_pos_bound (pos (back rb)) (size rb) ltac:(lia)).
  assert (Hrun : pos (front rb) mod size rb + length <= size rb).
  { destruct (is_rolled rb); simpl in Hc; [lia|]. apply Z.ltb_lt in Hc. unfold front_to_end in Hc.
    change (end_ rb) with (size rb) in Hc. lia. }
  set (rb0 := rb <| inflight_rw ::= _ |>).
  assert (Hi0 : inflight_rw rb0 = [(pos (front rb) + length, false)]) by (simpl; by rewrite (wf_inflight _ Hw)).
  intros E.
  apply writev_run in E as (d & -> & R1 & R2 & R3); [|apply (ring_ok_same rb); [apply Hw|done|done]|lia|apply Hw|done|lia|done|done].
  assert (Hk : forall p, pos (back rb) <= p < pos (front rb) -> stream (rb0 <| dev := d |>) p = stream rb p).
  { intros p Hp. apply (R2 p); unfold near, in_run; change (size rb0) with (size rb); lia. }
  unfold write_done. destruct (truthy e) eqn:Ee.
  - intros [= <- <-]. split; [|split; [done|]].
    + intros p Hp. by apply Hk.
    + intros x [= -> _]. done.
  - unfold truthy in Ee. apply negb_false_iff, Z.eqb_eq in Ee. subst e.
    rewrite advance_one by done. intros [= <- <-]. split; [|split; [done|]].
    + intros p Hp. by apply Hk.
    + intros _ _. split.
      * eapply (grown rb _ d length); [done|done|by apply (ring_ok_same _ _ R1)|done|lia|lia].
      * split_and!; [done..|]. intros i Hi. by apply (R3 eq_refl).
Qed.

Lemma to_end_mod rb p :
  ring_ok rb -> 0 <= p -> (unit_size | p) ->
  0 < pos_to_end rb p <= size rb /\ (unit_size | pos_to_end rb p) /\ (p + pos_to_end rb p) mod size rb = 0.
Proof.
  intros Hw Hp Hu. pose proof (size_pos _ Hw) as Hs. pose proof (Z.mod_pos_bound p (size rb) ltac:(lia)).
  unfold pos_to_end. change (end_ rb) with (size rb). split; [lia|]. split.
  - apply Z.divide_sub_r; [by apply size_unit|]. rewrite Z.mod_eq by lia.
    apply Z.divide_sub_r; [done|]. by apply Z.divide_mul_l, size_unit.
  - rewrite <- Z.add_mod_idemp_l by lia. replace (p mod size rb + (size rb - p mod size rb)) with (size rb) by lia.
    apply Z.mod_same. lia.
Qed.

Lemma nth_drop_Z (l : list Z) (n i : Z) :
  0 <= n -> 0 <= i -> nth (Z.to_nat i) (drop (Z.to_nat n) l) 0 = nth (Z.to_nat (n + i)) l 0.
Proof. intros Hn Hi. rewrite !nth_lookup, lookup_drop, Z2Nat.inj_add by lia. done. Qed.

Lemma append_split rb bl e1 e2 r rb1 rb2 rb' :
  rblob_wf rb -> let length := Z.of_nat (List.length bl) in
  0 < length <= available rb -> pos (front rb) + length + size rb < 2 ^ 63 -> (unit_size | length) -> is_rolled rb = false -> front_to_end rb <= length ->
  let first_len := front_to_end rb in
  let next_start := pos (front rb) + first_len in
  writev (take (Z.to_nat first_len) bl) (pos (front rb)) first_len
    (rb <| inflight_rw ::= emplace (next_start + (length - first_len)) |>) = (e1, rb1) ->
  kept rb rb1 /\ pos (back rb1) = pos (back rb) /\
  (e1 = 0 -> writev (drop (Z.to_nat first_len) bl) next_start (length - first_len) rb1 = (e2, rb2) ->
   write_done next_start (length - first_len) e2 rb2 = (r, rb') ->
   kept rb rb' /\ pos (back rb') = pos (back rb) /\
   (forall x, r = Some (0, x) -> rblob_wf rb' /\ appended rb bl rb')).
Proof.
  intros Hw length Hl Htop Hu Hroll Hc first_len next_start. pose proof (size_pos _ (wf_ring _ Hw)) as Hs.
  pose proof (available_eq _ Hw) as Ha. destruct (wf_back _ Hw) as [B1 B2]. pose proof (wf_front _ Hw) as F1. pose proof (wf_top _ Hw) as F2.
  destruct (to_end_mod rb (pos (front rb))) as (T1 & T2 & T3); [apply Hw|lia|apply Hw|].
  change (pos_to_end rb (pos (front rb))) with first_len in *.
  assert (Hmod : pos (front rb) mod size rb + first_len = size rb) by (unfold first_len, front_to_end; change (end_ rb) with (size rb); lia).
  set (rb0 := rb <| inflight_rw ::= _ |>).
  assert (Hi0 : inflight_rw rb0 = [(next_start + (length - first_len), false)]) by (simpl; by rewrite (wf_inflight _ Hw)).
  intros E. apply writev_run in E as (d & -> & R1 & R2 & R3);
    [|by apply (ring_ok_same rb); [apply Hw|..]|lia|apply Hw|done|lia|by change (size rb0) with (size rb); lia|rewrite length_take; lia].
  change (near rb0) with (near rb) in R2.
  assert (Hk : forall p, pos (back rb) <= p < pos (front rb) -> stream (rb0 <| dev := d |>) p = stream rb p).
  { intros p Hp. apply (R2 p); unfold near, in_run; lia. }
  split; [intros p Hp; by apply Hk|]. split; [done|]. intros -> E.
  set (rb1 := rb0 <| dev := d |>) in *. change (size rb1) with (size rb) in *.
  assert (U2 : (unit_size | length - first_len)) by by apply Z.divide_sub_r.
  apply writev_run in E as (d2 & -> & Q1 & Q2 & Q3);
    [|done|unfold next_start; lia|by apply Z.divide_add_r; [apply Hw|]|done|lia|
      change (size rb1) with (size rb); unfold next_start; rewrite T3; lia|rewrite length_drop; lia].
  assert (Hk2 : forall p, pos (back rb) <= p < next_start -> stream (rb1 <| dev := d2 |>) p = stream rb1 p).
  { intros p Hp. apply (Q2 p); unfold near, in_run; change (size rb1) with (size rb); unfold next_start in *; lia. }
  assert (Hk' : forall p, pos (back rb) <= p < pos (front rb) -> stream (rb1 <| dev := d2 |>) p = stream rb p).
  { intros p Hp. rewrite Hk2 by (unfold next_start; lia). by apply Hk. }
  unfold write_done. destruct (truthy e2) eqn:Ee.
  - intros [= <- <-]. split; [intros p Hp; by apply Hk'|]. split; [done|]. intros x [= -> _]. done.
  - unfold truthy in Ee. apply negb_false_iff, Z.eqb_eq in Ee. subst e2.
    rewrite advance_one by done. intros [= <- <-]. split; [intros p Hp; by apply Hk'|]. split; [done|].
    replace (next_start + (length - first_len)) with (pos (front rb) + length) by (unfold next_start; lia).
    intros _ _. split; [eapply (grown rb _ d2 length); [done|done|by apply (ring_ok_same _ _ Q1)|done|lia|lia]|].
    split_and!; [done..|]. intros i Hi. destruct (decide (i < first_len)).
    + transitivity (stream rb1 (pos (front rb) + i)); [apply (Hk2 (pos (front rb) + i)); unfold next_start; lia|].
      rewrite (R3 eq_refl) by lia. rewrite !nth_lookup, lookup_take_lt by lia. done.
    + transitivity (stream (rb1 <| dev := d2 |>) (next_start + (i - first_len)));
        [f_equal; unfold next_start; lia|].
      rewrite (Q3 eq_refl), nth_drop_Z by lia. do 2 f_equal. lia.
Qed.

Lemma ring_append_spec rb bl r rb' :
  rblob_wf rb -> (unit_size | Z.of_nat (List.length bl)) -> bl <> [] ->
  pos (front rb) + Z.of_nat (List.length bl) + size rb < 2 ^ 63 -> append bl rb = (r, rb') ->
  kept rb rb' /\ pos (back rb') = pos (back rb) /\
  (available rb < Z.of_nat (List.length bl) ->
   r = Some (- ENOSPC, {| start_pos := pos (front rb); len := Z.of_nat (List.length bl) |}) /\ rb' = rb) /\
  (forall x, r = Some (0, x) -> rblob_wf rb' /\ appended rb bl rb').
Proof.
  intros Hw Hu Hne Htop. assert (0 < Z.of_nat (List.length bl)) by (destruct bl; [done|simpl; lia]).
  unfold append. destruct (Z.ltb_spec (available rb) (Z.of_nat (List.length bl))) as [Ha|Ha].
  { intros [= <- <-]. split_and!; [done..|]. by intros x [=]. }
  destruct (is_rolled rb || _) eqn:Hc.
  - destruct (writev _ _ _ _) as [e rb1] eqn:E. intros Ed.
    destruct (append_straight rb bl e r rb1 rb') as (K1 & K2 & K3); [done|lia|lia|done..|]. split_and!; try done. lia.
  - apply orb_false_iff in Hc as [Hc1 Hc2]. apply Z.ltb_ge in Hc2.
    destruct (writev (take _ _) _ _ _) as [e rb1] eqn:E.
    destruct (writev (drop _ _) _ _ _) as [e2 rb2] eqn:E2.
    destruct (write_done _ _ _ rb2) as [r' rb3] eqn:E3.
    destruct (append_split rb bl e e2 r' rb1 rb2 rb3) as (K1 & K2 & K3); [done|lia|lia|done..|].
    unfold truthy. destruct (Z.eqb_spec e 0) as [->|He]; simpl.
    + intros [= <- <-]. destruct (K3 eq_refl E2 E3) as (L1 & L2 & L3). split_and!; try done. lia.
    + intros [= <- <-]. split_and!; try done. lia.
Qed.

(** ** Reading *)

Lemma fill_all bl bytes : List.length bytes = List.length bl -> fill bl bytes = bytes.
Proof. intros E. unfold fill. by rewrite E, drop_all, app_nil_r. Qed.

Lemma ring_read_spec rb start length bl x bl' :
  rblob_wf rb -> (unit_size | start) -> (unit_size | length) ->
  pos (back rb) <= start -> 0 <= length -> start + length <= pos (front rb) ->
  Z.of_nat (List.length bl) = length ->
  read start length bl false rb = (Some (0, x), bl') -> bl' = stream rb <$> seqZ start length.
Proof.
  intros Hw Hus Hul Hs Hl Hf Hbl. pose proof (size_pos _ (wf_ring _ Hw)) as Hsz.
  destruct (wf_back _ Hw) as [B1 B2]. pose proof (wf_front _ Hw) as F1. pose proof (wf_top _ Hw) as F2.
  pose proof (Z.mod_pos_bound start (size rb) ltac:(lia)) as Hm.
  destruct (to_end_mod rb start) as (T1 & T2 & T3); [apply Hw|lia|done|].
  unfold read. rewrite used_eq by done.
  rewrite (proj2 (Z.ltb_ge start (pos (back rb)))), (proj2 (Z.ltb_ge (_ - _) length)) by lia. simpl.
  unfold need_roll. rewrite u64_small by lia.
  pose proof (Z.div_mod start (size rb) ltac:(lia)). pose proof (Z.div_mod (start + length) (size rb) ltac:(lia)).
  pose proof (Z.mod_pos_bound (start + length) (size rb) ltac:(lia)).
  destruct (Z.eqb_spec (start / size rb) ((start + length) / size rb)) as [E|E]; simpl.
  - destruct (readv start length rb) as [e bytes] eqn:Er. intros [= -> _ <-]. simpl.
    apply readv_run in Er as ->; [|by apply Hw|lia|done|done|lia|rewrite E in *; lia].
    apply fill_all. rewrite length_fmap, length_seqZ. lia.
  - assert (Hlt : start / size rb < (start + length) / size rb)
      by (pose proof (Z.div_le_mono start (start + length) (size rb) ltac:(lia) ltac:(lia)); lia).
    assert (Hto : pos_to_end rb start <= length) by (unfold pos_to_end; change (end_ rb) with (size rb); nia).
    destruct (readv start _ rb) as [e1 bytes1] eqn:E1. unfold truthy at 1.
    destruct (Z.eqb_spec e1 0) as [->|]; simpl; [|by intros [=]].
    rewrite u64_small by lia. destruct (readv (start + _) _ rb) as [e2 bytes2] eqn:E2. intros [= -> _ <-]. simpl.
    apply readv_run in E1 as ->; [|by apply Hw|lia|done|done|lia|unfold pos_to_end; change (end_ rb) with (size rb); lia].
    apply readv_run in E2 as ->; [|by apply Hw|lia|by apply Z.divide_add_r|by apply Z.divide_sub_r|lia|lia].
    rewrite <- fmap_app, <- seqZ_app by lia. replace (_ + (length - _)) with length by lia.
    apply fill_all. rewrite length_fmap, length_seqZ. lia.
Qed.

(** Loading reads after the front: a read that does not go over the end of the ring
    is one of a ring that is full. *)
Definition full rb : rolling_blob B := rb <| front := at_pos rb (pos (back rb) + size rb) |>.

Lemma read_load rb start length bl :
  rblob_wf rb -> pos (back rb) + 2 * size rb < 2 ^ 63 ->
  pos (back rb) <= start -> start < pos (back rb) + size rb -> 0 <= length ->
  start + length <= pos (back rb) + size rb ->
  read start length bl true rb = read start length bl false (full rb).
Proof.
  intros Hw Ht Hb Hlt Hl Hs. pose proof (size_pos _ (wf_ring _ Hw)). destruct (wf_back _ Hw).
  assert (Eu : used (full rb) = size rb).
  { unfold used, full. simpl. rewrite u64_small; lia. }
  unfold read. rewrite Eu. change (back (full rb)) with (back rb). change (size (full rb)) with (size rb).
  rewrite (proj2 (Z.ltb_ge start _)), (proj2 (Z.ltb_ge (size rb) _)) by lia.
  rewrite (proj2 (Z.leb_gt _ start)), (proj2 (Z.ltb_ge _ (start + length))) by lia.
  by rewrite andb_false_r.
Qed.

Lemma full_wf rb : rblob_wf rb -> pos (back rb) + 2 * size rb < 2 ^ 63 -> rblob_wf (full rb).
Proof.
  intros Hw Ht. pose proof (size_pos _ (wf_ring _ Hw)). destruct (wf_back _ Hw).
  destruct Hw as [W1 W2 W3 W4 W5 W6 W7 W8 W9 W10].
  split; try done; change (size (full rb)) with (size rb);
    change (pos (front (full rb))) with (pos (back rb) + size rb); change (back (full rb)) with (back rb);
    [by apply ring_ok_same with rb|lia..|].
  apply Z.divide_add_r; [done|]. by apply size_unit.
Qed.

(** ** Trimming *)

Lemma sync_md_spec rb e rb' :
  ring_ok rb -> List.length (super rb) = Z.to_nat super_size -> sync_md rb = (e, rb') ->
  exists s d, rb' = rb <| super := s |> <| dev := d |> /\ List.length s = Z.to_nat super_size /\ ring_ok rb' /\
    forall q, stream rb' q = stream rb q.
Proof.
  intros Hw Hl. unfold sync_md. set (rb1 := serialize_super rb).
  assert (Hl1 : List.length (super rb1) = Z.to_nat super_size)
    by (unfold rb1, serialize_super; simpl; rewrite length_drop, Hl; done).
  assert (Hu : super_size / unit_size <= units (dev rb)).
  { destruct Hw as [W1 W2]. unfold super_size, unit_size in *. change (4 * 1024 / 512) with 8. lia. }
  rewrite Hl1, Z2Nat.id by done.
  destruct (spdk_blob_io_writev _ _ _ _) as [e1 d] eqn:E. intros [= <- <-].
  apply writev_law in E as (W1 & W2 & _); [|done|done|exact Hu|rewrite Hl1; done].
  exists (super rb1), d. split_and!; [done|done| |].
  - destruct Hw as [R1 R2]. split; simpl; [done|]. rewrite W1. exact R2.
  - intros q. pose proof (size_pos _ Hw). pose proof (Z.mod_pos_bound q (size rb) ltac:(lia)).
    apply (W2 (pos_to_lba rb q)). unfold pos_to_lba, super_size, unit_size. change (4 * 1024 / 512) with 8. lia.
Qed.

(** All of a trim after the offsets have been moved. *)
Definition unmapped rb rb' : Prop :=
  exists s d, rb' = rb <| super := s |> <| dev := d |> /\ List.length s = Z.to_nat super_size /\ ring_ok rb'.

Lemma trim_done_spec rb e r rb' :
  ring_ok rb -> List.length (super rb) = Z.to_nat super_size -> trim_done e rb = (r, rb') ->
  unmapped rb rb' /\ forall q, stream rb' q = stream rb q.
Proof.
  intros Hw Hl. unfold trim_done. destruct (truthy e).
  - intros [= <- <-]. split; [|done]. exists (super rb), (dev rb). by destruct rb.
  - destruct (sync_md rb) as [e1 rb1] eqn:E. intros [= <- <-].
    apply sync_md_spec in E as (s & d & -> & E1 & E2 & E3); [|done..]. split; [|done]. by exists s, d.
Qed.

Lemma unmapped_wf rb rb' : rblob_wf rb -> unmapped rb rb' -> rblob_wf rb'.
Proof.
  intros Hw (s & d & -> & Hl & Hr). destruct Hw. split; simpl; try done.
Qed.

Lemma unmap_one rb start length e r rb1 rb' :
  ring_ok rb -> List.length (super rb) = Z.to_nat super_size ->
  0 <= start -> (unit_size | start) -> (unit_size | length) -> 0 <= length ->
  start mod size rb + length <= size rb ->
  unmap (pos_to_lba rb start) length rb = (e, rb1) -> trim_done e rb1 = (r, rb') ->
  unmapped rb rb' /\ forall q, near rb start length q -> ~ in_run start length q -> stream rb' q = stream rb q.
Proof.
  intros Hw Hl H1 H2 H3 H4 H5 E. apply unmap_run in E as (d & -> & R1 & R2); [|done..]. intros Ed.
  apply trim_done_spec in Ed as [(s & d' & -> & D1 & D2) D3]; [|done..].
  split; [by exists s, d'|]. intros q Hn Hq. rewrite D3. by apply R2.
Qed.

Lemma unmap_two rb start length start' length' e e' r rb1 rb2 rb' :
  ring_ok rb -> List.length (super rb) = Z.to_nat super_size ->
  0 <= start -> (unit_size | start) -> (unit_size | length) -> 0 <= length ->
  start mod size rb + length <= size rb ->
  0 <= start' -> (unit_size | start') -> (unit_size | length') -> 0 <= length' ->
  start' mod size rb + length' <= size rb ->
  unmap (pos_to_lba rb start) length rb = (e, rb1) ->
  unmap (pos_to_lba rb1 start') length' rb1 = (e', rb2) -> trim_done e' rb2 = (r, rb') ->
  (unmapped rb rb' /\ unmapped rb rb1) /\
  forall q, near rb start length q -> ~ in_run start length q -> stream rb1 q = stream rb q /\
    (near rb start' length' q -> ~ in_run start' length' q -> stream rb' q = stream rb q).
Proof.
  intros Hw Hl H1 H2 H3 H4 H5 H1' H2' H3' H4' H5' E E' Ed. apply unmap_run in E as (d & -> & R1 & R2); [|done..].
  destruct (unmap_one (rb <| dev := d |>) start' length' e' r rb2 rb') as [(s & d' & -> & D1 & D2) D3]; [done..|].
  split; [split; [by exists s, d'|by exists (super rb), d]|].
  intros q Hn Hq. split; [by apply R2|]. intros Hn' Hq'. rewrite D3 by done. by apply R2.
Qed.

Lemma lba_mod rb p q : p mod size rb = q mod size rb -> pos_to_lba rb p = pos_to_lba rb q.
Proof. unfold pos_to_lba. by intros ->. Qed.

Lemma moved_back rb n :
  rblob_wf rb -> 0 <= n <= used rb -> (unit_size | n) ->
  rblob_wf (rb <| back := at_pos rb (pos (back rb) + n) |>).
Proof.
  intros Hw Hn Hu. rewrite used_eq in Hn by done. destruct Hw. split; simpl; try done.
  - by apply (ring_ok_same rb).
  - lia.
  - change (size _) with (size rb). lia.
  - by apply Z.divide_add_r.
Qed.

Lemma ring_trim_back_spec rb n r rb' :
  rblob_wf rb -> 0 <= n -> (unit_size | n) -> trim_back n rb = (r, rb') ->
  (used rb < n -> r = Some (- ENOSPC) /\ rb' = rb) /\
  (n <= used rb ->
   rblob_wf rb' /\ pos (back rb') = pos (back rb) + n /\ pos (front rb') = pos (front rb) /\ kept rb rb').
Proof.
  intros Hw Hn Hu. pose proof (size_pos _ (wf_ring _ Hw)) as Hsz. pose proof (mod_lap _ Hw) as Hm.
  pose proof (used_eq _ Hw) as Eu. pose proof (wf_front _ Hw) as F1. destruct (wf_back _ Hw) as [B1 B2].
  pose proof (Z.mod_pos_bound (pos (front rb)) (size rb) ltac:(lia)).
  destruct (to_end_mod rb (pos (back rb))) as (T1 & T2 & T3); [apply Hw|done|apply Hw|].
  unfold trim_back. change (back_to_end rb) with (pos_to_end rb (pos (back rb))).
  destruct (Z.ltb_spec (used rb) n) as [Hlt|Hle]; [by intros [= <- <-]; split; [|lia]|].
  pose proof (moved_back rb n Hw ltac:(lia) Hu) as Hw0. set (rb0 := rb <| back := _ |>) in *.
  rewrite (wf_back_lba _ Hw). change (pos_to_lba rb (pos (back rb))) with (pos_to_lba rb0 (pos (back rb))).
  assert (Hto : pos (back rb) mod size rb + pos_to_end rb (pos (back rb)) = size rb)
    by (unfold pos_to_end; change (end_ rb) with (size rb); lia).
  assert (Hfin : forall rb1, unmapped rb0 rb1 ->
    (forall q, pos (back rb) + n <= q < pos (front rb) -> stream rb1 q = stream rb q) ->
    rblob_wf rb1 /\ pos (back rb1) = pos (back rb) + n /\ pos (front rb1) = pos (front rb) /\ kept rb rb1).
  { intros rb1 Hun Hq. split; [by apply (unmapped_wf rb0)|]. destruct Hun as (s & d & -> & _).
    split_and!; try done. }
  destruct (negb (is_rolled rb) || _) eqn:Hc.
  - destruct (unmap _ n rb0) as [e rb1] eqn:E. intros Ed. split; [lia|]. intros _.
    assert (Hr : pos (back rb) mod size rb + n <= size rb).
    { apply orb_true_iff in Hc as [Hc|Hc]; [apply negb_true_iff in Hc; rewrite Hc in Hm; lia|apply Z.ltb_lt in Hc; lia]. }
    destruct (unmap_one rb0 (pos (back rb)) n e r rb1 rb') as [U1 U2]; try done; try apply Hw0; [apply Hw|].
    apply Hfin; [done|]. intros q Hq. apply (U2 q); unfold near, in_run; change (size rb0) with (size rb); lia.
  - apply orb_false_iff in Hc as [Hc1 Hc2]. apply negb_false_iff in Hc1. apply Z.ltb_ge in Hc2. rewrite Hc1 in Hm.
    destruct (unmap _ _ rb0) as [e rb1] eqn:E.
    assert (El : pos_to_lba rb1 0 = pos_to_lba rb1 (pos (back rb) + pos_to_end rb (pos (back rb)))).
    { unfold unmap in E. destruct (spdk_blob_io_unmap _ _ _). injection E as _ <-. apply (lba_mod rb). by rewrite T3. }
    rewrite El. destruct (unmap _ _ rb1) as [e2 rb2] eqn:E2. destruct (trim_done e2 rb2) as [r3 rb3] eqn:E3.
    destruct (unmap_two rb0 (pos (back rb)) (pos_to_end rb (pos (back rb))) (pos (back rb) + pos_to_end rb (pos (back rb)))
      (n - pos_to_end rb (pos (back rb))) e e2 r3 rb1 rb2 rb3) as [[U1 U2] U3];
      [apply Hw0|apply Hw0|done|apply Hw|done|lia|change (size rb0) with (size rb); lia|lia|
       by apply Z.divide_add_r; [apply Hw|]|by apply Z.divide_sub_r|lia|
       change (size rb0) with (size rb); rewrite T3; lia|done..|].
    assert (Hq : forall q, pos (back rb) + n <= q < pos (front rb) -> stream rb1 q = stream rb q /\ stream rb3 q = stream rb q).
    { intros q Hq. destruct (U3 q) as [V1 V2]; [unfold near, in_run; change (size rb0) with (size rb); lia..|].
      split; [done|]. apply V2; unfold near, in_run; change (size rb0) with (size rb); lia. }
    destruct (truthy e); intros [= <- <-]; (split; [lia|]); intros _; (apply Hfin; [done|]); intros q Hb; by apply Hq.
Qed.

Lemma moved_front rb n :
  rblob_wf rb -> 0 <= n <= used rb -> (unit_size | n) ->
  rblob_wf (rb <| front := at_pos rb (pos (front rb) - n) |>).
Proof.
  intros Hw Hn Hu. rewrite used_eq in Hn by done. destruct Hw. split; simpl; try done.
  - by apply (ring_ok_same rb).
  - lia.
  - change (size _) with (size rb). lia.
  - change (size _) with (size rb). lia.
  - by apply Z.divide_sub_r.
Qed.

Lemma mod_back rb p n : ring_ok rb -> 0 <= n <= p mod size rb -> (p - n) mod size rb = p mod size rb - n.
Proof.
  intros Hw Hn. pose proof (size_pos _ Hw). pose proof (Z.mod_pos_bound p (size rb) ltac:(lia)).
  rewrite <- Zminus_mod_idemp_l. apply Z.mod_small. lia.
Qed.

Lemma ring_trim_front_spec rb n r rb' :
  rblob_wf rb -> 0 <= n -> (unit_size | n) -> trim_front n rb = (r, rb') ->
  (used rb < n -> r = Some (- ENOSPC) /\ rb' = rb) /\
  (n <= used rb ->
   rblob_wf rb' /\ pos (back rb') = pos (back rb) /\ pos (front rb') = pos (front rb) - n /\
   forall q, pos (back rb) <= q < pos (front rb) - n -> stream rb' q = stream rb q).
Proof.
  intros Hw Hn Hu. pose proof (size_pos _ (wf_ring _ Hw)) as Hsz. pose proof (mod_lap _ Hw) as Hm.
  pose proof (used_eq _ Hw) as Eu. pose proof (wf_front _ Hw) as F1. destruct (wf_back _ Hw) as [B1 B2].
  pose proof (Z.mod_pos_bound (pos (back rb)) (size rb) ltac:(lia)).
  pose proof (Z.mod_pos_bound (pos (front rb)) (size rb) ltac:(lia)).
  assert (Hle' : pos (front rb) mod size rb <= pos (front rb)) by (apply Z.mod_le; lia).
  unfold trim_front, begin_to_front, begin_.
  destruct (Z.ltb_spec (used rb) n) as [Hlt|Hle]; [by intros [= <- <-]; split; [|lia]|].
  pose proof (moved_front rb n Hw ltac:(lia) Hu) as Hw0. set (rb0 := rb <| front := _ |>) in *.
  change (end_ rb0) with (size rb).
  assert (Hfin : forall rb1, unmapped rb0 rb1 ->
    (forall q, pos (back rb) <= q < pos (front rb) - n -> stream rb1 q = stream rb q) ->
    rblob_wf rb1 /\ pos (back rb1) = pos (back rb) /\ pos (front rb1) = pos (front rb) - n /\
    forall q, pos (back rb) <= q < pos (front rb) - n -> stream rb1 q = stream rb q).
  { intros rb1 Hun Hq. split; [by apply (unmapped_wf rb0)|]. destruct Hun as (s & d & -> & _).
    split_and!; try done. }
  assert (Uf : (unit_size | pos (front rb) - n)) by by apply Z.divide_sub_r; [apply Hw|].
  set (f := pos (front rb) mod size rb) in *.
  destruct (negb (is_rolled rb) || _) eqn:Hc.
  - destruct (unmap _ n rb0) as [e rb1] eqn:E. intros Ed. split; [lia|]. intros _.
    assert (Hnf : n <= f).
    { apply orb_true_iff in Hc as [Hc|Hc]; [apply negb_true_iff in Hc; rewrite Hc in Hm; lia|apply Z.ltb_lt in Hc; lia]. }
    destruct (unmap_one rb0 (pos (front rb) - n) n e r rb1 rb') as [U1 U2]; try done; try apply Hw0; [lia|..].
    { change (size rb0) with (size rb). rewrite mod_back by (apply Hw || lia). fold f. lia. }
    apply Hfin; [done|]. intros q Hq. apply (U2 q); unfold near, in_run; change (size rb0) with (size rb); lia.
  - apply orb_false_iff in Hc as [Hc1 Hc2]. apply negb_false_iff in Hc1. apply Z.ltb_ge in Hc2. rewrite Hc1 in Hm.
    assert (M1 : (pos (front rb) - f) mod size rb = 0) by (rewrite mod_back by (apply Hw || lia); fold f; lia).
    assert (M2 : (size rb - (n - f)) mod size rb = (pos (front rb) - n) mod size rb).
    { replace (pos (front rb) - n) with ((pos (front rb) - f) - (n - f)) by lia.
      rewrite (Zminus_mod (pos (front rb) - f)), M1, (Zminus_mod (size rb)), Z_mod_same_full. done. }
    assert (M3 : (pos (front rb) - n) mod size rb + (n - f) <= size rb).
    { rewrite <- M2. destruct (decide (n = f)) as [->|]; [rewrite Z.sub_diag, Z.sub_0_r, Z_mod_same_full; lia|].
      rewrite Z.mod_small by lia. lia. }
    rewrite (lba_mod rb0 0 (pos (front rb) - f)) by (change (size rb0) with (size rb); by rewrite M1).
    destruct (unmap _ f rb0) as [e rb1] eqn:E.
    assert (El : pos_to_lba rb1 (size rb - (n - f)) = pos_to_lba rb1 (pos (front rb) - n)).
    { unfold unmap in E. destruct (spdk_blob_io_unmap _ _ _). injection E as _ <-. by apply (lba_mod rb). }
    assert (Es : end_ rb1 = size rb) by (unfold unmap in E; destruct (spdk_blob_io_unmap _ _ _); by injection E as _ <-).
    rewrite Es, El. destruct (unmap _ _ rb1) as [e2 rb2] eqn:E2. destruct (trim_done e2 rb2) as [r3 rb3] eqn:E3.
    assert (Uq : (unit_size | f)) by (unfold f; rewrite Z.mod_eq by lia; apply Z.divide_sub_r; [apply Hw|]; apply Z.divide_mul_l, size_unit, Hw).
    destruct (unmap_two rb0 (pos (front rb) - f) f (pos (front rb) - n) (n - f) e e2 r3 rb1 rb2 rb3) as [[U1 U2] U3];
      [apply Hw0|apply Hw0|lia|by apply Z.divide_sub_r; [apply Hw|]|done|lia|change (size rb0) with (size rb); lia|lia|
       done|by apply Z.divide_sub_r|lia|done|done..|].
    assert (Hq : forall q, pos (back rb) <= q < pos (front rb) - n -> stream rb1 q = stream rb q /\ stream rb3 q = stream rb q).
    { intros q Hq. destruct (U3 q) as [V1 V2]; [unfold near, in_run; change (size rb0) with (size rb); lia..|].
      split; [done|]. apply V2; unfold near, in_run; change (size rb0) with (size rb); lia. }
    destruct (truthy e); intros [= <- <-]; (split; [lia|]); intros _; (apply Hfin; [done|]); intros q Hb; by apply Hq.
Qed.

(** *** The super block *)

Definition super_bytes rb : list Z := data (dev rb) <$> seqZ 0 super_size.

(** The locations that the super block on the device holds. *)
Definition saved rb (b f : location) : Prop :=
  Wire.unpack super_layout (super_bytes rb) = [lba b; pos b; lba f; pos f].

Lemma length_super_bytes rb : List.length (super_bytes rb) = Z.to_nat super_size.
Proof. unfold super_bytes. by rewrite length_fmap, length_seqZ. Qed.

Lemma super_units rb : ring_ok rb -> super_size / unit_size <= units (dev rb).
Proof. intros [W1 W2]. unfold super_size, unit_size in *. change (4 * 1024 / 512) with 8. lia. Qed.

Lemma super_bytes_at (d : B) (l : list Z) :
  List.length l = Z.to_nat super_size ->
  (forall i, 0 <= i < super_size -> data d i = nth (Z.to_nat i) l 0) ->
  data d <$> seqZ 0 super_size = l.
Proof.
  intros Hl Hi. change (Z.to_nat super_size) with (Z.to_nat 4096) in Hl. change super_size with 4096 in *.
  apply list_eq. intros i. rewrite list_lookup_fmap. destruct (decide (Z.of_nat i < 4096)).
  - rewrite lookup_seqZ_lt by done. cbn [fmap option_fmap option_map]. rewrite Z.add_0_l, Hi, Nat2Z.id by lia.
    destruct (lookup_lt_is_Some_2 l i) as [x Hx]; [lia|]. rewrite Hx. f_equal. by apply nth_lookup_Some.
  - rewrite lookup_seqZ_ge by lia. symmetry. apply lookup_ge_None. lia.
Qed.

Lemma sync_saves rb rb' : rblob_wf rb -> sync_md rb = (0, rb') -> saved rb' (back rb) (front rb).
Proof.
  intros Hw. unfold sync_md. set (rb0 := serialize_super rb).
  assert (Hl : List.length (super rb0) = Z.to_nat super_size)
    by (unfold rb0, serialize_super; simpl; rewrite length_drop, (wf_super _ Hw); done).
  rewrite Hl, Z2Nat.id by done. destruct (spdk_blob_io_writev _ _ _ _) as [e1 d] eqn:E. intros [= -> <-].
  apply writev_law in E as (W1 & W2 & W3); [|done|done|apply (super_units rb), Hw|rewrite Hl; done].
  unfold saved. change (super_bytes _) with (data d <$> seqZ 0 super_size).
  rewrite (super_bytes_at d (super rb0)) by (done || (intros i Hi; by apply W3)).
  change (super rb0) with (Wire.pack super_layout [lba (back rb); pos (back rb); lba (front rb); pos (front rb)] ++ drop 32 (super rb)).
  apply Wire.unpack_pack.
  pose proof (wf_back _ Hw). pose proof (wf_top _ Hw). pose proof (size_pos _ (wf_ring _ Hw)) as Hs.
  assert (Hlba : forall p, 0 <= pos_to_lba rb p < 2 ^ 64)
    by (intros p; unfold pos_to_lba, super_size; pose proof (Z.mod_pos_bound p (size rb) ltac:(lia)); lia).
  rewrite (wf_back_lba _ Hw), (wf_front_lba _ Hw).
  repeat constructor; unfold Wire.fits; change (256 ^ Z.of_nat 8) with (2 ^ 64); try apply Hlba; lia.
Qed.

Lemma load_saved rb b f e rb' :
  ring_ok rb -> List.length (super rb) = Z.to_nat super_size -> saved rb b f -> load_md rb = (e, rb') -> e = 0 ->
  rb' = rb <| super := super_bytes rb |> <| back := b |> <| front := f |>.
Proof.
  intros Hw Hl Hs. unfold load_md. rewrite Hl, Z2Nat.id by done.
  destruct (spdk_blob_io_readv _ _ _) as [e2 bytes] eqn:Er. unfold truthy.
  destruct (Z.eqb_spec e2 0) as [->|]; cbn [negb]; [|by intros [= <- <-]].
  apply readv_law in Er; [|done|done|by apply super_units].
  change (super_size / unit_size * unit_size) with super_size in Er. change (0 * unit_size) with 0 in Er.
  assert (Hb : super_bytes rb = bytes) by (by rewrite Er). clear Er. subst bytes. intros Ex _.
  assert (Hlen : List.length (super_bytes rb) = List.length (super rb))
    by (rewrite length_super_bytes; done).
  rewrite fill_all in Ex by done. unfold deserialize_super in Ex. rewrite Hs in Ex.
  destruct b, f. symmetry. exact (f_equal snd Ex).
Qed.

Lemma writev_super rb bytes start length e rb' :
  ring_ok rb -> 0 <= start -> (unit_size | start) -> (unit_size | length) -> 0 <= length ->
  start mod size rb + length <= size rb -> Z.of_nat (List.length bytes) = length ->
  writev bytes start length rb = (e, rb') ->
  exists d, rb' = rb <| dev := d |> /\ ring_ok rb' /\ super_bytes rb' = super_bytes rb.
Proof.
  intros Hw Hs Hu Hl Hl0 Hr Hb. destruct (run_range rb start length) as (E1 & E2 & R1 & R2 & R3); [done..|].
  unfold writev. destruct (spdk_blob_io_writev _ _ _ _) as [e1 d] eqn:Ew.
  apply writev_law in Ew as (W1 & W2 & W3); [|done || lia..]. intros [= <- <-]. exists d. split; [done|].
  split; [split; simpl; rewrite ?W1; apply Hw|]. apply list_fmap_ext. intros i x Hx.
  apply lookup_seqZ in Hx as [-> Hx]. apply W2. rewrite E1. unfold pos_to_lba.
  pose proof (size_pos _ Hw). pose proof (Z.mod_pos_bound start (size rb) ltac:(lia)). lia.
Qed.

Lemma super_bytes_dev rb rb' : dev rb' = dev rb -> super_bytes rb' = super_bytes rb.
Proof. unfold super_bytes. by intros ->. Qed.

(** Appending keeps the super block. *)
Lemma append_keeps_super rb bl r rb' :
  rblob_wf rb -> (unit_size | Z.of_nat (List.length bl)) -> append bl rb = (r, rb') ->
  blob_size rb' = blob_size rb /\ super_bytes rb' = super_bytes rb.
Proof.
  intros Hw Hu. pose proof (size_pos _ (wf_ring _ Hw)) as Hs. pose proof (available_eq _ Hw) as Ha.
  pose proof (mod_lap _ Hw) as Hm. rewrite used_eq in Hm by done.
  destruct (wf_back _ Hw) as [B1 B2]. pose proof (wf_front _ Hw) as F1.
  pose proof (Z.mod_pos_bound (pos (back rb)) (size rb) ltac:(lia)).
  destruct (to_end_mod rb (pos (front rb))) as (T1 & T2 & T3); [apply Hw|lia|apply Hw|].
  change (pos_to_end rb (pos (front rb))) with (front_to_end rb) in *.
  unfold append. destruct (Z.ltb_spec (available rb) (Z.of_nat (List.length bl))); [by intros [= <- <-]|].
  assert (Hdone : forall start n e rb1, write_done start n e rb1 = (r, rb') ->
    blob_size rb' = blob_size rb1 /\ dev rb' = dev rb1).
  { intros start n e rb1. unfold write_done. destruct (truthy e); [by intros [= <- <-]|].
    unfold maybe_advance_front. by repeat case_match; intros [= <- <-]. }
  destruct (is_rolled rb || _) eqn:Hc.
  - set (rb0 := rb <| inflight_rw ::= _ |>). destruct (writev _ _ _ _) as [e rb1] eqn:E.
    intros Ed. apply Hdone in Ed as [D1 D2]. rewrite D1, (super_bytes_dev rb1) by exact D2.
    apply writev_super in E as (d & -> & _ & Es);
      [|by apply (ring_ok_same rb); [apply Hw|..]|lia|apply Hw|done|lia|change (size rb0) with (size rb)|done].
    + split; [done|]. rewrite Es. by apply super_bytes_dev.
    + destruct (is_rolled rb); simpl in Hc; [lia|]. apply Z.ltb_lt in Hc. unfold front_to_end in Hc.
      change (end_ rb) with (size rb) in Hc. lia.
  - apply orb_false_iff in Hc as [Hc1 Hc2]. apply Z.ltb_ge in Hc2. set (rb0 := rb <| inflight_rw ::= _ |>).
    destruct (writev (take _ _) _ _ _) as [e rb1] eqn:E.
    apply writev_super in E as (d & -> & R1 & Es);
      [|by apply (ring_ok_same rb); [apply Hw|..]|lia|apply Hw|done|lia|
        change (size rb0) with (size rb); unfold front_to_end; change (end_ rb) with (size rb); lia|rewrite length_take; lia].
    assert (Es0 : super_bytes rb0 = super_bytes rb) by by apply super_bytes_dev. rewrite Es0 in Es. clear Es0.
    destruct (truthy e); [intros [= <- <-]; split; [reflexivity|exact Es]|].
    set (rb1 := rb0 <| dev := d |>) in *.
    destruct (writev (drop _ _) _ _ _) as [e2 rb2] eqn:E2.
    intros Ed. apply Hdone in Ed as [D1 D2]. rewrite D1, (super_bytes_dev rb2) by exact D2.
    apply writev_super in E2 as (d2 & -> & _ & Es2); [|done|lia|by apply Z.divide_add_r; [apply Hw|]|by apply Z.divide_sub_r|lia|
      change (size rb1) with (size rb); rewrite T3; lia|rewrite length_drop; lia].
    split; [done|]. by rewrite Es2.
Qed.

(** *** Restarting *)

(** The blob after a restart: what is on the device is all that is left. *)
Definition reopened rb rb1 : Prop :=
  dev rb1 = dev rb /\ blob_size rb1 = blob_size rb /\ List.length (super rb1) = Z.to_nat super_size /\
  inflight_rw rb1 = [].

Lemma reopened_stream rb rb1 q : reopened rb rb1 -> stream rb1 q = stream rb q.
Proof. intros (E1 & E2 & _). unfold stream, pos_to_lba, size. by rewrite E1, E2. Qed.

Lemma load_md_reopened rb f rb1 rb2 :
  rblob_wf rb -> rblob_wf (rb <| front := f |>) -> saved rb (back rb) f -> reopened rb rb1 -> load_md rb1 = (0, rb2) ->
  rblob_wf rb2 /\ size rb2 = size rb /\ pos (back rb2) = pos (back rb) /\
  forall q, stream rb2 q = stream rb q.
Proof.
  intros Hw Hwf Hsaved Hre El. pose proof Hre as (E1 & E2 & E3 & E4).
  assert (Hr1 : ring_ok rb1) by (by apply (ring_ok_same rb); [apply Hw|..]).
  unfold saved in Hsaved. rewrite <- (super_bytes_dev _ rb1) in Hsaved by exact E1.
  apply (load_saved rb1 (back rb) f) in El; [|exact Hr1|exact E3|exact Hsaved|reflexivity]. clear Hsaved.
  assert (Hsup : List.length (super_bytes rb1) = Z.to_nat super_size) by apply length_super_bytes.
  set (sb := super_bytes rb1) in *. clearbody sb.
  assert (Es : size rb2 = size rb) by (subst rb2; unfold size; simpl; by rewrite E2).
  assert (Eq : forall q, stream rb2 q = stream rb q)
    by (intros q; subst rb2; rewrite <- (reopened_stream _ _ q Hre); reflexivity).
  assert (Elba : forall q, pos_to_lba rb2 q = pos_to_lba rb q) by (intros q; unfold pos_to_lba; by rewrite Es).
  assert (Hb2 : pos (back rb2) = pos (back rb) /\ pos (front rb2) = pos f /\ inflight_rw rb2 = []) by (by subst rb2).
  destruct Hb2 as (Hb2 & Hf2 & Hi2). split_and!; try done.
  destruct Hwf as [W1 W2 W3 W4 W5 W6 W7 W8 W9 W10]. simpl in W2, W3, W4, W5, W6, W7, W8. clear W1 W9 W10.
  split; rewrite ?Hb2, ?Hf2, ?Es, ?Elba; try done; subst rb2; [by apply (ring_ok_same rb1)|done|done|exact Hsup].
Qed.

Lemma back_front_wf rb : rblob_wf rb -> rblob_wf (rb <| front := back rb |>).
Proof.
  intros Hw. pose proof (size_pos _ (wf_ring _ Hw)). destruct Hw as [W1 W2 W3 W4 W5 W6 W7 W8 W9 W10].
  split; try done; change (size (rb <| front := back rb |>)) with (size rb); simpl;
    [by apply (ring_ok_same rb)|lia..].
Qed.

Lemma set_front_wf rb p :
  rblob_wf rb -> pos (back rb) <= p <= pos (back rb) + size rb -> p + size rb < 2 ^ 63 ->
  (unit_size | p) -> rblob_wf (set_front p rb).
Proof. intros [W1 W2 W3 W4 W5 W6 W7 W8 W9 W10] Hp Ht Hu. split; try done; [by apply (ring_ok_same rb)|change (size (set_front p rb)) with (size rb); simpl; lia..]. Qed.

Lemma dev_wf rb d : rblob_wf rb -> ring_ok (rb <| dev := d |>) -> rblob_wf (rb <| dev := d |>).
Proof. intros [W1 W2 W3 W4 W5 W6 W7 W8 W9 W10] Hr. by split. Qed.

Lemma trim_done_saves rb e rb' :
  rblob_wf rb -> trim_done e rb = (Some 0, rb') -> saved rb' (back rb') (front rb').
Proof.
  intros Hw. unfold trim_done. destruct (truthy e) eqn:Ee; [intros [= -> _]; done|].
  destruct (sync_md rb) as [e1 rb1] eqn:Es. intros [= -> <-]. pose proof (sync_saves _ _ Hw Es) as Hs.
  apply sync_md_spec in Es as (s & d & E & _); [|apply Hw..].
  assert (Eb : back rb1 = back rb /\ front rb1 = front rb) by (by rewrite E). destruct Eb as [-> ->]. exact Hs.
Qed.

(** A trim that succeeds leaves a super block with the ends of the ring. *)
Lemma trim_back_saves rb n rb' :
  rblob_wf rb -> 0 <= n <= used rb -> (unit_size | n) -> trim_back n rb = (Some 0, rb') -> saved rb' (back rb') (front rb').
Proof.
  intros Hw Hn Hu. pose proof (size_pos _ (wf_ring _ Hw)) as Hsz. pose proof (mod_lap _ Hw) as Hm.
  pose proof (used_eq _ Hw) as Eu. pose proof (wf_front _ Hw) as F1. destruct (wf_back _ Hw) as [B1 B2].
  pose proof (Z.mod_pos_bound (pos (front rb)) (size rb) ltac:(lia)).
  destruct (to_end_mod rb (pos (back rb))) as (T1 & T2 & T3); [apply Hw|done|apply Hw|].
  assert (Hto : pos (back rb) mod size rb + pos_to_end rb (pos (back rb)) = size rb)
    by (unfold pos_to_end; change (end_ rb) with (size rb); lia).
  unfold trim_back. change (back_to_end rb) with (pos_to_end rb (pos (back rb))).
  rewrite (proj2 (Z.ltb_ge _ _)) by lia. pose proof (moved_back rb n Hw ltac:(lia) Hu) as Hw0. set (rb0 := rb <| back := _ |>) in *.
  rewrite (wf_back_lba _ Hw). change (pos_to_lba rb (pos (back rb))) with (pos_to_lba rb0 (pos (back rb))).
  destruct (negb (is_rolled rb) || _) eqn:Hc.
  - destruct (unmap _ n rb0) as [e rb1] eqn:E. apply unmap_run in E as (d & -> & R1 & _);
      [|apply Hw0|done|apply Hw|done|lia|change (size rb0) with (size rb)].
    + intros Ed. eapply trim_done_saves; [|exact Ed]. by apply dev_wf.
    + apply orb_true_iff in Hc as [Hc|Hc]; [apply negb_true_iff in Hc; rewrite Hc in Hm; lia|apply Z.ltb_lt in Hc; lia].
  - apply orb_false_iff in Hc as [Hc1 Hc2]. apply negb_false_iff in Hc1. apply Z.ltb_ge in Hc2. rewrite Hc1 in Hm.
    destruct (unmap _ _ rb0) as [e rb1] eqn:E. apply unmap_run in E as (d & -> & R1 & _);
      [|apply Hw0|done|apply Hw|done|lia|change (size rb0) with (size rb); lia].
    destruct (truthy e); [by intros [=]|]. set (rb1 := rb0 <| dev := d |>) in *.
    assert (El : pos_to_lba rb1 0 = pos_to_lba rb1 (pos (back rb) + pos_to_end rb (pos (back rb)))) by (apply (lba_mod rb); by rewrite T3).
    rewrite El. destruct (unmap _ _ rb1) as [e2 rb2] eqn:E2. apply unmap_run in E2 as (d2 & -> & R2 & _);
      [|done|lia|by apply Z.divide_add_r; [apply Hw|]|by apply Z.divide_sub_r|lia|change (size rb1) with (size rb); rewrite T3; lia].
    intros Ed. eapply trim_done_saves; [|exact Ed]. apply dev_wf; [by apply dev_wf|done].
Qed.

(** ** The contract *)

Inductive rblob_op :=
| OpAppend (bl : list Z)
| OpRead (start length : Z)
| OpTrimBack (n : Z)
| OpTrimFront (n : Z).

Definition exec_op (op : rblob_op) rb : option Z * list Z * rolling_blob B :=
  match op with
  | OpAppend bl => let '(r, rb) := append bl rb in (fst <$> r, [], rb)
  | OpRead start length =>
      let '(r, bl) := read start length (replicate (Z.to_nat length) 0) false rb in (fst <$> r, bl, rb)
  | OpTrimBack n => let '(r, rb) := trim_back n rb in (r, [], rb)
  | OpTrimFront n => let '(r, rb) := trim_front n rb in (r, [], rb)
  end.

(** Whole units; reads of what is there; and the end of 64 bits out of reach. *)
Definition op_ok (op : rblob_op) rb : Prop :=
  match op with
  | OpAppend bl =>
      (unit_size | Z.of_nat (List.length bl)) /\ bl <> [] /\
      pos (front rb) + Z.of_nat (List.length bl) + size rb < 2 ^ 63
  | OpRead start length =>
      (unit_size | start) /\ (unit_size | length) /\
      pos (back rb) <= start /\ 0 <= length /\ start + length <= pos (front rb)
  | OpTrimBack n | OpTrimFront n => (unit_size | n) /\ 0 <= n
  end.

(** There is room for what is appended, and as much as is trimmed. *)
Definition op_fits (op : rblob_op) rb : Prop :=
  match op with
  | OpAppend bl => Z.of_nat (List.length bl) <= available rb
  | OpRead _ _ => True
  | OpTrimBack n | OpTrimFront n => n <= used rb
  end.

(** On positions [back, front) of a stream of bytes. *)
Definition op_spec (op : rblob_op) rb (out : list Z) rb' : Prop :=
  match op with
  | OpAppend bl => appended rb bl rb' /\ kept rb rb'
  | OpRead start length => rb' = rb /\ out = stream rb <$> seqZ start length
  | OpTrimBack n =>
      pos (back rb') = pos (back rb) + n /\ pos (front rb') = pos (front rb) /\ kept rb rb'
  | OpTrimFront n =>
      pos (back rb') = pos (back rb) /\ pos (front rb') = pos (front rb) - n /\
      forall q, pos (back rb) <= q < pos (front rb') -> stream rb' q = stream rb q
  end.

Definition reliable : Prop :=
  forall (b : B) bl l n, fst (spdk_blob_io_writev b bl l n) = 0 /\ fst (spdk_blob_io_readv b l n) = 0 /\
    fst (spdk_blob_io_unmap b l n) = 0.

Lemma writev_ok bl start length rb : reliable -> exists rb', writev bl start length rb = (0, rb').
Proof.
  intros Hr. unfold writev. destruct (Hr (dev rb) bl (pos_to_lba rb start / unit_size) (length / unit_size)) as [E _].
  destruct (spdk_blob_io_writev _ _ _ _) as [e d]. simpl in E. subst e. by eexists.
Qed.

Lemma readv_ok start length rb : reliable -> exists bytes, readv start length rb = (0, bytes).
Proof.
  intros Hr. unfold readv. destruct (Hr (dev rb) [] (pos_to_lba rb start / unit_size) (length / unit_size)) as (_ & E & _).
  destruct (spdk_blob_io_readv _ _ _) as [e d]. simpl in E. subst e. by eexists.
Qed.

Lemma unmap_ok l length rb : reliable -> exists rb', unmap l length rb = (0, rb').
Proof.
  intros Hr. unfold unmap. destruct (Hr (dev rb) [] (l / unit_size) (length / unit_size)) as (_ & _ & E).
  destruct (spdk_blob_io_unmap _ _ _) as [e d]. simpl in E. subst e. by eexists.
Qed.

Lemma trim_done_ok rb : reliable -> fst (trim_done 0 rb) = Some 0.
Proof.
  intros Hr. unfold trim_done, sync_md. change (truthy 0) with false. cbv iota.
  set (rb1 := serialize_super rb).
  destruct (Hr (dev rb1) (super rb1) 0 (Z.of_nat (List.length (super rb1)) / unit_size)) as [E _].
  destruct (spdk_blob_io_writev _ _ _ _) as [e d]. simpl in *. by rewrite E.
Qed.

Lemma exec_ok op rb : reliable -> rblob_wf rb -> op_ok op rb -> op_fits op rb -> fst (fst (exec_op op rb)) = Some 0.
Proof.
  intros Hr Hw Hok Hf. destruct op as [bl|start length|n|n]; simpl in *.
  - unfold append. rewrite (proj2 (Z.ltb_ge _ _)) by lia. destruct (is_rolled rb || _).
    + edestruct writev_ok as [rb1 ->]; done.
    + edestruct writev_ok as [rb1 ->]; [done|]. simpl. edestruct writev_ok as [rb2 ->]; done.
  - destruct Hok as (_ & _ & H1 & H2 & H3). pose proof (used_eq _ Hw). unfold read.
    rewrite (proj2 (Z.ltb_ge start _)), (proj2 (Z.ltb_ge (used rb) length)) by lia. simpl.
    destruct (need_roll rb start length).
    + edestruct readv_ok as [b1 ->]; [done|]. simpl. by edestruct readv_ok as [b2 ->].
    + by edestruct readv_ok as [b1 ->].
  - unfold trim_back. rewrite (proj2 (Z.ltb_ge _ _)) by lia. destruct (negb _ || _).
    + edestruct unmap_ok as [rb1 ->]; [done|]. pose proof (trim_done_ok rb1 Hr). by destruct (trim_done 0 rb1).
    + edestruct unmap_ok as [rb1 ->]; [done|]. simpl. edestruct unmap_ok as [rb2 ->]; [done|].
      pose proof (trim_done_ok rb2 Hr). by destruct (trim_done 0 rb2).
  - unfold trim_front. rewrite (proj2 (Z.ltb_ge _ _)) by lia. destruct (negb _ || _).
    + edestruct unmap_ok as [rb1 ->]; [done|]. pose proof (trim_done_ok rb1 Hr). by destruct (trim_done 0 rb1).
    + edestruct unmap_ok as [rb1 ->]; [done|]. simpl. edestruct unmap_ok as [rb2 ->]; [done|].
      pose proof (trim_done_ok rb2 Hr). by destruct (trim_done 0 rb2).
Qed.


End ring.
(** ** After an error *)

Section errors.
Context `{BlobIo B}.
Implicit Types rb : rolling_blob B.

Lemma stalled_front rb k off :
  k < off -> inflight_rw rb = [(k, false); (off, false)] ->
  pos (front (maybe_advance_front off rb)) = pos (front rb).
Proof.
  intros Hk E. unfold maybe_advance_front. rewrite E. simpl. by rewrite (proj2 (Z.eqb_neq k off)) by lia.
Qed.

Lemma writev_same bl start length rb :
  exists e d, writev bl start length rb = (e, rb <| dev := d |>).
Proof. unfold writev. destruct (spdk_blob_io_writev _ _ _ _) as [e d]. by exists e, d. Qed.

(** What an append that fits does, whatever the device does. *)
Lemma append_outcome rb bl :
  Z.of_nat (List.length bl) <= available rb ->
  exists r d start n e, start + n = pos (front rb) + Z.of_nat (List.length bl) /\
    let rb1 := rb <| inflight_rw ::= emplace (pos (front rb) + Z.of_nat (List.length bl)) |> <| dev := d |> in
    append bl rb = r /\ (r = (None, rb1) \/ r = write_done start n e rb1).
Proof.
  intros Hf. unfold append. rewrite (proj2 (Z.ltb_ge _ _)) by lia. destruct (is_rolled rb || _).
  - edestruct writev_same as (e & d & ->). do 2 eexists. exists (pos (front rb)), (Z.of_nat (List.length bl)), e.
    split; [done|]. split; [done|]. by right.
  - replace (pos (front rb) + front_to_end rb + (Z.of_nat (List.length bl) - front_to_end rb))
      with (pos (front rb) + Z.of_nat (List.length bl)) by lia.
    edestruct writev_same as (e & d & ->). destruct (truthy e).
    + do 2 eexists. exists (pos (front rb)), (Z.of_nat (List.length bl)), e. split; [done|]. split; [done|]. by left.
    + edestruct writev_same as (e2 & d2 & ->). do 2 eexists.
      exists (pos (front rb) + front_to_end rb), (Z.of_nat (List.length bl) - front_to_end rb), e2.
      split; [lia|]. split; [done|]. by right.
Qed.

(** After one append that the device has refused, a longer append reports success
    and leaves [front] where it was: the next one overwrites it. *)
Theorem failed_append_stalls_front (rb rb1 rb2 : rolling_blob B) bl1 bl2 r1 x :
  inflight_rw rb = [] -> Z.of_nat (List.length bl1) <= available rb ->
  append bl1 rb = (r1, rb1) -> (forall y, r1 <> Some (0, y)) ->
  (List.length bl1 < List.length bl2)%nat -> append bl2 rb1 = (Some (0, x), rb2) ->
  pos (front rb2) = pos (front rb).
Proof.
  intros Hi Hf E1 Hr Hlt E2.
  destruct (append_outcome rb bl1 Hf) as (r & d & start & n & e & _ & Er & Ho). rewrite E1 in Er. subst r.
  assert (Hrb1 : rb1 = rb <| inflight_rw ::= emplace (pos (front rb) + Z.of_nat (List.length bl1)) |> <| dev := d |>).
  { destruct Ho as [Ho|Ho]; [by injection Ho|]. unfold write_done in Ho. destruct (truthy e); [by injection Ho|].
    injection Ho as -> _. by destruct (Hr {| start_pos := start; len := n |}). }
  assert (Hi1 : inflight_rw rb1 = [(pos (front rb) + Z.of_nat (List.length bl1), false)]) by (subst rb1; simpl; by rewrite Hi).
  assert (Hf1 : pos (front rb1) = pos (front rb)) by by subst rb1.
  destruct (decide (Z.of_nat (List.length bl2) <= available rb1)) as [Hf2|Hf2];
    [|unfold append in E2; rewrite (proj2 (Z.ltb_lt _ _)) in E2 by lia; done].
  destruct (append_outcome rb1 bl2 Hf2) as (r & d2 & start2 & n2 & e2 & Es & Er & Ho2). rewrite E2 in Er. subst r.
  destruct Ho2 as [Ho2|Ho2]; [done|]. unfold write_done in Ho2.
  unfold truthy in Ho2. destruct (Z.eqb_spec e2 0); simpl in Ho2; [|injection Ho2; congruence].
  injection Ho2 as _ ->. rewrite Es, <- Hf1.
  etransitivity; [apply (stalled_front _ (pos (front rb1) + Z.of_nat (List.length bl1))); [lia|]|done].
  simpl. rewrite Hi1, Hf1. simpl. rewrite (proj2 (Z.ltb_ge _ _)), (proj2 (Z.eqb_neq _ _)) by lia. done.
Qed.

End errors.

(** ** A device in memory

    The first writes and unmaps have the results in [faults]. *)
Record mem_dev := { cells : gmap Z Z; cap : Z; faults : list Z }.

Definition mem_put (d : mem_dev) (l : Z) (bl : list Z) : Z * mem_dev :=
  let e := hd 0 (faults d) in
  (e, {| cells := if truthy e then cells d else ObjectStore.put_bytes (l * unit_size) bl (cells d);
         cap := cap d; faults := tl (faults d) |}).

Definition mem_byte (d : mem_dev) (o : Z) : Z := default 0 (cells d !! o).

#[export] Instance mem_dev_io : BlobIo mem_dev := {|
  spdk_blob_io_writev d bl l n := mem_put d l bl;
  spdk_blob_io_readv d l n := (0, mem_byte d <$> seqZ (l * unit_size) (n * unit_size));
  spdk_blob_io_unmap d l n := mem_put d l (replicate (Z.to_nat (n * unit_size)) 0);
|}.

Lemma mem_put_law d l bl n e d' :
  mem_put d l bl = (e, d') -> Z.of_nat (List.length bl) = n * unit_size ->
  cap d' = cap d /\
  (forall o, ~ (l * unit_size <= o < (l + n) * unit_size) -> mem_byte d' o = mem_byte d o) /\
  (e = 0 -> forall i, 0 <= i < n * unit_size -> mem_byte d' (l * unit_size + i) = nth (Z.to_nat i) bl 0).
Proof.
  intros [= <- <-] Hl. unfold mem_byte. simpl. split; [done|]. split.
  - intros o Ho. destruct (truthy _); [done|]. by rewrite ObjectStore.put_bytes_lookup, decide_False by lia.
  - intros -> i Hi. simpl. rewrite ObjectStore.put_bytes_lookup, decide_True by lia.
    replace (l * unit_size + i - l * unit_size) with i by lia. by rewrite nth_lookup.
Qed.

#[export, refine] Instance mem_dev_laws : BlobIoLaws mem_dev := {| data := mem_byte; units := cap |}.
Proof.
  - intros d bl l n e d' E _ _ _ Hl. by apply mem_put_law.
  - intros d l n bytes [= <-] _ _ _. done.
  - intros d l n e d' E _ Hn _. apply (mem_put_law _ _ _ n) in E; [by destruct E as (? & ? & _)|].
    rewrite length_replicate. unfold unit_size in *. lia.
Defined.

(** A ring of four units, of which the last one is free and follows the front. *)
Definition small_ring (faults_ : list Z) : rolling_blob mem_dev :=
  {| blob_size := 6144; front := {| pos := 1536; lba := 5632 |}; back := {| pos := 512; lba := 4608 |};
     super := replicate 4096 0; inflight_rw := []; dev := {| cells := ∅; cap := 12; faults := faults_ |} |}.

Lemma small_ring_wf l : rblob_wf (small_ring l).
Proof. split; first [done|by split|by exists 1|by exists 3]. Qed.

(** Two units that go around the end of the ring. *)
Definition two_units : list Z := replicate 512 7 ++ replicate 512 8.


(** When the first part of an append fails, the completion function that is called
    is the one that has been moved to the second part. *)
Example failed_first_part_has_no_completion :
  fst (append two_units (small_ring [- EIO])) = None.
Proof. by vm_compute. Qed.

(** Loading goes on at 2048 in a window that ends at 2560: what it reads is cut by the
    stale front instead of the position, and 512 bytes at the back come once more. *)
Example load_reads_more_than_one_turn :
  let rb := small_ring [] in
  pos (back rb) + size rb = 2560 /\
  fst (read 2048 1024 (replicate 1024 0) true rb) = Some (0, {| start_pos := 2048; len := 1024 |}).
Proof. by vm_compute. Qed.

End RollingBlob.
