(* ===== verification/DiskLog.v ===== *)
(** * The log of a placement group on disk (src/localstore/disk_log.h)

    An entry is a page with its header and the pages of its data, appended to a
    rolling blob.  The index of each entry is mapped to where it lies.  The front of
    the log is cut off when raft finds it to be wrong, the back when its entries have
    been applied.

    [_index_map], an ordered map, is the list of its entries in the order of their
    keys.  Operations on the blob run to their end when they are started. *)

From stdpp Require Import list.
From S2P Require Import Prelude Wire Codec RollingBlob.
Import (hints) RollingBlob.

Module DiskLog.
Import RollingBlob Codec.

Definition header_size : Z := 4 * 1024.

Record log_position := { lp_pos : Z; lp_size : Z; lp_term_id : Z }.

Record disk_log (B : Type) := {
  _rblob : rolling_blob B;
  _polls_count : Z;
  _trims_count : Z;
  _lowest_index : Z;
  _trim_index : Z;
  _highest_index : Z;
  _index_map : list (Z * log_position);
}.
Arguments _rblob {B}.
Arguments _polls_count {B}.
Arguments _trims_count {B}.
Arguments _lowest_index {B}.
Arguments _trim_index {B}.
Arguments _highest_index {B}.
Arguments _index_map {B}.

#[export] Instance eta_disk_log B : Eta (disk_log B) := fun d =>
  {| _rblob := _rblob d; _polls_count := _polls_count d; _trims_count := _trims_count d;
     _lowest_index := _lowest_index d; _trim_index := _trim_index d;
     _highest_index := _highest_index d; _index_map := _index_map d |}.

(** ** The map *)

Fixpoint find (k : Z) (m : list (Z * log_position)) : option log_position :=
  match m with
  | [] => None
  | (k', p) :: m => if k =? k' then Some p else find k m
  end.

Fixpoint emplace (k : Z) (p : log_position) (m : list (Z * log_position)) : list (Z * log_position) :=
  match m with
  | [] => [(k, p)]
  | (k', p') :: m' =>
      if k <? k' then (k, p) :: m
      else if k =? k' then m
      else (k', p') :: emplace k p m'
  end.

Definition between (a b : Z) (x : Z * log_position) : bool := (a <=? fst x) && (fst x <=? b).

Definition sizes (m : list (Z * log_position)) : Z := foldr (fun x s => lp_size (snd x) + s) 0 m.

Section ops.
Context `{BlobIo B}.
Implicit Types d : disk_log B.

Definition new_disk_log (rb : rolling_blob B) : disk_log B :=
  {| _rblob := rb; _polls_count := 0; _trims_count := 0; _lowest_index := 1; _trim_index := 1;
     _highest_index := 0; _index_map := [] |}.

Definition maybe_index (i : Z) (p : log_position) d : disk_log B :=
  d <| _highest_index ::= Z.max i |> <| _index_map ::= emplace i p |>.

Definition get_term_id (i : Z) d : Z :=
  match find i (_index_map d) with Some p => lp_term_id p | None => 0 end.

(** [stale] is the page that the pool hands out for the header of an entry. *)
Definition header_page (stale : list Z) (e : log_entry_t) : list Z :=
  _buf (snd (EncodeLogHeader e {| _buf := stale; _used := 0 |})).

Fixpoint idx_pos (p : Z) (entries : list log_entry_t) : list (Z * log_position) :=
  match entries with
  | [] => []
  | e :: entries =>
      (index e, {| lp_pos := p; lp_size := size e + header_size; lp_term_id := term_id e |})
        :: idx_pos (p + (size e + header_size)) entries
  end.

Definition log_append_done (positions : list (Z * log_position)) (rberrno : Z) d : Z * disk_log B :=
  if truthy rberrno then (rberrno, d)
  else (0, foldl (fun d x => maybe_index (fst x) (snd x) d) d positions).

Definition append (stale : log_entry_t -> list Z) (entries : list log_entry_t) d : option Z * disk_log B :=
  let positions := idx_pos (pos (front (_rblob d))) entries in
  let bl := concat ((fun e => header_page (stale e) e ++ data e) <$> entries) in
  let '(r, rb) := RollingBlob.append bl (_rblob d) in
  let d := d <| _rblob := rb |> in
  match r with
  | None => (None, d)
  | Some (e, _) => let '(e, d) := log_append_done positions e d in (Some e, d)
  end.

(** [log_read_done]: a page for the header, and the pages of the data.  Nothing is
    said of a header that cannot be decoded. *)
Fixpoint decode_entries (n : nat) (bl : list Z) : option (list log_entry_t) :=
  match n with
  | O => Some []
  | S n =>
      match fst (DecodeLogHeader {| _buf := take (Z.to_nat header_size) bl; _used := 0 |}) with
      | Got e =>
          let bl := drop (Z.to_nat header_size) bl in
          let len := Z.to_nat (size e / 4096 * 4096) in
          let e := {| term_id := term_id e; index := index e; size := size e; type := type e;
                      meta := meta e; data := take len bl |} in
          cons e <$> decode_entries n (drop len bl)
      | _ => None
      end
  end.

(** The first result is [None] when the completion function of the blob is lost. *)
Definition read (make_buffer_list : Z -> list Z) (start_index end_index : Z) d
    : option Z * option (list log_entry_t) :=
  if end_index <? start_index then (Some (- EINVAL), Some [])
  else
    match find start_index (_index_map d), find end_index (_index_map d) with
    | Some p, Some _ =>
        let sz := sizes (filter (fun x => Is_true (between start_index end_index x)) (_index_map d)) in
        match RollingBlob.read (lp_pos p) sz (make_buffer_list (sz / 4096)) false (_rblob d) with
        | (None, _) => (None, Some [])
        | (Some (e, _), bl) =>
            if truthy e then (Some e, Some [])
            else (Some 0, decode_entries (Z.to_nat (end_index - start_index + 1)) bl)
        end
    | _, _ => (Some (- EINVAL), Some [])
    end.

(** ** Cutting *)

Definition erase (a b : Z) (m : list (Z * log_position)) : list (Z * log_position) :=
  filter (fun x => Is_true (negb (between a b x))) m.

Definition trim_back (start_index end_index : Z) d : option Z * disk_log B :=
  if end_index <? start_index then (Some (- EINVAL), d)
  else
    match find start_index (_index_map d), find end_index (_index_map d) with
    | Some _, Some _ =>
        let trim_length := sizes (filter (fun x => Is_true (between start_index end_index x)) (_index_map d)) in
        let d := d <| _index_map ::= erase start_index end_index |> <| _lowest_index := end_index + 1 |> in
        let '(r, rb) := RollingBlob.trim_back trim_length (_rblob d) in
        (r, d <| _rblob := rb |>)
    | _, _ => (Some (- EINVAL), d)
    end.

Definition truncate (start_index : Z) d : option Z * disk_log B :=
  match find start_index (_index_map d) with
  | None => (Some (- EINVAL), d)
  | Some _ =>
      let trim_length := sizes (filter (fun x => Is_true (start_index <=? fst x)) (_index_map d)) in
      let d := d <| _index_map ::= filter (fun x => Is_true (fst x <? start_index)) |>
                 <| _highest_index := start_index - 1 |> in
      let '(r, rb) := RollingBlob.trim_front trim_length (_rblob d) in
      (r, d <| _rblob := rb |>)
  end.

Definition advance_trim_index (i : Z) d : disk_log B := d <| _trim_index ::= fun x => Z.max x i |>.

(** The position that is nearest to [p] from above, or the last one. *)
Fixpoint get_near_up_index (p : Z) (m : list (Z * log_position)) : Z :=
  match m with
  | [] => 0
  | [(k, _)] => k
  | (k, x) :: m => if p <=? lp_pos x then k else get_near_up_index p m
  end.

(** [should_trim] and [trim_pos] are what the blob computes with floating point
    numbers from how full it is. *)
Definition maybe_trim (should_trim : bool) (trim_pos : Z) d : bool * disk_log B :=
  let d := d <| _polls_count ::= Z.add 1 |> in
  if 1500 + _lowest_index d <? _trim_index d then
    let d := snd (trim_back (_lowest_index d) (_trim_index d - 1000) d) in
    (true, d <| _trims_count ::= Z.add 1 |>)
  else if should_trim then
    let i := get_near_up_index trim_pos (_index_map d) in
    let i := if _trim_index d <? i then _trim_index d else i in
    (false, if negb (i =? 0) then snd (trim_back (_lowest_index d) i d) else d)
  else (false, d).

(** After a snapshot up to [i] has been received. *)
Definition set_index (i : Z) d : option Z * disk_log B :=
  let trim_done d :=
    d <| _lowest_index ::= fun x => Z.max x (i + 1) |> <| _trim_index ::= fun x => Z.max x i |>
      <| _highest_index ::= fun x => Z.max x i |> in
  if bool_decide (_index_map d = []) then (Some 0, trim_done d)
  else
    let '(r, d) := trim_back (_lowest_index d) (_highest_index d) d in
    match r with
    | Some e => (Some e, trim_done d)
    | None => (None, d)
    end.

(** ** Loading

    The fields of a header that loading looks at are read whether or not the rest
    of the page can be decoded. *)
Definition header_fields (page : list Z) : Z * Z * Z :=
  (Wire.le_to_cpu (take 8 page), Wire.le_to_cpu (take 8 (drop 8 page)), Wire.le_to_cpu (take 8 (drop 16 page))).

(** The loop of [check_data], at offset [i] of the [bytes] read and position [p]:
    each turn takes at least a page off [bl], and one that finds none takes it for
    an empty page. *)
Fixpoint check_loop (fuel : nat) (bytes i p : Z) (bl : list Z) d : bool * Z * Z * disk_log B :=
  match fuel with
  | O => (true, i, 0, d)
  | S fuel =>
      if i <? bytes then
        let '(term, idx, sz) := header_fields (take (Z.to_nat header_size) bl) in
        let bl := drop (Z.to_nat header_size) bl in
        if term =? 0 then (false, i, 0, d)
        else if u64 (bytes - i - header_size) <? sz then (true, i, u64 (sz + header_size), d)
        else
          let n := u64 (sz + header_size) in
          check_loop fuel bytes (u64 (i + n)) (u64 (p + n)) (drop (Z.to_nat (sz / 4096 * 4096)) bl)
            (maybe_index idx {| lp_pos := p; lp_size := n; lp_term_id := term |} d)
      else (true, i, 0, d)
  end.

Definition check_data (bl : list Z) (p : Z) d : bool * Z * Z * disk_log B :=
  check_loop (S (List.length bl)) (Z.of_nat (List.length bl)) 0 p bl d.

Definition load_done d : disk_log B :=
  match _index_map d with
  | [] => d
  | (k, _) :: _ => d <| _lowest_index := k |>
  end.

(** [fuel] bounds the number of reads. *)
Definition load (make_buffer_list : Z -> list Z) (fuel : nat) (read_unit : Z) d : option (option Z * disk_log B) :=
  match RollingBlob.load check_data make_buffer_list fuel read_unit d (_rblob d) with
  | None => None
  | Some (None, st, rb) => Some (None, st <| _rblob := rb |>)
  | Some (Some e, st, rb) => Some (Some e, load_done (st <| _rblob := rb |>))
  end.

End ops.
(** ** Entries on the blob *)

Definition entry_bytes (e : log_entry_t) : Z := size e + header_size.

Definition total (es : list log_entry_t) : Z := foldr (fun e s => entry_bytes e + s) 0 es.

Definition entry_ok (e : log_entry_t) : Prop :=
  header_ok e /\ Z.of_nat (List.length (data e)) = size e /\ (4096 | size e) /\
  (List.length (enc_header e) <= Z.to_nat header_size)%nat.

Definition page_ok (h : list Z) (e : log_entry_t) : Prop :=
  List.length h = Z.to_nat header_size /\
  fst (DecodeLogHeader {| _buf := h; _used := 0 |}) = Got (header_of e).

Lemma header_page_ok stale e :
  List.length stale = Z.to_nat header_size -> entry_ok e -> page_ok (header_page stale e) e.
Proof.
  intros Hs (H1 & H2 & H3 & H4).
  destruct (put_get (EncodeLogHeader e) DecodeLogHeader (header_of e) (enc_header e) {| _buf := stale; _used := 0 |})
    as (b1 & E & El & Eg); [apply EncodeLogHeader_puts|by apply DecodeLogHeader_gets|unfold buf_size; cbn [_buf]; lia|].
  unfold header_page. change (reset _) with {| _buf := stale; _used := 0 |} in E. rewrite E.
  split; [simpl in *; congruence|exact Eg].
Qed.

Lemma entry_bytes_pos e : entry_ok e -> 4096 <= entry_bytes e /\ (unit_size | entry_bytes e).
Proof.
  intros (_ & H2 & H3 & _). unfold entry_bytes, header_size. split; [lia|].
  apply Z.divide_add_r; [|by exists 8]. eapply Z.divide_trans; [|done]. by exists 8.
Qed.

Lemma total_app a b : total (a ++ b) = total a + total b.
Proof. induction a as [|e a IH]; simpl; lia. Qed.

Lemma total_pos es : Forall entry_ok es -> 0 <= total es /\ (unit_size | total es).
Proof.
  induction 1 as [|e es He _ [IH1 IH2]]; simpl; [split; [lia|by exists 0]|].
  destruct (entry_bytes_pos e He). split; [lia|by apply Z.divide_add_r].
Qed.

Lemma total_le_length es : Forall entry_ok es -> Z.of_nat (List.length es) <= total es.
Proof. induction 1 as [|e es He _ IH]; simpl; [lia|]. destruct (entry_bytes_pos e He). lia. Qed.

Lemma idx_pos_app p a b : idx_pos p (a ++ b) = idx_pos p a ++ idx_pos (p + total a) b.
Proof.
  revert p. induction a as [|e a IH]; intros p; simpl; [by rewrite Z.add_0_r|].
  rewrite IH. unfold entry_bytes. do 3 f_equal. lia.
Qed.

Lemma idx_pos_keys p es : (idx_pos p es).*1 = index <$> es.
Proof. revert p. induction es as [|e es IH]; intros p; simpl; [done|]. by rewrite IH. Qed.

Lemma sizes_idx_pos p es : sizes (idx_pos p es) = total es.
Proof. revert p. induction es as [|e es IH]; intros p; simpl; [done|]. unfold entry_bytes. by rewrite IH. Qed.

Lemma filter_idx_pos (f : Z -> bool) p es b :
  Forall (fun e => f (index e) = b) es ->
  filter (fun x => Is_true (f (fst x))) (idx_pos p es) = if b then idx_pos p es else [].
Proof.
  intros Hf. revert p. induction Hf as [|e es He _ IH]; intros p; simpl; [by destruct b|].
  rewrite filter_cons. cbn [fst]. rewrite He. destruct b; simpl; rewrite IH; done.
Qed.

Lemma find_app k a b : find k (a ++ b) = match find k a with Some p => Some p | None => find k b end.
Proof. induction a as [|[k' p] a IH]; simpl; [done|]. by destruct (k =? k'). Qed.

Lemma find_none k m : Forall (fun x => fst x <> k) m -> find k m = None.
Proof.
  induction 1 as [|[k' p] m Hk _ IH]; simpl; [done|]. simpl in Hk. by rewrite (proj2 (Z.eqb_neq k k')) by done.
Qed.

Lemma emplace_last k p m : Forall (fun x => fst x < k) m -> emplace k p m = m ++ [(k, p)].
Proof.
  induction 1 as [|[k' p'] m Hk _ IH]; simpl; [done|]. simpl in Hk.
  rewrite (proj2 (Z.ltb_ge _ _)), (proj2 (Z.eqb_neq _ _)) by lia. by rewrite IH.
Qed.

(** Entries whose indices follow each other. *)
Definition consecutive (i : Z) (es : list log_entry_t) : Prop := index <$> es = seqZ i (Z.of_nat (List.length es)).

Lemma consecutive_app i a b :
  consecutive i (a ++ b) <-> consecutive i a /\ consecutive (i + Z.of_nat (List.length a)) b.
Proof.
  unfold consecutive. rewrite fmap_app, length_app, Nat2Z.inj_add, seqZ_app by lia. split; [|intros [-> ->]; done].
  intros E. apply app_inj_1 in E; [done|]. rewrite length_fmap, length_seqZ. lia.
Qed.

Lemma consecutive_range i es :
  consecutive i es -> Forall (fun e => i <= index e < i + Z.of_nat (List.length es)) es.
Proof.
  unfold consecutive. intros E. apply Forall_forall. intros e He.
  assert (Hx : index e ∈ seqZ i (Z.of_nat (List.length es))) by (rewrite <- E; by apply list_elem_of_fmap_2).
  apply elem_of_seqZ in Hx. lia.
Qed.

Section refinement.
Context `{BlobIoLaws B}.
Implicit Types d : disk_log B.
Implicit Types rb : rolling_blob B.

(** The entries lie one after the other from position [p] on. *)
Fixpoint lies rb (p : Z) (es : list log_entry_t) : Prop :=
  match es with
  | [] => True
  | e :: es =>
      (exists h, page_ok h e /\ stream rb <$> seqZ p (entry_bytes e) = h ++ data e) /\
      lies rb (p + entry_bytes e) es
  end.

Lemma lies_ext rb rb' p es :
  Forall entry_ok es -> (forall q, p <= q < p + total es -> stream rb' q = stream rb q) -> lies rb p es -> lies rb' p es.
Proof.
  intros Hes. revert p. induction Hes as [|e es He Hes IH]; intros p Hq; simpl in *; [done|].
  destruct (entry_bytes_pos e He), (total_pos es Hes). intros [(h & Hh & E) Hl]. split.
  - exists h. split; [done|]. rewrite <- E. apply list_fmap_ext. intros i q Hi.
    apply lookup_seqZ in Hi as [-> Hi]. apply Hq. lia.
  - apply IH; [|done]. intros q Hq'. apply Hq. lia.
Qed.

Lemma lies_app rb p a b : lies rb p (a ++ b) <-> lies rb p a /\ lies rb (p + total a) b.
Proof.
  revert p. induction a as [|e a IH]; intros p; simpl; [rewrite Z.add_0_r; tauto|].
  rewrite IH, Z.add_assoc. tauto.
Qed.

(** What is read back. *)
Lemma decode_lies rb p es :
  Forall entry_ok es -> lies rb p es ->
  decode_entries (List.length es) (stream rb <$> seqZ p (total es)) = Some es.
Proof.
  intros Hes. revert p. induction Hes as [|e es He Hes IH]; intros p; simpl; [done|].
  intros [(h & [Hh1 Hh2] & E) Hl]. destruct (entry_bytes_pos e He), (total_pos es Hes).
  rewrite seqZ_app, fmap_app, E by lia. rewrite <- app_assoc.
  rewrite take_app_length', drop_app_length', Hh2 by done.
  destruct He as (_ & Hd1 & Hd2 & _).
  assert (El : Z.to_nat (size (header_of e) / 4096 * 4096) = List.length (data e)).
  { simpl. destruct Hd2 as [x Hx]. rewrite Hx, Z.div_mul by done. lia. }
  rewrite El, take_app_length, drop_app_length, IH by done. by destruct e.
Qed.

Record log_ok d (es : list log_entry_t) : Prop := {
  lo_ring : rblob_wf (_rblob d);
  lo_entries : Forall entry_ok es;
  lo_index : consecutive (_lowest_index d) es;
  lo_map : _index_map d = idx_pos (pos (back (_rblob d))) es;
  lo_highest : _highest_index d = _lowest_index d + Z.of_nat (List.length es) - 1;
  lo_front : pos (front (_rblob d)) = pos (back (_rblob d)) + total es;
  lo_bytes : lies (_rblob d) (pos (back (_rblob d))) es;
}.

(** *** Appending *)

Lemma index_all d es p new :
  _index_map d = idx_pos p es -> consecutive (_lowest_index d) (es ++ new) ->
  _highest_index d = _lowest_index d + Z.of_nat (List.length es) - 1 ->
  let d' := foldl (fun d x => maybe_index (fst x) (snd x) d) d (idx_pos (p + total es) new) in
  _rblob d' = _rblob d /\ _lowest_index d' = _lowest_index d /\
  _index_map d' = idx_pos p (es ++ new) /\
  _highest_index d' = _lowest_index d + Z.of_nat (List.length (es ++ new)) - 1.
Proof.
  revert d es. induction new as [|e new IH]; intros d es Em Hc Eh; cbn [idx_pos foldl].
  { rewrite app_nil_r. done. }
  rewrite cons_middle, app_assoc in Hc. pose proof (proj1 (consecutive_app _ _ _) Hc) as [Hc1 _].
  apply consecutive_app in Hc1 as [Hc1 Hc2]. apply consecutive_range in Hc1, Hc2.
  inversion Hc2 as [|? ? Hi _]; subst. simpl in Hi.
  set (d1 := maybe_index _ _ d).
  assert (Em1 : _index_map d1 = idx_pos p (es ++ [e])).
  { unfold d1. simpl. rewrite Em, emplace_last, idx_pos_app; [done|].
    apply (Forall_fmap fst (fun i => i < index e)). rewrite idx_pos_keys. apply Forall_fmap.
    eapply Forall_impl; [exact Hc1|]. simpl. intros x Hx. lia. }
  assert (Eh1 : _highest_index d1 = _lowest_index d + Z.of_nat (List.length (es ++ [e])) - 1).
  { unfold d1. simpl. rewrite Eh, length_app. simpl. lia. }
  destruct (IH d1 (es ++ [e]) Em1 Hc Eh1) as (R1 & R2 & R3 & R4).
  rewrite total_app in R1, R2, R3, R4. simpl in R1, R2, R3, R4. rewrite Z.add_0_r in R1, R2, R3, R4.
  unfold entry_bytes in *. rewrite <- !Z.add_assoc, <- !app_assoc in *. done.
Qed.

Lemma lies_new rb stale p es :
  Forall entry_ok es -> (forall e, e ∈ es -> List.length (stale e) = Z.to_nat header_size) ->
  let bl := concat ((fun e => header_page (stale e) e ++ data e) <$> es) in
  (forall i, 0 <= i < Z.of_nat (List.length bl) -> stream rb (p + i) = nth (Z.to_nat i) bl 0) ->
  Z.of_nat (List.length bl) = total es /\ lies rb p es.
Proof.
  intros Hes. revert p. induction Hes as [|e es He Hes IH]; intros p Hst bl Hq; [done|].
  assert (Hp : page_ok (header_page (stale e) e) e) by (apply header_page_ok; [apply Hst; left|done]).
  set (x := header_page (stale e) e ++ data e).
  assert (Hx : Z.of_nat (List.length x) = entry_bytes e).
  { unfold x. rewrite length_app, (proj1 Hp). destruct He as (_ & E & _). unfold entry_bytes, header_size in *. lia. }
  set (bl' := concat ((fun e => header_page (stale e) e ++ data e) <$> es)) in IH.
  assert (Eb : bl = x ++ bl') by done. clearbody bl. subst bl. rewrite length_app, Nat2Z.inj_add in *.
  destruct (IH (p + entry_bytes e)) as [L1 L2].
  - intros e' He'. apply Hst. by right.
  - intros i Hi. replace (p + entry_bytes e + i) with (p + (entry_bytes e + i)) by lia. rewrite Hq by lia.
    rewrite app_nth2 by lia. f_equal. lia.
  - simpl. split; [lia|]. split; [|done]. exists (header_page (stale e) e). split; [done|].
    apply list_eq. intros i. rewrite list_lookup_fmap. fold x. destruct (decide (Z.of_nat i < entry_bytes e)).
    + rewrite lookup_seqZ_lt by done. simpl. rewrite Hq by lia. rewrite Nat2Z.id, app_nth1 by lia.
      destruct (lookup_lt_is_Some_2 x i) as [y Hy]; [lia|]. rewrite Hy. f_equal. by apply nth_lookup_Some.
    + rewrite lookup_seqZ_ge by lia. simpl. symmetry. apply lookup_ge_None. lia.
Qed.

Lemma length_appended stale new :
  Forall entry_ok new -> (forall e, e ∈ new -> List.length (stale e) = Z.to_nat header_size) ->
  Z.of_nat (List.length (concat ((fun e => header_page (stale e) e ++ data e) <$> new))) = total new.
Proof.
  intros Hnew Hst. induction Hnew as [|e es He Hes IH]; [done|].
  cbn [fmap list_fmap concat]. rewrite length_app, Nat2Z.inj_add, IH by (intros; apply Hst; by right).
  rewrite length_app, (proj1 (header_page_ok (stale e) e ltac:(apply Hst; left) He)).
  destruct He as (_ & E & _). change (total (e :: es)) with (entry_bytes e + total es).
  unfold entry_bytes, header_size. rewrite <- E. lia.
Qed.

Lemma disk_append_spec d es stale new d' :
  log_ok d es -> new <> [] -> Forall entry_ok new -> consecutive (_highest_index d + 1) new ->
  (forall e, e ∈ new -> List.length (stale e) = Z.to_nat header_size) ->
  pos (front (_rblob d)) + total new + RollingBlob.size (_rblob d) < 2 ^ 63 ->
  append stale new d = (Some 0, d') -> log_ok d' (es ++ new) /\ _lowest_index d' = _lowest_index d.
Proof.
  intros Hok Hne Hnew Hc Hst Htop. unfold append.
  set (bl := concat _). destruct (RollingBlob.append bl (_rblob d)) as [r rb] eqn:E.
  set (d1 := d <| _rblob := rb |>). destruct r as [[e x]|]; [|done]. unfold log_append_done, truthy.
  destruct (Z.eqb_spec e 0) as [->|]; cbn [negb]; [|by intros [=]]. intros Ed.
  assert (Ed' : d' = foldl (fun d x => maybe_index (fst x) (snd x) d) d1 (idx_pos (pos (front (_rblob d))) new)) by congruence.
  clear Ed. subst d'.
  assert (Hbl : Z.of_nat (List.length bl) = total new) by by apply length_appended.
  destruct (total_pos new Hnew) as [T1 T2].
  assert (Hb0 : bl <> []).
  { intros E0. rewrite E0 in Hbl. pose proof (total_le_length new Hnew). destruct new; [done|]. simpl in *. lia. }
  apply ring_append_spec in E as (K1 & K2 & K3 & K4); [|apply Hok|by rewrite Hbl|done|by rewrite Hbl].
  destruct (K4 x eq_refl) as (W & A1 & A2 & A3). rewrite Hbl in A2.
  assert (Hc' : consecutive (_lowest_index d) (es ++ new)).
  { apply consecutive_app. split; [apply Hok|]. rewrite (lo_highest _ _ Hok) in Hc.
    replace (_ + _ - 1 + 1) with (_lowest_index d + Z.of_nat (List.length es)) in Hc by lia. done. }
  destruct (index_all d1 es (pos (back (_rblob d))) new) as (R1 & R2 & R3 & R4); [apply Hok|done|apply Hok|].
  rewrite <- (lo_front _ _ Hok) in R1, R2, R3, R4.
  change (_rblob d1) with rb in *. change (_lowest_index d1) with (_lowest_index d) in *. split; [|exact R2].
  split; rewrite ?R1, ?R2, ?R3; try done.
  - apply Forall_app. split; [apply Hok|done].
  - by rewrite A1.
  - rewrite A2, A1, total_app, (lo_front _ _ Hok). lia.
  - rewrite A1. apply lies_app. split.
    + apply (lies_ext (_rblob d)); [apply Hok| |apply Hok]. intros q Hq. apply K1. rewrite A1, (lo_front _ _ Hok). lia.
    + rewrite <- (lo_front _ _ Hok). by apply (lies_new rb stale).
Qed.

(** *** Parts of the log *)

Lemma between_out a b i es :
  consecutive i es -> i + Z.of_nat (List.length es) <= a \/ b < i -> Forall (fun e => (a <=? index e) && (index e <=? b) = false) es.
Proof.
  intros Hc Ho. apply consecutive_range in Hc. eapply Forall_impl; [exact Hc|]. simpl. intros e He. zsolve.
Qed.

Lemma between_in a b i es :
  consecutive i es -> a <= i -> i + Z.of_nat (List.length es) <= b + 1 ->
  Forall (fun e => (a <=? index e) && (index e <=? b) = true) es.
Proof.
  intros Hc Ha Hb. apply consecutive_range in Hc. eapply Forall_impl; [exact Hc|]. simpl. intros e He. zsolve.
Qed.

(** The three parts of a log at two of its indices. *)
Lemma parts d es a b :
  log_ok d es -> _lowest_index d <= a -> a <= b -> b <= _highest_index d ->
  exists x m y, es = x ++ m ++ y /\ m = take (Z.to_nat (b - a + 1)) (drop (Z.to_nat (a - _lowest_index d)) es) /\
    a = _lowest_index d + Z.of_nat (List.length x) /\ b + 1 = a + Z.of_nat (List.length m) /\
    consecutive (_lowest_index d) x /\ consecutive a m /\ consecutive (b + 1) y.
Proof.
  intros Hok Ha Hab Hb. rewrite (lo_highest _ _ Hok) in Hb. pose proof (lo_index _ _ Hok) as Hc.
  set (x := take (Z.to_nat (a - _lowest_index d)) es).
  set (m := take (Z.to_nat (b - a + 1)) (drop (Z.to_nat (a - _lowest_index d)) es)).
  set (y := drop (Z.to_nat (b - a + 1)) (drop (Z.to_nat (a - _lowest_index d)) es)).
  assert (E : es = x ++ m ++ y) by (unfold x, m, y; by rewrite !take_drop).
  assert (Lx : Z.of_nat (List.length x) = a - _lowest_index d) by (unfold x; rewrite length_take; lia).
  assert (Lm : Z.of_nat (List.length m) = b - a + 1) by (unfold m; rewrite length_take, length_drop; lia).
  rewrite E in Hc. apply consecutive_app in Hc as [C1 Hc]. apply consecutive_app in Hc as [C2 C3].
  exists x, m, y. rewrite Lx, Lm in *.
  replace (_lowest_index d + (a - _lowest_index d)) with a in * by lia.
  replace (a + (b - a + 1)) with (b + 1) in * by lia. done.
Qed.

Lemma find_in p i es k :
  consecutive i es -> i <= k < i + Z.of_nat (List.length es) ->
  exists x, find k (idx_pos p es) = Some x /\ (k = i -> lp_pos x = p).
Proof.
  revert p i. induction es as [|e es IH]; intros p i Hc Hk; simpl in Hk; [lia|].
  apply (consecutive_app i [e] es) in Hc as [Hc1 Hc2]. simpl in Hc2. injection Hc1 as Ei.
  simpl. destruct (Z.eqb_spec k (index e)); [by eexists|].
  destruct (IH (p + (size e + header_size)) (i + 1) Hc2) as (x & Ex & _); [simpl in *; lia|].
  exists x. split; [done|]. lia.
Qed.

Lemma idx_pos_out k p i es :
  consecutive i es -> k < i \/ i + Z.of_nat (List.length es) <= k -> find k (idx_pos p es) = None.
Proof.
  intros Hc Hk. apply find_none. apply (Forall_fmap fst (fun x => x <> k)). rewrite idx_pos_keys. apply Forall_fmap.
  apply consecutive_range in Hc. eapply Forall_impl; [exact Hc|]. simpl. intros e He. lia.
Qed.

Lemma disk_read_spec d es make_buffer_list a b r out :
  log_ok d es -> _lowest_index d <= a -> a <= b -> b <= _highest_index d ->
  (forall n, 0 <= n -> Z.of_nat (List.length (make_buffer_list n)) = n * 4096) ->
  read make_buffer_list a b d = (r, out) -> r = Some 0 ->
  out = Some (take (Z.to_nat (b - a + 1)) (drop (Z.to_nat (a - _lowest_index d)) es)).
Proof.
  intros Hok Ha Hab Hb Hmk.
  destruct (parts d es a b Hok Ha Hab Hb) as (x & m & y & Ees & <- & Lx & Lm & C1 & C2 & C3).
  pose proof (lo_entries _ _ Hok) as He. rewrite Ees in He. apply Forall_app in He as [He1 He2].
  apply Forall_app in He2 as [He2 He3]. destruct (total_pos _ He1) as [Tx Ux], (total_pos _ He2) as [Tm Um], (total_pos _ He3) as [Ty _].
  unfold read. rewrite (proj2 (Z.ltb_ge _ _)) by lia. rewrite (lo_map _ _ Hok), Ees, !idx_pos_app.
  rewrite find_app, (idx_pos_out a _ _ _ C1) by lia. rewrite find_app.
  destruct (find_in (pos (back (_rblob d)) + total x) a m a C2) as (pa & -> & Epa); [lia|].
  rewrite (find_app b), (idx_pos_out b _ _ _ C1), find_app by lia.
  destruct (find_in (pos (back (_rblob d)) + total x) a m b C2) as (pb & -> & _); [lia|].
  rewrite !filter_app. unfold between.
  rewrite (filter_idx_pos (fun i => (a <=? i) && (i <=? b)) _ x false) by (eapply between_out; [exact C1|lia]).
  rewrite (filter_idx_pos (fun i => (a <=? i) && (i <=? b)) _ m true) by (eapply between_in; [exact C2|lia|lia]).
  rewrite (filter_idx_pos (fun i => (a <=? i) && (i <=? b)) _ y false) by (eapply between_out; [exact C3|lia]).
  rewrite app_nil_r, app_nil_l, sizes_idx_pos. rewrite (Epa eq_refl).
  destruct (RollingBlob.read _ _ _ _ _) as [r' bl] eqn:Er. destruct r' as [[e z]|]; [|by intros [= <- <-]].
  unfold truthy. destruct (Z.eqb_spec e 0) as [->|Hne]; simpl; [|intros [= <- <-]; congruence]. intros [= <- <-] _.
  pose proof (lo_bytes _ _ Hok) as Hl. rewrite Ees in Hl. apply lies_app in Hl as [_ Hl]. apply lies_app in Hl as [Hl _].
  assert (D4 : (4096 | total m)).
  { clear -He2. induction He2 as [|e es (_ & _ & Hd & _) _ IH]; simpl; [by exists 0|].
    apply Z.divide_add_r; [|done]. unfold entry_bytes. apply Z.divide_add_r; [done|by exists 1]. }
  apply ring_read_spec in Er; [|apply Hok|apply Z.divide_add_r; [apply Hok|done]|done|lia|done| |].
  - rewrite Er. replace (Z.to_nat (b - a + 1)) with (List.length m) by lia. by apply decode_lies.
  - rewrite (lo_front _ _ Hok), Ees, !total_app. lia.
  - destruct D4 as [k Hk]. rewrite Hk, Z.div_mul, Hmk by lia. done.
Qed.

(** *** Cutting *)

Lemma disk_truncate_spec d es a r d' :
  log_ok d es -> _lowest_index d <= a <= _highest_index d -> truncate a d = (r, d') ->
  log_ok d' (take (Z.to_nat (a - _lowest_index d)) es) /\ _lowest_index d' = _lowest_index d.
Proof.
  intros Hok [Ha Hb]. destruct (parts d es a (_highest_index d) Hok Ha Hb) as (x & m & y & Ees & _ & Lx & Lm & C1 & C2 & _); [lia|].
  assert (y = []) as ->.
  { pose proof (lo_highest _ _ Hok) as Eh. rewrite Ees, !length_app in Eh. destruct y; [done|]. simpl in Eh. lia. }
  rewrite app_nil_r in Ees. subst es. replace (Z.to_nat (a - _lowest_index d)) with (List.length x) by lia. rewrite take_app_length.
  pose proof (lo_entries _ _ Hok) as He. apply Forall_app in He as [He1 He2].
  destruct (total_pos _ He1) as [Tx Ux], (total_pos _ He2) as [Tm Um].
  pose proof (lo_front _ _ Hok) as Hf. rewrite total_app in Hf.
  unfold truncate. rewrite (lo_map _ _ Hok), idx_pos_app, find_app, (idx_pos_out a _ _ _ C1) by lia.
  destruct (find_in (pos (back (_rblob d)) + total x) a m a C2) as (pa & -> & _); [lia|].
  rewrite filter_app, (filter_idx_pos (fun i => a <=? i) _ x false), (filter_idx_pos (fun i => a <=? i) _ m true);
    [|apply consecutive_range in C2; eapply Forall_impl; [exact C2|]; simpl; intros e' He'; zsolve
     |apply consecutive_range in C1; eapply Forall_impl; [exact C1|]; simpl; intros e' He'; zsolve].
  rewrite app_nil_l, sizes_idx_pos. set (d1 := d <| _index_map ::= _ |> <| _highest_index := _ |>).
  change (_rblob d1) with (_rblob d).
  assert (Em : _index_map d1 = idx_pos (pos (back (_rblob d))) x).
  { unfold d1. simpl. rewrite (lo_map _ _ Hok), idx_pos_app, filter_app.
    rewrite (filter_idx_pos (fun i => i <? a) _ x true), (filter_idx_pos (fun i => i <? a) _ m false), app_nil_r; [done|..].
    - apply consecutive_range in C2. eapply Forall_impl; [exact C2|]. simpl. intros e' He'. zsolve.
    - apply consecutive_range in C1. eapply Forall_impl; [exact C1|]. simpl. intros e' He'. zsolve. }
  assert (Hd1 : _lowest_index d1 = _lowest_index d /\ _highest_index d1 = a - 1) by done.
  clearbody d1. destruct Hd1 as [El Eh].
  destruct (trim_front (total m) (_rblob d)) as [r' rb] eqn:E. intros [= <- <-].
  apply ring_trim_front_spec in E as [_ E]; [|apply Hok|done..].
  destruct E as (W & E1 & E2 & E3); [rewrite used_eq by apply Hok; lia|]. split; [|exact El].
  split; cbn [_rblob _lowest_index _highest_index _index_map]; rewrite ?E1, ?Em, ?El, ?Eh; try done.
  - lia.
  - rewrite E2. lia.
  - apply (lies_ext (_rblob d)); [done| |by apply (lies_app _ _ x m), Hok].
    intros q Hq. apply E3. rewrite Hf. lia.
Qed.

Lemma disk_trim_back_spec d es b r d' :
  log_ok d es -> _lowest_index d <= b <= _highest_index d -> trim_back (_lowest_index d) b d = (r, d') ->
  log_ok d' (drop (Z.to_nat (b - _lowest_index d + 1)) es) /\ _lowest_index d' = b + 1.
Proof.
  intros Hok [Ha Hb].
  destruct (parts d es (_lowest_index d) b Hok) as (x & m & y & Ees & _ & Lx & Lm & C1 & C2 & C3); [lia|done..|].
  assert (x = []) as -> by (destruct x; [done|simpl in *; lia]). rewrite app_nil_l in Ees. subst es.
  replace (Z.to_nat (b - _lowest_index d + 1)) with (List.length m) by lia. rewrite drop_app_length.
  pose proof (lo_entries _ _ Hok) as He. apply Forall_app in He as [He1 He2].
  destruct (total_pos _ He1) as [Tm Um], (total_pos _ He2) as [Ty Uy].
  pose proof (lo_front _ _ Hok) as Hf. rewrite total_app in Hf.
  unfold trim_back. rewrite (proj2 (Z.ltb_ge _ _)) by lia. rewrite (lo_map _ _ Hok), idx_pos_app, !find_app.
  destruct (find_in (pos (back (_rblob d))) _ m (_lowest_index d) C2) as (pa & -> & _); [lia|].
  destruct (find_in (pos (back (_rblob d))) _ m b C2) as (pb & -> & _); [lia|].
  assert (Hin : Forall (fun e => (_lowest_index d <=? index e) && (index e <=? b) = true) m)
    by (eapply between_in; [exact C2|lia|lia]).
  assert (Hout : Forall (fun e => (_lowest_index d <=? index e) && (index e <=? b) = false) y)
    by (eapply between_out; [exact C3|lia]).
  rewrite filter_app. unfold between at 1 2.
  rewrite (filter_idx_pos (fun i => (_lowest_index d <=? i) && (i <=? b)) _ m true) by done.
  rewrite (filter_idx_pos (fun i => (_lowest_index d <=? i) && (i <=? b)) _ y false) by done.
  rewrite app_nil_r, sizes_idx_pos. set (d1 := d <| _index_map ::= _ |> <| _lowest_index := _ |>).
  change (_rblob d1) with (_rblob d).
  assert (Em : _index_map d1 = idx_pos (pos (back (_rblob d)) + total m) y).
  { unfold d1, erase. simpl. rewrite (lo_map _ _ Hok), idx_pos_app, filter_app.
    rewrite (filter_idx_pos (fun i => negb ((_lowest_index d <=? i) && (i <=? b))) _ m false)
      by (eapply Forall_impl; [exact Hin|]; simpl; by intros ? ->).
    by rewrite (filter_idx_pos (fun i => negb ((_lowest_index d <=? i) && (i <=? b))) _ y true)
      by (eapply Forall_impl; [exact Hout|]; simpl; by intros ? ->). }
  assert (Hd1 : _lowest_index d1 = b + 1 /\ _highest_index d1 = _highest_index d) by done.
  clearbody d1. destruct Hd1 as [El Eh].
  destruct (RollingBlob.trim_back (total m) (_rblob d)) as [r' rb] eqn:E. intros [= <- <-].
  apply ring_trim_back_spec in E as [_ E]; [|apply Hok|done..].
  destruct E as (W & E1 & E2 & E3); [rewrite used_eq by apply Hok; lia|]. rewrite <- E1 in Em. split; [|exact El].
  pose proof (lo_highest _ _ Hok) as Hh. rewrite length_app in Hh.
  split; cbn [_rblob _lowest_index _highest_index _index_map]; rewrite ?Em, ?El, ?Eh; try done.
  - lia.
  - rewrite E2, E1. lia.
  - apply (lies_ext (_rblob d)); [done| |rewrite E1; by apply (lies_app _ _ m y), Hok].
    intros q Hq. apply E3. rewrite E1 in *. lia.
Qed.

(** *** The contract *)

(** The entry with an index, in a log whose first one has index [lo]. *)
Definition entry_at (lo : Z) (es : list log_entry_t) (i : Z) : option log_entry_t :=
  if decide (lo <= i) then es !! Z.to_nat (i - lo) else None.

Lemma disk_term_spec d es i :
  log_ok d es -> get_term_id i d = from_option term_id 0 (entry_at (_lowest_index d) es i).
Proof.
  intros Hok. unfold get_term_id. rewrite (lo_map _ _ Hok). generalize (pos (back (_rblob d))).
  pose proof (lo_index _ _ Hok) as Hc. revert Hc. generalize (_lowest_index d). clear.
  induction es as [|e es IH]; intros lo Hc p; unfold entry_at; [by destruct (decide _)|].
  apply (consecutive_app lo [e] es) in Hc as [Hc1 Hc2]. injection Hc1 as Ei. simpl in Hc2.
  simpl. destruct (Z.eqb_spec i (index e)) as [->|Hne].
  - by rewrite decide_True, Ei, Z.sub_diag by lia.
  - rewrite (IH (lo + 1) Hc2). unfold entry_at. destruct (decide (lo <= i)).
    + rewrite decide_True by lia. by replace (Z.to_nat (i - lo)) with (S (Z.to_nat (i - (lo + 1)))) by lia.
    + by rewrite decide_False by lia.
Qed.

Lemma disk_set_index_spec d es i r d' :
  log_ok d es -> set_index i d = (r, d') -> r <> None ->
  log_ok d' [] /\ _lowest_index d' = Z.max (_highest_index d + 1) (i + 1).
Proof.
  intros Hok. unfold set_index. pose proof (lo_highest _ _ Hok) as Eh.
  assert (Hend : forall d1 x, log_ok d1 [] -> _lowest_index d1 = x + 1 -> _highest_index d1 = x ->
    let d2 := d1 <| _lowest_index ::= fun x => Z.max x (i + 1) |> <| _trim_index ::= fun x => Z.max x i |>
                 <| _highest_index ::= fun x => Z.max x i |> in
    log_ok d2 [] /\ _lowest_index d2 = Z.max (x + 1) (i + 1)).
  { intros d1 x [A1 A2 A3 A4 A5 A6 A7] El Ex. simpl. split; [|by rewrite El]. split; simpl; try done. lia. }
  case_bool_decide as Hm.
  - intros [= <- <-] _. assert (es = []) as -> by (rewrite (lo_map _ _ Hok) in Hm; by destruct es).
    apply (Hend d (_highest_index d)); [done|simpl in *; lia|done].
  - assert (Hne : es <> []) by (intros ->; by rewrite (lo_map _ _ Hok) in Hm).
    destruct (trim_back _ _ d) as [r1 d1] eqn:E. pose proof E as E0.
    apply (disk_trim_back_spec d es) in E as [Hok1 El]; [|done|destruct es; [done|simpl in *; lia]].
    replace (drop _ es) with (@nil log_entry_t) in Hok1 by (symmetry; apply drop_ge; lia).
    destruct r1 as [e|]; [|by intros [= <- <-]]. intros [= <- <-] _.
    apply (Hend d1 (_highest_index d)); [done|done|]. rewrite (lo_highest _ _ Hok1). simpl. lia.
Qed.

(** *** Loading *)

Lemma GetFixed64_at h u :
  0 <= u -> u + 8 <= Z.of_nat (List.length h) ->
  GetFixed64 {| _buf := h; _used := u |} =
  (Got (Wire.le_to_cpu (take 8 (drop (Z.to_nat u) h))), {| _buf := h; _used := u + 8 |}).
Proof.
  intros H1 H2. unfold GetFixed64, GetFixed, inc.
  assert (Er : remain {| _buf := h; _used := u |} = Z.of_nat (List.length h) - u)
    by (unfold remain, buf_size; simpl; rewrite (proj2 (Z.ltb_lt _ _)) by lia; done).
  rewrite Er, (proj2 (Z.ltb_ge _ _)) by lia. by rewrite Z.min_l by lia.
Qed.

Lemma header_fields_ok h e : page_ok h e -> header_fields h = (term_id e, index e, size e).
Proof.
  intros [Hl Hd]. change (Z.to_nat header_size) with 4096%nat in Hl. unfold DecodeLogHeader, bind_get in Hd.
  rewrite !GetFixed64_at in Hd by lia. unfold header_fields.
  destruct (GetString _) as [[m| |] b]; [|done..]. injection Hd as E1 E2 E3 _ _. by rewrite <- E1, <- E2, <- E3.
Qed.


(** The bytes of a position, and those after [n] of them. *)
Lemma window_split rb p m n :
  0 <= n -> n <= m ->
  stream rb <$> seqZ p m = (stream rb <$> seqZ p n) ++ (stream rb <$> seqZ (p + n) (m - n)).
Proof. intros H1 H2. rewrite <- fmap_app, <- seqZ_app by lia. do 2 f_equal. lia. Qed.

Lemma window_page rb p m :
  4096 <= m -> take (Z.to_nat header_size) (stream rb <$> seqZ p m) = stream rb <$> seqZ p header_size.
Proof.
  intros Hm. rewrite (window_split rb p m header_size) by (unfold header_size; lia).
  apply take_app_length'. by rewrite length_fmap, length_seqZ.
Qed.

(** A page that begins with eight zero bytes ends the log. *)
Definition ends_at rb (p : Z) : Prop := stream rb <$> seqZ p 8 = replicate 8 0.

Lemma page_end rb p : ends_at rb p -> fst (fst (header_fields (stream rb <$> seqZ p header_size))) = 0.
Proof.
  intros He. unfold header_fields. cbn [fst]. rewrite (window_split rb p header_size 8), He by (unfold header_size; lia).
  by rewrite take_app_length'.
Qed.

Lemma page_entry rb p e h :
  entry_ok e -> page_ok h e -> stream rb <$> seqZ p (entry_bytes e) = h ++ data e ->
  header_fields (stream rb <$> seqZ p header_size) = (term_id e, index e, size e).
Proof.
  intros He Hh E. destruct (entry_bytes_pos e He). rewrite <- (header_fields_ok h e Hh). f_equal.
  rewrite <- (window_page rb p (entry_bytes e)), E by done. apply take_app_length'. by destruct Hh.
Qed.

(** Appending keeps the super block. *)
Lemma disk_append_keeps_super d es stale new r d' :
  log_ok d es -> Forall entry_ok new -> (forall e, e ∈ new -> List.length (stale e) = Z.to_nat header_size) ->
  append stale new d = (r, d') ->
  blob_size (_rblob d') = blob_size (_rblob d) /\ super_bytes (_rblob d') = super_bytes (_rblob d).
Proof.
  intros Hok Hnew Hst. unfold append. destruct (RollingBlob.append _ (_rblob d)) as [r1 rb] eqn:E.
  apply append_keeps_super in E; [|apply Hok|rewrite length_appended by done; by apply total_pos].
  assert (Hi : forall ps d1, _rblob (foldl (fun d x => maybe_index (fst x) (snd x) d) d1 ps) = _rblob d1).
  { induction ps as [|x ps IH]; intros d1; simpl; [done|]. by rewrite IH. }
  destruct r1 as [[e x]|]; [|by intros [= <- <-]]. unfold log_append_done.
  destruct (truthy e); intros [= <- <-]; rewrite ?Hi; exact E.
Qed.

(** Writing the super block keeps the log. *)
Lemma sync_keeps_log d es e rb :
  log_ok d es -> sync_md (_rblob d) = (e, rb) -> log_ok (d <| _rblob := rb |>) es.
Proof.
  intros Hok Es. pose proof (lo_ring _ _ Hok) as [W1 W2 W3 W4 W5 W6 W7 W8 W9 W10].
  apply sync_md_spec in Es as (s & b & -> & Hs & Hr & Hq); [|done|done].
  destruct Hok as [A1 A2 A3 A4 A5 A6 A7]. split; simpl; try done.
  apply (lies_ext (_rblob d)); [done|intros q _; apply Hq|done].
Qed.

Definition index_entries d (ps : list (Z * log_position)) : disk_log B :=
  foldl (fun d x => maybe_index (fst x) (snd x) d) d ps.

(** Loading takes the entries that the window holds whole; it stops for good only at
    the end of the log. *)
Lemma check_loop_spec rb es fuel bytes i p d :
  Forall entry_ok es -> Forall (fun e => term_id e <> 0) es -> lies rb p es -> ends_at rb (p + total es) ->
  (4096 | bytes) -> (4096 | i) -> 0 <= i -> i <= bytes -> bytes < 2 ^ 63 ->
  0 <= p -> p + total es < 2 ^ 63 -> (Z.to_nat (bytes - i) < fuel)%nat ->
  exists k b next,
    check_loop fuel bytes i p (stream rb <$> seqZ p (bytes - i)) d =
      (b, i + total (take k es), next, index_entries d (idx_pos p (take k es))) /\
    (k <= List.length es)%nat /\
    if b : bool
    then (next = 0 \/ next = from_option entry_bytes 0 (es !! k)) /\
         bytes - i - total (take k es) < from_option entry_bytes 1 (es !! k)
    else k = List.length es.
Proof.
  intros Hes. revert fuel i p d.
  induction Hes as [|e es Hok Hes IH]; intros [|fuel] i p d Ht Hl He Db Di Hi Hib Hb Hp Htop Hf; try lia; cbn [check_loop];
    (destruct (Z.ltb_spec i bytes) as [Hlt|Hge];
     [|exists 0%nat, true, 0; split; [by rewrite Z.add_0_r|]; split; [lia|]; split; [by left|]; simpl;
       try destruct (entry_bytes_pos e Hok); lia]);
    (assert (Hpage : 4096 <= bytes - i)
      by (apply (Z.divide_pos_le 4096 (bytes - i)); [lia|by apply Z.divide_sub_r])); rewrite window_page by done.
  - exists 0%nat, false, 0. simpl in He. rewrite Z.add_0_r in He. pose proof (page_end _ _ He) as Hz.
    destruct (header_fields _) as [[t ix] sz]. simpl in Hz. subst t. by rewrite Z.add_0_r.
  - simpl in Hl, He, Htop. destruct Hl as [(h & Hh & E) Hl]. rewrite (page_entry rb p e h) by done.
    apply Forall_cons in Ht as [Ht1 Ht2]. destruct (entry_bytes_pos e Hok) as [P1 P2], (total_pos es Hes) as [Q1 Q2].
    rewrite (proj2 (Z.eqb_neq _ _)) by done. pose proof Hok as (_ & Hd1 & Hd2 & _).
    unfold entry_bytes in P1, Htop. rewrite (u64_small (bytes - i - header_size)) by (unfold header_size in *; lia).
    rewrite !(u64_small (size e + header_size)) by lia.
    destruct (Z.ltb_spec (bytes - i - header_size) (size e)) as [Hs|Hs].
    { exists 0%nat, true, (entry_bytes e). split; [by rewrite Z.add_0_r|]. split; [lia|]. split; [by right|].
      unfold entry_bytes. simpl. lia. }
    rewrite !u64_small by lia. rewrite (window_split rb p (bytes - i) (entry_bytes e)), E by (unfold entry_bytes in *; lia).
    rewrite <- app_assoc, drop_app_length', drop_app_length'; [| |by destruct Hh].
    2:{ destruct Hd2 as [x Hx]. rewrite Hx, Z.div_mul by done. lia. }
    replace (bytes - i - entry_bytes e) with (bytes - (i + (size e + header_size))) by (unfold entry_bytes; lia).
    edestruct (IH fuel (i + (size e + header_size)) (p + entry_bytes e)) as (k & b & next & Ek & Hk & Hr);
      [done|done|by rewrite <- Z.add_assoc|done| |lia|lia|lia|unfold entry_bytes; lia|unfold entry_bytes; lia|unfold header_size in *; lia|].
    { apply Z.divide_add_r; [done|]. apply Z.divide_add_r; [done|by exists 1]. }
    exists (S k), b, next. change (p + (size e + header_size)) with (p + entry_bytes e). rewrite Ek.
    split; [simpl; unfold entry_bytes; do 3 f_equal; lia|]. split; [simpl; lia|].
    destruct b; [|simpl; lia]. simpl. unfold entry_bytes at 2. split; [apply Hr|]. destruct Hr as [_ Hr]. lia.
Qed.

Lemma check_data_spec rb es read_unit p d :
  Forall entry_ok es -> Forall (fun e => term_id e <> 0) es -> lies rb p es -> ends_at rb (p + total es) ->
  (4096 | read_unit) -> 0 < read_unit -> read_unit < 2 ^ 63 -> 0 <= p -> p + total es < 2 ^ 63 ->
  exists k b next,
    check_data (stream rb <$> seqZ p read_unit) p d =
      (b, total (take k es), next, index_entries d (idx_pos p (take k es))) /\
    (k <= List.length es)%nat /\
    if b : bool
    then (next = 0 \/ next = from_option entry_bytes 0 (es !! k)) /\
         read_unit - total (take k es) < from_option entry_bytes 1 (es !! k)
    else k = List.length es.
Proof.
  intros Hes Ht Hl He Hu1 Hu2 Hu3 Hp Htop. unfold check_data.
  assert (El : Z.of_nat (List.length (stream rb <$> seqZ p read_unit)) = read_unit)
    by (rewrite length_fmap, length_seqZ; lia).
  destruct (check_loop_spec rb es (S (List.length (stream rb <$> seqZ p read_unit))) read_unit 0 p d)
    as (k & b & next & E & Hk & Hr); [done|done|done|done|done|by exists 0|lia|lia|done|done|done|lia|].
  rewrite El. rewrite Z.sub_0_r in E, Hr. rewrite E. by exists k, b, next.
Qed.

Lemma load_read_spec rb es make read_unit fuel p d :
  rblob_wf rb -> pos (back rb) + 2 * RollingBlob.size rb < 2 ^ 63 ->
  Forall entry_ok es -> Forall (fun e => term_id e <> 0 /\ entry_bytes e <= read_unit) es ->
  lies rb p es -> ends_at rb (p + total es) ->
  (forall n, 0 <= n -> Z.of_nat (List.length (make n)) = n * 4096) ->
  (4096 | read_unit) -> 0 < read_unit -> (unit_size | p) ->
  pos (back rb) <= p -> p + total es + read_unit <= pos (back rb) + RollingBlob.size rb -> (List.length es < fuel)%nat ->
  exists r d' rb', load_read check_data make fuel p read_unit d rb = Some (r, d', rb') /\
    (r = Some 0 -> rb' = set_front (p + total es) rb /\ d' = index_entries d (idx_pos p es)).
Proof.
  intros Hw Ht Hes Hfit Hl He Hmake Hu1 Hu2. revert es p d Hes Hfit Hl He.
  pose proof (size_pos _ (wf_ring _ Hw)) as Hsz. destruct (wf_back _ Hw) as [B1 B2].
  induction fuel as [|fuel IH]; intros es p d Hes Hfit Hl He Hup Hp Htop Hf; [lia|]. cbn [load_read].
  destruct (total_pos es Hes) as [P1 P2].
  rewrite read_load by (done || lia).
  destruct (RollingBlob.read p read_unit _ false (full rb)) as [[[e x]|] bl] eqn:Er; [|by do 3 eexists].
  unfold truthy. destruct (Z.eqb_spec e 0) as [->|Hne]; cbn [negb].
  2:{ do 3 eexists. split; [done|]. by intros [= ->]. }
  apply ring_read_spec in Er; [|by apply full_wf|done|by apply (Z.divide_trans _ 4096); [exists 8|]|done|lia|
    change (pos (front (full rb))) with (pos (back rb) + RollingBlob.size rb); lia|].
  2:{ rewrite Hmake by (apply Z.div_pos; lia). destruct Hu1 as [y ->]. by rewrite Z.div_mul. }
  subst bl. destruct (check_data_spec (full rb) es read_unit p d) as (k & b & next & -> & Hk & Hr);
    [done|by eapply Forall_impl; [exact Hfit|intros ? []]|by apply (lies_ext rb)|done|done|lia|lia|lia|lia|].
  destruct b.
  2:{ rewrite firstn_all2 by lia. by do 3 eexists. }
  destruct Hr as [Hn Hr]. pose proof (firstn_skipn k es) as Esk.
  assert (Hk0 : (0 < k)%nat).
  { destruct k; [|lia]. simpl in Hr. destruct es as [|e es]; simpl in Hr; [lia|].
    apply Forall_cons in Hfit as [[_ ?] _]. lia. }
  assert (Hnx : (read_unit <? next) = false).
  { apply Z.ltb_ge. destruct Hn as [->| ->]; [lia|]. destruct (es !! k) as [e|] eqn:Ee; simpl; [|lia].
    by apply (Forall_lookup_1 _ _ _ _ Hfit Ee). }
  rewrite <- Esk in Hes, Hfit, Hl, He, Htop. rewrite total_app in He, Htop.
  apply Forall_app in Hes as [Hes1 Hes2], Hfit as [_ Hfit]. apply lies_app in Hl as [_ Hl].
  destruct (total_pos _ Hes1) as [Q1 Q2]. pose proof (total_le_length _ Hes1) as Q3. rewrite length_take in Q3.
  rewrite Hnx, (proj2 (Z.ltb_lt 0 _)) by lia. cbn [andb].
  edestruct (IH (drop k es) (p + total (take k es))) as (r & d' & rb' & E & Hr');
    [done|done|done|by rewrite <- Z.add_assoc|by apply Z.divide_add_r|lia|lia|rewrite length_drop; lia|].
  do 3 eexists. split; [exact E|]. intros ->. destruct (Hr' eq_refl) as [-> ->].
  pose proof (total_app (take k es) (drop k es)) as E1. pose proof (idx_pos_app p (take k es) (drop k es)) as E2.
  rewrite Esk in E1, E2. rewrite E1, E2. unfold index_entries. by rewrite foldl_app, Z.add_assoc.
Qed.

Lemma index_fresh d lo es p :
  _index_map d = [] -> _highest_index d = 0 -> 1 <= lo -> consecutive lo es ->
  let d' := index_entries d (idx_pos p es) in
  _lowest_index d' = _lowest_index d /\ _index_map d' = idx_pos p es /\
  _highest_index d' = if bool_decide (es = []) then 0 else lo + Z.of_nat (List.length es) - 1.
Proof.
  intros Em Eh Hlo. induction es as [|e es IH] using rev_ind; intros Hc; [done|].
  pose proof (proj1 (consecutive_app _ _ _) Hc) as [Hc1 Hc2]. injection Hc2 as Hi.
  destruct (IH Hc1) as (I1 & I2 & I3). rewrite idx_pos_app. unfold index_entries in *. rewrite foldl_app. simpl.
  rewrite I1, I2, I3. split; [done|]. rewrite (bool_decide_eq_false_2 (es ++ [e] = [])) by (by destruct es). split.
  - apply emplace_last. apply (Forall_fmap fst (fun i => i < index e)). rewrite idx_pos_keys. apply Forall_fmap.
    eapply Forall_impl; [exact (consecutive_range _ _ Hc1)|]. simpl. intros x Hx. lia.
  - rewrite length_app. simpl. case_bool_decide; [subst es; simpl in *; lia|lia].
Qed.

(** What [load_done] makes of the blob and the map that were found. *)
Lemma load_done_ok d es rb d1 :
  log_ok d es -> _lowest_index d1 = 1 -> _index_map d1 = idx_pos (pos (back (_rblob d))) es ->
  _highest_index d1 = (if bool_decide (es = []) then 0 else _lowest_index d + Z.of_nat (List.length es) - 1) ->
  rblob_wf rb -> pos (back rb) = pos (back (_rblob d)) -> pos (front rb) = pos (front (_rblob d)) ->
  (forall q, stream rb q = stream (_rblob d) q) ->
  let d' := load_done (d1 <| _rblob := rb |>) in
  log_ok d' es /\ (es <> [] -> _lowest_index d' = _lowest_index d).
Proof.
  intros Hok El Em Eh Hw Eb Ef Eq.
  assert (Hd : load_done (d1 <| _rblob := rb |>) =
               d1 <| _rblob := rb |> <| _lowest_index := if bool_decide (es = []) then 1 else _lowest_index d |>).
  { unfold load_done. cbn [_index_map]. change (_index_map (d1 <| _rblob := rb |>)) with (_index_map d1). rewrite Em.
    destruct es as [|e es]; simpl; [by rewrite <- El; destruct d1|].
    pose proof (consecutive_range _ _ (lo_index _ _ Hok)) as Hr. pose proof (lo_index _ _ Hok) as Hc.
    apply (consecutive_app _ [e]) in Hc as [Hc _]. injection Hc as ->. done. }
  cbv zeta. rewrite Hd. split; [|by intros Hne; simpl; rewrite bool_decide_eq_false_2].
  split; simpl; rewrite ?Em, ?Eh, ?Eb, ?Ef; try done; try apply Hok.
  - case_bool_decide; [by subst es|apply Hok].
  - case_bool_decide; [subst es; simpl; lia|lia].
  - apply (lies_ext (_rblob d)); [apply Hok|intros; apply Eq|apply Hok].
Qed.


(** A read that is too short for the first entry: loading asks for a longer one, but
    ends there. *)
Theorem load_stops_at_large_entry d e es f rb1 make read_unit fuel :
  log_ok d (e :: es) -> term_id e <> 0 -> read_unit < entry_bytes e ->
  saved (_rblob d) (back (_rblob d)) f -> rblob_wf (_rblob d <| front := f |>) -> reopened (_rblob d) rb1 ->
  (forall n, 0 <= n -> Z.of_nat (List.length (make n)) = n * 4096) -> (4096 | read_unit) -> 0 < read_unit ->
  pos (back (_rblob d)) + 2 * RollingBlob.size (_rblob d) < 2 ^ 63 ->
  exists r d', load make (S fuel) read_unit (new_disk_log rb1) = Some (r, d') /\
    (r = Some 0 -> _index_map d' = [] /\ pos (front (_rblob d')) = pos (back (_rblob d))).
Proof.
  intros Hok Ht Hlt Hsaved Hwf Hre Hmake Hu1 Hu2 Htop.
  unfold load, RollingBlob.load. cbn [_rblob new_disk_log]. destruct (load_md rb1) as [e0 rb2] eqn:El.
  unfold truthy. destruct (Z.eqb_spec e0 0) as [->|]; cbn [negb]; [|do 2 eexists; split; [done|by intros [= ->]]].
  destruct (load_md_reopened _ _ _ _ (lo_ring _ _ Hok) Hwf Hsaved Hre El) as (Hw2 & Es & Hb2 & Eq). clear El Hwf Hsaved.
  pose proof (lo_front _ _ Hok) as Hfr. pose proof (wf_front _ (lo_ring _ _ Hok)) as Hcap. pose proof (wf_top _ (lo_ring _ _ Hok)) as Htp.
  pose proof (lo_entries _ _ Hok) as Hes. apply Forall_cons in Hes as [He Hes]. destruct (total_pos es Hes), (wf_back _ Hw2).
  simpl in Hfr. cbn [load_read]. rewrite read_load by (done || lia).
  destruct (RollingBlob.read _ read_unit _ false (full rb2)) as [[[e1 x]|] bl] eqn:Er; [|by do 2 eexists].
  unfold truthy. destruct (Z.eqb_spec e1 0) as [->|Hne]; cbn [negb].
  2:{ do 2 eexists. split; [done|]. by intros [= ->]. }
  apply ring_read_spec in Er; [|by apply full_wf; [|lia]|apply Hw2|by apply (Z.divide_trans _ 4096); [exists 8|]|done|lia|
    change (pos (front (full rb2))) with (pos (back rb2) + RollingBlob.size rb2); lia|].
  2:{ rewrite Hmake by (apply Z.div_pos; lia). destruct Hu1 as [y ->]. by rewrite Z.div_mul. }
  assert (El : Z.of_nat (List.length bl) = read_unit) by (subst bl; rewrite length_fmap, length_seqZ; lia).
  unfold check_data. rewrite El. cbn [check_loop]. rewrite (proj2 (Z.ltb_lt 0 read_unit)) by lia.
  assert (Hpage : 4096 <= read_unit) by (apply (Z.divide_pos_le 4096); [lia|done]).
  subst bl. rewrite window_page by done.
  destruct (lo_bytes _ _ Hok) as [(h & Hh & Eh) _].
  assert (Ef : stream (full rb2) <$> seqZ (pos (back rb2)) header_size = stream (_rblob d) <$> seqZ (pos (back (_rblob d))) header_size).
  { rewrite Hb2. apply list_fmap_ext. intros; apply Eq. }
  rewrite Ef, (page_entry _ _ e h), (proj2 (Z.eqb_neq _ _)) by done.
  destruct (entry_bytes_pos e He) as [P1 _]. unfold entry_bytes, header_size in *.
  rewrite (u64_small (read_unit - 0 - (4 * 1024))), (proj2 (Z.ltb_lt _ (size e))) by lia. simpl.
  do 2 eexists. split; [done|]. intros _. simpl. rewrite Hb2. split; [done|lia].
Qed.

Inductive log_op :=
| OpAppend (stale : log_entry_t -> list Z) (new : list log_entry_t)
| OpRead (make_buffer_list : Z -> list Z) (a b : Z)
| OpTruncate (a : Z)
| OpTrimBack (b : Z)
| OpSetIndex (i : Z).

Definition exec_op (op : log_op) d : option Z * option (list log_entry_t) * disk_log B :=
  match op with
  | OpAppend stale new => let '(r, d) := append stale new d in (r, None, d)
  | OpRead make a b => let '(r, out) := read make a b d in (r, out, d)
  | OpTruncate a => let '(r, d) := truncate a d in (r, None, d)
  | OpTrimBack b => let '(r, d) := trim_back (_lowest_index d) b d in (r, None, d)
  | OpSetIndex i => let '(r, d) := set_index i d in (r, None, d)
  end.

(** Entries that continue the log, and indices that are in it. *)
Definition op_ok (op : log_op) d : Prop :=
  match op with
  | OpAppend stale new =>
      new <> [] /\ Forall entry_ok new /\ consecutive (_highest_index d + 1) new /\
      (forall e, e ∈ new -> List.length (stale e) = Z.to_nat header_size) /\
      pos (front (_rblob d)) + total new + RollingBlob.size (_rblob d) < 2 ^ 63
  | OpRead make a b =>
      _lowest_index d <= a /\ a <= b /\ b <= _highest_index d /\
      forall n, 0 <= n -> Z.of_nat (List.length (make n)) = n * 4096
  | OpTruncate a | OpTrimBack a => _lowest_index d <= a <= _highest_index d
  | OpSetIndex i => True
  end.

(** The index of the first entry, and the entries, that an operation leaves. *)
Definition op_list (op : log_op) (lo : Z) (es : list log_entry_t) : Z * list log_entry_t :=
  match op with
  | OpAppend _ new => (lo, es ++ new)
  | OpRead _ _ _ => (lo, es)
  | OpTruncate a => (lo, take (Z.to_nat (a - lo)) es)
  | OpTrimBack b => (b + 1, drop (Z.to_nat (b - lo + 1)) es)
  | OpSetIndex i => (Z.max (lo + Z.of_nat (List.length es)) (i + 1), [])
  end.

(** C16: The log on disk is a list of entries with consecutive indices: what was
    appended is read back, with its data, from any part of the log, truncating and
    trimming cut the list at the index they are given, a snapshot empties it, and
    the term of an index is the one of its entry. *)
Theorem disk_log_refines_list (op : log_op) (d d' : disk_log B) (es : list log_entry_t) out :
  log_ok d es -> op_ok op d -> exec_op op d = (Some 0, out, d') ->
  let '(lo, es') := op_list op (_lowest_index d) es in
  log_ok d' es' /\ _lowest_index d' = lo /\
  (forall i, get_term_id i d' = from_option term_id 0 (entry_at lo es' i)) /\
  (forall make a b, op = OpRead make a b ->
   out = Some (take (Z.to_nat (b - a + 1)) (drop (Z.to_nat (a - _lowest_index d)) es))).
Proof.
  intros Hok Hop E.
  assert (Hmain : let '(lo, es') := op_list op (_lowest_index d) es in log_ok d' es' /\ _lowest_index d' = lo).
  { destruct op as [stale new|make a b|a|b|i]; simpl in *.
    - destruct Hop as (H1 & H2 & H3 & H4 & H5). destruct (append stale new d) as [r d1] eqn:Ea. injection E as -> <- <-.
      by apply (disk_append_spec d es) in Ea.
    - destruct (read make a b d) as [r o]. injection E as -> <- <-. done.
    - destruct (truncate a d) as [r d1] eqn:Ea. injection E as -> <- <-. by apply (disk_truncate_spec d es) in Ea.
    - destruct (trim_back _ b d) as [r d1] eqn:Ea. injection E as -> <- <-. by apply (disk_trim_back_spec d es) in Ea.
    - destruct (set_index i d) as [r d1] eqn:Ea. injection E as -> <- <-.
      apply (disk_set_index_spec d es) in Ea as [H1 H2]; [|done..]. split; [done|].
      rewrite H2, (lo_highest _ _ Hok). f_equal. lia. }
  destruct (op_list op (_lowest_index d) es) as [lo es'] eqn:El. destruct Hmain as [H1 H2].
  split; [done|]. split; [done|]. split; [intros i; rewrite <- H2; by apply disk_term_spec|].
  intros make a b ->. simpl in *. destruct Hop as (P1 & P2 & P3 & P4).
  destruct (read make a b d) as [r o] eqn:Er. injection E as -> <- <-.
  by apply (disk_read_spec d es) in Er.
Qed.

End refinement.

(** ** An instance *)

(** A log on an empty ring of four pages. *)
Definition small_log : disk_log mem_dev :=
  new_disk_log {| blob_size := 20480; front := {| pos := 0; lba := 4096 |}; back := {| pos := 0; lba := 4096 |};
                  super := replicate 4096 0; inflight_rw := []; dev := {| cells := ∅; cap := 40; faults := [] |} |}.

Lemma small_log_ok : log_ok small_log [].
Proof. split; [split; first [done|by split|by exists 0|by exists 8]|done..]. Qed.

(** An entry with a page of data. *)
Definition one_entry : log_entry_t :=
  {| index := 1; term_id := 5; size := 4096; type := 0; meta := [104; 105]; data := replicate 4096 7 |}.

Lemma one_entry_ok : entry_ok one_entry.
Proof. split_and!; [repeat split; (lia || done || (repeat constructor; lia))|done|by exists 1|vm_compute; lia]. Qed.

Lemma disk_log_refines_list_witness :
  exists d', exec_op (OpAppend (fun _ => replicate 4096 9) [one_entry]) small_log = (Some 0, None, d') /\
    log_ok d' [one_entry] /\ get_term_id 1 d' = 5 /\ get_term_id 2 d' = 0.
Proof.
  set (op := OpAppend (fun _ => replicate 4096 9) [one_entry]).
  destruct (exec_op op small_log) as [[r out] d'] eqn:E.
  assert (r = Some 0) as -> by (apply (f_equal (fun x => fst (fst x))) in E; by vm_compute in E).
  assert (out = None) as -> by (apply (f_equal (fun x => snd (fst x))) in E; by vm_compute in E).
  assert (Hok : op_ok op small_log).
  { split_and!; [done|by constructor; [apply one_entry_ok|]|done|done|done]. }
  destruct (disk_log_refines_list op small_log d' [] None small_log_ok Hok E) as (H1 & _ & H2 & _).
  exists d'. split; [done|]. split; [done|]. split; [exact (H2 1)|exact (H2 2)].
Defined.

(** The super block is written, an entry appended, and the log loaded again. *)
Definition synced_log : disk_log mem_dev := small_log <| _rblob := snd (sync_md (_rblob small_log)) |>.
Definition written_log : disk_log mem_dev := snd (append (fun _ => replicate 4096 9) [one_entry] synced_log).
Definition reopened_blob : rolling_blob mem_dev := new_rolling_blob 20480 (replicate 4096 0) (dev (_rblob written_log)).

Lemma synced_log_ok :
  log_ok synced_log [] /\ saved (_rblob synced_log) {| pos := 0; lba := 4096 |} {| pos := 0; lba := 4096 |}.
Proof.
  destruct small_log_ok as [W _ _ _ _ _ _]. unfold synced_log.
  destruct (sync_md (_rblob small_log)) as [e rb] eqn:E.
  assert (e = 0) as -> by (apply (f_equal fst) in E; by vm_compute in E).
  cbn [snd]. split; [exact (sync_keeps_log _ _ _ _ small_log_ok E)|exact (sync_saves _ _ W E)].
Qed.

Lemma stale_page (e : log_entry_t) : e ∈ [one_entry] -> List.length (replicate 4096 9) = Z.to_nat header_size.
Proof. done. Qed.

Lemma written_log_ok :
  log_ok written_log [one_entry] /\ saved (_rblob written_log) {| pos := 0; lba := 4096 |} {| pos := 0; lba := 4096 |}.
Proof.
  destruct synced_log_ok as [Hok Hs]. unfold written_log.
  assert (He : Forall entry_ok [one_entry]) by (by constructor; [apply one_entry_ok|]).
  destruct (append _ [one_entry] synced_log) as [r d] eqn:E.
  assert (r = Some 0) as -> by (apply (f_equal fst) in E; by vm_compute in E). cbn [snd].
  destruct (disk_append_keeps_super _ _ _ _ _ _ Hok He stale_page E) as [_ Eb].
  split; [|unfold saved; rewrite Eb; exact Hs].
  apply (disk_append_spec synced_log []) in E as [E _]; [exact E|done|done|done|done|exact stale_page|done].
Qed.



End DiskLog.
