(* ===== verification/KvStore.v ===== *)
(** * The key-value store (src/localstore/kv_store.h, kv_checkpoint.h, spdk_buffer.h)

    The store is a table in memory.  What is put waits in [op_log] until the poller
    appends it to a rolling blob as one batch and applies it to the table; when the
    ring has too little room, the whole table is first written to a new blob, the
    checkpoint, and the ring is emptied.  A store that is loaded starts from the
    checkpoint and applies the batches of the ring.

    Operations on the devices run to their end when they are started.  [None] is
    undefined behaviour: an iterator that leaves its list, a string that is read past
    its page, or a completion function that was moved away. *)

From stdpp Require Import gmap list.
From S2P Require Import Prelude Wire ObjectStore RollingBlob Codec.

Module KvStore.
Import (hints) RollingBlob.
Import (hints) ObjectStore.
Import Codec.

Definition E_NODEV : Z := - ENODEV.
Definition buffer_size : Z := 4096.

Definition SPDK_ALIGN_CEIL (v a : Z) : Z := (v + (a - 1)) / a * a.
Definition SPDK_CEIL_DIV (x y : Z) : Z := (x + y - 1) / y.

(** ** Lists of buffers *)

(** The buffers of the list, the one at the iterator, and the bytes written or read
    so far. *)
Record buffer_list_encoder := { pages : list spdk_buffer; _itor : nat; enc_used : Z }.

#[export] Instance eta_encoder : Eta buffer_list_encoder := fun e =>
  {| pages := pages e; _itor := _itor e; enc_used := enc_used e |}.

Definition list_bytes (l : list spdk_buffer) : Z := foldr (fun p n => buf_size p + n) 0 l.

Definition enc_remain (e : buffer_list_encoder) : Z := u64 (list_bytes (pages e) - enc_used e).

Definition new_encoder (bl : list spdk_buffer) : buffer_list_encoder := {| pages := bl; _itor := 0; enc_used := 0 |}.

Definition append_buffer (p : spdk_buffer) (e : buffer_list_encoder) : buffer_list_encoder :=
  e <| pages ::= fun l => l ++ [p] |>.

Definition put64 (v : Z) (e : buffer_list_encoder) : option (bool * buffer_list_encoder) :=
  if enc_remain e <? 8 then Some (false, e)
  else
    p ← pages e !! _itor e;
    let bs := Wire.le 8 v in
    if remain p <? 8 then
      q ← pages e !! S (_itor e);
      let prev_bytes := remain p in
      let q := inc (8 - prev_bytes) (store (drop (Z.to_nat prev_bytes) bs) (reset q)) in
      let p := inc prev_bytes (store (take (Z.to_nat prev_bytes) bs) p) in
      Some (true, {| pages := <[_itor e := p]> (<[S (_itor e) := q]> (pages e)); _itor := S (_itor e);
                     enc_used := enc_used e + 8 |})
    else
      Some (true, e <| pages ::= <[_itor e := inc 8 (store bs p)]> |> <| enc_used ::= Z.add 8 |>).

Definition put_bytes (bs : list Z) (e : buffer_list_encoder) : option (bool * buffer_list_encoder) :=
  let len := Z.of_nat (List.length bs) in
  if enc_remain e <? len then Some (false, e)
  else
    p ← pages e !! _itor e;
    if remain p <? len then
      q ← pages e !! S (_itor e);
      let prev_bytes := remain p in
      let q := append (drop (Z.to_nat prev_bytes) bs) (reset q) in
      let p := append (take (Z.to_nat prev_bytes) bs) p in
      Some (true, {| pages := <[_itor e := p]> (<[S (_itor e) := q]> (pages e)); _itor := S (_itor e);
                     enc_used := enc_used e + len |})
    else
      Some (true, e <| pages ::= <[_itor e := append bs p]> |> <| enc_used ::= Z.add len |>).

Definition put_string (v : list Z) (e : buffer_list_encoder) : option (bool * buffer_list_encoder) :=
  r ← put64 (Z.of_nat (List.length v)) e;
  let '(rc, e) := r in if rc : bool then put_bytes v e else Some (false, e).

(** Reading gives nothing when too little remains. *)
Definition get64 (e : buffer_list_encoder) : option (option Z * buffer_list_encoder) :=
  if enc_remain e <? 8 then Some (None, e)
  else
    p ← pages e !! _itor e;
    if remain p <? 8 then
      q ← pages e !! S (_itor e);
      let prev_bytes := remain p in
      let q := reset q in
      let v := Wire.le_to_cpu (take (Z.to_nat prev_bytes) (at_append p) ++ take (Z.to_nat (8 - prev_bytes)) (at_append q)) in
      Some (Some v, {| pages := <[_itor e := inc prev_bytes p]> (<[S (_itor e) := inc (8 - prev_bytes) q]> (pages e));
                       _itor := S (_itor e); enc_used := enc_used e + 8 |})
    else
      Some (Some (Wire.le_to_cpu (take 8 (at_append p))),
            e <| pages ::= <[_itor e := inc 8 p]> |> <| enc_used ::= Z.add 8 |>).

Definition get_bytes (len : Z) (e : buffer_list_encoder) : option (option (list Z) * buffer_list_encoder) :=
  if enc_remain e <? len then Some (None, e)
  else
    p ← pages e !! _itor e;
    if remain p <? len then
      q ← pages e !! S (_itor e);
      let prev_bytes := remain p in
      let q := reset q in
      if remain q <? len - prev_bytes then None
      else
        Some (Some (take (Z.to_nat prev_bytes) (at_append p) ++ take (Z.to_nat (len - prev_bytes)) (at_append q)),
              {| pages := <[_itor e := inc prev_bytes p]> (<[S (_itor e) := inc (len - prev_bytes) q]> (pages e));
                 _itor := S (_itor e); enc_used := enc_used e + len |})
    else
      Some (Some (take (Z.to_nat len) (at_append p)),
            e <| pages ::= <[_itor e := inc len p]> |> <| enc_used ::= Z.add len |>).

(** The memory for the string is there. *)
Definition get_string (e : buffer_list_encoder) : option (option (list Z) * buffer_list_encoder) :=
  r ← get64 e;
  match r with
  | (Some n, e) => get_bytes n e
  | (None, e) => Some (None, e)
  end.

(** ** The store *)

(** What the checkpoint uses of SPDK besides [Blobs].  The attributes of blobs are
    not modelled. *)
Class CkptBlobs (C : Type) `{ObjectStore.Blobs C} := {
  spdk_blob_sync_md : C -> ptr Z -> Z * C;
  spdk_blob_get_num_clusters : C -> ptr Z -> Z;
}.

Record kvstore (B C : Type) := {
  table : gmap (list Z) (list Z);
  op_log : list op;
  op_length : Z;
  write_buf : spdk_buffer;
  read_buf : spdk_buffer;
  rblob : RollingBlob.rolling_blob B;
  _ckpt_blob : ObjectStore.fb_blob;
  _new_blob : ObjectStore.fb_blob;
  working : bool;
  bs : C;
}.
Arguments table {B C}.
Arguments op_log {B C}.
Arguments op_length {B C}.
Arguments write_buf {B C}.
Arguments read_buf {B C}.
Arguments rblob {B C}.
Arguments _ckpt_blob {B C}.
Arguments _new_blob {B C}.
Arguments working {B C}.
Arguments bs {B C}.

#[export] Instance eta_kvstore B C : Eta (kvstore B C) := fun k =>
  {| table := table k; op_log := op_log k; op_length := op_length k; write_buf := write_buf k;
     read_buf := read_buf k; rblob := rblob k; _ckpt_blob := _ckpt_blob k; _new_blob := _new_blob k;
     working := working k; bs := bs k |}.

Section store.
Context `{RollingBlob.BlobIo B} `{CkptBlobs C}.

(** The order in which the hash map is run over, and what the pages of the buffer pool
    hold. *)
Context (iterate : gmap (list Z) (list Z) -> list (list Z * list Z)) (pool : nat -> list Z).

Implicit Types k : kvstore B C.

Definition make_buffer_list (n : nat) : list spdk_buffer := (fun i => {| _buf := pool i; _used := 0 |}) <$> seq 0 n.

(** [wbuf] and [rbuf] are the buffers of 32 MiB. *)
Definition new_kvstore (wbuf rbuf : list Z) (rb : RollingBlob.rolling_blob B) (c : C) : kvstore B C :=
  {| table := ∅; op_log := []; op_length := 0; write_buf := {| _buf := wbuf; _used := 0 |};
     read_buf := {| _buf := rbuf; _used := 0 |}; rblob := rb; _ckpt_blob := ObjectStore.no_blob;
     _new_blob := ObjectStore.no_blob; working := false; bs := c |}.

Definition set_checkpoint_blobid (checkpoint_blob_id new_checkpoint_blob_id : Z) k : kvstore B C :=
  let k := if truthy checkpoint_blob_id then k <| _ckpt_blob ::= fun b => b <| ObjectStore.blobid := checkpoint_blob_id |> |> else k in
  if truthy new_checkpoint_blob_id then k <| _new_blob ::= fun b => b <| ObjectStore.blobid := new_checkpoint_blob_id |> |> else k.

Definition LengthString (v : list Z) : Z := 8 + Z.of_nat (List.length v).
Definition LengthOptString (v : option (list Z)) : Z :=
  match v with Some v => 8 + Z.of_nat (List.length v) | None => 8 end.

Definition put (key_ : list Z) (value_ : option (list Z)) k : kvstore B C :=
  k <| op_length ::= fun n => u64 (n + LengthString key_ + LengthOptString value_) |>
    <| op_log ::= fun l => l ++ [{| key := key_; value := value_ |}] |>.

Definition remove (key_ : list Z) k : kvstore B C :=
  k <| op_length ::= fun n => u64 (n + LengthString key_ + LengthOptString None) |>
    <| op_log ::= fun l => l ++ [{| key := key_; value := None |}] |>.

Definition get (key_ : list Z) k : option (list Z) := table k !! key_.

Definition apply_op (o : op) (t : gmap (list Z) (list Z)) : gmap (list Z) (list Z) :=
  match t !! key o, value o with
  | Some _, Some v => <[key o := v]> t
  | Some _, None => delete (key o) t
  | None, Some v => <[key o := v]> t
  | None, None => t
  end.

Definition apply_ops (ops : list op) (t : gmap (list Z) (list Z)) : gmap (list Z) (list Z) :=
  foldl (fun t o => apply_op o t) t ops.

Definition need_commit k : bool := match op_log k with [] => false | _ => true end.

Definition commit_done (ops : list op) (op_length_ rberrno : Z) k : Z * kvstore B C :=
  if truthy rberrno then
    (rberrno, k <| op_log ::= fun l => ops ++ l |> <| op_length ::= fun n => u64 (n + op_length_) |>)
  else (0, k <| table ::= apply_ops ops |> <| working := false |>).

Definition commit k : option (Z * kvstore B C) :=
  if working k then Some (- EBUSY, k)
  else if negb (need_commit k) then Some (0, k)
  else
    let ops := op_log k in
    let len := op_length k in
    let wbuf := serialize_op ops (write_buf k) in
    let bl := take (Z.to_nat (SPDK_ALIGN_CEIL (_used wbuf) 4096)) (_buf wbuf) in
    let '(r, rb) := RollingBlob.append bl (rblob k) in
    let k := k <| working := true |> <| op_log := [] |> <| op_length := 0 |> <| write_buf := wbuf |> <| rblob := rb |> in
    r ← r;
    Some (commit_done ops len (fst r) k).

(** ** Checkpoints *)

Definition start_checkpoint (size : Z) k : Z * kvstore B C :=
  if truthy (ObjectStore.blobid (_new_blob k)) then (- EBUSY, k)
  else
    let '(e, id, c) := ObjectStore.spdk_bs_create_blob_ext (bs k) (SPDK_CEIL_DIV size ObjectStore.cluster_size) in
    let k := k <| bs := c |> in
    if truthy e then (e, k)
    else
      let '(e, p, c) := ObjectStore.spdk_bs_open_blob (bs k) id in
      let k := k <| bs := c |> in
      if truthy e then (e, k)
      else (0, k <| _new_blob := {| ObjectStore.blob := p; ObjectStore.blobid := id |} |>).

Definition write_checkpoint (bl : list Z) k : Z * kvstore B C :=
  if ObjectStore.blobid (_new_blob k) =? 0 then (- EINVAL, k)
  else
    let '(e, c) := ObjectStore.spdk_blob_io_write (bs k) (ObjectStore.blob (_new_blob k)) bl 0
                     (Z.of_nat (List.length bl) / ObjectStore.unit_size) in
    (e, k <| bs := c |>).

Definition finish_checkpoint k : Z * kvstore B C :=
  if ObjectStore.blobid (_new_blob k) =? 0 then (- EINVAL, k)
  else
    let old := _ckpt_blob k in
    let k := k <| _ckpt_blob := _new_blob k |> <| _new_blob := ObjectStore.no_blob |> in
    let '(e, c) := spdk_blob_sync_md (bs k) (ObjectStore.blob (_ckpt_blob k)) in
    let k := k <| bs := c |> in
    if truthy e then (e, k)
    else
      let '(e, c) := ObjectStore.spdk_blob_close (bs k) (ObjectStore.blob (_ckpt_blob k)) in
      let k := k <| bs := c |> in
      if truthy e then (e, k)
      else
        let k := k <| _ckpt_blob ::= fun b => b <| ObjectStore.blob := NULL |> |> in
        if negb (ObjectStore.blobid old =? 0) then
          let '(e, c) := ObjectStore.spdk_bs_delete_blob (bs k) (ObjectStore.blobid old) in (e, k <| bs := c |>)
        else (0, k).

(** The results of writing are not looked at. *)
Definition put_pair (pr : list Z * list Z) (e : buffer_list_encoder) : option buffer_list_encoder :=
  let pr_size := LengthString (fst pr) + LengthString (snd pr) in
  let e := if enc_remain e <? pr_size
           then append_buffer {| _buf := pool (List.length (pages e)); _used := 0 |} e else e in
  r ← put_string (fst pr) e;
  r ← put_string (snd pr) (snd r);
  Some (snd r).

Definition put_pairs (prs : list (list Z * list Z)) (e : buffer_list_encoder) : option buffer_list_encoder :=
  foldl (fun e pr => e ≫= put_pair pr) (Some e) prs.

Definition encode_table (t : gmap (list Z) (list Z)) : option (list spdk_buffer) :=
  r ← put64 (Z.of_nat (base.size t)) (new_encoder (make_buffer_list 1));
  pages <$> put_pairs (iterate t) (snd r).

Definition checkpoint_trim_complete (ckerror : Z) k : Z * kvstore B C := (ckerror, k <| working := false |>).

(** The errors of the first three steps are not looked at. *)
Definition save_checkpoint k : option (Z * kvstore B C) :=
  if working k then Some (- EBUSY, k)
  else
    let k := k <| working := true |> in
    bl ← encode_table (table k);
    let '(_, k) := start_checkpoint (list_bytes bl) k in
    let '(_, k) := write_checkpoint (concat (_buf <$> bl)) k in
    let '(_, k) := finish_checkpoint k in
    let '(r, rb) := RollingBlob.trim_back (RollingBlob.used (rblob k)) (rblob k) in
    ckerror ← r;
    Some (checkpoint_trim_complete ckerror (k <| rblob := rb |>)).

(** [remain] of the rolling blob is [available]. *)
Definition need_checkpoint k : bool := RollingBlob.available (rblob k) <? op_length k.

Definition maybe_work k : option (bool * kvstore B C) :=
  if working k then Some (false, k)
  else if need_checkpoint k then
    r ← save_checkpoint k; r ← commit (snd r); Some (true, snd r)
  else if need_commit k then r ← commit k; Some (true, snd r)
  else Some (false, k).

(** ** Loading *)

Definition open_checkpoint k : Z * kvstore B C :=
  if ObjectStore.blobid (_ckpt_blob k) =? 0 then (E_NODEV, k)
  else
    match ObjectStore.blob (_ckpt_blob k) with
    | Some _ => (0, k)
    | NULL =>
        let '(e, p, c) := ObjectStore.spdk_bs_open_blob (bs k) (ObjectStore.blobid (_ckpt_blob k)) in
        (e, k <| bs := c |> <| _ckpt_blob ::= fun b => b <| ObjectStore.blob := p |> |>)
    end.

Definition checkpoint_size k : Z :=
  if (ObjectStore.blobid (_ckpt_blob k) =? 0) || (if ObjectStore.blob (_ckpt_blob k) then false else true) then 0
  else spdk_blob_get_num_clusters (bs k) (ObjectStore.blob (_ckpt_blob k)) * ObjectStore.cluster_size.

(** The bytes go into the pages; the error that counts is that of closing the blob. *)
Definition fill_pages (bytes : list Z) (bl : list spdk_buffer) : list spdk_buffer :=
  imap (fun i p =>
          {| _buf := RollingBlob.fill (_buf p) (take (List.length (_buf p)) (drop (i * Z.to_nat buffer_size) bytes));
             _used := _used p |}) bl.

Definition read_checkpoint (bl : list spdk_buffer) k : Z * list spdk_buffer * kvstore B C :=
  if ObjectStore.blobid (_ckpt_blob k) =? 0 then (- EINVAL, bl, k)
  else
    let '(e, bytes) := ObjectStore.spdk_blob_io_read (bs k) (ObjectStore.blob (_ckpt_blob k)) 0
                         (list_bytes bl / ObjectStore.unit_size) in
    let bl := if truthy e then bl else fill_pages bytes bl in
    let '(e, c) := ObjectStore.spdk_blob_close (bs k) (ObjectStore.blob (_ckpt_blob k)) in
    (e, bl, k <| bs := c |>).

(** A pair whose key is in the table already is dropped, and so is all that follows
    what cannot be read. *)
Fixpoint get_pairs (n : nat) (e : buffer_list_encoder) (t : gmap (list Z) (list Z)) : option (gmap (list Z) (list Z)) :=
  match n with
  | O => Some t
  | S n =>
      r ← get_string e;
      match r with
      | (Some key_, e) =>
          r ← get_string e;
          match r with
          | (Some value_, e) =>
              get_pairs n e (if t !! key_ then t else <[key_ := value_]> t)
          | (None, _) => Some t
          end
      | (None, _) => Some t
      end
  end.

Definition checkpoint_read_complete (ckerror : Z) (bl : list spdk_buffer) k : option (Z * kvstore B C) :=
  if truthy ckerror then Some (ckerror, k)
  else
    r ← get64 (new_encoder bl);
    match r with
    | (Some table_size, e) =>
        t ← get_pairs (Z.to_nat table_size) e (table k); Some (ckerror, k <| table := t |>)
    | (None, _) => Some (ckerror, k)
    end.

Definition load_checkpoint k : option (Z * kvstore B C) :=
  let '(ckerror, k) := open_checkpoint k in
  if ckerror =? E_NODEV then Some (0, k)
  else if truthy ckerror then Some (ckerror, k)
  else
    let '(e, bl, k) := read_checkpoint (make_buffer_list (Z.to_nat (checkpoint_size k / 4096))) k in
    checkpoint_read_complete e bl k.

Inductive replayed := Replayed (kverrno : Z) (k : kvstore B C) | OutOfFuel | Undefined.

(** A read into a part of the buffer, over whose end nothing is defined. *)
Definition read_into (start length off : Z) k : option (Z * kvstore B C) :=
  let buf := _buf (read_buf k) in
  if buf_size (read_buf k) <? off + length then None
  else
  let '(r, bl) := RollingBlob.read start length (take (Z.to_nat length) (drop (Z.to_nat off) buf)) true (rblob k) in
  r ← r;
  Some (fst r, k <| read_buf := {| _buf := take (Z.to_nat off) buf ++ bl ++ drop (Z.to_nat (off + length)) buf; _used := 0 |} |>).

Definition batch_size k : Z :=
  match fst (GetFixed64 (reset (read_buf k))) with Got n => n | _ => 0 end.

(** One batch: the error, the operations and its length. *)
Definition replay_batch (start : Z) k : option (Z * list op * Z * kvstore B C) :=
  r ← read_into start 4096 0 k;
  let '(e, k) := r in
  if truthy e then Some (e, [], 0, k)
  else
    let data_size := batch_size k in
    if 4096 <? data_size then
      let len := SPDK_ALIGN_CEIL data_size 4096 in
      r ← read_into (u64 (start + 4096)) (len - 4096) 4096 k;
      let '(e, k) := r in
      if truthy e then Some (e, [], 0, k)
      else ops ← deserialize_op (read_buf k); Some (0, ops, len, k)
    else ops ← deserialize_op (read_buf k); Some (0, ops, 4096, k).

Fixpoint replay_batches (fuel : nat) (start : Z) k : replayed :=
  match fuel with
  | O => OutOfFuel
  | S fuel =>
      match replay_batch start k with
      | None => Undefined
      | Some (e, ops, len, k) =>
          if truthy e then Replayed e k
          else
            let k := k <| table ::= apply_ops ops |> in
            match ops with
            | [] => Replayed 0 (k <| rblob ::= RollingBlob.set_front start |>)
            | _ => replay_batches fuel (u64 (start + len)) k
            end
      end
  end.

Definition delete_new_blob k : Z * kvstore B C :=
  if ObjectStore.blobid (_new_blob k) =? 0 then (0, k)
  else
    let '(e, c) := ObjectStore.spdk_bs_delete_blob (bs k) (ObjectStore.blobid (_new_blob k)) in (e, k <| bs := c |>).

Definition replay (fuel : nat) k : replayed :=
  let '(e, k) := delete_new_blob k in
  if truthy e then Replayed e k
  else
    let pos := RollingBlob.pos (RollingBlob.back (rblob k)) in
    match load_checkpoint k with
    | None => Undefined
    | Some (e, k) => if truthy e then Replayed e k else replay_batches fuel pos k
    end.

(** [rb] is the rolling blob as it is opened. *)
Definition load_kvstore (fuel : nat) (wbuf rbuf : list Z) (rb : RollingBlob.rolling_blob B) (checkpoint_blob_id new_checkpoint_blob_id : Z)
    (c : C) : replayed :=
  let '(e, rb) := RollingBlob.load_md rb in
  let k := new_kvstore wbuf rbuf rb c in
  if truthy e then Replayed e k
  else replay fuel (set_checkpoint_blobid checkpoint_blob_id new_checkpoint_blob_id k).

(** [kv_checkpoint::stop]. *)
Definition stop_checkpoint k : Z * kvstore B C :=
  if ObjectStore.blobid (_ckpt_blob k) =? 0 then (0, k)
  else
    let '(e, c) := ObjectStore.spdk_bs_delete_blob (bs k) (ObjectStore.blobid (_ckpt_blob k)) in (e, k <| bs := c |>).

End store.
(** ** Encoding into pages *)

Definition flat (l : list spdk_buffer) : list Z := concat (_buf <$> l).

Definition sized (l : list spdk_buffer) : Prop := Forall (fun p => buf_size p = buffer_size) l.

Lemma sized_bytes l : sized l -> list_bytes l = buffer_size * Z.of_nat (List.length l).
Proof. induction 1 as [|p l Hp _ IH]; cbn [list_bytes foldr List.length]; [lia|]. unfold list_bytes in IH. rewrite Hp, IH. lia. Qed.

Lemma flat_app l l' : flat (l ++ l') = flat l ++ flat l'.
Proof. unfold flat. by rewrite fmap_app, concat_app. Qed.

Lemma flat_length l : sized l -> Z.of_nat (List.length (flat l)) = buffer_size * Z.of_nat (List.length l).
Proof.
  induction 1 as [|p l Hp _ IH]; [done|]. change (flat (p :: l)) with (_buf p ++ flat l). rewrite length_app, Nat2Z.inj_add, IH.
  change (Z.of_nat (List.length (_buf p))) with (buf_size p). rewrite Hp. cbn [List.length]. lia.
Qed.

(** The pages before and after the iterator, and the one at it. *)
Record cursor (e : buffer_list_encoder) (l1 : list spdk_buffer) (p : spdk_buffer) (l2 : list spdk_buffer) : Prop := {
  cur_pages : pages e = l1 ++ p :: l2;
  cur_itor : _itor e = List.length l1;
  cur_sized : sized (pages e);
  cur_wf : buf_wf p;
  cur_used : enc_used e = buffer_size * Z.of_nat (List.length l1) + _used p;
  cur_small : list_bytes (pages e) < 2 ^ 63;
}.

Section cursor.
Context (e : buffer_list_encoder) (l1 : list spdk_buffer) (p : spdk_buffer) (l2 : list spdk_buffer).
Hypothesis Hc : cursor e l1 p l2.

Lemma cursor_at : pages e !! _itor e = Some p.
Proof. rewrite (cur_pages _ _ _ _ Hc), (cur_itor _ _ _ _ Hc). by apply list_lookup_middle. Qed.

Lemma cursor_next : pages e !! S (_itor e) = head l2.
Proof.
  rewrite (cur_pages _ _ _ _ Hc), (cur_itor _ _ _ _ Hc), lookup_app_r by lia.
  replace (S (List.length l1) - List.length l1)%nat with 1%nat by lia. by destruct l2.
Qed.

Lemma cursor_size : buf_size p = buffer_size.
Proof.
  pose proof (cur_sized _ _ _ _ Hc) as Hs. rewrite (cur_pages _ _ _ _ Hc) in Hs. apply Forall_app in Hs as [_ Hs]. by inversion Hs.
Qed.

Lemma cursor_remain : enc_remain e = remain p + buffer_size * Z.of_nat (List.length l2).
Proof.
  pose proof cursor_size as Hp. pose proof (cur_wf _ _ _ _ Hc) as Hw. pose proof (cur_small _ _ _ _ Hc) as Hs.
  unfold enc_remain. rewrite remain_eq, (cur_used _ _ _ _ Hc) by done.
  rewrite sized_bytes in * by apply Hc. rewrite (cur_pages _ _ _ _ Hc), length_app in *. cbn [List.length] in *.
  unfold buf_wf in Hw. rewrite Hp in *. unfold buffer_size in *. rewrite u64_small; lia.
Qed.

Lemma insert_middle (y : spdk_buffer) (x : spdk_buffer) l l' : <[List.length l := y]> (l ++ x :: l') = l ++ y :: l'.
Proof. rewrite <- (Nat.add_0_r (List.length l)) at 1. by rewrite insert_app_r. Qed.

(** The page at the iterator is replaced. *)
Lemma cursor_same p' n :
  buf_size p' = buf_size p -> buf_wf p' -> _used p' = _used p + n ->
  cursor (e <| pages ::= <[_itor e := p']> |> <| enc_used ::= Z.add n |>) l1 p' l2.
Proof.
  intros Hs Hw Hu. destruct Hc as [C1 C2 C3 C4 C5 C6].
  assert (Hp : <[_itor e := p']> (pages e) = l1 ++ p' :: l2) by (rewrite C1, C2; apply insert_middle).
  assert (H3 : sized (l1 ++ p' :: l2)).
  { rewrite C1 in C3. apply Forall_app in C3 as [S1 S2]. apply Forall_cons in S2 as [S2 S3].
    apply Forall_app. split; [done|]. constructor; [congruence|done]. }
  change (e <| pages ::= <[_itor e := p']> |> <| enc_used ::= Z.add n |>) with
    {| pages := <[_itor e := p']> (pages e); _itor := _itor e; enc_used := n + enc_used e |}.
  split; cbn [pages _itor enc_used]; try done.
  - by rewrite Hp.
  - rewrite C5, Hu. lia.
  - rewrite Hp, sized_bytes by done. rewrite C1, sized_bytes in C6 by by rewrite <- C1.
    rewrite length_app in *. cbn [List.length] in *. done.
Qed.

(** The iterator moves on to the next page. *)
Lemma cursor_step q l3 p' q' n :
  l2 = q :: l3 -> buf_size p' = buf_size p -> buf_size q' = buf_size q -> buf_wf q' -> _used q' = n - remain p ->
  cursor {| pages := <[_itor e := p']> (<[S (_itor e) := q']> (pages e)); _itor := S (_itor e); enc_used := enc_used e + n |}
    (l1 ++ [p']) q' l3.
Proof.
  intros El Hp Hq Hw Hu. pose proof cursor_size as Hps. destruct Hc as [C1 C2 C3 C4 C5 C6]. rewrite El in C1.
  assert (E : <[_itor e := p']> (<[S (_itor e) := q']> (pages e)) = (l1 ++ [p']) ++ q' :: l3).
  { rewrite C1, C2. replace (l1 ++ p :: q :: l3) with ((l1 ++ [p]) ++ q :: l3) by by rewrite <- app_assoc.
    replace (S (List.length l1)) with (List.length (l1 ++ [p])) by (rewrite length_app; cbn [List.length]; lia).
    rewrite insert_middle. rewrite <- app_assoc. cbn [app]. rewrite insert_middle. by rewrite <- app_assoc. }
  assert (H3 : sized ((l1 ++ [p']) ++ q' :: l3)).
  { rewrite C1 in C3. apply Forall_app in C3 as [S1 S2]. apply Forall_cons in S2 as [S2 S3]. apply Forall_cons in S3 as [S3 S4].
    apply Forall_app. split; [apply Forall_app; split; [done|]|]; constructor; first [done|congruence|constructor]. }
  split; cbn [pages _itor enc_used]; try done.
  - rewrite length_app, C2. cbn [List.length]. lia.
  - by rewrite E.
  - rewrite C5, Hu, length_app, remain_eq, Hps by done. cbn [List.length]. lia.
  - rewrite E, sized_bytes by done. rewrite C1, sized_bytes in C6 by by rewrite <- C1.
    rewrite !length_app in *. cbn [List.length] in *. unfold buffer_size in *. lia.
Qed.

End cursor.

(** [e] has [b] written so far, on [n] pages. *)
Definition written (e : buffer_list_encoder) (n : nat) (b : list Z) : Prop :=
  List.length (pages e) = n /\
  exists l1 p l2, cursor e l1 p l2 /\ b = flat l1 ++ take (Z.to_nat (_used p)) (_buf p).

Lemma cursor_before e l1 p l2 : cursor e l1 p l2 -> Z.of_nat (List.length (flat l1)) = buffer_size * Z.of_nat (List.length l1).
Proof.
  intros [C1 _ C3 _ _ _]. apply flat_length. rewrite C1 in C3. by apply Forall_app in C3 as [C3 _].
Qed.

Lemma written_remain e n b : written e n b -> enc_remain e = buffer_size * Z.of_nat n - Z.of_nat (List.length b).
Proof.
  intros (Hn & l1 & p & l2 & Hc & ->). rewrite (cursor_remain _ _ _ _ Hc). pose proof (cursor_size _ _ _ _ Hc) as Hs.
  pose proof (cur_wf _ _ _ _ Hc) as Hw. rewrite remain_eq by done. rewrite <- Hn, (cur_pages _ _ _ _ Hc), !length_app.
  cbn [List.length]. pose proof (cursor_before _ _ _ _ Hc). rewrite length_take. unfold buf_wf, buf_size in *. lia.
Qed.

Lemma written_small e n b : written e n b -> buffer_size * Z.of_nat n < 2 ^ 63.
Proof. intros (Hn & l1 & p & l2 & Hc & _). rewrite <- Hn, <- sized_bytes by apply Hc. apply Hc. Qed.

Lemma wrote_cursor e l1 p l2 x p' :
  cursor e l1 p l2 -> Z.of_nat (List.length x) <= remain p -> wrote p x p' ->
  buf_size p' = buf_size p /\ buf_wf p' /\ _used p' = _used p + Z.of_nat (List.length x).
Proof.
  intros Hc Hr Hw. pose proof (cur_wf _ _ _ _ Hc) as Hp. rewrite remain_eq in Hr by done.
  assert (Hs : buf_size p' = buf_size p) by (unfold buf_size; by rewrite (wr_size _ _ _ Hw)).
  split; [done|]. split; [|by apply Hw]. eapply wrote_wf; [done| |done]. unfold room. lia.
Qed.

Lemma written_same e n b x p p' :
  written e n b -> pages e !! _itor e = Some p -> Z.of_nat (List.length x) <= remain p -> wrote p x p' ->
  written (e <| pages ::= <[_itor e := p']> |> <| enc_used ::= Z.add (Z.of_nat (List.length x)) |>) n (b ++ x).
Proof.
  intros (Hn & l1 & p0 & l2 & Hc & ->) Hp Hr Hw. rewrite (cursor_at _ _ _ _ Hc) in Hp. injection Hp as ->.
  destruct (wrote_cursor _ _ _ _ _ _ Hc Hr Hw) as (W1 & W2 & W3).
  split; [by rewrite <- Hn; apply length_insert|].
  exists l1, p', l2. split; [by apply (cursor_same e l1 p l2 Hc)|]. by rewrite (wr_bytes _ _ _ Hw), app_assoc.
Qed.

Lemma written_step e n b x p :
  written e n b -> pages e !! _itor e = Some p -> remain p < Z.of_nat (List.length x) <= buffer_size ->
  Z.of_nat (List.length x) <= enc_remain e ->
  let m := Z.to_nat (remain p) in
  room (Z.of_nat (List.length (take m x))) p /\ buf_wf p /\
  exists q, pages e !! S (_itor e) = Some q /\ buf_wf (reset q) /\ room (Z.of_nat (List.length (drop m x))) (reset q) /\
  forall p' q', wrote p (take m x) p' -> wrote (reset q) (drop m x) q' ->
  written {| pages := <[_itor e := p']> (<[S (_itor e) := q']> (pages e)); _itor := S (_itor e);
             enc_used := enc_used e + Z.of_nat (List.length x) |} n (b ++ x).
Proof.
  intros (Hn & l1 & p0 & l2 & Hc & ->) Hp Hx Hr m. rewrite (cursor_at _ _ _ _ Hc) in Hp. injection Hp as ->.
  rewrite (cursor_next _ _ _ _ Hc). rewrite (cursor_remain _ _ _ _ Hc) in Hr. pose proof (cursor_size _ _ _ _ Hc) as Hps.
  pose proof (cur_wf _ _ _ _ Hc) as Hw. assert (Hrm : 0 <= remain p) by (rewrite remain_eq by done; unfold buf_wf in Hw; lia).
  destruct l2 as [|q l3]; [cbn [List.length] in Hr; lia|].
  assert (Hqs : buf_size q = buffer_size).
  { pose proof (cur_sized _ _ _ _ Hc) as Hs. rewrite (cur_pages _ _ _ _ Hc) in Hs.
    apply Forall_app in Hs as [_ Hs]. apply Forall_cons in Hs as [_ Hs]. by apply Forall_cons in Hs as [Hs _]. }
  assert (Hm : Z.of_nat m = remain p) by (unfold m; lia).
  assert (Hqw : buf_wf (reset q)) by (unfold buf_wf, buf_size in *; cbn [reset _used _buf]; unfold buffer_size in *; lia).
  assert (Hqr : room (Z.of_nat (List.length (drop m x))) (reset q)).
  { unfold room, buf_size in *. cbn [reset _used _buf]. rewrite length_drop. lia. }
  rewrite remain_eq in Hm by done. split; [unfold room; rewrite length_take; lia|]. split; [done|].
  exists q. split; [done|]. split; [done|]. split; [done|]. intros p' q' W1 W2.
  assert (Hb : buf_size p' = buf_size p) by (unfold buf_size; by rewrite (wr_size _ _ _ W1)).
  assert (Hu : _used p' = buf_size p') by (rewrite (wr_used _ _ _ W1), Hb, length_take; lia).
  split; [cbn [pages]; by rewrite !length_insert|].
  exists (l1 ++ [p']), q', l3. split.
  - apply (cursor_step e l1 p (q :: l3) Hc q l3); try done.
    + unfold buf_size. by rewrite (wr_size _ _ _ W2).
    + by eapply wrote_wf.
    + rewrite (wr_used _ _ _ W2), length_drop. cbn [reset _used]. rewrite remain_eq by done. lia.
  - rewrite (wr_bytes _ _ _ W2), flat_app. cbn [reset _used Z.to_nat take app]. rewrite take_0, app_nil_l, <- !app_assoc. f_equal.
    change (flat [p']) with (_buf p' ++ []). rewrite app_nil_r.
    assert (Ep : _buf p' = take (Z.to_nat (_used p)) (_buf p) ++ take m x).
    { rewrite <- (wr_bytes _ _ _ W1), Hu. unfold buf_size. rewrite Nat2Z.id. by rewrite firstn_all. }
    by rewrite Ep, <- app_assoc, take_drop.
Qed.

Lemma append_wrote p x : buf_wf p -> room (Z.of_nat (List.length x)) p -> wrote p x (append x p).
Proof.
  intros Hw Hr. unfold append. rewrite remain_eq, Z.min_l by (done || unfold room in Hr; lia). rewrite Nat2Z.id, firstn_all.
  by apply store_wrote.
Qed.

Lemma written_at e n b : written e n b -> exists p, pages e !! _itor e = Some p /\ buf_wf p.
Proof. intros (_ & l1 & p & l2 & Hc & _). exists p. split; [by apply (cursor_at _ _ _ _ Hc)|apply Hc]. Qed.

Lemma put64_written e n b v :
  written e n b -> 8 <= enc_remain e -> exists e', put64 v e = Some (true, e') /\ written e' n (b ++ Wire.le 8 v).
Proof.
  intros Hw Hr. destruct (written_at _ _ _ Hw) as (p & Hp & Hpw). unfold put64.
  rewrite (proj2 (Z.ltb_ge _ _) Hr), Hp. cbn [mbind option_bind].
  pose proof (Wire.length_le 8 v) as Hl. assert (Hl' : Z.of_nat (List.length (Wire.le 8 v)) = 8) by lia.
  destruct (Z.ltb_spec (remain p) 8) as [Hlt|Hge].
  - destruct (written_step e n b (Wire.le 8 v) p Hw Hp) as (R1 & _ & q & -> & Q1 & Q2 & Hs); [unfold buffer_size; lia|lia|].
    cbn [mbind option_bind]. eexists. split; [done|]. rewrite <- Hl'.
    assert (Hrm : 0 <= remain p) by (rewrite remain_eq by done; unfold buf_wf in Hpw; lia).
    apply Hs.
    + pose proof (store_wrote p _ Hpw R1) as W. rewrite length_take, Hl in W.
      replace (Z.of_nat (Z.to_nat (remain p) `min` 8)) with (remain p) in W by lia. done.
    + pose proof (store_wrote (reset q) _ Q1 Q2) as W. rewrite length_drop, Hl in W.
      replace (Z.of_nat (8 - Z.to_nat (remain p))) with (Z.of_nat (List.length (Wire.le 8 v)) - remain p) in W by lia. done.
  - eexists. split; [done|]. pose proof (store_wrote p (Wire.le 8 v) Hpw) as W. rewrite Hl' in W.
    pose proof (written_same e n b (Wire.le 8 v) p _ Hw Hp ltac:(lia) (W ltac:(unfold room; rewrite remain_eq in Hge by done; lia))) as W'.
    rewrite Hl' in W'. exact W'.
Qed.

Lemma put_bytes_written e n b x :
  written e n b -> Z.of_nat (List.length x) <= enc_remain e -> Z.of_nat (List.length x) <= buffer_size ->
  exists e', put_bytes x e = Some (true, e') /\ written e' n (b ++ x).
Proof.
  intros Hw Hr Hx. destruct (written_at _ _ _ Hw) as (p & Hp & Hpw). unfold put_bytes.
  rewrite (proj2 (Z.ltb_ge _ _) Hr), Hp. cbn [mbind option_bind].
  destruct (Z.ltb_spec (remain p) (Z.of_nat (List.length x))) as [Hlt|Hge].
  - destruct (written_step e n b x p Hw Hp) as (R1 & R2 & q & -> & Q1 & Q2 & Hs); [lia|lia|].
    cbn [mbind option_bind]. eexists. split; [done|]. apply Hs; by apply append_wrote.
  - eexists. split; [done|]. apply (written_same e n b x p); [done..|]. apply append_wrote; [done|].
    unfold room. rewrite remain_eq in Hge by done. lia.
Qed.

Lemma put_string_written e n b v :
  written e n b -> LengthString v <= enc_remain e -> Z.of_nat (List.length v) <= buffer_size ->
  exists e', put_string v e = Some (true, e') /\ written e' n (b ++ enc_string v).
Proof.
  intros Hw Hr Hv. unfold LengthString in Hr.
  destruct (put64_written e n b (Z.of_nat (List.length v)) Hw) as (e1 & E1 & W1); [lia|].
  destruct (put_bytes_written e1 n _ v W1) as (e2 & E2 & W2); [|done|].
  - rewrite (written_remain _ _ _ W1). rewrite (written_remain _ _ _ Hw) in Hr. rewrite length_app, Wire.length_le. lia.
  - exists e2. unfold put_string. rewrite E1. cbn [mbind option_bind]. split; [done|].
    unfold enc_string. by rewrite app_assoc.
Qed.

Lemma append_written e n b pg :
  written e n b -> Z.of_nat (List.length pg) = buffer_size -> buffer_size * Z.of_nat (S n) < 2 ^ 63 ->
  written (append_buffer {| _buf := pg; _used := 0 |} e) (S n) b.
Proof.
  intros (Hn & l1 & p & l2 & [C1 C2 C3 C4 C5 C6] & Hb) Hpg Hs.
  change (append_buffer {| _buf := pg; _used := 0 |} e) with
    {| pages := pages e ++ [{| _buf := pg; _used := 0 |}]; _itor := _itor e; enc_used := enc_used e |}.
  assert (S1 : sized (pages e ++ [{| _buf := pg; _used := 0 |}])) by (apply Forall_app; split; [done|by repeat constructor]).
  split; [cbn [pages]; rewrite length_app; cbn [List.length]; lia|].
  exists l1, p, (l2 ++ [{| _buf := pg; _used := 0 |}]). split; [|done]. split; cbn [pages _itor enc_used]; try done.
  - by rewrite C1, <- app_assoc.
  - rewrite sized_bytes, length_app by done. cbn [List.length]. rewrite Hn. replace (n + 1)%nat with (S n) by lia. done.
Qed.

Section pages.
Context (pool : nat -> list Z) (Hpool : forall i, Z.of_nat (List.length (pool i)) = buffer_size).

Definition pair_ok (pr : list Z * list Z) : Prop := LengthString (fst pr) + LengthString (snd pr) <= buffer_size.

Definition enc_pair (pr : list Z * list Z) : list Z := enc_string (fst pr) ++ enc_string (snd pr).

Lemma length_enc_string v : Z.of_nat (List.length (enc_string v)) = LengthString v.
Proof. unfold enc_string, LengthString. rewrite length_app, Wire.length_le. lia. Qed.

Lemma put_pair_written pr e n b :
  pair_ok pr -> written e n b -> buffer_size * Z.of_nat (S n) < 2 ^ 63 ->
  exists e' n', put_pair pool pr e = Some e' /\ (n' <= S n)%nat /\ written e' n' (b ++ enc_pair pr).
Proof.
  intros Hpr Hw Hs. unfold pair_ok in Hpr. unfold put_pair.
  set (e0 := if enc_remain e <? _ then _ else e).
  assert (H0 : exists n', (n' <= S n)%nat /\ written e0 n' b /\ LengthString (fst pr) + LengthString (snd pr) <= enc_remain e0).
  { unfold e0. destruct (Z.ltb_spec (enc_remain e) (LengthString (fst pr) + LengthString (snd pr))) as [Hlt|Hge].
    - exists (S n). split; [lia|]. pose proof (append_written e n b (pool (List.length (pages e))) Hw (Hpool _) Hs) as W.
      split; [exact W|]. rewrite (written_remain _ _ _ W). pose proof (written_remain _ _ _ Hw). 
      assert (0 <= enc_remain e) by (unfold enc_remain; apply u64_range). unfold buffer_size in *. lia.
    - exists n. split; [lia|]. done. }
  destruct H0 as (n' & Hn' & W0 & R0). clearbody e0. clear Hw Hs e.
  unfold LengthString in *.
  destruct (put_string_written e0 n' b (fst pr) W0) as (e1 & E1 & W1); [unfold LengthString; lia|lia|].
  destruct (put_string_written e1 n' _ (snd pr) W1) as (e2 & E2 & W2); [|lia|].
  { rewrite (written_remain _ _ _ W1). rewrite (written_remain _ _ _ W0) in R0. rewrite length_app.
    pose proof (length_enc_string (fst pr)). unfold LengthString in *. lia. }
  exists e2, n'. rewrite E1. cbn [mbind option_bind snd]. rewrite E2. cbn [mbind option_bind snd].
  split; [done|]. split; [done|]. unfold enc_pair. by rewrite app_assoc.
Qed.

Lemma put_pairs_written prs e n b :
  Forall pair_ok prs -> written e n b -> buffer_size * Z.of_nat (n + List.length prs) < 2 ^ 63 ->
  exists e' n', put_pairs pool prs e = Some e' /\ (n' <= n + List.length prs)%nat /\ written e' n' (b ++ concat (enc_pair <$> prs)).
Proof.
  intros Hprs. revert e n b. induction Hprs as [|pr prs Hpr _ IH]; intros e n b Hw Hs; cbn [List.length] in Hs.
  - exists e, n. rewrite app_nil_r. split; [done|]. split; [lia|done].
  - destruct (put_pair_written pr e n b Hpr Hw) as (e1 & n1 & E1 & Hn & W1); [unfold buffer_size in *; lia|].
    destruct (IH e1 n1 _ W1) as (e2 & n2 & E2 & Hn2 & W2); [unfold buffer_size in *; lia|].
    exists e2, n2. split; [unfold put_pairs in *; cbn [foldl mbind option_bind]; by rewrite E1|].
    split; [cbn [List.length]; lia|]. cbn [fmap list_fmap concat]. by rewrite app_assoc.
Qed.

End pages.

(** ** Decoding from pages *)

(** [rest] is what has not been read. *)
Definition reading (e : buffer_list_encoder) (rest : list Z) : Prop :=
  exists l1 p l2, cursor e l1 p l2 /\ rest = at_append p ++ flat l2.

Lemma length_at_append p : buf_wf p -> Z.of_nat (List.length (at_append p)) = remain p.
Proof. intros Hw. unfold at_append. rewrite remain_eq, length_drop by done. unfold buf_wf, buf_size in *. lia. Qed.

Lemma cursor_after e l1 p l2 : cursor e l1 p l2 -> sized l2.
Proof.
  intros [C1 _ C3 _ _ _]. rewrite C1 in C3. apply Forall_app in C3 as [_ C3]. by apply Forall_cons in C3 as [_ C3].
Qed.

Lemma reading_remain e rest : reading e rest -> enc_remain e = Z.of_nat (List.length rest).
Proof.
  intros (l1 & p & l2 & Hc & ->). rewrite (cursor_remain _ _ _ _ Hc), length_app, Nat2Z.inj_add.
  rewrite length_at_append, flat_length; [done|by eapply cursor_after|apply Hc].
Qed.

Lemma app_split {A} (l1 l2 x y : list A) :
  l1 ++ l2 = x ++ y -> (List.length x <= List.length l1)%nat -> exists r, l1 = x ++ r /\ y = r ++ l2.
Proof.
  intros E Hl. exists (drop (List.length x) l1). apply (f_equal (fun l => (take (List.length x) l, drop (List.length x) l))) in E.
  injection E as E1 E2. rewrite take_app_le, take_app_length in E1 by done. rewrite drop_app_le, drop_app_length in E2 by done.
  split; [|done]. by rewrite <- E1 at 1; rewrite take_drop.
Qed.

Lemma inc_cursor p x r :
  buf_wf p -> at_append p = x ++ r ->
  let p' := inc (Z.of_nat (List.length x)) p in
  buf_wf p' /\ buf_size p' = buf_size p /\ _used p' = _used p + Z.of_nat (List.length x) /\ at_append p' = r.
Proof.
  intros Hw E. destruct (inc_gets p x r Hw E) as (I1 & I2 & I3). pose proof (at_append_room p x r Hw E) as Hr.
  cbn zeta. split; [done|]. split; [unfold buf_size; by rewrite I2|]. split; [|done]. cbn [inc _used]. lia.
Qed.

Section take.
Context (e : buffer_list_encoder) (x rest : list Z).
Hypothesis Hread : reading e (x ++ rest).
Hypothesis Hx : Z.of_nat (List.length x) <= buffer_size.

Lemma take_room : Z.of_nat (List.length x) <= enc_remain e.
Proof. rewrite (reading_remain _ _ Hread), length_app. lia. Qed.

Lemma take_here p :
  pages e !! _itor e = Some p -> Z.of_nat (List.length x) <= remain p ->
  take (List.length x) (at_append p) = x /\
  reading (e <| pages ::= <[_itor e := inc (Z.of_nat (List.length x)) p]> |> <| enc_used ::= Z.add (Z.of_nat (List.length x)) |>) rest.
Proof.
  destruct Hread as (l1 & p0 & l2 & Hc & E). intros Hp Hr. rewrite (cursor_at _ _ _ _ Hc) in Hp. injection Hp as ->.
  pose proof (cur_wf _ _ _ _ Hc) as Hw. rewrite <- length_at_append in Hr by done.
  destruct (app_split (at_append p) (flat l2) x rest (eq_sym E) ltac:(lia)) as (r & E1 & ->).
  rewrite E1, take_app_length. split; [done|]. destruct (inc_cursor p x r Hw E1) as (I1 & I2 & I3 & I4).
  exists l1, (inc (Z.of_nat (List.length x)) p), l2. split; [by apply (cursor_same e l1 p l2 Hc)|]. by rewrite I4.
Qed.

Lemma take_next p :
  pages e !! _itor e = Some p -> remain p < Z.of_nat (List.length x) ->
  let n := remain p in
  exists q, pages e !! S (_itor e) = Some q /\ Z.of_nat (List.length x) - n <= remain (reset q) /\
  take (Z.to_nat n) (at_append p) ++ take (Z.to_nat (Z.of_nat (List.length x) - n)) (at_append (reset q)) = x /\
  reading {| pages := <[_itor e := inc n p]> (<[S (_itor e) := inc (Z.of_nat (List.length x) - n) (reset q)]> (pages e));
             _itor := S (_itor e); enc_used := enc_used e + Z.of_nat (List.length x) |} rest.
Proof.
  destruct Hread as (l1 & p0 & l2 & Hc & E). intros Hp Hr n. pose proof take_room as Hroom.
  rewrite (cursor_at _ _ _ _ Hc) in Hp. injection Hp as ->. rewrite (cursor_next _ _ _ _ Hc).
  rewrite (cursor_remain _ _ _ _ Hc) in Hroom. pose proof (cur_wf _ _ _ _ Hc) as Hw.
  pose proof (length_at_append p Hw) as Hl. fold n in Hl, Hr, Hroom.
  destruct l2 as [|q l3]; [cbn [List.length] in Hroom; lia|].
  assert (Hqs : buf_size q = buffer_size) by (pose proof (cursor_after _ _ _ _ Hc) as Hs; by apply Forall_cons in Hs as [Hs _]).
  assert (Hqw : buf_wf (reset q)) by (unfold buf_wf, buf_size in *; cbn [reset _used _buf]; unfold buffer_size in *; lia).
  destruct (app_split x rest (at_append p) (flat (q :: l3)) E ltac:(lia)) as (x2 & Ex & Ef).
  assert (Hl2 : Z.of_nat (List.length x2) = Z.of_nat (List.length x) - n) by (rewrite Ex, length_app; lia).
  change (flat (q :: l3)) with (_buf q ++ flat l3) in Ef.
  destruct (app_split (_buf q) (flat l3) x2 rest Ef) as (r & Eq & Er); [unfold buf_size in Hqs; lia|].
  assert (Ea : at_append (reset q) = x2 ++ r) by exact Eq. rewrite <- Hl2.
  destruct (inc_cursor (reset q) x2 r Hqw Ea) as (I1 & I2 & I3 & I4).
  exists q. split; [done|]. split; [rewrite <- length_at_append, Ea, length_app by done; lia|]. split.
  - rewrite Nat2Z.id, Ea, take_app_length, take_ge by lia. done.
  - exists (l1 ++ [inc n p]), (inc (Z.of_nat (List.length x2)) (reset q)), l3. split; [|by rewrite I4, Er].
    apply (cursor_step e l1 p (q :: l3) Hc q l3); try done. rewrite I3. cbn [reset _used]. lia.
Qed.

End take.

Lemma reading_at e rest : reading e rest -> exists p, pages e !! _itor e = Some p.
Proof. intros (l1 & p & l2 & Hc & _). exists p. apply (cursor_at _ _ _ _ Hc). Qed.

Lemma get64_reading e v rest :
  0 <= v < 2 ^ 64 -> reading e (Wire.le 8 v ++ rest) -> exists e', get64 e = Some (Some v, e') /\ reading e' rest.
Proof.
  intros Hv Hr. assert (Hl : Z.of_nat (List.length (Wire.le 8 v)) = 8) by (by rewrite Wire.length_le).
  assert (Hx : Z.of_nat (List.length (Wire.le 8 v)) <= buffer_size) by (rewrite Hl; unfold buffer_size; lia).
  assert (Hc : Wire.le_to_cpu (Wire.le 8 v) = v) by (rewrite Wire.le_to_cpu_le; apply Z.mod_small; done).
  pose proof (take_room e _ rest Hr) as Hroom. rewrite Hl in Hroom. unfold get64. rewrite (proj2 (Z.ltb_ge _ _) Hroom).
  destruct (reading_at _ _ Hr) as (p & Hp). rewrite Hp. cbn [mbind option_bind].
  destruct (Z.ltb_spec (remain p) 8) as [Hlt|Hge].
  - destruct (take_next e _ rest Hr Hx p Hp) as (q & -> & _ & Ex & He); [lia|]. cbn [mbind option_bind].
    rewrite Hl in Ex, He. rewrite Ex, Hc. by eexists.
  - destruct (take_here e _ rest Hr p Hp) as [Ex He]; [lia|]. rewrite Wire.length_le in Ex. rewrite Hl in He.
    rewrite Ex, Hc. by eexists.
Qed.

Lemma get_bytes_reading e x rest :
  Z.of_nat (List.length x) <= buffer_size -> reading e (x ++ rest) ->
  exists e', get_bytes (Z.of_nat (List.length x)) e = Some (Some x, e') /\ reading e' rest.
Proof.
  intros Hx Hr. pose proof (take_room e _ rest Hr) as Hroom. unfold get_bytes. rewrite (proj2 (Z.ltb_ge _ _) Hroom).
  destruct (reading_at _ _ Hr) as (p & Hp). rewrite Hp. cbn [mbind option_bind].
  destruct (Z.ltb_spec (remain p) (Z.of_nat (List.length x))) as [Hlt|Hge].
  - destruct (take_next e x rest Hr Hx p Hp Hlt) as (q & -> & Hq & Ex & He). cbn [mbind option_bind].
    rewrite (proj2 (Z.ltb_ge _ _) Hq), Ex. by eexists.
  - destruct (take_here e x rest Hr p Hp Hge) as [Ex He]. rewrite Nat2Z.id, Ex. by eexists.
Qed.

Lemma get_string_reading e v rest :
  Z.of_nat (List.length v) <= buffer_size -> reading e (enc_string v ++ rest) ->
  exists e', get_string e = Some (Some v, e') /\ reading e' rest.
Proof.
  intros Hv Hr. unfold enc_string in Hr. rewrite <- app_assoc in Hr.
  destruct (get64_reading e (Z.of_nat (List.length v)) _ ltac:(unfold buffer_size in Hv; lia) Hr) as (e1 & E1 & R1).
  unfold get_string. rewrite E1. cbn [mbind option_bind]. by apply get_bytes_reading.
Qed.

Definition emplace_pair (t : gmap (list Z) (list Z)) (pr : list Z * list Z) : gmap (list Z) (list Z) :=
  if t !! fst pr then t else <[fst pr := snd pr]> t.

Lemma get_pairs_reading prs e t rest :
  Forall pair_ok prs -> reading e (concat (enc_pair <$> prs) ++ rest) ->
  get_pairs (List.length prs) e t = Some (foldl emplace_pair t prs).
Proof.
  intros Hprs. revert e t. induction Hprs as [|[k v] prs Hpr _ IH]; intros e t Hr; [done|].
  cbn [fmap list_fmap concat] in Hr. unfold enc_pair in Hr at 1. cbn [fst snd] in Hr. rewrite <- !app_assoc in Hr.
  unfold pair_ok, LengthString in Hpr. cbn [fst snd] in Hpr.
  destruct (get_string_reading e k _ ltac:(lia) Hr) as (e1 & E1 & R1).
  destruct (get_string_reading e1 v _ ltac:(lia) R1) as (e2 & E2 & R2).
  cbn [List.length get_pairs]. rewrite E1. cbn [mbind option_bind]. rewrite E2. cbn [mbind option_bind].
  exact (IH e2 (emplace_pair t (k, v)) R2).
Qed.

Lemma emplace_pairs prs t :
  NoDup prs.*1 -> (forall k, k ∈ prs.*1 -> t !! k = None) -> foldl emplace_pair t prs = list_to_map prs ∪ t.
Proof.
  revert t. induction prs as [|[k v] prs IH]; intros t Hn Ht; [by rewrite list_to_map_nil, map_empty_union|].
  cbn [fmap list_fmap fst] in *. apply NoDup_cons in Hn as [Hk Hn]. cbn [foldl].
  assert (E : emplace_pair t (k, v) = <[k := v]> t) by (unfold emplace_pair; cbn [fst snd]; by rewrite (Ht k (list_elem_of_here _ _))).
  rewrite E, IH; [|done|].
  - rewrite list_to_map_cons,  <- insert_union_l, insert_union_r; [done|]. by apply not_elem_of_list_to_map.
  - intros k' Hk'. rewrite lookup_insert_ne by (intros ->; done). apply Ht. by right.
Qed.

Lemma written_flat e n b : written e n b -> sized (pages e) /\ list_bytes (pages e) < 2 ^ 63 /\ exists rest, flat (pages e) = b ++ rest.
Proof.
  intros (Hn & l1 & p & l2 & Hc & ->). split; [apply Hc|]. split; [apply Hc|]. rewrite (cur_pages _ _ _ _ Hc), flat_app.
  exists (drop (Z.to_nat (_used p)) (_buf p) ++ flat l2). rewrite <- app_assoc. f_equal.
  rewrite app_assoc, take_drop. done.
Qed.

Definition table_ok (t : gmap (list Z) (list Z)) : Prop :=
  map_Forall (fun k v => pair_ok (k, v)) t /\ buffer_size * (2 + Z.of_nat (base.size t)) < 2 ^ 62.

(** A table in some order. *)
Definition enc_table (prs : list (list Z * list Z)) : list Z :=
  Wire.le 8 (Z.of_nat (List.length prs)) ++ concat (enc_pair <$> prs).

Section tables.
Context (iterate : gmap (list Z) (list Z) -> list (list Z * list Z)) (pool : nat -> list Z).
Hypothesis Hiterate : forall t, iterate t ≡ₚ map_to_list t.
Hypothesis Hpool : forall i, Z.of_nat (List.length (pool i)) = buffer_size.

Lemma iterate_ok t : table_ok t -> Forall pair_ok (iterate t) /\ List.length (iterate t) = base.size t.
Proof.
  intros [H1 _]. rewrite (Forall_Permutation pair_ok pair_ok ltac:(done) _ _ (Hiterate t)), (Permutation_length (Hiterate t)).
  split; [|by rewrite length_map_to_list].
  apply Forall_forall. intros [k v] Hkv. apply elem_of_map_to_list in Hkv. exact (H1 _ _ Hkv).
Qed.

Lemma encode_table_spec t :
  table_ok t -> exists bl rest, encode_table iterate pool t = Some bl /\ sized bl /\ 0 < list_bytes bl < 2 ^ 62 /\
    flat bl = enc_table (iterate t) ++ rest.
Proof.
  intros Ht. destruct (iterate_ok t Ht) as [Hi Hl]. destruct Ht as [_ Hs].
  assert (W0 : written (new_encoder (make_buffer_list pool 1)) 1 []).
  { split; [done|]. exists [], {| _buf := pool 0; _used := 0 |}, []. split; [|by rewrite take_0].
    assert (S1 : sized (make_buffer_list pool 1)) by (repeat constructor; apply Hpool).
    split; try done.
    - unfold buf_wf, buf_size. cbn [_used _buf]. rewrite Hpool. unfold buffer_size. lia.
    - cbn [new_encoder pages]. rewrite sized_bytes by done. done. }
  destruct (put64_written _ _ _ (Z.of_nat (base.size t)) W0) as (e1 & E1 & W1).
  { rewrite (written_remain _ _ _ W0). unfold buffer_size. cbn [List.length]. lia. }
  destruct (put_pairs_written pool Hpool (iterate t) e1 1 _ Hi W1) as (e2 & n & E2 & Hn & W2); [rewrite Hl; unfold buffer_size in *; lia|].
  destruct (written_flat _ _ _ W2) as (S2 & _ & rest & F2).
  exists (pages e2), rest. unfold encode_table. rewrite E1. cbn [mbind option_bind snd]. rewrite E2.
  split; [done|]. split; [done|]. split; [|rewrite F2; unfold enc_table; by rewrite Hl].
  destruct W2 as (Hn2 & l1 & p & l2 & Hc & _). rewrite sized_bytes, Hn2 by done.
  rewrite (cur_pages _ _ _ _ Hc), length_app in Hn2. cbn [List.length] in Hn2. unfold buffer_size in *. lia.
Qed.

Lemma length_enc_pair pr : (16 <= List.length (enc_pair pr))%nat.
Proof. unfold enc_pair, enc_string. rewrite !length_app, !Wire.length_le. lia. Qed.

Lemma decode_table_spec {B C} prs t bl rest (k : kvstore B C) :
  prs ≡ₚ map_to_list t -> Forall pair_ok prs -> sized bl -> Forall (fun p => _used p = 0) bl ->
  list_bytes bl < 2 ^ 63 -> flat bl = enc_table prs ++ rest -> table k = ∅ ->
  checkpoint_read_complete 0 bl k = Some (0, k <| table := t |>).
Proof.
  intros Hp Hprs Hs Hu Hb Hf Hk.
  assert (Hl : Z.of_nat (List.length prs) < 2 ^ 64).
  { assert (Hle : (List.length prs <= List.length (flat bl))%nat).
    { rewrite Hf. unfold enc_table. rewrite !length_app. clear. induction prs as [|pr prs IH]; cbn [fmap list_fmap concat List.length]; [lia|].
      rewrite length_app. pose proof (length_enc_pair pr). rewrite Wire.length_le in *. lia. }
    pose proof (flat_length _ Hs). rewrite sized_bytes in Hb by done. lia. }
  assert (Hr : reading (new_encoder bl) (enc_table prs ++ rest)).
  { destruct bl as [|p bl].
    { apply (f_equal (@List.length Z)) in Hf. unfold enc_table in Hf. rewrite !length_app, Wire.length_le in Hf. done. }
    apply Forall_cons in Hu as [Hu _]. exists [], p, bl. split; [split; try done|].
    - apply Forall_cons in Hs as [Hs _]. unfold buf_wf. rewrite Hs, Hu. unfold buffer_size. lia.
    - rewrite <- Hf. unfold at_append. rewrite Hu. done. }
  unfold enc_table in Hr. rewrite <- app_assoc in Hr.
  destruct (get64_reading _ (Z.of_nat (List.length prs)) _ ltac:(lia) Hr) as (e & E & R). unfold checkpoint_read_complete. change (truthy 0) with false.
  cbv iota. rewrite E. cbn [mbind option_bind]. rewrite Nat2Z.id, (get_pairs_reading _ _ _ _ Hprs R), Hk. cbn [mbind option_bind].
  rewrite emplace_pairs.
  - rewrite map_union_empty. do 3 f_equal. rewrite (list_to_map_proper prs (map_to_list t)); [apply list_to_map_to_list| |done].
    rewrite Hp. apply NoDup_fst_map_to_list.
  - rewrite Hp. apply NoDup_fst_map_to_list.
  - intros k' _. apply lookup_empty.
Qed.

End tables.

(** ** Checkpoints on blobs *)

Class CkptLaws (C : Type) `{CkptBlobs C} `{!ObjectStore.BlobLaws C} := {
  sync_md_law (c : C) h id e c' :
    ObjectStore.opened c h id -> spdk_blob_sync_md c (Some h) = (e, c') ->
    ObjectStore.keeps ObjectStore.live ObjectStore.clusters ObjectStore.data ObjectStore.opened (fun _ => True) c c';
  num_clusters_law (c : C) h id :
    ObjectStore.opened c h id -> spdk_blob_get_num_clusters c (Some h) = ObjectStore.clusters c id;
  close_keeps_law (c : C) h id e c' :
    ObjectStore.opened c h id -> ObjectStore.spdk_blob_close c (Some h) = (e, c') ->
    ObjectStore.clusters c' id = ObjectStore.clusters c id /\ forall o, ObjectStore.data c' id o = ObjectStore.data c id o;
}.

Section checkpoints.
Context `{CkptLaws C} {B : Type}.
Context (iterate : gmap (list Z) (list Z) -> list (list Z * list Z)) (pool : nat -> list Z).
Hypothesis Hiterate : forall t, iterate t ≡ₚ map_to_list t.
Hypothesis Hpool : forall i, Z.of_nat (List.length (pool i)) = buffer_size.
Implicit Types (c : C) (k : kvstore B C).

Abbreviation kept := (ObjectStore.keeps ObjectStore.live ObjectStore.clusters ObjectStore.data ObjectStore.opened).
Abbreviation live := ObjectStore.live.
Abbreviation opened := ObjectStore.opened.
Abbreviation clusters := ObjectStore.clusters.
Abbreviation data := ObjectStore.data.

(** No call on a blob that is there fails. *)
Record blobs_reliable : Prop := {
  rel_create c n : fst (fst (ObjectStore.spdk_bs_create_blob_ext c n)) = 0;
  rel_open c id : live c id -> fst (fst (ObjectStore.spdk_bs_open_blob c id)) = 0;
  rel_delete c id : live c id -> fst (ObjectStore.spdk_bs_delete_blob c id) = 0;
  rel_write c h id bl lba n : opened c h id -> fst (ObjectStore.spdk_blob_io_write c (Some h) bl lba n) = 0;
  rel_read c h id lba n : opened c h id -> fst (ObjectStore.spdk_blob_io_read c (Some h) lba n) = 0;
  rel_sync c h id : opened c h id -> fst (spdk_blob_sync_md c (Some h)) = 0;
  rel_close c h id : opened c h id -> fst (ObjectStore.spdk_blob_close c (Some h)) = 0;
}.
Hypothesis Hrel : blobs_reliable.

(** Blob [id] has the table. *)
Record holds c (id : Z) (t : gmap (list Z) (list Z)) : Prop := {
  holds_id : id <> 0;
  holds_live : live c id;
  holds_clusters : 0 < clusters c id /\ clusters c id * ObjectStore.cluster_size < 2 ^ 63;
  holds_table : exists prs, prs ≡ₚ map_to_list t /\ Forall pair_ok prs /\
    Z.of_nat (List.length (enc_table prs)) <= clusters c id * ObjectStore.cluster_size /\
    forall i, 0 <= i < Z.of_nat (List.length (enc_table prs)) -> data c id i = nth (Z.to_nat i) (enc_table prs) 0;
}.

Lemma holds_same c c' id t :
  live c' id -> clusters c' id = clusters c id -> (forall o, data c' id o = data c id o) -> holds c id t -> holds c' id t.
Proof.
  intros Hl Hc Hd [I1 I2 I3 (prs & P1 & P2 & P3 & P4)]. split; [done|done|by rewrite Hc|].
  exists prs. rewrite Hc. split_and!; try done. intros i Hi. rewrite Hd. by apply P4.
Qed.

Lemma holds_kept P c c' id t : kept P c c' -> P id -> holds c id t -> holds c' id t.
Proof.
  intros [K1 K2 K3 _] HP Ht. pose proof (holds_live _ _ _ Ht) as Hl. apply (holds_same c); try done.
  - by apply K1.
  - by apply K2.
  - intros o. by apply K3.
Qed.

Lemma start_checkpoint_spec k size :
  ObjectStore.blobid (_new_blob k) = 0 ->
  exists id h c, start_checkpoint size k = (0, k <| bs := c |> <| _new_blob := {| ObjectStore.blob := Some h; ObjectStore.blobid := id |} |>) /\
    id <> 0 /\ ~ live (bs k) id /\ live c id /\ opened c h id /\
    clusters c id = SPDK_CEIL_DIV size ObjectStore.cluster_size /\ kept (fun _ => True) (bs k) c.
Proof.
  intros Hn. unfold start_checkpoint. rewrite Hn. change (truthy 0) with false. cbv iota.
  pose proof (rel_create Hrel (bs k) (SPDK_CEIL_DIV size ObjectStore.cluster_size)) as E1.
  destruct (ObjectStore.spdk_bs_create_blob_ext _ _) as [[e id] c1] eqn:Ec. cbn [fst] in E1. subst e.
  apply ObjectStore.create_blob_law in Ec as [K1 Hc]. destruct (Hc eq_refl) as (N1 & N2 & N3 & N4).
  change (truthy 0) with false. cbv iota. change (bs (k <| bs := c1 |>)) with c1.
  pose proof (rel_open Hrel c1 id N3) as E2.
  destruct (ObjectStore.spdk_bs_open_blob c1 id) as [[e p] c2] eqn:Eo. cbn [fst] in E2. subst e.
  apply ObjectStore.open_blob_law in Eo as [K2 Ho]. destruct (Ho eq_refl) as (h & -> & Hh).
  change (truthy 0) with false. cbv iota. exists id, h, c2. split; [done|]. split; [done|]. split; [done|].
  split; [by apply K2|]. split; [done|]. split; [by rewrite (ObjectStore.keep_clusters _ _ _ _ _ _ _ K2)|].
  destruct K1 as [A1 A2 A3 A4], K2 as [B1 B2 B3 B4]. split; intros; auto.
  - rewrite B2, A2; auto.
  - rewrite B3, A3; auto.
Qed.

Lemma write_checkpoint_spec k h id bl prs rest t :
  _new_blob k = {| ObjectStore.blob := Some h; ObjectStore.blobid := id |} -> id <> 0 -> opened (bs k) h id -> live (bs k) id ->
  sized bl -> 0 < list_bytes bl < 2 ^ 62 -> clusters (bs k) id = SPDK_CEIL_DIV (list_bytes bl) ObjectStore.cluster_size ->
  flat bl = enc_table prs ++ rest -> prs ≡ₚ map_to_list t -> Forall pair_ok prs ->
  exists c, write_checkpoint (flat bl) k = (0, k <| bs := c |>) /\ opened c h id /\ holds c id t /\ kept (fun j => j <> id) (bs k) c.
Proof.
  intros Hn Hid Ho Hl Hs Hb Hc Hf Hp Hprs. unfold write_checkpoint. rewrite Hn. cbn [ObjectStore.blobid ObjectStore.blob].
  rewrite (proj2 (Z.eqb_neq id 0) Hid).
  pose proof (flat_length bl Hs) as Hfl. rewrite <- sized_bytes in Hfl by done.
  assert (Hu : list_bytes bl / ObjectStore.unit_size * ObjectStore.unit_size = list_bytes bl).
  { rewrite sized_bytes by done. unfold buffer_size, ObjectStore.unit_size. replace (4096 * Z.of_nat (List.length bl)) with (8 * Z.of_nat (List.length bl) * 512) by lia.
    rewrite Z.div_mul by done. lia. }
  assert (Hcs : list_bytes bl <= clusters (bs k) id * ObjectStore.cluster_size < 2 ^ 63).
  { rewrite Hc. unfold SPDK_CEIL_DIV, ObjectStore.cluster_size. change (1024 * 1024) with 1048576.
    pose proof (Z.div_mod (list_bytes bl + 1048576 - 1) 1048576 ltac:(lia)).
    pose proof (Z.mod_pos_bound (list_bytes bl + 1048576 - 1) 1048576 ltac:(lia)). lia. }
  rewrite Hfl. set (n := list_bytes bl / ObjectStore.unit_size) in *. unfold ObjectStore.unit_size in Hu.
  pose proof (rel_write Hrel (bs k) h id (flat bl) 0 n Ho) as E.
  destruct (ObjectStore.spdk_blob_io_write _ _ _ _ _) as [e c] eqn:Ew. cbn [fst] in E. subst e.
  apply ObjectStore.io_write_law with (id := id) in Ew as (K & L & Cl & O & D);
    [|done|done|lia|unfold ObjectStore.unit_size; lia|rewrite Hfl; unfold ObjectStore.unit_size; lia|done].
  exists c. split; [done|]. split; [done|]. split; [|done]. split; [done|done| |].
  { rewrite Cl. split; [|lia]. unfold ObjectStore.cluster_size in Hcs. lia. }
  exists prs. rewrite Cl. split; [done|]. split; [done|].
  assert (Hle : Z.of_nat (List.length (enc_table prs)) <= list_bytes bl) by (rewrite <- Hfl, Hf, length_app; lia).
  split; [lia|]. intros i Hi. rewrite (D eq_refl), decide_True by (unfold ObjectStore.unit_size; lia).
  rewrite Z.mul_0_l, Z.sub_0_r, Hf. by rewrite app_nth1 by lia.
Qed.

Lemma finish_checkpoint_spec k h id t :
  _new_blob k = {| ObjectStore.blob := Some h; ObjectStore.blobid := id |} -> opened (bs k) h id -> holds (bs k) id t ->
  let old := ObjectStore.blobid (_ckpt_blob k) in
  old = 0 \/ (live (bs k) old /\ old <> id) ->
  exists c, finish_checkpoint k
    = (0, k <| _ckpt_blob := {| ObjectStore.blob := NULL; ObjectStore.blobid := id |} |> <| _new_blob := ObjectStore.no_blob |> <| bs := c |>) /\
    holds c id t.
Proof.
  intros Hn Ho Ht old Hold. pose proof (holds_id _ _ _ Ht) as Hid. unfold finish_checkpoint. rewrite Hn.
  cbn [ObjectStore.blobid]. rewrite (proj2 (Z.eqb_neq id 0) Hid). fold old.
  set (k1 := k <| _ckpt_blob := _ |> <| _new_blob := _ |>). change (ObjectStore.blob (_ckpt_blob k1)) with (Some h).
  change (bs k1) with (bs k). pose proof (rel_sync Hrel (bs k) h id Ho) as E1.
  destruct (spdk_blob_sync_md (bs k) (Some h)) as [e c1] eqn:Es. cbn [fst] in E1. subst e.
  apply (sync_md_law _ _ _ _ _ Ho) in Es. pose proof (holds_kept _ _ _ _ _ Es I Ht) as Ht1.
  assert (Ho1 : opened c1 h id) by (apply (ObjectStore.keep_open _ _ _ _ _ _ _ Es); [done|apply Ht|done]).
  change (truthy 0) with false. cbv iota. change (bs (k1 <| bs := c1 |>)) with c1.
  change (ObjectStore.blob (_ckpt_blob (k1 <| bs := c1 |>))) with (Some h).
  pose proof (rel_close Hrel c1 h id Ho1) as E2. destruct (ObjectStore.spdk_blob_close c1 (Some h)) as [e c2] eqn:Ec.
  cbn [fst] in E2. subst e. destruct (close_keeps_law _ _ _ _ _ Ho1 Ec) as [Cl Cd].
  apply (ObjectStore.close_blob_law _ _ _ _ _ Ho1) in Ec as (K2 & L2 & _).
  assert (Ht2 : holds c2 id t) by by apply (holds_same c1).
  change (truthy 0) with false. cbv iota. destruct Hold as [Hz|[Hlo Hne]].
  - rewrite Hz. change (negb (0 =? 0)) with false. cbv iota. exists c2. done.
  - destruct (Z.eqb_spec old 0) as [Hz|Hnz]; cbn [negb]; [exists c2; done|].
    set (k2 := k1 <| bs := c1 |> <| bs := c2 |> <| _ckpt_blob ::= _ |>). change (bs k2) with c2.
    assert (Hl2 : live c2 old) by (apply K2; [done|]; by apply Es).
    pose proof (rel_delete Hrel c2 old Hl2) as E3. destruct (ObjectStore.spdk_bs_delete_blob c2 old) as [e c3] eqn:Ed.
    cbn [fst] in E3. subst e. apply ObjectStore.delete_blob_law in Ed. exists c3. split; [done|].
    by apply (holds_kept _ _ _ _ _ Ed); [|].
Qed.

(** What the store has in its checkpoint. *)
Definition checkpointed k (t : gmap (list Z) (list Z)) : Prop :=
  (ObjectStore.blobid (_ckpt_blob k) = 0 /\ t = ∅) \/ holds (bs k) (ObjectStore.blobid (_ckpt_blob k)) t.

Lemma checkpoint_spec k bl t0 :
  encode_table iterate pool (table k) = Some bl -> table_ok (table k) -> ObjectStore.blobid (_new_blob k) = 0 -> checkpointed k t0 ->
  exists b c, (let '(_, k) := start_checkpoint (list_bytes bl) k in let '(_, k) := write_checkpoint (flat bl) k in finish_checkpoint k)
      = (0, k <| _ckpt_blob := b |> <| _new_blob := ObjectStore.no_blob |> <| bs := c |>) /\
    holds c (ObjectStore.blobid b) (table k).
Proof.
  intros Hbl Hok Hn Hck. destruct (iterate_ok iterate Hiterate _ Hok) as [Hi _].
  destruct (encode_table_spec iterate pool Hiterate Hpool _ Hok) as (bl' & rest & E & Hs & Hb & Hf).
  rewrite Hbl in E. injection E as <-.
  destruct (start_checkpoint_spec k (list_bytes bl) Hn) as (id & h & c1 & -> & Hid & Hnl & Hl & Ho & Hcl & K1).
  set (k1 := k <| bs := c1 |> <| _new_blob := _ |>).
  destruct (write_checkpoint_spec k1 h id bl (iterate (table k)) rest (table k)) as (c2 & -> & Ho2 & Ht2 & K2); try done.
  set (k2 := k1 <| bs := c2 |>).
  destruct (finish_checkpoint_spec k2 h id (table k)) as (c3 & -> & Ht3); try done.
  - destruct Hck as [[Hz _]|Hh]; [by left|]. right. pose proof (holds_live _ _ _ Hh) as Hlo.
    change (ObjectStore.blobid (_ckpt_blob k2)) with (ObjectStore.blobid (_ckpt_blob k)). change (bs k2) with c2.
    assert (Hne : ObjectStore.blobid (_ckpt_blob k) <> id) by (intros E; by rewrite E in Hlo).
    split; [|done]. apply K2; [done|]. by apply K1.
  - exists {| ObjectStore.blob := NULL; ObjectStore.blobid := id |}, c3. done.
Qed.

Lemma fill_pages_spec bytes bl :
  sized bl -> Forall (fun p => _used p = 0) bl -> List.length bytes = List.length (flat bl) ->
  sized (fill_pages bytes bl) /\ Forall (fun p => _used p = 0) (fill_pages bytes bl) /\ flat (fill_pages bytes bl) = bytes.
Proof.
  intros Hs Hu Hl. unfold fill_pages. set (N := Z.to_nat buffer_size).
  assert (Hg : forall o, (o * N + List.length (flat bl) <= List.length bytes)%nat ->
    let l := imap (fun i p => {| _buf := RollingBlob.fill (_buf p) (take (List.length (_buf p)) (drop ((o + i) * N) bytes));
                                 _used := _used p |}) bl in
    sized l /\ Forall (fun p => _used p = 0) l /\ flat l = take (List.length (flat bl)) (drop (o * N) bytes)).
  { clear Hl. induction Hs as [|p bl Hp Hs IH]; intros o Ho; [split; [constructor|split; [constructor|reflexivity]]|]. cbn [imap]. apply Forall_cons in Hu as [Hu1 Hu2].
    change (flat (p :: bl)) with (_buf p ++ flat bl) in *. rewrite length_app in Ho.
    assert (HN : List.length (_buf p) = N) by (unfold buf_size in Hp; unfold N; lia).
    destruct (IH Hu2 (S o)) as (I1 & I2 & I3); [lia|].
    rewrite (imap_ext _ (fun i p => {| _buf := RollingBlob.fill (_buf p) (take (List.length (_buf p)) (drop ((S o + i) * N) bytes)); _used := _used p |}))
      by (intros i x _; unfold compose; do 4 f_equal; lia).
    set (l := imap _ bl) in *. rewrite Nat.add_0_r.
    assert (Ef : RollingBlob.fill (_buf p) (take (List.length (_buf p)) (drop (o * N) bytes)) = take (List.length (_buf p)) (drop (o * N) bytes)).
    { apply RollingBlob.fill_all. rewrite length_take, length_drop. lia. }
    rewrite Ef. split_and!.
    - constructor; [|done]. unfold buf_size. cbn [_buf]. rewrite length_take, length_drop. unfold buf_size in Hp. lia.
    - by constructor.
    - change (flat (?x :: l)) with (_buf x ++ flat l). cbn [_buf]. rewrite I3, HN.
      rewrite length_app, HN, <- take_take_drop, drop_drop. do 3 f_equal. lia. }
  destruct (Hg 0%nat) as (G1 & G2 & G3); [lia|]. cbn [Nat.add Nat.mul] in *. split; [done|]. split; [done|].
  rewrite G3, drop_0, <- Hl. apply firstn_all.
Qed.

Lemma make_buffer_list_spec n :
  sized (make_buffer_list pool n) /\ Forall (fun p => _used p = 0) (make_buffer_list pool n) /\ List.length (make_buffer_list pool n) = n.
Proof.
  unfold make_buffer_list. split_and!.
  - apply Forall_fmap, Forall_forall. intros i _. apply Hpool.
  - by apply Forall_fmap, Forall_forall.
  - by rewrite length_fmap, length_seq.
Qed.

Lemma cells_prefix (f : Z -> Z) (l : list Z) n :
  Z.of_nat (List.length l) <= n -> (forall i, 0 <= i < Z.of_nat (List.length l) -> f i = nth (Z.to_nat i) l 0) ->
  exists rest, f <$> seqZ 0 n = l ++ rest.
Proof.
  intros Hn Hf. set (bytes := f <$> seqZ 0 n). exists (drop (List.length l) bytes). rewrite <- (take_drop (List.length l) bytes) at 1. f_equal.
  apply list_eq. intros i. destruct (decide (i < List.length l)%nat) as [Hi|Hi].
  - unfold bytes. rewrite lookup_take_lt, list_lookup_fmap, lookup_seqZ_lt by lia. cbn [fmap option_fmap option_map].
    rewrite Z.add_0_l, Hf, Nat2Z.id by lia. destruct (lookup_lt_is_Some_2 _ _ Hi) as [x Hx]. rewrite Hx. f_equal. by apply nth_lookup_Some.
  - rewrite lookup_take_ge, lookup_ge_None_2 by lia. done.
Qed.

Lemma cluster_parts n :
  let sz := n * ObjectStore.cluster_size in
  4096 * (sz / 4096) = sz /\ sz / ObjectStore.unit_size * ObjectStore.unit_size = sz.
Proof.
  cbn zeta. unfold ObjectStore.cluster_size, ObjectStore.unit_size. change (1024 * 1024) with 1048576.
  replace (n * 1048576) with (256 * n * 4096) at 1 by lia. replace (n * 1048576) with (2048 * n * 512) at 2 by lia.
  rewrite !Z.div_mul by done. lia.
Qed.

Lemma read_checkpoint_spec k h id t :
  _ckpt_blob k = {| ObjectStore.blob := Some h; ObjectStore.blobid := id |} -> opened (bs k) h id -> holds (bs k) id t ->
  exists bl c prs rest, read_checkpoint (make_buffer_list pool (Z.to_nat (checkpoint_size k / 4096))) k = (0, bl, k <| bs := c |>) /\
    holds c id t /\ sized bl /\ Forall (fun p => _used p = 0) bl /\ list_bytes bl < 2 ^ 63 /\
    flat bl = enc_table prs ++ rest /\ prs ≡ₚ map_to_list t /\ Forall pair_ok prs.
Proof.
  intros Ek Hop Hh. pose proof Hh as [Hid Hl [Hc1 Hc2] (prs & P1 & P2 & P3 & P4)].
  unfold checkpoint_size, read_checkpoint. rewrite Ek. cbn [ObjectStore.blob ObjectStore.blobid].
  rewrite (proj2 (Z.eqb_neq id 0) Hid). cbn [orb]. rewrite (num_clusters_law _ _ _ Hop).
  destruct (cluster_parts (clusters (bs k) id)) as [Hpg Hun]. set (sz := clusters (bs k) id * ObjectStore.cluster_size) in *.
  assert (Hpos : 0 < sz) by (unfold sz, ObjectStore.cluster_size; lia).
  destruct (make_buffer_list_spec (Z.to_nat (sz / 4096))) as (M1 & M2 & M3). set (bl := make_buffer_list pool _) in *.
  assert (Hb : list_bytes bl = sz) by (rewrite sized_bytes, M3 by done; unfold buffer_size; lia). rewrite Hb.
  pose proof (rel_read Hrel (bs k) h id 0 (sz / ObjectStore.unit_size) Hop) as Er.
  destruct (ObjectStore.spdk_blob_io_read _ _ _ _) as [e bytes] eqn:Eb. cbn [fst] in Er. subst e.
  apply (ObjectStore.io_read_law (bs k) h id) in Eb; [|done|done|unfold ObjectStore.unit_size in *; lia|fold sz; lia].
  rewrite Z.mul_0_l, Hun in Eb. change (truthy 0) with false. cbv iota.
  pose proof (rel_close Hrel (bs k) h id Hop) as Ec. destruct (ObjectStore.spdk_blob_close (bs k) (Some h)) as [e c] eqn:Ecl.
  cbn [fst] in Ec. subst e. destruct (close_keeps_law _ _ _ _ _ Hop Ecl) as [Cl Cd].
  apply (ObjectStore.close_blob_law _ _ _ _ _ Hop) in Ecl as (_ & L2 & _).
  destruct (fill_pages_spec bytes bl M1 M2) as (F1 & F2 & F3).
  { pose proof (flat_length bl M1) as Hfl. rewrite <- sized_bytes, Hb in Hfl by done. rewrite Eb, length_fmap, length_seqZ. lia. }
  destruct (cells_prefix (data (bs k) id) (enc_table prs) sz P3 P4) as (rest & Hrest). rewrite <- Eb in Hrest.
  exists (fill_pages bytes bl), c, prs, rest. split; [done|]. split; [by apply (holds_same (bs k))|]. split; [done|]. split; [done|].
  split; [|by rewrite F3]. rewrite sized_bytes by done. unfold fill_pages. rewrite length_imap, M3. unfold buffer_size. lia.
Qed.

Lemma load_checkpoint_spec k t :
  ObjectStore.blob (_ckpt_blob k) = NULL -> checkpointed k t -> table k = ∅ ->
  exists b c, load_checkpoint pool k = Some (0, k <| table := t |> <| _ckpt_blob := b |> <| bs := c |>) /\
    ObjectStore.blobid b = ObjectStore.blobid (_ckpt_blob k) /\
    (ObjectStore.blobid b <> 0 -> holds c (ObjectStore.blobid b) t).
Proof.
  intros Hnull Hck Ht. unfold load_checkpoint, open_checkpoint. destruct Hck as [[Hz ->]|Hh].
  { rewrite Hz. cbn [Z.eqb]. exists (_ckpt_blob k), (bs k). rewrite Hz. change (E_NODEV =? E_NODEV) with true. cbv iota.
    split; [|done]. rewrite <- Ht. by destruct k. }
  set (id := ObjectStore.blobid (_ckpt_blob k)) in *. pose proof (holds_id _ _ _ Hh) as Hid.
  rewrite (proj2 (Z.eqb_neq id 0) Hid), Hnull. pose proof (rel_open Hrel (bs k) id (holds_live _ _ _ Hh)) as E.
  destruct (ObjectStore.spdk_bs_open_blob (bs k) id) as [[e p] c1] eqn:Eo. cbn [fst] in E. subst e.
  apply ObjectStore.open_blob_law in Eo as [K1 Ho]. destruct (Ho eq_refl) as (h & -> & Hop).
  pose proof (holds_kept _ _ _ _ _ K1 I Hh) as Hh1. change (0 =? E_NODEV) with false. change (truthy 0) with false. cbv iota.
  set (b := {| ObjectStore.blob := Some h; ObjectStore.blobid := id |}). set (k1 := k <| bs := c1 |> <| _ckpt_blob ::= _ |>).
  destruct (read_checkpoint_spec k1 h id t) as (bl & c & prs & rest & -> & Hh2 & S1 & S2 & S3 & S4 & S5 & S6); [done..|].
  rewrite (decode_table_spec prs t bl rest (k1 <| bs := c |>)) by done. exists b, c. done.
Qed.

End checkpoints.

End KvStore.
