(* ===== verification/KvDurable.v ===== *)
(** * The key-value store as a durable map (src/localstore/kv_store.h, kv_store.cc)

    A batch of operations is some pages of the ring; committing appends one, replaying
    reads all of them up to a blank page, and a checkpoint drops them.  With what
    KvStore shows of checkpoints, the store is a map that survives restarts.  The last
    theorems are about a full ring, a checkpoint that fails and a batch whose header
    does not fit any more. *)

From stdpp Require Import gmap list.
From S2P Require Import Prelude Wire ObjectStore RollingBlob Codec KvStore.

Module KvDurable.
Import (hints) RollingBlob.
Import (hints) ObjectStore.
Import Codec.
Import KvStore.

(** ** The batches on the ring *)

Abbreviation rpos := RollingBlob.pos.
Abbreviation back := RollingBlob.back.
Abbreviation front := RollingBlob.front.
Abbreviation stream := RollingBlob.stream.
Abbreviation rsize := RollingBlob.size.

Section ring.
Context `{RollingBlob.BlobIoLaws B} {C : Type}.
Implicit Types (rb : RollingBlob.rolling_blob B) (k : kvstore B C).

(** [bl] lies at [p]. *)
Definition lies_at rb (p : Z) (bl : list Z) : Prop :=
  forall i, 0 <= i < Z.of_nat (List.length bl) -> stream rb (p + i) = nth (Z.to_nat i) bl 0.

Definition data_size (ops : list op) : Z := 8 + Z.of_nat (List.length (enc_ops ops)).
Definition batch_len (ops : list op) : Z := SPDK_ALIGN_CEIL (data_size ops) 4096.

(** The operations of a batch, with whatever fills its last page. *)
Definition batch_at rb (p : Z) (ops : list op) : Prop :=
  exists pad, let bl := Wire.le 8 (data_size ops) ++ enc_ops ops ++ pad in
    Z.of_nat (List.length bl) = batch_len ops /\ lies_at rb p bl.

(** An operation that is read back as it is and fits a page of a checkpoint. *)
Definition good_op (o : op) : Prop := value o <> Some [] /\ Z.of_nat (List.length (enc_op o)) <= buffer_size.

Inductive batches rb : Z -> Z -> list (list op) -> Prop :=
| batches_nil p : batches rb p p []
| batches_cons p q ops l :
    ops <> [] -> Forall good_op ops -> batch_at rb p ops -> batches rb (p + batch_len ops) q l -> batches rb p q (ops :: l).

Lemma align_spec n : 0 <= n -> let a := SPDK_ALIGN_CEIL n 4096 in n <= a < n + 4096 /\ (4096 | a).
Proof.
  intros Hn. unfold SPDK_ALIGN_CEIL. cbn zeta. split; [|apply Z.divide_factor_r].
  pose proof (Z.div_mod (n + (4096 - 1)) 4096 ltac:(lia)). pose proof (Z.mod_pos_bound (n + (4096 - 1)) 4096 ltac:(lia)). lia.
Qed.

Lemma data_size_min ops : ops <> [] -> 32 <= data_size ops.
Proof.
  intros Hne. unfold data_size, enc_ops. rewrite length_app, Wire.length_le. destruct ops as [|o ops]; [done|].
  cbn [fmap list_fmap concat]. rewrite length_app. unfold enc_op, enc_string. rewrite !length_app, !Wire.length_le. lia.
Qed.

Lemma batch_len_spec ops : ops <> [] -> data_size ops <= batch_len ops < data_size ops + 4096 /\ (4096 | batch_len ops) /\ 4096 <= batch_len ops.
Proof.
  intros Hne. pose proof (data_size_min ops Hne). destruct (align_spec (data_size ops)) as [A1 A2]; [lia|].
  fold (batch_len ops) in *. split; [done|]. split; [done|]. destruct A2 as [x Hx]. lia.
Qed.

Lemma batches_range rb p q l : batches rb p q l -> p <= q /\ (4096 | q - p).
Proof.
  induction 1 as [p|p q ops l Hne _ _ _ [IH1 IH2]]; [split; [lia|rewrite Z.sub_diag; apply Z.divide_0_r]|].
  destruct (batch_len_spec ops Hne) as (B1 & B2 & B3). split; [lia|].
  replace (q - p) with (q - (p + batch_len ops) + batch_len ops) by lia. by apply Z.divide_add_r.
Qed.

Lemma batches_kept rb rb' p q l :
  (forall x, p <= x < q -> stream rb' x = stream rb x) -> batches rb p q l -> batches rb' p q l.
Proof.
  intros Hk Hb. induction Hb as [p|p q ops l Hne Hg (pad & Hl & Hlie) Hb IH]; [constructor|].
  destruct (batch_len_spec ops Hne) as (B1 & B2 & B3). destruct (batches_range _ _ _ _ Hb) as [R1 _].
  constructor; [done|done| |apply IH; intros x Hx; apply Hk; lia].
  exists pad. split; [done|]. intros i Hi. rewrite Hk by lia. by apply Hlie.
Qed.

Lemma batches_snoc rb p q l ops :
  batches rb p q l -> ops <> [] -> Forall good_op ops -> batch_at rb q ops -> batches rb p (q + batch_len ops) (l ++ [ops]).
Proof.
  intros Hb Hne Hg Ha. induction Hb as [p|p q ops' l Hne' Hg' Ha' Hb IH]; cbn [app].
  - constructor; [done..|constructor].
  - constructor; [done..|]. by apply IH.
Qed.

Lemma good_op_ok o : good_op o -> op_ok o /\ read_as o = o.
Proof.
  intros [H1 H2]. unfold enc_op, enc_string in H2. rewrite !length_app, !Wire.length_le in H2. unfold buffer_size in H2. split.
  - unfold op_ok, is_str. lia.
  - destruct o as [ky [v|]]; unfold read_as; cbn [key value default]; [|done].
    rewrite bool_decide_eq_false_2; [done|]. intros E. cbn in E. by subst v.
Qed.

Lemma good_ops_ok ops : Forall good_op ops -> Forall op_ok ops /\ read_as <$> ops = ops.
Proof.
  induction 1 as [|o ops Ho _ [IH1 IH2]]; [done|]. destruct (good_op_ok o Ho) as [O1 O2]. split; [by constructor|].
  cbn [fmap list_fmap]. by rewrite O2, IH2.
Qed.

(** *** Reading batches *)

Hypothesis Hdev : RollingBlob.reliable (B := B).

(** Positions that a load reads without a cut. *)
Definition in_reach rb (start length : Z) : Prop :=
  (RollingBlob.unit_size | start) /\ (RollingBlob.unit_size | length) /\ 0 < length /\
  rpos (back rb) <= start /\ start + length <= rpos (back rb) + rsize rb.

Lemma read_loaded rb start length bl :
  RollingBlob.rblob_wf rb -> rpos (back rb) + 2 * rsize rb < 2 ^ 63 -> in_reach rb start length ->
  Z.of_nat (List.length bl) = length ->
  exists x, RollingBlob.read start length bl true rb = (Some (0, x), stream rb <$> seqZ start length).
Proof.
  intros Hw Ht (U1 & U2 & L & R1 & R2) Hl. rewrite RollingBlob.read_load by (done || lia).
  pose proof (RollingBlob.full_wf rb Hw Ht) as Hf. set (fb := RollingBlob.full rb) in *.
  assert (Hfront : rpos (front fb) = rpos (back rb) + rsize rb) by done. assert (Hback : back fb = back rb) by done.
  assert (He : exists x, fst (RollingBlob.read start length bl false fb) = Some (0, x)).
  { unfold RollingBlob.read. pose proof (RollingBlob.used_eq fb Hf) as Hu. rewrite Hfront, Hback in Hu. rewrite Hback.
    rewrite (proj2 (Z.ltb_ge start _)), (proj2 (Z.ltb_ge (RollingBlob.used fb) length)) by lia. cbn [andb negb].
    destruct (RollingBlob.need_roll fb start length).
    - edestruct RollingBlob.readv_ok as [b1 ->]; [done|]. change (truthy 0) with false. cbv iota.
      edestruct RollingBlob.readv_ok as [b2 ->]; [done|]. by eexists.
    - edestruct RollingBlob.readv_ok as [b1 ->]; [done|]. by eexists. }
  destruct He as (x & He). exists x. destruct (RollingBlob.read start length bl false fb) as [r bl'] eqn:Er. cbn [fst] in He. subst r.
  rewrite (RollingBlob.ring_read_spec fb start length bl x bl'); try done; rewrite ?Hback, ?Hfront; lia.
Qed.

Lemma lies_seq rb p bl : lies_at rb p bl -> stream rb <$> seqZ p (Z.of_nat (List.length bl)) = bl.
Proof.
  intros Hl. apply list_eq. intros i. rewrite list_lookup_fmap. destruct (decide (i < List.length bl)%nat) as [Hi|Hi].
  - rewrite lookup_seqZ_lt by lia. cbn [fmap option_fmap option_map]. rewrite Hl, Nat2Z.id by lia.
    destruct (lookup_lt_is_Some_2 _ _ Hi) as [x Hx]. rewrite Hx. f_equal. by apply nth_lookup_Some.
  - rewrite lookup_seqZ_ge, lookup_ge_None_2 by lia. done.
Qed.

Lemma lies_split rb p bl bl' : lies_at rb p (bl ++ bl') -> lies_at rb p bl /\ lies_at rb (p + Z.of_nat (List.length bl)) bl'.
Proof.
  intros Hl. split; intros i Hi.
  - rewrite Hl by (rewrite length_app; lia). by rewrite app_nth1 by lia.
  - rewrite <- Z.add_assoc, Hl by (rewrite length_app; lia). rewrite app_nth2 by lia. f_equal. lia.
Qed.

(** The read buffer with [bl] written over it from [off]. *)
Definition overlay (off : Z) (bl : list Z) (b : spdk_buffer) : spdk_buffer :=
  {| _buf := take (Z.to_nat off) (_buf b) ++ bl ++ drop (Z.to_nat (off + Z.of_nat (List.length bl))) (_buf b); _used := 0 |}.

Lemma size_overlay off bl b :
  0 <= off -> off + Z.of_nat (List.length bl) <= buf_size b -> buf_size (overlay off bl b) = buf_size b.
Proof.
  unfold buf_size, overlay. cbn [_buf]. intros Ho Hs. rewrite !length_app, length_drop, length_take. lia.
Qed.

Lemma read_into_spec k start bl off :
  RollingBlob.rblob_wf (rblob k) -> rpos (back (rblob k)) + 2 * rsize (rblob k) < 2 ^ 63 -> 
  in_reach (rblob k) start (Z.of_nat (List.length bl)) -> lies_at (rblob k) start bl ->
  0 <= off -> off + Z.of_nat (List.length bl) <= buf_size (read_buf k) ->
  read_into start (Z.of_nat (List.length bl)) off k = Some (0, k <| read_buf := overlay off bl (read_buf k) |>).
Proof.
  intros Hw Ht Hr Hlie Ho Hs. unfold read_into. rewrite (proj2 (Z.ltb_ge _ _) Hs). unfold buf_size in Hs. set (n := Z.of_nat (List.length bl)) in *.
  destruct (read_loaded (rblob k) start n (take (Z.to_nat n) (drop (Z.to_nat off) (_buf (read_buf k)))) Hw Ht Hr) as (x & ->).
  - rewrite length_take, length_drop. unfold n. lia.
  - unfold n. by rewrite lies_seq.
Qed.

Lemma batch_size_spec k n rest :
  0 <= n < 2 ^ 64 -> _buf (read_buf k) = Wire.le 8 n ++ rest -> batch_size k = n.
Proof.
  intros Hn E. unfold batch_size. destruct (GetFixed64_gets n Hn (reset (read_buf k)) rest) as (b & -> & _); [|exact E|done].
  split; [done|]. unfold buf_size. cbn [reset _used _buf]. lia.
Qed.

(** What replaying needs of a store besides the batches. *)
Record replayable k : Prop := {
  rp_wf : RollingBlob.rblob_wf (rblob k);
  rp_top : rpos (back (rblob k)) + 2 * rsize (rblob k) < 2 ^ 63;
  rp_buf : rsize (rblob k) <= buf_size (read_buf k) < 2 ^ 63;
  rp_page : (4096 | rpos (back (rblob k)));
}.

Lemma page_reach k p length :
  replayable k -> (4096 | p) -> (4096 | length) -> 0 < length -> rpos (back (rblob k)) <= p ->
  p + length <= rpos (back (rblob k)) + rsize (rblob k) -> in_reach (rblob k) p length.
Proof.
  intros _ P1 P2 L R1 R2. assert (H8 : (RollingBlob.unit_size | 4096)) by (by exists 8).
  split; [by apply (Z.divide_trans _ _ _ H8)|]. split; [by apply (Z.divide_trans _ _ _ H8)|]. done.
Qed.

(** The header of a batch is in its first page. *)
Lemma first_page_size k m n bl :
  (8 <= m)%nat -> 0 <= n < 2 ^ 64 -> batch_size (k <| read_buf := overlay 0 (take m (Wire.le 8 n ++ bl)) (read_buf k) |>) = n.
Proof.
  intros Hm Hn. eapply batch_size_spec; [done|]. set (b := overlay _ _ _). change (read_buf (k <| read_buf := b |>)) with b. unfold b, overlay. cbn [_buf].
  rewrite take_app_ge by (rewrite Wire.length_le; lia). change (Z.to_nat 0) with 0%nat. rewrite take_0, app_nil_l, <- app_assoc. done.
Qed.

(** The two reads of a batch longer than a page leave it whole at the start of the buffer. *)
Lemma overlay_twice n bl b :
  (n <= List.length bl)%nat ->
  exists rest, _buf (overlay (Z.of_nat n) (drop n bl) (overlay 0 (take n bl) b)) = bl ++ rest.
Proof.
  intros Hn. unfold overlay at 1. cbn [_buf]. rewrite Nat2Z.id. eexists. rewrite app_assoc. f_equal. rewrite <- (take_drop n bl) at 3. f_equal.
  unfold overlay. cbn [_buf]. change (Z.to_nat 0) with 0%nat. rewrite take_0, app_nil_l.
  apply take_app_length'. rewrite length_take. lia.
Qed.

Lemma replay_batch_short p k k1 ops :
  read_into p 4096 0 k = Some (0, k1) -> batch_size k1 <= 4096 -> deserialize_op (read_buf k1) = Some ops ->
  replay_batch p k = Some (0, ops, 4096, k1).
Proof.
  intros E1 Hs E2. unfold replay_batch. rewrite E1. cbn [mbind option_bind]. change (truthy 0) with false. cbv iota.
  rewrite (proj2 (Z.ltb_ge 4096 (batch_size k1))), E2 by done. done.
Qed.

Lemma replay_batch_long p k k1 k2 len ops :
  read_into p 4096 0 k = Some (0, k1) -> 4096 < batch_size k1 -> SPDK_ALIGN_CEIL (batch_size k1) 4096 = len ->
  read_into (u64 (p + 4096)) (len - 4096) 4096 k1 = Some (0, k2) -> deserialize_op (read_buf k2) = Some ops ->
  replay_batch p k = Some (0, ops, len, k2).
Proof.
  intros E1 Hs El E2 E3. unfold replay_batch. rewrite E1. cbn [mbind option_bind]. change (truthy 0) with false. cbv iota.
  rewrite (proj2 (Z.ltb_lt 4096 (batch_size k1))), El, E2 by done. cbn [mbind option_bind]. change (truthy 0) with false. cbv iota. by rewrite E3.
Qed.

(** A buffer whose first batch is [ops]. *)
Definition starts_with (b : spdk_buffer) (ops : list op) : Prop :=
  exists rest, _buf b = Wire.le 8 (data_size ops) ++ enc_ops ops ++ rest.

Lemma replay_batch_spec k p ops :
  replayable k -> ops <> [] -> Forall good_op ops -> batch_at (rblob k) p ops -> (4096 | p) ->
  rpos (back (rblob k)) <= p -> p + batch_len ops <= rpos (back (rblob k)) + rsize (rblob k) ->
  exists b, replay_batch p k = Some (0, ops, batch_len ops, k <| read_buf := b |>) /\ buf_size b = buf_size (read_buf k) /\ starts_with b ops.
Proof.
  intros Hrp Hne Hg (pad & Hlen & Hlie) Hp R1 R2. destruct (batch_len_spec ops Hne) as (B1 & B2 & B3).
  destruct (good_ops_ok ops Hg) as [Hok Hra]. pose proof (data_size_min ops Hne) as Hmin.
  pose proof Hrp as [Hw Ht [Hb1 Hb2] _]. destruct (RollingBlob.size_pos _ (RollingBlob.wf_ring _ Hw)) as [_ Hs].
  set (bl := Wire.le 8 (data_size ops) ++ enc_ops ops ++ pad) in *. destruct (Z_of_nat_complete 4096 ltac:(done)) as [n Hn].
  pose proof Hlie as Hlie2. rewrite <- (take_drop n bl) in Hlie2. apply lies_split in Hlie2 as [L1 L2].
  assert (Hl1 : Z.of_nat (List.length (take n bl)) = 4096) by (rewrite length_take; lia). rewrite Hl1 in L2.
  assert (Hl2 : Z.of_nat (List.length (drop n bl)) = batch_len ops - 4096) by (rewrite length_drop; lia).
  set (k1 := k <| read_buf := overlay 0 (take n bl) (read_buf k) |>).
  assert (Er1 : read_into p 4096 0 k = Some (0, k1)).
  { rewrite <- Hl1. apply read_into_spec; rewrite ?Hl1; try done; try lia. apply page_reach; try done; lia. }
  assert (Hs1 : buf_size (read_buf k1) = buf_size (read_buf k)) by (apply size_overlay; lia).
  assert (Hbs : batch_size k1 = data_size ops) by (apply first_page_size; [lia|]; lia).
  destruct (Z.lt_ge_cases 4096 (data_size ops)) as [Hlt|Hge].
  - set (k2 := k1 <| read_buf := overlay 4096 (drop n bl) (read_buf k1) |>).
    assert (Er2 : read_into (u64 (p + 4096)) (batch_len ops - 4096) 4096 k1 = Some (0, k2)).
    { pose proof (RollingBlob.wf_back _ Hw). rewrite u64_small, <- Hl2 by lia. apply read_into_spec; rewrite ?Hl2, ?Hs1; try done; try lia.
      apply (page_reach k); try done; try lia; [by apply Z.divide_add_r|by apply Z.divide_sub_r]. }
    destruct (overlay_twice n bl (read_buf k)) as [rest Eb]; [lia|]. rewrite <- Hn in Eb. unfold bl at 3 in Eb. rewrite <- !app_assoc in Eb.
    assert (Hs2 : buf_size (read_buf k2) = buf_size (read_buf k)) by (rewrite <- Hs1; apply size_overlay; lia).
    exists (read_buf k2). split; [|split; [done|by exists (pad ++ rest)]]. apply (replay_batch_long p k k1 k2); rewrite ?Hbs; try done.
    rewrite (deserialize_op_gets ops (read_buf k2) _ Hok ltac:(lia) Eb). by rewrite Hra.
  - assert (El : batch_len ops = 4096) by (destruct B2 as [x Hx]; lia).
    assert (Eb : _buf (read_buf k1) = Wire.le 8 (data_size ops) ++ enc_ops ops ++ pad ++ drop n (_buf (read_buf k))).
    { change (read_buf k1) with (overlay 0 (take n bl) (read_buf k)). unfold overlay. cbn [_buf]. rewrite (take_ge bl) by lia.
      unfold bl at 1. rewrite <- !app_assoc. change (Z.to_nat 0) with 0%nat. rewrite take_0, app_nil_l. do 4 f_equal. lia. }
    exists (read_buf k1). split; [|split; [done|by exists (pad ++ drop n (_buf (read_buf k)))]]. rewrite El.
    apply (replay_batch_short p k k1); [done|by rewrite Hbs|].
    rewrite (deserialize_op_gets ops (read_buf k1) _ Hok ltac:(lia) Eb). by rewrite Hra.
Qed.

(** *** Replaying *)

(** The page at [p] has no batch. *)
Definition blank rb (p : Z) : Prop := forall i, 0 <= i < 8 -> stream rb (p + i) = 0.

Lemma deserialize_blank b rest : buf_size b < 2 ^ 63 -> _buf b = Wire.le 8 0 ++ rest -> deserialize_op b = Some [].
Proof.
  intros Hs E. unfold deserialize_op. destruct (GetFixed64_gets 0 ltac:(lia) (reset b) rest) as (b1 & -> & _); [|exact E|].
  - split; [done|]. unfold buf_size in *. cbn [reset _used _buf]. lia.
  - destruct (GetFixed64 b1) as [d b2]. done.
Qed.

Lemma replay_blank k p :
  replayable k -> blank (rblob k) p -> (4096 | p) -> rpos (back (rblob k)) <= p ->
  p + 4096 <= rpos (back (rblob k)) + rsize (rblob k) ->
  exists b, replay_batch p k = Some (0, [], 4096, k <| read_buf := b |>) /\ buf_size b = buf_size (read_buf k).
Proof.
  intros Hrp Hbl Hp R1 R2. pose proof Hrp as [Hw Ht [Hb1 Hb2] Hpg].
  set (bl := stream (rblob k) <$> seqZ p 4096).
  assert (Hl : Z.of_nat (List.length bl) = 4096) by (unfold bl; rewrite length_fmap, length_seqZ; done).
  assert (Hlie : lies_at (rblob k) p bl).
  { intros i Hi. rewrite Hl in Hi. unfold bl. symmetry. apply nth_lookup_Some. rewrite list_lookup_fmap, lookup_seqZ_lt by lia.
    cbn [fmap option_fmap option_map]. do 2 f_equal. lia. }
  assert (E8 : bl = Wire.le 8 0 ++ drop 8 bl).
  { rewrite <- (take_drop 8 bl) at 1. f_equal. apply list_eq. intros i. destruct (decide (i < 8)%nat) as [Hi|Hi].
    - rewrite lookup_take_lt by done. unfold bl. rewrite list_lookup_fmap, lookup_seqZ_lt by lia. cbn [fmap option_fmap option_map].
      rewrite Hbl by lia. do 8 (destruct i as [|i]; [done|]). lia.
    - rewrite !lookup_ge_None_2; [done|rewrite Wire.length_le; lia|rewrite length_take; lia]. }
  clearbody bl. set (k1 := k <| read_buf := overlay 0 bl (read_buf k) |>).
  assert (Er : read_into p 4096 0 k = Some (0, k1)).
  { rewrite <- Hl. apply read_into_spec; rewrite ?Hl; try done; try lia. apply (page_reach k); try done; lia. }
  assert (Hs1 : buf_size (read_buf k1) = buf_size (read_buf k)).
  { apply size_overlay; [done|]. pose proof (RollingBlob.wf_back _ Hw). lia. }
  assert (Eb : exists rest, _buf (read_buf k1) = Wire.le 8 0 ++ rest).
  { change (read_buf k1) with (overlay 0 bl (read_buf k)). unfold overlay. cbn [_buf]. change (Z.to_nat 0) with 0%nat.
    rewrite take_0, app_nil_l, E8, <- app_assoc. by eexists. }
  destruct Eb as [rest Eb]. exists (read_buf k1). split; [|done]. apply (replay_batch_short p k k1); [done| |].
  - rewrite (batch_size_spec k1 0 rest); [done|done|exact Eb].
  - apply (deserialize_blank _ rest); [lia|exact Eb].
Qed.

Lemma apply_ops_app l l' t : apply_ops (l ++ l') t = apply_ops l' (apply_ops l t).
Proof. apply foldl_app. Qed.

Lemma replayable_same k k' :
  rblob k' = rblob k -> buf_size (read_buf k') = buf_size (read_buf k) -> replayable k -> replayable k'.
Proof. intros E1 E2 [R1 R2 R3 R4]. split; rewrite ?E1, ?E2; done. Qed.

(** Replaying goes through all batches and ends at the blank page. *)
Lemma replay_batches_spec rb p q l fuel k :
  batches rb p q l -> rblob k = rb -> replayable k -> blank rb q -> (4096 | p) -> rpos (back rb) <= p ->
  q + 4096 <= rpos (back rb) + rsize rb -> (List.length l < fuel)%nat ->
  exists b, replay_batches fuel p k
      = Replayed 0 (k <| table := apply_ops (concat l) (table k) |> <| read_buf := b |> <| rblob ::= RollingBlob.set_front q |>) /\
    buf_size b = buf_size (read_buf k).
Proof.
  intros Hb. revert fuel k. induction Hb as [p|p q ops l Hne Hg Ha Hb IH]; intros fuel k Er Hrp Hbl Hp R1 R2 Hf;
    (destruct fuel as [|fuel]; [lia|]); cbn [replay_batches].
  - destruct (replay_blank k p) as (b & -> & Hs); rewrite ?Er; try done. change (truthy 0) with false. cbv iota.
    exists b. split; [|done]. by destruct k.
  - destruct (batches_range _ _ _ _ Hb) as [Q1 _]. destruct (batch_len_spec ops Hne) as (B1 & B2 & B3).
    destruct (replay_batch_spec k p ops) as (b & -> & Hs & _); rewrite ?Er; try done; try lia. change (truthy 0) with false. cbv iota.
    set (k1 := k <| read_buf := b |> <| table ::= apply_ops ops |>).
    destruct (IH fuel k1) as (b' & E & Hs'); try done; try lia.
    + by apply (replayable_same k).
    + by apply Z.divide_add_r.
    + cbn [List.length] in Hf. lia.
    + exists b'. split; [|by rewrite Hs']. destruct ops as [|o ops]; [done|].
      pose proof (RollingBlob.wf_back _ (rp_wf _ Hrp)). pose proof (rp_top _ Hrp). rewrite Er in *. rewrite u64_small, E by lia. f_equal. cbn [concat].
      rewrite (apply_ops_app (o :: ops) (concat l) (table k)). by destruct k.
Qed.

(** *** A full ring *)

(** After one turn of the ring nothing is read. *)
Lemma read_into_beyond k start length off :
  replayable k -> rpos (back (rblob k)) + rsize (rblob k) <= start -> 0 <= off -> 0 <= length -> off + length <= buf_size (read_buf k) ->
  read_into start length off k = Some (0, k <| read_buf := reset (read_buf k) |>).
Proof.
  intros Hrp Hst Ho Hl Hs. unfold read_into. rewrite (proj2 (Z.ltb_ge _ _) Hs). unfold RollingBlob.read.
  pose proof (RollingBlob.size_pos _ (RollingBlob.wf_ring _ (rp_wf _ Hrp))).
  rewrite (proj2 (Z.ltb_ge start _)) by lia. rewrite andb_false_r. rewrite (proj2 (Z.leb_le _ _) Hst). cbn [andb mbind option_bind fst].
  do 3 f_equal. unfold reset. f_equal. unfold buf_size in Hs. rewrite <- (take_drop (Z.to_nat off) (_buf (read_buf k))) at 4. f_equal.
  rewrite <- (take_drop (Z.to_nat length) (drop (Z.to_nat off) (_buf (read_buf k)))) at 2. f_equal. rewrite drop_drop. f_equal. lia.
Qed.

Lemma replay_stale k start ops :
  replayable k -> rpos (back (rblob k)) + rsize (rblob k) <= start -> start + 4096 < 2 ^ 64 ->
  ops <> [] -> Forall good_op ops -> starts_with (read_buf k) ops -> batch_len ops <= rsize (rblob k) ->
  replay_batch start k = Some (0, ops, batch_len ops, k <| read_buf := reset (read_buf k) |>).
Proof.
  intros Hrp Hst Htop Hne Hg (rest & Eb) Hl. destruct (batch_len_spec ops Hne) as (B1 & B2 & B3). destruct (good_ops_ok ops Hg) as [Hok Hra].
  pose proof (data_size_min ops Hne) as Hmin. pose proof Hrp as [Hw Ht [Hb1 Hb2] _]. pose proof (RollingBlob.wf_back _ Hw).
  set (k1 := k <| read_buf := reset (read_buf k) |>). destruct (RollingBlob.size_pos _ (RollingBlob.wf_ring _ Hw)) as [_ Hs].
  assert (Er1 : read_into start 4096 0 k = Some (0, k1)) by (apply read_into_beyond; (done || lia)).
  assert (Hbs : batch_size k1 = data_size ops) by (apply (batch_size_spec k1 _ (enc_ops ops ++ rest)); [lia|exact Eb]).
  assert (Ed : deserialize_op (read_buf k1) = Some ops).
  { rewrite (deserialize_op_gets ops (read_buf k1) rest Hok); [by rewrite Hra|change (buf_size (read_buf k1)) with (buf_size (read_buf k)); lia|exact Eb]. }
  destruct (Z.lt_ge_cases 4096 (data_size ops)) as [Hlt|Hge].
  - apply (replay_batch_long start k k1 k1); rewrite ?Hbs; try done. rewrite u64_small by lia.
    rewrite (read_into_beyond k1); [done|by apply (replayable_same k)|change (rblob k1) with (rblob k); lia|lia|lia|].
    change (buf_size (read_buf k1)) with (buf_size (read_buf k)). lia.
  - assert (El : batch_len ops = 4096) by (destruct B2 as [x Hx]; lia). rewrite El. apply (replay_batch_short start k k1); [done|lia|done].
Qed.

Lemma stale_never_ends ops fuel : forall k start,
  replayable k -> rpos (back (rblob k)) + rsize (rblob k) <= start -> start + (Z.of_nat fuel + 1) * rsize (rblob k) < 2 ^ 64 ->
  ops <> [] -> Forall good_op ops -> starts_with (read_buf k) ops -> batch_len ops <= rsize (rblob k) ->
  replay_batches fuel start k = OutOfFuel.
Proof.
  induction fuel as [|fuel IH]; intros k start Hrp Hst Htop Hne Hg Hsw Hl; [done|]. destruct (batch_len_spec ops Hne) as (B1 & B2 & B3).
  pose proof (RollingBlob.wf_back _ (rp_wf _ Hrp)). pose proof (RollingBlob.size_pos _ (RollingBlob.wf_ring _ (rp_wf _ Hrp))).
  cbn [replay_batches]. rewrite (replay_stale k start ops) by (done || lia). change (truthy 0) with false. cbv iota.
  destruct ops as [|o ops]; [done|]. rewrite u64_small by lia. set (k1 := k <| read_buf := _ |> <| table ::= _ |>).
  apply (IH k1); try done; change (rblob k1) with (rblob k); try lia. by apply (replayable_same k).
Qed.

(** A store whose ring is full of batches is never loaded: what is read after the last
    batch is the last batch once more, and so on. *)
Theorem full_ring_never_loads rb p q l fuel k :
  batches rb p q l -> l <> [] -> rblob k = rb -> replayable k -> (4096 | p) -> rpos (back rb) <= p ->
  q = rpos (back rb) + rsize rb -> q + (Z.of_nat fuel + 1) * rsize rb < 2 ^ 64 -> replay_batches fuel p k = OutOfFuel.
Proof.
  intros Hb. revert fuel k. induction Hb as [p|p q ops l Hne Hg Ha Hb IH]; intros fuel k Hl Er Hrp Hp R1 Hq Htop; [done|].
  destruct fuel as [|fuel]; [done|]. destruct (batches_range _ _ _ _ Hb) as [Q1 _]. destruct (batch_len_spec ops Hne) as (B1 & B2 & B3).
  pose proof (RollingBlob.wf_back _ (rp_wf _ Hrp)) as W. pose proof (RollingBlob.size_pos _ (RollingBlob.wf_ring _ (rp_wf _ Hrp))) as Sz. rewrite Er in W, Sz.
  cbn [replay_batches]. destruct (replay_batch_spec k p ops) as (b & -> & Hs & Hsw); rewrite ?Er; try done; try lia.
  change (truthy 0) with false. cbv iota. set (k1 := k <| read_buf := b |> <| table ::= apply_ops ops |>).
  assert (Hrp1 : replayable k1) by by apply (replayable_same k). assert (Er1 : rblob k1 = rb) by done.
  destruct ops as [|o ops]; [done|]. rewrite u64_small by lia. destruct l as [|ops' l].
  - inversion Hb; subst. apply (stale_never_ends (o :: ops)); try done; rewrite ?Er1; lia.
  - apply IH; try done; [by apply Z.divide_add_r|lia|lia].
Qed.

(** *** Writing *)

(** The ring holds the batches, and its super block says where they begin. *)
Record logged rb (l : list (list op)) : Prop := {
  lg_wf : RollingBlob.rblob_wf rb;
  lg_saved : RollingBlob.saved rb (back rb) (back rb);
  lg_page : (4096 | rpos (back rb));
  lg_batches : batches rb (rpos (back rb)) (rpos (front rb)) l;
}.

Lemma logged_front rb l : logged rb l -> (4096 | rpos (front rb)).
Proof.
  intros [_ _ Hp Hb]. apply batches_range in Hb as [_ Hd].
  replace (rpos (front rb)) with (rpos (front rb) - rpos (back rb) + rpos (back rb)) by lia. by apply Z.divide_add_r.
Qed.

Lemma append_fits rb bl :
  RollingBlob.rblob_wf rb -> (RollingBlob.unit_size | Z.of_nat (List.length bl)) -> bl <> [] ->
  Z.of_nat (List.length bl) <= RollingBlob.available rb -> rpos (front rb) + 2 * rsize rb < 2 ^ 63 ->
  exists x rb', RollingBlob.append bl rb = (Some (0, x), rb') /\ RollingBlob.rblob_wf rb' /\
    RollingBlob.appended rb bl rb' /\ RollingBlob.kept rb rb' /\ rsize rb' = rsize rb /\
    RollingBlob.super_bytes rb' = RollingBlob.super_bytes rb.
Proof.
  intros Hw Hu Hne Hfit Htop. pose proof (RollingBlob.available_eq rb Hw) as Ha. pose proof (RollingBlob.wf_back _ Hw).
  pose proof (RollingBlob.wf_front _ Hw).
  assert (Ht : rpos (front rb) + Z.of_nat (List.length bl) + rsize rb < 2 ^ 63) by lia.
  pose proof (RollingBlob.exec_ok (RollingBlob.OpAppend bl) rb Hdev Hw (conj Hu (conj Hne Ht)) Hfit) as E. cbn [RollingBlob.exec_op] in E.
  destruct (RollingBlob.append bl rb) as [r rb'] eqn:Ea. cbn [fst] in E. destruct r as [[e x]|]; [|done]. cbn in E. injection E as ->.
  destruct (RollingBlob.append_keeps_super _ _ _ _ Hw Hu Ea) as [Es Eb].
  destruct (RollingBlob.ring_append_spec _ _ _ _ Hw Hu Hne Ht Ea) as (K & _ & _ & A). destruct (A x eq_refl) as [W P].
  exists x, rb'. split; [done|]. split; [done|]. split; [done|]. split; [done|]. split; [|done]. unfold rsize. by rewrite Es.
Qed.

Lemma loc_eq (a b : RollingBlob.location) : rpos a = rpos b -> RollingBlob.lba a = RollingBlob.lba b -> a = b.
Proof. destruct a, b. cbn. by intros -> ->. Qed.

Lemma back_same rb rb' :
  RollingBlob.rblob_wf rb -> RollingBlob.rblob_wf rb' -> rsize rb' = rsize rb -> rpos (back rb') = rpos (back rb) -> back rb' = back rb.
Proof.
  intros Hw Hw' Es Ep. pose proof (RollingBlob.wf_back_lba _ Hw) as L. pose proof (RollingBlob.wf_back_lba _ Hw') as L'.
  unfold RollingBlob.pos_to_lba in *. rewrite Es, Ep, <- L in L'. by apply loc_eq.
Qed.

Lemma logged_append rb l ops bl :
  logged rb l -> ops <> [] -> Forall good_op ops ->
  (exists pad, bl = Wire.le 8 (data_size ops) ++ enc_ops ops ++ pad) -> Z.of_nat (List.length bl) = batch_len ops ->
  batch_len ops <= RollingBlob.available rb -> rpos (front rb) + 2 * rsize rb < 2 ^ 63 ->
  exists x rb', RollingBlob.append bl rb = (Some (0, x), rb') /\ logged rb' (l ++ [ops]) /\
    rpos (back rb') = rpos (back rb) /\ rpos (front rb') = rpos (front rb) + batch_len ops /\ rsize rb' = rsize rb.
Proof.
  intros [Hw Hs Hp Hb] Hne Hg (pad & Ebl) Hl Hfit Htop. destruct (batch_len_spec ops Hne) as (B1 & B2 & B3).
  destruct (append_fits rb bl) as (x & rb' & E & Hw' & (P1 & P2 & P3) & Hk & Es & Esup); [done| | |lia|done|].
  { rewrite Hl. apply (Z.divide_trans _ 4096); [by exists 8|done]. }
  { intros ->. cbn [List.length] in Hl. lia. }
  exists x, rb'. split; [done|]. split; [|rewrite <- Hl; exact (conj P1 (conj P2 Es))]. pose proof (back_same _ _ Hw Hw' Es P1) as Eb. split; [done| | |].
  - unfold RollingBlob.saved in *. by rewrite Esup, Eb.
  - by rewrite P1.
  - rewrite P1, P2, Hl. apply batches_snoc; [|done|done|].
    + apply (batches_kept rb); [|done]. intros q Hq. apply Hk. by rewrite P1.
    + exists pad. rewrite <- Ebl. exact (conj Hl P3).
Qed.

Lemma commit_spec k l :
  logged (rblob k) l -> working k = false -> op_log k <> [] -> Forall good_op (op_log k) ->
  rsize (rblob k) <= buf_size (write_buf k) ->
  batch_len (op_log k) <= RollingBlob.available (rblob k) -> rpos (front (rblob k)) + 2 * rsize (rblob k) < 2 ^ 63 ->
  exists rb wb, commit k = Some (0, k <| table ::= apply_ops (op_log k) |> <| op_log := [] |> <| op_length := 0 |>
                                      <| write_buf := wb |> <| rblob := rb |>) /\
    buf_size wb = buf_size (write_buf k) /\ logged rb (l ++ [op_log k]) /\ rsize rb = rsize (rblob k) /\
    rpos (back rb) = rpos (back (rblob k)) /\ rpos (front rb) = rpos (front (rblob k)) + batch_len (op_log k).
Proof.
  intros Hlg Hwk Hne Hg Hwb Hfit Htop. destruct (batch_len_spec _ Hne) as (B1 & B2 & B3).
  pose proof (RollingBlob.available_eq _ (lg_wf _ _ Hlg)) as Ha. pose proof (RollingBlob.wf_back _ (lg_wf _ _ Hlg)).
  fold (data_size (op_log k)) in *. destruct (serialize_op_wrote (op_log k) (write_buf k)) as (U & Sz & rest & E).
  { fold (data_size (op_log k)). lia. }
  fold (data_size (op_log k)) in U, E. set (wb := serialize_op (op_log k) (write_buf k)) in *.
  set (bl := take (Z.to_nat (SPDK_ALIGN_CEIL (_used wb) 4096)) (_buf wb)).
  assert (Hbl : Z.of_nat (List.length bl) = batch_len (op_log k)).
  { unfold bl. rewrite U. fold (batch_len (op_log k)). rewrite length_take. unfold buf_size in Sz, Hwb. lia. }
  destruct (logged_append (rblob k) l (op_log k) bl) as (x & rb & Ea & Hlg' & P1 & P2 & Es); try done.
  { unfold bl. rewrite E, U. fold (batch_len (op_log k)).
    assert (Hd : (List.length (Wire.le 8 (data_size (op_log k)) ++ enc_ops (op_log k)) <= Z.to_nat (batch_len (op_log k)))%nat).
    { rewrite length_app, Wire.length_le. unfold data_size in B1. lia. }
    rewrite app_assoc, take_app_ge by done. eexists. by rewrite <- app_assoc. }
  exists rb, wb. split; [|done]. unfold commit. rewrite Hwk. unfold need_commit. destruct (op_log k) as [|o ops] eqn:Eo; [done|].
  cbn [negb]. cbv zeta. fold wb bl. rewrite Ea. cbn [mbind option_bind fst]. unfold commit_done. change (truthy 0) with false. cbv iota.
  do 2 f_equal. destruct k. cbn in Hwk. subst. done.
Qed.

Lemma trim_keeps_size n rb : rsize (snd (RollingBlob.trim_back n rb)) = rsize rb.
Proof.
  assert (Hu : forall a b rb1, rsize (snd (RollingBlob.unmap a b rb1)) = rsize rb1).
  { intros a b rb1. unfold RollingBlob.unmap. by destruct (RollingBlob.spdk_blob_io_unmap _ _ _). }
  assert (Hd : forall e rb1, rsize (snd (RollingBlob.trim_done e rb1)) = rsize rb1).
  { intros e rb1. unfold RollingBlob.trim_done, RollingBlob.sync_md. destruct (truthy e); [done|]. by destruct (RollingBlob.spdk_blob_io_writev _ _ _ _). }
  unfold RollingBlob.trim_back. destruct (_ <? n); [done|]. set (rb0 := rb <| RollingBlob.back := _ |>). change (rsize rb) with (rsize rb0).
  destruct (negb _ || _).
  - rewrite <- (Hu (RollingBlob.lba (back rb)) n rb0). destruct (RollingBlob.unmap _ _ rb0). apply Hd.
  - rewrite <- (Hu (RollingBlob.lba (back rb)) (RollingBlob.back_to_end rb) rb0). destruct (RollingBlob.unmap _ _ rb0) as [e rb1].
    destruct (truthy e); [done|]. cbn [snd]. rewrite <- (Hu (RollingBlob.pos_to_lba rb1 0) (n - RollingBlob.back_to_end rb) rb1).
    destruct (RollingBlob.unmap _ _ rb1). apply Hd.
Qed.

(** A trim of all that is used leaves an empty ring whose super block says so. *)
Lemma logged_trim rb l :
  logged rb l ->
  exists rb', RollingBlob.trim_back (RollingBlob.used rb) rb = (Some 0, rb') /\ logged rb' [] /\
    rpos (back rb') = rpos (front rb) /\ rpos (front rb') = rpos (front rb) /\ rsize rb' = rsize rb.
Proof.
  intros Hlg. pose proof (lg_wf _ _ Hlg) as Hw. pose proof (RollingBlob.used_eq _ Hw) as Hu. pose proof (RollingBlob.wf_back _ Hw) as Hb.
  assert (Hd : (RollingBlob.unit_size | RollingBlob.used rb)) by (rewrite Hu; apply Z.divide_sub_r; apply Hw).
  pose proof (RollingBlob.exec_ok (RollingBlob.OpTrimBack (RollingBlob.used rb)) rb Hdev Hw) as E. cbn [RollingBlob.exec_op] in E.
  destruct (RollingBlob.trim_back _ rb) as [r rb'] eqn:Et. cbn [fst] in E.
  assert (Er : r = Some 0) by (apply E; [split; [done|lia]|unfold RollingBlob.op_fits; lia]). subst r. clear E.
  pose proof (RollingBlob.trim_back_saves rb (RollingBlob.used rb) rb' Hw ltac:(lia) Hd Et) as Hs.
  destruct (RollingBlob.ring_trim_back_spec rb (RollingBlob.used rb) _ _ Hw ltac:(lia) Hd Et) as [_ A]. destruct (A ltac:(lia)) as (W & P1 & P2 & _).
  pose proof (trim_keeps_size (RollingBlob.used rb) rb) as Es. rewrite Et in Es. cbn [snd] in Es.
  assert (Ep : rpos (back rb') = rpos (front rb)) by lia. exists rb'. split; [done|]. split; [|exact (conj Ep (conj P2 Es))].
  assert (Eb : back rb' = front rb').
  { pose proof (RollingBlob.wf_back_lba _ W) as L. pose proof (RollingBlob.wf_front_lba _ W) as L'. rewrite Ep, <- P2, <- L' in L.
    apply loc_eq; [by rewrite P2|done]. }
  split; [done|by rewrite Eb at 2|rewrite Ep; by apply (logged_front rb l)|rewrite Eb; constructor].
Qed.

Lemma sync_logged rb :
  RollingBlob.rblob_wf rb -> back rb = front rb -> (4096 | rpos (back rb)) -> logged (snd (RollingBlob.sync_md rb)) [].
Proof.
  intros Hw Eb Hp. assert (E0 : fst (RollingBlob.sync_md rb) = 0).
  { pose proof (RollingBlob.trim_done_ok rb Hdev) as E. unfold RollingBlob.trim_done in E. change (truthy 0) with false in E. cbv iota in E.
    destruct (RollingBlob.sync_md rb) as [e rb']. cbn [fst] in *. by injection E. }
  destruct (RollingBlob.sync_md rb) as [e rb'] eqn:E. cbn [fst snd] in *. subst e. pose proof (RollingBlob.sync_saves _ _ Hw E) as Hs.
  apply RollingBlob.sync_md_spec in E as (s & d & E & Hl & Hr & _); [|apply Hw..].
  assert (Hw' : RollingBlob.rblob_wf rb') by (apply (RollingBlob.unmapped_wf rb); [done|by exists s, d]).
  assert (El : back rb' = back rb /\ front rb' = front rb) by (by rewrite E). destruct El as [E1 E2].
  split; [done|rewrite E1, Eb at 1; rewrite Eb in Hs; rewrite E1, Eb; exact Hs|by rewrite E1|rewrite E1, E2, Eb; constructor].
Qed.

End ring.

(** ** A durable map *)

Section durable.
Context `{RollingBlob.BlobIoLaws B} `{CkptLaws C}.
Context (iterate : gmap (list Z) (list Z) -> list (list Z * list Z)) (pool : nat -> list Z).
Hypothesis Hiterate : forall t, iterate t ≡ₚ map_to_list t.
Hypothesis Hpool : forall i, Z.of_nat (List.length (pool i)) = buffer_size.
Hypothesis Hdev : RollingBlob.reliable (B := B).
Hypothesis Hrel : blobs_reliable (C := C).
Implicit Types k : kvstore B C.

Lemma save_checkpoint_spec k t0 l :
  logged (rblob k) l -> working k = false -> table_ok (table k) -> ObjectStore.blobid (_new_blob k) = 0 -> checkpointed k t0 ->
  exists b c rb, save_checkpoint iterate pool k
      = Some (0, k <| _ckpt_blob := b |> <| _new_blob := ObjectStore.no_blob |> <| bs := c |> <| rblob := rb |>) /\
    holds c (ObjectStore.blobid b) (table k) /\ logged rb [] /\ rpos (back rb) = rpos (front (rblob k)) /\
    rpos (front rb) = rpos (front (rblob k)) /\ rsize rb = rsize (rblob k).
Proof.
  intros Hlg Hwk Ht Hn Hck. destruct (encode_table_spec iterate pool Hiterate Hpool _ Ht) as (bl & rest & E & _).
  set (k0 := k <| working := true |>).
  destruct (checkpoint_spec iterate pool Hiterate Hpool Hrel k0 bl t0 E Ht Hn Hck) as (b & c & Ec & Hh).
  destruct (logged_trim Hdev _ _ Hlg) as (rb & Etr & Hlg' & P). exists b, c, rb. split; [|done].
  unfold save_checkpoint. rewrite Hwk. fold k0. change (table k0) with (table k). rewrite E. cbn [mbind option_bind].
  fold (flat bl). destruct (start_checkpoint _ k0) as [e1 k1]. destruct (write_checkpoint _ k1) as [e2 k2]. rewrite Ec.
  set (k3 := _ <| bs := c |>). change (rblob k3) with (rblob k). rewrite Etr. cbn [mbind option_bind]. unfold checkpoint_trim_complete.
  do 2 f_equal. destruct k. cbn in Hwk. subst. done.
Qed.

Lemma apply_op_size o t : Z.of_nat (base.size (apply_op o t)) <= Z.of_nat (base.size t) + 1.
Proof.
  unfold apply_op. destruct (t !! key o) as [v'|] eqn:E, (value o) as [v|]; [| |rewrite map_size_insert_None by done; lia|lia].
  - rewrite map_size_insert_Some by (by rewrite E). lia.
  - rewrite map_size_delete_Some by (by rewrite E). lia.
Qed.

Lemma good_op_pair o v : good_op o -> value o = Some v -> pair_ok (key o, v).
Proof.
  intros [_ Hl] Ev. unfold enc_op, enc_string in Hl. rewrite Ev, !length_app, !Wire.length_le in Hl. change (default [] (Some v)) with v in Hl.
  unfold pair_ok, LengthString. cbn [fst snd]. lia.
Qed.

Definition pairs_ok (t : gmap (list Z) (list Z)) : Prop := map_Forall (fun key_ v => pair_ok (key_, v)) t.

Lemma apply_op_pairs o t :
  good_op o -> pairs_ok t -> pairs_ok (apply_op o t).
Proof.
  intros Ho Ht. unfold apply_op. destruct (t !! key o) as [v'|] eqn:E, (value o) as [v|] eqn:Ev; try done.
  - apply map_Forall_insert_2; [by apply good_op_pair|done].
  - by apply map_Forall_delete.
  - apply map_Forall_insert_2; [by apply good_op_pair|done].
Qed.

(** The table and the operations that wait can go into one checkpoint. *)
Definition room (t : gmap (list Z) (list Z)) (ops : list op) : Prop :=
  buffer_size * (2 + Z.of_nat (base.size t) + Z.of_nat (List.length ops)) < 2 ^ 62.

Lemma apply_ops_ok ops t :
  Forall good_op ops -> pairs_ok t -> room t ops ->
  pairs_ok (apply_ops ops t) /\ room (apply_ops ops t) [].
Proof.
  intros Hg. revert t. induction Hg as [|o ops Ho _ IH]; intros t Ht Hr; [done|].
  apply (IH (apply_op o t)); [by apply apply_op_pairs|]. unfold room, buffer_size in *. cbn [List.length] in Hr.
  pose proof (apply_op_size o t). lia.
Qed.

Record kv_inv k (t0 : gmap (list Z) (list Z)) (l : list (list op)) : Prop := {
  kv_logged : logged (rblob k) l;
  kv_checkpoint : checkpointed k t0;
  kv_idle : ObjectStore.blobid (_new_blob k) = 0 /\ working k = false;
  kv_table : table k = apply_ops (concat l) t0;
  kv_pairs : pairs_ok (table k);
  kv_ops : Forall good_op (op_log k) /\ (op_log k = [] -> op_length k = 0);
  kv_room : room (table k) (op_log k);
  kv_bufs : rsize (rblob k) <= buf_size (write_buf k) /\ rsize (rblob k) <= buf_size (read_buf k) < 2 ^ 63;
}.

Definition kv_wf k : Prop := exists t0 l, kv_inv k t0 l.

Lemma inv_table_ok k t0 l : kv_inv k t0 l -> table_ok (table k).
Proof. intros Hi. split; [apply Hi|]. pose proof (kv_room _ _ _ Hi) as Hr. unfold room, buffer_size in *. lia. Qed.

Lemma commit_inv k t0 l :
  kv_inv k t0 l -> op_log k <> [] -> batch_len (op_log k) <= RollingBlob.available (rblob k) ->
  rpos (front (rblob k)) + 2 * rsize (rblob k) < 2 ^ 63 ->
  exists k', commit k = Some (0, k') /\ kv_inv k' t0 (l ++ [op_log k]) /\
    table k' = apply_ops (op_log k) (table k) /\ op_log k' = [].
Proof.
  intros Hi Hne Hfit Htop. pose proof Hi as [Hlg Hck [Hn Hwk] Ht Hp [Hg _] Hr [Hb1 Hb2]].
  destruct (commit_spec Hdev k l) as (rb & wb & E & Hsz & Hlg' & Es & P1 & P2); try done.
  destruct (apply_ops_ok _ _ Hg Hp Hr) as [Hp' Hr']. eexists. split; [exact E|]. split; [|done]. split; try done.
  - change (apply_ops (op_log k) (table k) = apply_ops (concat (l ++ [op_log k])) t0).
    rewrite concat_app, apply_ops_app, <- Ht. cbn [concat]. by rewrite app_nil_r.
  - change (rsize rb <= buf_size wb /\ rsize rb <= buf_size (read_buf k) < 2 ^ 63). rewrite Es, Hsz. done.
Qed.

Lemma checkpoint_inv k t0 l :
  kv_inv k t0 l ->
  exists k', save_checkpoint iterate pool k = Some (0, k') /\ kv_inv k' (table k) [] /\ table k' = table k /\ op_log k' = op_log k /\
    RollingBlob.available (rblob k') = rsize (rblob k) /\ rsize (rblob k') = rsize (rblob k) /\
    rpos (front (rblob k')) = rpos (front (rblob k)).
Proof.
  intros Hi. pose proof (inv_table_ok _ _ _ Hi) as Hok. pose proof Hi as [Hlg Hck [Hn Hwk] Ht Hp [Hg Hz] Hr [Hb1 Hb2]].
  destruct (save_checkpoint_spec k t0 l Hlg Hwk Hok Hn Hck) as (b & c & rb & E & Hh & Hlg' & P1 & P2 & Es).
  eexists. split; [exact E|]. split; [split; try done|].
  - by right.
  - change (rsize rb <= buf_size (write_buf k) /\ rsize rb <= buf_size (read_buf k) < 2 ^ 63). by rewrite Es.
  - split; [done|]. split; [done|]. change (RollingBlob.available rb = rsize (rblob k) /\ rsize rb = rsize (rblob k) /\ rpos (front rb) = rpos (front (rblob k))).
    rewrite (RollingBlob.available_eq rb), P1, P2, Es by apply Hlg'. split; [lia|done].
Qed.

(** The operations that wait fit: into what is free, or a checkpoint is due and they fit
    the ring. *)
Definition poll_ok k : Prop :=
  (batch_len (op_log k) <= RollingBlob.available (rblob k) \/
   need_checkpoint k = true /\ batch_len (op_log k) <= rsize (rblob k)) /\
  rpos (front (rblob k)) + 2 * rsize (rblob k) < 2 ^ 63.

Lemma poll_spec k :
  kv_wf k -> poll_ok k ->
  exists worked k', maybe_work iterate pool k = Some (worked, k') /\ kv_wf k' /\ table k' = apply_ops (op_log k) (table k) /\ op_log k' = [].
Proof.
  intros (t0 & l & Hi) [Hfit Htop]. unfold maybe_work. pose proof Hi as [Hlg Hck [Hn Hwk] Ht Hp [Hg Hz] Hr [Hb1 Hb2]]. rewrite Hwk.
  pose proof (RollingBlob.available_eq _ (lg_wf _ _ Hlg)) as Ha. pose proof (RollingBlob.wf_front _ (lg_wf _ _ Hlg)).
  pose proof (RollingBlob.wf_back _ (lg_wf _ _ Hlg)).
  destruct (need_checkpoint k) eqn:En.
  - assert (Hne : op_log k <> []).
    { intros E0. unfold need_checkpoint in En. rewrite (Hz E0) in En. apply Z.ltb_lt in En. lia. }
    destruct (checkpoint_inv k t0 l Hi) as (k1 & -> & Hi1 & Et & Eo & Ea & Es & Ef). cbn [mbind option_bind snd].
    destruct (commit_inv k1 (table k) [] Hi1) as (k2 & -> & Hi2 & Et2 & Eo2); rewrite ?Eo, ?Ea, ?Es, ?Ef; try done; [lia|].
    cbn [mbind option_bind snd]. exists true, k2. split; [done|]. split; [by do 2 eexists|]. by rewrite Et2, Et, Eo.
  - destruct Hfit as [Hfit|[]]; [|done]. unfold need_commit. destruct (op_log k) as [|o ops] eqn:Eo.
    + exists false, k. split; [done|]. split; [by exists t0, l|]. done.
    + rewrite <- Eo in *. destruct (commit_inv k t0 l Hi) as (k2 & -> & Hi2 & Et2 & Eo2); try done; [by rewrite Eo|].
      cbn [mbind option_bind snd]. exists true, k2. split; [done|]. split; [by do 2 eexists|]. done.
Qed.

(** *** Restarting *)

Lemma batches_count (rb : RollingBlob.rolling_blob B) p q l : batches rb p q l -> 4096 * Z.of_nat (List.length l) <= q - p.
Proof.
  induction 1 as [p|p q ops l Hne _ _ _ IH]; [cbn [List.length]; lia|]. destruct (batch_len_spec ops Hne) as (_ & _ & B3).
  cbn [List.length]. lia.
Qed.

(** The ring of a store after [load_md], with its front where the batches end. *)
Lemma logged_reopened (rb rb1 : RollingBlob.rolling_blob B) l :
  logged rb l -> RollingBlob.reopened rb rb1 -> rpos (front rb) + rsize rb < 2 ^ 63 ->
  exists rb2, RollingBlob.load_md rb1 = (0, rb2) /\ RollingBlob.rblob_wf rb2 /\ rpos (back rb2) = rpos (back rb) /\ rsize rb2 = rsize rb /\
    (forall q, stream rb2 q = stream rb q) /\ logged (RollingBlob.set_front (rpos (front rb)) rb2) l.
Proof.
  intros Hlg Hre Htop. pose proof Hlg as [Hw Hs Hp Hb]. pose proof Hre as (R1 & R2 & R3 & R4).
  assert (El : exists rb2, RollingBlob.load_md rb1 = (0, rb2)).
  { unfold RollingBlob.load_md. destruct (Hdev (RollingBlob.dev rb1) [] 0 (Z.of_nat (List.length (RollingBlob.super rb1)) / RollingBlob.unit_size)) as (_ & E & _).
    destruct (RollingBlob.spdk_blob_io_readv _ _ _) as [e bytes]. cbn [fst] in E. subst e. by eexists. }
  destruct El as [rb2 El]. exists rb2. split; [done|].
  destruct (RollingBlob.load_md_reopened _ _ _ _ Hw (RollingBlob.back_front_wf _ Hw) Hs Hre El) as (W2 & Es & Eb & Est).
  split; [done|]. split; [done|]. split; [done|]. split; [done|].
  assert (Edev : RollingBlob.dev rb2 = RollingBlob.dev rb).
  { unfold RollingBlob.load_md in El. destruct (RollingBlob.spdk_blob_io_readv _ _ _) as [e bytes]. destruct (truthy e); [by injection El as _ <-|].
    injection El as <-. done. }
  pose proof (RollingBlob.wf_front _ Hw) as F. pose proof (RollingBlob.wf_back _ Hw) as Bk.
  set (rb3 := RollingBlob.set_front (rpos (front rb)) rb2).
  assert (W3 : RollingBlob.rblob_wf rb3).
  { apply RollingBlob.set_front_wf; [done|rewrite Eb, Es; lia|rewrite Es; lia|apply Hw]. }
  split; [done| |change (back rb3) with (back rb2); by rewrite Eb|].
  - change (back rb3) with (back rb2). rewrite (back_same rb rb2 Hw W2 Es Eb). unfold RollingBlob.saved in *.
    by rewrite (RollingBlob.super_bytes_dev rb rb3 Edev).
  - change (rpos (front rb3)) with (rpos (front rb)). change (back rb3) with (back rb2). rewrite Eb.
    apply (batches_kept rb); [intros x _; apply Est|done].
Qed.

(** The blobs that were there are there after a restart. *)
Definition restarted (c c' : C) : Prop :=
  forall id, ObjectStore.live c id ->
    ObjectStore.live c' id /\ ObjectStore.clusters c' id = ObjectStore.clusters c id /\
    forall o, ObjectStore.data c' id o = ObjectStore.data c id o.

Record restart_ok k (fuel : nat) (wbuf rbuf : list Z) (rb1 : RollingBlob.rolling_blob B) (c : C) : Prop := {
  rs_reopened : RollingBlob.reopened (rblob k) rb1;
  rs_blobs : restarted (bs k) c;
  rs_bufs : rsize (rblob k) <= Z.of_nat (List.length wbuf) /\ rsize (rblob k) <= Z.of_nat (List.length rbuf) < 2 ^ 63;
  rs_blank : blank (rblob k) (rpos (front (rblob k)));
  rs_room : 4096 <= RollingBlob.available (rblob k);
  rs_top : rpos (back (rblob k)) + 2 * rsize (rblob k) < 2 ^ 63;
  rs_fuel : RollingBlob.used (rblob k) / 4096 < Z.of_nat fuel;
}.

(** A store that has not been loaded yet. *)
Record fresh k (id : Z) (wbuf rbuf : list Z) (rb : RollingBlob.rolling_blob B) (c : C) : Prop := {
  fr_id : ObjectStore.blobid (_ckpt_blob k) = id;
  fr_table : table k = ∅;
  fr_rblob : rblob k = rb;
  fr_bs : bs k = c;
  fr_blob : ObjectStore.blob (_ckpt_blob k) = NULL;
  fr_new : _new_blob k = ObjectStore.no_blob;
  fr_ops : op_log k = [];
  fr_length : op_length k = 0;
  fr_working : working k = false;
  fr_write_buf : buf_size (write_buf k) = Z.of_nat (List.length wbuf);
  fr_read_buf : buf_size (read_buf k) = Z.of_nat (List.length rbuf);
}.

Lemma fresh_store id wbuf rbuf rb c : fresh (set_checkpoint_blobid id 0 (new_kvstore wbuf rbuf rb c)) id wbuf rbuf rb c.
Proof.
  unfold set_checkpoint_blobid, truthy. cbn [Z.eqb negb]. destruct (Z.eqb_spec id 0) as [->|]; by split.
Qed.

(** A store with the table of another one and nothing that waits. *)
Lemma replayed_inv k k' t0 l :
  kv_inv k t0 l -> table k' = table k -> op_log k' = [] -> op_length k' = 0 -> working k' = false ->
  logged (rblob k') l -> checkpointed k' t0 -> ObjectStore.blobid (_new_blob k') = 0 ->
  rsize (rblob k') <= buf_size (write_buf k') /\ rsize (rblob k') <= buf_size (read_buf k') < 2 ^ 63 -> kv_inv k' t0 l.
Proof.
  intros [_ _ _ Ht Hp _ Hr _] Et Eo El Ew Hlg Hck Hn Hb. split; rewrite ?Et, ?Eo; try done.
  unfold room, buffer_size in *. cbn [List.length]. lia.
Qed.

Lemma restart_spec k fuel wbuf rbuf rb1 c :
  kv_wf k -> restart_ok k fuel wbuf rbuf rb1 c ->
  exists k', load_kvstore pool fuel wbuf rbuf rb1 (ObjectStore.blobid (_ckpt_blob k)) 0 c = Replayed 0 k' /\
    kv_wf k' /\ table k' = table k /\ op_log k' = [].
Proof.
  intros (t0 & l & Hi) [Hre Hbs [Hb1 Hb2] Hbl Hroom Htop Hfuel].
  pose proof Hi as [Hlg Hck [Hn Hwk] Ht Hp [Hg Hz] Hr _]. pose proof Hlg as [Hw _ Hpg Hbt].
  pose proof (RollingBlob.available_eq _ Hw) as Ha. pose proof (RollingBlob.used_eq _ Hw) as Hu. pose proof (RollingBlob.wf_top _ Hw) as Htp.
  destruct (logged_reopened _ _ _ Hlg Hre Htp) as (rb2 & El & W2 & Eb & Es & Est & Hlg2).
  unfold load_kvstore. rewrite El. change (truthy 0) with false. cbv iota. set (id := ObjectStore.blobid (_ckpt_blob k)) in *.
  pose proof (fresh_store id wbuf rbuf rb2 c) as [Hid K1 K2 K3 K4 K5 K6 K7 K8 K9 K10]. set (k1 := set_checkpoint_blobid id 0 _) in *. clearbody k1.
  assert (Hck1 : checkpointed k1 t0).
  { unfold checkpointed. rewrite Hid, K3. destruct Hck as [Hc|Hh]; [by left|right].
    destruct (Hbs id (holds_live _ _ _ Hh)) as (L1 & L2 & L3). by apply (holds_same (bs k)). }
  destruct (load_checkpoint_spec pool Hpool Hrel k1 t0 K4 Hck1 K1) as (b & c' & Elc & Eid & Hh).
  unfold replay, delete_new_blob. rewrite K5. change (ObjectStore.blobid ObjectStore.no_blob =? 0) with true. cbv iota.
  change (truthy 0) with false. cbv iota. rewrite Elc. change (truthy 0) with false. cbv iota.
  set (k2 := k1 <| table := t0 |> <| _ckpt_blob := b |> <| bs := c' |>).
  assert (Hrp : replayable k2).
  { split; change (rblob k2) with (rblob k1); change (read_buf k2) with (read_buf k1); rewrite ?K2, ?K10, ?Eb, ?Es; done. }
  rewrite K2, Eb.
  destruct (replay_batches_spec Hdev rb2 (rpos (back (rblob k))) (rpos (front (rblob k))) l fuel k2) as (rb' & -> & Hsz).
  - apply (batches_kept (rblob k)); [intros x _; apply Est|done].
  - exact K2.
  - done.
  - intros i Hi'. rewrite Est. by apply Hbl.
  - done.
  - by rewrite Eb.
  - rewrite Eb, Es. lia.
  - apply batches_count in Hbt. rewrite Hu in Hfuel. pose proof (Z.div_le_lower_bound (rpos (front (rblob k)) - rpos (back (rblob k))) 4096 (Z.of_nat (List.length l))). lia.
  - eexists. split; [reflexivity|]. set (k3 := k2 <| table := _ |> <| read_buf := rb' |> <| rblob ::= _ |>).
    assert (E3 : table k3 = table k) by (symmetry; exact Ht). split; [|exact (conj E3 K6)]. exists t0, l.
    apply (replayed_inv k k3 t0 l Hi E3); try done.
    + change (rblob k3) with (RollingBlob.set_front (rpos (front (rblob k))) (rblob k1)). by rewrite K2.
    + unfold checkpointed. change (_ckpt_blob k3) with b. change (bs k3) with c'. destruct (decide (ObjectStore.blobid b = 0)) as [Hz0|Hnz].
      * left. split; [done|]. rewrite Eid in Hz0. destruct Hck1 as [[_ He]|Hh1]; [done|]. by destruct (holds_id _ _ _ Hh1).
      * right. by apply Hh.
    + change (_new_blob k3) with (_new_blob k1). by rewrite K5.
    + change (rsize (rblob k1) <= buf_size (write_buf k1) /\ rsize (rblob k1) <= buf_size rb' < 2 ^ 63).
      change (read_buf k2) with (read_buf k1) in Hsz. rewrite Hsz, K2, K9, K10, Es. done.
Qed.

(** *** The contract *)

Inductive event :=
| EPut (key_ value_ : list Z)
| ERemove (key_ : list Z)
| EPoll
| ERestart (fuel : nat) (wbuf rbuf : list Z) (rb1 : RollingBlob.rolling_blob B) (c : C).

Definition do_event (e : event) k : option (kvstore B C) :=
  match e with
  | EPut key_ value_ => Some (put key_ (Some value_) k)
  | ERemove key_ => Some (remove key_ k)
  | EPoll => snd <$> maybe_work iterate pool k
  | ERestart fuel wbuf rbuf rb1 c =>
      match load_kvstore pool fuel wbuf rbuf rb1 (ObjectStore.blobid (_ckpt_blob k)) 0 c with
      | Replayed e k => if truthy e then None else Some k
      | _ => None
      end
  end.

(** What the theorem asks of an event. *)
Definition event_ok (e : event) k : Prop :=
  let fits o := good_op o /\ room (table k) (op_log k ++ [o]) in
  match e with
  | EPut key_ value_ => fits {| key := key_; value := Some value_ |}
  | ERemove key_ => fits {| key := key_; value := None |}
  | EPoll => poll_ok k
  | ERestart fuel wbuf rbuf rb1 c => restart_ok k fuel wbuf rbuf rb1 c
  end.

(** A map, and the operations that no poll has written yet. *)
Definition spec_event (e : event) (s : gmap (list Z) (list Z) * list op) : gmap (list Z) (list Z) * list op :=
  let '(t, ops) := s in
  match e with
  | EPut key_ value_ => (t, ops ++ [{| key := key_; value := Some value_ |}])
  | ERemove key_ => (t, ops ++ [{| key := key_; value := None |}])
  | EPoll => (foldl (fun t o => match value o with Some v => <[key o := v]> t | None => delete (key o) t end) t ops, [])
  | ERestart _ _ _ _ _ => (t, [])
  end.

Definition run (es : list event) k : option (kvstore B C) := foldl (fun r e => r ≫= do_event e) (Some k) es.

Fixpoint events_ok (es : list event) k : Prop :=
  match es with
  | [] => True
  | e :: es => event_ok e k /\ forall k', do_event e k = Some k' -> events_ok es k'
  end.

Lemma apply_ops_spec ops t :
  apply_ops ops t = foldl (fun t o => match value o with Some v => <[key o := v]> t | None => delete (key o) t end) t ops.
Proof.
  revert t. induction ops as [|o ops IH]; intros t; [done|]. change (apply_ops (o :: ops) t) with (apply_ops ops (apply_op o t)).
  rewrite IH. cbn [foldl]. f_equal. unfold apply_op. destruct (t !! key o) eqn:E, (value o); try done. by rewrite delete_id.
Qed.

Lemma logged_op_wf k o n :
  kv_wf k -> good_op o -> room (table k) (op_log k ++ [o]) ->
  kv_wf (k <| op_length := n |> <| op_log := op_log k ++ [o] |>).
Proof.
  intros (t0 & l & [I1 I2 I3 I4 I5 [I6 _] I7 I8]) Ho Hr. exists t0, l. split; try done. split; [apply Forall_app; by split; [|constructor]|].
  intros E. change (op_log k ++ [o] = []) in E. by destruct (op_log k).
Qed.

Lemma event_spec e k :
  kv_wf k -> event_ok e k ->
  exists k', do_event e k = Some k' /\ kv_wf k' /\ (table k', op_log k') = spec_event e (table k, op_log k).
Proof.
  intros Hw Hok. destruct e as [key_ value_|key_| |fuel wbuf rbuf rb1 c]; cbn [do_event event_ok spec_event] in *.
  - destruct Hok as [Ho Hr]. eexists. split; [reflexivity|]. split; [|done].
    exact (logged_op_wf k _ (u64 (op_length k + LengthString key_ + LengthOptString (Some value_))) Hw Ho Hr).
  - destruct Hok as [Ho Hr]. eexists. split; [reflexivity|]. split; [|done].
    exact (logged_op_wf k _ (u64 (op_length k + LengthString key_ + LengthOptString None)) Hw Ho Hr).
  - destruct (poll_spec k Hw Hok) as (w & k' & -> & Hw' & Et & Eo). exists k'. split; [done|]. split; [done|]. by rewrite Et, Eo, apply_ops_spec.
  - destruct (restart_spec k _ _ _ _ _ Hw Hok) as (k' & -> & Hw' & Et & Eo). exists k'. split; [done|]. split; [done|]. by rewrite Et, Eo.
Qed.


Definition next (e : event) k : kvstore B C := default k (do_event e k).

Lemma events_ok_step e es k :
  kv_wf k -> event_ok e k -> (kv_wf (next e k) -> events_ok es (next e k)) -> events_ok (e :: es) k.
Proof.
  intros Hw Hok Hes. split; [done|]. intros k' E. destruct (event_spec e k Hw Hok) as (k1 & E1 & Hw1 & _).
  unfold next in Hes. rewrite E1 in E, Hes. injection E as ->. by apply Hes.
Qed.

Definition after (es : list event) k : kvstore B C := foldl (fun k e => next e k) k es.

Lemma events_ok_app es es' k :
  kv_wf k -> events_ok es k -> (kv_wf (after es k) -> events_ok es' (after es k)) -> events_ok (es ++ es') k.
Proof.
  revert k. induction es as [|e es IH]; intros k Hw Hes Hes'; [by apply Hes'|]. destruct Hes as [Hok Hes].
  apply (events_ok_step e (es ++ es') k Hw Hok). intros Hw1. apply IH; [done| |exact Hes'].
  apply Hes. destruct (event_spec e k Hw Hok) as (k1 & E1 & _). unfold next. by rewrite E1.
Qed.

Lemma blank_check (rb : RollingBlob.rolling_blob B) p : forallb (fun i => stream rb (p + i) =? 0) (seqZ 0 8) = true -> blank rb p.
Proof.
  intros Hc i Hi. rewrite forallb_forall in Hc. apply Z.eqb_eq, Hc. apply list_elem_of_In, elem_of_seqZ. lia.
Qed.

(** A restart that opens the ring and the blobs as they are. *)
Lemma restart_same k fuel wbuf rbuf size_ super_ :
  RollingBlob.blob_size (rblob k) = size_ -> List.length super_ = Z.to_nat RollingBlob.super_size ->
  rsize (rblob k) <= Z.of_nat (List.length wbuf) /\ rsize (rblob k) <= Z.of_nat (List.length rbuf) < 2 ^ 63 ->
  4096 <= RollingBlob.available (rblob k) -> rpos (back (rblob k)) + 2 * rsize (rblob k) < 2 ^ 63 ->
  RollingBlob.used (rblob k) / 4096 < Z.of_nat fuel -> blank (rblob k) (rpos (front (rblob k))) ->
  event_ok (ERestart fuel wbuf rbuf (RollingBlob.new_rolling_blob size_ super_ (RollingBlob.dev (rblob k))) (bs k)) k.
Proof. intros Es Hs Hb Ha Ht Hf Hbl. split; try done. Qed.

End durable.

(** ** What goes wrong *)

Section failures.
Context `{RollingBlob.BlobIoLaws B} `{CkptBlobs C}.
Context (iterate : gmap (list Z) (list Z) -> list (list Z * list Z)) (pool : nat -> list Z).
Hypothesis Hiterate : forall t, iterate t ≡ₚ map_to_list t.
Hypothesis Hpool : forall i, Z.of_nat (List.length (pool i)) = buffer_size.
Hypothesis Hdev : RollingBlob.reliable (B := B).
Implicit Types k : kvstore B C.

(** A checkpoint for which no blob can be made is reported as done, and the ring is
    emptied: the operations since the last checkpoint are nowhere any more. *)
Theorem failed_checkpoint_empties_log k l e id c :
  logged (rblob k) l -> working k = false -> table_ok (table k) -> ObjectStore.blobid (_new_blob k) = 0 ->
  (forall n, ObjectStore.spdk_bs_create_blob_ext (bs k) n = (e, id, c)) -> e <> 0 ->
  exists k', save_checkpoint iterate pool k = Some (0, k') /\ logged (rblob k') [] /\ _ckpt_blob k' = _ckpt_blob k /\
    rpos (back (rblob k')) = rpos (front (rblob k)).
Proof.
  intros Hlg Hwk Ht Hn Hc He. destruct (encode_table_spec iterate pool Hiterate Hpool _ Ht) as (bl & rest & E & _).
  destruct (logged_trim Hdev _ _ Hlg) as (rb & Etr & Hlg' & P1 & _).
  unfold save_checkpoint. rewrite Hwk. set (k0 := k <| working := true |>). change (table k0) with (table k). rewrite E. cbn [mbind option_bind].
  unfold start_checkpoint. change (_new_blob k0) with (_new_blob k). rewrite Hn. change (truthy 0) with false. cbv iota.
  change (bs k0) with (bs k). rewrite Hc. assert (Et : truthy e = true) by (unfold truthy; by rewrite (proj2 (Z.eqb_neq e 0))). rewrite Et.
  set (k1 := k0 <| bs := c |>). unfold write_checkpoint. change (_new_blob k1) with (_new_blob k). rewrite Hn. cbn [Z.eqb].
  unfold finish_checkpoint. change (_new_blob k1) with (_new_blob k). rewrite Hn. cbn [Z.eqb].
  change (rblob k1) with (rblob k). rewrite Etr. cbn [mbind option_bind]. eexists. split; [reflexivity|]. done.
Qed.

Lemma busy_store_waits k : working k = true -> maybe_work iterate pool k = Some (false, k).
Proof. intros E. unfold maybe_work. by rewrite E. Qed.

(** The ring is said to have room for what waits although the header of a batch and the
    rest of its last page do not fit; the append fails and the store does no work any
    more. *)
Theorem short_ring_stops_store k l :
  logged (rblob k) l -> working k = false -> op_log k <> [] -> batch_len (op_log k) <= buf_size (write_buf k) ->
  need_checkpoint k = false -> RollingBlob.available (rblob k) < batch_len (op_log k) ->
  exists k', maybe_work iterate pool k = Some (true, k') /\ table k' = table k /\ op_log k' = op_log k /\
    maybe_work iterate pool k' = Some (false, k') /\
    forall key_ value_, maybe_work iterate pool (put key_ value_ k') = Some (false, put key_ value_ k').
Proof.
  intros Hlg Hwk Hne Hwb Hnc Hfit. destruct (batch_len_spec _ Hne) as (B1 & B2 & B3).
  destruct (serialize_op_wrote (op_log k) (write_buf k)) as (U & Sz & rest & E); [fold (data_size (op_log k)); lia|].
  fold (data_size (op_log k)) in U. unfold maybe_work. rewrite Hwk, Hnc. unfold need_commit.
  destruct (op_log k) as [|o ops] eqn:Eo; [done|]. rewrite <- Eo in *. unfold commit. rewrite Hwk. unfold need_commit. rewrite Eo, <- Eo. cbn [negb]. cbv zeta.
  set (wb := serialize_op (op_log k) (write_buf k)) in *. set (bl := take _ (_buf wb)).
  assert (Hbl : Z.of_nat (List.length bl) = batch_len (op_log k)).
  { unfold bl. rewrite U. fold (batch_len (op_log k)). rewrite length_take. unfold buf_size in Sz, Hwb. lia. }
  unfold RollingBlob.append. rewrite Hbl, (proj2 (Z.ltb_lt _ _) Hfit). cbn [mbind option_bind fst]. unfold commit_done.
  change (truthy (- RollingBlob.ENOSPC)) with true. cbv iota. eexists. split; [reflexivity|]. cbn [snd].
  set (k' := _ <| op_length ::= _ |>). split; [done|]. split; [|split; [done|intros; done]].
  change (op_log k ++ [] = op_log k). apply app_nil_r.
Qed.

End failures.

(** ** An instance *)

(** A device in memory that never fails. *)
Record ram := { cell : Z -> Z; ram_units : Z }.

#[export] Instance ram_io : RollingBlob.BlobIo ram := {|
  RollingBlob.spdk_blob_io_writev d bl l n :=
    (0, {| cell o := if decide (l * 512 <= o < (l + n) * 512) then nth (Z.to_nat (o - l * 512)) bl 0 else cell d o;
           ram_units := ram_units d |});
  RollingBlob.spdk_blob_io_readv d l n := (0, cell d <$> seqZ (l * 512) (n * 512));
  RollingBlob.spdk_blob_io_unmap d l n :=
    (0, {| cell o := if decide (l * 512 <= o < (l + n) * 512) then 0 else cell d o; ram_units := ram_units d |});
|}.

#[export, refine] Instance ram_laws : RollingBlob.BlobIoLaws ram := {| RollingBlob.data := cell; RollingBlob.units := ram_units |}.
Proof.
  all: unfold RollingBlob.unit_size.
  - intros d bl l n e d' [= <- <-] H1 H2 H3 Hl. split; [done|]. split; [intros o Ho; cbn [cell]; by rewrite decide_False|].
    intros _ i Hi. cbn [cell]. rewrite decide_True by lia. do 2 f_equal. lia.
  - by intros d l n bytes [= <-] _ _ _.
  - intros d l n e d' [= <- <-] H1 H2 H3. split; [done|]. intros o Ho. cbn [cell]. by rewrite decide_False.
Defined.

Lemma ram_reliable : RollingBlob.reliable (B := ram).
Proof. done. Qed.

#[export] Instance mem_ckpt : CkptBlobs ObjectStore.mem := {|
  spdk_blob_sync_md b _ := (0, b);
  spdk_blob_get_num_clusters b p := from_option ObjectStore.size 0 (p ≫= ObjectStore.get_blob b);
|}.

#[export] Instance mem_ckpt_laws : CkptLaws ObjectStore.mem.
Proof.
  split.
  - intros b h id e b' _ [= <- <-]. by apply ObjectStore.mem_keeps.
  - by intros b h id [-> _].
  - by intros b h id e b' _ [= <- <-].
Defined.

Lemma mem_reliable : blobs_reliable (C := ObjectStore.mem).
Proof.
  assert (Hget : forall b id, ObjectStore.live b id -> exists m, ObjectStore.get_blob b id = Some m /\ 0 < id).
  { intros b id Hl. change (ObjectStore.get_blob b id <> None) in Hl. unfold ObjectStore.get_blob in *. destruct (decide (0 < id)); [|done].
    destruct (mjoin _) as [m|]; [by exists m|done]. }
  split; try done; intros b.
  - intros id Hl. destruct (Hget b id Hl) as (m & E & _). change (fst (fst (if ObjectStore.get_blob b id then 0 else - ENOENT, Some id, b)) = 0). by rewrite E.
  - intros id Hl. destruct (Hget b id Hl) as (m & _ & Hp). cbn [ObjectStore.spdk_bs_delete_blob ObjectStore.mem_blobs]. by rewrite decide_True.
  - intros h id bl l n [-> Hl]. destruct (Hget b id Hl) as (m & E & _). cbn [ObjectStore.spdk_blob_io_write ObjectStore.mem_blobs]. by rewrite E.
  - intros h id l n [-> Hl]. destruct (Hget b id Hl) as (m & E & _). cbn [ObjectStore.spdk_blob_io_read ObjectStore.mem_blobs mbind option_bind]. by rewrite E.
Qed.

Definition page (_ : nat) : list Z := replicate 4096 0.

Lemma page_size i : Z.of_nat (List.length (page i)) = buffer_size.
Proof. done. Qed.

(** A ring of two pages. *)
Definition blank_ring : RollingBlob.rolling_blob ram :=
  RollingBlob.new_rolling_blob 12288 (replicate 4096 0) {| cell _ := 0; ram_units := 24 |}.

Definition small_store : kvstore ram ObjectStore.mem :=
  new_kvstore (replicate 8192 0) (replicate 8192 0) (snd (RollingBlob.sync_md blank_ring)) [].

Lemma small_store_wf : kv_wf small_store.
Proof.
  assert (Hw : RollingBlob.rblob_wf blank_ring) by (split; first [done|by split|by exists 0]).
  assert (Hlg : logged (snd (RollingBlob.sync_md blank_ring)) []) by (apply sync_logged; [exact ram_reliable|exact Hw|reflexivity|by exists 0]).
  exists ∅, []. split; [exact Hlg|by left|done|done|done|done|by vm_compute|by vm_compute].
Qed.

Definition writes : list (event (B := ram) (C := ObjectStore.mem)) :=
  [EPut [1] [10]; EPoll; EPut [2] [20]; ERemove [1]; EPoll; EPut [3] [30]; EPoll].

Abbreviation written_store := (after map_to_list page writes small_store).

Definition restart : event :=
  ERestart 2 (replicate 8192 0) (replicate 8192 0)
    (RollingBlob.new_rolling_blob 12288 (replicate 4096 0) (RollingBlob.dev (rblob written_store))) (bs written_store).

Ltac run_event tac :=
  match goal with
  | Hw : kv_wf _ |- _ =>
      refine (events_ok_step map_to_list page (fun _ => reflexivity _) page_size ram_reliable mem_reliable _ _ _ Hw _ _); [tac|clear Hw; intros Hw]
  end.

Ltac put_fits := split; [split; [discriminate|by vm_compute]|by vm_compute].
Ltac batch_fits := split; [first [left; by vm_compute|right; split; by vm_compute]|by vm_compute].

Lemma writes_ok : events_ok map_to_list page writes small_store.
Proof.
  pose proof small_store_wf as Hw. unfold writes.
  run_event put_fits. run_event batch_fits. run_event put_fits. run_event put_fits. run_event batch_fits. run_event put_fits.
  run_event batch_fits. exact I.
Qed.

Lemma restart_allowed : event_ok restart written_store.
Proof.
  apply restart_same; [by vm_compute..|]. apply blank_check. by vm_compute.
Qed.

Lemma restart_last : events_ok map_to_list page [restart] written_store.
Proof. exact (conj restart_allowed (fun _ _ => I)). Qed.

Lemma spec_of_writes fuel wbuf rbuf rb c :
  let t := fst (foldl (fun s e => spec_event e s) (table small_store, op_log small_store) (writes ++ [ERestart fuel wbuf rbuf rb c])) in
  t !! [1] = None /\ t !! [2] = Some [20] /\ t !! [3] = Some [30].
Proof. done. Qed.


End KvDurable.
