(* ===== verification/RaftLog.v ===== *)
(** * Entries of a placement group in memory (src/raft/raft_cache.h, raft_log.h, raft_log.cc)

    The cache is a list of entries and a map from indices to places in it.  An entry
    of the list that the map leads to is [mapped]: the map keeps the first entry that
    is inserted under an index, and forgets an index when any entry with it leaves
    the list.  A raft log is the cache, the log on disk, which is never null, and a
    queue of entries that have no index yet.

    Whatever a completion function does happens after the operation that calls it. *)

From stdpp Require Import list.
From S2P Require Import Prelude Wire Codec RollingBlob DiskLog.

Module RaftLog.
Import DiskLog.

(** ** Entries *)

Definition RAFT_LOGTYPE_WRITE : Z := 0.
Definition RAFT_LOGTYPE_DELETE : Z := 1.
Definition RAFT_LOGTYPE_ADD_NONVOTING_NODE : Z := 2.
Definition RAFT_LOGTYPE_CONFIGURATION : Z := 3.

Record raft_entry_t := {
  e_term : Z;
  e_idx : Z;
  e_type : Z;
  e_meta : list Z;
  e_data : list Z;
}.

#[export] Instance eta_raft_entry : Eta raft_entry_t := fun e =>
  {| e_term := e_term e; e_idx := e_idx e; e_type := e_type e; e_meta := e_meta e; e_data := e_data e |}.

Definition raft_entry_is_cfg_change (e : raft_entry_t) : bool :=
  (RAFT_LOGTYPE_ADD_NONVOTING_NODE =? e_type e) || (RAFT_LOGTYPE_CONFIGURATION =? e_type e).

(** ** The cache

    [C] is the type of completion contexts. *)
Section cache.
Context {C : Type}.

Record cache_item := { entry : raft_entry_t; complete : ptr C; mapped : bool }.

#[export] Instance eta_cache_item : Eta cache_item := fun i =>
  {| entry := entry i; complete := complete i; mapped := mapped i |}.

Implicit Types c : list cache_item.

Definition idx_of (i : cache_item) : Z := e_idx (entry i).

(** The list from the entry on that the map has for an index, and what is before it. *)
Fixpoint split_at (idx : Z) c : option (list cache_item * list cache_item) :=
  match c with
  | [] => None
  | i :: c' =>
      if mapped i && (idx_of i =? idx) then Some ([], c)
      else match split_at idx c' with
           | Some (a, b) => Some (i :: a, b)
           | None => None
           end
  end.

(** [_idx_mcs.erase(idx)]. *)
Definition unmap (idx : Z) c : list cache_item :=
  (fun i => if idx_of i =? idx then i <| mapped := false |> else i) <$> c.

Definition add (e : raft_entry_t) (complete_ : ptr C) c : list cache_item :=
  c ++ [{| entry := e; complete := complete_;
           mapped := negb (existsb (fun i => mapped i && (idx_of i =? e_idx e)) c) |}].

Definition remove (idx : Z) c : list cache_item :=
  match split_at idx c with
  | Some (a, i :: b) => unmap (idx_of i) (a ++ b)
  | _ => c
  end.

Definition get (idx : Z) c : ptr raft_entry_t :=
  match split_at idx c with
  | Some (_, i :: _) => Some (entry i)
  | _ => NULL
  end.

Definition get_upper (idx : Z) c : list raft_entry_t :=
  match split_at idx c with
  | Some (_, b) => entry <$> b
  | None => []
  end.

(** The items up to the one with index [end_idx], and those after it. *)
Fixpoint upto (end_idx : Z) c : list cache_item * list cache_item :=
  match c with
  | [] => ([], [])
  | i :: c =>
      if idx_of i =? end_idx then ([i], c)
      else let '(a, b) := upto end_idx c in (i :: a, b)
  end.

Definition get_between (start_idx end_idx : Z) c : list raft_entry_t :=
  if end_idx <? start_idx then []
  else match split_at start_idx c with
       | Some (_, b) => entry <$> fst (upto end_idx b)
       | None => []
       end.

(** The contexts that are completed, and the cache. *)
Definition complete_entry_between (start_idx end_idx : Z) c : list C * list cache_item :=
  if end_idx <? start_idx then ([], c)
  else match split_at start_idx c with
       | Some (a, b) =>
           let '(x, y) := upto end_idx b in
           (omap complete x, a ++ ((fun i => i <| complete := NULL |>) <$> x) ++ y)
       | None => ([], c)
       end.

Definition remove_entry_between (start_idx end_idx : Z) c : list cache_item :=
  if end_idx <? start_idx then c
  else match split_at start_idx c with
       | Some (a, b) =>
           let '(x, y) := upto end_idx b in foldl (fun c i => unmap (idx_of i) c) (a ++ y) x
       | None => c
       end.

Definition get_first_entry c : ptr raft_entry_t :=
  match c with [] => NULL | i :: _ => Some (entry i) end.

(** [get] with a number of entries. *)
Definition get_num (idx : Z) (num : Z) c : list raft_entry_t :=
  match split_at idx c with
  | Some (_, b) => entry <$> (if num <? 0 then b else take (Z.to_nat num) b)
  | None => []
  end.

(** With 0 for all of them. *)
Definition remove_upper (idx num : Z) c : list cache_item :=
  match split_at idx c with
  | Some (a, b) =>
      let n := Z.to_nat (if num =? 0 then Z.of_nat (List.length c) else num) in
      foldl (fun c i => unmap (idx_of i) c) (a ++ drop n b) (take n b)
  | None => c
  end.

Definition get_last_cache_entry c : Z :=
  match last c with Some i => idx_of i | None => 0 end.

(** *** The cache as a window of the log *)

(** Entries with consecutive indices from [lo] on, which the map leads to. *)
Definition window (lo : Z) c : Prop :=
  forall k i, c !! k = Some i -> mapped i = true /\ idx_of i = lo + Z.of_nat k.

Lemma window_tail lo i c : window lo (i :: c) -> window (lo + 1) c.
Proof. intros Hw k j Hk. destruct (Hw (S k) j Hk) as [Hm Hi]. split; [done|lia]. Qed.

Lemma cache_split lo c idx :
  window lo c -> lo <= idx < lo + Z.of_nat (List.length c) ->
  split_at idx c = Some (take (Z.to_nat (idx - lo)) c, drop (Z.to_nat (idx - lo)) c).
Proof.
  revert lo. induction c as [|i c IH]; intros lo Hw Hidx; cbn in Hidx; [lia|].
  cbn [split_at]. destruct (Hw 0%nat i eq_refl) as [-> Hi]. cbn [andb].
  destruct (Z.eqb_spec (idx_of i) idx) as [He|Hne].
  - replace (Z.to_nat (idx - lo)) with 0%nat by lia. done.
  - rewrite (IH (lo + 1)) by (first [by eapply window_tail|lia]).
    replace (Z.to_nat (idx - lo)) with (S (Z.to_nat (idx - (lo + 1)))) by lia. done.
Qed.

Lemma cache_split_out lo c idx :
  window lo c -> ~ (lo <= idx < lo + Z.of_nat (List.length c)) -> split_at idx c = None.
Proof.
  revert lo. induction c as [|i c IH]; intros lo Hw Hidx; [done|]. cbn [split_at]. cbn in Hidx.
  destruct (Hw 0%nat i eq_refl) as [-> Hi]. cbn [andb]. destruct (Z.eqb_spec (idx_of i) idx) as [He|Hne]; [lia|].
  rewrite (IH (lo + 1)); [done|by eapply window_tail|lia].
Qed.

Lemma window_drop lo c n : window lo c -> window (lo + Z.of_nat n) (drop n c).
Proof. intros Hw k i. rewrite lookup_drop. intros Hk. destruct (Hw _ _ Hk). split; [done|lia]. Qed.

Lemma window_take lo c n : window lo c -> window lo (take n c).
Proof. intros Hw k i [Hk _]%lookup_take_Some. by apply Hw. Qed.

(** The walk to the end of a range. *)
Lemma window_upto lo c end_idx :
  window lo c -> lo <= end_idx ->
  upto end_idx c = (take (Z.to_nat (end_idx - lo + 1)) c, drop (Z.to_nat (end_idx - lo + 1)) c).
Proof.
  revert lo. induction c as [|i c IH]; intros lo Hw Hle; [by rewrite take_nil, drop_nil|]. cbn [upto].
  destruct (Hw 0%nat i eq_refl) as [_ Hi]. destruct (Z.eqb_spec (idx_of i) end_idx) as [He|Hne].
  - by replace (Z.to_nat (end_idx - lo + 1)) with 1%nat by lia.
  - rewrite (IH (lo + 1)) by (first [by eapply window_tail|lia]).
    replace (Z.to_nat (end_idx - lo + 1)) with (S (Z.to_nat (end_idx - (lo + 1) + 1))) by lia. done.
Qed.

Lemma window_unmapped lo c x :
  window lo c -> Forall (fun i => ~ (lo <= idx_of i < lo + Z.of_nat (List.length c))) x ->
  foldl (fun c i => unmap (idx_of i) c) c x = c.
Proof.
  intros Hw Hx. induction Hx as [|i x Hi _ IH]; [done|]. cbn. replace (unmap (idx_of i) c) with c; [done|].
  symmetry. apply list_eq. intros k. unfold unmap. rewrite list_lookup_fmap. destruct (c !! k) as [j|] eqn:Ej; [|done].
  cbn. destruct (Hw _ _ Ej) as [_ Hj]. apply lookup_lt_Some in Ej.
  destruct (Z.eqb_spec (idx_of j) (idx_of i)); [lia|done].
Qed.

(** C22: A cache whose indices follow each other is a window of the log: an index leads to
    the entry at its place, ranges are slices, an entry with the next index extends
    it, and the first or the last entries can be removed. *)
Theorem cache_is_window (lo : Z) c :
  window lo c ->
  let hi := lo + Z.of_nat (List.length c) in
  (forall idx, get idx c = if (lo <=? idx) && (idx <? hi) then entry <$> c !! Z.to_nat (idx - lo) else NULL) /\
  (forall a b, lo <= a <= b -> b < hi ->
    get_between a b c = entry <$> take (Z.to_nat (b - a + 1)) (drop (Z.to_nat (a - lo)) c)) /\
  (forall e x, e_idx e = hi -> window lo (add e x c)) /\
  (forall b, lo <= b < hi ->
    remove_entry_between lo b c = drop (Z.to_nat (b - lo + 1)) c /\ window (b + 1) (remove_entry_between lo b c)) /\
  (forall a, lo <= a < hi ->
    remove_entry_between a (hi - 1) c = take (Z.to_nat (a - lo)) c /\ window lo (remove_entry_between a (hi - 1) c)).
Proof.
  intros Hw hi. split_and!.
  - intros idx. unfold get. destruct (Z.leb_spec lo idx) as [H1|H1], (Z.ltb_spec idx hi) as [H2|H2]; cbn [andb];
      try (rewrite (cache_split_out lo) by (done || lia); done).
    rewrite (cache_split lo) by (done || lia).
    destruct (c !! Z.to_nat (idx - lo)) as [i|] eqn:Ei; [|apply lookup_ge_None in Ei; lia].
    by rewrite (drop_S _ _ _ Ei).
  - intros a b Hab Hb. unfold get_between. destruct (Z.ltb_spec b a); [lia|].
    rewrite (cache_split lo) by (done || lia). rewrite (window_upto a); [done| |lia].
    replace a with (lo + Z.of_nat (Z.to_nat (a - lo))) at 1 by lia. by apply window_drop.
  - intros e x He k i. unfold add. intros [Hk|[Hk Hi]]%lookup_app_Some; [by apply Hw|].
    apply list_lookup_singleton_Some in Hi as [Hk0 <-]. unfold idx_of. cbn. split; [|lia].
    apply negb_true_iff, not_true_is_false. intros (j & Hj & Hb)%existsb_exists.
    apply list_elem_of_In, list_elem_of_lookup in Hj as (m & Hm). apply andb_true_iff in Hb as [_ Hb].
    destruct (Hw _ _ Hm) as [_ Hjm]. apply lookup_lt_Some in Hm. unfold idx_of in Hjm. lia.
  - intros b Hb.
    assert (Hr : remove_entry_between lo b c = drop (Z.to_nat (b - lo + 1)) c).
    { unfold remove_entry_between. destruct (Z.ltb_spec b lo); [lia|]. rewrite (cache_split lo) by (done || lia).
      rewrite Z.sub_diag. cbn [Z.to_nat take drop]. rewrite (window_upto lo) by (done || lia). cbn [app].
      apply (window_unmapped (lo + Z.of_nat (Z.to_nat (b - lo + 1)))); [by apply window_drop|].
      apply Forall_lookup. intros k i [Hk Hlt]%lookup_take_Some. destruct (Hw _ _ Hk). lia. }
    rewrite Hr. split; [done|]. replace (b + 1) with (lo + Z.of_nat (Z.to_nat (b - lo + 1))) by lia. by apply window_drop.
  - intros a Ha.
    assert (Hr : remove_entry_between a (hi - 1) c = take (Z.to_nat (a - lo)) c).
    { unfold remove_entry_between. destruct (Z.ltb_spec (hi - 1) a); [lia|]. rewrite (cache_split lo) by (done || lia).
      rewrite (window_upto a); [| |lia].
      - rewrite (drop_ge (drop _ c)) by (rewrite length_drop; lia). rewrite app_nil_r.
        apply (window_unmapped lo); [by apply window_take|]. rewrite length_take.
        apply Forall_lookup. intros k i [Hk Hlt]%lookup_take_Some. rewrite lookup_drop in Hk. destruct (Hw _ _ Hk).
        apply lookup_lt_Some in Hk. lia.
      - replace a with (lo + Z.of_nat (Z.to_nat (a - lo))) at 1 by lia. by apply window_drop. }
    rewrite Hr. split; [done|by apply window_take].
Qed.

End cache.
Arguments cache_item C : clear implicits.

(** The entries 4, 5 and 6. *)
Definition example_cache : list (cache_item unit) :=
  foldl (fun c idx => add {| e_term := 1; e_idx := idx; e_type := RAFT_LOGTYPE_WRITE; e_meta := []; e_data := [] |} NULL c) [] [4; 5; 6].

Lemma cache_is_window_witness :
  window 4 example_cache /\ e_idx <$> get_between 5 6 example_cache = [5; 6] /\
  e_idx <$> get_upper 6 (remove_entry_between 4 5 example_cache) = [6].
Proof.
  assert (Hw : window 4 example_cache).
  { intros [|[|[|k]]] i Hk; [injection Hk as <-; split; reflexivity..|discriminate]. }
  destruct (cache_is_window 4 example_cache Hw) as (_ & Hb & _ & Hd & _).
  split; [exact Hw|]. split.
  - rewrite (Hb 5 6); [reflexivity|lia|vm_compute; reflexivity].
  - rewrite (proj1 (Hd 5 ltac:(vm_compute; split; [discriminate|reflexivity]))). reflexivity.
Defined.

(** ** The log *)

Section log.
Context {C : Type} `{RollingBlob.BlobIo B}.

Record raft_log := {
  _log : disk_log B;
  _next_idx : Z;
  _entries : list (cache_item C);
  _max_applied_entry_num_in_cache : Z;
  _entry_queue : list (raft_entry_t * ptr C);
}.

#[export] Instance eta_raft_log : Eta raft_log := fun l =>
  {| _log := _log l; _next_idx := _next_idx l; _entries := _entries l;
     _max_applied_entry_num_in_cache := _max_applied_entry_num_in_cache l; _entry_queue := _entry_queue l |}.

Implicit Types l : raft_log.

Definition log_new (log : disk_log B) : raft_log :=
  {| _log := log; _next_idx := 1; _entries := []; _max_applied_entry_num_in_cache := 500; _entry_queue := [] |}.

(** One turn of [log_append] of a follower; the server looks for a configuration in
    the entry that is added. *)
Definition log_append_one (e : raft_entry_t) (complete_ : ptr C) l : raft_entry_t * raft_log :=
  let e := e <| e_idx := _next_idx l |> in
  (e, l <| _next_idx ::= Z.add 1 |> <| _entries ::= add e complete_ |>).

(** [log_append] of a leader. *)
Definition log_enqueue (e : raft_entry_t) (complete_ : ptr C) (push_front : bool) l : raft_log :=
  l <| _entry_queue ::= fun q => if push_front then (e, complete_) :: q else q ++ [(e, complete_)] |>.

(** The second loop of [entry_queue_flush]: entries up to the next change of the
    configuration, and how many they are. *)
Fixpoint flush_entries (q : list (raft_entry_t * ptr C)) (count : Z) l : Z * raft_log :=
  match q with
  | (e, complete_) :: q' =>
      if raft_entry_is_cfg_change e then (count, l <| _entry_queue := q |>)
      else
        let e := e <| e_idx := _next_idx l |> in
        flush_entries q' (count + 1) (l <| _next_idx ::= Z.add 1 |> <| _entries ::= add e complete_ |>)
  | [] => (count, l <| _entry_queue := [] |>)
  end.

(** An entry whose data is not a whole number of pages becomes an empty one. *)
Definition raft_entry_to_log_entry (e : raft_entry_t) : Codec.log_entry_t :=
  let sz := Z.of_nat (List.length (e_data e)) in
  if negb (sz mod 4096 =? 0) then
    {| Codec.term_id := 2 ^ 64 - 1; Codec.index := 2 ^ 64 - 1; Codec.size := 2 ^ 64 - 1; Codec.type := 2 ^ 64 - 1;
       Codec.meta := []; Codec.data := [] |}
  else
    {| Codec.term_id := e_term e; Codec.index := e_idx e; Codec.size := sz; Codec.type := e_type e;
       Codec.meta := e_meta e; Codec.data := e_data e |}.

Definition log_entry_to_raft_entry (e : Codec.log_entry_t) : raft_entry_t :=
  {| e_term := Codec.term_id e; e_idx := Codec.index e; e_type := Codec.type e; e_meta := Codec.meta e;
     e_data := Codec.data e |}.

(** [None] when the completion function of the blob is lost. *)
Definition disk_append (stale : Codec.log_entry_t -> list Z) (start_idx end_idx : Z) l : option Z * raft_log :=
  let '(r, d) := DiskLog.append stale (raft_entry_to_log_entry <$> get_between start_idx end_idx (_entries l)) (_log l) in
  (r, l <| _log := d |>).

Definition disk_read (make_buffer_list : Z -> list Z) (start_idx end_idx : Z) l : option Z * option (list raft_entry_t) :=
  match DiskLog.read make_buffer_list start_idx end_idx (_log l) with
  | (Some 0, es) => (Some 0, option_map (map log_entry_to_raft_entry) es)
  | (r, _) => (r, Some [])
  end.

Definition disk_get_term (idx : Z) l : option Z :=
  let term := get_term_id idx (_log l) in
  if term =? 0 then None else Some term.

(** The largest index when the cache is empty. *)
Definition first_log_in_cache l : Z :=
  match get_first_entry (_entries l) with
  | NULL => 2 ^ 63 - 1
  | Some e => e_idx e
  end.

(** Completing and removing what is in the cache, and cutting the disk; the server
    forgets the configurations in between. *)
Definition log_truncate_cache (idx : Z) l : list C * raft_log :=
  let last_cache_idx := get_last_cache_entry (_entries l) in
  let '(cs, es) := complete_entry_between idx last_cache_idx (_entries l) in
  (cs, l <| _entries := remove_entry_between idx last_cache_idx es |>).

Definition log_truncate_disk (idx : Z) l : option Z * raft_log :=
  let '(r, d) := DiskLog.truncate idx (_log l) in (r, l <| _log := d |>).

Definition log_get_base_index l : Z := _lowest_index (_log l).
Definition log_get_base_term l : Z := get_term_id (_lowest_index (_log l)) (_log l).

Definition set_trim_index (idx : Z) l : raft_log := l <| _log ::= advance_trim_index idx |>.

Definition set_applied_index (last_applied_idx idx : Z) l : raft_log :=
  let first_entry_idx := first_log_in_cache l in
  if last_applied_idx + 1 <? first_entry_idx then l
  else
    let applied_num := u32 (last_applied_idx - first_entry_idx + 1) in
    let l :=
      if _max_applied_entry_num_in_cache l <? applied_num + idx - last_applied_idx then
        let remove_size := applied_num + idx - last_applied_idx - _max_applied_entry_num_in_cache l in
        l <| _entries ::= remove_entry_between first_entry_idx (first_entry_idx + remove_size - 1) |>
      else l in
    set_trim_index idx l.

(** The contexts that are completed. *)
Definition clear_entry_queue l : list C * raft_log :=
  (omap snd (_entry_queue l), l <| _entry_queue := [] |>).

Definition set_next_idx (idx : Z) l : raft_log := l <| _next_idx := idx |>.

Definition set_disk_log_index (idx : Z) l : option Z * raft_log :=
  let '(r, d) := DiskLog.set_index idx (_log l) in (r, l <| _log := d |>).

Definition load (make_buffer_list : Z -> list Z) (fuel : nat) (read_unit : Z) l : option (option Z * raft_log) :=
  match DiskLog.load make_buffer_list fuel read_unit (_log l) with
  | None => None
  | Some (r, d) =>
      let l := l <| _log := d |> in
      match r with
      | Some 0 => Some (r, l <| _next_idx := _highest_index d + 1 |>)
      | _ => Some (r, l)
      end
  end.

End log.
Arguments raft_log C B : clear implicits.

End RaftLog.
