(* ===== verification/Raft.v ===== *)
(** * Replication of a placement group (src/raft)

    A raft server with its log, its peers and its configurations: raft_server.cc,
    raft.h, raft_node.h, raft_node.cc, configuration_manager.cc, append_entry_buffer.cc
    and the handlers of raft_service.h, raft_client_protocol.cc and pg_group.cc that
    call them.

    A handler is a function in a state monad.  What it asks of others, such as a
    message or a completion, is an [action]; an operation on the disk takes effect
    when it is started, and its completion function runs later, as a handler of its
    own.  A handler that fails, because of an assertion or a null pointer, ends the
    process and has no result.  Times are read once for each handler.

    Peers are objects that several tables refer to, so they lie on a heap.  The hash
    tables of peers are lists.  What is saved in the key-value store under the names
    of the placement group is a record with a field for each name; an operation is
    in its log until it is committed.  The parts of a snapshot are not modelled. *)

From stdpp Require Import list.
From S2P Require Import Prelude Wire Codec RollingBlob DiskLog RaftLog.
Import (hints) RaftLog.

Module Raft.
Import RaftLog.

(** ** Numbers *)

Definition E_SUCCESS : Z := 0.
Definition E_INVAL : Z := - EINVAL.
Definition E_ENOSPC : Z := - 28.
Definition RAFT_ERR_NOT_LEADER : Z := - 135.
Definition RAFT_ERR_SHUTDOWN : Z := - 137.
Definition RAFT_ERR_SNAPSHOT_IN_PROGRESS : Z := - 140.
Definition RAFT_ERR_NOT_FOUND_PG : Z := - 144.
Definition RAFT_ERR_LOG_NOT_MATCH : Z := - 145.
Definition RAFT_ERR_PG_SHUTDOWN : Z := - 146.
Definition RAFT_ERR_NO_CONNECTED : Z := - 147.
Definition RAFT_ERR_PG_DELETED : Z := - 148.
Definition RAFT_ERR_PG_INITIALIZING : Z := - 152.
Definition RAFT_ERR_MEMBERSHIP_CHANGING : Z := - 153.
Definition RAFT_ERR_UNKNOWN : Z := - 199.

Definition RAFT_REQUESTVOTE_ERR_GRANTED : Z := 1.
Definition RAFT_REQUESTVOTE_ERR_NOT_GRANTED : Z := 0.
Definition RAFT_REQUESTVOTE_ERR_UNKNOWN_NODE : Z := - 1.

Definition CATCH_UP_NUM : Z := 200.
Definition recovery_max_entry_num : Z := 100.

Inductive raft_identity := RAFT_STATE_NONE | RAFT_STATE_FOLLOWER | RAFT_STATE_CANDIDATE | RAFT_STATE_LEADER.

Inductive raft_op_state := RAFT_INIT | RAFT_ACTIVE | RAFT_DOWN | RAFT_DELETE.

Inductive cfg_state := CFG_NONE | CFG_CATCHING_START | CFG_CATCHING_UP | CFG_JOINT | CFG_UPDATE_NEW_CFG.

#[export] Instance raft_identity_eq_dec : EqDecision raft_identity.
Proof. solve_decision. Defined.
#[export] Instance raft_op_state_eq_dec : EqDecision raft_op_state.
Proof. solve_decision. Defined.
#[export] Instance cfg_state_eq_dec : EqDecision cfg_state.
Proof. solve_decision. Defined.

Definition raft_state_to_errno (state : raft_op_state) : Z :=
  match state with
  | RAFT_INIT => RAFT_ERR_PG_INITIALIZING
  | RAFT_DOWN => RAFT_ERR_PG_SHUTDOWN
  | RAFT_DELETE => RAFT_ERR_PG_DELETED
  | RAFT_ACTIVE => E_SUCCESS
  end.

(** ** Messages *)

Record msg_requestvote_t := {
  rv_node_id : Z;
  rv_term : Z;
  rv_candidate_id : Z;
  rv_last_log_idx : Z;
  rv_last_log_term : Z;
  rv_prevote : Z;
}.

Record msg_requestvote_response_t := { vr_node_id : Z; vr_term : Z; vote_granted : Z; vr_prevote : Z }.

Record msg_appendentries_t := {
  ae_node_id : Z;
  ae_term : Z;
  prev_log_idx : Z;
  prev_log_term : Z;
  leader_commit : Z;
  entries : list raft_entry_t;
}.

Record msg_appendentries_response_t := {
  ar_node_id : Z;
  ar_term : Z;
  success : Z;
  lease : Z;
  ar_current_idx : Z;
  first_idx : Z;
}.

#[export] Instance eta_ae : Eta msg_appendentries_t := fun m =>
  {| ae_node_id := ae_node_id m; ae_term := ae_term m; prev_log_idx := prev_log_idx m;
     prev_log_term := prev_log_term m; leader_commit := leader_commit m; entries := entries m |}.
#[export] Instance eta_ar : Eta msg_appendentries_response_t := fun m =>
  {| ar_node_id := ar_node_id m; ar_term := ar_term m; success := success m; lease := lease m;
     ar_current_idx := ar_current_idx m; first_idx := first_idx m |}.

Definition empty_response : msg_appendentries_response_t :=
  {| ar_node_id := 0; ar_term := 0; success := 0; lease := 0; ar_current_idx := 0; first_idx := 0 |}.

(** The message inside an entry that changes the configuration; how it is written to
    bytes is the business of its library. *)
Record raft_configuration := { new_nodes : list Codec.raft_node_info; old_nodes : list Codec.raft_node_info }.

Class ConfigCodec := {
  SerializeToString : raft_configuration -> list Z;
  ParseFromString : list Z -> raft_configuration;
}.

(** ** Completions and actions *)

(** A client's operation or a request from another server, and the context that
    [append_entries_buffer] wraps around the latter. *)
Inductive context := Client (n : Z) | FlushComplete (n : Z).

(** What runs when an operation on the disk is done. *)
Inductive disk_ctx :=
| disk_append_complete (start_idx end_idx : Z)
| follow_disk_append_complete (start_idx end_idx commit_idx : Z) (n : Z)
| disk_configuration_complete (start_idx end_idx : Z)
| truncate_prev_complete (ae : msg_appendentries_t) (n : Z)
| truncate_entry_complete (ae : msg_appendentries_t) (n : Z) (i ety_index : Z)
| recovery_read_complete (node_id : Z) (es : list raft_entry_t).

Inductive action :=
| SendVote (to : Z) (rv : msg_requestvote_t)
| SendAppendentries (to : Z) (ae : msg_appendentries_t)
| SendHeartbeat (to : Z) (ae : msg_appendentries_t)
| SendTimeoutNow (to : Z) (term : Z)
| SendCreatePg (to : Z) (node : nat) (next_idx : Z)
| RecoveryBySnapshot (node : nat)
| SnapCheck (node_id : Z)
| NotifyLeader (leader : Z) (osds new_osds : list Z)
| NotifyMemberChange (result : Z) (osds : list Z) (complete_ : ptr context)
| Complete (n : Z) (result : Z)
| LogStop
| DiskDone (c : disk_ctx) (result : Z).

(** ** Peers *)

Record raft_node := {
  node_next_idx : Z;
  _match_idx : Z;
  _flags : Z;
  _info : Codec.raft_node_info;
  _lease : Z;
  _effective_time : Z;
  _suppress_heartbeats : bool;
  _append_time : Z;
  _is_heartbeating : bool;
  _is_recovering : bool;
  _end_idx : Z;
}.

#[export] Instance eta_raft_node : Eta raft_node := fun n =>
  {| node_next_idx := node_next_idx n; _match_idx := _match_idx n; _flags := _flags n; _info := _info n;
     _lease := _lease n; _effective_time := _effective_time n; _suppress_heartbeats := _suppress_heartbeats n;
     _append_time := _append_time n; _is_heartbeating := _is_heartbeating n;
     _is_recovering := _is_recovering n; _end_idx := _end_idx n |}.

Definition new_raft_node (info : Codec.raft_node_info) : raft_node :=
  {| node_next_idx := 1; _match_idx := 0; _flags := 0; _info := info; _lease := 0; _effective_time := 0;
     _suppress_heartbeats := false; _append_time := 0; _is_heartbeating := false; _is_recovering := false; _end_idx := 0 |}.

Definition RAFT_NODE_VOTED_FOR_ME : Z := 1.

Definition raft_node_vote_for_me (vote : bool) (n : raft_node) : raft_node :=
  n <| _flags ::= fun f => if vote then Z.lor f RAFT_NODE_VOTED_FOR_ME else Z.ldiff f RAFT_NODE_VOTED_FOR_ME |>.

Definition raft_node_has_vote_for_me (n : raft_node) : bool := truthy (Z.land (_flags n) RAFT_NODE_VOTED_FOR_ME).

(** The log begins at 1. *)
Definition raft_node_set_next_idx (next_idx : Z) (n : raft_node) : raft_node :=
  n <| node_next_idx := if next_idx <? 1 then 1 else next_idx |>.

Definition raft_node_set_lease (lease_ : Z) (n : raft_node) : raft_node :=
  if _lease n <? lease_ then n <| _lease := lease_ |> else n.

Definition raft_node_get_id (n : raft_node) : Z := Codec.node_id (_info n).

(** ** The key-value store *)

Record kv_table := {
  kv_term : option Z;
  kv_vote_for : option Z;
  kv_node_cfg : option (list Codec.node_configuration);
  kv_lapply_idx : option Z;
}.

#[export] Instance eta_kv_table : Eta kv_table := fun t =>
  {| kv_term := kv_term t; kv_vote_for := kv_vote_for t; kv_node_cfg := kv_node_cfg t; kv_lapply_idx := kv_lapply_idx t |}.

Inductive kv_op := PutTerm (term : Z) | PutVoteFor (id : Z) | PutNodeCfg (l : list Codec.node_configuration) | PutLapplyIdx (idx : Z).

Definition apply_op (t : kv_table) (o : kv_op) : kv_table :=
  match o with
  | PutTerm x => t <| kv_term := Some x |>
  | PutVoteFor x => t <| kv_vote_for := Some x |>
  | PutNodeCfg x => t <| kv_node_cfg := Some x |>
  | PutLapplyIdx x => t <| kv_lapply_idx := Some x |>
  end.

Record kvs := { kv_tab : kv_table; kv_log : list kv_op }.

#[export] Instance eta_kvs : Eta kvs := fun k => {| kv_tab := kv_tab k; kv_log := kv_log k |}.

Definition kv_put (o : kv_op) (k : kvs) : kvs := k <| kv_log ::= fun l => l ++ [o] |>.
Definition kv_commit (k : kvs) : kvs := {| kv_tab := foldl apply_op (kv_tab k) (kv_log k); kv_log := [] |}.
Definition empty_kvs : kvs :=
  {| kv_tab := {| kv_term := None; kv_vote_for := None; kv_node_cfg := None; kv_lapply_idx := None |}; kv_log := [] |}.

(** ** The server *)

(** [catch_up_node]: whether it has caught up, and the peer. *)
Record node_configuration_manager := {
  _configurations : list Codec.node_configuration;
  _state : cfg_state;
  _cfg_entry : ptr raft_entry_t;
  _cfg_complete : ptr context;
  _catch_up_nodes : list (Z * (bool * nat));
  _configuration_index : Z;
  _old_node_match_size : Z;
  _old_node_fail_size : Z;
  _new_node_match_size : Z;
  _new_node_fail_size : Z;
}.

#[export] Instance eta_cfg_manager : Eta node_configuration_manager := fun m =>
  {| _configurations := _configurations m; _state := _state m; _cfg_entry := _cfg_entry m; _cfg_complete := _cfg_complete m;
     _catch_up_nodes := _catch_up_nodes m; _configuration_index := _configuration_index m;
     _old_node_match_size := _old_node_match_size m; _old_node_fail_size := _old_node_fail_size m;
     _new_node_match_size := _new_node_match_size m; _new_node_fail_size := _new_node_fail_size m |}.

Definition new_cfg_manager : node_configuration_manager :=
  {| _configurations := []; _state := CFG_NONE; _cfg_entry := NULL; _cfg_complete := NULL; _catch_up_nodes := [];
     _configuration_index := 0; _old_node_match_size := 0; _old_node_fail_size := 0; _new_node_match_size := 0;
     _new_node_fail_size := 0 |}.

(** [_responses] are the responses of requests that are being handled, [_heap] the
    peers that [_nodes], [_new_nodes] and [_catch_up_nodes] refer to, [_out] the
    actions so far.  [_last_applied_idx] belongs to the state machine. *)
Record raft_server_t (B : Type) := {
  _current_term : Z;
  _voted_for : Z;
  _log : raft_log context B;
  _commit_idx : Z;
  _identity : raft_identity;
  _prevote : Z;
  _start_time : Z;
  _election_timer : Z;
  _election_timeout : Z;
  _election_timeout_rand : Z;
  _heartbeat_timeout : Z;
  _leader_id : Z;
  _node_id : Z;
  _snapshot_in_progress : bool;
  _lease_maintenance_grace : Z;
  _first_start : bool;
  _last_applied_idx : Z;
  _first_idx : Z;
  _current_idx : Z;
  _buffer : list (msg_appendentries_t * Z);
  _in_progress : bool;
  _kv : kvs;
  _op_state : raft_op_state;
  _last_index_before_become_leader : Z;
  _heap : list raft_node;
  _nodes : list (Z * nat);
  _new_nodes : list (Z * nat);
  _configuration_manager : node_configuration_manager;
  _tasks : list Z;
  _responses : list (Z * msg_appendentries_response_t);
  _disk_io_num : Z;
  _merger_nums : list Z;
  _out : list action;
}.
Arguments _current_term {B}. Arguments _voted_for {B}. Arguments _log {B}. Arguments _commit_idx {B}.
Arguments _identity {B}. Arguments _prevote {B}. Arguments _start_time {B}. Arguments _election_timer {B}.
Arguments _election_timeout {B}. Arguments _election_timeout_rand {B}. Arguments _heartbeat_timeout {B}.
Arguments _leader_id {B}. Arguments _node_id {B}. Arguments _snapshot_in_progress {B}.
Arguments _lease_maintenance_grace {B}. Arguments _first_start {B}. Arguments _last_applied_idx {B}.
Arguments _first_idx {B}. Arguments _current_idx {B}. Arguments _buffer {B}. Arguments _in_progress {B}.
Arguments _kv {B}. Arguments _op_state {B}. Arguments _last_index_before_become_leader {B}. Arguments _heap {B}.
Arguments _nodes {B}. Arguments _new_nodes {B}. Arguments _configuration_manager {B}. Arguments _tasks {B}.
Arguments _responses {B}. Arguments _disk_io_num {B}. Arguments _merger_nums {B}. Arguments _out {B}.

#[export] Instance eta_raft_server B : Eta (raft_server_t B) := fun s =>
  {| _current_term := _current_term s; _voted_for := _voted_for s; _log := _log s; _commit_idx := _commit_idx s;
     _identity := _identity s; _prevote := _prevote s; _start_time := _start_time s; _election_timer := _election_timer s;
     _election_timeout := _election_timeout s; _election_timeout_rand := _election_timeout_rand s;
     _heartbeat_timeout := _heartbeat_timeout s; _leader_id := _leader_id s; _node_id := _node_id s;
     _snapshot_in_progress := _snapshot_in_progress s; _lease_maintenance_grace := _lease_maintenance_grace s;
     _first_start := _first_start s; _last_applied_idx := _last_applied_idx s; _first_idx := _first_idx s;
     _current_idx := _current_idx s; _buffer := _buffer s; _in_progress := _in_progress s; _kv := _kv s;
     _op_state := _op_state s; _last_index_before_become_leader := _last_index_before_become_leader s; _heap := _heap s;
     _nodes := _nodes s; _new_nodes := _new_nodes s; _configuration_manager := _configuration_manager s;
     _tasks := _tasks s; _responses := _responses s; _disk_io_num := _disk_io_num s; _merger_nums := _merger_nums s;
     _out := _out s |}.

(** ** Handlers *)

Definition M (B A : Type) : Type := raft_server_t B -> option (A * raft_server_t B).

#[export] Instance M_ret B : MRet (M B) := fun A x s => Some (x, s).
#[export] Instance M_bind B : MBind (M B) := fun A A' f m s =>
  match m s with Some (x, s) => f x s | None => None end.

(** What a handler finds around it: the time, a random number, which servers it is
    connected to, the pages that the buffer pools hand out, and how much of the log
    is read at a time when it is loaded. *)
Record env := {
  now : Z;
  rand : Z;
  connected : Z -> bool;
  stale : Codec.log_entry_t -> list Z;
  make_buffer_list : Z -> list Z;
}.

Section handlers.
Context `{RollingBlob.BlobIo B} `{ConfigCodec} (E : env).

Abbreviation server := (raft_server_t B).
Abbreviation M := (M B).

Definition fail {A} : M A := fun _ => None.
Definition this : M server := fun s => Some (s, s).
Definition gets {A} (f : server -> A) : M A := fun s => Some (f s, s).
Definition modify (f : server -> server) : M unit := fun s => Some (tt, f s).
Definition assert (b : bool) : M unit := if b then mret tt else fail.
Definition when (b : bool) (m : M unit) : M unit := if b then m else mret tt.
Definition tell (a : action) : M unit := modify (fun s => s <| _out ::= fun l => l ++ [a] |>).
Definition mfor {A} (l : list A) (f : A -> M unit) : M unit := foldr (fun x k => f x ;; k) (mret tt) l.

(** *** Peers *)

Definition no_node : raft_node := new_raft_node {| Codec.node_id := - 1; Codec.addr := []; Codec.port := 0 |}.

Definition node (r : nat) : M raft_node := gets (fun s => nth r (_heap s) no_node).
Definition set_node (r : nat) (f : raft_node -> raft_node) : M unit := modify (fun s => s <| _heap ::= alter f r |>).

Definition lookup_node (id : Z) (l : list (Z * nat)) : ptr nat := snd <$> List.find (fun x => fst x =? id) l.

Definition for_all_node (f : nat -> M unit) : M unit :=
  nodes ← gets _nodes; new_nodes ← gets _new_nodes; mfor nodes.*2 f ;; mfor new_nodes.*2 f.

Definition for_new_nodes (f : nat -> M unit) : M unit := new_nodes ← gets _new_nodes; mfor new_nodes.*2 f.

Definition get_node_ids : M (list Z) := gets (fun s => (_nodes s).*1).
Definition get_new_node_ids : M (list Z) := gets (fun s => (_new_nodes s).*1).

Definition raft_get_node (id : Z) : M (ptr nat) :=
  gets (fun s => match lookup_node id (_nodes s) with
                 | Some r => Some r
                 | NULL => lookup_node id (_new_nodes s)
                 end).

Definition raft_get_my_node : M (ptr nat) := id ← gets _node_id; raft_get_node id.

Definition raft_is_self (r : nat) : M bool :=
  n ← node r; id ← gets _node_id; mret (raft_node_get_id n =? id).

Definition raft_is_leader (s : server) : bool := bool_decide (_identity s = RAFT_STATE_LEADER).
Definition raft_is_candidate (s : server) : bool := bool_decide (_identity s = RAFT_STATE_CANDIDATE).

Definition cfg (s : server) : node_configuration_manager := _configuration_manager s.
Definition set_cfg (f : node_configuration_manager -> node_configuration_manager) : M unit :=
  modify (fun s => s <| _configuration_manager ::= f |>).

Definition get_catch_up_node (id : Z) (s : server) : ptr nat :=
  (fun x => snd (snd x)) <$> List.find (fun x => fst x =? id) (_catch_up_nodes (cfg s)).

Definition raft_get_cfg_node (id : Z) : M (ptr nat) :=
  gets (fun s =>
    match lookup_node id (_nodes s) with
    | Some r => Some r
    | NULL =>
        match _state (cfg s) with
        | CFG_CATCHING_UP | CFG_JOINT | CFG_UPDATE_NEW_CFG => get_catch_up_node id s
        | _ => lookup_node id (_new_nodes s)
        end
    end).

(** A new peer on the heap. *)
Definition make_node (info : Codec.raft_node_info) : M nat :=
  fun s => Some (List.length (_heap s), s <| _heap ::= fun h => h ++ [new_raft_node info] |>).

(** [emplace] keeps a peer that is there. *)
Definition emplace {A} (id : Z) (x : A) (l : list (Z * A)) : list (Z * A) :=
  if existsb (fun y => fst y =? id) l then l else l ++ [(id, x)].

(** [get_raft_node] of [update_with_node_configuration]. *)
Definition find_or_make_node (nodes : list (Z * nat)) (new_add_nodes : list nat) (info : Codec.raft_node_info) : M nat :=
  match lookup_node (Codec.node_id info) nodes with
  | Some r => mret r
  | NULL =>
      heap ← gets _heap;
      match List.find (fun r => raft_node_get_id (nth r heap no_node) =? Codec.node_id info) new_add_nodes with
      | Some r => mret r
      | None => make_node info
      end
  end.

Definition update_with_node_configuration (c : Codec.node_configuration) (new_add_nodes : list nat) : M unit :=
  nodes ← gets _nodes;
  modify (fun s => s <| _nodes := [] |> <| _new_nodes := [] |>) ;;
  mfor (Codec._nodes c) (fun info =>
    r ← find_or_make_node nodes new_add_nodes info;
    modify (fun s => s <| _nodes ::= emplace (Codec.node_id info) r |>)) ;;
  mfor (Codec._new_nodes c) (fun info =>
    r ← find_or_make_node nodes new_add_nodes info;
    modify (fun s => s <| _new_nodes ::= emplace (Codec.node_id info) r |>)).

(** *** Saving *)

Definition save (o : kv_op) : M unit := modify (fun s => s <| _kv ::= kv_put o |>).

Definition raft_set_current_term (term : Z) : M Z :=
  t ← gets _current_term;
  when (t <? term) (save (PutTerm term) ;; modify (fun s => s <| _current_term := term |> <| _voted_for := - 1 |>)) ;;
  mret 0.

Definition raft_vote_for_nodeid (id : Z) : M Z :=
  save (PutVoteFor id) ;; modify (fun s => s <| _voted_for := id |>) ;; mret 0.

Definition raft_set_commit_idx (idx : Z) : M unit :=
  s ← this;
  assert (_commit_idx s <=? idx) ;; assert (idx <=? _current_idx s) ;;
  modify (fun s => s <| _commit_idx := idx |>).

Definition raft_set_identity (i : raft_identity) : M unit :=
  modify (fun s => (if decide (i = RAFT_STATE_LEADER) then s <| _leader_id := _node_id s |> else s) <| _identity := i |>).

Definition raft_set_current_leader (id : Z) : M unit := modify (fun s => s <| _leader_id := id |>).

Definition raft_randomize_election_timeout : M unit :=
  modify (fun s => s <| _election_timeout_rand := _election_timeout s + Z.rem (rand E) (_election_timeout s) |>).

Definition raft_set_election_timer : M unit := modify (fun s => s <| _election_timer := now E |>).

(** *** The log *)

Definition raft_get_entry_term (idx : Z) (s : server) : option Z :=
  match get idx (_entries (_log s)) with
  | Some e => Some (e_term e)
  | NULL => disk_get_term idx (_log s)
  end.

(** Completing a context: the buffer of requests goes on before it passes the result
    on. *)
Definition complete_ctx (c : context) (result : Z) : M unit :=
  match c with
  | Client n => tell (Complete n result)
  | FlushComplete n => modify (fun s => s <| _in_progress := false |>) ;; tell (Complete n result)
  end.

Definition complete_ptr (c : ptr context) (result : Z) : M unit :=
  match c with Some c => complete_ctx c result | NULL => mret tt end.

Definition on_log {A} (f : raft_log context B -> A * raft_log context B) : M A :=
  fun s => let '(x, l) := f (_log s) in Some (x, s <| _log := l |>).

Definition raft_write_entry_finish (start_idx end_idx result : Z) : M unit :=
  cs ← on_log (fun l => let '(cs, es) := complete_entry_between start_idx end_idx (_entries l) in
                        (cs, l <| _entries := es |>));
  mfor cs (fun c => complete_ctx c result).

Definition raft_disk_append_entries (start_idx end_idx : Z) (c : disk_ctx) : M unit :=
  r ← on_log (disk_append (stale E) start_idx end_idx);
  match r with Some r => tell (DiskDone c r) | None => mret tt end.

(** The buffer of [serialize], 1 MiB, is large enough. *)
Definition save_node_configuration : M unit :=
  l ← gets (fun s => _configurations (cfg s)); save (PutNodeCfg l).

Definition add_node_configuration (c : Codec.node_configuration) : M unit :=
  set_cfg (fun m => m <| _configurations ::= fun l => l ++ [c] |>) ;; save_node_configuration.

Definition get_last_node_configuration : M Codec.node_configuration :=
  l ← gets (fun s => _configurations (cfg s));
  match last l with Some c => mret c | None => fail end.

(** Configurations are popped off the end; one has to be left if any was. *)
Fixpoint pop_from (index : Z) (l : list Codec.node_configuration) : list Codec.node_configuration :=
  match l with
  | [] => []
  | c :: l' =>
      match pop_from index l' with
      | [] => if index <=? Codec._index c then [] else [c]
      | l' => c :: l'
      end
  end.

Definition truncate_by_idx (index : Z) : M unit :=
  l ← gets (fun s => _configurations (cfg s));
  let l' := pop_from index l in
  set_cfg (fun m => m <| _configurations := l' |>) ;;
  when (negb (List.length l' =? List.length l)%nat)
    (c ← get_last_node_configuration; save_node_configuration ;; update_with_node_configuration c []).

Definition raft_log_truncate (idx : Z) (c : disk_ctx) : M unit :=
  commit ← gets _commit_idx;
  assert (commit <? idx) ;;
  cs ← on_log (log_truncate_cache idx);
  mfor cs (fun c => complete_ctx c 0) ;;
  truncate_by_idx idx ;;
  r ← on_log (log_truncate_disk idx);
  match r with Some r => tell (DiskDone c r) | None => mret tt end.

(** *** Sending *)

(** [_client.send_...]: whether there is a connection. *)
Definition send (to : Z) (a : action) : M Z :=
  if connected E to then tell a ;; mret E_SUCCESS else mret RAFT_ERR_NO_CONNECTED.

Definition raft_send_requestvote (r : nat) : M Z :=
  self ← raft_is_self r;
  assert (negb self) ;;
  n ← node r;
  s ← this;
  let got := raft_get_entry_term (_current_idx s) s in
  assert (bool_decide (got <> None) || (_current_idx s =? 0)) ;;
  _ ← send (raft_node_get_id n) (SendVote (raft_node_get_id n)
    {| rv_node_id := _node_id s; rv_term := _current_term s; rv_candidate_id := _node_id s;
       rv_last_log_idx := _current_idx s; rv_last_log_term := default 0 got; rv_prevote := _prevote s |});
  mret 0.

Definition create_appendentries (r : nat) (next_idx : Z) : M msg_appendentries_t :=
  self ← raft_is_self r;
  assert (negb self) ;;
  set_node r (fun n => n <| _suppress_heartbeats := true |>) ;;
  s ← this;
  let got := raft_get_entry_term (next_idx - 1) s in
  assert (bool_decide (got <> None) || (next_idx - 1 =? 0)) ;;
  set_node r (fun n => n <| _append_time := now E |>) ;;
  raft_set_election_timer ;;
  mret {| ae_node_id := _node_id s; ae_term := _current_term s; prev_log_idx := next_idx - 1;
          prev_log_term := default 0 got; leader_commit := _commit_idx s; entries := [] |}.

(** Sending it, and what every caller does when there is no connection. *)
Definition send_appendentries (r : nat) (ae : msg_appendentries_t) : M unit :=
  n ← node r;
  e ← send (raft_node_get_id n) (SendAppendentries (raft_node_get_id n) ae);
  when (negb (e =? E_SUCCESS)) (set_node r (fun n => n <| _suppress_heartbeats := false |>)).

Definition raft_send_appendentries (r : nat) (start_index end_index : Z) : M Z :=
  ae ← create_appendentries r start_index;
  es ← gets (fun s => get_num start_index (s32 (end_index - start_index + 1)) (_entries (_log s)));
  send_appendentries r (ae <| entries := es |>) ;; mret 0.

Definition raft_send_heartbeat (r : nat) : M Z :=
  self ← raft_is_self r;
  assert (negb self) ;;
  n ← node r;
  s ← this;
  let prev := node_next_idx n - 1 in
  let got := raft_get_entry_term prev s in
  assert (bool_decide (got <> None) || (prev =? 0)) ;;
  _ ← send (raft_node_get_id n) (SendAppendentries (raft_node_get_id n)
    {| ae_node_id := _node_id s; ae_term := _current_term s; prev_log_idx := prev; prev_log_term := default 0 got;
       leader_commit := _commit_idx s; entries := [] |});
  mret 0.

Definition raft_send_heartbeat_all : M Z :=
  raft_set_election_timer ;;
  for_all_node (fun r =>
    self ← raft_is_self r;
    n ← node r;
    when (negb self && negb (_suppress_heartbeats n)) (_ ← raft_send_heartbeat r; mret tt)) ;;
  mret 0.

(** The part of [shard_manager::get_heartbeat_requests] that one server has. *)
Definition get_heartbeat_requests : M unit :=
  leader ← gets raft_is_leader;
  when leader (for_all_node (fun r =>
    self ← raft_is_self r;
    n ← node r;
    timeout ← gets _heartbeat_timeout;
    when (negb self && negb (_suppress_heartbeats n) && negb (now E <? _append_time n + timeout))
      (set_node r (fun n => n <| _append_time := now E |>) ;;
       raft_set_election_timer ;;
       s ← this;
       let prev := node_next_idx n - 1 in
       let got := raft_get_entry_term prev s in
       when (bool_decide (got <> None) || (prev =? 0))
         (_ ← send (raft_node_get_id n) (SendHeartbeat (raft_node_get_id n)
            {| ae_node_id := _node_id s; ae_term := _current_term s; prev_log_idx := prev;
               prev_log_term := default 0 got; leader_commit := _commit_idx s; entries := [] |});
          mret tt)))).

Definition raft_send_timeout_now (to : Z) : M Z :=
  term ← gets _current_term; send to (SendTimeoutNow to term).

(** *** Elections *)

Definition raft_become_follower : M unit :=
  raft_set_identity RAFT_STATE_FOLLOWER ;; raft_randomize_election_timeout ;; raft_set_election_timer.

Definition _send_leader_be_elected_notify : M unit :=
  ids ← get_node_ids; new_ids ← get_new_node_ids; leader ← gets _leader_id; tell (NotifyLeader leader ids new_ids).

Definition raft_become_leader : M unit :=
  raft_set_identity RAFT_STATE_LEADER ;;
  raft_set_election_timer ;;
  idx ← gets _current_idx;
  modify (fun s => s <| _last_index_before_become_leader := idx |>) ;;
  raft_set_commit_idx idx ;;
  for_all_node (fun r =>
    set_node r (fun n => n <| _match_idx := 0 |>) ;;
    self ← raft_is_self r;
    when (negb self)
      (set_node r (raft_node_set_next_idx (idx + 1)) ;;
       set_node r (fun n => n <| _effective_time := now E |>) ;;
       _ ← raft_send_appendentries r (idx + 1) (idx + 1);
       mret tt)) ;;
  _send_leader_be_elected_notify.

Definition count_voters (l : list (Z * nat)) (s : server) : Z :=
  count_if (fun x => raft_node_has_vote_for_me (nth (snd x) (_heap s) no_node)) l.

Definition raft_get_nvotes_for_me (s : server) : Z * Z := (count_voters (_nodes s) s, count_voters (_new_nodes s) s).

Definition raft_get_num_voting_nodes (s : server) : Z * Z :=
  (Z.of_nat (List.length (_nodes s)), Z.of_nat (List.length (_new_nodes s))).

Definition raft_votes_is_majority (node_num_pair nvotes_pair : Z * Z) : bool :=
  let '(node_num, new_node_num) := node_num_pair in
  let '(node_votes, new_node_votes) := nvotes_pair in
  if (node_num <? node_votes) || (new_node_num <? new_node_votes) then false
  else (node_num / 2 + 1 <=? node_votes) && ((new_node_num =? 0) || (new_node_num / 2 + 1 <=? new_node_votes)).

(** [set_vote_for_me] and [send_vote] of the two kinds of candidates. *)
Definition vote_for_self : M unit :=
  for_all_node (fun r => self ← raft_is_self r; set_node r (raft_node_vote_for_me self)).

Definition request_votes : M unit :=
  for_all_node (fun r => self ← raft_is_self r; when (negb self) (_ ← raft_send_requestvote r; mret tt)).

(** [count] is [raft_count_votes]. *)
Definition become_prevoted_candidate (count : M Z) : M Z :=
  t ← gets _current_term;
  e ← raft_set_current_term (t + 1);
  if negb (e =? 0) then mret e
  else
    vote_for_self ;;
    id ← gets _node_id;
    e ← raft_vote_for_nodeid id;
    if negb (e =? 0) then mret e
    else
      modify (fun s => s <| _prevote := 0 |>) ;;
      request_votes ;;
      count.

(** A majority of prevotes begins the election proper, which may be won at once: two
    turns. *)
Fixpoint count_votes (turns : nat) : M Z :=
  match turns with
  | O => fail
  | S turns =>
      s ← this;
      if raft_votes_is_majority (raft_get_num_voting_nodes s) (raft_get_nvotes_for_me s) then
        if truthy (_prevote s) then
          e ← become_prevoted_candidate (count_votes turns);
          mret e
        else raft_become_leader ;; mret 0
      else mret 0
  end.

Definition raft_count_votes : M Z := count_votes 2.

Definition raft_become_candidate : M Z :=
  raft_set_identity RAFT_STATE_CANDIDATE ;;
  modify (fun s => s <| _prevote := 1 |>) ;;
  vote_for_self ;;
  raft_set_current_leader (- 1) ;;
  raft_randomize_election_timeout ;;
  raft_set_election_timer ;;
  request_votes ;;
  raft_count_votes.

Definition raft_election_start : M Z := raft_become_candidate.

Definition _has_lease (r : nat) (with_grace : bool) : M bool :=
  self ← raft_is_self r;
  n ← node r;
  s ← this;
  mret (if self : bool then true
        else if with_grace then
          (now E <? _lease n + _lease_maintenance_grace s)
          || (now E - _effective_time n <? _election_timeout s + _lease_maintenance_grace s)
        else now E <? _lease n).

(** How many of the peers have a lease. *)
Fixpoint count_leases (l : list nat) (with_grace : bool) : M Z :=
  match l with
  | [] => mret 0
  | r :: l => b ← _has_lease r with_grace; k ← count_leases l with_grace; mret (if b : bool then k + 1 else k)
  end.

Definition _has_majority_leases (with_grace : bool) : M bool :=
  leader ← gets raft_is_leader;
  assert leader ;;
  nodes ← gets _nodes; new_nodes ← gets _new_nodes;
  n ← count_leases nodes.*2 with_grace;
  new_n ← count_leases new_nodes.*2 with_grace;
  let n_voting := Z.of_nat (List.length nodes) in
  let new_n_voting := Z.of_nat (List.length new_nodes) in
  mret ((n_voting / 2 + 1 <=? n) && ((new_n_voting =? 0) || (new_n_voting / 2 + 1 <=? new_n))).

Definition raft_has_majority_leases : M bool :=
  leader ← gets raft_is_leader;
  if leader : bool then _has_majority_leases false else mret false.

(** The tasks are checks of snapshots. *)
Definition task_loop : M unit :=
  tasks ← gets _tasks; modify (fun s => s <| _tasks := [] |>) ;; mfor tasks (fun id => tell (SnapCheck id)).

Definition raft_periodic : M Z :=
  s ← this;
  if decide (_op_state s = RAFT_INIT) then mret 0
  else
    my_node ← raft_get_my_node;
    e ← (if raft_is_leader s then
           ok ← _has_majority_leases true;
           when (negb ok) (raft_become_follower ;; raft_set_current_leader (- 1)) ;; mret 0
         else if (_election_timeout_rand s <=? now E - _election_timer s) && negb (_snapshot_in_progress s)
                 && bool_decide (my_node <> NULL) then raft_election_start
         else mret 0);
    if negb (e =? 0) then mret e else task_loop ;; mret 0.

(** *** Votes *)

Definition _should_grant_vote (vr : msg_requestvote_t) : M bool :=
  s ← this;
  if rv_term vr <? _current_term s then mret false
  else if negb (truthy (rv_prevote vr)) && negb (_voted_for s =? - 1) && negb (_voted_for s =? rv_candidate_id vr)
  then mret false
  else
    let got := raft_get_entry_term (_current_idx s) s in
    let term := default 0 got in
    assert (bool_decide (got <> None) || (_current_idx s =? 0)) ;;
    mret ((term <? rv_last_log_term vr)
          || ((rv_last_log_term vr =? term) && (_current_idx s <=? rv_last_log_idx vr))).

Definition raft_recv_requestvote (node_id : Z) (vr : msg_requestvote_t) : M (Z * msg_requestvote_response_t) :=
  node1 ← raft_get_node node_id;
  node2 ← raft_get_node (rv_candidate_id vr);
  let node := match node1 with Some r => Some r | NULL => node2 end in
  let done (e granted : Z) : M (Z * msg_requestvote_response_t) :=
    s ← this;
    mret (e, {| vr_node_id := _node_id s; vr_term := _current_term s; vote_granted := granted;
                vr_prevote := rv_prevote vr |}) in
  term ← gets _current_term;
  e ← (if term <? rv_term vr then
         e ← raft_set_current_term (rv_term vr);
         when (e =? 0) (raft_become_follower ;; raft_set_current_leader (- 1)) ;; mret e
       else mret 0);
  if negb (e =? 0) then done e 0
  else
    s ← this;
    if raft_is_leader s
       || (negb (_leader_id s =? - 1) && negb (_leader_id s =? rv_candidate_id vr)
           && (now E - _election_timer s <? _election_timeout s))
       || (negb (_first_start s) && (now E - _start_time s <? _election_timeout s))
    then done 0 0
    else
      grant ← _should_grant_vote vr;
      if grant : bool then
        s ← this;
        assert (negb (raft_is_leader s)
                && (negb (raft_is_candidate s) || truthy (_prevote s) || truthy (rv_prevote vr))) ;;
        if truthy (rv_prevote vr) then done 0 1
        else
          e ← raft_vote_for_nodeid (rv_candidate_id vr);
          raft_set_current_leader (- 1) ;;
          raft_set_election_timer ;;
          done e (if e =? 0 then 1 else 0)
      else if bool_decide (node = NULL) then done 0 RAFT_REQUESTVOTE_ERR_UNKNOWN_NODE
      else done 0 0.

Definition raft_process_requestvote_reply (r : msg_requestvote_response_t) : M Z :=
  node ← raft_get_cfg_node (vr_node_id r);
  s ← this;
  if negb (raft_is_candidate s) || negb (_prevote s =? vr_prevote r) then mret 0
  else if _current_term s <? vr_term r then
    e ← raft_set_current_term (vr_term r);
    if negb (e =? 0) then mret e
    else raft_become_follower ;; raft_set_current_leader (- 1) ;; mret 0
  else if negb (_current_term s =? vr_term r) then mret 0
  else if vote_granted r =? RAFT_REQUESTVOTE_ERR_GRANTED then
    match node with
    | Some x => set_node x (raft_node_vote_for_me true)
    | NULL => mret tt
    end ;;
    raft_count_votes
  else if (vote_granted r =? RAFT_REQUESTVOTE_ERR_NOT_GRANTED) || (vote_granted r =? RAFT_REQUESTVOTE_ERR_UNKNOWN_NODE)
  then mret 0
  else fail.

(** The services that call them. *)
Definition serve_vote (vr : msg_requestvote_t) : M msg_requestvote_response_t :=
  s ← this;
  if negb (raft_state_to_errno (_op_state s) =? E_SUCCESS) then
    mret {| vr_node_id := _node_id s; vr_term := 0; vote_granted := RAFT_REQUESTVOTE_ERR_NOT_GRANTED;
            vr_prevote := rv_prevote vr |}
  else r ← raft_recv_requestvote (rv_node_id vr) vr; mret (snd r).

Definition serve_timeout_now : M Z :=
  s ← this;
  let err_num := raft_state_to_errno (_op_state s) in
  if negb (err_num =? E_SUCCESS) then mret err_num
  else
    _ ← raft_set_current_term (_current_term s + 1);
    _ ← raft_election_start;
    mret err_num.

(** *** Configurations of followers *)

Definition check_and_set_configuration (e : raft_entry_t) : M unit :=
  when (e_type e =? RAFT_LOGTYPE_CONFIGURATION)
    (let config := ParseFromString (e_meta e) in
     add_node_configuration
       (if bool_decide (old_nodes config <> []) then
          {| Codec._index := e_idx e; Codec._term := e_term e; Codec._nodes := old_nodes config;
             Codec._new_nodes := new_nodes config |}
        else
          {| Codec._index := e_idx e; Codec._term := e_term e; Codec._nodes := new_nodes config;
             Codec._new_nodes := [] |}) ;;
     c ← get_last_node_configuration;
     update_with_node_configuration c []).

(** *** Appending to the log of a follower *)

Definition rsp (n : Z) : M msg_appendentries_response_t :=
  gets (fun s => match List.find (fun x => fst x =? n) (_responses s) with Some x => snd x | None => empty_response end).

Definition set_rsp (n : Z) (f : msg_appendentries_response_t -> msg_appendentries_response_t) : M unit :=
  r ← rsp n;
  modify (fun s => s <| _responses ::= fun l => (n, f r) :: List.filter (fun x => negb (fst x =? n)) l |>).

Definition hand_error (ae : msg_appendentries_t) (n err_num : Z) : M Z :=
  s ← this;
  set_rsp n (fun r => r <| ar_term := _current_term s |>) ;;
  r ← rsp n;
  when (negb (success r =? 1)) (set_rsp n (fun r => r <| ar_current_idx := _current_idx s |>)) ;;
  set_rsp n (fun r => r <| first_idx := prev_log_idx ae + 1 |>) ;;
  complete_ctx (FlushComplete n) err_num ;;
  mret err_num.

(** [log_append] with the contexts that [append_entry_func] gives the entries: the
    last one has that of the request. *)
Fixpoint append_entries (es : list raft_entry_t) (n : Z) : M unit :=
  match es with
  | [] => mret tt
  | e :: es' =>
      e ← on_log (log_append_one e (if bool_decide (es' = []) then Some (FlushComplete n) else NULL));
      check_and_set_configuration e ;;
      append_entries es' n
  end.

Definition append_entry_func (ae : msg_appendentries_t) (n i : Z) : M unit :=
  let es := drop (Z.to_nat i) (entries ae) in
  let entries_num := Z.of_nat (List.length (entries ae)) in
  mfor es check_and_set_configuration ;;
  let start_idx := prev_log_idx ae + 1 + i in
  let end_idx := start_idx + (entries_num - i) - 1 in
  append_entries es n ;;
  set_rsp n (fun r => r <| ar_current_idx := prev_log_idx ae + entries_num |>) ;;
  s ← this;
  r ← rsp n;
  let new_commit_idx := if _commit_idx s <? leader_commit ae then Z.min (leader_commit ae) (ar_current_idx r) else 0 in
  set_rsp n (fun r => r <| ar_term := _current_term s |> <| first_idx := prev_log_idx ae + 1 |>) ;;
  if end_idx <? start_idx then
    when ((_commit_idx s <? leader_commit ae) && (_commit_idx s <? new_commit_idx)) (raft_set_commit_idx new_commit_idx) ;;
    complete_ctx (FlushComplete n) 0
  else
    modify (fun s => s <| _current_idx := end_idx |>) ;;
    raft_disk_append_entries start_idx end_idx (follow_disk_append_complete start_idx end_idx new_commit_idx n).

(** The entries that the log has are passed over, from number [i] on. *)
Fixpoint match_entries (es : list raft_entry_t) (ae : msg_appendentries_t) (n i : Z) : M Z :=
  match es with
  | [] => append_entry_func ae n i ;; mret 0
  | ety :: es =>
      let ety_index := prev_log_idx ae + 1 + i in
      s ← this;
      match raft_get_entry_term ety_index s with
      | Some term =>
          if negb (term =? e_term ety) then
            if ety_index <=? _commit_idx s then
              set_rsp n (fun r => r <| success := RAFT_ERR_SHUTDOWN |>) ;; hand_error ae n RAFT_ERR_SHUTDOWN
            else raft_log_truncate ety_index (truncate_entry_complete ae n i ety_index) ;; mret 0
          else set_rsp n (fun r => r <| ar_current_idx := ety_index |>) ;; match_entries es ae n (i + 1)
      | None =>
          if _current_idx s <? ety_index then append_entry_func ae n i ;; mret 0
          else set_rsp n (fun r => r <| ar_current_idx := ety_index |>) ;; match_entries es ae n (i + 1)
      end
  end.

Definition raft_recv_appendentries (node_id : Z) (ae : msg_appendentries_t) (n : Z) : M Z :=
  id_ ← gets _node_id;
  set_rsp n (fun r => r <| ar_node_id := id_ |> <| success := 0 |>) ;;
  s ← this;
  e ← (if raft_is_candidate s && (_current_term s =? ae_term ae) then raft_become_follower ;; mret (Some 0)
       else if _current_term s <? ae_term ae then
         e ← raft_set_current_term (ae_term ae);
         if negb (e =? 0) then e ← hand_error ae n e; mret None
         else raft_become_follower ;; mret (Some 0)
       else if ae_term ae <? _current_term s then e ← hand_error ae n E_INVAL; mret None
       else mret (Some 0));
  match e with
  | None => mret E_INVAL
  | Some _ =>
      raft_set_current_leader node_id ;;
      raft_set_election_timer ;;
      set_rsp n (fun r => r <| lease := now E + _election_timeout s |>) ;;
      s ← this;
      let accept :=
        set_rsp n (fun r => r <| success := 1 |> <| ar_current_idx := prev_log_idx ae |>) ;;
        match_entries (entries ae) ae n 0 in
      if 0 <? prev_log_idx ae then
        match raft_get_entry_term (prev_log_idx ae) s with
        | None => if _current_idx s <? prev_log_idx ae then hand_error ae n E_INVAL else accept
        | Some term =>
            if negb (term =? prev_log_term ae) then
              if prev_log_idx ae <=? _commit_idx s then
                set_rsp n (fun r => r <| success := RAFT_ERR_SHUTDOWN |>) ;; hand_error ae n RAFT_ERR_SHUTDOWN
              else raft_log_truncate (prev_log_idx ae) (truncate_prev_complete ae n) ;; mret RAFT_ERR_LOG_NOT_MATCH
            else accept
        end
      else accept
  end.

(** [append_entries_buffer]: requests are handled one by one. *)
Definition enqueue (ae : msg_appendentries_t) (n : Z) : M unit :=
  modify (fun s => s <| _buffer ::= fun l => l ++ [(ae, n)] |>).

Definition do_flush : M unit :=
  s ← this;
  match _buffer s with
  | (ae, n) :: l =>
      if _in_progress s then mret tt
      else
        modify (fun s => s <| _in_progress := true |> <| _buffer := l |>) ;;
        _ ← raft_recv_appendentries (ae_node_id ae) ae n;
        mret tt
  | [] => mret tt
  end.

Definition stop_buffer : M unit :=
  l ← gets _buffer;
  id_ ← gets _node_id;
  modify (fun s => s <| _buffer := [] |>) ;;
  mfor l (fun x =>
    set_rsp (snd x) (fun r => r <| success := RAFT_ERR_PG_SHUTDOWN |> <| ar_node_id := id_ |>) ;;
    tell (Complete (snd x) RAFT_ERR_PG_SHUTDOWN)).

(** The service: requests and heartbeats are put into the buffer of a server that is
    active. *)
Definition serve_append_entries (ae : msg_appendentries_t) (n : Z) : M unit :=
  s ← this;
  let err_num := raft_state_to_errno (_op_state s) in
  if negb (err_num =? E_SUCCESS) then
    set_rsp n (fun r => r <| ar_node_id := _node_id s |> <| success := err_num |>) ;; tell (Complete n err_num)
  else enqueue ae n.

(** *** Entries of a leader *)

Definition raft_write_entry (ety : raft_entry_t) (complete_ : ptr context) : M Z :=
  let handle_error (e : Z) : M Z := complete_ptr complete_ e ;; mret e in
  s ← this;
  if negb (raft_is_leader s) then handle_error RAFT_ERR_NOT_LEADER
  else
    match _op_state s with
    | RAFT_DOWN => handle_error RAFT_ERR_PG_SHUTDOWN
    | RAFT_DELETE => handle_error RAFT_ERR_PG_DELETED
    | _ =>
        if raft_entry_is_cfg_change ety && _snapshot_in_progress s then handle_error RAFT_ERR_SNAPSHOT_IN_PROGRESS
        else
          on_log (fun l => (tt, log_enqueue (ety <| e_term := _current_term s |>) complete_ false l)) ;;
          mret 0
    end.

Definition remove_entries (start_idx end_idx : Z) : M unit :=
  on_log (fun l => (tt, l <| _entries ::= remove_entry_between start_idx end_idx |>)).

Definition clear_queue (state : Z) : M unit :=
  cs ← on_log clear_entry_queue; mfor cs (fun c => complete_ctx c state).

Definition stop_flush (state : Z) : M unit :=
  s ← this;
  let last_cache_idx := get_last_cache_entry (_entries (_log s)) in
  if last_cache_idx <=? _current_idx s then clear_queue state
  else
    raft_write_entry_finish (_current_idx s + 1) last_cache_idx state ;;
    remove_entries (_current_idx s + 1) last_cache_idx ;;
    clear_queue state.

Definition stop_processing_entrys (state : Z) : M unit :=
  s ← this;
  raft_write_entry_finish (_first_idx s) (_current_idx s) state ;;
  remove_entries (_first_idx s) (_current_idx s).

Definition _static_merger_info (merger_num : Z) : M unit :=
  let bump (i : nat) : M unit := modify (fun s => s <| _merger_nums ::= alter (Z.add 1) i |>) in
  modify (fun s => s <| _disk_io_num ::= Z.add 1 |>) ;;
  when (100 <=? merger_num) (bump 5%nat) ;;
  if 50 <=? merger_num then bump 4%nat
  else if 20 <=? merger_num then bump 3%nat
  else if 10 <=? merger_num then bump 2%nat
  else if 5 <=? merger_num then bump 1%nat
  else when (2 <=? merger_num) (bump 0%nat).

(** *** Commits *)

(** One call of [commit_func]: the votes, whether the leader has the entry. *)
Definition commit_func (index node_id result : Z) (r : nat) (acc : Z * bool) : M (Z * bool) :=
  let '(vote_num, leader_match) := acc in
  my_id ← gets _node_id;
  n ← node r;
  when ((my_id =? node_id) && (raft_node_get_id n =? node_id)) (set_node r (fun n => n <| _match_idx := index |>)) ;;
  n ← node r;
  commit ← gets _commit_idx;
  let vote := (commit <? index)
              && ((index <=? _match_idx n) || (negb (result =? 0) && (raft_node_get_id n =? node_id))) in
  mret (if vote then vote_num + 1 else vote_num,
        leader_match || ((raft_node_get_id n =? my_id) && (index <=? _match_idx n))).

Fixpoint commit_funcs (index node_id result : Z) (l : list nat) (acc : Z * bool) : M (Z * bool) :=
  match l with
  | [] => mret acc
  | r :: l => acc ← commit_func index node_id result r acc; commit_funcs index node_id result l acc
  end.

Definition raft_node_process_commit (result index node_id : Z) : M unit :=
  nodes ← gets _nodes; new_nodes ← gets _new_nodes;
  a ← commit_funcs index node_id result nodes.*2 (0, false);
  b ← commit_funcs index node_id result new_nodes.*2 (0, snd a);
  s ← this;
  let '(node_num, new_node_num) := raft_get_num_voting_nodes s in
  when ((_commit_idx s <? index)
        && (snd b && (node_num / 2 <? fst a) && ((new_node_num =? 0) || (new_node_num / 2 <? fst b))))
    (raft_set_commit_idx index).

(** *** Changing the configuration *)

Definition cfg_change_is_in_progress (s : server) : bool :=
  match _state (cfg s) with
  | CFG_CATCHING_UP | CFG_JOINT | CFG_UPDATE_NEW_CFG => true
  | _ => false
  end.

Definition set_state (st : cfg_state) : M unit := set_cfg (fun m => m <| _state := st |>).

Definition reset_cfg_entry : M unit := set_cfg (fun m => m <| _cfg_entry := NULL |>).

Definition reset_cfg_entry_complete : M unit :=
  set_cfg (fun m => m <| _cfg_entry := NULL |> <| _cfg_complete := NULL |>).

Definition reset_sizes (m : node_configuration_manager) : node_configuration_manager :=
  m <| _configuration_index := 0 |> <| _old_node_match_size := 0 |> <| _old_node_fail_size := 0 |>
    <| _new_node_match_size := 0 |> <| _new_node_fail_size := 0 |>.

Definition updatet_raft_nodes_stat : M unit :=
  rs ← gets (fun s => (fun x => snd (snd x)) <$> _catch_up_nodes (cfg s));
  c ← get_last_node_configuration;
  update_with_node_configuration c rs.

Definition find_in (l : list Codec.raft_node_info) (id : Z) : bool := existsb (fun n => Codec.node_id n =? id) l.

Definition raft_step_down (commit_index : Z) : M unit :=
  raft_set_identity RAFT_STATE_FOLLOWER ;;
  raft_set_current_leader (- 1) ;;
  s ← this;
  let next := List.find (fun x => _match_idx (nth (snd x) (_heap s) no_node) =? commit_index) (_nodes s) in
  _ ← raft_send_timeout_now (match next with
                             | Some (_, r) => raft_node_get_id (nth r (_heap s) no_node)
                             | None => 0
                             end);
  mret tt.

(** The lambdas of [cfg_change_process]. *)
Definition finish_func (result : Z) : M unit :=
  ids ← get_node_ids;
  c ← gets (fun s => _cfg_complete (cfg s));
  tell (NotifyMemberChange result ids c) ;;
  reset_cfg_entry_complete ;;
  set_cfg (fun m => reset_sizes (m <| _catch_up_nodes := [] |> <| _state := CFG_NONE |>)).

Definition get_change_num (e : raft_entry_t) : M Z :=
  let config := ParseFromString (e_meta e) in
  c ← get_last_node_configuration;
  add_size ← gets (fun s => Z.of_nat (List.length (_catch_up_nodes (cfg s))));
  mret (add_size + count_if (fun n => negb (find_in (new_nodes config) (Codec.node_id n))) (Codec._nodes c)).

Definition configuration_entry (c : raft_configuration) : raft_entry_t :=
  {| e_term := 0; e_idx := 0; e_type := RAFT_LOGTYPE_CONFIGURATION; e_meta := SerializeToString c; e_data := [] |}.

Definition process_cfg_change (next_state : cfg_state) (e : raft_entry_t) : M Z :=
  let config := ParseFromString (e_meta e) in
  old ← (if decide (next_state = CFG_JOINT) then c ← get_last_node_configuration; mret (Codec._nodes c) else mret []);
  raft_write_entry (configuration_entry {| new_nodes := new_nodes config; old_nodes := old |}) NULL.

Definition create_cfg_entry : M Z :=
  c ← get_last_node_configuration;
  raft_write_entry (configuration_entry {| new_nodes := Codec._new_nodes c; old_nodes := [] |}) NULL.

Definition not_leader_or_deleted (result : Z) : bool := (result =? RAFT_ERR_NOT_LEADER) || (result =? RAFT_ERR_PG_DELETED).

(** The four counters of an answer from [id]. *)
Definition count_failure (c : Codec.node_configuration) (id : Z) : M unit :=
  when (find_in (Codec._new_nodes c) id) (set_cfg (fun m => m <| _new_node_fail_size ::= Z.add 1 |>)) ;;
  when (find_in (Codec._nodes c) id) (set_cfg (fun m => m <| _old_node_fail_size ::= Z.add 1 |>)).

Definition count_match (c : Codec.node_configuration) (id : Z) : M unit :=
  when (find_in (Codec._new_nodes c) id) (set_cfg (fun m => m <| _new_node_match_size ::= Z.add 1 |>)) ;;
  when (find_in (Codec._nodes c) id) (set_cfg (fun m => m <| _old_node_match_size ::= Z.add 1 |>)).

Definition cfg_catching_up (result : Z) (id : Z) : M Z :=
  s ← this;
  if bool_decide (get_catch_up_node id s = NULL) then mret 0
  else if negb (result =? 0) then finish_func result ;; mret 1
  else
    set_cfg (fun m => m <| _catch_up_nodes ::= fmap (fun x => if fst x =? id then (fst x, (true, snd (snd x))) else x) |>) ;;
    all ← gets (fun s => forallb (fun x => fst (snd x)) (_catch_up_nodes (cfg s)));
    when all
      (e ← gets (fun s => _cfg_entry (cfg s));
       match e with
       | NULL => fail
       | Some e =>
           num ← get_change_num e;
           ret ← process_cfg_change (if 1 <? num then CFG_JOINT else CFG_UPDATE_NEW_CFG) e;
           when (negb (ret =? 0)) (finish_func result) ;;
           reset_cfg_entry
       end) ;;
    mret 1.

Definition cfg_joint (result rsp_current_idx : Z) (id : Z) : M Z :=
  if negb (result =? 0) && not_leader_or_deleted result then finish_func result ;; mret 1
  else
    c ← get_last_node_configuration;
    (if negb (result =? 0) then count_failure c id else count_match c id) ;;
    m ← gets cfg;
    let new_half := Z.of_nat (List.length (Codec._new_nodes c)) / 2 in
    let old_half := Z.of_nat (List.length (Codec._nodes c)) / 2 in
    if negb (result =? 0) && ((new_half <? _new_node_fail_size m) || (old_half <? _old_node_fail_size m))
    then finish_func result ;; mret 1
    else
      when ((new_half <? _new_node_match_size m) && (old_half <? _old_node_match_size m))
        (ret ← create_cfg_entry;
         if negb (ret =? 0) then finish_func ret
         else
           set_state CFG_UPDATE_NEW_CFG ;;
           set_cfg reset_sizes ;;
           raft_set_commit_idx rsp_current_idx) ;;
      mret 1.

Definition cfg_update_new (result rsp_current_idx : Z) (id : Z) : M Z :=
  m ← gets cfg;
  if (_configuration_index m =? 0) || negb (_configuration_index m =? rsp_current_idx) then mret 0
  else if negb (result =? 0) && not_leader_or_deleted result then finish_func result ;; mret 1
  else
    c ← get_last_node_configuration;
    when (find_in (Codec._nodes c) id)
      (set_cfg (if negb (result =? 0) then fun m => m <| _new_node_fail_size ::= Z.add 1 |>
                else fun m => m <| _new_node_match_size ::= Z.add 1 |>)) ;;
    m ← gets cfg;
    let half := Z.of_nat (List.length (Codec._nodes c)) / 2 in
    if negb (result =? 0) && (half <? _new_node_fail_size m) then finish_func result ;; mret 1
    else
      when (half <? _new_node_match_size m)
        (updatet_raft_nodes_stat ;;
         finish_func 0 ;;
         raft_set_commit_idx rsp_current_idx ;;
         my_id ← gets _node_id;
         c ← get_last_node_configuration;
         when (negb (find_in (Codec._nodes c) my_id)) (raft_step_down rsp_current_idx)) ;;
      mret 1.

Definition cfg_change_process (result rsp_current_idx : Z) (r : nat) : M Z :=
  n ← node r;
  st ← gets (fun s => _state (cfg s));
  match st with
  | CFG_CATCHING_UP => cfg_catching_up result (raft_node_get_id n)
  | CFG_JOINT => cfg_joint result rsp_current_idx (raft_node_get_id n)
  | CFG_UPDATE_NEW_CFG => cfg_update_new result rsp_current_idx (raft_node_get_id n)
  | _ => mret 1
  end.

(** *** Recovery of a peer that lags behind *)

Definition _recovery_by_snapshot (r : nat) : M unit :=
  modify (fun s => s <| _snapshot_in_progress := true |>) ;;
  set_node r (fun n => n <| _suppress_heartbeats := true |>) ;;
  tell (RecoveryBySnapshot r).

Definition do_recovery (r : nat) : M unit :=
  n ← node r;
  s ← this;
  let next_idx := node_next_idx n in
  if next_idx <? log_get_base_index (_log s) then _recovery_by_snapshot r
  else
    let first_idx_cache := first_log_in_cache (_log s) in
    if first_idx_cache <=? next_idx then
      let entry_num := Z.min recovery_max_entry_num (_current_idx s - next_idx + 1) in
      let es := get_num next_idx (s32 entry_num) (_entries (_log s)) in
      ae ← create_appendentries r next_idx;
      send_appendentries r (ae <| entries := es |>)
    else
      let end_idx := Z.min (_current_idx s) (first_idx_cache - 1) in
      let entry_num := Z.min recovery_max_entry_num (end_idx - next_idx + 1) in
      match disk_read (make_buffer_list E) next_idx (next_idx + entry_num - 1) (_log s) with
      | (Some e, Some es) => tell (DiskDone (recovery_read_complete (raft_node_get_id n) es) e)
      | _ => mret tt
      end.

(** The callback of the read: the peer may be gone. *)
Definition send_recovery_entries (node_id : Z) (es : list raft_entry_t) (rberrno : Z) : M unit :=
  assert (rberrno =? 0) ;;
  node_ ← raft_get_cfg_node node_id;
  match node_ with
  | NULL => mret tt
  | Some r =>
      n ← node r;
      ae ← create_appendentries r (node_next_idx n);
      send_appendentries r (ae <| entries := es |>)
  end.

Definition node_is_cfg_change_process (r : nat) : M bool :=
  n ← node r; gets (fun s => bool_decide (get_catch_up_node (raft_node_get_id n) s <> NULL)).

Definition set_recovering (r : nat) (b : bool) : M unit := set_node r (fun n => n <| _is_recovering := b |>).

Definition cfg_change_check (r : nat) (result match_index : Z) : M unit :=
  b ← node_is_cfg_change_process r;
  st ← gets (fun s => _state (cfg s));
  when ((bool_decide (st = CFG_CATCHING_UP) && b) || bool_decide (st = CFG_JOINT))
    (_ ← cfg_change_process result match_index r; mret tt).

Definition dispatch_recovery (r : nat) : M unit :=
  set_recovering r true ;;
  s ← this;
  n ← node r;
  if negb (raft_is_leader s) then set_recovering r false ;; cfg_change_check r RAFT_ERR_NOT_LEADER 0
  else
    match _op_state s with
    | RAFT_DOWN | RAFT_DELETE => set_recovering r false ;; cfg_change_check r RAFT_ERR_PG_DELETED 0
    | _ =>
        if _match_idx n =? _current_idx s then set_recovering r false ;; cfg_change_check r 0 (_match_idx n)
        else
          b ← node_is_cfg_change_process r;
          when (bool_decide (_state (cfg s) = CFG_CATCHING_UP) && b && (_commit_idx s <? CATCH_UP_NUM + _match_idx n))
            (_ ← cfg_change_process 0 0 r; mret tt) ;;
          do_recovery r
    end.

(** *** Answers of followers *)

Definition process_response (rsp_current_idx : Z) (r : nat) (result end_idx : Z) : M unit :=
  s ← this;
  n ← node r;
  done ← (if cfg_change_is_in_progress s then
            when (negb (result =? 0) && _is_recovering n) (set_recovering r false) ;;
            c ← cfg_change_process result rsp_current_idx r;
            mret (truthy c)
          else mret false);
  n ← node r;
  if done : bool then mret tt
  else if _is_recovering n && negb (result =? 0) then set_recovering r false
  else
    s ← this;
    when (truthy end_idx && (_commit_idx s <? end_idx))
      (match raft_get_entry_term end_idx s with
       | Some term =>
           when (term =? _current_term s) (raft_node_process_commit result end_idx (raft_node_get_id n))
       | None => mret tt
       end).

Definition raft_process_appendentries_reply (r : msg_appendentries_response_t) (is_heartbeat : bool) : M Z :=
  node_ ← raft_get_cfg_node (ar_node_id r);
  match node_ with
  | NULL => mret 1
  | Some x =>
      let process := process_response (ar_current_idx r) x in
      set_node x (fun n => n <| _suppress_heartbeats := false |>) ;;
      n ← node x;
      s ← this;
      if negb (raft_is_leader s) then
        process RAFT_ERR_NOT_LEADER (_end_idx n) ;; mret RAFT_ERR_NOT_LEADER
      else if existsb (Z.eqb (success r))
                [RAFT_ERR_NOT_FOUND_PG; E_ENOSPC; RAFT_ERR_SHUTDOWN; RAFT_ERR_PG_SHUTDOWN; RAFT_ERR_PG_INITIALIZING;
                 RAFT_ERR_PG_DELETED] then
        process (success r) (_end_idx n) ;; mret (success r)
      else if _current_term s <? ar_term r then
        _ ← raft_set_current_term (ar_term r);
        raft_become_follower ;;
        raft_set_current_leader (- 1) ;;
        process RAFT_ERR_NOT_LEADER (_end_idx n) ;;
        mret RAFT_ERR_NOT_LEADER
      else if negb (_current_term s =? ar_term r) then mret 1
      else if success r =? E_INVAL then
        set_node x (raft_node_set_next_idx (ar_current_idx r + 1)) ;;
        when (negb (_is_recovering n)) (dispatch_recovery x) ;;
        mret 1
      else if success r =? RAFT_ERR_LOG_NOT_MATCH then
        set_node x (raft_node_set_next_idx (ar_current_idx r + 1)) ;;
        dispatch_recovery x ;;
        mret 1
      else if negb (success r =? 1) && negb (success r =? 0) then
        process (success r) (_end_idx n) ;; mret (success r)
      else
        set_node x (raft_node_set_lease (lease r)) ;;
        if success r =? 0 then
          if _is_recovering n then
            when (ar_current_idx r <? node_next_idx n) (set_node x (raft_node_set_next_idx (ar_current_idx r + 1))) ;;
            dispatch_recovery x ;;
            mret 1
          else
            set_node x (raft_node_set_next_idx (ar_current_idx r + 1)) ;;
            (if ar_current_idx r <? first_idx r - 1 then dispatch_recovery x
             else process RAFT_ERR_UNKNOWN (_end_idx n)) ;;
            mret 1
        else if (ar_current_idx r <? _match_idx n) && negb (_is_recovering n) then mret 0
        else if (ar_current_idx r =? _match_idx n) && negb (_is_recovering n) then
          when (cfg_change_is_in_progress s) (_ ← cfg_change_process 0 (ar_current_idx r) x; mret tt) ;;
          mret 0
        else
          assert (ar_current_idx r <=? _current_idx s) ;;
          set_node x (raft_node_set_next_idx (ar_current_idx r + 1)) ;;
          set_node x (fun n => n <| _match_idx := ar_current_idx r |>) ;;
          if _is_recovering n then dispatch_recovery x ;; mret 0
          else if is_heartbeat then mret 0
          else process 0 (ar_current_idx r) ;; mret 0
  end.

(** A request that could not be delivered. *)
Definition appendentries_failed (target_node_id : Z) : M unit :=
  node_ ← raft_get_cfg_node target_node_id;
  match node_ with
  | Some r => set_node r (fun n => n <| _suppress_heartbeats := false |>)
  | NULL => mret tt
  end.

(** *** Flushing the entries of a leader *)

Definition set_entry_idx (idx : Z) (e : raft_entry_t) : raft_entry_t := e <| e_idx := idx |>.

(** The entry at the front of the queue that adds nodes is the object that [_cfg_entry]
    points to, if that points to any: it gets its index there too. *)
Definition entry_queue_flush : M Z :=
  s ← this;
  let l := _log s in
  match _entry_queue l with
  | [] => mret 0
  | (e, complete_) :: q =>
      if raft_entry_is_cfg_change e then
        let e := set_entry_idx (_next_idx l) e in
        (if e_type e =? RAFT_LOGTYPE_ADD_NONVOTING_NODE then
           set_cfg (fun m =>
             if bool_decide (complete_ <> NULL) || bool_decide (_cfg_entry m = NULL)
             then m <| _cfg_entry := Some e |> <| _cfg_complete := complete_ |>
             else m <| _cfg_entry ::= fmap (set_entry_idx (_next_idx l)) |>)
         else
           on_log (fun l => (tt, l <| _next_idx ::= Z.add 1 |>)) ;;
           when (bool_decide (complete_ <> NULL)) (set_cfg (fun m => m <| _cfg_complete := complete_ |>)) ;;
           reset_cfg_entry ;;
           on_log (fun l => (tt, l <| _entries ::= add e NULL |>))) ;;
        on_log (fun l => (tt, l <| _entry_queue := q |>)) ;;
        on_log (flush_entries q 1)
      else on_log (flush_entries (_entry_queue l) 0)
  end.

(** [sort_ids] are the distinct numbers in order, as a [std::set] has them. *)
Fixpoint insert_id (x : Z) (l : list Z) : list Z :=
  match l with
  | [] => [x]
  | y :: l' => if x <? y then x :: l else if x =? y then l else y :: insert_id x l'
  end.
Definition sort_ids (l : list Z) : list Z := foldl (fun a x => insert_id x a) [] l.

Definition send_to_peer (start_idx end_idx : Z) (r : nat) : M unit :=
  self ← raft_is_self r;
  n ← node r;
  when (negb self && negb (_is_recovering n))
    (set_node r (fun n => n <| _end_idx := end_idx |>) ;;
     _ ← raft_send_appendentries r start_idx end_idx;
     mret tt).

Definition process_conf_change_configuration (e : raft_entry_t) : M unit :=
  let config := ParseFromString (e_meta e) in
  (if bool_decide (old_nodes config <> []) then
     set_state CFG_JOINT ;;
     add_node_configuration
       {| Codec._index := e_idx e; Codec._term := e_term e; Codec._nodes := old_nodes config;
          Codec._new_nodes := new_nodes config |}
   else
     set_cfg (fun m => m <| _configuration_index := e_idx e |>) ;;
     set_state CFG_UPDATE_NEW_CFG ;;
     add_node_configuration
       {| Codec._index := e_idx e; Codec._term := e_term e; Codec._nodes := new_nodes config; Codec._new_nodes := [] |}) ;;
  updatet_raft_nodes_stat ;;
  let ids := sort_ids (Codec.node_id <$> new_nodes config ++ old_nodes config) in
  s ← this;
  when (existsb (Z.eqb (_node_id s)) ids)
    (raft_disk_append_entries (_first_idx s) (_current_idx s) (disk_configuration_complete (_first_idx s) (_current_idx s))) ;;
  mfor ids (fun id_ =>
    node_ ← raft_get_cfg_node id_;
    match node_ with
    | NULL => mret tt
    | Some r => send_to_peer (e_idx e) (e_idx e) r
    end).

(** The nodes that are added are given the placement group first. *)
Definition process_conf_change_add_nonvoting (e : raft_entry_t) : M unit :=
  set_state CFG_CATCHING_UP ;;
  s ← this;
  let config := ParseFromString (e_meta e) in
  let old := (fun x => raft_node_get_id (nth (snd x) (_heap s) no_node)) <$> _nodes s in
  mfor (new_nodes config) (fun info =>
    when (negb (existsb (Z.eqb (Codec.node_id info)) old))
      (r ← make_node info;
       set_cfg (fun m => m <| _catch_up_nodes ::= emplace (Codec.node_id info) (false, r) |>))) ;;
  rs ← gets (fun s => (fun x => snd (snd x)) <$> _catch_up_nodes (cfg s));
  mfor rs (fun r =>
    set_node r (raft_node_set_next_idx (e_idx e)) ;;
    n ← node r;
    ret ← send (raft_node_get_id n) (SendCreatePg (raft_node_get_id n) r (e_idx e));
    when (negb (ret =? E_SUCCESS))
      (set_recovering r false ;; _ ← cfg_change_process ret (e_idx e) r; mret tt)).

(** The answer to the request to create the placement group. *)
Definition create_pg_done (r : nat) (next_idx result : Z) : M unit :=
  if negb (result =? E_SUCCESS) then
    set_recovering r false ;; _ ← cfg_change_process result next_idx r; mret tt
  else
    ae ← create_appendentries r next_idx;
    n ← node r;
    ret ← send (raft_node_get_id n) (SendAppendentries (raft_node_get_id n) ae);
    when (negb (ret =? E_SUCCESS))
      (set_node r (fun n => n <| _suppress_heartbeats := false |>) ;;
       set_recovering r false ;;
       _ ← cfg_change_process ret next_idx r;
       mret tt).

Definition process_conf_change_entry (e : raft_entry_t) : M unit :=
  if e_type e =? RAFT_LOGTYPE_ADD_NONVOTING_NODE then process_conf_change_add_nonvoting e
  else when (e_type e =? RAFT_LOGTYPE_CONFIGURATION) (process_conf_change_configuration e).

(** One turn of [raft_flush], and what it does next when it calls itself. *)
Definition flush_turn (again : M unit) : M unit :=
  s ← this;
  let last_cache_idx := get_last_cache_entry (_entries (_log s)) in
  if negb (raft_is_leader s) then stop_flush RAFT_ERR_NOT_LEADER
  else
    match _op_state s with
    | RAFT_DOWN => stop_flush RAFT_ERR_PG_SHUTDOWN
    | RAFT_DELETE => stop_flush RAFT_ERR_PG_DELETED
    | _ =>
        if (last_cache_idx =? _current_idx s) || (last_cache_idx =? 0) then
          count ← entry_queue_flush;
          if count =? 0 then mret tt
          else
            m ← gets cfg;
            match _state m, _cfg_entry m with
            | CFG_CATCHING_START, Some e => process_conf_change_entry e
            | _, _ => again
            end
        else
          modify (fun s => s <| _first_idx := _current_idx s + 1 |>) ;;
          match get (_current_idx s + 1) (_entries (_log s)) with
          | NULL => fail
          | Some e =>
              if raft_entry_is_cfg_change e then
                modify (fun s => s <| _current_idx := _first_idx s |>) ;; process_conf_change_entry e
              else
                modify (fun s => s <| _current_idx := last_cache_idx |>) ;;
                s ← this;
                _static_merger_info (_current_idx s - _first_idx s + 1) ;;
                for_all_node (send_to_peer (_first_idx s) (_current_idx s)) ;;
                raft_disk_append_entries (_first_idx s) (_current_idx s) (disk_append_complete (_first_idx s) (_current_idx s))
          end
    end.

(** Every turn that comes back takes an entry off the queue. *)
Fixpoint flush_turns (turns : nat) : M unit :=
  match turns with
  | O => fail
  | S turns => flush_turn (flush_turns turns)
  end.

Definition raft_flush : M unit := s ← this; flush_turns (List.length (_entry_queue (_log s)) + 2).

(** The poller: the last batch has to be committed. *)
Definition raft_task_func : M unit :=
  s ← this;
  when (raft_is_leader s && negb (_commit_idx s <? _current_idx s)) raft_flush.

(** *** When the disk is done *)

Definition disk_done (c : disk_ctx) (result : Z) : M unit :=
  match c with
  | disk_append_complete _ end_idx => id_ ← gets _node_id; raft_node_process_commit result end_idx id_
  | follow_disk_append_complete start_idx end_idx commit_idx n =>
      when (negb (result =? 0)) (set_rsp n (fun r => r <| success := result |>)) ;;
      commit ← gets _commit_idx;
      when (commit <? commit_idx) (raft_set_commit_idx commit_idx) ;;
      raft_write_entry_finish start_idx end_idx result
  | disk_configuration_complete _ end_idx =>
      id_ ← gets _node_id;
      node_ ← raft_get_cfg_node id_;
      match node_ with
      | NULL => mret tt
      | Some r =>
          set_node r (fun n => n <| _match_idx := end_idx |>) ;;
          _ ← cfg_change_process result end_idx r;
          mret tt
      end
  | truncate_prev_complete ae n =>
      modify (fun s => s <| _current_idx := prev_log_idx ae - 1 |>) ;;
      let err_num := if result =? 0 then RAFT_ERR_LOG_NOT_MATCH else result in
      set_rsp n (fun r => r <| success := err_num |>) ;;
      _ ← hand_error ae n err_num;
      mret tt
  | truncate_entry_complete ae n i ety_index =>
      modify (fun s => s <| _current_idx := ety_index - 1 |>) ;;
      append_entry_func ae n i
  | recovery_read_complete node_id es => send_recovery_entries node_id es result
  end.

(** *** Changes of the members *)

Definition is_busy (s : server) : bool := negb (bool_decide (_state (cfg s) = CFG_NONE)).

Definition raft_configuration_entry (ety : raft_entry_t) (complete_ : ptr context) : M Z :=
  s ← this;
  if is_busy s then
    complete_ptr complete_ RAFT_ERR_MEMBERSHIP_CHANGING ;; mret RAFT_ERR_MEMBERSHIP_CHANGING
  else
    set_cfg (fun m => m <| _cfg_entry := Some ety |> <| _cfg_complete := complete_ |>) ;;
    set_state CFG_CATCHING_START ;;
    ret ← raft_write_entry ety NULL;
    (if negb (ret =? 0) then reset_cfg_entry_complete ;; complete_ptr complete_ ret
     else set_cfg (fun m => m <| _cfg_entry := Some (ety <| e_term := _current_term s |>) |>)) ;;
    mret ret.

Definition members (s : server) : list Codec.raft_node_info :=
  (fun x => _info (nth (snd x) (_heap s) no_node)) <$> _nodes s.

Definition cfg_entry_of (type_ : Z) (c : raft_configuration) : raft_entry_t :=
  {| e_term := 0; e_idx := 0; e_type := type_; e_meta := SerializeToString c; e_data := [] |}.

Definition add_raft_membership (n : Codec.raft_node_info) (complete_ : ptr context) : M unit :=
  ms ← gets members;
  _ ← raft_configuration_entry
        (cfg_entry_of RAFT_LOGTYPE_ADD_NONVOTING_NODE {| new_nodes := ms ++ [n]; old_nodes := [] |}) complete_;
  mret tt.

Definition remove_raft_membership (n : Codec.raft_node_info) (complete_ : ptr context) : M unit :=
  ms ← gets members;
  _ ← raft_configuration_entry
        (cfg_entry_of RAFT_LOGTYPE_CONFIGURATION
           {| new_nodes := List.filter (fun m => negb (Codec.node_id m =? Codec.node_id n)) ms; old_nodes := [] |}) complete_;
  mret tt.

Definition change_raft_membership (new : list Codec.raft_node_info) (complete_ : ptr context) : M unit :=
  ms ← gets members;
  let add_count := count_if (fun n => negb (find_in ms (Codec.node_id n))) new in
  _ ← raft_configuration_entry
        (cfg_entry_of (if 0 <? add_count then RAFT_LOGTYPE_ADD_NONVOTING_NODE else RAFT_LOGTYPE_CONFIGURATION)
           {| new_nodes := new; old_nodes := ms |}) complete_;
  mret tt.

(** [pg_group_t::change_pg_membership] once it has found the server. *)
Definition change_pg_membership (new_osds : list Codec.raft_node_info) (complete_ : ptr context) : M unit :=
  s ← this;
  if negb (raft_is_leader s) then complete_ptr complete_ 0
  else
    let adds := List.filter (fun o => bool_decide (lookup_node (Codec.node_id o) (_nodes s) = NULL)) new_osds in
    let removes := List.filter (fun x => negb (find_in new_osds (fst x))) (_nodes s) in
    let add_count := Z.of_nat (List.length adds) in
    let remove_count := Z.of_nat (List.length removes) in
    if 2 <=? add_count + remove_count then change_raft_membership new_osds complete_
    else
      match last adds, last removes with
      | Some n, _ => add_raft_membership n complete_
      | None, Some x => n ← node (snd x); remove_raft_membership (_info n) complete_
      | None, None => complete_ptr complete_ 0
      end.

(** *** Starting and stopping *)

(** The constructor; nothing reads [_election_timeout_rand] before it is set. *)
Definition raft_new (log : DiskLog.disk_log B) (kv : kvs) : server :=
  {| _current_term := 0; _voted_for := - 1; _log := log_new log; _commit_idx := 0; _identity := RAFT_STATE_FOLLOWER;
     _prevote := 0; _start_time := 0; _election_timer := 0; _election_timeout := 1000;
     _election_timeout_rand := 1000 + Z.rem (rand E) 1000; _heartbeat_timeout := 200; _leader_id := - 1; _node_id := - 1;
     _snapshot_in_progress := false; _lease_maintenance_grace := 0; _first_start := false; _last_applied_idx := 0;
     _first_idx := 0; _current_idx := 0; _buffer := []; _in_progress := false; _kv := kv; _op_state := RAFT_INIT;
     _last_index_before_become_leader := 0; _heap := []; _nodes := []; _new_nodes := [];
     _configuration_manager := new_cfg_manager; _tasks := []; _responses := []; _disk_io_num := 0;
     _merger_nums := [0; 0; 0; 0; 0; 0]; _out := [] |}.

Definition raft_set_timer : M unit := modify (fun s => s <| _election_timer := now E |> <| _start_time := now E |>).

Definition raft_set_nodeid (id_ : Z) : M unit :=
  s ← this; assert (_node_id s =? - 1) ;; modify (fun s => s <| _node_id := id_ |>).

Definition start_raft_timer (heartbeat lease_time election : Z) : M unit :=
  modify (fun s => s <| _election_timeout := election |>) ;;
  raft_randomize_election_timeout ;;
  modify (fun s => s <| _lease_maintenance_grace := lease_time |> <| _heartbeat_timeout := heartbeat |>).

(** A number that occurs twice is taken once. *)
Definition initial_nodes (node_list : list Codec.raft_node_info) : list Codec.raft_node_info :=
  foldl (fun l n => if find_in l (Codec.node_id n) then l
    else l ++ [{| Codec.node_id := Codec.node_id n; Codec.addr := Codec.addr n; Codec.port := 0 |}]) [] node_list.

Definition init (node_list : list Codec.raft_node_info) (current_node heartbeat lease_time election : Z) : M unit :=
  raft_set_nodeid current_node ;;
  add_node_configuration
    {| Codec._index := 0; Codec._term := 0; Codec._nodes := initial_nodes node_list; Codec._new_nodes := [] |} ;;
  c ← get_last_node_configuration;
  update_with_node_configuration c [] ;;
  start_raft_timer heartbeat lease_time election ;;
  modify (fun s => s <| _op_state := RAFT_ACTIVE |>).

(** What [kvstore::get] finds: a put can be seen before it is committed. *)
Definition kv_get (s : server) : kv_table := kv_tab (kv_commit (_kv s)).

Definition load_done (current_node heartbeat lease_time election : Z) : M unit :=
  modify (fun s => s <| _current_idx := _next_idx (_log s) - 1 |>) ;;
  t ← gets kv_get;
  modify (fun s => s <| _current_term := default (_current_term s) (kv_term t) |>
                     <| _voted_for := default (_voted_for s) (kv_vote_for t) |>) ;;
  set_cfg (fun m => m <| _configurations ::= fun l => l ++ default [] (kv_node_cfg t) |>) ;;
  c ← get_last_node_configuration;
  update_with_node_configuration c [] ;;
  s ← this;
  raft_set_commit_idx (_current_idx s) ;;
  let base := log_get_base_index (_log s) in
  let last_applied_idx := default (if 0 <? base then base - 1 else base) (kv_lapply_idx t) in
  modify (fun s => s <| _last_applied_idx := last_applied_idx |> <| _log ::= set_trim_index last_applied_idx |>) ;;
  raft_set_nodeid current_node ;;
  start_raft_timer heartbeat lease_time election.

(** What the caller is told; [fuel] and [read_unit] are those of the log. *)
Definition raft_load (fuel : nat) (read_unit current_node heartbeat lease_time election : Z) : M (option Z) :=
  fun s =>
    match RaftLog.load (make_buffer_list E) fuel read_unit (_log s) with
    | None => None
    | Some (r, l) =>
        match r with
        | Some 0 => (load_done current_node heartbeat lease_time election ;; mret r) (s <| _log := l |>)
        | _ => Some (r, s <| _log := l |>)
        end
    end.

Definition active_raft : M unit :=
  modify (fun s => if decide (_op_state s = RAFT_INIT) then s <| _op_state := RAFT_ACTIVE |> else s).

Definition stop : M unit :=
  modify (fun s => s <| _op_state := RAFT_DOWN |>) ;;
  stop_buffer ;;
  stop_processing_entrys RAFT_ERR_PG_SHUTDOWN ;;
  stop_flush RAFT_ERR_PG_SHUTDOWN ;;
  tell LogStop.

End handlers.
End Raft.
