(* ===== verification/RaftFrame.v ===== *)
(** * What handlers leave alone (src/raft)

    The part of a server that elections depend on, and that the handlers which have no
    part in an election leave it alone: they take a higher term as followers, they do
    not vote, and peers keep their names and their votes. *)

From stdpp Require Import list.
From S2P Require Import Prelude Wire Codec RollingBlob DiskLog RaftLog Raft.
Import (hints) RaftLog.
Import (hints) Raft.

Module RaftFrame.
Import RaftLog Raft.

(** ** What elections depend on *)

Record view := {
  v_id : Z;
  v_term : Z;
  v_voted : Z;
  v_identity : raft_identity;
  v_prevote : Z;
  v_kv : kvs;
  v_heap : list raft_node;
  v_nodes : list (Z * nat);
  v_new_nodes : list (Z * nat);
  v_catch_up : list (Z * nat);
  v_out : list action;
}.

Definition catch_up_refs (m : node_configuration_manager) : list (Z * nat) :=
  (fun x => (fst x, snd (snd x))) <$> _catch_up_nodes m.

Definition view_of {B} (s : raft_server_t B) : view :=
  {| v_id := _node_id s; v_term := _current_term s; v_voted := _voted_for s; v_identity := _identity s;
     v_prevote := _prevote s; v_kv := _kv s; v_heap := _heap s; v_nodes := _nodes s; v_new_nodes := _new_nodes s;
     v_catch_up := catch_up_refs (cfg s); v_out := _out s |}.

(** The peers that tables refer to. *)
Definition refs (v : view) : list (Z * nat) := v_nodes v ++ v_new_nodes v ++ v_catch_up v.

Definition peer (h : list raft_node) (r : nat) : raft_node := nth r h no_node.

Definition ref_ok (h : list raft_node) (x : Z * nat) : Prop :=
  (snd x < List.length h)%nat /\ raft_node_get_id (peer h (snd x)) = fst x.

Record tables_ok (h : list raft_node) (nodes new_nodes_ catch_up : list (Z * nat)) : Prop := {
  ok_refs : Forall (ref_ok h) (nodes ++ new_nodes_ ++ catch_up);
  ok_nodes : NoDup nodes.*1;
  ok_new_nodes : NoDup new_nodes_.*1;
}.

Definition wf (v : view) : Prop := tables_ok (v_heap v) (v_nodes v) (v_new_nodes v) (v_catch_up v).

(** What the key-value store gives back is the term and the vote. *)
Definition saved (v : view) : Prop :=
  let t := kv_tab (kv_commit (v_kv v)) in
  default 0 (kv_term t) = v_term v /\ (v_voted v <> - 1 -> kv_vote_for t = Some (v_voted v)).

(** ** Steps that have no part in an election *)

Definition silent (id : Z) (a : action) : Prop :=
  match a with
  | NotifyLeader _ _ _ => False
  | SendVote _ rv => rv_node_id rv = id /\ rv_candidate_id rv = id
  | _ => True
  end.

(** The peers of [h0] keep their names and votes in [h], and the others have none. *)
Record grows (h0 h : list raft_node) : Prop := {
  grows_len : (List.length h0 <= List.length h)%nat;
  grows_old r : (r < List.length h0)%nat -> _flags (peer h r) = _flags (peer h0 r) /\ _info (peer h r) = _info (peer h0 r);
  grows_new r : (List.length h0 <= r)%nat -> _flags (peer h r) = 0;
}.

Record quiet (v0 v : view) : Prop := {
  quiet_id : v_id v = v_id v0;
  quiet_wf : wf v0 -> wf v;
  quiet_heap : grows (v_heap v0) (v_heap v);
  quiet_refs : Forall (fun x => snd x ∈ (refs v0).*2 \/ (List.length (v_heap v0) <= snd x)%nat) (refs v);
  quiet_term : (v_term v = v_term v0 /\ v_voted v = v_voted v0) \/ (v_term v0 < v_term v /\ v_voted v = - 1);
  quiet_saved : saved v0 -> saved v;
  quiet_candidate : v_identity v = RAFT_STATE_CANDIDATE ->
    v_identity v0 = RAFT_STATE_CANDIDATE /\ v_prevote v = v_prevote v0 /\ v_term v = v_term v0;
  quiet_out : exists l, v_out v = v_out v0 ++ l /\ Forall (silent (v_id v0)) l;
}.

#[export] Instance eta_view : Eta view := fun v =>
  {| v_id := v_id v; v_term := v_term v; v_voted := v_voted v; v_identity := v_identity v; v_prevote := v_prevote v;
     v_kv := v_kv v; v_heap := v_heap v; v_nodes := v_nodes v; v_new_nodes := v_new_nodes v; v_catch_up := v_catch_up v;
     v_out := v_out v |}.

Lemma grows_refl h : grows h h.
Proof.
  split; [done|done|]. intros r Hr. unfold peer. by rewrite nth_overflow.
Qed.

Lemma grows_trans h0 h1 h2 : grows h0 h1 -> grows h1 h2 -> grows h0 h2.
Proof.
  intros [L1 O1 N1] [L2 O2 N2]. split; [lia| |].
  - intros r Hr. destruct (O1 r Hr) as [<- <-]. apply O2. lia.
  - intros r Hr. destruct (decide (r < List.length h1)%nat) as [Hl|Hl].
    + destruct (O2 r Hl) as [-> _]. by apply N1.
    + apply N2. lia.
Qed.

Lemma quiet_refl v : quiet v v.
Proof.
  split; auto using grows_refl.
  - apply Forall_forall. intros x Hx. left. by apply (list_elem_of_fmap_2 snd).
  - exists []. by rewrite app_nil_r.
Qed.

(** ** Handlers that keep a property *)

Section keeping.
Context `{RollingBlob.BlobIo B} `{ConfigCodec} (E : env).

Abbreviation server := (raft_server_t B).
Abbreviation M := (Raft.M B).

Definition Inv {A} (P : server -> Prop) (m : M A) : Prop :=
  forall s x s', P s -> m s = Some (x, s') -> P s'.

Section rules.
Context (P : server -> Prop).

Lemma Inv_ret {A} (x : A) : Inv P (mret x).
Proof. intros s y s' HP [= <- <-]. done. Qed.

Lemma Inv_bind {A A'} (m : M A) (k : A -> M A') : Inv P m -> (forall x, Inv P (k x)) -> Inv P (m ≫= k).
Proof.
  intros Hm Hk s y s' HP. unfold mbind, M_bind. destruct (m s) as [[x s1]|] eqn:E1; [|done].
  intros E2. eapply Hk; [|exact E2]. by eapply Hm.
Qed.

Lemma Inv_fail {A} : Inv P (fail : M A).
Proof. done. Qed.

Lemma Inv_this : Inv P this.
Proof. intros s x s' HP [= <- <-]. done. Qed.

Lemma Inv_gets {A} (f : server -> A) : Inv P (gets f).
Proof. intros s x s' HP [= <- <-]. done. Qed.

Lemma Inv_assert b : Inv P (assert b).
Proof. destruct b; [apply Inv_ret|apply Inv_fail]. Qed.

Lemma Inv_when b m : Inv P m -> Inv P (when b m).
Proof. destruct b; [done|intros; apply Inv_ret]. Qed.

Lemma Inv_mfor {A} (l : list A) f : (forall x, Inv P (f x)) -> Inv P (mfor l f).
Proof. intros Hf. induction l as [|x l IH]; cbn; [apply Inv_ret|]. apply Inv_bind; auto. Qed.

Lemma Inv_modify f : (forall s, P s -> P (f s)) -> Inv P (modify f).
Proof. intros Hf s x s' HP [= <- <-]. auto. Qed.

(** The continuation may use that the state it reads has the property. *)
Lemma Inv_read {A A'} (f : server -> A) (k : A -> M A') :
  (forall s0, P s0 -> forall s x s', s = s0 -> k (f s0) s = Some (x, s') -> P s') -> Inv P (gets f ≫= k).
Proof. intros Hk s x s' HP Hm. exact (Hk s HP s x s' eq_refl Hm). Qed.

End rules.

(** ** The quiet handlers *)

Definition Q (v0 : view) (s : server) : Prop := quiet v0 (view_of s).

Lemma Q_same v0 (f : server -> server) : (forall s, view_of (f s) = view_of s) -> Inv (Q v0) (modify f).
Proof. intros Hf. apply Inv_modify. intros s HQ. unfold Q. by rewrite Hf. Qed.

Lemma Q_tell v0 a : silent (v_id v0) a -> Inv (Q v0) (tell a).
Proof.
  intros Ha. apply Inv_modify. intros s [Hid Hwf Hh Hr Ht Hs Hc (l & Hl & Hf)]. split; try done.
  exists (l ++ [a]). cbn in *. rewrite Hl, <- app_assoc. split; [done|]. apply Forall_app. auto.
Qed.

(** A change of a peer that is not of its name or its vote. *)
Lemma grows_alter f r h : (forall n, _flags (f n) = _flags n /\ _info (f n) = _info n) -> grows h (alter f r h).
Proof.
  intros Hf. split.
  - by rewrite length_alter.
  - intros r' Hr'. unfold peer. rewrite !nth_lookup. destruct (decide (r = r')) as [->|Hne].
    + rewrite list_lookup_alter_eq. destruct (h !! r') as [n|] eqn:En; cbn; [apply Hf|done].
    + by rewrite list_lookup_alter_ne.
  - intros r' Hr'. unfold peer. rewrite nth_overflow; [done|]. by rewrite length_alter.
Qed.

Lemma ref_ok_grows h0 h x : grows h0 h -> ref_ok h0 x -> ref_ok h x.
Proof.
  intros [Hl Ho _] [Hx Hi]. destruct (Ho _ Hx) as [_ Hinfo]. split; [lia|]. unfold raft_node_get_id in *. by rewrite Hinfo.
Qed.

Lemma wf_grows v h : grows (v_heap v) h -> wf v -> wf (v <| v_heap := h |>).
Proof.
  intros Hg [Hr Hn Hn']. split; try done. eapply Forall_impl; [exact Hr|]. intros x. by apply ref_ok_grows.
Qed.

Lemma quiet_grows v0 v h : grows (v_heap v) h -> quiet v0 v -> quiet v0 (v <| v_heap := h |>).
Proof.
  intros Hg [Hid Hwf Hh Hr Ht Hs Hc Ho]. split; try done.
  - intros W. apply wf_grows; auto.
  - by eapply grows_trans.
Qed.

Lemma Q_set_node v0 r f :
  (forall n, _flags (f n) = _flags n /\ _info (f n) = _info n) -> Inv (Q v0) (set_node r f).
Proof. intros Hf. apply Inv_modify. intros s HQ. exact (quiet_grows _ _ _ (grows_alter f r _ Hf) HQ). Qed.

(** A reference that a table may have. *)
Definition good (v0 : view) (h : list raft_node) (x : Z * nat) : Prop :=
  (snd x ∈ (refs v0).*2 \/ (List.length (v_heap v0) <= snd x)%nat) /\ (wf v0 -> ref_ok h x).

Lemma good_refs v0 v : quiet v0 v -> Forall (good v0 (v_heap v)) (refs v).
Proof.
  intros Hq. apply Forall_forall. intros x Hx. split.
  - by apply (proj1 (Forall_forall _ _) (quiet_refs _ _ Hq)).
  - intros W. destruct (quiet_wf _ _ Hq W) as [Hr _ _]. by apply (proj1 (Forall_forall _ _) Hr).
Qed.

Lemma good_grows v0 h h' x : grows h h' -> good v0 h x -> good v0 h' x.
Proof. intros Hg [Hx Hok]. split; [done|]. intros W. eapply ref_ok_grows; eauto. Qed.

(** New tables that refer to good peers. *)
Lemma quiet_tables v0 v n n' c :
  quiet v0 v -> Forall (good v0 (v_heap v)) (n ++ n' ++ c) ->
  (wf v0 -> NoDup n.*1) -> (wf v0 -> NoDup n'.*1) ->
  quiet v0 (v <| v_nodes := n |> <| v_new_nodes := n' |> <| v_catch_up := c |>).
Proof.
  intros [Hid Hwf Hh Hr Ht Hs Hc Ho] Hg Hn Hn'. split; try done.
  - intros W. split; [|auto|auto]. eapply Forall_impl; [exact Hg|]. intros x [_ Hx]. auto.
  - eapply Forall_impl; [exact Hg|]. by intros x [Hx _].
Qed.

Lemma emplace_elem {A} id (x : A) l y : y ∈ emplace id x l -> y = (id, x) \/ y ∈ l.
Proof. unfold emplace. destruct (existsb _ l); [auto|]. rewrite elem_of_app, list_elem_of_singleton. tauto. Qed.

Lemma emplace_NoDup {A} id (x : A) l : NoDup l.*1 -> NoDup (emplace id x l).*1.
Proof.
  intros Hl. unfold emplace. destruct (existsb _ l) eqn:Ex; [done|].
  rewrite fmap_app. apply NoDup_app. split; [done|]. split; [|apply NoDup_singleton].
  intros y Hy ->%list_elem_of_singleton. apply list_elem_of_fmap in Hy as (z & Hz & Hzl). cbn in Hz.
  assert (existsb (fun y => fst y =? id) l = true); [|congruence].
  apply existsb_exists. exists z. split; [by apply list_elem_of_In|]. lia.
Qed.

Lemma Q_emplace_nodes v0 id r s :
  Q v0 s -> good v0 (_heap s) (id, r) -> Q v0 (s <| _nodes ::= emplace id r |>).
Proof.
  intros HQ Hg. pose proof (good_refs _ _ HQ) as Hr. unfold refs in Hr. rewrite !Forall_app in Hr.
  destruct Hr as (H1 & H2 & H3). apply (quiet_tables v0 (view_of s) (emplace id r (_nodes s)) (_new_nodes s) (v_catch_up (view_of s)) HQ).
  - rewrite !Forall_app. split; [|done]. apply Forall_forall. intros y [->|Hy]%emplace_elem; [done|].
    by apply (proj1 (Forall_forall _ _) H1).
  - intros W. apply emplace_NoDup. apply (quiet_wf _ _ HQ W).
  - intros W. apply (quiet_wf _ _ HQ W).
Qed.

Lemma Q_emplace_new_nodes v0 id r s :
  Q v0 s -> good v0 (_heap s) (id, r) -> Q v0 (s <| _new_nodes ::= emplace id r |>).
Proof.
  intros HQ Hg. pose proof (good_refs _ _ HQ) as Hr. unfold refs in Hr. rewrite !Forall_app in Hr.
  destruct Hr as (H1 & H2 & H3). apply (quiet_tables v0 (view_of s) (_nodes s) (emplace id r (_new_nodes s)) (v_catch_up (view_of s)) HQ).
  - rewrite !Forall_app. split; [done|]. split; [|done]. apply Forall_forall. intros y [->|Hy]%emplace_elem; [done|].
    by apply (proj1 (Forall_forall _ _) H2).
  - intros W. apply (quiet_wf _ _ HQ W).
  - intros W. apply emplace_NoDup. apply (quiet_wf _ _ HQ W).
Qed.

Lemma Q_catch_up v0 f s :
  Q v0 s -> Forall (good v0 (_heap s)) (catch_up_refs (f (cfg s))) -> Q v0 (s <| _configuration_manager ::= f |>).
Proof.
  intros HQ Hg. pose proof (good_refs _ _ HQ) as Hr. unfold refs in Hr. rewrite !Forall_app in Hr.
  destruct Hr as (H1 & H2 & H3). apply (quiet_tables v0 (view_of s) (_nodes s) (_new_nodes s) (catch_up_refs (f (cfg s))) HQ).
  - rewrite !Forall_app. auto.
  - intros W. apply (quiet_wf _ _ HQ W).
  - intros W. apply (quiet_wf _ _ HQ W).
Qed.

Lemma Q_set_cfg v0 f : (forall m, catch_up_refs (f m) ⊆ catch_up_refs m) -> Inv (Q v0) (set_cfg f).
Proof.
  intros Hf. apply Inv_modify. intros s HQ. apply Q_catch_up; [done|].
  pose proof (good_refs _ _ HQ) as Hr. unfold refs in Hr. rewrite !Forall_app in Hr. destruct Hr as (_ & _ & H3).
  apply Forall_forall. intros x Hx%Hf. by apply (proj1 (Forall_forall _ _) H3).
Qed.

(** A new peer. *)
Lemma grows_snoc h info : grows h (h ++ [new_raft_node info]).
Proof.
  split.
  - rewrite length_app. lia.
  - intros r Hr. unfold peer. by rewrite app_nth1.
  - intros r Hr. unfold peer. rewrite app_nth2 by done.
    destruct (r - List.length h)%nat as [|[|k]]; done.
Qed.

Lemma make_node_good v0 info s r s' :
  Q v0 s -> make_node info s = Some (r, s') ->
  Q v0 s' /\ grows (_heap s) (_heap s') /\ good v0 (_heap s') (Codec.node_id info, r).
Proof.
  intros HQ [= <- <-]. split; [exact (quiet_grows _ _ _ (grows_snoc _ info) HQ)|].
  split; [apply grows_snoc|]. split; [right; apply (quiet_heap _ _ HQ)|].
  intros _. cbn. split; cbn; [rewrite length_app; cbn; lia|].
  unfold peer. rewrite app_nth2 by (cbn; lia). cbn. by rewrite Nat.sub_diag.
Qed.

Lemma find_or_make_good v0 nodes adds info s r s' :
  Q v0 s -> Forall (good v0 (_heap s)) nodes ->
  Forall (fun r => exists id, good v0 (_heap s) (id, r)) adds ->
  find_or_make_node nodes adds info s = Some (r, s') ->
  Q v0 s' /\ grows (_heap s) (_heap s') /\ good v0 (_heap s') (Codec.node_id info, r).
Proof.
  intros HQ Hn Ha. unfold find_or_make_node, lookup_node.
  destruct (List.find (fun x => fst x =? Codec.node_id info) nodes) as [[id r0]|] eqn:Ef; cbn.
  - apply find_some in Ef as [Hin Hid]. intros [= <- <-]. split; [done|]. split; [apply grows_refl|].
    cbn in Hid. apply Z.eqb_eq in Hid as <-. by apply (proj1 (Forall_forall _ _) Hn), list_elem_of_In.
  - unfold mbind, M_bind, gets. destruct (List.find _ adds) as [r0|] eqn:Eg; [|by apply make_node_good].
    apply find_some in Eg as [Hin Hid]. intros [= <- <-]. split; [done|]. split; [apply grows_refl|].
    apply list_elem_of_In, (proj1 (Forall_forall _ _) Ha) in Hin as (id & Hx & Hok). split; [done|].
    intros W. destruct (Hok W) as [Hl Hname]. split; [done|]. by apply Z.eqb_eq in Hid.
Qed.

(** The two loops of [update_with_node_configuration]. *)
Lemma Q_update_loop v0 nodes adds infos (put : Z -> nat -> M unit) :
  (forall id r s x s', Q v0 s -> good v0 (_heap s) (id, r) -> put id r s = Some (x, s') ->
    Q v0 s' /\ _heap s' = _heap s) ->
  forall s x s',
  Q v0 s -> Forall (good v0 (_heap s)) nodes -> Forall (fun r => exists id, good v0 (_heap s) (id, r)) adds ->
  mfor infos (fun info => r ← find_or_make_node nodes adds info; put (Codec.node_id info) r) s = Some (x, s') ->
  Q v0 s' /\ grows (_heap s) (_heap s').
Proof.
  intros Hput. induction infos as [|info infos IH]; intros s x s' HQ Hn Ha; cbn.
  - intros [= <- <-]. split; [done|apply grows_refl].
  - unfold mbind, M_bind. destruct (find_or_make_node nodes adds info s) as [[r s1]|] eqn:E1; [|done].
    destruct (find_or_make_good _ _ _ _ _ _ _ HQ Hn Ha E1) as (HQ1 & Hg1 & Hgood).
    destruct (put _ r s1) as [[y s2]|] eqn:E2; [|done].
    destruct (Hput _ _ _ _ _ HQ1 Hgood E2) as [HQ2 Hh2]. intros E3.
    assert (Hg : grows (_heap s) (_heap s2)) by by rewrite Hh2.
    destruct (IH _ _ _ HQ2 ltac:(eapply Forall_impl; [exact Hn|]; eauto using good_grows)
                ltac:(eapply Forall_impl; [exact Ha|]; intros ? [id ?]; exists id; eauto using good_grows) E3) as [HQ3 Hg3].
    split; [done|]. by eapply grows_trans.
Qed.

Lemma Q_update v0 c adds s x s' :
  Q v0 s -> Forall (fun r => exists id, good v0 (_heap s) (id, r)) adds ->
  update_with_node_configuration c adds s = Some (x, s') -> Q v0 s'.
Proof.
  intros HQ Ha. pose proof (good_refs _ _ HQ) as Hr. unfold refs in Hr. rewrite !Forall_app in Hr.
  destruct Hr as (H1 & H2 & H3). set (s1 := s <| _nodes := [] |> <| _new_nodes := [] |>).
  assert (HQ1 : Q v0 s1).
  { apply (quiet_tables v0 (view_of s) [] [] (v_catch_up (view_of s)) HQ); [done|intros; apply NoDup_nil_2..]. }
  unfold update_with_node_configuration, mbind, M_bind, gets, modify. fold s1.
  match goal with |- context [mfor (Codec._nodes c) ?f s1] => destruct (mfor (Codec._nodes c) f s1) as [[y s2]|] eqn:E1 end; [|done].
  apply (Q_update_loop v0 (_nodes s) adds _ (fun id r => modify (fun s => s <| _nodes ::= emplace id r |>))) in E1
    as [HQ2 Hg2]; [|intros id r t z t' Ht Hg [= <- <-]; split; [by apply Q_emplace_nodes|done]|done|done|done].
  intros E2.
  apply (Q_update_loop v0 (_nodes s) adds _ (fun id r => modify (fun s => s <| _new_nodes ::= emplace id r |>))) in E2
    as [HQ3 Hg3]; [done|intros id r t z t' Ht Hg [= <- <-]; split; [by apply Q_emplace_new_nodes|done]|done|..].
  - eapply Forall_impl; [exact H1|]. eauto using good_grows.
  - eapply Forall_impl; [exact Ha|]. intros ? [id ?]. exists id. eauto using good_grows.
Qed.

(** *** Control *)

Lemma kv_commit_put o k : kv_tab (kv_commit (kv_put o k)) = apply_op (kv_tab (kv_commit k)) o.
Proof. unfold kv_commit, kv_put. cbn. by rewrite foldl_app. Qed.

Definition is_plain (o : kv_op) : bool := match o with PutTerm _ | PutVoteFor _ => false | _ => true end.

Lemma Q_save v0 o : is_plain o = true -> Inv (Q v0) (save o).
Proof.
  intros Ho. apply Inv_modify. intros s [Hid Hwf Hh Hr Ht Hs Hc Hout]. split; try done.
  intros [Hk1 Hk2]%Hs. unfold saved. cbn -[kv_commit kv_put]. rewrite kv_commit_put. by destruct o.
Qed.

Lemma Q_set_identity v0 i : i <> RAFT_STATE_CANDIDATE -> Inv (Q v0) (raft_set_identity i).
Proof.
  intros Hi. apply Inv_modify. intros s [Hid Hwf Hh Hr Ht Hs Hc Hout].
  destruct (decide (i = RAFT_STATE_LEADER)); split; done.
Qed.

(** A higher term is taken by a follower. *)
Lemma raft_set_current_term_view t (s : server) x s' :
  raft_set_current_term t s = Some (x, s') ->
  x = 0 /\ (s' = s /\ t <= _current_term s \/
    _current_term s < t /\
    view_of s' = (view_of s) <| v_term := t |> <| v_voted := - 1 |> <| v_kv ::= kv_put (PutTerm t) |>).
Proof.
  unfold raft_set_current_term, mbind, M_bind, gets, when. destruct (_current_term s <? t) eqn:Et; intros [= <- <-].
  - split; [done|]. right. split; [lia|done].
  - split; [done|]. left. split; [done|lia].
Qed.

Lemma raft_become_follower_view (s : server) x s' :
  raft_become_follower E s = Some (x, s') -> view_of s' = (view_of s) <| v_identity := RAFT_STATE_FOLLOWER |>.
Proof. by intros [= <- <-]. Qed.

Lemma Q_higher {A} v0 t (F : Z -> M A) k :
  F 0 = (raft_become_follower E ;; k) -> Inv (Q v0) k -> Inv (Q v0) (raft_set_current_term t ≫= F).
Proof.
  intros HF Hk s x s' HQ. unfold mbind, M_bind.
  destruct (raft_set_current_term t s) as [[e s1]|] eqn:E1; [|done].
  apply raft_set_current_term_view in E1 as [-> Hs1]. rewrite HF. unfold mbind, M_bind.
  destruct (raft_become_follower E s1) as [[u s2]|] eqn:E2; [|done]. apply raft_become_follower_view in E2.
  intros E3. apply (Hk s2 x s'); [|done]. unfold Q. rewrite E2.
  destruct HQ as [Hid Hwf Hh Hr Ht Hs Hc Hout].
  destruct Hs1 as [[-> _]|[Hlt ->]]; [split; done|]. split; try done.
  - right. cbn. destruct Ht as [[Ht _]|[Ht _]]; cbn in Ht; split; lia.
  - intros _. unfold saved. cbn -[kv_commit kv_put]. rewrite kv_commit_put. done.
Qed.

Lemma Q_on_log {A} v0 (f : raft_log context B -> A * raft_log context B) : Inv (Q v0) (on_log f).
Proof. intros s x s' HQ. unfold on_log. destruct (f (_log s)) as [y l]. by intros [= <- <-]. Qed.

(** *** One lemma for each handler *)

Create HintDb quiet.

Ltac quiet_leaf :=
  first
    [ assumption
    | solve [auto with quiet nocore]
    | apply Inv_ret | apply Inv_fail | apply Inv_this | apply Inv_gets | apply Inv_assert | apply Q_on_log
    | solve [apply Q_set_node; intros ?; first [by split | unfold raft_node_set_lease; case_match; by split]]
    | solve [apply Q_same; reflexivity]
    | solve [apply Q_tell; exact I]
    | solve [apply Q_save; reflexivity]
    | solve [apply Q_set_identity; discriminate]
    | solve [apply Q_set_cfg; intros ?; first [reflexivity | apply list_subseteq_nil | case_match; reflexivity]] ].

Ltac quiet_step :=
  first
    [ quiet_leaf
    | apply Inv_when
    | apply Inv_mfor; intros ?
    | eapply Q_higher; [reflexivity|]
    | apply Inv_bind; [|intros ?]
    | match goal with
      | |- Inv _ (match ?x with _ => _ end) => destruct x
      | |- Inv _ (let '_ := ?x in _) => destruct x
      end ].

Ltac quiet := cbv zeta; repeat (quiet_step; cbv zeta beta).

Section handlers.
Context (v0 : view).

Abbreviation Keeps m := (Inv (Q v0) m).

Lemma Q_node r : Keeps (node r). Proof. apply Inv_gets. Qed.
Lemma Q_raft_is_self r : Keeps (raft_is_self r). Proof. unfold raft_is_self, node. quiet. Qed.
#[local] Hint Resolve Q_node Q_raft_is_self : quiet.

Lemma Q_set_commit_idx i : Keeps (raft_set_commit_idx i). Proof. unfold raft_set_commit_idx. quiet. Qed.
Lemma Q_become_follower : Keeps (raft_become_follower E).
Proof. unfold raft_become_follower, raft_randomize_election_timeout, raft_set_election_timer. quiet. Qed.
Lemma Q_set_leader i : Keeps (raft_set_current_leader i). Proof. unfold raft_set_current_leader. quiet. Qed.
Lemma Q_set_timer : Keeps (raft_set_election_timer E). Proof. unfold raft_set_election_timer. quiet. Qed.
Lemma Q_complete_ctx c x : Keeps (complete_ctx c x). Proof. destruct c; cbn; quiet. Qed.
#[local] Hint Resolve Q_set_commit_idx Q_become_follower Q_set_leader Q_set_timer Q_complete_ctx : quiet.
Lemma Q_complete_ptr c x : Keeps (complete_ptr c x). Proof. unfold complete_ptr. quiet. Qed.
Lemma Q_write_entry_finish a b x : Keeps (raft_write_entry_finish a b x). Proof. unfold raft_write_entry_finish. quiet. Qed.
Lemma Q_disk_append a b c : Keeps (raft_disk_append_entries E a b c). Proof. unfold raft_disk_append_entries. quiet. Qed.
#[local] Hint Resolve Q_complete_ptr Q_write_entry_finish Q_disk_append : quiet.

Lemma Q_update_nil c : Keeps (update_with_node_configuration c []).
Proof. intros s x s' HQ. by apply Q_update. Qed.
Lemma Q_add_configuration c : Keeps (add_node_configuration c).
Proof. unfold add_node_configuration, save_node_configuration. quiet. Qed.
Lemma Q_last_configuration : Keeps get_last_node_configuration. Proof. unfold get_last_node_configuration. quiet. Qed.
#[local] Hint Resolve Q_update_nil Q_add_configuration Q_last_configuration : quiet.
Lemma Q_truncate_by_idx i : Keeps (truncate_by_idx i).
Proof. unfold truncate_by_idx, save_node_configuration. quiet. Qed.
#[local] Hint Resolve Q_truncate_by_idx : quiet.
Lemma Q_log_truncate i c : Keeps (raft_log_truncate i c). Proof. unfold raft_log_truncate. quiet. Qed.
Lemma Q_updatet : Keeps updatet_raft_nodes_stat.
Proof.
  intros s x s' HQ. unfold updatet_raft_nodes_stat, mbind at 1, M_bind at 1, gets at 1.
  unfold mbind, M_bind. destruct (get_last_node_configuration s) as [[c s1]|] eqn:E1; [|done].
  assert (s1 = s) as ->.
  { unfold get_last_node_configuration, mbind, M_bind, gets in E1. destruct (last _); [by injection E1|done]. }
  apply Q_update; [done|]. pose proof (good_refs _ _ HQ) as Hr. unfold refs in Hr. rewrite !Forall_app in Hr.
  destruct Hr as (_ & _ & H3). apply Forall_forall. intros r (y & -> & Hy)%list_elem_of_fmap.
  exists (fst y). apply (proj1 (Forall_forall _ _) H3). unfold view_of, catch_up_refs. cbn.
  by apply (list_elem_of_fmap_2 (fun x => (fst x, snd (snd x)))).
Qed.
#[local] Hint Resolve Q_log_truncate Q_updatet : quiet.

(** Sending. *)
Lemma Q_send to a : silent (v_id v0) a -> Keeps (send E to a).
Proof. intros Ha. unfold send. destruct (connected E to); [apply Inv_bind; [by apply Q_tell|intros; apply Inv_ret]|apply Inv_ret]. Qed.
#[local] Hint Extern 1 (Inv _ (send _ _ _)) => apply Q_send; exact I : quiet.
Lemma Q_create_appendentries r i : Keeps (create_appendentries E r i). Proof. unfold create_appendentries. quiet. Qed.
Lemma Q_send_appendentries r ae : Keeps (send_appendentries E r ae). Proof. unfold send_appendentries. quiet. Qed.
#[local] Hint Resolve Q_create_appendentries Q_send_appendentries : quiet.
Lemma Q_raft_send_appendentries r a b : Keeps (raft_send_appendentries E r a b).
Proof. unfold raft_send_appendentries. quiet. Qed.
#[local] Hint Resolve Q_raft_send_appendentries : quiet.
Lemma Q_heartbeat_requests : Keeps (get_heartbeat_requests E).
Proof. unfold get_heartbeat_requests, for_all_node. quiet. Qed.
Lemma Q_timeout_now to : Keeps (raft_send_timeout_now E to). Proof. unfold raft_send_timeout_now. quiet. Qed.
#[local] Hint Resolve Q_timeout_now : quiet.

(** Followers. *)
Lemma Q_check_configuration e : Keeps (check_and_set_configuration e). Proof. unfold check_and_set_configuration. quiet. Qed.
Lemma Q_rsp n : Keeps (rsp n). Proof. unfold rsp. quiet. Qed.
#[local] Hint Resolve Q_check_configuration Q_rsp : quiet.
Lemma Q_set_rsp n f : Keeps (set_rsp n f). Proof. unfold set_rsp. quiet. Qed.
#[local] Hint Resolve Q_set_rsp : quiet.
Lemma Q_hand_error ae n x : Keeps (hand_error ae n x). Proof. unfold hand_error. quiet. Qed.
Lemma Q_append_entries es n : Keeps (append_entries es n). Proof. induction es as [|e es IH]; cbn; quiet. Qed.
#[local] Hint Resolve Q_hand_error Q_append_entries : quiet.
Lemma Q_append_entry_func ae n i : Keeps (append_entry_func E ae n i). Proof. unfold append_entry_func. quiet. Qed.
#[local] Hint Resolve Q_append_entry_func : quiet.
Lemma Q_match_entries es ae n i : Keeps (match_entries E es ae n i).
Proof. revert i. induction es as [|e es IH]; intros i; cbn; quiet; apply IH. Qed.
#[local] Hint Resolve Q_match_entries : quiet.
Lemma Q_recv_appendentries id ae n : Keeps (raft_recv_appendentries E id ae n).
Proof. unfold raft_recv_appendentries. quiet. Qed.
#[local] Hint Resolve Q_recv_appendentries : quiet.
Lemma Q_do_flush : Keeps (do_flush E). Proof. unfold do_flush. quiet. Qed.
Lemma Q_serve_append_entries ae n : Keeps (serve_append_entries ae n).
Proof. unfold serve_append_entries, enqueue. quiet. Qed.
Lemma Q_stop_buffer : Keeps stop_buffer. Proof. unfold stop_buffer. quiet. Qed.

(** Leaders. *)
Lemma Q_write_entry e c : Keeps (raft_write_entry e c). Proof. unfold raft_write_entry. quiet. Qed.
Lemma Q_clear_queue x : Keeps (clear_queue x). Proof. unfold clear_queue. quiet. Qed.
#[local] Hint Resolve Q_write_entry Q_clear_queue Q_stop_buffer : quiet.
Lemma Q_stop_flush x : Keeps (stop_flush x). Proof. unfold stop_flush, remove_entries. quiet. Qed.
Lemma Q_stop_processing x : Keeps (stop_processing_entrys x).
Proof. unfold stop_processing_entrys, remove_entries. quiet. Qed.
Lemma Q_merger n : Keeps (_static_merger_info n). Proof. unfold _static_merger_info. quiet. Qed.
#[local] Hint Resolve Q_stop_flush Q_stop_processing Q_merger : quiet.
Lemma Q_commit_funcs i id x l acc : Keeps (commit_funcs i id x l acc).
Proof. revert acc. induction l as [|r l IH]; intros acc; cbn; unfold commit_func; quiet; apply IH. Qed.
#[local] Hint Resolve Q_commit_funcs : quiet.
Lemma Q_process_commit x i id : Keeps (raft_node_process_commit x i id).
Proof. unfold raft_node_process_commit. quiet. Qed.
#[local] Hint Resolve Q_process_commit : quiet.

(** Changes of the configuration. *)
Lemma Q_set_state st : Keeps (set_state st). Proof. unfold set_state. quiet. Qed.
Lemma Q_reset_entry : Keeps reset_cfg_entry. Proof. unfold reset_cfg_entry. quiet. Qed.
Lemma Q_reset_complete : Keeps reset_cfg_entry_complete. Proof. unfold reset_cfg_entry_complete. quiet. Qed.
#[local] Hint Resolve Q_set_state Q_reset_entry Q_reset_complete : quiet.
Lemma Q_finish_func x : Keeps (finish_func x). Proof. unfold finish_func, get_node_ids. quiet. Qed.
Lemma Q_step_down i : Keeps (raft_step_down E i). Proof. unfold raft_step_down. quiet. Qed.
Lemma Q_change_num e : Keeps (get_change_num e). Proof. unfold get_change_num. quiet. Qed.
Lemma Q_process_cfg_change st e : Keeps (process_cfg_change st e). Proof. unfold process_cfg_change. quiet. Qed.
Lemma Q_create_cfg_entry : Keeps create_cfg_entry. Proof. unfold create_cfg_entry. quiet. Qed.
Lemma Q_count_failure c id : Keeps (count_failure c id). Proof. unfold count_failure. quiet. Qed.
Lemma Q_count_match c id : Keeps (count_match c id). Proof. unfold count_match. quiet. Qed.
#[local] Hint Resolve Q_finish_func Q_step_down Q_change_num Q_process_cfg_change Q_create_cfg_entry Q_count_failure Q_count_match : quiet.

Lemma Q_set_caught_up id :
  Keeps (set_cfg (fun m => m <| _catch_up_nodes ::= fmap (fun x => if fst x =? id then (fst x, (true, snd (snd x))) else x) |>)).
Proof.
  apply Q_set_cfg. intros m. unfold catch_up_refs. cbn. intros x. rewrite <- list_fmap_compose.
  rewrite (list_fmap_ext _ (fun x => (fst x, snd (snd x)))); [done|].
  intros i [k [b r]] _. cbn. by destruct (k =? id).
Qed.
#[local] Hint Resolve Q_set_caught_up : quiet.
Lemma Q_catching_up x id : Keeps (cfg_catching_up x id). Proof. unfold cfg_catching_up. quiet. Qed.
Lemma Q_joint x i id : Keeps (cfg_joint x i id).
Proof. unfold cfg_joint. quiet. Qed.
Lemma Q_update_new x i id : Keeps (cfg_update_new E x i id).
Proof. unfold cfg_update_new. quiet. Qed.
#[local] Hint Resolve Q_catching_up Q_joint Q_update_new : quiet.
Lemma Q_cfg_change x i r : Keeps (cfg_change_process E x i r). Proof. unfold cfg_change_process. quiet. Qed.
#[local] Hint Resolve Q_cfg_change : quiet.

(** Recovery and answers. *)
Lemma Q_do_recovery r : Keeps (do_recovery E r). Proof. unfold do_recovery, _recovery_by_snapshot. quiet. Qed.
Lemma Q_send_recovery id es x : Keeps (send_recovery_entries E id es x).
Proof. unfold send_recovery_entries, raft_get_cfg_node. quiet. Qed.
Lemma Q_recovering r b : Keeps (set_recovering r b). Proof. unfold set_recovering. quiet. Qed.
Lemma Q_is_cfg_change r : Keeps (node_is_cfg_change_process r). Proof. unfold node_is_cfg_change_process. quiet. Qed.
#[local] Hint Resolve Q_do_recovery Q_send_recovery Q_recovering Q_is_cfg_change : quiet.
Lemma Q_change_check r x i : Keeps (cfg_change_check E r x i). Proof. unfold cfg_change_check. quiet. Qed.
#[local] Hint Resolve Q_change_check : quiet.
Lemma Q_dispatch_recovery r : Keeps (dispatch_recovery E r). Proof. unfold dispatch_recovery. quiet. Qed.
#[local] Hint Resolve Q_dispatch_recovery : quiet.
Lemma Q_process_response i r x e : Keeps (process_response E i r x e). Proof. unfold process_response. quiet. Qed.
#[local] Hint Resolve Q_process_response : quiet.
Lemma Q_appendentries_reply r b : Keeps (raft_process_appendentries_reply E r b).
Proof. unfold raft_process_appendentries_reply, raft_get_cfg_node. quiet. Qed.
Lemma Q_appendentries_failed id : Keeps (appendentries_failed id).
Proof. unfold appendentries_failed, raft_get_cfg_node. quiet. Qed.

(** Flushing. *)
Lemma Q_queue_flush : Keeps entry_queue_flush. Proof. unfold entry_queue_flush. quiet. Qed.
Lemma Q_send_to_peer a b r : Keeps (send_to_peer E a b r). Proof. unfold send_to_peer. quiet. Qed.
#[local] Hint Resolve Q_queue_flush Q_send_to_peer : quiet.
Lemma Q_conf_change_configuration e : Keeps (process_conf_change_configuration E e).
Proof. unfold process_conf_change_configuration, raft_get_cfg_node. quiet. Qed.
Lemma Q_add_catch_up info : Keeps (r ← make_node info; set_cfg (fun m => m <| _catch_up_nodes ::= emplace (Codec.node_id info) (false, r) |>)).
Proof.
  intros s x s' HQ. unfold mbind, M_bind. destruct (make_node info s) as [[r s1]|] eqn:E1; [|done].
  destruct (make_node_good _ _ _ _ _ HQ E1) as (HQ1 & _ & Hgood). intros E2.
  set (f m := m <| _catch_up_nodes ::= emplace (Codec.node_id info) (false, r) |>).
  assert (s' = s1 <| _configuration_manager ::= f |>) as -> by by injection E2.
  apply Q_catch_up; [done|]. pose proof (good_refs _ _ HQ1) as Hr. unfold refs in Hr. rewrite !Forall_app in Hr.
  destruct Hr as (_ & _ & H3). apply Forall_forall. intros y (z & -> & Hz)%list_elem_of_fmap. cbn in Hz.
  apply emplace_elem in Hz as [->|Hz]; [done|]. apply (proj1 (Forall_forall _ _) H3).
  by apply (list_elem_of_fmap_2 (fun x => (fst x, snd (snd x)))).
Qed.
#[local] Hint Resolve Q_conf_change_configuration Q_add_catch_up : quiet.
Lemma Q_add_nonvoting e : Keeps (process_conf_change_add_nonvoting E e).
Proof. unfold process_conf_change_add_nonvoting. quiet. Qed.
Lemma Q_create_pg_done r i x : Keeps (create_pg_done E r i x). Proof. unfold create_pg_done. quiet. Qed.
#[local] Hint Resolve Q_add_nonvoting : quiet.
Lemma Q_conf_change_entry e : Keeps (process_conf_change_entry E e). Proof. unfold process_conf_change_entry. quiet. Qed.
#[local] Hint Resolve Q_conf_change_entry : quiet.
Lemma Q_flush_turns n : Keeps (flush_turns E n).
Proof. induction n as [|n IH]; cbn; [apply Inv_fail|]. unfold flush_turn, for_all_node. quiet. Qed.
#[local] Hint Resolve Q_flush_turns : quiet.
Lemma Q_task_func : Keeps (raft_task_func E). Proof. unfold raft_task_func, raft_flush. quiet. Qed.
Lemma Q_disk_done c x : Keeps (disk_done E c x).
Proof. unfold disk_done, raft_get_cfg_node. quiet. Qed.

(** Members. *)
Lemma Q_configuration_entry e c : Keeps (raft_configuration_entry e c).
Proof. unfold raft_configuration_entry. quiet. Qed.
#[local] Hint Resolve Q_configuration_entry : quiet.
Lemma Q_change_pg_membership l c : Keeps (change_pg_membership l c).
Proof.
  unfold change_pg_membership, change_raft_membership, add_raft_membership, remove_raft_membership. quiet.
Qed.
Lemma Q_active : Keeps active_raft.
Proof. apply Q_same. intros s. by destruct (decide _). Qed.
Lemma Q_stop : Keeps stop. Proof. unfold stop. quiet. Qed.

End handlers.

End keeping.

End RaftFrame.
