(* ===== verification/RaftElection.v ===== *)
(** * Elections of a placement group (src/raft)

    Servers, the requests and answers of votes between them, and the leaders that they
    announce. *)

From stdpp Require Import list gmap relations.
From S2P Require Import Prelude Wire Codec RollingBlob DiskLog RaftLog Raft RaftFrame.
Import (hints) RollingBlob.
Import (hints) RaftLog.
Import (hints) Raft.
Import (hints) RaftFrame.

Module RaftElection.
Import RaftLog Raft RaftFrame.

Section elections.
Context `{RollingBlob.BlobIo B} `{ConfigCodec} (E : env).

Abbreviation server := (raft_server_t B).
Abbreviation M := (Raft.M B).

(** ** Handlers that have a part in an election *)

Definition has_vote (h : list raft_node) (x : Z * nat) : bool := raft_node_has_vote_for_me (peer h (snd x)).

(** Why a server may count the vote of [id] at [v'], when it was at [v] before: it
    counted it then, it is its own, or it is in the answer that arrived. *)
Definition backs (extra : Z -> Prop) (v v' : view) (id : Z) : Prop :=
  (v_term v' = v_term v /\ v_identity v = RAFT_STATE_CANDIDATE /\ v_prevote v = 0 /\
   exists x, x ∈ refs v /\ fst x = id /\ has_vote (v_heap v) x = true)
  \/ (id = v_id v /\ v_voted v' = v_id v)
  \/ (v_term v' = v_term v /\ extra id).

Definition quorum (l : list Z) (P : Z -> Prop) : Prop :=
  NoDup l /\ exists q, NoDup q /\ q ⊆ l /\ (List.length l < 2 * List.length q)%nat /\ forall id, id ∈ q -> P id.

Definition announced (P : Z -> Prop) (me : Z) (a : action) : Prop :=
  match a with
  | NotifyLeader leader osds new_osds => leader = me /\ quorum osds P /\ (new_osds <> [] -> quorum new_osds P)
  | _ => silent me a
  end.

Record turn (extra : Z -> Prop) (v v' : view) : Prop := {
  turn_id : v_id v' = v_id v;
  turn_wf : wf v';
  turn_saved : saved v -> saved v';
  turn_term : v_term v <= v_term v' /\ (v_term v' = v_term v -> v_voted v' = v_voted v \/ v_voted v = - 1);
  turn_votes : v_identity v' = RAFT_STATE_CANDIDATE -> v_prevote v' = 0 ->
    forall x, x ∈ refs v' -> has_vote (v_heap v') x = true -> backs extra v v' (fst x);
  turn_out : exists l, v_out v' = v_out v ++ l /\ Forall (announced (backs extra v v') (v_id v)) l;
}.

Lemma silent_announced P me a : silent me a -> announced P me a.
Proof. by destruct a. Qed.

Lemma wf_name v x : wf v -> x ∈ refs v -> ref_ok (v_heap v) x.
Proof. intros [Hr _ _] Hx. by apply (proj1 (Forall_forall _ _) Hr). Qed.

Lemma quiet_turn extra v v' : wf v -> quiet v v' -> turn extra v v'.
Proof.
  intros W Hq. pose proof (quiet_wf _ _ Hq W) as W'. destruct (quiet_heap _ _ Hq) as [_ Ho Hn].
  split; try apply Hq; auto.
  - destruct (quiet_term _ _ Hq) as [[-> ->]|[Hlt ->]]; [split; [lia|auto]|]. split; [lia|]. intros Heq. lia.
  - intros Hc Hp0 x Hx Hv. destruct (quiet_candidate _ _ Hq Hc) as (Hc0 & Hp & Ht). left.
    split; [done|]. split; [done|]. rewrite <- Hp. split; [done|]. unfold has_vote, raft_node_has_vote_for_me in *.
    destruct (proj1 (Forall_forall _ _) (quiet_refs _ _ Hq) _ Hx) as [Hr|Hr]; [|by rewrite (Hn _ Hr) in Hv].
    apply list_elem_of_fmap in Hr as (y & Hxy & Hy). exists y.
    destruct (wf_name _ _ W Hy) as [Hl Hname]. destruct (wf_name _ _ W' Hx) as [_ Hname'].
    rewrite <- Hxy in Hl, Hname |- *. destruct (Ho _ Hl) as [Hf Hi].
    split; [done|]. split; [unfold raft_node_get_id in *; congruence|]. by rewrite <- Hf.
  - destruct (quiet_out _ _ Hq) as (l & Hl & Hf). exists l. split; [done|].
    eapply Forall_impl; [exact Hf|]. intros a. apply silent_announced.
Qed.

(** *** Counting *)

Lemma NoDup_map_filter {A} (l : list (Z * A)) (g : Z * A -> bool) :
  NoDup l.*1 -> NoDup (List.filter g l).*1.
Proof.
  induction l as [|x l IH]; cbn; [done|]. intros [Hx Hl]%NoDup_cons. destruct (g x); [|auto].
  cbn. apply NoDup_cons. split; [|auto]. intros (y & Hy & Hin)%list_elem_of_fmap. apply Hx.
  rewrite Hy. apply list_elem_of_fmap_2. apply list_elem_of_In. apply list_elem_of_In, filter_In in Hin. tauto.
Qed.

(** More than half of the peers of a table. *)
Lemma count_quorum h (l : list (Z * nat)) (P : Z -> Prop) :
  NoDup l.*1 -> (forall x, x ∈ l -> has_vote h x = true -> P (fst x)) ->
  Z.of_nat (List.length l) / 2 + 1 <= count_if (has_vote h) l -> quorum l.*1 P.
Proof.
  intros Hl HP Hc. unfold count_if in Hc. split; [done|]. exists (List.filter (has_vote h) l).*1.
  split; [by apply NoDup_map_filter|]. split; [|split].
  - intros id (x & -> & Hx)%list_elem_of_fmap. apply list_elem_of_In, filter_In in Hx as [Hx _].
    by apply list_elem_of_fmap_2, list_elem_of_In.
  - rewrite !length_fmap. pose proof (Z.mod_pos_bound (Z.of_nat (List.length l)) 2).
    pose proof (Z.div_mod (Z.of_nat (List.length l)) 2). lia.
  - intros id (x & -> & Hx)%list_elem_of_fmap. apply list_elem_of_In, filter_In in Hx as [Hx Hv].
    apply HP; [by apply list_elem_of_In|done].
Qed.

Lemma majority_quorums (s : server) (P : Z -> Prop) :
  wf (view_of s) -> (forall x, x ∈ refs (view_of s) -> has_vote (_heap s) x = true -> P (fst x)) ->
  raft_votes_is_majority (raft_get_num_voting_nodes s) (raft_get_nvotes_for_me s) = true ->
  quorum (_nodes s).*1 P /\ ((_new_nodes s).*1 <> [] -> quorum (_new_nodes s).*1 P).
Proof.
  intros [_ Hn Hn'] HP. unfold raft_votes_is_majority, raft_get_num_voting_nodes, raft_get_nvotes_for_me.
  destruct (_ || _); [done|]. intros [H1 H2]%andb_true_iff. split.
  - apply (count_quorum (_heap s)); [done| |by apply Z.leb_le]. intros x Hx. apply HP. unfold refs. set_solver.
  - intros Hne. apply orb_true_iff in H2 as [H2|H2].
    + apply Z.eqb_eq in H2. by destruct (_new_nodes s).
    + apply (count_quorum (_heap s)); [done| |by apply Z.leb_le]. intros x Hx. apply HP. unfold refs. set_solver.
Qed.

(** *** Sending leaves tables and votes as they are *)

Definition ballot (n : raft_node) : Z * Codec.raft_node_info := (_flags n, _info n).

Definition calm (v0 v : view) : Prop :=
  exists h o, v = v0 <| v_heap := h |> <| v_out ::= fun l => l ++ o |> /\ ballot <$> h = ballot <$> v_heap v0 /\
    Forall (silent (v_id v0)) o.

Definition C (v0 : view) (leader : Z) (s : server) : Prop := calm v0 (view_of s) /\ _leader_id s = leader.

Lemma calm_refl v : calm v v.
Proof. exists (v_heap v), []. split; [|done]. destruct v. cbn. by rewrite app_nil_r. Qed.

Lemma ballot_peer h h' r : ballot <$> h' = ballot <$> h -> ballot (peer h' r) = ballot (peer h r).
Proof. intros Hb. unfold peer. rewrite <- !(map_nth ballot). change (map ballot ?l) with (ballot <$> l). by rewrite Hb. Qed.

Lemma C_modify v0 L f :
  (forall s, view_of (f s) = view_of s /\ _leader_id (f s) = _leader_id s) -> Inv (C v0 L) (modify f).
Proof. intros Hf. apply Inv_modify. intros s Hs. unfold C. destruct (Hf s) as [-> ->]. done. Qed.

Lemma C_tell v0 L a : silent (v_id v0) a -> Inv (C v0 L) (tell a).
Proof.
  intros Ha. apply Inv_modify. intros s [(h & o & Hv & Hh & Ho) HL]. split; [|done]. exists h, (o ++ [a]).
  split; [|split; [done|]].
  - change (view_of (s <| _out ::= fun l => l ++ [a] |>)) with ((view_of s) <| v_out ::= fun l => l ++ [a] |>).
    rewrite Hv. cbn. by rewrite app_assoc.
  - apply Forall_app. auto.
Qed.

Lemma ballot_alter f r (h : list raft_node) : (forall n, ballot (f n) = ballot n) -> ballot <$> alter f r h = ballot <$> h.
Proof.
  intros Hf. apply list_eq. intros i. rewrite !list_lookup_fmap. destruct (decide (r = i)) as [->|Hne].
  - rewrite list_lookup_alter_eq. destruct (h !! i); cbn; [by rewrite Hf|done].
  - by rewrite list_lookup_alter_ne.
Qed.

Lemma C_set_node v0 L r f : (forall n, ballot (f n) = ballot n) -> Inv (C v0 L) (set_node r f).
Proof.
  intros Hf. apply Inv_modify. intros s [(h & o & Hv & Hh & Ho) HL]. split; [|done]. exists (alter f r h), o.
  split; [|split; [by rewrite ballot_alter|done]].
  change (view_of (s <| _heap ::= alter f r |>)) with ((view_of s) <| v_heap ::= alter f r |>). by rewrite Hv.
Qed.

Create HintDb calm.

Ltac calm_step :=
  first
    [ assumption | solve [auto with calm nocore]
    | apply Inv_ret | apply Inv_fail | apply Inv_this | apply Inv_gets | apply Inv_assert
    | solve [apply C_set_node; reflexivity] | solve [apply C_modify; by split] | solve [apply C_tell; exact I]
    | apply Inv_when | apply Inv_mfor; intros ? | apply Inv_bind; [|intros ?]
    | match goal with |- Inv _ (match ?x with _ => _ end) => destruct x end ].

Ltac calm := cbv zeta; repeat (calm_step; cbv zeta beta).

Lemma C_is_self v0 L r : Inv (C v0 L) (raft_is_self r). Proof. unfold raft_is_self, node. calm. Qed.
#[local] Hint Resolve C_is_self : calm.

Lemma C_raft_send_appendentries v0 L r a b : Inv (C v0 L) (raft_send_appendentries E r a b).
Proof.
  unfold raft_send_appendentries, create_appendentries, send_appendentries, raft_set_election_timer, node, send. calm.
Qed.
#[local] Hint Resolve C_raft_send_appendentries : calm.

Lemma C_send_requestvote v0 L r : Inv (C v0 L) (raft_send_requestvote E r).
Proof.
  unfold raft_send_requestvote. do 3 (apply Inv_bind; [unfold node; calm|intros ?]).
  intros s x' s' HC. unfold mbind at 1, M_bind at 1, this.
  assert (Hid : _node_id s = v_id v0) by (destruct HC as [(h & o & Hv & _) _]; exact (f_equal v_id Hv)).
  match goal with |- ?m s = _ -> _ => cut (Inv (C v0 L) m); [intros Hi; exact (Hi s x' s' HC)|] end.
  cbv zeta. apply Inv_bind; [calm|intros ?]. apply Inv_bind; [|intros ?; calm].
  unfold send. destruct (connected E _); [|calm]. apply Inv_bind; [|intros ?; calm]. by apply C_tell.
Qed.
#[local] Hint Resolve C_send_requestvote : calm.

Lemma C_request_votes v0 L : Inv (C v0 L) (request_votes E).
Proof. unfold request_votes, for_all_node. calm. Qed.

Definition now_leader (v : view) : view := v <| v_identity := RAFT_STATE_LEADER |>.

Definition notice (s : server) : action := NotifyLeader (_node_id s) (_nodes s).*1 (_new_nodes s).*1.

(** What holds at the end of a handler that keeps [P] until its last step. *)
Definition Ends {A} (P : server -> Prop) (m : M A) (R : server -> Prop) : Prop :=
  forall s x s', P s -> m s = Some (x, s') -> R s'.

Lemma Ends_bind {A A'} P (m : M A) (k : A -> M A') R :
  Inv P m -> (forall x, Ends P (k x) R) -> Ends P (m ≫= k) R.
Proof.
  intros Hm Hk s y s' HP. unfold mbind, M_bind. destruct (m s) as [[x s1]|] eqn:E1; [|done].
  apply Hk. by eapply Hm.
Qed.

Lemma become_leader_view s x s' :
  raft_become_leader E s = Some (x, s') ->
  exists v, calm (now_leader (view_of s)) v /\ view_of s' = v <| v_out ::= fun l => l ++ [notice s] |>.
Proof.
  unfold raft_become_leader. set (s1 := s <| _leader_id := _node_id s |> <| _identity := RAFT_STATE_LEADER |>).
  unfold mbind at 1, M_bind at 1. change (raft_set_identity RAFT_STATE_LEADER s) with (Some (tt, s1)). cbv iota beta.
  assert (HC : C (now_leader (view_of s)) (_node_id s) s1) by (split; [apply calm_refl|done]).
  clearbody s1. revert HC. revert s1 x s'.
  match goal with |- forall s1 x s', _ -> ?m s1 = _ -> ?R => change (Ends (C (now_leader (view_of s)) (_node_id s)) m
    (fun s' => exists v, calm (now_leader (view_of s)) v /\ view_of s' = v <| v_out ::= fun l => l ++ [notice s] |>)) end.
  apply Ends_bind; [unfold raft_set_election_timer; calm|intros _].
  apply Ends_bind; [calm|intros idx].
  apply Ends_bind; [calm|intros _].
  apply Ends_bind; [unfold raft_set_commit_idx; calm|intros _].
  apply Ends_bind; [unfold for_all_node; calm|intros _].
  intros t x t' [Ht HL] Et. exists (view_of t). split; [done|].
  unfold _send_leader_be_elected_notify, get_node_ids, get_new_node_ids, mbind, M_bind, gets, tell, modify in Et.
  assert (t' = t <| _out ::= fun l => l ++ [NotifyLeader (_leader_id t) (_nodes t).*1 (_new_nodes t).*1] |>) as ->
    by by injection Et.
  destruct Ht as (h & o & Hv & _). unfold notice. rewrite HL.
  pose proof (f_equal v_nodes Hv) as Hn. pose proof (f_equal v_new_nodes Hv) as Hn'. cbn in Hn, Hn'. by rewrite Hn, Hn'.
Qed.

(** *** The votes of a new candidate *)

Lemma has_vote_set b n : raft_node_has_vote_for_me (raft_node_vote_for_me b n) = b.
Proof.
  unfold raft_node_has_vote_for_me, raft_node_vote_for_me, RAFT_NODE_VOTED_FOR_ME, truthy. cbn. destruct b.
  - rewrite Z.land_lor_distr_l. change (Z.land 1 1) with 1.
    destruct (Z.eqb_spec (Z.lor (Z.land (_flags n) 1) 1) 0) as [Hz|]; [|done].
    apply Z.lor_eq_0_iff in Hz. lia.
  - by rewrite Z.land_ldiff.
Qed.

Definition self_only (me : Z) (h : list raft_node) (r : nat) : Prop :=
  raft_node_has_vote_for_me (peer h r) = (raft_node_get_id (peer h r) =? me).

Lemma info_name h h' r : _info <$> h' = _info <$> h -> raft_node_get_id (peer h' r) = raft_node_get_id (peer h r).
Proof.
  intros Hb. unfold peer, raft_node_get_id. rewrite <- !(map_nth _info).
  change (map _info ?l) with (_info <$> l). by rewrite Hb.
Qed.

Lemma vote_loop (l : list nat) (s : server) x s' :
  mfor l (fun r => self ← raft_is_self r; set_node r (raft_node_vote_for_me self)) s = Some (x, s') ->
  exists h, view_of s' = (view_of s) <| v_heap := h |> /\ _info <$> h = _info <$> _heap s /\
    (forall r, r ∈ l -> (r < List.length (_heap s))%nat -> self_only (_node_id s) h r) /\
    (forall r, r ∉ l -> peer h r = peer (_heap s) r).
Proof.
  revert s x s'. induction l as [|r0 l IH]; intros s x s'.
  { intros [= <- <-]. exists (_heap s). split; [done|]. split; [done|]. split; [|done]. intros r Hr. by apply not_elem_of_nil in Hr. }
  set (b := raft_node_get_id (peer (_heap s) r0) =? _node_id s).
  set (s1 := s <| _heap ::= alter (raft_node_vote_for_me b) r0 |>).
  change (mfor (r0 :: l) ?f s) with (mfor l f s1). intros (h & Hv & Hi & Hin & Hout)%IH.
  assert (Hi1 : _info <$> _heap s1 = _info <$> _heap s).
  { apply list_eq. intros i. rewrite !list_lookup_fmap. unfold s1. cbn. destruct (decide (r0 = i)) as [->|Hne].
    - rewrite list_lookup_alter_eq. by destruct (_heap s !! i).
    - by rewrite list_lookup_alter_ne. }
  exists h. split; [done|]. split; [by rewrite Hi|].
  assert (Hlen : List.length (_heap s1) = List.length (_heap s)) by (unfold s1; cbn; by rewrite length_alter).
  split.
  - intros r Hr Hlt. destruct (decide (r ∈ l)) as [Hl|Hl]; [apply Hin; [done|by rewrite Hlen]|].
    assert (r = r0) as -> by set_solver. unfold self_only. rewrite (info_name (_heap s) h) by by rewrite Hi.
    rewrite Hout by done. unfold s1, peer at 1. cbn. rewrite nth_lookup, list_lookup_alter_eq.
    destruct (_heap s !! r0) as [n|] eqn:En; [|apply lookup_ge_None in En; lia]. cbn. rewrite has_vote_set. done.
  - intros r Hr. rewrite Hout by set_solver. unfold s1, peer. cbn. rewrite !nth_lookup.
    by rewrite list_lookup_alter_ne by set_solver.
Qed.

Lemma vote_for_self_view (s : server) x s' :
  vote_for_self s = Some (x, s') ->
  exists h, view_of s' = (view_of s) <| v_heap := h |> /\ _info <$> h = _info <$> _heap s /\
    (forall r, r ∈ (_nodes s ++ _new_nodes s).*2 -> (r < List.length (_heap s))%nat -> self_only (_node_id s) h r).
Proof.
  unfold vote_for_self, for_all_node, mbind, M_bind, gets.
  match goal with |- context [mfor (_nodes s).*2 ?f s] => destruct (mfor (_nodes s).*2 f s) as [[u s1]|] eqn:E1 end; [|done].
  apply vote_loop in E1 as (h1 & Hv1 & Hi1 & Hin1 & Hout1). intros (h2 & Hv2 & Hi2 & Hin2 & Hout2)%vote_loop.
  pose proof (f_equal v_heap Hv1) as Hh1. pose proof (f_equal v_id Hv1) as Hid1. cbn in Hh1, Hid1.
  assert (Hlen : List.length h1 = List.length (_heap s)) by (by rewrite <- !(length_fmap _info), Hi1).
  rewrite Hh1, Hid1 in *. exists h2. split; [by rewrite Hv2, Hv1|]. split; [by rewrite Hi2|].
  intros r Hr Hlt. destruct (decide (r ∈ (_new_nodes s).*2)) as [Hn|Hn].
  - apply Hin2; [done|]. by rewrite Hlen.
  - unfold self_only. rewrite (Hout2 _ Hn). apply Hin1; [|done]. rewrite fmap_app in Hr. set_solver.
Qed.

(** *** Turns are kept by what follows *)

Lemma backs_ext extra v v1 v2 id :
  v_term v2 = v_term v1 -> v_voted v2 = v_voted v1 -> backs extra v v1 id -> backs extra v v2 id.
Proof. intros Ht Hv. unfold backs. by rewrite Ht, Hv. Qed.

Lemma announced_impl (P P' : Z -> Prop) me a : (forall id, P id -> P' id) -> announced P me a -> announced P' me a.
Proof.
  intros HP. assert (Hq : forall l, quorum l P -> quorum l P').
  { intros l [Hl (q & H1 & H2 & H3 & H4)]. split; [done|]. exists q. split_and!; auto. }
  destruct a; try done. cbn. intros (-> & H1 & H2). auto.
Qed.

Lemma calm_wf v v' : calm v v' -> wf v -> wf v'.
Proof.
  intros (h & o & -> & Hh & _) [Hr Hn Hn']. split; [|done|done]. eapply Forall_impl; [exact Hr|].
  intros x [Hl Hname]. cbn. split.
  - by rewrite <- (length_fmap ballot), Hh, length_fmap.
  - pose proof (ballot_peer _ _ (snd x) Hh) as Hb. unfold raft_node_get_id in *. unfold ballot in Hb. congruence.
Qed.

Lemma turn_calm extra v v1 v2 : turn extra v v1 -> calm v1 v2 -> turn extra v v2.
Proof.
  intros [Hid Hwf Hs Ht Hv (l & Hl & Hf)] Hc. pose proof (calm_wf _ _ Hc Hwf) as Hwf2.
  destruct Hc as (h & o & -> & Hh & Ho). split; try done.
  - intros Hi Hp x Hx Hvote. apply (backs_ext _ _ v1); [done|done|]. apply Hv; try done.
    unfold has_vote, raft_node_has_vote_for_me in *. pose proof (ballot_peer _ _ (snd x) Hh) as Hb.
    apply (f_equal fst) in Hb. cbn in Hb. rewrite <- Hb. exact Hvote.
  - exists (l ++ o). cbn. rewrite Hl, app_assoc. split; [done|]. apply Forall_app. split.
    + eapply Forall_impl; [exact Hf|]. intros a. apply announced_impl. intros id. by apply backs_ext.
    + eapply Forall_impl; [exact Ho|]. intros a Ha. apply silent_announced. by rewrite <- Hid.
Qed.

Lemma turn_leader extra v (s : server) x s' :
  turn extra v (view_of s) -> _identity s = RAFT_STATE_CANDIDATE -> _prevote s = 0 ->
  raft_votes_is_majority (raft_get_num_voting_nodes s) (raft_get_nvotes_for_me s) = true ->
  raft_become_leader E s = Some (x, s') -> turn extra v (view_of s').
Proof.
  intros Ht Hi Hp Hm (v2 & Hc & ->)%become_leader_view.
  assert (Ht2 : turn extra v v2).
  { eapply turn_calm; [|exact Hc]. destruct Ht as [? ? ? ? ? ?]. by split. }
  destruct (majority_quorums s (backs extra v (view_of s)) (turn_wf _ _ _ Ht) (turn_votes _ _ _ Ht Hi Hp) Hm) as [Hq1 Hq2].
  assert (Hsame : forall id, backs extra v (view_of s) id -> backs extra v v2 id).
  { intros id. destruct Hc as (h & o & -> & _). by apply backs_ext. }
  destruct Ht2 as [Hid Hwf Hs Hterm Hv (l & Hl & Hf)]. split; try done.
  exists (l ++ [notice s]). cbn. rewrite Hl, app_assoc. split; [done|]. apply Forall_app. split; [done|].
  apply Forall_singleton. apply (announced_impl _ _ _ _ Hsame). unfold notice. cbn.
  split; [exact (turn_id _ _ _ Ht)|done].
Qed.

(** The state in which a candidate that won the first round asks for votes: a term
    later, with a vote for itself. *)
Definition second_round (h : list raft_node) (v : view) : view :=
  v <| v_term ::= Z.add 1 |> <| v_voted := v_id v |>
    <| v_kv ::= fun k => kv_put (PutVoteFor (v_id v)) (kv_put (PutTerm (1 + v_term v)) k) |>
    <| v_prevote := 0 |> <| v_heap := h |>.

Lemma become_prevoted_view (count : M Z) (s : server) x s' :
  become_prevoted_candidate E count s = Some (x, s') ->
  exists h s1 y, _info <$> h = _info <$> _heap s /\
    (forall r, r ∈ (_nodes s ++ _new_nodes s).*2 -> (r < List.length (_heap s))%nat -> self_only (_node_id s) h r) /\
    calm (second_round h (view_of s)) (view_of s1) /\ count s1 = Some (y, s').
Proof.
  unfold become_prevoted_candidate, mbind at 1, M_bind at 1, gets at 1. unfold mbind at 1, M_bind at 1.
  destruct (raft_set_current_term (_current_term s + 1) s) as [[e s1]|] eqn:E1; [|done].
  apply raft_set_current_term_view in E1 as [-> [[_ Hbad]|[_ Hv1]]]; [lia|]. cbn [negb Z.eqb].
  unfold mbind at 1, M_bind at 1. destruct (vote_for_self s1) as [[u s2]|] eqn:E2; [|done].
  apply vote_for_self_view in E2 as (h & Hv2 & Hi & Hself). unfold mbind at 1, M_bind at 1, gets at 1.
  unfold mbind at 1, M_bind at 1. 
  set (s3 := s2 <| _kv ::= kv_put (PutVoteFor (_node_id s2)) |> <| _voted_for := _node_id s2 |>).
  change (raft_vote_for_nodeid (_node_id s2) s2) with (Some (0, s3)). cbv iota beta. cbn [negb Z.eqb].
  set (s4 := s3 <| _prevote := 0 |>). unfold mbind at 1, M_bind at 1.
  change (modify (fun s => s <| _prevote := 0 |>) s3) with (Some (tt, s4)). cbv iota beta.
  unfold mbind at 1, M_bind at 1. destruct (request_votes E s4) as [[w s5]|] eqn:E5; [|done].
  intros E6. exists h, s5, x.
  pose proof (f_equal v_heap Hv1) as Hh1. pose proof (f_equal v_nodes Hv1) as Hn1.
  pose proof (f_equal v_new_nodes Hv1) as Hn1'. pose proof (f_equal v_id Hv1) as Hid1. cbn in Hh1, Hn1, Hn1', Hid1.
  rewrite Hh1, Hn1, Hn1', Hid1 in *. split; [done|]. split; [done|]. split; [|done].
  assert (Hv4 : view_of s4 = second_round h (view_of s)).
  { unfold s4, s3. change (view_of (s2 <| _kv ::= kv_put (PutVoteFor (_node_id s2)) |> <| _voted_for := _node_id s2 |> <| _prevote := 0 |>))
      with ((view_of s2) <| v_kv ::= kv_put (PutVoteFor (v_id (view_of s2))) |> <| v_voted := v_id (view_of s2) |> <| v_prevote := 0 |>).
    rewrite Hv2, Hv1. unfold second_round. cbn -[Z.add]. by rewrite (Z.add_comm 1). }
  rewrite <- Hv4. apply (C_request_votes (view_of s4) (_leader_id s4) s4 w s5); [|done].
  split; [apply calm_refl|done].
Qed.

Lemma wf_infos v h : _info <$> h = _info <$> v_heap v -> wf v -> wf (v <| v_heap := h |>).
Proof.
  intros Hi [Hr Hn Hn']. split; [|done|done]. eapply Forall_impl; [exact Hr|]. intros x [Hl Hname]. cbn. split.
  - by rewrite <- (length_fmap _info), Hi, length_fmap.
  - rewrite <- Hname. by apply info_name.
Qed.

Definition unannounced (v v' : view) : Prop := exists l, v_out v' = v_out v ++ l /\ Forall (silent (v_id v)) l.

Lemma unannounced_calm v v1 v2 : v_id v1 = v_id v -> unannounced v v1 -> calm v1 v2 -> unannounced v v2.
Proof.
  intros Hid (l & Hl & Hf) (h & o & -> & _ & Ho). exists (l ++ o). cbn. rewrite Hl, app_assoc.
  split; [done|]. apply Forall_app. split; [done|]. by rewrite <- Hid.
Qed.

Lemma turn_second extra v (s : server) h :
  turn extra v (view_of s) -> unannounced v (view_of s) -> v_catch_up (view_of s) = [] -> _info <$> h = _info <$> _heap s ->
  (forall r, r ∈ (_nodes s ++ _new_nodes s).*2 -> (r < List.length (_heap s))%nat -> self_only (_node_id s) h r) ->
  turn extra v (second_round h (view_of s)).
Proof.
  intros [Hid Hwf Hs Ht Hv _] Ho Hc Hi Hself. split; try done.
  - exact (wf_infos (view_of s) h Hi Hwf).
  - intros _. unfold saved. cbn -[kv_commit kv_put]. by rewrite !kv_commit_put.
  - cbn in *. split; [lia|]. intros Heq. lia.
  - intros _ _ x Hx Hvote. right. left. cbn in Hid |- *.
    assert (Hx' : x ∈ _nodes s ++ _new_nodes s).
    { change (refs (second_round h (view_of s))) with (_nodes s ++ _new_nodes s ++ v_catch_up (view_of s)) in Hx.
      by rewrite Hc, app_nil_r in Hx. }
    assert (Hr : x ∈ refs (view_of s)) by (unfold refs; set_solver).
    destruct (wf_name _ _ Hwf Hr) as [Hl Hname]. cbn in Hl, Hname.
    change (raft_node_has_vote_for_me (peer h (snd x)) = true) in Hvote.
    specialize (Hself (snd x) ltac:(by apply list_elem_of_fmap_2) Hl). unfold self_only in Hself.
    rewrite Hself, (info_name (_heap s) h) in Hvote by done. apply Z.eqb_eq in Hvote. unfold peer in Hvote. split; congruence.
  - destruct Ho as (l & Hl & Hf). exists l. split; [done|]. eapply Forall_impl; [exact Hf|].
    intros a. apply silent_announced.
Qed.

(** Counting votes, at the end of a handler. *)
Lemma count_votes_S n (s : server) :
  count_votes E (S n) s =
    (if raft_votes_is_majority (raft_get_num_voting_nodes s) (raft_get_nvotes_for_me s) then
       if truthy (_prevote s) then e ← become_prevoted_candidate E (count_votes E n); mret e
       else raft_become_leader E ;; mret 0
     else mret 0) s.
Proof. done. Qed.

Lemma count_one extra v (s : server) n x s' :
  turn extra v (view_of s) -> _identity s = RAFT_STATE_CANDIDATE -> _prevote s = 0 ->
  count_votes E (S n) s = Some (x, s') -> turn extra v (view_of s').
Proof.
  intros Ht Hi Hp. rewrite count_votes_S. destruct (raft_votes_is_majority _ _) eqn:Em; [|by intros [= _ <-]].
  rewrite Hp. change (truthy 0) with false. cbv iota. unfold mbind, M_bind.
  destruct (raft_become_leader E s) as [[u s1]|] eqn:E1; [|done]. intros E2.
  assert (s1 = s') as <- by by injection E2. by eapply turn_leader.
Qed.

Lemma count_two extra v (s : server) n x s' :
  turn extra v (view_of s) -> unannounced v (view_of s) -> v_catch_up (view_of s) = [] ->
  _identity s = RAFT_STATE_CANDIDATE ->
  count_votes E (S (S n)) s = Some (x, s') -> turn extra v (view_of s').
Proof.
  intros Ht Ho Hc Hi. destruct (decide (_prevote s = 0)) as [Hp|Hp]; [by apply count_one|].
  rewrite count_votes_S. destruct (raft_votes_is_majority _ _); [|by intros [= _ <-]].
  assert (truthy (_prevote s) = true) as -> by (unfold truthy; destruct (Z.eqb_spec (_prevote s) 0); done).
  unfold mbind at 1, M_bind at 1.
  destruct (become_prevoted_candidate E (count_votes E (S n)) s) as [[e s1]|] eqn:E1; [|done].
  intros E2. assert (s1 = s') as <- by by injection E2.
  apply become_prevoted_view in E1 as (h & t & y & Hinf & Hself & Hcalm & E1).
  eapply count_one; [|..|exact E1].
  - eapply turn_calm; [|exact Hcalm]. by apply turn_second.
  - destruct Hcalm as (h' & o & Hv & _). rewrite <- Hi. exact (f_equal v_identity Hv).
  - destruct Hcalm as (h' & o & Hv & _). exact (f_equal v_prevote Hv).
Qed.

(** *** The handlers *)

Definition as_follower (v : view) : view := v <| v_identity := RAFT_STATE_FOLLOWER |>.

Definition first_round (h : list raft_node) (v : view) : view :=
  v <| v_identity := RAFT_STATE_CANDIDATE |> <| v_prevote := 1 |> <| v_heap := h |>.

Lemma become_candidate_view (s : server) x s' :
  raft_become_candidate E s = Some (x, s') ->
  exists h s1, _info <$> h = _info <$> _heap s /\ calm (first_round h (view_of s)) (view_of s1) /\
    raft_count_votes E s1 = Some (x, s').
Proof.
  unfold raft_become_candidate. set (s1 := s <| _identity := RAFT_STATE_CANDIDATE |> <| _prevote := 1 |>).
  unfold mbind at 1, M_bind at 1. change (raft_set_identity RAFT_STATE_CANDIDATE s) with (Some (tt, s <| _identity := RAFT_STATE_CANDIDATE |>)).
  cbv iota beta. unfold mbind at 1, M_bind at 1, modify at 1. fold s1.
  unfold mbind at 1, M_bind at 1. destruct (vote_for_self s1) as [[u s2]|] eqn:E2; [|done].
  apply vote_for_self_view in E2 as (h & Hv2 & Hi & _). unfold mbind at 1 2 3, M_bind at 1 2 3.
  set (s3 := s2 <| _leader_id := - 1 |> <| _election_timeout_rand := _election_timeout s2 + Z.rem (rand E) (_election_timeout s2) |>
               <| _election_timer := now E |>).
  change (raft_set_current_leader (- 1) s2) with (Some (tt, s2 <| _leader_id := - 1 |>)). cbv iota beta.
  change (raft_randomize_election_timeout E (s2 <| _leader_id := - 1 |>)) with
    (Some (tt, s2 <| _leader_id := - 1 |> <| _election_timeout_rand := _election_timeout s2 + Z.rem (rand E) (_election_timeout s2) |>)).
  cbv iota beta.
  change (raft_set_election_timer E _) with (Some (tt, s3)). cbv iota beta.
  unfold mbind at 1, M_bind at 1. destruct (request_votes E s3) as [[w s4]|] eqn:E4; [|done].
  intros E5. exists h, s4. split; [done|]. split; [|done].
  assert (Hv3 : view_of s3 = first_round h (view_of s)) by (change (view_of s3) with (view_of s2); by rewrite Hv2).
  rewrite <- Hv3. apply (C_request_votes (view_of s3) (_leader_id s3) s3 w s4); [|done].
  split; [apply calm_refl|done].
Qed.

Lemma candidate_turn extra v (s : server) x s' :
  turn extra v (as_follower (view_of s)) -> unannounced v (view_of s) -> v_catch_up (view_of s) = [] ->
  raft_become_candidate E s = Some (x, s') -> turn extra v (view_of s').
Proof.
  intros [Hid Hwf Hs Ht _ Ho] Hu Hc (h & s1 & Hi & Hcalm & E1)%become_candidate_view.
  assert (Hfirst : turn extra v (first_round h (view_of s))).
  { split; try done. exact (wf_infos (view_of s) h Hi Hwf). }
  apply (count_two extra v s1 0 x s'); [| | | |exact E1].
  - by eapply turn_calm.
  - by eapply unannounced_calm; [| |exact Hcalm].
  - destruct Hcalm as (h' & o & -> & _). exact Hc.
  - destruct Hcalm as (h' & o & Hv & _). exact (f_equal v_identity Hv).
Qed.

Lemma turn_follower extra v : wf v -> turn extra v (as_follower v).
Proof.
  intros W. apply quiet_turn; [done|]. pose proof (quiet_refl v) as [? ? ? ? ? ? ? ?]. by split.
Qed.

Lemma unannounced_same v v' : v_out v' = v_out v -> unannounced v v'.
Proof. exists []. by rewrite app_nil_r. Qed.

Lemma Q_majority_leases v0 g : Inv (Q v0) (_has_majority_leases E g : M bool).
Proof.
  assert (Hl : forall l, Inv (Q v0) (count_leases E l g : M Z)).
  { induction l as [|r l IH]; cbn; [apply Inv_ret|]. unfold _has_lease.
    repeat (apply Inv_bind; [|intros ?]); try done; try apply Inv_ret; try apply Inv_this; apply Inv_gets. }
  unfold _has_majority_leases.
  repeat (apply Inv_bind; [|intros ?]); try done; try apply Inv_gets; try apply Inv_assert; apply Inv_ret.
Qed.

Lemma turn_periodic extra (s : server) x s' :
  wf (view_of s) -> v_catch_up (view_of s) = [] ->
  raft_periodic E s = Some (x, s') -> turn extra (view_of s) (view_of s').
Proof.
  intros W Hc. unfold raft_periodic, mbind at 1, M_bind at 1, this.
  destruct (decide _); [intros [= _ <-]; apply quiet_turn; [done|apply quiet_refl]|].
  unfold mbind at 1, M_bind at 1, raft_get_my_node, raft_get_node, mbind at 1, M_bind at 1, gets.
  unfold mbind at 1, M_bind at 1.
  match goal with |- context [(if raft_is_leader s then ?a else ?b) s] => set (m := if raft_is_leader s then a else b) end.
  assert (Hm : forall e s1, m s = Some (e, s1) -> turn extra (view_of s) (view_of s1)).
  { intros e s1. unfold m. destruct (raft_is_leader s); [|destruct (_ && _)].
    - intros E1. apply quiet_turn; [done|]. refine ((_ : Inv (Q (view_of s)) _) s e s1 (quiet_refl _) E1).
      apply Inv_bind; [apply Q_majority_leases|intros b]. apply Inv_bind; [|intros; apply Inv_ret].
      apply Inv_when, Inv_bind; [apply Q_become_follower|intros; apply Q_set_leader].
    - apply candidate_turn; [by apply turn_follower|by apply unannounced_same|done].
    - intros [= _ <-]. apply quiet_turn; [done|apply quiet_refl]. }
  destruct (m s) as [[e s1]|] eqn:E1; [|done]. specialize (Hm _ _ eq_refl).
  destruct (negb (e =? 0)); [by intros [= _ <-]|]. intros E2. eapply turn_calm; [exact Hm|].
  refine (proj1 ((_ : Inv (C (view_of s1) (_leader_id s1)) _) s1 x s' (conj (calm_refl _) eq_refl) E2)).
  unfold task_loop. calm.
Qed.

Lemma turn_timeout_now extra (s : server) x s' :
  wf (view_of s) -> v_catch_up (view_of s) = [] ->
  serve_timeout_now E s = Some (x, s') -> turn extra (view_of s) (view_of s').
Proof.
  intros W Hc. unfold serve_timeout_now, mbind at 1, M_bind at 1, this.
  destruct (negb _); [intros [= _ <-]; apply quiet_turn; [done|apply quiet_refl]|].
  unfold mbind at 1, M_bind at 1.
  destruct (raft_set_current_term (_current_term s + 1) s) as [[e s1]|] eqn:E1; [|done].
  apply raft_set_current_term_view in E1 as [_ [[_ Hbad]|[_ Hv1]]]; [lia|].
  unfold mbind at 1, M_bind at 1. destruct (raft_election_start E s1) as [[e2 s2]|] eqn:E2; [|done].
  intros E3. assert (s2 = s') as <- by by injection E3. eapply candidate_turn; [| | |exact E2].
  - rewrite Hv1. apply quiet_turn; [done|]. pose proof (quiet_refl (view_of s)) as [? ? ? ? ? ? ? ?]. split; try done.
    + right. cbn. split; [lia|done].
    + intros _. unfold saved. cbn -[kv_commit kv_put]. by rewrite kv_commit_put.
  - rewrite Hv1. by apply unannounced_same.
  - by rewrite Hv1.
Qed.

(** What an answer gives. *)
Definition granted_by (r : msg_requestvote_response_t) (term id : Z) : Prop :=
  id = vr_node_id r /\ vr_term r = term /\ vr_prevote r = 0 /\ vote_granted r = 1.

Lemma lookup_node_elem id l r : lookup_node id l = Some r -> (id, r) ∈ l.
Proof.
  unfold lookup_node. destruct (List.find _ l) as [[id' r']|] eqn:Ef; [|done]. cbn. intros [= ->].
  apply find_some in Ef as [Hin Hid]. apply Z.eqb_eq in Hid. cbn in Hid. subst. by apply list_elem_of_In.
Qed.

Lemma get_cfg_node_elem id (s : server) r s1 :
  v_catch_up (view_of s) = [] -> raft_get_cfg_node id s = Some (Some r, s1) -> (id, r) ∈ refs (view_of s) /\ s1 = s.
Proof.
  intros Hc. unfold raft_get_cfg_node, gets. intros E1.
  assert (Hs : s1 = s) by by injection E1. split; [|done].
  assert (Hcu : get_catch_up_node id s = None).
  { unfold get_catch_up_node. cbn in Hc. apply fmap_nil_inv in Hc. by rewrite Hc. }
  rewrite Hcu in E1. unfold refs. cbn.
  destruct (lookup_node id (_nodes s)) as [r1|] eqn:E2.
  { assert (r1 = r) as -> by congruence. apply lookup_node_elem in E2. set_solver. }
  assert (E3 : lookup_node id (_new_nodes s) = Some r) by (destruct (_state (cfg s)); congruence).
  apply lookup_node_elem in E3. set_solver.
Qed.

Lemma turn_vote (s : server) r x :
  wf (view_of s) -> _identity s = RAFT_STATE_CANDIDATE -> (vr_node_id r, x) ∈ refs (view_of s) ->
  vr_term r = _current_term s -> vr_prevote r = _prevote s -> vote_granted r = 1 ->
  turn (granted_by r (_current_term s)) (view_of s) (view_of (s <| _heap ::= alter (raft_node_vote_for_me true) x |>)).
Proof.
  intros W Hi Hx Ht Hp Hg. pose proof (quiet_turn (granted_by r (_current_term s)) _ _ W (quiet_refl _)) as [? ? ? ? Hv ?].
  split; try done.
  - refine (wf_infos (view_of s) _ _ W). apply list_eq. intros i. rewrite !list_lookup_fmap. cbn.
    destruct (decide (x = i)) as [->|Hne]; [rewrite list_lookup_alter_eq; by destruct (_heap s !! i)|].
    by rewrite list_lookup_alter_ne.
  - intros _ Hp0 y Hy Hvote. change (y ∈ refs (view_of s)) in Hy. cbn in Hp0.
    destruct (decide (snd y = x)) as [Hyx|Hyx].
    + right. right. split; [done|]. destruct (wf_name _ _ W Hy) as [_ <-]. destruct (wf_name _ _ W Hx) as [_ Hname].
      cbn in Hname. rewrite Hyx. cbn. split; [done|]. split; [done|]. split; [congruence|done].
    + apply (backs_ext _ _ (view_of s)); [done|done|]. apply Hv; [done|done|done|].
      change (raft_node_has_vote_for_me (peer (alter (raft_node_vote_for_me true) x (_heap s)) (snd y)) = true) in Hvote.
      unfold peer in Hvote. rewrite nth_lookup, list_lookup_alter_ne, <- nth_lookup in Hvote by done. exact Hvote.
Qed.

Lemma turn_reply r (s : server) x s' :
  wf (view_of s) -> v_catch_up (view_of s) = [] ->
  raft_process_requestvote_reply E r s = Some (x, s') ->
  turn (granted_by r (_current_term s)) (view_of s) (view_of s').
Proof.
  intros W Hc. unfold raft_process_requestvote_reply, mbind at 1, M_bind at 1.
  destruct (raft_get_cfg_node (vr_node_id r) s) as [[n s1]|] eqn:E1; [|done].
  assert (s1 = s) as -> by by injection E1.
  unfold mbind at 1, M_bind at 1, this.
  assert (Hstay : turn (granted_by r (_current_term s)) (view_of s) (view_of s))
    by (apply quiet_turn; [done|apply quiet_refl]).
  destruct (negb (raft_is_candidate s) || negb (_prevote s =? vr_prevote r)) eqn:Eg; [by intros [= _ <-]|].
  apply orb_false_iff in Eg as [Ei Ep]. apply negb_false_iff in Ei, Ep. apply bool_decide_eq_true in Ei. apply Z.eqb_eq in Ep.
  destruct (_current_term s <? vr_term r).
  { intros E2. apply quiet_turn; [done|]. refine ((_ : Inv (Q (view_of s)) _) s x s' (quiet_refl _) E2).
    apply (Q_higher E _ _ _ (raft_set_current_leader (- 1) ;; mret 0)); [done|].
    apply Inv_bind; [apply Q_set_leader|intros; apply Inv_ret]. }
  destruct (negb (_current_term s =? vr_term r)) eqn:Et; [by intros [= _ <-]|].
  apply negb_false_iff, Z.eqb_eq in Et.
  destruct (Z.eqb_spec (vote_granted r) RAFT_REQUESTVOTE_ERR_GRANTED) as [Hg|_].
  - unfold mbind at 1, M_bind at 1. destruct n as [y|].
    + apply get_cfg_node_elem in E1 as [Hy _]; [|done]. intros E2.
      apply (count_two _ _ (s <| _heap ::= alter (raft_node_vote_for_me true) y |>) 0 x s'); [..|exact E2].
      * by apply turn_vote.
      * by apply unannounced_same.
      * exact Hc.
      * exact Ei.
    + intros E2. apply (count_two _ _ s 0 x s'); [done|by apply unannounced_same|done|done|exact E2].
  - destruct (_ || _); [by intros [= _ <-]|done].
Qed.

(** A request for a vote. *)
Lemma Q_raise v0 t :
  Inv (Q v0) (e ← raft_set_current_term t; when (e =? 0) (raft_become_follower E ;; raft_set_current_leader (- 1)) ;; mret e : M Z).
Proof.
  intros s x s' HQ E1.
  refine ((_ : Inv (Q v0) (raft_set_current_term t ≫= fun e => raft_become_follower E ;; raft_set_current_leader (- 1) ;; mret e)) s x s' HQ _).
  { apply (Q_higher E _ _ _ (raft_set_current_leader (- 1) ;; mret 0)); [done|].
    apply Inv_bind; [apply Q_set_leader|intros; apply Inv_ret]. }
  unfold mbind, M_bind in *. destruct (raft_set_current_term t s) as [[e s1]|] eqn:E2; [|done].
  by apply raft_set_current_term_view in E2 as [-> _].
Qed.

Definition votes_for (s s' : server) (rv : msg_requestvote_t) (r : msg_requestvote_response_t) : Prop :=
  vr_node_id r = _node_id s /\
  (vote_granted r = 1 -> vr_prevote r = 0 -> vr_term r = _current_term s' /\ _voted_for s' = rv_candidate_id rv).

Lemma quiet_votes v (s1 : server) c :
  quiet v (view_of s1) -> wf v -> _voted_for s1 = - 1 \/ _voted_for s1 = c ->
  (_identity s1 = RAFT_STATE_CANDIDATE -> _prevote s1 <> 0) ->
  turn (fun _ => False) v ((view_of s1) <| v_kv ::= kv_put (PutVoteFor c) |> <| v_voted := c |>).
Proof.
  intros Hq W Hc Hp. pose proof (quiet_turn (fun _ => False) _ _ W Hq) as [Hid Hwf Hs Ht Hv (l & Hl & Hf)]. split; try done.
  - intros [Hk _]%Hs. unfold saved. cbn -[kv_commit kv_put]. by rewrite kv_commit_put.
  - cbn in *. destruct Ht as [Hle Hsame]. split; [done|]. intros Heq.
    destruct (quiet_term _ _ Hq) as [[_ Hvv]|[Hlt _]]; [|cbn in Hlt; lia]. cbn in Hvv.
    destruct Hc as [Hc|Hc]; [right|left]; congruence.
  - intros Hi Hp0. destruct (Hp Hi). done.
  - destruct (quiet_out _ _ Hq) as (l' & Hl' & Hf'). exists l'. split; [done|]. eapply Forall_impl; [exact Hf'|].
    intros a. apply silent_announced.
Qed.

Lemma should_grant_vote rv (s : server) b s' :
  _should_grant_vote rv s = Some (b, s') ->
  s' = s /\ (b = true -> _current_term s <= rv_term rv /\
             (rv_prevote rv = 0 -> _voted_for s = - 1 \/ _voted_for s = rv_candidate_id rv)).
Proof.
  unfold _should_grant_vote, mbind at 1, M_bind at 1, this.
  destruct (Z.ltb_spec (rv_term rv) (_current_term s)) as [|Hle]; [intros E1; injection E1 as <- <-; by split|].
  destruct (_ && _) eqn:Eb; [intros E1; injection E1 as <- <-; by split|].
  unfold mbind, M_bind, assert. destruct (_ || (_current_idx s =? 0)); [|done].
  intros E1. split; [by injection E1|]. intros _. split; [done|]. intros Hp. rewrite Hp in Eb. cbn in Eb.
  destruct (Z.eqb_spec (_voted_for s) (- 1)) as [|]; [by left|]. right.
  by destruct (Z.eqb_spec (_voted_for s) (rv_candidate_id rv)).
Qed.

Lemma turn_recv_vote id rv (s : server) e r s' :
  wf (view_of s) -> raft_recv_requestvote E id rv s = Some ((e, r), s') ->
  turn (fun _ => False) (view_of s) (view_of s') /\ votes_for s s' rv r.
Proof.
  intros W. unfold raft_recv_requestvote. unfold mbind at 1, M_bind at 1, raft_get_node at 1, gets at 1.
  unfold mbind at 1, M_bind at 1, raft_get_node at 1, gets at 1. unfold mbind at 1, M_bind at 1, gets at 1.
  set (phase := if _current_term s <? rv_term rv then _ else _). unfold mbind at 1, M_bind at 1.
  destruct (phase s) as [[e1 s1]|] eqn:E1; [|done].
  assert (Hq : quiet (view_of s) (view_of s1)).
  { unfold phase in E1. destruct (_current_term s <? rv_term rv).
    - exact (Q_raise (view_of s) (rv_term rv) s e1 s1 (quiet_refl _) E1).
    - injection E1 as _ <-. apply quiet_refl. }
  assert (Hid : _node_id s1 = _node_id s) by exact (quiet_id _ _ Hq).
  clearbody phase. clear E1 phase.
  assert (Hstay : turn (fun _ => False) (view_of s) (view_of s1)) by by apply quiet_turn.
  set (answer (x g : Z) := s ← this; mret (x, {| vr_node_id := _node_id s; vr_term := _current_term s; vote_granted := g;
                                                  vr_prevote := rv_prevote rv |}) : M _).
  assert (Hno : forall x g, g <> 1 \/ rv_prevote rv <> 0 -> answer x g s1 = Some ((e, r), s') ->
    turn (fun _ => False) (view_of s) (view_of s') /\ votes_for s s' rv r).
  { intros x g Hg E2. unfold answer, mbind, M_bind, this, mret, M_ret in E2. injection E2 as _ <- <-.
    split; [done|]. split; [done|]. cbn. intros -> Hp. by destruct Hg. }
  destruct (negb (e1 =? 0)); [apply Hno; by left|]. unfold mbind at 1, M_bind at 1, this at 1.
  destruct (_ || _); [apply Hno; by left|]. unfold mbind at 1, M_bind at 1.
  destruct (_should_grant_vote rv s1) as [[b s2]|] eqn:E2; [|done].
  apply should_grant_vote in E2 as [-> Hgrant].
  destruct b; [|destruct (bool_decide _); apply Hno; by left]. destruct (Hgrant eq_refl) as [Hle Hvoted].
  unfold mbind at 1, M_bind at 1, this at 1. unfold mbind at 1, M_bind at 1, assert.
  destruct (negb (raft_is_leader s1) && _) eqn:Ea; [|done]. apply andb_true_iff in Ea as [_ Ea]. cbn [mret M_ret].
  unfold mret at 1, M_ret at 1.
  destruct (truthy (rv_prevote rv)) eqn:Ep.
  { apply Hno. right. unfold truthy in Ep. by destruct (Z.eqb_spec (rv_prevote rv) 0). }
  rewrite orb_false_r in Ea.
  assert (Hp : rv_prevote rv = 0) by (unfold truthy in Ep; by destruct (Z.eqb_spec (rv_prevote rv) 0)).
  intros E3. unfold raft_vote_for_nodeid, save, raft_set_current_leader, raft_set_election_timer, mbind, M_bind, modify, this, mret, M_ret in E3.
  cbn [Z.eqb] in E3.
  assert (Hs' : view_of s' = (view_of s1) <| v_kv ::= kv_put (PutVoteFor (rv_candidate_id rv)) |> <| v_voted := rv_candidate_id rv |>)
    by by injection E3 as _ _ <-.
  split.
  - rewrite Hs'. apply quiet_votes; [done|done|by apply Hvoted|]. intros Hi Hp1. rewrite Hp1 in Ea.
    unfold raft_is_candidate in Ea. by rewrite Hi in Ea.
  - injection E3 as _ <- <-. split; [exact Hid|]. by cbn.
Qed.

Lemma turn_serve_vote rv (s : server) r s' :
  wf (view_of s) -> serve_vote E rv s = Some (r, s') ->
  turn (fun _ => False) (view_of s) (view_of s') /\ votes_for s s' rv r.
Proof.
  intros W. unfold serve_vote, mbind at 1, M_bind at 1, this. destruct (negb _).
  - intros E1. injection E1 as <- <-. split; [apply quiet_turn; [done|apply quiet_refl]|]. by split.
  - unfold mbind, M_bind. destruct (raft_recv_requestvote E (rv_node_id rv) rv s) as [[[e r1] s1]|] eqn:E1; [|done].
    intros E2. injection E2 as <- <-. by eapply turn_recv_vote.
Qed.
(** *** Starting again *)

(** A server that starts from what it has saved. *)
Definition restart (log : DiskLog.disk_log B) (kv : kvs) (fuel : nat) (read_unit id heartbeat lease_time election : Z) : option (option Z * server) :=
  (raft_set_timer E ;; raft_load E fuel read_unit id heartbeat lease_time election) (raft_new E log kv).

Definition control (s : server) : Z * Z * raft_identity * kvs * list action * list (Z * nat) :=
  (_current_term s, _voted_for s, _identity s, _kv s, _out s, catch_up_refs (cfg s)).

Lemma control_update k c : Inv (fun s : server => control s = k) (update_with_node_configuration c []).
Proof.
  assert (Hf : forall nodes info, Inv (fun s : server => control s = k) (find_or_make_node nodes [] info)).
  { intros nodes info. unfold find_or_make_node. destruct (lookup_node _ nodes); [apply Inv_ret|].
    apply Inv_bind; [apply Inv_gets|intros h]. cbn. intros s x s' Hs E1. by injection E1 as _ <-. }
  unfold update_with_node_configuration. apply Inv_bind; [apply Inv_gets|intros nodes].
  apply Inv_bind; [by apply Inv_modify|intros _].
  apply Inv_bind; [|intros _]; apply Inv_mfor; intros info; (apply Inv_bind; [apply Hf|intros r]; by apply Inv_modify).
Qed.

Lemma Inv_and {A} (P P' : server -> Prop) (m : M A) : Inv P m -> Inv P' m -> Inv (fun s => P s /\ P' s) m.
Proof. intros H1 H2 s x s' [HP HP'] E1. split; [by eapply H1|by eapply H2]. Qed.

Lemma load_done_view (s : server) id hb lt el x s' :
  wf (view_of s) -> catch_up_refs (cfg s) = [] -> load_done E id hb lt el s = Some (x, s') ->
  let t := kv_tab (kv_commit (_kv s)) in
  wf (view_of s') /\ _node_id s' = id /\
  control s' = (default (_current_term s) (kv_term t), default (_voted_for s) (kv_vote_for t), _identity s, _kv s, _out s, []).
Proof.
  intros W Hc E1 t. set (s0 := s <| _current_idx := _next_idx (_log s) - 1 |>).
  set (s1 := s0 <| _current_term := default (_current_term s0) (kv_term t) |> <| _voted_for := default (_voted_for s0) (kv_vote_for t) |>).
  unfold load_done in E1. unfold mbind at 1, M_bind at 1, modify at 1 in E1. fold s0 in E1.
  unfold mbind at 1, M_bind at 1, gets at 1 in E1. change (kv_get s0) with t in E1.
  unfold mbind at 1, M_bind at 1, modify at 1 in E1. fold s1 in E1.
  set (k := (default (_current_term s) (kv_term t), default (_voted_for s) (kv_vote_for t), _identity s, _kv s, _out s, [] : list (Z * nat))).
  assert (H1 : Q (view_of s1) s1 /\ control s1 = k).
  { split; [apply quiet_refl|]. unfold control, k. by rewrite <- Hc. }
  assert (W1 : wf (view_of s1)) by exact W. clearbody s1. clear s0. revert s1 x s' H1 W1 E1.
  match goal with |- forall s1 x s', _ -> _ -> ?m s1 = _ -> _ => intros s1 x s' H1 W1 E1;
    refine ((_ : Ends (fun u => Q (view_of s1) u /\ control u = k) m (fun s' => wf (view_of s') /\ _node_id s' = id /\ control s' = k)) s1 x s' H1 E1) end.
  apply Ends_bind; [apply Inv_and; [by apply Q_set_cfg|apply Inv_modify; intros u Hu; exact Hu]|intros _].
  apply Ends_bind; [apply Inv_and; [apply Q_last_configuration|]|intros c].
  { unfold get_last_node_configuration. apply Inv_bind; [apply Inv_gets|intros l]. destruct (last l); [apply Inv_ret|apply Inv_fail]. }
  apply Ends_bind; [apply Inv_and; [apply Q_update_nil|apply control_update]|intros _].
  apply Ends_bind; [apply Inv_this|intros u].
  apply Ends_bind; [apply Inv_and; [apply Q_set_commit_idx|]|intros _].
  { unfold raft_set_commit_idx. repeat (apply Inv_bind; [|intros ?]); [apply Inv_this|apply Inv_assert..|by apply Inv_modify]. }
  apply Ends_bind; [apply Inv_and; [by apply Q_same|by apply Inv_modify]|intros _].
  clear - W1. intros u x s' [HQ Hk] E1.
  assert (W : wf (view_of u)) by exact (quiet_wf _ _ HQ W1).
  unfold raft_set_nodeid, start_raft_timer, raft_randomize_election_timeout, mbind, M_bind, this, assert, modify in E1.
  destruct (_node_id u =? - 1); [|done]. injection E1 as _ <-. done.
Qed.

Lemma raft_load_view (s : server) fuel ru id hb lt el s' :
  wf (view_of s) -> catch_up_refs (cfg s) = [] -> raft_load E fuel ru id hb lt el s = Some (Some 0, s') ->
  let t := kv_tab (kv_commit (_kv s)) in
  wf (view_of s') /\ _node_id s' = id /\
  control s' = (default (_current_term s) (kv_term t), default (_voted_for s) (kv_vote_for t), _identity s, _kv s, _out s, []).
Proof.
  intros W Hc. unfold raft_load. destruct (RaftLog.load _ fuel ru _) as [[r l]|]; [|done].
  destruct r as [[| |]|]; [|intros E1; by injection E1..].
  unfold mbind, M_bind. set (s0 := s <| _log := l |>).
  destruct (load_done E id hb lt el s0) as [[u s1]|] eqn:E2; [|done]. intros E1.
  assert (s1 = s') as <- by by injection E1. exact (load_done_view s0 id hb lt el u s1 W Hc E2).
Qed.

Lemma restart_turn log v fuel ru hb lt el s' :
  saved v -> restart log (v_kv v) fuel ru (v_id v) hb lt el = Some (Some 0, s') ->
  turn (fun _ => False) (v <| v_out := [] |>) (view_of s') /\ v_catch_up (view_of s') = [].
Proof.
  intros [Hk1 Hk2]. unfold restart, mbind, M_bind.
  destruct (raft_set_timer E (raft_new E log (v_kv v))) as [[u s0]|] eqn:E0; [|done].
  assert (Hc0 : control s0 = (0, - 1, RAFT_STATE_FOLLOWER, v_kv v, [], [])) by by injection E0 as _ <-.
  assert (W0 : wf (view_of s0)).
  { injection E0 as _ <-. split; [constructor|apply NoDup_nil_2|apply NoDup_nil_2]. }
  clear E0. intros (Hwf & Hid & Hctl)%raft_load_view; [|done|exact (f_equal snd Hc0)].
  unfold control in Hc0. injection Hc0 as Hf1 Hf2 Hf3 Hf4 Hf5 _. rewrite Hf1, Hf2, Hf3, Hf4, Hf5 in Hctl.
  set (t := kv_tab (kv_commit (v_kv v))) in *. unfold control in Hctl. injection Hctl as Ht Hv Hi Hk Ho Hcu.
  split; [|done]. split; try done.
  - intros _. unfold saved. cbn -[kv_commit]. rewrite Hk. fold t. rewrite Ht, Hv. split; [done|].
    by destruct (kv_vote_for t).
  - cbn. rewrite Ht, Hk1. split; [lia|]. intros _. rewrite Hv. destruct (decide (v_voted v = - 1)) as [|Hne]; [by right|].
    left. by rewrite (Hk2 Hne).
  - cbn. by rewrite Hi.
  - exists []. cbn. by rewrite Ho.
Qed.

End elections.

(** ** A cluster *)

Section cluster.
Context `{RollingBlob.BlobIo B} `{ConfigCodec}.

Abbreviation server := (raft_server_t B).

(** What can happen at a server besides requests and answers of votes; where these
    come from does not matter. *)
Inductive input :=
| Periodic
| TimeoutNow
| AppendEntries (ae : msg_appendentries_t) (n : Z)
| BufferFlush
| DiskDoneFor (c : disk_ctx) (result : Z)
| AppendReply (r : msg_appendentries_response_t) (is_heartbeat : bool)
| AppendFailed (id : Z)
| WriteEntry (e : raft_entry_t) (c : ptr context)
| TaskPoll
| HeartbeatPoll
| ChangeMembers (osds : list Codec.raft_node_info) (c : ptr context)
| CreatePgDone (r : nat) (next_idx result : Z)
| Activate
| Stop
| KvCommit.

Definition kv_poll : M B unit := modify (fun s => s <| _kv ::= kv_commit |>).

Definition handle (E : env) (i : input) : M B unit :=
  match i with
  | Periodic => raft_periodic E ;; mret tt
  | TimeoutNow => serve_timeout_now E ;; mret tt
  | AppendEntries ae n => serve_append_entries ae n
  | BufferFlush => do_flush E
  | DiskDoneFor c result => disk_done E c result
  | AppendReply r is_heartbeat => raft_process_appendentries_reply E r is_heartbeat ;; mret tt
  | AppendFailed id => appendentries_failed id
  | WriteEntry e c => raft_write_entry e c ;; mret tt
  | TaskPoll => raft_task_func E
  | HeartbeatPoll => get_heartbeat_requests E
  | ChangeMembers osds c => change_pg_membership osds c
  | CreatePgDone r next_idx result => create_pg_done E r next_idx result
  | Activate => active_raft
  | Stop => stop
  | KvCommit => kv_poll
  end.

(** A leader as it is announced: its term, itself and the members in its eyes. *)
Record announcement := { a_term : Z; a_leader : Z; a_osds : list Z; a_new_osds : list Z }.

(** [requests] and [answers] are the votes that were asked for and given, with the
    server that they go to; [votes] and [leaders] are what has happened so far: who
    voted in which term for whom, and which leaders were announced. *)
Record cluster := {
  servers : gmap Z server;
  requests : list (Z * msg_requestvote_t);
  answers : list (Z * msg_requestvote_response_t);
  votes : list (Z * Z * Z);
  leaders : list announcement;
}.

Definition empty_cluster : cluster := {| servers := ∅; requests := []; answers := []; votes := []; leaders := [] |}.

Definition request_of (a : action) : option (Z * msg_requestvote_t) :=
  match a with SendVote to rv => Some (to, rv) | _ => None end.

Definition leader_of (term : Z) (a : action) : option announcement :=
  match a with
  | NotifyLeader leader osds new_osds =>
      Some {| a_term := term; a_leader := leader; a_osds := osds; a_new_osds := new_osds |}
  | _ => None
  end.

(** Server [i] has come to [s]. *)
Definition finish (i : Z) (s : server) (c : cluster) : cluster :=
  {| servers := <[i := s <| _out := [] |>]> (servers c);
     requests := requests c ++ omap request_of (_out s);
     answers := answers c;
     votes := votes c ++ (if _voted_for s =? - 1 then [] else [(i, _current_term s, _voted_for s)]);
     leaders := leaders c ++ omap (leader_of (_current_term s)) (_out s) |}.

Definition answered (to : Z) (r : msg_requestvote_response_t) (c : cluster) : cluster :=
  {| servers := servers c; requests := requests c; answers := answers c ++ [(to, r)]; votes := votes c; leaders := leaders c |}.

(** A server with number -1 would be taken for none. *)
Definition create (E : env) (log : DiskLog.disk_log B) (nodes : list Codec.raft_node_info) (id heartbeat lease_time election : Z)
  : option (unit * server) :=
  (raft_set_timer E ;; init E nodes id heartbeat lease_time election) (raft_new E log empty_kvs).

(** What a crash leaves of the key-value store. *)
Definition lose (k : kvs) : kvs := k <| kv_log := [] |>.

(** Messages may be lost, delayed and delivered again.  No server is adding members
    after any of the steps, and a server that starts again had nothing left to write
    in the key-value store. *)
Inductive step (c : cluster) : cluster -> Prop :=
| step_create E i log nodes hb lt el u s :
    servers c !! i = None -> i <> - 1 -> create E log nodes i hb lt el = Some (u, s) ->
    _catch_up_nodes (cfg s) = [] -> step c (finish i s c)
| step_input E i x s u s' :
    servers c !! i = Some s -> handle E x s = Some (u, s') ->
    _catch_up_nodes (cfg s') = [] -> step c (finish i s' c)
| step_request E i rv s r s' :
    (i, rv) ∈ requests c -> servers c !! i = Some s -> serve_vote E rv s = Some (r, s') ->
    _catch_up_nodes (cfg s') = [] -> step c (answered (rv_candidate_id rv) r (finish i s' c))
| step_answer E i r s e s' :
    (i, r) ∈ answers c -> servers c !! i = Some s -> raft_process_requestvote_reply E r s = Some (e, s') ->
    _catch_up_nodes (cfg s') = [] -> step c (finish i s' c)
| step_restart E i log fuel ru hb lt el s s' :
    servers c !! i = Some s -> kv_log (_kv s) = [] ->
    restart E log (lose (_kv s)) fuel ru i hb lt el = Some (Some 0, s') ->
    step c (finish i s' c).

(** *** The invariant *)

(** Server [i] at [v] and the votes so far. *)
Record fits (V : list (Z * Z * Z)) (i : Z) (v : view) : Prop := {
  fits_id : v_id v = i /\ i <> - 1;
  fits_out : v_out v = [];
  fits_wf : wf v;
  fits_saved : saved v;
  fits_votes t k : (i, t, k) ∈ V -> t <= v_term v /\ (t = v_term v -> v_voted v = k);
  fits_counts x : v_identity v = RAFT_STATE_CANDIDATE -> v_prevote v = 0 -> x ∈ refs v ->
    has_vote (v_heap v) x = true -> (fst x, v_term v, i) ∈ V;
}.

Definition elected (V : list (Z * Z * Z)) (a : announcement) : Prop :=
  let P id := (id, a_term a, a_leader a) ∈ V in
  quorum (a_osds a) P /\ (a_new_osds a <> [] -> quorum (a_new_osds a) P).

Record ok (c : cluster) : Prop := {
  ok_servers i s : servers c !! i = Some s -> fits (votes c) i (view_of s) /\ v_catch_up (view_of s) = [];
  ok_unique i t k k' : (i, t, k) ∈ votes c -> (i, t, k') ∈ votes c -> k = k';
  ok_voters i t k : (i, t, k) ∈ votes c -> is_Some (servers c !! i) /\ k <> - 1;
  ok_requests to rv : (to, rv) ∈ requests c -> rv_candidate_id rv <> - 1;
  ok_answers to r : (to, r) ∈ answers c -> vote_granted r = 1 -> vr_prevote r = 0 -> (vr_node_id r, vr_term r, to) ∈ votes c;
  ok_leaders a : a ∈ leaders c -> elected (votes c) a;
}.

Lemma quorum_impl l (P P' : Z -> Prop) : (forall id, P id -> P' id) -> quorum l P -> quorum l P'.
Proof. intros HP [Hl (q & H1 & H2 & H3 & H4)]. split; [done|]. exists q. split_and!; auto. Qed.

Lemma elected_mono V V' a : V ⊆ V' -> elected V a -> elected V' a.
Proof.
  intros HV [H1 H2]. split; [|intros Hne; specialize (H2 Hne)]; (eapply quorum_impl; [|eassumption]); intros id; apply HV.
Qed.

(** Votes of other servers do not matter to a server. *)
Lemma fits_other V V' j v :
  V ⊆ V' -> (forall t k, (j, t, k) ∈ V' -> (j, t, k) ∈ V) -> fits V j v -> fits V' j v.
Proof.
  intros HV Hj [? ? ? ? Hb Hc]. split; try done.
  - intros t k Hin. apply Hb. by apply Hj.
  - intros x ? ? ? ?. apply HV. by apply Hc.
Qed.

Section one_step.
Context (c : cluster) (i : Z) (s : server).

Abbreviation c' := (finish i s c).

Lemma votes_grow : votes c ⊆ votes c'.
Proof. cbn. set_solver. Qed.

Lemma new_vote j t k : (j, t, k) ∈ votes c' ->
  (j, t, k) ∈ votes c \/ (j = i /\ t = _current_term s /\ k = _voted_for s /\ k <> - 1).
Proof.
  cbn. rewrite elem_of_app. destruct (Z.eqb_spec (_voted_for s) (- 1)) as [|Hne]; [set_solver|].
  rewrite list_elem_of_singleton. intros [|[= -> -> ->]]; auto.
Qed.

Lemma own_vote : _voted_for s <> - 1 -> (i, _current_term s, _voted_for s) ∈ votes c'.
Proof. intros Hne. cbn. destruct (Z.eqb_spec (_voted_for s) (- 1)); [done|]. set_solver. Qed.

Context (v : view) (extra : Z -> Prop).
Hypothesis Hok : ok c.
Hypothesis Hfits : fits (votes c) i v.
Hypothesis Hturn : turn extra v (view_of s).
Hypothesis Hextra : forall id, extra id -> (id, v_term v, i) ∈ votes c.
Hypothesis Hcatch : v_catch_up (view_of s) = [].

Lemma backs_vote id : backs extra v (view_of s) id -> (id, _current_term s, i) ∈ votes c'.
Proof.
  destruct (fits_id _ _ _ Hfits) as [Hid Hi]. intros [(Ht & Hc & Hp & x & Hx & <- & Hv)|[[-> Hv]|[Ht He]]].
  - apply votes_grow. cbn in Ht. rewrite Ht. by apply (fits_counts _ _ _ Hfits).
  - cbn in Hv. rewrite Hid in *. rewrite <- Hv at 2. apply own_vote. congruence.
  - apply votes_grow. cbn in Ht. rewrite Ht. auto.
Qed.

Lemma fits_bound t k : (i, t, k) ∈ votes c' -> t <= _current_term s /\ (t = _current_term s -> _voted_for s = k).
Proof.
  destruct (turn_term _ _ _ Hturn) as [Hle Hsame]. cbn in Hle, Hsame.
  intros [Hin|(_ & -> & -> & _)]%new_vote; [|split; [lia|done]].
  destruct (fits_votes _ _ _ Hfits _ _ Hin) as [Hb Hv]. split; [lia|]. intros ->.
  assert (Ht : _current_term s = v_term v) by lia. specialize (Hv Ht).
  destruct (Hsame Ht) as [->|Hm]; [done|]. destruct (ok_voters _ Hok _ _ _ Hin) as [_ Hk]. congruence.
Qed.

Lemma fits_finish : fits (votes c') i (view_of (s <| _out := [] |>)).
Proof.
  split; try done.
  - split; [|apply Hfits]. rewrite <- (proj1 (fits_id _ _ _ Hfits)). exact (turn_id _ _ _ Hturn).
  - exact (turn_wf _ _ _ Hturn).
  - exact (turn_saved _ _ _ Hturn (fits_saved _ _ _ Hfits)).
  - exact fits_bound.
  - intros x Hi Hp Hx Hv. apply backs_vote. exact (turn_votes _ _ _ Hturn Hi Hp x Hx Hv).
Qed.

Lemma unique_finish j t k k' : (j, t, k) ∈ votes c' -> (j, t, k') ∈ votes c' -> k = k'.
Proof.
  intros H1 H2. destruct (decide (j = i)) as [->|Hne].
  - apply new_vote in H1 as [H1|(_ & -> & -> & _)]; [|by apply (fits_bound _ _ H2)].
    apply new_vote in H2 as [H2|(_ & -> & -> & _)]; [by eapply (ok_unique _ Hok)|].
    symmetry. by apply (fits_bound _ _ (votes_grow _ H1)).
  - apply new_vote in H1 as [H1|(-> & _)]; [|done]. apply new_vote in H2 as [H2|(-> & _)]; [|done].
    by eapply (ok_unique _ Hok).
Qed.

Lemma out_announced : Forall (announced (backs extra v (view_of s)) i) (_out s).
Proof.
  destruct (turn_out _ _ _ Hturn) as (l & Hl & Hf). rewrite (fits_out _ _ _ Hfits) in Hl. cbn in Hl.
  rewrite Hl, <- (proj1 (fits_id _ _ _ Hfits)). exact Hf.
Qed.

Lemma leaders_finish a : a ∈ leaders c' -> elected (votes c') a.
Proof.
  cbn. rewrite elem_of_app. intros [Ha|Ha].
  - eapply elected_mono; [apply votes_grow|]. by apply (ok_leaders _ Hok).
  - apply list_elem_of_omap in Ha as (b & Hb & Hba).
    pose proof (proj1 (Forall_forall _ _) out_announced _ Hb) as Hann. destruct b; try done. injection Hba as <-.
    destruct Hann as (-> & H1 & H2). unfold elected. cbn.
    split; [|intros Hne; specialize (H2 Hne)]; (eapply quorum_impl; [|eassumption]); apply backs_vote.
Qed.

Lemma requests_finish to rv : (to, rv) ∈ requests c' -> rv_candidate_id rv <> - 1.
Proof.
  cbn. rewrite elem_of_app. intros [Hr|Hr]; [by eapply (ok_requests _ Hok)|].
  apply list_elem_of_omap in Hr as (b & Hb & Hbr).
  pose proof (proj1 (Forall_forall _ _) out_announced _ Hb) as Hann. destruct b; try done. injection Hbr as <- <-.
  destruct Hann as [_ ->]. apply Hfits.
Qed.

Lemma finish_ok : ok c'.
Proof.
  split.
  - intros j t. change (servers c') with (<[i := s <| _out := [] |>]> (servers c)).
    destruct (decide (i = j)) as [<-|Hne].
    + rewrite lookup_insert_eq. intros E1. assert (t = s <| _out := [] |>) as -> by congruence.
      split; [apply fits_finish|done].
    + rewrite lookup_insert_ne by done. intros Ht. destruct (ok_servers _ Hok _ _ Ht) as [Hf Hc]. split; [|done].
      eapply fits_other; [apply votes_grow| |exact Hf].
      intros u k [|(-> & _)]%new_vote; done.
  - exact unique_finish.
  - intros j t k [Hin|(-> & _ & _ & Hk)]%new_vote.
    + destruct (ok_voters _ Hok _ _ _ Hin) as [Hj Hk]. split; [|done]. cbn. destruct (decide (i = j)) as [<-|Hne].
      * by rewrite lookup_insert_eq.
      * by rewrite lookup_insert_ne.
    + split; [|done]. cbn. by rewrite lookup_insert_eq.
  - exact requests_finish.
  - intros to r Hr Hg Hp. apply votes_grow. by apply (ok_answers _ Hok).
  - exact leaders_finish.
Qed.

End one_step.

(** *** Every step keeps it *)

Abbreviation nobody := (fun _ : Z => False).

Lemma Inv_turn (m : M B unit) (s : server) u s' :
  wf (view_of s) -> (forall v0, Inv (Q v0) m) -> m s = Some (u, s') -> turn nobody (view_of s) (view_of s').
Proof. intros W Hm E1. apply quiet_turn; [done|]. exact (Hm _ s u s' (quiet_refl _) E1). Qed.

Lemma Inv_void {A} P (m : M B A) : Inv P m -> Inv P (m ;; mret tt).
Proof. intros Hm. apply Inv_bind; [done|]. intros. apply Inv_ret. Qed.

Lemma Q_kv_poll v0 : Inv (Q v0) kv_poll.
Proof. apply Inv_modify. intros s [? ? ? ? ? Hs ? ?]. split; try done. Qed.

Lemma handle_turn E x (s : server) u s' :
  wf (view_of s) -> v_catch_up (view_of s) = [] -> handle E x s = Some (u, s') -> turn nobody (view_of s) (view_of s').
Proof.
  intros W Hc. destruct x; cbn [handle].
  - unfold mbind, M_bind. destruct (raft_periodic E s) as [[e s1]|] eqn:E1; [|done]. intros E2.
    assert (s1 = s') as <- by by injection E2. by eapply turn_periodic.
  - unfold mbind, M_bind. destruct (serve_timeout_now E s) as [[e s1]|] eqn:E1; [|done]. intros E2.
    assert (s1 = s') as <- by by injection E2. by eapply turn_timeout_now.
  - apply Inv_turn; [done|]. intros. apply Q_serve_append_entries.
  - apply Inv_turn; [done|]. intros. apply Q_do_flush.
  - apply Inv_turn; [done|]. intros. apply Q_disk_done.
  - apply Inv_turn; [done|]. intros. apply Inv_void, Q_appendentries_reply.
  - apply Inv_turn; [done|]. intros. apply Q_appendentries_failed.
  - apply Inv_turn; [done|]. intros. apply Inv_void, Q_write_entry.
  - apply Inv_turn; [done|]. intros. apply Q_task_func.
  - apply Inv_turn; [done|]. intros. apply Q_heartbeat_requests.
  - apply Inv_turn; [done|]. intros. apply Q_change_pg_membership.
  - apply Inv_turn; [done|]. intros. apply Q_create_pg_done.
  - apply Inv_turn; [done|]. intros. apply Q_active.
  - apply Inv_turn; [done|]. intros. apply Q_stop.
  - apply Inv_turn; [done|]. intros. apply Q_kv_poll.
Qed.

(** A new server begins with a blank view. *)
Definition blank (i : Z) : view :=
  {| v_id := i; v_term := 0; v_voted := - 1; v_identity := RAFT_STATE_FOLLOWER; v_prevote := 0; v_kv := empty_kvs;
     v_heap := []; v_nodes := []; v_new_nodes := []; v_catch_up := []; v_out := [] |}.

Lemma blank_fits V i : i <> - 1 -> (forall t k, (i, t, k) ∉ V) -> fits V i (blank i).
Proof.
  intros Hi HV. split; try done.
  - split; [constructor|apply NoDup_nil_2|apply NoDup_nil_2].
  - intros t k Hin. by destruct (HV t k).
Qed.

Lemma create_turn E log nodes i hb lt el u (s : server) :
  create E log nodes i hb lt el = Some (u, s) -> turn nobody (blank i) (view_of s).
Proof.
  unfold create, mbind at 1, M_bind at 1.
  destruct (raft_set_timer E (raft_new E log empty_kvs)) as [[w s0]|] eqn:E0; [|done].
  assert (Hv0 : view_of s0 = blank (- 1)) by by injection E0 as _ <-.
  clear E0. unfold init, mbind at 1, M_bind at 1.
  destruct (raft_set_nodeid i s0) as [[w1 s1]|] eqn:E1; [|done].
  assert (Hv1 : view_of s1 = blank i).
  { unfold raft_set_nodeid, mbind, M_bind, this, assert in E1. destruct (_node_id s0 =? - 1); [|done].
    assert (s1 = s0 <| _node_id := i |>) as -> by by injection E1.
    change (view_of (s0 <| _node_id := i |>)) with ((view_of s0) <| v_id := i |>). by rewrite Hv0. }
  intros E2. apply quiet_turn; [split; [constructor|apply NoDup_nil_2|apply NoDup_nil_2]|].
  rewrite <- Hv1. match type of E2 with ?m s1 = _ => cut (Inv (Q (view_of s1)) m) end.
  { intros HI. exact (HI s1 u s (quiet_refl _) E2). }
  apply Inv_bind; [apply Q_add_configuration|intros _]. apply Inv_bind; [apply Q_last_configuration|intros c].
  apply Inv_bind; [apply Q_update_nil|intros _]. unfold start_raft_timer, raft_randomize_election_timeout.
  repeat (apply Inv_bind; [by apply Q_same|intros _]). by apply Q_same.
Qed.

Lemma catch_up_nil (s : server) : _catch_up_nodes (cfg s) = [] -> v_catch_up (view_of s) = [].
Proof. intros Hc. unfold view_of, catch_up_refs. cbn. by rewrite Hc. Qed.

Lemma answered_ok to r c : ok c -> (vote_granted r = 1 -> vr_prevote r = 0 -> (vr_node_id r, vr_term r, to) ∈ votes c) ->
  ok (answered to r c).
Proof.
  intros [? ? ? ? Ha ?] Hr. split; try done. intros to' r'. cbn. rewrite elem_of_app, list_elem_of_singleton.
  intros [Hin|[= -> ->]]; [by apply Ha|done].
Qed.

Lemma step_ok c c' : ok c -> step c c' -> ok c'.
Proof.
  intros Hok Hs. destruct Hs as [E i log nodes hb lt el u s Hi Hne E1 Hc|E i x s u s' Hi E1 Hc|E i rv s r s' Hin Hi E1 Hc
    |E i r s e s' Hin Hi E1 Hc|E i log fuel ru hb lt el s s' Hi Hk E1].
  - apply (finish_ok c i s (blank i) nobody); [done| |by eapply create_turn|done|by apply catch_up_nil].
    apply blank_fits; [done|]. intros t k Hin. destruct (ok_voters _ Hok _ _ _ Hin) as [[w Hw] _]. congruence.
  - destruct (ok_servers _ Hok _ _ Hi) as [Hf Hcu].
    apply (finish_ok c i s' (view_of s) nobody); [done|done| |done|by apply catch_up_nil].
    eapply handle_turn; [apply Hf|done|exact E1].
  - destruct (ok_servers _ Hok _ _ Hi) as [Hf Hcu].
    destruct (turn_serve_vote E rv s r s' (fits_wf _ _ _ Hf) E1) as [Ht [Hid Hv]].
    apply answered_ok; [apply (finish_ok c i s' (view_of s) nobody); [done|done|done|done|by apply catch_up_nil]|].
    intros Hg Hp. destruct (Hv Hg Hp) as [-> Hvoted]. rewrite Hid.
    replace (_node_id s) with i by (symmetry; apply Hf). rewrite <- Hvoted. apply own_vote.
    rewrite Hvoted. by eapply (ok_requests _ Hok).
  - destruct (ok_servers _ Hok _ _ Hi) as [Hf Hcu].
    apply (finish_ok c i s' (view_of s) (granted_by r (_current_term s)));
      [done|done|by eapply turn_reply; [apply Hf| |exact E1]| |by apply catch_up_nil].
    intros id (-> & Ht & Hp & Hg). change (v_term (view_of s)) with (_current_term s). rewrite <- Ht.
    by apply (ok_answers _ Hok).
  - destruct (ok_servers _ Hok _ _ Hi) as [Hf Hcu]. destruct (fits_id _ _ _ Hf) as [Hid _].
    assert (Hl : lose (_kv s) = _kv s) by (unfold lose; rewrite <- Hk; by destruct (_kv s)).
    rewrite Hl, <- Hid in E1. apply (restart_turn E log (view_of s)) in E1 as [Ht Hcu']; [|apply Hf].
    apply (finish_ok c i s' (view_of s) nobody); [done|done| |done|done].
    replace (view_of s) with ((view_of s) <| v_out := [] |>); [done|].
    rewrite <- (fits_out _ _ _ Hf). by destruct (view_of s).
Qed.

Lemma empty_ok : ok empty_cluster.
Proof. split; cbn; intros; set_solver. Qed.

Lemma reachable_ok c : rtc step empty_cluster c -> ok c.
Proof.
  intros Hr. pose proof empty_ok as Hok. revert Hok. induction Hr as [|c1 c2 c3 H1 _ IH]; [done|].
  intros Hok. apply IH. by eapply step_ok.
Qed.

(** C21: Every server of a reachable cluster is well formed: it has its number, the tables of members
    point to objects of these members, each once, the key-value store has its term and vote, and
    a candidate counts only votes that were given to it in its term. *)
Theorem reachable_servers_wf (c : cluster) (i : Z) (s : server) :
  rtc step empty_cluster c -> servers c !! i = Some s ->
  _node_id s = i /\
  tables_ok (_heap s) (_nodes s) (_new_nodes s) [] /\
  default 0 (kv_term (kv_tab (kv_commit (_kv s)))) = _current_term s /\
  (_voted_for s <> - 1 -> kv_vote_for (kv_tab (kv_commit (_kv s))) = Some (_voted_for s)) /\
  (_identity s = RAFT_STATE_CANDIDATE -> _prevote s = 0 ->
    forall id r, (id, r) ∈ _nodes s ++ _new_nodes s -> raft_node_has_vote_for_me (peer (_heap s) r) = true ->
    (id, _current_term s, i) ∈ votes c).
Proof.
  intros Hr Hs. destruct (ok_servers _ (reachable_ok _ Hr) _ _ Hs) as [Hf Hc].
  destruct (fits_saved _ _ _ Hf) as [Hterm Hvote].
  split; [exact (proj1 (fits_id _ _ _ Hf))|]. split.
  - pose proof (fits_wf _ _ _ Hf) as Hwf. unfold wf in Hwf. by rewrite Hc in Hwf.
  - split; [exact Hterm|]. split; [exact Hvote|]. intros Hi Hp id r Hx Hv.
    apply (fits_counts _ _ _ Hf (id, r) Hi Hp); [|exact Hv].
    unfold refs. rewrite Hc, app_nil_r. exact Hx.
Qed.

(** *** Two quorums meet *)

Lemma quorums_meet l l' (P P' : Z -> Prop) : l ≡ₚ l' -> quorum l P -> quorum l' P' -> exists id, P id /\ P' id.
Proof.
  intros Hl [Hnd (q & Hq & Hsub & Hlen & HP)] [_ (q' & Hq' & Hsub' & Hlen' & HP')].
  destruct (decide (Exists (fun x => x ∈ q') q)) as [Hex|Hno].
  - apply Exists_exists in Hex as (x & Hx & Hx'). eauto.
  - exfalso. assert (Hdis : NoDup (q ++ q')).
    { apply NoDup_app. split; [done|]. split; [|done]. intros x Hx Hx'. apply Hno. apply Exists_exists. eauto. }
    assert (Hle : (List.length (q ++ q') <= List.length l)%nat).
    { apply submseteq_length, NoDup_submseteq; [done|]. intros x [Hx|Hx]%elem_of_app; [by apply Hsub|].
      rewrite Hl. by apply Hsub'. }
    rewrite length_app, (Permutation_length Hl) in *. lia.
Qed.


(** ** Executions *)

(** A crash at any time, also with operations that are not written. *)
Inductive crash (c : cluster) : cluster -> Prop :=
| crash_restart E i log fuel ru hb lt el s s' :
    servers c !! i = Some s -> restart E log (lose (_kv s)) fuel ru i hb lt el = Some (Some 0, s') ->
    crash c (finish i s' c).

Inductive event :=
| EvCreate (i : Z) (log : DiskLog.disk_log B) (nodes : list Codec.raft_node_info)
| EvInput (i : Z) (x : input)
| EvRequest (k : nat)
| EvAnswer (k : nat)
| EvRestart (i : Z) (log : DiskLog.disk_log B).

Definition adds_none (s : server) : bool := match _catch_up_nodes (cfg s) with [] => true | _ => false end.

Definition guard (b : bool) {A} (x : A) : option A := if b then Some x else None.

(** The timeouts are the same in all executions. *)
Definition exec (lossy : bool) (E : env) (ev : event) (c : cluster) : option cluster :=
  match ev with
  | EvCreate i log nodes =>
      match servers c !! i, create E log nodes i 400 1000 4000 with
      | None, Some (_, s) => guard (negb (i =? - 1) && adds_none s) (finish i s c)
      | _, _ => None
      end
  | EvInput i x =>
      s ← servers c !! i; '(_, s') ← handle E x s; guard (adds_none s') (finish i s' c)
  | EvRequest k =>
      '(i, rv) ← requests c !! k; s ← servers c !! i; '(r, s') ← serve_vote E rv s;
      guard (adds_none s') (answered (rv_candidate_id rv) r (finish i s' c))
  | EvAnswer k =>
      '(i, r) ← answers c !! k; s ← servers c !! i; '(_, s') ← raft_process_requestvote_reply E r s;
      guard (adds_none s') (finish i s' c)
  | EvRestart i log =>
      s ← servers c !! i;
      if lossy || match kv_log (_kv s) with [] => true | _ => false end then
        match restart E log (lose (_kv s)) 2 4096 i 400 1000 4000 with
        | Some (Some 0, s') => Some (finish i s' c)
        | _ => None
        end
      else None
  end.

Definition run (lossy : bool) (evs : list (env * event)) (c : cluster) : option cluster :=
  foldl (fun c ev => c ← c; exec lossy (fst ev) (snd ev) c) (Some c) evs.

Definition moves (lossy : bool) (c c' : cluster) : Prop := step c c' \/ (lossy = true /\ crash c c').

Lemma adds_none_spec (s : server) : adds_none s = true -> _catch_up_nodes (cfg s) = [].
Proof. unfold adds_none. by destruct (_catch_up_nodes (cfg s)). Qed.

Lemma exec_moves lossy E ev c c' : exec lossy E ev c = Some c' -> moves lossy c c'.
Proof.
  destruct ev as [i log nodes|i x|k|k|i log]; cbn.
  - destruct (servers c !! i) eqn:E1; [done|]. destruct (create _ _ _ _ _ _ _) as [[u s]|] eqn:E2; [|done].
    unfold guard. destruct (negb _ && _) eqn:Eb; [|done]. intros [= <-]. apply andb_true_iff in Eb as [Hi Hc].
    left. eapply step_create; [done| |exact E2|by apply adds_none_spec]. intros ->. done.
  - destruct (servers c !! i) as [s|] eqn:E1; [|done]. cbn. destruct (handle E x s) as [[u s']|] eqn:E2; [|done]. cbn.
    unfold guard. destruct (adds_none s') eqn:Eb; [|done]. intros [= <-]. left.
    by eapply step_input; [done|exact E2|apply adds_none_spec].
  - destruct (requests c !! k) as [[i rv]|] eqn:E0; [|done]. cbn. destruct (servers c !! i) as [s|] eqn:E1; [|done]. cbn.
    destruct (serve_vote E rv s) as [[r s']|] eqn:E2; [|done]. cbn. unfold guard.
    destruct (adds_none s') eqn:Eb; [|done]. intros [= <-]. left. apply list_elem_of_lookup_2 in E0.
    by eapply step_request; [done|done|exact E2|apply adds_none_spec].
  - destruct (answers c !! k) as [[i r]|] eqn:E0; [|done]. cbn. destruct (servers c !! i) as [s|] eqn:E1; [|done]. cbn.
    destruct (raft_process_requestvote_reply E r s) as [[e s']|] eqn:E2; [|done]. cbn. unfold guard.
    destruct (adds_none s') eqn:Eb; [|done]. intros [= <-]. left. apply list_elem_of_lookup_2 in E0.
    by eapply step_answer; [done|done|exact E2|apply adds_none_spec].
  - destruct (servers c !! i) as [s|] eqn:E1; [|done]. cbn. destruct (lossy || _) eqn:Eb; [|done].
    destruct (restart _ _ _ _ _ _ _ _ _) as [[[[| |]|] s']|] eqn:E2; [|done..]. intros [= <-].
    apply orb_true_iff in Eb as [->|Hk]; [right; split; [done|]; by eapply crash_restart|].
    left. eapply step_restart; [done| |exact E2]. by destruct (kv_log (_kv s)).
Qed.

Lemma run_moves lossy evs c c' : run lossy evs c = Some c' -> rtc (moves lossy) c c'.
Proof.
  unfold run. revert c. induction evs as [|[E ev] evs IH]; intros c; cbn; [intros [= <-]; apply rtc_refl|].
  destruct (exec lossy E ev c) as [c1|] eqn:E1; cbn.
  - intros Hr. eapply rtc_l; [by eapply exec_moves|]. by apply IH.
  - intros Hr. exfalso. clear -Hr. induction evs as [|ev evs IH]; [done|]. auto.
Qed.

Lemma run_steps evs c c' : run false evs c = Some c' -> rtc step c c'.
Proof.
  intros Hr%run_moves. induction Hr as [|c1 c2 c3 Hm _ IH]; [apply rtc_refl|].
  eapply rtc_l; [|exact IH]. by destruct Hm as [|[? _]].
Qed.

End cluster.
(** ** Three servers *)

Section example.

(** No configuration is written in these executions. *)
#[local] Instance example_codec : ConfigCodec :=
  {| SerializeToString _ := []; ParseFromString _ := {| new_nodes := []; old_nodes := [] |} |}.

Definition at_time (t : Z) : env :=
  {| now := t; rand := 0; connected _ := true; stale _ := []; make_buffer_list n := replicate (Z.to_nat n) 0 |}.

Definition members3 : list Codec.raft_node_info :=
  (fun id => {| Codec.node_id := id; Codec.addr := []; Codec.port := 0 |}) <$> [1; 2; 3].

(** Server 1 is elected with the vote of server 2. *)
Definition election : list (env * event) :=
  ((fun i => (at_time 0, EvCreate i DiskLog.small_log members3)) <$> [1; 2; 3]) ++
  ((fun i => (at_time 0, EvInput i KvCommit)) <$> [1; 2; 3]) ++
  [(at_time 5000, EvInput 1 Periodic); (at_time 5000, EvRequest 0); (at_time 5000, EvAnswer 0);
   (at_time 5000, EvRequest 2); (at_time 5000, EvAnswer 1)].

Definition leader1 : announcement := {| a_term := 1; a_leader := 1; a_osds := [1; 2; 3]; a_new_osds := [] |}.


Lemma reachable_servers_wf_witness :
  exists (c : cluster (B := RollingBlob.mem_dev)) (s : raft_server_t RollingBlob.mem_dev),
    rtc step empty_cluster c /\ servers c !! 2 = Some s /\ _voted_for s = 1 /\
    kv_vote_for (kv_tab (kv_commit (_kv s))) = Some 1.
Proof.
  assert (Hl : (fun c => _voted_for <$> servers c !! 2) <$> run false election empty_cluster = Some (Some 1)) by by vm_compute.
  destruct (run false election empty_cluster) as [c|] eqn:Er; [|done]. injection Hl as Hl.
  apply run_steps in Er. destruct (servers c !! 2) as [s|] eqn:Es; [|done]. injection Hl as Hl.
  exists c, s. split; [exact Er|]. split; [exact Es|]. split; [exact Hl|].
  destruct (reachable_servers_wf c 2 s Er Es) as (_ & _ & _ & Hv & _). rewrite Hl in Hv. apply Hv. discriminate.
Defined.

(** *** A vote that is lost *)

(** The log of a server that has written none. *)
Definition reopened_log : DiskLog.disk_log RollingBlob.mem_dev :=
  DiskLog.new_disk_log
    (RollingBlob.new_rolling_blob 20480 (replicate 4096 0) (RollingBlob.dev (DiskLog._rblob DiskLog.synced_log))).

(** Server 2 crashes before its vote is written, and votes for server 3 in the same
    term. *)
Definition lost_vote : list (env * event) :=
  election ++
  [(at_time 6000, EvRestart 2 reopened_log); (at_time 6000, EvInput 2 Activate);
   (at_time 11000, EvInput 3 Periodic); (at_time 11000, EvRequest 5); (at_time 11000, EvAnswer 2);
   (at_time 11000, EvRequest 7); (at_time 11000, EvAnswer 3)].

Definition leader3 : announcement := {| a_term := 1; a_leader := 3; a_osds := [1; 2; 3]; a_new_osds := [] |}.

(** A server answers a request for its vote before the vote is written: after a crash
    there can be two leaders of the same term. *)
Theorem lost_vote_two_leaders :
  exists c : cluster (B := RollingBlob.mem_dev),
    rtc (moves true) empty_cluster c /\ leaders c = [leader1; leader3].
Proof.
  assert (Hl : leaders <$> run true lost_vote empty_cluster = Some [leader1; leader3]) by by vm_compute.
  destruct (run true lost_vote empty_cluster) as [c|] eqn:Er; [|done]. injection Hl as Hl.
  apply run_moves in Er. exists c. split; [exact Er|exact Hl].
Qed.

End example.
End RaftElection.
