(* ===== verification/RaftCommit.v ===== *)
(** * Commits of a placement group (src/raft)

    When a leader commits an entry, that flushing its queue comes to an end, and three
    ways in which the code departs from the protocol. *)

From stdpp Require Import list.
From S2P Require Import Prelude Wire Codec RollingBlob DiskLog RaftLog Raft RaftFrame RaftElection.
Import (hints) RollingBlob.
Import (hints) RaftLog.
Import (hints) Raft.

Module RaftCommit.
Import RaftLog Raft RaftFrame.

Section commits.
Context `{RollingBlob.BlobIo B} `{ConfigCodec}.

Abbreviation server := (raft_server_t B).

(** ** Majorities *)

(** A peer is known to have the log up to [index]. *)
Definition has_entry (h : list raft_node) (index : Z) (r : nat) : bool := index <=? _match_idx (nth r h no_node).

(** More than half of the peers of a table have it. *)
Definition majority_has (h : list raft_node) (index : Z) (nodes : list (Z * nat)) : Prop :=
  Z.of_nat (List.length nodes) / 2 < count_if (fun x => has_entry h index (snd x)) nodes.

Definition only_gains (index : Z) (h h' : list raft_node) : Prop :=
  forall r, has_entry h index r = true -> has_entry h' index r = true.

Lemma set_match_gains index r (h : list raft_node) : only_gains index h (alter (fun n => n <| _match_idx := index |>) r h).
Proof.
  intros r'. unfold has_entry. rewrite !nth_lookup. destruct (decide (r = r')) as [->|Hne].
  - rewrite list_lookup_alter_eq. destruct (h !! r'); cbn; [|done]. lia.
  - by rewrite list_lookup_alter_ne.
Qed.

Lemma count_gains index h h' (nodes : list (Z * nat)) :
  only_gains index h h' ->
  count_if (fun x => has_entry h index (snd x)) nodes <= count_if (fun x => has_entry h' index (snd x)) nodes.
Proof.
  intros Hg. induction nodes as [|x l IH]; [done|]. rewrite !count_if_cons.
  destruct (has_entry h index (snd x)) eqn:E1; [rewrite (Hg _ E1)|destruct (has_entry h' index (snd x))]; cbn; lia.
Qed.

(** What a call of [commit_func] leaves alone. *)
Definition same_tables (s s' : server) : Prop :=
  _nodes s' = _nodes s /\ _new_nodes s' = _new_nodes s /\ _commit_idx s' = _commit_idx s /\ _current_idx s' = _current_idx s.

(** The state after a call: the leader's own peer has the entry. *)
Definition counted (index node_id : Z) (r : nat) (s : server) : server :=
  if (_node_id s =? node_id) && (raft_node_get_id (nth r (_heap s) no_node) =? node_id)
  then s <| _heap ::= alter (fun n => n <| _match_idx := index |>) r |> else s.

Lemma commit_func_eq index node_id r votes leader (s : server) :
  let s' := counted index node_id r s in
  commit_func index node_id 0 r (votes, leader) s =
    Some ((if (_commit_idx s <? index) && (has_entry (_heap s') index r || false) then votes + 1 else votes,
           leader || ((raft_node_get_id (nth r (_heap s') no_node) =? _node_id s) && has_entry (_heap s') index r)), s').
Proof.
  cbv zeta. unfold commit_func, counted, mbind, M_bind, when, node, gets. cbv beta iota.
  by destruct ((_node_id s =? node_id) && (raft_node_get_id (nth r (_heap s) no_node) =? node_id)).
Qed.

Lemma counted_keeps index node_id r (s : server) :
  same_tables s (counted index node_id r s) /\ only_gains index (_heap s) (_heap (counted index node_id r s)).
Proof. unfold counted. destruct (_ && _); [split; [done|apply set_match_gains]|split; [done|by intros r']]. Qed.

Lemma same_tables_trans (s1 s2 s3 : server) : same_tables s1 s2 -> same_tables s2 s3 -> same_tables s1 s3.
Proof. unfold same_tables. intros (-> & -> & -> & ->). done. Qed.

Lemma commit_funcs_votes index node_id (l : list (Z * nat)) acc (s : server) acc' s' :
  commit_funcs index node_id 0 l.*2 acc s = Some (acc', s') ->
  same_tables s s' /\ only_gains index (_heap s) (_heap s') /\
  fst acc' <= fst acc + count_if (fun x => has_entry (_heap s') index (snd x)) l.
Proof.
  revert acc s. induction l as [|x l IH]; intros [votes leader] s; cbn [fmap list_fmap commit_funcs].
  - intros [= <- <-]. rewrite count_if_nil. split; [done|]. split; [by intros r|]. cbn. lia.
  - unfold mbind, M_bind. rewrite commit_func_eq. cbv zeta iota beta. set (s1 := counted index node_id (snd x) s).
    destruct (counted_keeps index node_id (snd x) s) as [Ht Hg]. fold s1 in Ht, Hg.
    intros (Ht2 & Hg2 & Hv)%IH. split; [by eapply same_tables_trans|]. split; [intros r Hr; auto|].
    rewrite count_if_cons. cbn [fst] in *. rewrite orb_false_r in Hv.
    destruct (_commit_idx s <? index); cbn [andb] in Hv; [|destruct (has_entry (_heap s') index (snd x)); cbn; lia].
    destruct (has_entry (_heap s1) index (snd x)) eqn:E1; [rewrite (Hg2 _ E1); cbn; lia|].
    destruct (has_entry (_heap s') index (snd x)); cbn; lia.
Qed.


(** ** Flushing the queue *)

Lemma flush_entries_queue {C} (q : list (raft_entry_t * ptr C)) count (l : raft_log C B) :
  let r := flush_entries q count l in
  count <= fst r /\ Z.of_nat (List.length (_entry_queue (snd r))) = Z.of_nat (List.length q) - (fst r - count).
Proof.
  revert count l. induction q as [|[e c] q IH]; intros count l; cbn [flush_entries]; cbv zeta; [cbn; lia|].
  destruct (raft_entry_is_cfg_change e); [cbn; lia|].
  match goal with |- context [flush_entries q (count + 1) ?l'] => specialize (IH (count + 1) l') end.
  cbv zeta in IH. destruct IH as [IH1 IH2]. split; [lia|]. cbn [List.length]. lia.
Qed.

(** A turn that moved entries leaves a shorter queue. *)
Lemma queue_flush_shorter (s : server) count s' :
  entry_queue_flush s = Some (count, s') -> count <> 0 ->
  (List.length (_entry_queue (_log s')) < List.length (_entry_queue (_log s)))%nat.
Proof.
  unfold entry_queue_flush, mbind at 1, M_bind at 1, this.
  destruct (_entry_queue (_log s)) as [|[e c] q] eqn:Eq; [intros [= <- _]; done|].
  destruct (raft_entry_is_cfg_change e).
  - unfold mbind at 1, M_bind at 1.
    match goal with |- context [(if ?b then ?x else ?y) s] => destruct ((if b then x else y) s) as [[u s1]|] end; [|done].
    unfold mbind at 1, M_bind at 1. unfold on_log at 1. unfold on_log.
    destruct (flush_entries q 1 _) as [n l] eqn:Ef.
    pose proof (flush_entries_queue q 1 (_log s1 <| _entry_queue := q |>)) as Hl. cbv zeta in Hl.
    cbn -[flush_entries] in Hl, Ef. rewrite Ef in Hl. intros E1 _.
    assert (s' = s1 <| _log := _log s1 <| _entry_queue := q |> |> <| _log := l |>) as -> by by injection E1.
    cbn in *. lia.
  - unfold on_log. destruct (flush_entries _ 0 _) as [n l] eqn:Ef.
    pose proof (flush_entries_queue ((e, c) :: q) 0 (_log s)) as Hl. cbv zeta in Hl. rewrite Ef in Hl.
    intros E1 Hc. assert (n = count) as -> by by injection E1.
    assert (s' = s <| _log := l |>) as -> by by injection E1. cbn in *. lia.
Qed.

Lemma this_bind {A} (k : server -> M B A) (s : server) : (this ≫= k) s = k s s.
Proof. done. Qed.

Lemma flush_turn_ext (E : env) (k k' : M B unit) (s : server) :
  (forall t : server, (List.length (_entry_queue (_log t)) < List.length (_entry_queue (_log s)))%nat -> k t = k' t) ->
  flush_turn E k s = flush_turn E k' s.
Proof.
  intros Hk. unfold flush_turn. rewrite (this_bind _ s). symmetry. rewrite (this_bind _ s). symmetry. cbv zeta.
  destruct (negb (raft_is_leader s)); [done|].
  assert (Hrec : (count ← entry_queue_flush; if count =? 0 then mret tt else m ← gets cfg;
      match _state m, _cfg_entry m with CFG_CATCHING_START, Some e => process_conf_change_entry E e | _, _ => k end) s =
    (count ← entry_queue_flush; if count =? 0 then mret tt else m ← gets cfg;
      match _state m, _cfg_entry m with CFG_CATCHING_START, Some e => process_conf_change_entry E e | _, _ => k' end) s).
  { unfold mbind, M_bind, gets. destruct (entry_queue_flush s) as [[count s1]|] eqn:E1; [|done].
    destruct (Z.eqb_spec count 0) as [|Hc]; [done|]. specialize (Hk s1 (queue_flush_shorter _ _ _ E1 Hc)).
    by destruct (_state (cfg s1)), (_cfg_entry (cfg s1)). }
  by destruct (_op_state s); [destruct (_ || _)..| |].
Qed.


End commits.
(** ** Departures from the protocol *)

Section departures.
Context `{RollingBlob.BlobIo B} `{ConfigCodec} (E : env).

Abbreviation server := (raft_server_t B).

Lemma commit_modify k (f : server -> server) : (forall s, _commit_idx (f s) = _commit_idx s) ->
  Inv (fun s => _commit_idx s = k) (modify f).
Proof. intros Hf. apply Inv_modify. intros s <-. apply Hf. Qed.

Ltac commit_step :=
  first
    [ apply Inv_ret | apply Inv_fail | apply Inv_this | apply Inv_gets | apply Inv_assert
    | solve [apply commit_modify; reflexivity] | apply Inv_when | apply Inv_mfor; intros ? | apply Inv_bind; [|intros ?]
    | match goal with |- Inv _ (match ?x with _ => _ end) => destruct x end ].

Ltac commit_kept := cbv zeta; repeat (commit_step; cbv zeta beta).

(** A new leader commits its whole log, whether other servers have it or not. *)
Theorem new_leader_commits_all (s s' : server) (u : unit) :
  raft_become_leader E s = Some (u, s') -> _commit_idx s' = _current_idx s.
Proof.
  unfold raft_become_leader. set (s1 := s <| _leader_id := _node_id s |> <| _identity := RAFT_STATE_LEADER |>).
  unfold mbind at 1, M_bind at 1. change (raft_set_identity RAFT_STATE_LEADER s) with (Some (tt, s1)). cbv iota beta.
  set (s2 := s1 <| _election_timer := now E |>). unfold mbind at 1, M_bind at 1.
  change (raft_set_election_timer E s1) with (Some (tt, s2)). cbv iota beta.
  unfold mbind at 1, M_bind at 1, gets at 1. set (idx := _current_idx s2).
  set (s3 := s2 <| _last_index_before_become_leader := idx |>). unfold mbind at 1, M_bind at 1.
  change (modify (fun s => s <| _last_index_before_become_leader := idx |>) s2) with (Some (tt, s3)). cbv iota beta.
  unfold mbind at 1, M_bind at 1. destruct (raft_set_commit_idx idx s3) as [[w s4]|] eqn:E4; [|done].
  assert (H4 : _commit_idx s4 = idx).
  { unfold raft_set_commit_idx, mbind, M_bind, this, assert in E4.
    destruct (_ <=? idx); [|done]. destruct (idx <=? _); [|done]. by injection E4 as _ <-. }
  change (_current_idx s) with idx. clearbody idx. clear - H4. revert H4.
  match goal with |- _ -> ?m s4 = _ -> _ => cut (Inv (fun t => _commit_idx t = idx) m); [intros Hi H4; exact (Hi s4 u s' H4)|] end.
  unfold for_all_node, raft_send_appendentries, create_appendentries, send_appendentries, raft_is_self, node, send,
    _send_leader_be_elected_notify, get_node_ids, get_new_node_ids, set_node, tell, raft_set_election_timer.
  commit_kept.
Qed.

Lemma write_entry_fails e (s : server) ret s' :
  raft_write_entry e NULL s = Some (ret, s') -> ret <> 0 -> s' = s.
Proof.
  unfold raft_write_entry, complete_ptr, mbind, M_bind, this, mret, M_ret. cbv beta iota.
  destruct (negb (raft_is_leader s)); [by intros [= _ <-]|].
  assert (Hrest : forall b, (if b : bool then (fun s : server => Some (RAFT_ERR_SNAPSHOT_IN_PROGRESS, s)) else
    (fun s0 : server => match on_log (fun l => (tt, log_enqueue (e <| e_term := _current_term s |>) NULL false l)) s0 with
                   | Some (_, s) => Some (0, s) | None => None end)) s = Some (ret, s') -> ret <> 0 -> s' = s).
  { intros [|]; [by intros [= _ <-]|]. unfold on_log. intros E1 Hr. exfalso. apply Hr. by injection E1. }
  destruct (_op_state s); try (by intros [= _ <-]); apply Hrest.
Qed.

(** A change of members that cannot be written to the log is never over: all later
    ones are refused. *)
Theorem failed_change_blocks (s s' : server) (e e' : raft_entry_t) (c : ptr context) (ret : Z) :
  is_busy s = false -> raft_configuration_entry e c s = Some (ret, s') -> ret <> 0 ->
  is_busy s' = true /\
  raft_configuration_entry e' NULL s' = Some (RAFT_ERR_MEMBERSHIP_CHANGING, s').
Proof.
  intros Hb. unfold raft_configuration_entry at 1. unfold mbind at 1, M_bind at 1, this at 1. rewrite Hb.
  set (s1 := s <| _configuration_manager ::= fun m => m <| _cfg_entry := Some e |> <| _cfg_complete := c |> |>
               <| _configuration_manager ::= fun m => m <| _state := CFG_CATCHING_START |> |>).
  unfold mbind at 1, M_bind at 1, set_cfg at 1, modify at 1. unfold mbind at 1, M_bind at 1, set_state, set_cfg at 1, modify at 1.
  fold s1. unfold mbind at 1, M_bind at 1. destruct (raft_write_entry e NULL s1) as [[r s2]|] eqn:E2; [|done].
  unfold mbind at 1, M_bind at 1. destruct (Z.eqb_spec r 0) as [->|Hr]; cbn [negb].
  { intros E3 Hret. exfalso. apply Hret. by injection E3. }
  apply write_entry_fails in E2 as ->; [|done]. unfold mbind at 1, M_bind at 1, reset_cfg_entry_complete, set_cfg, modify.
  set (s3 := s1 <| _configuration_manager ::= fun m => m <| _cfg_entry := NULL |> <| _cfg_complete := NULL |> |>).
  intros E3 _.
  assert (Hs' : _state (cfg s') = CFG_CATCHING_START).
  { destruct c as [[n|n]|]; by injection E3 as _ <-. }
  assert (Hbusy : is_busy s' = true) by (unfold is_busy; by rewrite Hs').
  split; [done|]. unfold raft_configuration_entry, mbind, M_bind, this. by rewrite Hbusy.
Qed.

End departures.

(** ** Instances *)

Section instances.
#[local] Existing Instance RaftElection.example_codec.

Abbreviation server := (raft_server_t RollingBlob.mem_dev).
Abbreviation at_time := RaftElection.at_time.

Definition peer_at (id match_idx : Z) : raft_node :=
  (new_raft_node {| Codec.node_id := id; Codec.addr := []; Codec.port := 0 |}) <| _match_idx := match_idx |>.

(** Server 1 leads, and has four committed entries and one that is not. *)
Definition leader_of_three (m1 m2 m3 : Z) : server :=
  (raft_new (at_time 0) DiskLog.small_log empty_kvs)
    <| _node_id := 1 |> <| _identity := RAFT_STATE_LEADER |> <| _op_state := RAFT_ACTIVE |>
    <| _nodes := [(1, 0%nat); (2, 1%nat); (3, 2%nat)] |> <| _heap := [peer_at 1 m1; peer_at 2 m2; peer_at 3 m3] |>
    <| _current_idx := 5 |> <| _commit_idx := 4 |>.


(** The answer of a follower that failed is counted as its vote: the entry is
    committed though only the leader has it. *)
Theorem failure_counts_as_vote :
  exists s' : server, raft_node_process_commit RAFT_ERR_UNKNOWN 5 2 (leader_of_three 5 4 4) = Some (tt, s') /\
    _commit_idx s' = 5 /\ ~ majority_has (_heap s') 5 (_nodes s').
Proof. eexists. split; [by vm_compute|]. split; [done|]. by vm_compute. Qed.

Definition plain_entry (term : Z) : raft_entry_t :=
  {| e_term := term; e_idx := 0; e_type := RAFT_LOGTYPE_WRITE; e_meta := []; e_data := [] |}.


Lemma failed_change_blocks_witness :
  let s := leader_of_three 4 4 4 <| _snapshot_in_progress := true |> in
  let e := cfg_entry_of RAFT_LOGTYPE_CONFIGURATION {| new_nodes := []; old_nodes := [] |} in
  exists s', raft_configuration_entry e NULL s = Some (RAFT_ERR_SNAPSHOT_IN_PROGRESS, s') /\
    raft_configuration_entry e NULL s' = Some (RAFT_ERR_MEMBERSHIP_CHANGING, s').
Proof.
  cbv zeta. destruct (raft_configuration_entry _ NULL _) as [[ret s']|] eqn:E1; [|by vm_compute in E1].
  assert (ret = RAFT_ERR_SNAPSHOT_IN_PROGRESS) as -> by by injection E1.
  exists s'. split; [done|]. 
  apply (failed_change_blocks (leader_of_three 4 4 4 <| _snapshot_in_progress := true |>) s' _ _ NULL _ ltac:(by vm_compute) E1). done.
Defined.

(** *** A follower that had to cut its log *)

(** Completions that the disk owes run in order. *)
Fixpoint settle (turns : nat) (s : server) : option server :=
  match turns with
  | O => None
  | S turns =>
      match List.partition (fun a => match a with DiskDone _ _ => true | _ => false end) (_out s) with
      | (DiskDone c r :: l, rest) =>
          match disk_done (at_time 0) c r (s <| _out := l ++ rest |>) with
          | Some (_, s) => settle turns s
          | None => None
          end
      | _ => Some s
      end
  end.

Definition append_request (term prev_idx prev_term : Z) (es : list raft_entry_t) : msg_appendentries_t :=
  {| ae_node_id := 1; ae_term := term; prev_log_idx := prev_idx; prev_log_term := prev_term; leader_commit := 0; entries := es |}.

Definition receive (ae : msg_appendentries_t) (n : Z) (s : server) : option server :=
  match (serve_append_entries ae n ;; do_flush (at_time 0)) s with
  | Some (_, s) => settle 4 s
  | None => None
  end.

Definition follower : server :=
  (raft_new (at_time 0) DiskLog.small_log empty_kvs)
    <| _node_id := 2 |> <| _op_state := RAFT_ACTIVE |> <| _nodes := [(1, 0%nat); (2, 1%nat)] |>
    <| _heap := [peer_at 1 0; peer_at 2 0] |>
    <| _configuration_manager ::= fun m => m <| _configurations := [{| Codec._index := 0; Codec._term := 0;
         Codec._nodes := []; Codec._new_nodes := [] |}] |> |>.

(** Two entries of term 1, then one of term 2 in the place of the second. *)
Definition cut_follower : option server :=
  s ← receive (append_request 1 0 0 [plain_entry 1; plain_entry 1]) 7 follower;
  receive (append_request 2 1 1 [plain_entry 2]) 8 s.

Definition completed (n : Z) (s : server) : bool :=
  existsb (fun a => match a with Complete m _ => m =? n | _ => false end) (_out s).

(** The new entry gets an index that is not the one of the place, so it is neither
    written nor is the request answered, and the follower handles no request any
    more. *)
Theorem cut_follower_stops :
  exists s, cut_follower = Some s /\ completed 7 s = true /\ completed 8 s = false /\ _in_progress s = true /\
    (e_idx <$> (entry <$> _entries (_log s))) = [1; 3] /\ raft_get_entry_term 2 s = None /\
    do_flush (at_time 0) s = Some (tt, s).
Proof.
  destruct cut_follower as [s|] eqn:E1; [|by vm_compute in E1]. exists s. split; [reflexivity|].
  assert (H1 : (fun s => (completed 7 s, completed 8 s, _in_progress s, e_idx <$> (entry <$> _entries (_log s)),
    raft_get_entry_term 2 s, _buffer s)) <$> cut_follower = Some (true, false, true, [1; 3], None, [])) by by vm_compute.
  rewrite E1 in H1. injection H1 as H1 H2 H3 H4 H5 H6. clear E1.
  split_and!; [exact H1|exact H2|exact H3|exact H4|exact H5|].
  unfold do_flush, mbind, M_bind, this. rewrite H6. reflexivity.
Qed.

End instances.

End RaftCommit.
